(* ===== verification/_CoqProject ===== *)
-Q . S2P
Prelude.v
Layout.v
FfTypes.v
Wire.v
Transport.v
WrQueue.v
SharedMem.v
MemReg.v
Request.v
DataPath.v
Completion.v
ShmChannel.v
Control.v
FlowSpec.v
Attrs.v
Marshall.v
Indexer.v
Events.v
Cma.v
CmaConn.v
CmaEvents.v
CmaDemo.v
CmaSystem.v
CmaDevices.v
CmaCalls.v
CmaMulticast.v
Vip.v
CmRouter.v
Sockets.v
Mapping.v
RateLimit.v
Rsocket.v
RsNet.v
RsItems.v
RsStream.v
RsSteps.v
RsPoll.v
RsConn.v
RsSafe.v
RsLive.v
RsIo.v
RsApi.v
RsIomap.v
RsSelect.v
RsAccept.v
RsHandshake.v
RsService.v
RsOptions.v
