(* ===== verification/Prelude.v ===== *)
(** * Verification of FreeFlow

    FreeFlow gives containers RDMA through a router process on the host.  An
    application in a container links modified verbs libraries (under
    src/libraries: libibverbs, librdmacm, libmlx4); instead of issuing commands to
    the kernel, they send requests to the router (src/ffrouter), which executes them
    with the host's own verbs library on the real device.  Buffers the application
    registers become shared memory, so that the data path moves only descriptors.

    Two channels join a client and the router.  The first is a UNIX socket with a
    header, a body and a response per call, for the control path.  The second is,
    for every queue, one page of shared memory with a state word that client and
    router poll, for posting work requests and polling completions.

    ** Files

    - [Prelude] (this file): machine integers with explicit wrap-around, little-endian
      byte strings, the outcome type [res] of C code (a value, exit, undefined
      behaviour, blocking for ever, out of fuel) with its monadic notation, the hint
      databases, generic lemmas.
    - [Layout]: C types as data; sizes, alignments and member offsets computed by the
      x86-64 ABI's rules.
    - [FfTypes]: the structures that cross the channels (freeflow-types.h,
      kern-abi.h, kern-abi_exp.h, verbs.h, rdma_cma_abi.h), the function codes and
      the states of a shared-memory channel.
    - [Wire]: the framing of requests.  The size tables of [request_router] in both
      libraries ([ibv_shape], [cm_shape]), those of the router's [HandleRequest]
      ([router_body], [router_size]), and its request loop ([router_requests]).
    - [Transport]: [src/freeflow.c] of both libraries: connecting, descriptor
      passing, the pool of connections with its mutexes, and the remote calls
      [request_router] and [cm_request_router] over a socket that delivers bytes in
      arbitrary chunks.
    - [WrQueue]: the ring of receive records per completion queue or SRQ, with its
      16-bit head and tail (freeflow.h; cmd.c).
    - [SharedMem], [MemReg]: address spaces whose pages can be mapped to shared
      objects, and memory registration over them ([ibv_cmd_reg_mr],
      [ibv_cmd_reg_mr_ff], [ibv_cmd_dereg_mr]; the router's IBV_REG_MR).
    - [Request]: the layout of a list of work requests in the request area of a
      channel: written by the client, pointers repaired by the router.
    - [DataPath]: [ibv_cmd_post_send], [ibv_cmd_post_recv], [ibv_cmd_post_srq_recv] and
      the branches of the router's [CtrlChannelLoop] that serve them.
    - [Completion]: [ibv_cmd_poll_cq] with the copying of received data, and the
      router's scan of completion queues.
    - [ShmChannel]: the shared-memory channel as a step relation that interleaves
      client threads and the router; [request_router_shm].
    - [Control]: creating, modifying and destroying objects: the client's verbs
      (cmd.c, cmd_exp.c) and the router's handlers with their tables, over an
      interface [HostVerbs] to the host's verbs library; its documented behaviour is
      the class [HostLaws], with an instance for the examples.
    - [FlowSpec]: flow steering: conversion of flow specifications over byte memory.
    - [Attrs]: queries of device and queue-pair attributes as tables of assignments
      between structures in memory.
    - [Marshall]: marshall.c, conversions between kernel and application structures.
    - [Indexer]: indexer.c, the index tables the connection manager keeps its
      identifiers in.
    - [Events]: completion channels and their events, in the library (verbs.c) and the
      router.
    - [Cma], [CmaConn]: cma.c, the connection manager: devices, event channels,
      identifiers, events, queries, migration ([Cma]); addresses, routes, queue pairs,
      connecting, accepting, endpoints ([CmaConn]).  The library's globals and blocks
      are the record [cma], its functions live in a state monad with the outcomes of
      [res]; router, kernel and verbs library are the class [CmEnv].
    - [CmaEvents], [CmaSystem], [CmaDevices]: what the kernel promises about the events it
      reports (class [CmLaws]), the steps of an application's threads and their
      interleavings, the invariants.  [CmaDemo]: a small kernel with both instances.
    - [CmaCalls]: start-up of the connection manager, and private data.  [CmaMulticast]: multicast
      groups, rejecting, notifying, shared receive queues.
    - [CmRouter]: the router's CM handlers and the functions of its copy of librdmacm.
    - [Vip]: the router's table of virtual addresses and its choice of a host address.
    - [Sockets]: the router's SOCKET handlers.
    - [Mapping]: shared-memory pieces, the router's tables of regions and keys, and
      their exchange between routers.
    - [RateLimit]: tokenbucket.h and the wait of the slow send path.
    - [Rsocket]: rsocket.c, stream sockets: messages, credits, the completion queue, one chunk
      sent or received.  [RsConn]: creating an endpoint, the connection data, [rs_do_connect].
      [RsIo]: [rsend], [rsendv], [rrecv], [rs_poll_rs], [rshutdown], [rclose].  The device and the
      connection manager are the classes [RsEnv], [RsSetup] and [RsClose].
    - [RsNet]: two sockets and the reliable connection between them as a step relation.
      [RsItems], [RsStream]: what is in the queues and buffers, and the invariant; [RsSteps],
      [RsPoll]: each piece of code keeps it; [RsSafe]: endpoints made by [rs_create_ep] that exchanged
      their data are in it; [RsLive]: the theorems on the steps; [RsApi]: the calls as steps.
    - [RsIomap]: memory mapped for the peer: [riomap], [riounmap], [riowrite] (class [RsMap]).
      [RsAccept]: the defaults, the table of sockets, [rsocket], [rbind], [rlisten], [raccept],
      [rconnect] and [rclose] over a process (classes [RsOs], [RsCm]).  [RsHandshake]: a client and a server.
      [RsSelect]: [rpoll] and [rselect] over the table of sockets and the system's poll (class [OsPoll]).
    - [RsService]: the thread that sends keep-alive messages.  [RsOptions]: [rsetsockopt], [rgetsockopt]
      and [rfcntl] over it (class [RsOpt]).

    Names of definitions are the source's wherever the source has one; a definition
    that is a part of a C function says so.  A C function that mutates globals takes
    and returns the record that holds them.  Memory errors, exits and calls that never
    return are values of [res], so that a theorem that a call "returns" excludes them.

    ** What the theorems show

    - The data path is faithful end to end: posting a send or a receive hands the
      device the application's work requests with every address moved to the router's
      mapping of the same bytes ([post_send_end_to_end], [post_recv_end_to_end]), and
      polling returns the device's completions with the data in the application's
      buffers ([poll_cq_end_to_end]).  It rests on registration making buffer, object
      and mapping the same memory ([reg_mr_sound]) and on the ring being a FIFO
      ([ring_refines_fifo]).
    - The shared-memory channel is linearizable for every interleaving, and no thread
      in a call is stuck ([shm_channel_linearizable], [shm_channel_progress],
      [request_router_shm_returns]).
    - Over the sockets both ends agree on framing and content
      ([requests_roundtrip], [ibv_framing], [cm_framing]), remote calls return what the
      handler produced ([request_router_call], [cm_request_router_call]), and locks
      are released ([cm_request_router_unlocks]).
    - The control path keeps the tables of all clients and of the router consistent:
      each live queue has exactly one channel, shared by its owner and the router
      ([control_channels_linked], [create_qp_forwards]).
    - Attribute queries and conversions deliver every member exactly
      ([exp_query_device_exact], [query_qp_exact], [marshalling_exact]); flow commands stay in their buffer
      ([flow_command_fits], [create_flow_size_limit]); the index tables are finite maps ([indexer_refines], [index_map_refines]).
    - Events of completion queues reach the object they belong to ([events_delivered]).
      Events of the connection manager keep their identifier alive, destruction
      waits for them and no longer, devices are counted ([events_accounted],
      [destroy_returns], [devices_counted]).  Multicast groups are joined and left exactly ([multicast_exact]).
    - The router passes connection-manager commands on unchanged but for addresses
      ([commands_reach_kernel], [addresses_translated], [host_ip_by_prefix]), gives
      regions private memory and tells the other routers where it is
      ([pieces_private], [mapping_distributed]), and keeps its descriptors
      ([sockets_balanced]).
    - Two stream sockets transfer a pipe of bytes in each direction under every interleaving
      ([stream_refines]); flow control keeps writes inside the peer's memory and its queues from
      overflowing ([flow_control_safe], [sockets_typed]); they do not deadlock ([no_deadlock]).  The
      calls send a prefix of the data and return the next bytes, and without waiting they return
      ([send_calls_stream], [rrecv_stream]).  The table of
      descriptors is exact ([descriptors_exact]); [rconnect] and [raccept] end with two sockets in the
      state those theorems start from ([handshake]); a connection attempt ends connected, in progress or in the error
      state ([connect_outcome]).
    - Mappings have entries of the peer's table to themselves ([mappings_private]), writes through them
      stay inside ([riowrite_in_mapping]), and at the end of one [riowrite] goes on for ever
      ([riowrite_stalls]).  [rselect] and [rpoll] ask for and report exactly what they should
      ([select_exact], [rpoll_counts]).  Options read back as they were taken ([options_roundtrip]), and the keep-alive
      service is a map from sockets to the times they are due ([service_refines]).
    - The remaining theorems state precisely where the code departs from what it
      means to do, each with the inputs on which it happens: the ring's real capacity,
      the address handle used for every datagram of a list, the scan that does not
      end, the burst that contending senders share, the private data that does not
      fit, the channel that is created when it should be closed.  Lemmas of the
      components show further ones (a write failure that goes unnoticed, a poll error that
      wedges the queue, the reported failed request and others).

    ** Bounds and fuel

    Loops over lists recurse on them.  The response loop of a remote call takes fuel;
    the theorems give one step per byte of the response, the most a call can need.
    The client's polling loop is run on the sequence of states it reads.  The
    progress theorem of the channel bounds the steps by eight.  The loops of the socket calls take
    fuel; a call that does not wait returns when it exceeds the bytes asked for and the
    completions two queues of the greatest size can hold.  No theorem bounds the
    number of clients, threads, queues or requests.  The capacity of the tables
    ([MAP_SIZE], [WR_QUEUE_SIZE], 1024 bytes of a flow command, 65536 indices) is the
    source's.

    ** Not modelled

    The kernel, the device and the host's verbs library are parameters.  Device
    discovery, sysfs and the mlx4 provider (hardware queues), the preload
    library and process start are left out, as are verbs whose request to the kernel
    was removed and not replaced.  Of the connection manager the address lookup
    through a resolver (acm.c, addrinfo.c) is left out, of rsocket.c datagram sockets with their
    service thread.  The
    theorems about two sockets cover
    devices that have RDMA writes with immediate data, and sockets without mappings.  Its
    locks are left out: the steps are the pieces of code between which another thread can act, and
    a piece is not interrupted. *)

From stdpp Require Export gmap strings list fin_maps numbers.
From Stdlib Require Export ZArith Lia.

#[export] Set Default Goal Selector "!".
#[export] Set Warnings "-clear-no-such-hyp,-register-all".

Declare Scope ff_scope.
Delimit Scope ff_scope with ff.
Open Scope Z_scope.

(** ** Machine integers

    A C integer of width [w] is a [Z]; every operation that can leave its
    range is written with an explicit wrap. *)

Definition u8 (z : Z) : Z := z mod 2 ^ 8.
Definition u16 (z : Z) : Z := z mod 2 ^ 16.
Definition u32 (z : Z) : Z := z mod 2 ^ 32.
Definition u64 (z : Z) : Z := z mod 2 ^ 64.

(** Two's-complement reading of the low [w] bits. *)
Definition sint (w z : Z) : Z :=
  let m := z mod 2 ^ w in
  if Z.ltb m (2 ^ (w - 1)) then m else m - 2 ^ w.
Definition s32 (z : Z) : Z := sint 32 z.

Notation "x ⊕16 y" := (u16 (x + y)) (at level 50, left associativity) : ff_scope.
Notation "x ⊕32 y" := (u32 (x + y)) (at level 50, left associativity) : ff_scope.
Notation "x ⊕64 y" := (u64 (x + y)) (at level 50, left associativity) : ff_scope.

Open Scope ff_scope.

Section MachineInts.
Implicit Types x y z w : Z.

Lemma u16_range z : 0 ≤ u16 z < 65536.
Proof. unfold u16. change (2 ^ 16) with 65536. apply Z.mod_pos_bound. lia. Qed.

Lemma u32_range z : 0 ≤ u32 z < 4294967296.
Proof. unfold u32. change (2 ^ 32) with 4294967296. apply Z.mod_pos_bound. lia. Qed.

Lemma u64_range z : 0 ≤ u64 z < 2 ^ 64.
Proof. unfold u64. apply Z.mod_pos_bound. lia. Qed.

Lemma u16_id z : 0 ≤ z < 65536 → u16 z = z.
Proof. intros. unfold u16. apply Z.mod_small. lia. Qed.

Lemma u32_id z : 0 ≤ z < 4294967296 → u32 z = z.
Proof. intros. unfold u32. apply Z.mod_small. lia. Qed.

Lemma u64_id z : 0 ≤ z < 2 ^ 64 → u64 z = z.
Proof. intros. unfold u64. by apply Z.mod_small. Qed.

Lemma u16_add_l x y : u16 (u16 x + y) = u16 (x + y).
Proof. unfold u16. by rewrite Zplus_mod_idemp_l. Qed.

Lemma u32_add_l x y : u32 (u32 x + y) = u32 (x + y).
Proof. unfold u32. by rewrite Zplus_mod_idemp_l. Qed.

Lemma u64_add_l x y : u64 (u64 x + y) = u64 (x + y).
Proof. unfold u64. by rewrite Zplus_mod_idemp_l. Qed.

Lemma u64_add_r x y : u64 (x + u64 y) = u64 (x + y).
Proof. unfold u64. by rewrite Zplus_mod_idemp_r. Qed.

Lemma u64_sub_l x y : u64 (u64 x - y) = u64 (x - y).
Proof. unfold u64. by rewrite Zminus_mod_idemp_l. Qed.

(** Equal residues a power of two apart less than the modulus are equal. *)
Lemma mod_small_inj m x y : 0 < m → x mod m = y mod m → 0 ≤ x - y < m → x = y.
Proof.
  intros Hm Heq Hr.
  assert ((x - y) mod m = 0) as H0.
  { rewrite Zminus_mod, Heq, Z.sub_diag. apply Z.mod_0_l. lia. }
  rewrite Z.mod_small in H0 by lia. lia.
Qed.
End MachineInts.

(** ** Little-endian byte strings *)

Fixpoint le_bytes (n : nat) (z : Z) : list Z :=
  match n with
  | O => []
  | S n => z mod 256 :: le_bytes n (z / 256)
  end.

Fixpoint le_val (bs : list Z) : Z :=
  match bs with
  | [] => 0
  | b :: bs => b + 256 * le_val bs
  end.

Lemma length_le_bytes n z : length (le_bytes n z) = n.
Proof. revert z. induction n; intros; cbn; auto. Qed.

Lemma le_val_bytes n z : 0 ≤ z < 256 ^ Z.of_nat n → le_val (le_bytes n z) = z.
Proof.
  revert z. induction n as [|n IH]; intros z Hz.
  - cbn in *. lia.
  - cbn [le_bytes le_val]. rewrite Nat2Z.inj_succ, Z.pow_succ_r in Hz by lia.
    rewrite IH.
    + pose proof (Z.div_mod z 256). lia.
    + split; [apply Z.div_pos; lia|]. apply Z.div_lt_upper_bound; lia.
Qed.

(** ** Lists *)

Definition lenZ {A} (l : list A) : Z := Z.of_nat (length l).

Lemma lenZ_nonneg {A} (l : list A) : 0 ≤ lenZ l.
Proof. unfold lenZ. lia. Qed.

Lemma lenZ_app {A} (l k : list A) : lenZ (l ++ k) = lenZ l + lenZ k.
Proof. unfold lenZ. rewrite length_app. lia. Qed.

Lemma lenZ_cons {A} (x : A) l : lenZ (x :: l) = 1 + lenZ l.
Proof. unfold lenZ. cbn [length]. lia. Qed.

Definition takeZ {A} (n : Z) (l : list A) : list A := take (Z.to_nat n) l.
Definition dropZ {A} (n : Z) (l : list A) : list A := drop (Z.to_nat n) l.

Lemma takeZ_app_exact {A} (l k : list A) n : n = lenZ l → takeZ n (l ++ k) = l.
Proof. intros ->. unfold takeZ, lenZ. rewrite Nat2Z.id. apply take_app_length. Qed.

Lemma dropZ_app_exact {A} (l k : list A) n : n = lenZ l → dropZ n (l ++ k) = k.
Proof. intros ->. unfold dropZ, lenZ. rewrite Nat2Z.id. apply drop_app_length. Qed.

Lemma takeZ_dropZ {A} n (l : list A) : takeZ n l ++ dropZ n l = l.
Proof. apply take_drop. Qed.

Lemma lenZ_takeZ {A} n (l : list A) : 0 ≤ n ≤ lenZ l → lenZ (takeZ n l) = n.
Proof. unfold lenZ, takeZ. intros. rewrite length_take. lia. Qed.
Lemma lenZ_dropZ {A} n (l : list A) : 0 ≤ n ≤ lenZ l → lenZ (dropZ n l) = lenZ l - n.
Proof. unfold lenZ, dropZ. intros. rewrite length_drop. lia. Qed.

(** ** Counting the entries of a map *)

Definition count {A} (P : Z → A → bool) (m : gmap Z A) : Z :=
  Z.of_nat (size (filter (λ x, P x.1 x.2 = true) m)).

(** What the entry at [k] adds. *)
Definition contrib {A} (P : Z → A → bool) (m : gmap Z A) (k : Z) : Z :=
  match m !! k with Some x => Z.b2z (P k x) | None => 0 end.

Section Counting.
Context {A : Type}.
Implicit Types (P Q : Z → A → bool) (m : gmap Z A).

Lemma count_nonneg P m : 0 ≤ count P m.
Proof. unfold count. lia. Qed.

Lemma count_empty P : count P ∅ = 0.
Proof. unfold count. by rewrite map_filter_empty. Qed.

Lemma count_insert P m k x : m !! k = None → count P (<[k := x]> m) = count P m + Z.b2z (P k x).
Proof.
  intros Hk. unfold count. destruct (P k x) eqn:E; cbn [Z.b2z].
  - rewrite map_filter_insert_True by done. rewrite map_size_insert_None; [lia|].
    apply map_lookup_filter_None. by left.
  - rewrite map_filter_insert_not' by (cbn; rewrite ?E; intros; congruence). lia.
Qed.

Lemma count_delete P m k : count P m = count P (delete k m) + contrib P m k.
Proof.
  unfold contrib. destruct (m !! k) as [x|] eqn:E.
  - rewrite <- (insert_delete_id m k x E) at 1. apply count_insert. apply lookup_delete_eq.
  - rewrite delete_id by done. lia.
Qed.

Lemma count_ext P Q m : (∀ j x, m !! j = Some x → P j x = Q j x) → count P m = count Q m.
Proof.
  intros H. unfold count. f_equal. f_equal. apply map_filter_ext. intros i x Hx. cbn. by rewrite (H i x Hx).
Qed.

(** Counts of maps and predicates that agree except at [k]. *)
Lemma count_off P Q m m' k :
  (∀ j, j ≠ k → m' !! j = m !! j) → (∀ j x, j ≠ k → m !! j = Some x → Q j x = P j x) →
  count Q m' = count P m - contrib P m k + contrib Q m' k.
Proof.
  intros Hm HP. rewrite (count_delete P m k), (count_delete Q m' k).
  assert (delete k m' = delete k m) as ->.
  { apply map_eq. intros j. destruct (decide (j = k)) as [->|Hj]; [by rewrite !lookup_delete_eq|].
    by rewrite !lookup_delete_ne, Hm by done. }
  rewrite (count_ext Q P); [lia|]. intros j x [Hj Hx]%lookup_delete_Some. by apply HP.
Qed.

Lemma count_pos P m k x : m !! k = Some x → P k x = true → 0 < count P m.
Proof.
  intros Hk HP. rewrite (count_delete P m k). unfold contrib. rewrite Hk, HP. cbn.
  pose proof (count_nonneg P (delete k m)). lia.
Qed.

Lemma count_witness P m : 0 < count P m → ∃ k x, m !! k = Some x ∧ P k x = true.
Proof.
  unfold count. intros H. destruct (map_choose (filter (λ x, P x.1 x.2 = true) m)) as (k & x & Hx).
  - intros E. rewrite E, map_size_empty in H. lia.
  - apply map_lookup_filter_Some in Hx. by exists k, x.
Qed.

Lemma count_zero P m : count P m = 0 ↔ ∀ k x, m !! k = Some x → P k x = false.
Proof.
  split.
  - intros H0 k x Hk. destruct (P k x) eqn:E; [|done]. pose proof (count_pos P m k x Hk E). lia.
  - intros H. rewrite (count_ext P (λ _ _, false)) by done. unfold count.
    replace (filter _ m) with (∅ : gmap Z A); [done|]. symmetry. apply map_empty. intros i.
    apply map_lookup_filter_None. right. by intros x _ [=].
Qed.
End Counting.

Create HintDb ff.
Create Rewrite HintDb ff.
#[export] Hint Rewrite @lenZ_app @lenZ_cons length_le_bytes : ff.
#[export] Hint Resolve lenZ_nonneg u16_range u32_range u64_range : ff.

(** Case analysis on the boolean comparisons in the goal, turned into
    arithmetic facts. *)
Ltac zbool :=
  repeat match goal with
  | |- context [Z.ltb ?a ?b] => destruct (Z.ltb_spec a b)
  | |- context [Z.leb ?a ?b] => destruct (Z.leb_spec a b)
  | |- context [Z.eqb ?a ?b] => destruct (Z.eqb_spec a b)
  end.

(** ** Outcomes of C code

    A computation returns, terminates the process with [exit], has undefined
    behaviour (out-of-bounds access, null or dangling pointer), blocks forever in
    a system call, or has not finished within the fuel its loops were given. *)
Inductive res (A : Type) :=
  | Ok (a : A)
  | Exit (code : Z)
  | UB (why : string)
  | Blocked
  | OutOfFuel.
Arguments Ok {A} a.
Arguments Exit {A} code.
Arguments UB {A} why.
Arguments Blocked {A}.
Arguments OutOfFuel {A}.

Definition rbind {A B} (m : res A) (f : A → res B) : res B :=
  match m with
  | Ok a => f a
  | Exit c => Exit c
  | UB s => UB s
  | Blocked => Blocked
  | OutOfFuel => OutOfFuel
  end.

Notation "'let*' x := m 'in' k" := (rbind m (λ x, k))
  (at level 10, x pattern, m at level 100, k at level 200) : ff_scope.
Notation "'do*' m ; k" := (rbind m (λ _ : (), k))
  (at level 10, m at level 100, k at level 200) : ff_scope.

(** Reading a cell that may be a null pointer. *)
Definition deref {A} (why : string) (o : option A) : res A :=
  match o with Some a => Ok a | None => UB why end.

(** Indexing a C array of [n] elements. *)
Definition in_bounds (why : string) (i n : Z) : res unit :=
  if Z.leb 0 i && Z.ltb i n then Ok () else UB why.

Lemma res_bind_Ok {A B} (m : res A) (f : A → res B) b :
  rbind m f = Ok b ↔ ∃ a, m = Ok a ∧ f a = Ok b.
Proof. destruct m; cbn; naive_solver. Qed.

Lemma in_bounds_Ok why i n : in_bounds why i n = Ok () ↔ 0 ≤ i < n.
Proof. unfold in_bounds. zbool; cbn; naive_solver lia. Qed.

(** Splits a computation that returned into its steps. *)
Ltac run H :=
  lazymatch type of H with
  | rbind _ _ = Ok _ =>
      let x := fresh "x" in let Hx := fresh "Hx" in
      apply res_bind_Ok in H as (x & Hx & H);
      repeat match goal with y : (_ * _)%type |- _ => destruct y end; run H
  | _ => idtac
  end.
