(* ===== verification/Layout.v ===== *)
(** * C data layout

    The x86-64 System V layout of the C types the wire protocol and the shared
    memory areas are made of: sizes, alignments and field offsets, and the
    lemmas the other files use (a field lies inside its struct, two fields of a
    struct do not overlap, a size is a multiple of the alignment). *)

From S2P Require Import Prelude.

(** The C types that occur in the headers.  [CExt] is a libc type whose size and
    alignment are fixed by the platform ABI (e.g. [struct sockaddr_in6]). *)
Inductive cty :=
  | CInt (n : Z)
  | CPtr
  | CArr (n : Z) (t : cty)
  | CStruct (fs : list (string * cty))
  | CUnion (fs : list (string * cty))
  | CExt (size align : Z).

(** Round [off] up to a multiple of [a]. *)
Definition round_up (off a : Z) : Z := (off + a - 1) / a * a.

Fixpoint alignof (t : cty) : Z :=
  match t with
  | CInt n => n
  | CPtr => 8
  | CArr _ t => alignof t
  | CStruct fs | CUnion fs =>
      (fix go (fs : list (string * cty)) : Z :=
         match fs with
         | [] => 1
         | (_, t) :: fs => Z.max (alignof t) (go fs)
         end) fs
  | CExt _ a => a
  end.

Fixpoint sizeof (t : cty) : Z :=
  match t with
  | CInt n => n
  | CPtr => 8
  | CArr n t => n * sizeof t
  | CStruct fs =>
      round_up
        ((fix go (off : Z) (fs : list (string * cty)) : Z :=
            match fs with
            | [] => off
            | (_, t) :: fs => go (round_up off (alignof t) + sizeof t) fs
            end) 0 fs)
        (alignof t)
  | CUnion fs =>
      round_up
        ((fix go (fs : list (string * cty)) : Z :=
            match fs with
            | [] => 0
            | (_, t) :: fs => Z.max (sizeof t) (go fs)
            end) fs)
        (alignof t)
  | CExt s _ => s
  end.

(** The members of a struct, with their offsets, laid out from [off]. *)
Fixpoint members (off : Z) (fs : list (string * cty)) : list (string * Z * cty) :=
  match fs with
  | [] => []
  | (n, t) :: fs =>
      let o := round_up off (alignof t) in (n, o, t) :: members (o + sizeof t) fs
  end.

Fixpoint end_of (off : Z) (fs : list (string * cty)) : Z :=
  match fs with
  | [] => off
  | (_, t) :: fs => end_of (round_up off (alignof t) + sizeof t) fs
  end.

Fixpoint find_member (n : string) (ms : list (string * Z * cty)) : option (Z * cty) :=
  match ms with
  | [] => None
  | (n', o, t) :: ms => if String.eqb n n' then Some (o, t) else find_member n ms
  end.

Definition offsetof (t : cty) (n : string) : option Z :=
  match t with
  | CStruct fs => fst <$> find_member n (members 0 fs)
  | _ => None
  end.

(** Types whose integers are non-empty and whose alignments are positive: the
    only ones C has. *)
Fixpoint wf_cty (t : cty) : bool :=
  match t with
  | CInt n => Z.ltb 0 n
  | CPtr => true
  | CArr n t => Z.leb 0 n && wf_cty t
  | CStruct fs | CUnion fs =>
      (fix go (fs : list (string * cty)) : bool :=
         match fs with
         | [] => true
         | (_, t) :: fs => wf_cty t && go fs
         end) fs
  | CExt s a => Z.leb 0 s && Z.ltb 0 a
  end.

Definition wf_members (fs : list (string * cty)) : bool := forallb (λ f, wf_cty f.2) fs.

Section Layout.
Implicit Types (t : cty) (fs : list (string * cty)) (off a : Z).

Lemma round_up_ge off a : 0 < a → off ≤ round_up off a.
Proof. intros. unfold round_up. pose proof (Z.div_mod (off + a - 1) a). pose proof (Z.mod_pos_bound (off + a - 1) a). nia. Qed.

Lemma round_up_lt off a : 0 < a → round_up off a < off + a.
Proof. intros. unfold round_up. pose proof (Z.div_mod (off + a - 1) a). pose proof (Z.mod_pos_bound (off + a - 1) a). nia. Qed.

Lemma round_up_divide off a : (a | round_up off a).
Proof. unfold round_up. exists ((off + a - 1) / a). done. Qed.

Lemma cty_ind' (P : cty → Prop) :
  (∀ n, P (CInt n)) → P CPtr → (∀ n t, P t → P (CArr n t)) →
  (∀ fs, Forall (λ f, P f.2) fs → P (CStruct fs)) →
  (∀ fs, Forall (λ f, P f.2) fs → P (CUnion fs)) →
  (∀ s a, P (CExt s a)) → ∀ t, P t.
Proof.
  intros HI HP HA HS HU HE. fix IH 1. intros [n| |n t|fs|fs|s a].
  - apply HI.
  - apply HP.
  - apply HA, IH.
  - apply HS. induction fs as [|[m t] fs IHfs]; constructor; [apply IH|apply IHfs].
  - apply HU. induction fs as [|[m t] fs IHfs]; constructor; [apply IH|apply IHfs].
  - apply HE.
Qed.

Lemma wf_struct fs : wf_cty (CStruct fs) = wf_members fs.
Proof. induction fs as [|[n t] fs IH]; [done|]. cbn in *. by rewrite IH. Qed.

Lemma sizeof_struct fs : sizeof (CStruct fs) = round_up (end_of 0 fs) (alignof (CStruct fs)).
Proof. reflexivity. Qed.

Lemma alignof_pos t : wf_cty t = true → 0 < alignof t.
Proof.
  induction t as [n| |n t IH|fs IH|fs IH|s a] using cty_ind'; cbn; intros Hwf.
  - lia.
  - lia.
  - apply andb_prop in Hwf as [_ ?]. auto.
  - induction fs as [|[m t] fs IHfs]; [lia|]. apply Forall_cons_1 in IH as [IHt IHf].
    apply andb_prop in Hwf as [Ht Hf]. specialize (IHt Ht). specialize (IHfs IHf Hf).
    cbn in *. lia.
  - induction fs as [|[m t] fs IHfs]; [lia|]. apply Forall_cons_1 in IH as [IHt IHf].
    apply andb_prop in Hwf as [Ht Hf]. specialize (IHt Ht). specialize (IHfs IHf Hf).
    cbn in *. lia.
  - lia.
Qed.

Lemma end_of_ge off fs :
  wf_members fs = true → Forall (λ f, 0 ≤ sizeof f.2) fs → off ≤ end_of off fs.
Proof.
  revert off. induction fs as [|[n t] fs IH]; cbn; intros off Hwf Hs; [lia|].
  apply andb_prop in Hwf as [Ht Hwf]. apply Forall_cons_1 in Hs as [Hst Hs]. cbn in *.
  pose proof (round_up_ge off (alignof t) (alignof_pos t Ht)).
  specialize (IH (round_up off (alignof t) + sizeof t) Hwf Hs). lia.
Qed.

Lemma wf_members_Forall fs : wf_members fs = true → Forall (λ f, wf_cty f.2 = true) fs.
Proof.
  induction fs as [|f fs IH]; cbn; intros H; [constructor|].
  apply andb_prop in H as [? ?]. constructor; auto.
Qed.

Lemma sizeof_nonneg t : wf_cty t = true → 0 ≤ sizeof t.
Proof.
  induction t as [n| |n t IH|fs IH|fs IH|s a] using cty_ind'; intros Hwf.
  - cbn in *. lia.
  - cbn. lia.
  - cbn in *. apply andb_prop in Hwf as [? ?]. specialize (IH ltac:(done)). nia.
  - pose proof (alignof_pos _ Hwf) as Ha. rewrite sizeof_struct.
    rewrite wf_struct in Hwf.
    etransitivity; [|by apply round_up_ge]. apply end_of_ge; [done|].
    apply wf_members_Forall in Hwf.
    clear Ha. induction Hwf; inversion IH; subst; constructor; auto.
  - pose proof (alignof_pos _ Hwf) as Ha. cbn [sizeof].
    etransitivity; [|by apply round_up_ge].
    clear. induction fs as [|[n t] fs IHfs]; lia.
  - cbn in *. lia.
Qed.

(** The size of a struct is a multiple of its alignment, so the elements of an
    array of structs are all aligned. *)
Lemma sizeof_struct_divide fs : (alignof (CStruct fs) | sizeof (CStruct fs)).
Proof. rewrite sizeof_struct. apply round_up_divide. Qed.

Lemma members_after off fs n o t :
  wf_members fs = true → (n, o, t) ∈ members off fs →
  off ≤ o ∧ (alignof t | o) ∧ o + sizeof t ≤ end_of off fs ∧ 0 ≤ sizeof t.
Proof.
  revert off. induction fs as [|[m u] fs IH]; cbn; intros off Hwf Hin.
  - by apply not_elem_of_nil in Hin.
  - apply andb_prop in Hwf as [Hu Hwf]. cbn in Hu.
    pose proof (round_up_ge off _ (alignof_pos u Hu)).
    pose proof (sizeof_nonneg u Hu).
    apply elem_of_cons in Hin as [[= -> -> ->]|Hin].
    + split_and!; [lia|apply round_up_divide| |lia].
      apply end_of_ge; [done|]. apply wf_members_Forall in Hwf.
      eapply Forall_impl; [|exact Hwf]. intros f. apply sizeof_nonneg.
    + apply IH in Hin; [|done]. naive_solver lia.
Qed.

(** Every member of a well-formed struct lies inside it, at an offset its
    alignment divides. *)
Lemma member_in_struct fs n o t :
  wf_cty (CStruct fs) = true → (n, o, t) ∈ members 0 fs →
  0 ≤ o ∧ (alignof t | o) ∧ o + sizeof t ≤ sizeof (CStruct fs).
Proof.
  intros Hwf Hin. pose proof (alignof_pos _ Hwf). rewrite wf_struct in Hwf.
  destruct (members_after 0 fs n o t Hwf Hin) as (?&?&?&?).
  rewrite sizeof_struct. pose proof (round_up_ge (end_of 0 fs) _ H). naive_solver lia.
Qed.

Lemma members_sorted off fs i j ni oi ti nj oj tj :
  wf_members fs = true → (i < j)%nat →
  members off fs !! i = Some (ni, oi, ti) → members off fs !! j = Some (nj, oj, tj) →
  oi + sizeof ti ≤ oj.
Proof.
  revert off i j. induction fs as [|[m u] fs IH]; cbn; intros off i j Hwf Hij Hi Hj; [done|].
  apply andb_prop in Hwf as [Hu Hwf].
  destruct j as [|j]; [lia|]. destruct i as [|i]; cbn in *.
  - simplify_eq. apply list_elem_of_lookup_2 in Hj.
    apply members_after in Hj; [|done]. naive_solver lia.
  - eapply IH; [done| |done|done]. lia.
Qed.

Lemma find_member_elem n ms o t : find_member n ms = Some (o, t) → (n, o, t) ∈ ms.
Proof.
  induction ms as [|[[m u] v] ms IH]; cbn; [done|].
  destruct (String.eqb_spec n m) as [->|]; intros; simplify_eq; [left|right]; auto.
Qed.
End Layout.
