(* ===== verification/FfTypes.v ===== *)
(** * The FreeFlow protocol types

    The request codes, the message headers and the request and response structs
    of [infiniband/freeflow-types.h] and [ffrouter/types.h], with the verbs and
    kernel-ABI structs they embed, as C layouts; their sizes are computed, not
    assumed.  [S_x] is [struct x]. *)

From S2P Require Import Prelude Layout.

(** ** Constants *)

Definition MAP_SIZE : Z := 10240.
Definition WR_QUEUE_SIZE : Z := 102400.
Definition CTRL_REQ_SIZE : Z := 1024 * 1024.
Definition CTRL_RSP_SIZE : Z := 1024 * 1024.
Definition PARALLEL_SIZE : Z := 10.

(** ** Request codes *)

Inductive RDMA_FUNCTION_CALL :=
  | IBV_GET_DEVICE_LIST | IBV_GET_CONTEXT | IBV_QUERY_DEV | IBV_EXP_QUERY_DEV
  | IBV_QUERY_PORT | IBV_ALLOC_PD | IBV_DEALLOC_PD | IBV_CREATE_QP | IBV_MODIFY_QP
  | IBV_QUERY_QP | IBV_DESTROY_QP | IBV_CREATE_SRQ | IBV_MODIFY_SRQ | IBV_POST_SRQ_RECV
  | IBV_DESTROY_SRQ | IBV_CREATE_CQ | IBV_DESTROY_CQ | IBV_POLL_CQ | IBV_GET_CQ_EVENT
  | IBV_ACK_CQ_EVENT | IBV_REQ_NOTIFY_CQ | IBV_REG_MR | IBV_REG_MR_MAPPING | IBV_DEREG_MR
  | IBV_REG_CM | IBV_POST_SEND | IBV_POST_RECV | IBV_CREATE_COMP_CHANNEL
  | IBV_DESTROY_COMP_CHANNEL | IBV_CREATE_AH | IBV_DESTROY_AH | IBV_CREATE_FLOW
  | IBV_DESTROY_FLOW | IBV_MALLOC | IBV_FREE | IBV_RESIZE_CQ | CM_CREATE_EVENT_CHANNEL
  | CM_DESTROY_EVENT_CHANNEL | CM_CREATE_ID | CM_BIND_IP | CM_BIND | CM_GET_EVENT
  | CM_QUERY_ROUTE | CM_LISTEN | CM_RESOLVE_IP | CM_RESOLVE_ADDR | CM_UCMA_QUERY_ADDR
  | CM_UCMA_QUERY_GID | CM_UCMA_PROCESS_CONN_RESP | CM_DESTROY_ID | CM_RESOLVE_ROUTE
  | CM_UCMA_QUERY_PATH | CM_INIT_QP_ATTR | CM_CONNECT | CM_ACCEPT | CM_SET_OPTION
  | CM_MIGRATE_ID | CM_DISCONNECT | SOCKET_SOCKET | SOCKET_BIND | SOCKET_ACCEPT
  | SOCKET_ACCEPT4 | SOCKET_CONNECT.

#[export] Instance RDMA_FUNCTION_CALL_eq_dec : EqDecision RDMA_FUNCTION_CALL.
Proof. solve_decision. Defined.

(** The enumerators in declaration order: the code of a request is its position. *)
Definition all_funcs : list RDMA_FUNCTION_CALL := [
    IBV_GET_DEVICE_LIST; IBV_GET_CONTEXT; IBV_QUERY_DEV; IBV_EXP_QUERY_DEV; IBV_QUERY_PORT;
    IBV_ALLOC_PD; IBV_DEALLOC_PD; IBV_CREATE_QP; IBV_MODIFY_QP; IBV_QUERY_QP; IBV_DESTROY_QP;
    IBV_CREATE_SRQ; IBV_MODIFY_SRQ; IBV_POST_SRQ_RECV; IBV_DESTROY_SRQ; IBV_CREATE_CQ;
    IBV_DESTROY_CQ; IBV_POLL_CQ; IBV_GET_CQ_EVENT; IBV_ACK_CQ_EVENT; IBV_REQ_NOTIFY_CQ;
    IBV_REG_MR; IBV_REG_MR_MAPPING; IBV_DEREG_MR; IBV_REG_CM; IBV_POST_SEND; IBV_POST_RECV;
    IBV_CREATE_COMP_CHANNEL; IBV_DESTROY_COMP_CHANNEL; IBV_CREATE_AH; IBV_DESTROY_AH;
    IBV_CREATE_FLOW; IBV_DESTROY_FLOW; IBV_MALLOC; IBV_FREE; IBV_RESIZE_CQ;
    CM_CREATE_EVENT_CHANNEL; CM_DESTROY_EVENT_CHANNEL; CM_CREATE_ID; CM_BIND_IP; CM_BIND;
    CM_GET_EVENT; CM_QUERY_ROUTE; CM_LISTEN; CM_RESOLVE_IP; CM_RESOLVE_ADDR;
    CM_UCMA_QUERY_ADDR; CM_UCMA_QUERY_GID; CM_UCMA_PROCESS_CONN_RESP; CM_DESTROY_ID;
    CM_RESOLVE_ROUTE; CM_UCMA_QUERY_PATH; CM_INIT_QP_ATTR; CM_CONNECT; CM_ACCEPT;
    CM_SET_OPTION; CM_MIGRATE_ID; CM_DISCONNECT; SOCKET_SOCKET; SOCKET_BIND; SOCKET_ACCEPT;
    SOCKET_ACCEPT4; SOCKET_CONNECT ].

Fixpoint index_of (f : RDMA_FUNCTION_CALL) (l : list RDMA_FUNCTION_CALL) : Z :=
  match l with
  | [] => 0
  | g :: l => if decide (f = g) then 0 else 1 + index_of f l
  end.

Definition func_code (f : RDMA_FUNCTION_CALL) : Z := index_of f all_funcs.

Definition func_of_code (c : Z) : option RDMA_FUNCTION_CALL :=
  if Z.ltb c 0 then None else all_funcs !! Z.to_nat c.

(** Requests the router's [switch] knows but the client library's enumeration does not. *)
Definition is_socket_func (f : RDMA_FUNCTION_CALL) : bool :=
  match f with
  | SOCKET_SOCKET | SOCKET_BIND | SOCKET_ACCEPT | SOCKET_ACCEPT4 | SOCKET_CONNECT => true
  | _ => false
  end.

(** ** Message headers and the control channel *)

Record FfrRequestHeader := mkReqHdr {
  client_id : Z;
  func : Z;
  body_size : Z
}.

Record FfrResponseHeader := mkRspHdr { rsp_size : Z }.

Inductive CtrlChannelState := IDLE | REQ_DONE | RSP_DONE.

#[export] Instance CtrlChannelState_eq_dec : EqDecision CtrlChannelState.
Proof. solve_decision. Defined.

(** ** Struct layouts *)

Definition U_ibv_gid : cty := CUnion [
    ("raw", CArr 16 (CInt 1));
    ("global", CStruct [("subnet_prefix", CInt 8); ("interface_id", CInt 8)]) ].

Definition S_sockaddr_storage : cty := CExt 128 8.

Definition S_sockaddr_in6 : cty := CExt 28 4.

Definition S_sockaddr_in : cty := CExt 16 4.

Definition S_FfrRequestHeader : cty := CStruct [
    ("client_id", CInt 4); ("func", CInt 4); ("body_size", CInt 4) ].

Definition S_FfrResponseHeader : cty := CStruct [
    ("rsp_size", CInt 4) ].

Definition S_IBV_GET_CONTEXT_RSP : cty := CStruct [
    ("async_fd", CInt 4); ("num_comp_vectors", CInt 4) ].

Definition S_ibv_device_attr : cty := CStruct [
    ("fw_ver", CArr 64 (CInt 1)); ("node_guid", CInt 8); ("sys_image_guid", CInt 8);
    ("max_mr_size", CInt 8); ("page_size_cap", CInt 8); ("vendor_id", CInt 4);
    ("vendor_part_id", CInt 4); ("hw_ver", CInt 4); ("max_qp", CInt 4); ("max_qp_wr", CInt 4);
    ("device_cap_flags", CInt 4); ("max_sge", CInt 4); ("max_sge_rd", CInt 4);
    ("max_cq", CInt 4); ("max_cqe", CInt 4); ("max_mr", CInt 4); ("max_pd", CInt 4);
    ("max_qp_rd_atom", CInt 4); ("max_ee_rd_atom", CInt 4); ("max_res_rd_atom", CInt 4);
    ("max_qp_init_rd_atom", CInt 4); ("max_ee_init_rd_atom", CInt 4); ("atomic_cap", CInt 4);
    ("max_ee", CInt 4); ("max_rdd", CInt 4); ("max_mw", CInt 4); ("max_raw_ipv6_qp", CInt 4);
    ("max_raw_ethy_qp", CInt 4); ("max_mcast_grp", CInt 4); ("max_mcast_qp_attach", CInt 4);
    ("max_total_mcast_qp_attach", CInt 4); ("max_ah", CInt 4); ("max_fmr", CInt 4);
    ("max_map_per_fmr", CInt 4); ("max_srq", CInt 4); ("max_srq_wr", CInt 4);
    ("max_srq_sge", CInt 4); ("max_pkeys", CInt 2); ("local_ca_ack_delay", CInt 1);
    ("phys_port_cnt", CInt 1) ].

Definition S_IBV_QUERY_DEV_RSP : cty := CStruct [
    ("dev_attr", S_ibv_device_attr) ].

Definition S_ex_hdr : cty := CStruct [
    ("_anon", CStruct [("command", CInt 4); ("in_words", CInt 2); ("out_words", CInt 2)]);
    ("_anon", CStruct [("response", CInt 8)]);
    ("_anon", CStruct [("provider_in_words", CInt 2); ("provider_out_words", CInt 2); ("reserved", CInt 4)]) ].

Definition S_ibv_exp_query_device : cty := CStruct [
    ("hdr", S_ex_hdr); ("comp_mask", CInt 8); ("driver_data", CArr 0 (CInt 8)) ].

Definition S_IBV_EXP_QUERY_DEV_REQ : cty := CStruct [
    ("cmd", S_ibv_exp_query_device) ].

Definition S_ibv_exp_umr_caps_resp : cty := CStruct [
    ("max_klm_list_size", CInt 4); ("max_send_wqe_inline_klms", CInt 4);
    ("max_umr_recursion_depth", CInt 4); ("max_umr_stride_dimension", CInt 4) ].

Definition S_ibv_exp_odp_caps_resp : cty := CStruct [
    ("general_odp_caps", CInt 8);
    ("per_transport_caps", CStruct [("rc_odp_caps", CInt 4); ("uc_odp_caps", CInt 4); ("ud_odp_caps", CInt 4); ("dc_odp_caps", CInt 4); ("xrc_odp_caps", CInt 4); ("raw_eth_odp_caps", CInt 4)]) ].

Definition S_ibv_exp_rx_hash_caps_resp : cty := CStruct [
    ("max_rwq_indirection_tables", CInt 4); ("max_rwq_indirection_table_size", CInt 4);
    ("supported_packet_fields", CInt 8); ("supported_qps", CInt 4);
    ("supported_hash_functions", CInt 1); ("reserved", CArr 3 (CInt 1)) ].

Definition S_ibv_exp_mp_rq_caps_resp : cty := CStruct [
    ("supported_qps", CInt 4); ("allowed_shifts", CInt 4);
    ("min_single_wqe_log_num_of_strides", CInt 1); ("max_single_wqe_log_num_of_strides", CInt 1);
    ("min_single_stride_log_num_of_bytes", CInt 1);
    ("max_single_stride_log_num_of_bytes", CInt 1); ("reserved", CInt 4) ].

Definition S_ibv_exp_ec_caps_resp : cty := CStruct [
    ("max_ec_data_vector_count", CInt 4); ("max_ec_calc_inflight_calcs", CInt 4) ].

Definition S_ibv_exp_masked_atomic_caps : cty := CStruct [
    ("max_fa_bit_boundary", CInt 4); ("log_max_atomic_inline", CInt 4);
    ("masked_log_atomic_arg_sizes", CInt 8);
    ("masked_log_atomic_arg_sizes_network_endianness", CInt 8) ].

Definition S_ibv_exp_lso_caps_resp : cty := CStruct [
    ("max_tso", CInt 4); ("supported_qpts", CInt 4) ].

Definition S_ibv_exp_packet_pacing_caps_resp : cty := CStruct [
    ("qp_rate_limit_min", CInt 4); ("qp_rate_limit_max", CInt 4); ("supported_qpts", CInt 4);
    ("reserved", CInt 4) ].

Definition S_ibv_exp_query_device_resp : cty := CStruct [
    ("comp_mask", CInt 8); ("fw_ver", CInt 8); ("node_guid", CInt 8); ("sys_image_guid", CInt 8);
    ("max_mr_size", CInt 8); ("page_size_cap", CInt 8); ("vendor_id", CInt 4);
    ("vendor_part_id", CInt 4); ("hw_ver", CInt 4); ("max_qp", CInt 4); ("max_qp_wr", CInt 4);
    ("device_cap_flags", CInt 4); ("max_sge", CInt 4); ("max_sge_rd", CInt 4);
    ("max_cq", CInt 4); ("max_cqe", CInt 4); ("max_mr", CInt 4); ("max_pd", CInt 4);
    ("max_qp_rd_atom", CInt 4); ("max_ee_rd_atom", CInt 4); ("max_res_rd_atom", CInt 4);
    ("max_qp_init_rd_atom", CInt 4); ("max_ee_init_rd_atom", CInt 4); ("exp_atomic_cap", CInt 4);
    ("max_ee", CInt 4); ("max_rdd", CInt 4); ("max_mw", CInt 4); ("max_raw_ipv6_qp", CInt 4);
    ("max_raw_ethy_qp", CInt 4); ("max_mcast_grp", CInt 4); ("max_mcast_qp_attach", CInt 4);
    ("max_total_mcast_qp_attach", CInt 4); ("max_ah", CInt 4); ("max_fmr", CInt 4);
    ("max_map_per_fmr", CInt 4); ("max_srq", CInt 4); ("max_srq_wr", CInt 4);
    ("max_srq_sge", CInt 4); ("max_pkeys", CInt 2); ("local_ca_ack_delay", CInt 1);
    ("phys_port_cnt", CInt 1); ("reserved", CArr 4 (CInt 1)); ("timestamp_mask", CInt 8);
    ("hca_core_clock", CInt 8); ("device_cap_flags2", CInt 8); ("dc_rd_req", CInt 4);
    ("dc_rd_res", CInt 4); ("inline_recv_sz", CInt 4); ("max_rss_tbl_sz", CInt 4);
    ("log_atomic_arg_sizes", CInt 8); ("max_fa_bit_boundary", CInt 4);
    ("log_max_atomic_inline", CInt 4); ("umr_caps", S_ibv_exp_umr_caps_resp);
    ("odp_caps", S_ibv_exp_odp_caps_resp); ("max_dct", CInt 4); ("max_ctx_res_domain", CInt 4);
    ("rx_hash", S_ibv_exp_rx_hash_caps_resp); ("max_wq_type_rq", CInt 4);
    ("max_device_ctx", CInt 4); ("mp_rq_caps", S_ibv_exp_mp_rq_caps_resp);
    ("wq_vlan_offloads_cap", CInt 2); ("reserved1", CArr 2 (CInt 1)); ("ec_w_mask", CInt 4);
    ("ec_caps", S_ibv_exp_ec_caps_resp); ("masked_atomic_caps", S_ibv_exp_masked_atomic_caps);
    ("rx_pad_end_addr_align", CInt 2); ("reserved2", CArr 6 (CInt 1));
    ("tso_caps", S_ibv_exp_lso_caps_resp);
    ("packet_pacing_caps", S_ibv_exp_packet_pacing_caps_resp) ].

Definition S_IBV_EXP_QUERY_DEV_RSP : cty := CStruct [
    ("ret_errno", CInt 4); ("resp", S_ibv_exp_query_device_resp) ].

Definition S_IBV_QUERY_PORT_REQ : cty := CStruct [
    ("port_num", CInt 1) ].

Definition S_ibv_port_attr : cty := CStruct [
    ("state", CInt 4); ("max_mtu", CInt 4); ("active_mtu", CInt 4); ("gid_tbl_len", CInt 4);
    ("port_cap_flags", CInt 4); ("max_msg_sz", CInt 4); ("bad_pkey_cntr", CInt 4);
    ("qkey_viol_cntr", CInt 4); ("pkey_tbl_len", CInt 2); ("lid", CInt 2); ("sm_lid", CInt 2);
    ("lmc", CInt 1); ("max_vl_num", CInt 1); ("sm_sl", CInt 1); ("subnet_timeout", CInt 1);
    ("init_type_reply", CInt 1); ("active_width", CInt 1); ("active_speed", CInt 1);
    ("phys_state", CInt 1); ("link_layer", CInt 1); ("reserved", CInt 1) ].

Definition S_IBV_QUERY_PORT_RSP : cty := CStruct [
    ("port_attr", S_ibv_port_attr) ].

Definition S_IBV_ALLOC_PD_RSP : cty := CStruct [
    ("pd_handle", CInt 4) ].

Definition S_IBV_DEALLOC_PD_REQ : cty := CStruct [
    ("pd_handle", CInt 4) ].

Definition S_IBV_DEALLOC_PD_RSP : cty := CStruct [
    ("ret", CInt 4) ].

Definition S_IBV_CREATE_CQ_REQ : cty := CStruct [
    ("channel_fd", CInt 4); ("comp_vector", CInt 4); ("cqe", CInt 4) ].

Definition S_IBV_CREATE_CQ_RSP : cty := CStruct [
    ("cqe", CInt 4); ("handle", CInt 4); ("shm_name", CArr 100 (CInt 1)) ].

Definition S_IBV_DESTROY_CQ_REQ : cty := CStruct [
    ("cq_handle", CInt 4) ].

Definition S_IBV_DESTROY_CQ_RSP : cty := CStruct [
    ("ret", CInt 4) ].

Definition S_IBV_REQ_NOTIFY_CQ_REQ : cty := CStruct [
    ("cq_handle", CInt 4); ("solicited_only", CInt 4) ].

Definition S_IBV_REQ_NOTIFY_CQ_RSP : cty := CStruct [
    ("ret", CInt 4) ].

Definition S_ibv_qp_cap : cty := CStruct [
    ("max_send_wr", CInt 4); ("max_recv_wr", CInt 4); ("max_send_sge", CInt 4);
    ("max_recv_sge", CInt 4); ("max_inline_data", CInt 4) ].

Definition S_IBV_CREATE_QP_REQ : cty := CStruct [
    ("pd_handle", CInt 4); ("qp_type", CInt 4); ("sq_sig_all", CInt 4);
    ("send_cq_handle", CInt 4); ("recv_cq_handle", CInt 4); ("srq_handle", CInt 4);
    ("cap", S_ibv_qp_cap) ].

Definition S_IBV_CREATE_QP_RSP : cty := CStruct [
    ("qp_num", CInt 4); ("handle", CInt 4); ("cap", S_ibv_qp_cap);
    ("shm_name", CArr 100 (CInt 1)) ].

Definition S_IBV_DESTROY_QP_REQ : cty := CStruct [
    ("qp_handle", CInt 4) ].

Definition S_IBV_DESTROY_QP_RSP : cty := CStruct [
    ("ret", CInt 4) ].

Definition S_IBV_REG_MR_REQ : cty := CStruct [
    ("pd_handle", CInt 4); ("mem_size", CInt 4); ("access_flags", CInt 4);
    ("shm_name", CArr 100 (CInt 1)) ].

Definition S_IBV_REG_MR_RSP : cty := CStruct [
    ("handle", CInt 4); ("lkey", CInt 4); ("rkey", CInt 4); ("shm_name", CArr 100 (CInt 1)) ].

Definition S_IBV_REG_MR_MAPPING_REQ : cty := CStruct [
    ("key", CInt 4); ("mr_ptr", CPtr); ("shm_ptr", CPtr) ].

Definition S_IBV_REG_MR_MAPPING_RSP : cty := CStruct [
    ("ret", CInt 4) ].

Definition S_IBV_DEREG_MR_REQ : cty := CStruct [
    ("handle", CInt 4) ].

Definition S_IBV_DEREG_MR_RSP : cty := CStruct [
    ("ret", CInt 4) ].

Definition S_ibv_global_route : cty := CStruct [
    ("dgid", U_ibv_gid); ("flow_label", CInt 4); ("sgid_index", CInt 1); ("hop_limit", CInt 1);
    ("traffic_class", CInt 1) ].

Definition S_ibv_ah_attr : cty := CStruct [
    ("grh", S_ibv_global_route); ("dlid", CInt 2); ("sl", CInt 1); ("src_path_bits", CInt 1);
    ("static_rate", CInt 1); ("is_global", CInt 1); ("port_num", CInt 1) ].

Definition S_ibv_qp_attr : cty := CStruct [
    ("qp_state", CInt 4); ("cur_qp_state", CInt 4); ("path_mtu", CInt 4);
    ("path_mig_state", CInt 4); ("qkey", CInt 4); ("rq_psn", CInt 4); ("sq_psn", CInt 4);
    ("dest_qp_num", CInt 4); ("qp_access_flags", CInt 4); ("cap", S_ibv_qp_cap);
    ("ah_attr", S_ibv_ah_attr); ("alt_ah_attr", S_ibv_ah_attr); ("pkey_index", CInt 2);
    ("alt_pkey_index", CInt 2); ("en_sqd_async_notify", CInt 1); ("sq_draining", CInt 1);
    ("max_rd_atomic", CInt 1); ("max_dest_rd_atomic", CInt 1); ("min_rnr_timer", CInt 1);
    ("port_num", CInt 1); ("timeout", CInt 1); ("retry_cnt", CInt 1); ("rnr_retry", CInt 1);
    ("alt_port_num", CInt 1); ("alt_timeout", CInt 1) ].

Definition S_IBV_MODIFY_QP_REQ : cty := CStruct [
    ("handle", CInt 4); ("attr", S_ibv_qp_attr); ("attr_mask", CInt 4) ].

Definition S_IBV_MODIFY_QP_RSP : cty := CStruct [
    ("ret", CInt 4); ("handle", CInt 4) ].

Definition S_IBV_QUERY_QP_REQ : cty := CStruct [
    ("cmd_size", CInt 4); ("cmd", CArr 100 (CInt 1)) ].

Definition S_ibv_qp_dest : cty := CStruct [
    ("dgid", CArr 16 (CInt 1)); ("flow_label", CInt 4); ("dlid", CInt 2); ("reserved", CInt 2);
    ("sgid_index", CInt 1); ("hop_limit", CInt 1); ("traffic_class", CInt 1); ("sl", CInt 1);
    ("src_path_bits", CInt 1); ("static_rate", CInt 1); ("is_global", CInt 1);
    ("port_num", CInt 1) ].

Definition S_ibv_query_qp_resp : cty := CStruct [
    ("dest", S_ibv_qp_dest); ("alt_dest", S_ibv_qp_dest); ("max_send_wr", CInt 4);
    ("max_recv_wr", CInt 4); ("max_send_sge", CInt 4); ("max_recv_sge", CInt 4);
    ("max_inline_data", CInt 4); ("qkey", CInt 4); ("rq_psn", CInt 4); ("sq_psn", CInt 4);
    ("dest_qp_num", CInt 4); ("qp_access_flags", CInt 4); ("pkey_index", CInt 2);
    ("alt_pkey_index", CInt 2); ("qp_state", CInt 1); ("cur_qp_state", CInt 1);
    ("path_mtu", CInt 1); ("path_mig_state", CInt 1); ("sq_draining", CInt 1);
    ("max_rd_atomic", CInt 1); ("max_dest_rd_atomic", CInt 1); ("min_rnr_timer", CInt 1);
    ("port_num", CInt 1); ("timeout", CInt 1); ("retry_cnt", CInt 1); ("rnr_retry", CInt 1);
    ("alt_port_num", CInt 1); ("alt_timeout", CInt 1); ("sq_sig_all", CInt 1);
    ("reserved", CArr 5 (CInt 1)); ("driver_data", CArr 0 (CInt 8)) ].

Definition S_IBV_QUERY_QP_RSP : cty := CStruct [
    ("ret_errno", CInt 4); ("resp", S_ibv_query_qp_resp) ].

Definition S_IBV_POST_SEND_REQ : cty := CStruct [
    ("wr_size", CInt 4); ("wr", CPtr) ].

Definition S_IBV_POST_SEND_RSP : cty := CStruct [
    ("ret_errno", CInt 4); ("bad_wr", CInt 4) ].

Definition S_IBV_POST_RECV_REQ : cty := CStruct [
    ("wr_size", CInt 4); ("wr", CPtr) ].

Definition S_IBV_POST_RECV_RSP : cty := CStruct [
    ("ret_errno", CInt 4); ("bad_wr", CInt 4) ].

Definition S_IBV_POLL_CQ_REQ : cty := CStruct [
    ("cq_handle", CInt 4); ("ne", CInt 4) ].

Definition S_ibv_wc : cty := CStruct [
    ("wr_id", CInt 8); ("status", CInt 4); ("opcode", CInt 4); ("vendor_err", CInt 4);
    ("byte_len", CInt 4); ("imm_data", CInt 4); ("qp_num", CInt 4); ("src_qp", CInt 4);
    ("wc_flags", CInt 4); ("pkey_index", CInt 2); ("slid", CInt 2); ("sl", CInt 1);
    ("dlid_path_bits", CInt 1) ].

Definition S_IBV_POLL_CQ_RSP : cty := CStruct [
    ("ret_errno", CInt 4); ("wc", S_ibv_wc) ].

Definition S_IBV_CREATE_COMP_CHANNEL_RSP : cty := CStruct [
    ("fd", CInt 4) ].

Definition S_IBV_DESTROY_COMP_CHANNEL_REQ : cty := CStruct [
    ("fd", CInt 4) ].

Definition S_IBV_DESTROY_COMP_CHANNEL_RSP : cty := CStruct [
    ("ret", CInt 4) ].

Definition S_IBV_GET_CQ_EVENT_REQ : cty := CStruct [
    ("fd", CInt 4) ].

Definition S_IBV_GET_CQ_EVENT_RSP : cty := CStruct [
    ("cq_handle", CInt 4); ("comp_events_completed", CInt 4); ("async_events_completed", CInt 4) ].

Definition S_IBV_ACK_CQ_EVENT_REQ : cty := CStruct [
    ("cq_handle", CInt 4); ("nevents", CInt 4) ].

Definition S_IBV_ACK_CQ_EVENT_RSP : cty := CStruct [
    ("cq_handle", CInt 4); ("comp_events_completed", CInt 4); ("async_events_completed", CInt 4) ].

Definition S_IBV_CREATE_AH_REQ : cty := CStruct [
    ("pd_handle", CInt 4); ("ah_attr", S_ibv_ah_attr) ].

Definition S_IBV_CREATE_AH_RSP : cty := CStruct [
    ("ah_handle", CInt 4); ("ret", CInt 4) ].

Definition S_IBV_DESTROY_AH_REQ : cty := CStruct [
    ("ah_handle", CInt 4) ].

Definition S_IBV_DESTROY_AH_RSP : cty := CStruct [
    ("ret", CInt 4) ].

Definition S_IBV_CREATE_FLOW_REQ : cty := CStruct [
    ("exp_flow", CInt 4); ("written_size", CInt 4); ("cmd", CArr 1024 (CInt 1)) ].

Definition S_ibv_create_flow_resp : cty := CStruct [
    ("comp_mask", CInt 4); ("flow_handle", CInt 4) ].

Definition S_IBV_CREATE_FLOW_RSP : cty := CStruct [
    ("ret_errno", CInt 4); ("resp", S_ibv_create_flow_resp) ].

Definition S_ibv_destroy_flow : cty := CStruct [
    ("hdr", S_ex_hdr); ("comp_mask", CInt 4); ("flow_handle", CInt 4) ].

Definition S_IBV_DESTROY_FLOW_REQ : cty := CStruct [
    ("cmd", S_ibv_destroy_flow) ].

Definition S_IBV_DESTROY_FLOW_RSP : cty := CStruct [
    ("ret_errno", CInt 4) ].

Definition S_IBV_MALLOC_REQ : cty := CStruct [
    ("length", CInt 8) ].

Definition S_IBV_MALLOC_RSP : cty := CStruct [
    ("shm_name", CArr 100 (CInt 1)) ].

Definition S_IBV_FREE_REQ : cty := CStruct [
    ("shm_name", CArr 100 (CInt 1)) ].

Definition S_IBV_FREE_RSP : cty := CStruct [
    ("ret", CInt 4) ].

Definition S_ibv_srq_attr : cty := CStruct [
    ("max_wr", CInt 4); ("max_sge", CInt 4); ("srq_limit", CInt 4) ].

Definition S_ibv_srq_init_attr : cty := CStruct [
    ("srq_context", CPtr); ("attr", S_ibv_srq_attr) ].

Definition S_IBV_CREATE_SRQ_REQ : cty := CStruct [
    ("pd_handle", CInt 4); ("attr", S_ibv_srq_init_attr) ].

Definition S_IBV_CREATE_SRQ_RSP : cty := CStruct [
    ("srq_handle", CInt 4); ("shm_name", CArr 100 (CInt 1)) ].

Definition S_IBV_MODIFY_SRQ_REQ : cty := CStruct [
    ("srq_handle", CInt 4); ("attr", S_ibv_srq_attr); ("srq_attr_mask", CInt 4) ].

Definition S_IBV_MODIFY_SRQ_RSP : cty := CStruct [
    ("ret", CInt 4) ].

Definition S_IBV_DESTROY_SRQ_REQ : cty := CStruct [
    ("srq_handle", CInt 4) ].

Definition S_IBV_DESTROY_SRQ_RSP : cty := CStruct [
    ("ret", CInt 4) ].

Definition S_IBV_POST_SRQ_RECV_REQ : cty := CStruct [
    ("wr_size", CInt 4); ("wr", CPtr) ].

Definition S_IBV_POST_SRQ_RECV_RSP : cty := CStruct [
    ("ret_errno", CInt 4); ("bad_wr", CInt 4) ].

Definition S_rdma_event_channel : cty := CStruct [
    ("fd", CInt 4) ].

Definition S_CM_CREATE_EVENT_CHANNEL_RSP : cty := CStruct [
    ("ret_errno", CInt 4); ("ec", S_rdma_event_channel) ].

Definition S_CM_DESTROY_EVENT_CHANNEL_REQ : cty := CStruct [
    ("ec", S_rdma_event_channel) ].

Definition S_CM_DESTROY_EVENT_CHANNEL_RSP : cty := CStruct [
    ("ret_errno", CInt 4) ].

Definition S_ucma_abi_create_id : cty := CStruct [
    ("cmd", CInt 4); ("in", CInt 2); ("out", CInt 2); ("uid", CInt 8); ("response", CInt 8);
    ("ps", CInt 2); ("qp_type", CInt 1); ("reserved", CArr 5 (CInt 1)) ].

Definition S_CM_CREATE_ID_REQ : cty := CStruct [
    ("ec", S_rdma_event_channel); ("cmd", S_ucma_abi_create_id) ].

Definition S_ucma_abi_create_id_resp : cty := CStruct [
    ("id", CInt 4) ].

Definition S_CM_CREATE_ID_RSP : cty := CStruct [
    ("ret_errno", CInt 4); ("resp", S_ucma_abi_create_id_resp) ].

Definition S_ucma_abi_bind_ip : cty := CStruct [
    ("cmd", CInt 4); ("in", CInt 2); ("out", CInt 2); ("response", CInt 8);
    ("addr", S_sockaddr_in6); ("id", CInt 4) ].

Definition S_CM_BIND_IP_REQ : cty := CStruct [
    ("ec", S_rdma_event_channel); ("cmd", S_ucma_abi_bind_ip) ].

Definition S_CM_BIND_IP_RSP : cty := CStruct [
    ("ret_errno", CInt 4) ].

Definition S_ucma_abi_bind : cty := CStruct [
    ("cmd", CInt 4); ("in", CInt 2); ("out", CInt 2); ("id", CInt 4); ("addr_size", CInt 2);
    ("reserved", CInt 2); ("addr", S_sockaddr_storage) ].

Definition S_CM_BIND_REQ : cty := CStruct [
    ("ec", S_rdma_event_channel); ("cmd", S_ucma_abi_bind) ].

Definition S_CM_BIND_RSP : cty := CStruct [
    ("ret_errno", CInt 4) ].

Definition S_ucma_abi_get_event : cty := CStruct [
    ("cmd", CInt 4); ("in", CInt 2); ("out", CInt 2); ("response", CInt 8) ].

Definition S_CM_GET_EVENT_REQ : cty := CStruct [
    ("ec", S_rdma_event_channel); ("cmd", S_ucma_abi_get_event) ].

Definition S_ucma_abi_conn_param : cty := CStruct [
    ("qp_num", CInt 4); ("reserved", CInt 4); ("private_data", CArr 256 (CInt 1));
    ("private_data_len", CInt 1); ("srq", CInt 1); ("responder_resources", CInt 1);
    ("initiator_depth", CInt 1); ("flow_control", CInt 1); ("retry_count", CInt 1);
    ("rnr_retry_count", CInt 1); ("valid", CInt 1) ].

Definition S_ibv_kern_global_route : cty := CStruct [
    ("dgid", CArr 16 (CInt 1)); ("flow_label", CInt 4); ("sgid_index", CInt 1);
    ("hop_limit", CInt 1); ("traffic_class", CInt 1); ("reserved", CInt 1) ].

Definition S_ibv_kern_ah_attr : cty := CStruct [
    ("grh", S_ibv_kern_global_route); ("dlid", CInt 2); ("sl", CInt 1);
    ("src_path_bits", CInt 1); ("static_rate", CInt 1); ("is_global", CInt 1);
    ("port_num", CInt 1); ("reserved", CInt 1) ].

Definition S_ucma_abi_ud_param : cty := CStruct [
    ("qp_num", CInt 4); ("qkey", CInt 4); ("ah_attr", S_ibv_kern_ah_attr);
    ("private_data", CArr 256 (CInt 1)); ("private_data_len", CInt 1);
    ("reserved", CArr 7 (CInt 1)); ("reserved2", CArr 4 (CInt 1)) ].

Definition S_ucma_abi_event_resp : cty := CStruct [
    ("uid", CInt 8); ("id", CInt 4); ("event", CInt 4); ("status", CInt 4);
    ("param", CUnion [("conn", S_ucma_abi_conn_param); ("ud", S_ucma_abi_ud_param)]) ].

Definition S_CM_GET_EVENT_RSP : cty := CStruct [
    ("ret_errno", CInt 4); ("resp", S_ucma_abi_event_resp) ].

Definition S_ucma_abi_query : cty := CStruct [
    ("cmd", CInt 4); ("in", CInt 2); ("out", CInt 2); ("response", CInt 8); ("id", CInt 4);
    ("option", CInt 4) ].

Definition S_CM_QUERY_ROUTE_REQ : cty := CStruct [
    ("ec", S_rdma_event_channel); ("cmd", S_ucma_abi_query) ].

Definition S_ibv_kern_path_rec : cty := CStruct [
    ("dgid", CArr 16 (CInt 1)); ("sgid", CArr 16 (CInt 1)); ("dlid", CInt 2); ("slid", CInt 2);
    ("raw_traffic", CInt 4); ("flow_label", CInt 4); ("reversible", CInt 4); ("mtu", CInt 4);
    ("pkey", CInt 2); ("hop_limit", CInt 1); ("traffic_class", CInt 1); ("numb_path", CInt 1);
    ("sl", CInt 1); ("mtu_selector", CInt 1); ("rate_selector", CInt 1); ("rate", CInt 1);
    ("packet_life_time_selector", CInt 1); ("packet_life_time", CInt 1); ("preference", CInt 1) ].

Definition S_ucma_abi_query_route_resp : cty := CStruct [
    ("node_guid", CInt 8); ("ib_route", CArr 2 S_ibv_kern_path_rec);
    ("src_addr", S_sockaddr_in6); ("dst_addr", S_sockaddr_in6); ("num_paths", CInt 4);
    ("port_num", CInt 1); ("reserved", CArr 3 (CInt 1)) ].

Definition S_CM_QUERY_ROUTE_RSP : cty := CStruct [
    ("ret_errno", CInt 4); ("resp", S_ucma_abi_query_route_resp) ].

Definition S_ucma_abi_listen : cty := CStruct [
    ("cmd", CInt 4); ("in", CInt 2); ("out", CInt 2); ("id", CInt 4); ("backlog", CInt 4) ].

Definition S_CM_LISTEN_REQ : cty := CStruct [
    ("ec", S_rdma_event_channel); ("cmd", S_ucma_abi_listen) ].

Definition S_CM_LISTEN_RSP : cty := CStruct [
    ("ret_errno", CInt 4) ].

Definition S_ucma_abi_resolve_ip : cty := CStruct [
    ("cmd", CInt 4); ("in", CInt 2); ("out", CInt 2); ("src_addr", S_sockaddr_in6);
    ("dst_addr", S_sockaddr_in6); ("id", CInt 4); ("timeout_ms", CInt 4) ].

Definition S_CM_RESOLVE_IP_REQ : cty := CStruct [
    ("ec", S_rdma_event_channel); ("cmd", S_ucma_abi_resolve_ip) ].

Definition S_CM_RESOLVE_IP_RSP : cty := CStruct [
    ("ret_errno", CInt 4) ].

Definition S_ucma_abi_resolve_addr : cty := CStruct [
    ("cmd", CInt 4); ("in", CInt 2); ("out", CInt 2); ("id", CInt 4); ("timeout_ms", CInt 4);
    ("src_size", CInt 2); ("dst_size", CInt 2); ("reserved", CInt 4);
    ("src_addr", S_sockaddr_storage); ("dst_addr", S_sockaddr_storage) ].

Definition S_CM_RESOLVE_ADDR_REQ : cty := CStruct [
    ("ec", S_rdma_event_channel); ("cmd", S_ucma_abi_resolve_addr) ].

Definition S_CM_RESOLVE_ADDR_RSP : cty := CStruct [
    ("ret_errno", CInt 4) ].

Definition S_CM_UCMA_QUERY_ADDR_REQ : cty := CStruct [
    ("ec", S_rdma_event_channel); ("cmd", S_ucma_abi_query) ].

Definition S_ucma_abi_query_addr_resp : cty := CStruct [
    ("node_guid", CInt 8); ("port_num", CInt 1); ("reserved", CInt 1); ("pkey", CInt 2);
    ("src_size", CInt 2); ("dst_size", CInt 2); ("src_addr", S_sockaddr_storage);
    ("dst_addr", S_sockaddr_storage) ].

Definition S_CM_UCMA_QUERY_ADDR_RSP : cty := CStruct [
    ("ret_errno", CInt 4); ("resp", S_ucma_abi_query_addr_resp) ].

Definition S_CM_UCMA_QUERY_GID_REQ : cty := CStruct [
    ("ec", S_rdma_event_channel); ("cmd", S_ucma_abi_query) ].

Definition S_CM_UCMA_QUERY_GID_RSP : cty := CStruct [
    ("ret_errno", CInt 4); ("resp", S_ucma_abi_query_addr_resp) ].

Definition S_ucma_abi_accept : cty := CStruct [
    ("cmd", CInt 4); ("in", CInt 2); ("out", CInt 2); ("uid", CInt 8);
    ("conn_param", S_ucma_abi_conn_param); ("id", CInt 4); ("reserved", CInt 4) ].

Definition S_CM_UCMA_PROCESS_CONN_RESP_REQ : cty := CStruct [
    ("ec", S_rdma_event_channel); ("cmd", S_ucma_abi_accept) ].

Definition S_CM_UCMA_PROCESS_CONN_RESP_RSP : cty := CStruct [
    ("ret_errno", CInt 4) ].

Definition S_ucma_abi_destroy_id : cty := CStruct [
    ("cmd", CInt 4); ("in", CInt 2); ("out", CInt 2); ("response", CInt 8); ("id", CInt 4);
    ("reserved", CInt 4) ].

Definition S_CM_DESTROY_ID_REQ : cty := CStruct [
    ("ec", S_rdma_event_channel); ("cmd", S_ucma_abi_destroy_id) ].

Definition S_ucma_abi_destroy_id_resp : cty := CStruct [
    ("events_reported", CInt 4) ].

Definition S_CM_DESTROY_ID_RSP : cty := CStruct [
    ("ret_errno", CInt 4); ("resp", S_ucma_abi_destroy_id_resp) ].

Definition S_ucma_abi_resolve_route : cty := CStruct [
    ("cmd", CInt 4); ("in", CInt 2); ("out", CInt 2); ("id", CInt 4); ("timeout_ms", CInt 4) ].

Definition S_CM_RESOLVE_ROUTE_REQ : cty := CStruct [
    ("ec", S_rdma_event_channel); ("cmd", S_ucma_abi_resolve_route) ].

Definition S_CM_RESOLVE_ROUTE_RSP : cty := CStruct [
    ("ret_errno", CInt 4) ].

Definition S_CM_UCMA_QUERY_PATH_REQ : cty := CStruct [
    ("ec", S_rdma_event_channel); ("cmd", S_ucma_abi_query) ].

Definition S_ibv_path_record : cty := CStruct [
    ("service_id", CInt 8); ("dgid", U_ibv_gid); ("sgid", U_ibv_gid); ("dlid", CInt 2);
    ("slid", CInt 2); ("flowlabel_hoplimit", CInt 4); ("tclass", CInt 1);
    ("reversible_numpath", CInt 1); ("pkey", CInt 2); ("qosclass_sl", CInt 2); ("mtu", CInt 1);
    ("rate", CInt 1); ("packetlifetime", CInt 1); ("preference", CInt 1);
    ("reserved", CArr 6 (CInt 1)) ].

Definition S_ibv_path_data : cty := CStruct [
    ("flags", CInt 4); ("reserved", CInt 4); ("path", S_ibv_path_record) ].

Definition S_ucma_abi_query_path_resp : cty := CStruct [
    ("num_paths", CInt 4); ("reserved", CInt 4); ("path_data", CArr 0 S_ibv_path_data) ].

Definition S_CM_UCMA_QUERY_PATH_RSP : cty := CStruct [
    ("ret_errno", CInt 4); ("resp", S_ucma_abi_query_path_resp);
    ("path_data", CArr 6 S_ibv_path_data) ].

Definition S_ucma_abi_init_qp_attr : cty := CStruct [
    ("cmd", CInt 4); ("in", CInt 2); ("out", CInt 2); ("response", CInt 8); ("id", CInt 4);
    ("qp_state", CInt 4) ].

Definition S_CM_INIT_QP_ATTR_REQ : cty := CStruct [
    ("ec", S_rdma_event_channel); ("cmd", S_ucma_abi_init_qp_attr) ].

Definition S_ibv_kern_qp_attr : cty := CStruct [
    ("qp_attr_mask", CInt 4); ("qp_state", CInt 4); ("cur_qp_state", CInt 4);
    ("path_mtu", CInt 4); ("path_mig_state", CInt 4); ("qkey", CInt 4); ("rq_psn", CInt 4);
    ("sq_psn", CInt 4); ("dest_qp_num", CInt 4); ("qp_access_flags", CInt 4);
    ("ah_attr", S_ibv_kern_ah_attr); ("alt_ah_attr", S_ibv_kern_ah_attr);
    ("max_send_wr", CInt 4); ("max_recv_wr", CInt 4); ("max_send_sge", CInt 4);
    ("max_recv_sge", CInt 4); ("max_inline_data", CInt 4); ("pkey_index", CInt 2);
    ("alt_pkey_index", CInt 2); ("en_sqd_async_notify", CInt 1); ("sq_draining", CInt 1);
    ("max_rd_atomic", CInt 1); ("max_dest_rd_atomic", CInt 1); ("min_rnr_timer", CInt 1);
    ("port_num", CInt 1); ("timeout", CInt 1); ("retry_cnt", CInt 1); ("rnr_retry", CInt 1);
    ("alt_port_num", CInt 1); ("alt_timeout", CInt 1); ("reserved", CArr 5 (CInt 1)) ].

Definition S_CM_INIT_QP_ATTR_RSP : cty := CStruct [
    ("ret_errno", CInt 4); ("resp", S_ibv_kern_qp_attr) ].

Definition S_ucma_abi_connect : cty := CStruct [
    ("cmd", CInt 4); ("in", CInt 2); ("out", CInt 2); ("conn_param", S_ucma_abi_conn_param);
    ("id", CInt 4); ("reserved", CInt 4) ].

Definition S_CM_CONNECT_REQ : cty := CStruct [
    ("ec", S_rdma_event_channel); ("cmd", S_ucma_abi_connect) ].

Definition S_CM_CONNECT_RSP : cty := CStruct [
    ("ret_errno", CInt 4) ].

Definition S_CM_ACCEPT_REQ : cty := CStruct [
    ("ec", S_rdma_event_channel); ("cmd", S_ucma_abi_accept) ].

Definition S_CM_ACCEPT_RSP : cty := CStruct [
    ("ret_errno", CInt 4) ].

Definition S_ucma_abi_set_option : cty := CStruct [
    ("cmd", CInt 4); ("in", CInt 2); ("out", CInt 2); ("optval", CInt 8); ("id", CInt 4);
    ("level", CInt 4); ("optname", CInt 4); ("optlen", CInt 4) ].

Definition S_CM_SET_OPTION_REQ : cty := CStruct [
    ("ec", S_rdma_event_channel); ("cmd", S_ucma_abi_set_option); ("optval", CArr 100 (CInt 1)) ].

Definition S_CM_SET_OPTION_RSP : cty := CStruct [
    ("ret_errno", CInt 4) ].

Definition S_ucma_abi_migrate_id : cty := CStruct [
    ("cmd", CInt 4); ("in", CInt 2); ("out", CInt 2); ("response", CInt 8); ("id", CInt 4);
    ("fd", CInt 4) ].

Definition S_CM_MIGRATE_ID_REQ : cty := CStruct [
    ("ec", S_rdma_event_channel); ("cmd", S_ucma_abi_migrate_id) ].

Definition S_ucma_abi_migrate_resp : cty := CStruct [
    ("events_reported", CInt 4) ].

Definition S_CM_MIGRATE_ID_RSP : cty := CStruct [
    ("ret_errno", CInt 4); ("resp", S_ucma_abi_migrate_resp) ].

Definition S_ucma_abi_disconnect : cty := CStruct [
    ("cmd", CInt 4); ("in", CInt 2); ("out", CInt 2); ("id", CInt 4) ].

Definition S_CM_DISCONNECT_REQ : cty := CStruct [
    ("ec", S_rdma_event_channel); ("cmd", S_ucma_abi_disconnect) ].

Definition S_CM_DISCONNECT_RSP : cty := CStruct [
    ("ret_errno", CInt 4) ].

Definition S_CtrlShmPiece : cty := CStruct [
    ("state", CInt 4); ("req", CArr 1048576 (CInt 1)); ("rsp", CArr 1048576 (CInt 1)) ].

Definition S_ibv_sge : cty := CStruct [
    ("addr", CInt 8); ("length", CInt 4); ("lkey", CInt 4) ].

Definition S_ibv_mw_bind_info : cty := CStruct [
    ("mr", CPtr); ("addr", CInt 8); ("length", CInt 8); ("mw_access_flags", CInt 4) ].

Definition S_ibv_send_wr : cty := CStruct [
    ("wr_id", CInt 8); ("next", CPtr); ("sg_list", CPtr); ("num_sge", CInt 4);
    ("opcode", CInt 4); ("send_flags", CInt 4); ("imm_data", CInt 4);
    ("wr", CUnion [("rdma", CStruct [("remote_addr", CInt 8); ("rkey", CInt 4)]); ("atomic", CStruct [("remote_addr", CInt 8); ("compare_add", CInt 8); ("swap", CInt 8); ("rkey", CInt 4)]); ("ud", CStruct [("ah", CPtr); ("remote_qpn", CInt 4); ("remote_qkey", CInt 4)])]);
    ("_anon", CUnion [("qp_type", CUnion [("xrc", CStruct [("remote_srqn", CInt 4)])]); ("xrc_remote_srq_num", CInt 4)]);
    ("bind_mw", CStruct [("mw", CPtr); ("rkey", CInt 4); ("bind_info", S_ibv_mw_bind_info)]) ].

Definition S_ibv_recv_wr : cty := CStruct [
    ("wr_id", CInt 8); ("next", CPtr); ("sg_list", CPtr); ("num_sge", CInt 4) ].

Definition S_ibv_kern_send_wr : cty := CStruct [
    ("wr_id", CInt 8); ("num_sge", CInt 4); ("opcode", CInt 4); ("send_flags", CInt 4);
    ("imm_data", CInt 4);
    ("wr", CUnion [("rdma", CStruct [("remote_addr", CInt 8); ("rkey", CInt 4); ("reserved", CInt 4)]); ("atomic", CStruct [("remote_addr", CInt 8); ("compare_add", CInt 8); ("swap", CInt 8); ("rkey", CInt 4); ("reserved", CInt 4)]); ("ud", CStruct [("ah", CInt 4); ("remote_qpn", CInt 4); ("remote_qkey", CInt 4); ("reserved", CInt 4)])]);
    ("qp_type", CUnion [("xrc", CStruct [("remote_srqn", CInt 4)])]) ].

Definition S_ibv_post_send : cty := CStruct [
    ("command", CInt 4); ("in_words", CInt 2); ("out_words", CInt 2); ("response", CInt 8);
    ("qp_handle", CInt 4); ("wr_count", CInt 4); ("sge_count", CInt 4); ("wqe_size", CInt 4);
    ("send_wr", CArr 0 S_ibv_kern_send_wr) ].

Definition S_ibv_kern_recv_wr : cty := CStruct [
    ("wr_id", CInt 8); ("num_sge", CInt 4); ("reserved", CInt 4) ].

Definition S_ibv_post_recv : cty := CStruct [
    ("command", CInt 4); ("in_words", CInt 2); ("out_words", CInt 2); ("response", CInt 8);
    ("qp_handle", CInt 4); ("wr_count", CInt 4); ("sge_count", CInt 4); ("wqe_size", CInt 4);
    ("recv_wr", CArr 0 S_ibv_kern_recv_wr) ].

Definition S_ibv_post_srq_recv : cty := CStruct [
    ("command", CInt 4); ("in_words", CInt 2); ("out_words", CInt 2); ("response", CInt 8);
    ("srq_handle", CInt 4); ("wr_count", CInt 4); ("sge_count", CInt 4); ("wqe_size", CInt 4);
    ("recv_wr", CArr 0 S_ibv_kern_recv_wr) ].

(** The socket requests of [ffrouter/types.h]. *)
Definition S_SOCKET_SOCKET_REQ : cty := CStruct [
    ("domain", CInt 4); ("type", CInt 4); ("protocol", CInt 4) ].

Definition S_SOCKET_SOCKET_RSP : cty := CStruct [ ("ret", CInt 4) ].

Definition S_SOCKET_BIND_RSP : cty := CStruct [ ("ret", CInt 4) ].

Definition S_SOCKET_ACCEPT_RSP : cty := CStruct [ ("ret", CInt 4) ].

Definition S_SOCKET_ACCEPT4_REQ : cty := CStruct [ ("flags", CInt 4) ].

Definition S_SOCKET_ACCEPT4_RSP : cty := CStruct [ ("ret", CInt 4) ].

Definition S_SOCKET_CONNECT_REQ : cty := CStruct [
    ("host_addr", S_sockaddr_in); ("host_addrlen", CInt 4) ].

Definition S_SOCKET_CONNECT_RSP : cty := CStruct [ ("ret", CInt 4) ].
