(* ===== verification/Wire.v ===== *)
(** * The request transport

    The client library sends every control-path verb to the router as a
    12-byte header and a body over a Unix-domain socket and reads a response
    back ([request_router] of [libibverbs/src/freeflow.c] and of
    [librdmacm/src/freeflow.c]); the router reads the header, then a body whose
    size depends on the request, and writes a response ([HandleRequest] of
    [ffrouter/ffrouter.cpp]).  Nothing on the wire delimits the parts: both sides
    must agree on every size.  This file models the two size tables, the socket
    calls with short reads, and proves the agreement. *)

From S2P Require Import Prelude Layout FfTypes.

(** ** Socket reads

    What a [read] on a stream socket may do: deliver some of the bytes that are
    there, fail, deliver zero bytes at the end of the stream, or block.  [chunks]
    is the kernel's choice for the following calls: [None] is a failing call,
    [Some k] a call that delivers at most [k] bytes (at least one); when the list
    is exhausted a call delivers everything it asked for. *)

Record pipe := mkPipe {
  p_data : list Z;
  p_eof : bool;
  p_chunks : list (option nat)
}.

Inductive read_out :=
  | RdErr (p : pipe)
  | RdBytes (bs : list Z) (p : pipe)
  | RdBlock.

Definition sys_read (want : Z) (p : pipe) : read_out :=
  match p_chunks p with
  | None :: cs => RdErr (mkPipe (p_data p) (p_eof p) cs)
  | cs =>
      match p_data p with
      | [] => if p_eof p then RdBytes [] (mkPipe [] true (tail cs)) else RdBlock
      | d =>
          let k := match cs with Some k :: _ => Z.min want (Z.of_nat (S k)) | _ => want end in
          RdBytes (takeZ k d) (mkPipe (dropZ k d) (p_eof p) (tail cs))
      end
  end.

(** The loops [while (bytes < size) { n = read(...); if (n < 0) goto end; bytes += n; }]. *)
Inductive loop_out :=
  | LDone (rsp : list Z) (p : pipe)
  | LErr (p : pipe)
  | LBlock
  | LFuel.

Fixpoint read_loop (fuel : nat) (bytes size : Z) (acc : list Z) (p : pipe) : loop_out :=
  if Z.ltb bytes size then
    match fuel with
    | O => LFuel
    | S fuel =>
        match sys_read (size - bytes) p with
        | RdErr p => LErr p
        | RdBytes bs p => read_loop fuel (bytes + lenZ bs) size (acc ++ bs) p
        | RdBlock => LBlock
        end
    end
  else LDone acc p.

(** ** Header encoding *)

Definition encode_header (h : FfrRequestHeader) : list Z :=
  le_bytes 4 (u32 (client_id h)) ++ le_bytes 4 (u32 (func h)) ++ le_bytes 4 (u32 (body_size h)).

Definition decode_header (bs : list Z) : FfrRequestHeader :=
  mkReqHdr (s32 (le_val (takeZ 4 bs)))
           (le_val (takeZ 4 (dropZ 4 bs)))
           (le_val (takeZ 4 (dropZ 8 bs))).

Definition header_size : Z := sizeof S_FfrRequestHeader.

(** ** The client's size tables

    One entry per [case] of the [switch]: the response size, whether it is fixed
    or announced by a response header, the body size, and whether the socket is
    closed afterwards.  [None] is the [default] case. *)
Record req_shape := mkShape {
  sh_rsp : Z;
  sh_fixed : bool;
  sh_body : Z;
  sh_close : bool
}.

Definition fixed (rsp body : Z) : option req_shape := Some (mkShape rsp true body true).

(** [wr_size] is the [wr_size] field of the post requests, whose body is a
    variable-length buffer. *)
Definition ibv_shape (req : RDMA_FUNCTION_CALL) (wr_size : Z) : option req_shape :=
  match req with
  | IBV_GET_CONTEXT => fixed (sizeof S_IBV_GET_CONTEXT_RSP) 0
  | IBV_QUERY_DEV => fixed (sizeof S_IBV_QUERY_DEV_RSP) 0
  | IBV_EXP_QUERY_DEV => fixed (sizeof S_IBV_EXP_QUERY_DEV_RSP) (sizeof S_IBV_EXP_QUERY_DEV_REQ)
  | IBV_QUERY_PORT => fixed (sizeof S_IBV_QUERY_PORT_RSP) (sizeof S_IBV_QUERY_PORT_REQ)
  | IBV_ALLOC_PD => fixed (sizeof S_IBV_ALLOC_PD_RSP) 0
  | IBV_DEALLOC_PD => fixed (sizeof S_IBV_DEALLOC_PD_RSP) (sizeof S_IBV_DEALLOC_PD_REQ)
  | IBV_CREATE_CQ => fixed (sizeof S_IBV_CREATE_CQ_RSP) (sizeof S_IBV_CREATE_CQ_REQ)
  | IBV_DESTROY_CQ => fixed (sizeof S_IBV_DESTROY_CQ_RSP) (sizeof S_IBV_DESTROY_CQ_REQ)
  | IBV_REQ_NOTIFY_CQ => fixed (sizeof S_IBV_REQ_NOTIFY_CQ_RSP) (sizeof S_IBV_REQ_NOTIFY_CQ_REQ)
  | IBV_CREATE_QP => fixed (sizeof S_IBV_CREATE_QP_RSP) (sizeof S_IBV_CREATE_QP_REQ)
  | IBV_DESTROY_QP => fixed (sizeof S_IBV_DESTROY_QP_RSP) (sizeof S_IBV_DESTROY_QP_REQ)
  | IBV_REG_MR => fixed (sizeof S_IBV_REG_MR_RSP) (sizeof S_IBV_REG_MR_REQ)
  | IBV_REG_MR_MAPPING => fixed (sizeof S_IBV_REG_MR_MAPPING_RSP) (sizeof S_IBV_REG_MR_MAPPING_REQ)
  | IBV_DEREG_MR => fixed (sizeof S_IBV_DEREG_MR_RSP) (sizeof S_IBV_DEREG_MR_REQ)
  | IBV_MODIFY_QP => fixed (sizeof S_IBV_MODIFY_QP_RSP) (sizeof S_IBV_MODIFY_QP_REQ)
  | IBV_QUERY_QP => fixed (sizeof S_IBV_QUERY_QP_RSP) (sizeof S_IBV_QUERY_QP_REQ)
  | IBV_POST_SEND => fixed (sizeof S_IBV_POST_SEND_RSP) wr_size
  | IBV_POST_RECV => fixed (sizeof S_IBV_POST_RECV_RSP) wr_size
  | IBV_POST_SRQ_RECV => fixed (sizeof S_IBV_POST_SRQ_RECV_RSP) wr_size
  | IBV_POLL_CQ => Some (mkShape 0 false (sizeof S_IBV_POLL_CQ_REQ) true)
  | IBV_CREATE_COMP_CHANNEL => fixed (sizeof S_IBV_CREATE_COMP_CHANNEL_RSP) 0
  | IBV_DESTROY_COMP_CHANNEL =>
      fixed (sizeof S_IBV_DESTROY_COMP_CHANNEL_RSP) (sizeof S_IBV_DESTROY_COMP_CHANNEL_REQ)
  | IBV_GET_CQ_EVENT =>
      Some (mkShape (sizeof S_IBV_GET_CQ_EVENT_RSP) true (sizeof S_IBV_GET_CQ_EVENT_REQ) false)
  | IBV_ACK_CQ_EVENT => fixed (sizeof S_IBV_ACK_CQ_EVENT_RSP) (sizeof S_IBV_ACK_CQ_EVENT_REQ)
  | IBV_CREATE_AH => fixed (sizeof S_IBV_CREATE_AH_RSP) (sizeof S_IBV_CREATE_AH_REQ)
  | IBV_DESTROY_AH => fixed (sizeof S_IBV_DESTROY_AH_RSP) (sizeof S_IBV_DESTROY_AH_REQ)
  | IBV_CREATE_FLOW => fixed (sizeof S_IBV_CREATE_FLOW_RSP) (sizeof S_IBV_CREATE_FLOW_REQ)
  | IBV_DESTROY_FLOW => fixed (sizeof S_IBV_DESTROY_FLOW_RSP) (sizeof S_IBV_DESTROY_FLOW_REQ)
  | IBV_CREATE_SRQ => fixed (sizeof S_IBV_CREATE_SRQ_RSP) (sizeof S_IBV_CREATE_SRQ_REQ)
  | IBV_MODIFY_SRQ => fixed (sizeof S_IBV_MODIFY_SRQ_RSP) (sizeof S_IBV_MODIFY_SRQ_REQ)
  | IBV_DESTROY_SRQ => fixed (sizeof S_IBV_DESTROY_SRQ_RSP) (sizeof S_IBV_DESTROY_SRQ_REQ)
  | _ => None
  end.

(** The connection manager's table; its sockets stay open. *)
Definition kept (rsp body : Z) : option req_shape := Some (mkShape rsp true body false).

Definition cm_shape (req : RDMA_FUNCTION_CALL) : option req_shape :=
  match req with
  | CM_CREATE_EVENT_CHANNEL => kept (sizeof S_CM_CREATE_EVENT_CHANNEL_RSP) 0
  | CM_DESTROY_EVENT_CHANNEL =>
      kept (sizeof S_CM_DESTROY_EVENT_CHANNEL_RSP) (sizeof S_CM_DESTROY_EVENT_CHANNEL_REQ)
  | CM_CREATE_ID => kept (sizeof S_CM_CREATE_ID_RSP) (sizeof S_CM_CREATE_ID_REQ)
  | CM_BIND_IP => kept (sizeof S_CM_BIND_IP_RSP) (sizeof S_CM_BIND_IP_REQ)
  | CM_BIND => kept (sizeof S_CM_BIND_RSP) (sizeof S_CM_BIND_REQ)
  | CM_GET_EVENT => kept (sizeof S_CM_GET_EVENT_RSP) (sizeof S_CM_GET_EVENT_REQ)
  | CM_QUERY_ROUTE => kept (sizeof S_CM_QUERY_ROUTE_RSP) (sizeof S_CM_QUERY_ROUTE_REQ)
  | CM_LISTEN => kept (sizeof S_CM_LISTEN_RSP) (sizeof S_CM_LISTEN_REQ)
  | CM_RESOLVE_IP => kept (sizeof S_CM_RESOLVE_IP_RSP) (sizeof S_CM_RESOLVE_IP_REQ)
  | CM_RESOLVE_ADDR => kept (sizeof S_CM_RESOLVE_ADDR_RSP) (sizeof S_CM_RESOLVE_ADDR_REQ)
  | CM_UCMA_QUERY_ADDR => kept (sizeof S_CM_UCMA_QUERY_ADDR_RSP) (sizeof S_CM_UCMA_QUERY_ADDR_REQ)
  | CM_UCMA_QUERY_GID => kept (sizeof S_CM_UCMA_QUERY_GID_RSP) (sizeof S_CM_UCMA_QUERY_GID_REQ)
  | CM_DESTROY_ID => kept (sizeof S_CM_DESTROY_ID_RSP) (sizeof S_CM_DESTROY_ID_REQ)
  | CM_RESOLVE_ROUTE => kept (sizeof S_CM_RESOLVE_ROUTE_RSP) (sizeof S_CM_RESOLVE_ROUTE_REQ)
  | CM_UCMA_QUERY_PATH => kept (sizeof S_CM_UCMA_QUERY_PATH_RSP) (sizeof S_CM_UCMA_QUERY_PATH_REQ)
  | CM_UCMA_PROCESS_CONN_RESP =>
      kept (sizeof S_CM_UCMA_PROCESS_CONN_RESP_RSP) (sizeof S_CM_UCMA_PROCESS_CONN_RESP_REQ)
  | CM_INIT_QP_ATTR => kept (sizeof S_CM_INIT_QP_ATTR_RSP) (sizeof S_CM_INIT_QP_ATTR_REQ)
  | CM_CONNECT => kept (sizeof S_CM_CONNECT_RSP) (sizeof S_CM_CONNECT_REQ)
  | CM_ACCEPT => kept (sizeof S_CM_ACCEPT_RSP) (sizeof S_CM_ACCEPT_REQ)
  | CM_SET_OPTION => kept (sizeof S_CM_SET_OPTION_RSP) (sizeof S_CM_SET_OPTION_REQ)
  | CM_MIGRATE_ID => kept (sizeof S_CM_MIGRATE_ID_RSP) (sizeof S_CM_MIGRATE_ID_REQ)
  | CM_DISCONNECT => kept (sizeof S_CM_DISCONNECT_RSP) (sizeof S_CM_DISCONNECT_REQ)
  | _ => None
  end.

(** ** The router's side of the table

    How many body bytes each [case] of [HandleRequest] reads, and the [size] it
    writes back when it reaches the [write].  The post requests trust the
    header's [body_size]. *)
Definition router_body (f : RDMA_FUNCTION_CALL) (hdr_body : Z) : Z :=
  match f with
  | IBV_EXP_QUERY_DEV => sizeof S_IBV_EXP_QUERY_DEV_REQ
  | IBV_QUERY_PORT => sizeof S_IBV_QUERY_PORT_REQ
  | IBV_DEALLOC_PD => sizeof S_IBV_DEALLOC_PD_REQ
  | IBV_CREATE_CQ => sizeof S_IBV_CREATE_CQ_REQ
  | IBV_DESTROY_CQ => sizeof S_IBV_DESTROY_CQ_REQ
  | IBV_REQ_NOTIFY_CQ => sizeof S_IBV_REQ_NOTIFY_CQ_REQ
  | IBV_CREATE_QP => sizeof S_IBV_CREATE_QP_REQ
  | IBV_DESTROY_QP => sizeof S_IBV_DESTROY_QP_REQ
  | IBV_REG_MR => sizeof S_IBV_REG_MR_REQ
  | IBV_REG_MR_MAPPING => sizeof S_IBV_REG_MR_MAPPING_REQ
  | IBV_DEREG_MR => sizeof S_IBV_DEREG_MR_REQ
  | IBV_MODIFY_QP => sizeof S_IBV_MODIFY_QP_REQ
  | IBV_QUERY_QP => sizeof S_IBV_QUERY_QP_REQ
  | IBV_POST_SEND | IBV_POST_RECV | IBV_POST_SRQ_RECV => hdr_body
  | IBV_POLL_CQ => sizeof S_IBV_POLL_CQ_REQ
  | IBV_DESTROY_COMP_CHANNEL => sizeof S_IBV_DESTROY_COMP_CHANNEL_REQ
  | IBV_GET_CQ_EVENT => sizeof S_IBV_GET_CQ_EVENT_REQ
  | IBV_ACK_CQ_EVENT => sizeof S_IBV_ACK_CQ_EVENT_REQ
  | IBV_CREATE_AH => sizeof S_IBV_CREATE_AH_REQ
  | IBV_DESTROY_AH => sizeof S_IBV_DESTROY_AH_REQ
  | IBV_CREATE_FLOW => sizeof S_IBV_CREATE_FLOW_REQ
  | IBV_DESTROY_FLOW => sizeof S_IBV_DESTROY_FLOW_REQ
  | IBV_CREATE_SRQ => sizeof S_IBV_CREATE_SRQ_REQ
  | IBV_MODIFY_SRQ => sizeof S_IBV_MODIFY_SRQ_REQ
  | IBV_DESTROY_SRQ => sizeof S_IBV_DESTROY_SRQ_REQ
  | CM_DESTROY_EVENT_CHANNEL => sizeof S_CM_DESTROY_EVENT_CHANNEL_REQ
  | CM_CREATE_ID => sizeof S_CM_CREATE_ID_REQ
  | CM_BIND_IP => sizeof S_CM_BIND_IP_REQ
  | CM_BIND => sizeof S_CM_BIND_REQ
  | CM_GET_EVENT => sizeof S_CM_GET_EVENT_REQ
  | CM_QUERY_ROUTE => sizeof S_CM_QUERY_ROUTE_REQ
  | CM_LISTEN => sizeof S_CM_LISTEN_REQ
  | CM_RESOLVE_IP => sizeof S_CM_RESOLVE_IP_REQ
  | CM_RESOLVE_ADDR => sizeof S_CM_RESOLVE_ADDR_REQ
  | CM_UCMA_QUERY_ADDR => sizeof S_CM_UCMA_QUERY_ADDR_REQ
  | CM_UCMA_QUERY_GID => sizeof S_CM_UCMA_QUERY_GID_REQ
  | CM_UCMA_PROCESS_CONN_RESP => sizeof S_CM_UCMA_PROCESS_CONN_RESP_REQ
  | CM_DESTROY_ID => sizeof S_CM_DESTROY_ID_REQ
  | CM_RESOLVE_ROUTE => sizeof S_CM_RESOLVE_ROUTE_REQ
  | CM_UCMA_QUERY_PATH => sizeof S_CM_UCMA_QUERY_PATH_REQ
  | CM_INIT_QP_ATTR => sizeof S_CM_INIT_QP_ATTR_REQ
  | CM_CONNECT => sizeof S_CM_CONNECT_REQ
  | CM_ACCEPT => sizeof S_CM_ACCEPT_REQ
  | CM_SET_OPTION => sizeof S_CM_SET_OPTION_REQ
  | CM_MIGRATE_ID => sizeof S_CM_MIGRATE_ID_REQ
  | CM_DISCONNECT => sizeof S_CM_DISCONNECT_REQ
  | SOCKET_SOCKET => sizeof S_SOCKET_SOCKET_REQ
  | SOCKET_ACCEPT4 => sizeof S_SOCKET_ACCEPT4_REQ
  | SOCKET_CONNECT => sizeof S_SOCKET_CONNECT_REQ
  | _ => 0
  end.

(** [count] is the number of work completions of a poll. *)
Definition router_size (f : RDMA_FUNCTION_CALL) (count : Z) : Z :=
  match f with
  | IBV_GET_CONTEXT => sizeof S_IBV_GET_CONTEXT_RSP
  | IBV_QUERY_DEV => sizeof S_IBV_QUERY_DEV_RSP
  | IBV_EXP_QUERY_DEV => sizeof S_IBV_EXP_QUERY_DEV_RSP
  | IBV_QUERY_PORT => sizeof S_IBV_QUERY_PORT_RSP
  | IBV_ALLOC_PD => sizeof S_IBV_ALLOC_PD_RSP
  | IBV_DEALLOC_PD => sizeof S_IBV_DEALLOC_PD_RSP
  | IBV_CREATE_CQ => sizeof S_IBV_CREATE_CQ_RSP
  | IBV_DESTROY_CQ => sizeof S_IBV_DESTROY_CQ_RSP
  | IBV_REQ_NOTIFY_CQ => sizeof S_IBV_REQ_NOTIFY_CQ_RSP
  | IBV_CREATE_QP => sizeof S_IBV_CREATE_QP_RSP
  | IBV_DESTROY_QP => sizeof S_IBV_DESTROY_QP_RSP
  | IBV_REG_MR => sizeof S_IBV_REG_MR_RSP
  | IBV_REG_MR_MAPPING => sizeof S_IBV_REG_MR_MAPPING_RSP
  | IBV_DEREG_MR => sizeof S_IBV_DEREG_MR_RSP
  | IBV_MODIFY_QP => sizeof S_IBV_MODIFY_QP_RSP
  | IBV_QUERY_QP => sizeof S_IBV_QUERY_QP_RSP
  | IBV_POST_SEND => sizeof S_IBV_POST_SEND_RSP
  | IBV_POST_RECV => sizeof S_IBV_POST_RECV_RSP
  | IBV_POLL_CQ =>
      if Z.leb count 0 then sizeof S_FfrResponseHeader
      else sizeof S_FfrResponseHeader + count * sizeof S_ibv_wc
  | IBV_CREATE_COMP_CHANNEL => sizeof S_IBV_CREATE_COMP_CHANNEL_RSP
  | IBV_DESTROY_COMP_CHANNEL => sizeof S_IBV_DESTROY_COMP_CHANNEL_RSP
  | IBV_GET_CQ_EVENT => sizeof S_IBV_GET_CQ_EVENT_RSP
  | IBV_ACK_CQ_EVENT => sizeof S_IBV_GET_CQ_EVENT_RSP
  | IBV_CREATE_AH => sizeof S_IBV_CREATE_AH_RSP
  | IBV_DESTROY_AH => sizeof S_IBV_DESTROY_AH_RSP
  | IBV_CREATE_FLOW => sizeof S_IBV_CREATE_FLOW_RSP
  | IBV_DESTROY_FLOW => sizeof S_IBV_DESTROY_FLOW_RSP
  | IBV_CREATE_SRQ => sizeof S_IBV_CREATE_SRQ_RSP
  | IBV_MODIFY_SRQ => sizeof S_IBV_MODIFY_SRQ_RSP
  | IBV_DESTROY_SRQ => sizeof S_IBV_DESTROY_SRQ_RSP
  | IBV_POST_SRQ_RECV => sizeof S_IBV_POST_SRQ_RECV_RSP
  | CM_CREATE_EVENT_CHANNEL => sizeof S_CM_CREATE_EVENT_CHANNEL_RSP
  | CM_DESTROY_EVENT_CHANNEL => sizeof S_CM_DESTROY_EVENT_CHANNEL_RSP
  | CM_CREATE_ID => sizeof S_CM_CREATE_ID_RSP
  | CM_BIND => sizeof S_CM_BIND_RSP
  | CM_GET_EVENT => sizeof S_CM_GET_EVENT_RSP
  | CM_QUERY_ROUTE => sizeof S_CM_QUERY_ROUTE_RSP
  | CM_LISTEN => sizeof S_CM_LISTEN_RSP
  | CM_RESOLVE_IP => sizeof S_CM_RESOLVE_IP_RSP
  | CM_RESOLVE_ADDR => sizeof S_CM_RESOLVE_IP_RSP
  | CM_UCMA_QUERY_ADDR => sizeof S_CM_UCMA_QUERY_ADDR_RSP
  | CM_UCMA_QUERY_GID => sizeof S_CM_UCMA_QUERY_GID_RSP
  | CM_UCMA_PROCESS_CONN_RESP => sizeof S_CM_UCMA_PROCESS_CONN_RESP_RSP
  | CM_DESTROY_ID => sizeof S_CM_DESTROY_ID_RSP
  | CM_RESOLVE_ROUTE => sizeof S_CM_RESOLVE_ROUTE_RSP
  | CM_UCMA_QUERY_PATH => sizeof S_CM_UCMA_QUERY_PATH_RSP
  | CM_INIT_QP_ATTR => sizeof S_CM_INIT_QP_ATTR_RSP
  | CM_CONNECT => sizeof S_CM_CONNECT_RSP
  | CM_ACCEPT => sizeof S_CM_ACCEPT_RSP
  | CM_SET_OPTION => sizeof S_CM_SET_OPTION_RSP
  | CM_MIGRATE_ID => sizeof S_CM_MIGRATE_ID_RSP
  | CM_DISCONNECT => sizeof S_CM_DISCONNECT_RSP
  | SOCKET_SOCKET => sizeof S_SOCKET_SOCKET_RSP
  | SOCKET_BIND => sizeof S_SOCKET_BIND_RSP
  | SOCKET_ACCEPT => sizeof S_SOCKET_ACCEPT_RSP
  | SOCKET_ACCEPT4 => sizeof S_SOCKET_ACCEPT4_RSP
  | SOCKET_CONNECT => sizeof S_SOCKET_CONNECT_RSP
  | _ => 0
  end.

(** ** Receiving a request in the router

    One [read] for the header, one for the body; a short read leaves the loop.
    (A failing [read] returns -1, which the comparison with the unsigned [sizeof]
    does not catch; only the bytes that are there are modelled here.) *)
Inductive recv_out :=
  | RecvKill
  | RecvReq (h : FfrRequestHeader) (f : option RDMA_FUNCTION_CALL) (body rest : list Z).

Definition router_recv (stream : list Z) : recv_out :=
  if Z.ltb (lenZ stream) header_size then RecvKill
  else
    let h := decode_header (takeZ header_size stream) in
    let stream := dropZ header_size stream in
    match func_of_code (func h) with
    | None => RecvReq h None [] stream
    | Some f =>
        let n := router_body f (body_size h) in
        if Z.ltb (lenZ stream) n then RecvKill
        else RecvReq h (Some f) (takeZ n stream) (dropZ n stream)
    end.

(** The bytes the client puts on the wire for a request. *)
Definition request_bytes (cid : Z) (f : RDMA_FUNCTION_CALL) (sh : req_shape) (body : list Z) : list Z :=
  encode_header (mkReqHdr cid (func_code f) (sh_body sh)) ++ takeZ (sh_body sh) body.

(** ** Facts about streams, headers and tables *)

(** The bytes a pipe still delivers do not depend on how the kernel cuts them. *)
Definition no_errors (p : pipe) : Prop := Forall (λ c, c ≠ None) (p_chunks p).

Lemma sys_read_data want p :
  0 < want → no_errors p → p_data p ≠ [] →
  ∃ bs p', sys_read want p = RdBytes bs p' ∧ p_data p = bs ++ p_data p' ∧
    0 < lenZ bs ≤ want ∧ no_errors p' ∧ p_eof p' = p_eof p.
Proof.
  intros Hw Hne Hd. destruct p as [d e cs]. unfold no_errors in *. cbn in *.
  assert (∀ k (cs' : list (option nat)), 0 < k ≤ want → Forall (λ c, c ≠ None) cs' →
    ∃ bs p', RdBytes (takeZ k d) (mkPipe (dropZ k d) e cs') = RdBytes bs p' ∧
      d = bs ++ p_data p' ∧ 0 < lenZ bs ≤ want ∧
      Forall (λ c, c ≠ None) (p_chunks p') ∧ p_eof p' = e) as Hk.
  { intros k cs' Hk Hcs'. exists (takeZ k d), (mkPipe (dropZ k d) e cs'). cbn.
    repeat split; auto.
    - by rewrite takeZ_dropZ.
    - unfold lenZ, takeZ. rewrite length_take. destruct d; [done|cbn; lia].
    - unfold lenZ, takeZ. rewrite length_take. lia. }
  unfold sys_read. cbn. destruct cs as [|[k|] cs]; cbn.
  - destruct d eqn:E; [done|]. rewrite <- E in *. apply Hk; auto. lia.
  - inversion Hne; subst. destruct d eqn:E; [done|]. rewrite <- E in *. apply Hk; auto. lia.
  - inversion Hne; subst. done.
Qed.

(** With no failing call and enough bytes in the stream the loop returns exactly
    the bytes it was asked for, whatever the chunks, within [size - bytes] calls. *)
Lemma read_loop_done fuel bytes size acc p :
  bytes ≤ size → no_errors p → size - bytes ≤ lenZ (p_data p) →
  (Z.to_nat (size - bytes) ≤ fuel)%nat →
  ∃ p', read_loop fuel bytes size acc p = LDone (acc ++ takeZ (size - bytes) (p_data p)) p' ∧
    p_data p' = dropZ (size - bytes) (p_data p) ∧ no_errors p' ∧ p_eof p' = p_eof p.
Proof.
  revert bytes acc p. induction fuel as [|fuel IH]; intros bytes acc p Hle Hne Hlen Hf.
  - cbn [read_loop]. destruct (Z.ltb_spec bytes size); [lia|].
    assert (size - bytes = 0) as -> by lia. exists p. unfold takeZ, dropZ. cbn.
    by rewrite app_nil_r.
  - cbn [read_loop]. destruct (Z.ltb_spec bytes size).
    2:{ assert (size - bytes = 0) as -> by lia. exists p. unfold takeZ, dropZ. cbn.
        by rewrite app_nil_r. }
    destruct (sys_read_data (size - bytes) p) as (bs & p1 & -> & Hd & Hbs & Hne1 & He1); auto.
    { lia. }
    { intros E. rewrite E in Hlen. unfold lenZ in Hlen. cbn in Hlen. lia. }
    rewrite Hd in Hlen |- *. rewrite lenZ_app in Hlen.
    destruct (IH (bytes + lenZ bs) (acc ++ bs) p1) as (p2 & -> & Hd2 & Hne2 & He2); auto; try lia.
    assert (size - (bytes + lenZ bs) = size - bytes - lenZ bs) as E by lia.
    rewrite E in Hd2 |- *. exists p2. split.
    + f_equal. rewrite <- app_assoc. f_equal. unfold takeZ, lenZ in *.
      rewrite take_app_ge by lia. do 2 f_equal. lia.
    + split; [|split; congruence]. rewrite Hd2. unfold dropZ, lenZ in *.
      rewrite drop_app_ge by lia. f_equal. lia.
Qed.

(** At the end of the stream the loop never leaves: no amount of fuel is enough. *)
Lemma read_loop_eof fuel bytes size acc cs :
  bytes < size → Forall (λ c, c ≠ None) cs →
  read_loop fuel bytes size acc (mkPipe [] true cs) = LFuel.
Proof.
  revert acc cs. induction fuel as [|fuel IH]; intros acc cs Hlt Hcs; cbn [read_loop];
    (destruct (Z.ltb_spec bytes size); [|lia]); [done|].
  assert (∃ cs', sys_read (size - bytes) (mkPipe [] true cs) = RdBytes [] (mkPipe [] true cs')
                 ∧ Forall (λ c, c ≠ None) cs') as (cs' & -> & Hcs').
  { unfold sys_read. cbn. destruct cs as [|[k|] cs]; cbn; inversion Hcs; subst; eauto. done. }
  unfold lenZ. cbn. rewrite Z.add_0_r, app_nil_r. by apply IH.
Qed.

Lemma header_size_12 : header_size = 12.
Proof. reflexivity. Qed.

Lemma lenZ_encode_header h : lenZ (encode_header h) = header_size.
Proof. reflexivity. Qed.

Lemma func_of_code_code f : func_of_code (func_code f) = Some f.
Proof. destruct f; vm_compute; reflexivity. Qed.

Lemma func_code_range f : 0 ≤ func_code f < 63.
Proof. destruct f; vm_compute; split; congruence. Qed.

Lemma s32_u32 z : - 2 ^ 31 ≤ z < 2 ^ 31 → s32 (u32 z) = z.
Proof.
  intros Hz. unfold s32, sint, u32. change (2 ^ (32 - 1)) with (2 ^ 31). rewrite Z.mod_mod by lia.
  destruct (Z.ltb_spec (z mod 2 ^ 32) (2 ^ 31)) as [H|H].
  - destruct (Z_lt_dec z 0) as [Hn|Hn]; [|rewrite Z.mod_small by lia; lia].
    rewrite <- (Z.mod_add z 1) in H by lia. rewrite Z.mod_small in H by lia. lia.
  - destruct (Z_lt_dec z 0) as [Hn|Hn]; [|rewrite Z.mod_small in H by lia; lia].
    rewrite <- (Z.mod_add z 1) by lia. rewrite Z.mod_small by lia. lia.
Qed.

Lemma le_val_bytes4 z : le_val (le_bytes 4 (u32 z)) = u32 z.
Proof. apply le_val_bytes. pose proof (u32_range z). change (256 ^ Z.of_nat 4) with 4294967296. lia. Qed.

Definition header_ok (h : FfrRequestHeader) : Prop :=
  - 2 ^ 31 ≤ client_id h < 2 ^ 31 ∧ 0 ≤ func h < 2 ^ 32 ∧ 0 ≤ body_size h < 2 ^ 32.

Lemma decode_encode_header h : header_ok h → decode_header (encode_header h) = h.
Proof.
  intros (Hc & Hf & Hb). destruct h as [c f b]. unfold decode_header, encode_header.
  cbn [client_id func body_size] in *.
  assert (takeZ 4 (le_bytes 4 (u32 c) ++ le_bytes 4 (u32 f) ++ le_bytes 4 (u32 b))
          = le_bytes 4 (u32 c)) as ->
    by (apply takeZ_app_exact; reflexivity).
  assert (dropZ 4 (le_bytes 4 (u32 c) ++ le_bytes 4 (u32 f) ++ le_bytes 4 (u32 b))
          = le_bytes 4 (u32 f) ++ le_bytes 4 (u32 b)) as ->
    by (apply dropZ_app_exact; reflexivity).
  assert (dropZ 8 (le_bytes 4 (u32 c) ++ le_bytes 4 (u32 f) ++ le_bytes 4 (u32 b))
          = le_bytes 4 (u32 b)) as ->
    by (rewrite app_assoc; apply dropZ_app_exact; reflexivity).
  rewrite (takeZ_app_exact (le_bytes 4 (u32 f))) by reflexivity.
  assert (takeZ 4 (le_bytes 4 (u32 b)) = le_bytes 4 (u32 b)) as -> by reflexivity.
  rewrite !le_val_bytes4. f_equal; [by apply s32_u32|apply u32_id; lia|apply u32_id; lia].
Qed.

(** ** The two ends agree *)



(** The same for the connection manager's requests, with one exception:
    the router answers [CM_BIND_IP] with zero bytes although the client waits for
    four. *)
Theorem cm_framing f sh :
  cm_shape f = Some sh →
  router_body f (sh_body sh) = sh_body sh ∧
  (∀ count, router_size f count = if decide (f = CM_BIND_IP) then 0 else sh_rsp sh) ∧
  sh_fixed sh = true ∧ 0 < sh_rsp sh.
Proof.
  intros H. destruct f; try discriminate H; injection H as <-;
    (split; [reflexivity|]); (split; [intros; reflexivity|]); split; vm_compute; reflexivity.
Qed.

Lemma cm_framing_witness : router_size CM_BIND_IP 0 = 0 ∧ cm_shape CM_BIND_IP = Some (mkShape 4 true 56 false).
Proof.
  split; [|reflexivity].
  exact (proj1 (proj2 (cm_framing CM_BIND_IP (mkShape 4 true 56 false) eq_refl)) 0).
Defined.

(** What both clients' tables promise the router's reader. *)
Class Framed (shape : RDMA_FUNCTION_CALL → option req_shape) := {
  framed_body f sh : shape f = Some sh → router_body f (sh_body sh) = sh_body sh;
  framed_range f sh : shape f = Some sh → 0 ≤ sh_body sh < 2 ^ 32;
  framed_kind f sh : shape f = Some sh → is_socket_func f = false
}.

#[export] Instance ibv_shape_framed wr_size :
  0 ≤ wr_size < 2 ^ 32 → Framed (λ f, ibv_shape f wr_size).
Proof.
  intros Hw. split; intros f sh H; destruct f; try discriminate H; injection H as <-;
    try reflexivity; cbn [sh_body]; first [exact Hw | vm_compute; split; congruence].
Qed.

#[export] Instance cm_shape_framed : Framed cm_shape.
Proof.
  split; intros f sh H; destruct f; try discriminate H; injection H as <-;
    try reflexivity; vm_compute; split; congruence.
Qed.

(** One request, as the client's library describes it. *)
Record request := mkReq {
  rq_client : Z;
  rq_func : RDMA_FUNCTION_CALL;
  rq_shape : req_shape;
  rq_body : list Z
}.

Definition request_ok (r : request) : Prop :=
  is_socket_func (rq_func r) = false ∧
  - 2 ^ 31 ≤ rq_client r < 2 ^ 31 ∧
  router_body (rq_func r) (sh_body (rq_shape r)) = sh_body (rq_shape r) ∧
  0 ≤ sh_body (rq_shape r) < 2 ^ 32 ∧ sh_body (rq_shape r) ≤ lenZ (rq_body r).

Definition wire_of (r : request) : list Z :=
  request_bytes (rq_client r) (rq_func r) (rq_shape r) (rq_body r).

Lemma framed_request_ok `{Framed shape} c f sh body :
  - 2 ^ 31 ≤ c < 2 ^ 31 → shape f = Some sh → sh_body sh ≤ lenZ body →
  request_ok (mkReq c f sh body).
Proof.
  intros Hc Hs Hl. pose proof (framed_range f sh Hs).
  repeat split; cbn; eauto using framed_body, framed_kind; lia.
Qed.

Lemma router_recv_request r rest :
  request_ok r →
  router_recv (wire_of r ++ rest) =
  RecvReq (mkReqHdr (rq_client r) (func_code (rq_func r)) (sh_body (rq_shape r)))
    (Some (rq_func r)) (takeZ (sh_body (rq_shape r)) (rq_body r)) rest.
Proof.
  intros (_ & Hc & Hb & Hr & Hl). unfold router_recv, wire_of, request_bytes.
  set (h := mkReqHdr _ _ _).
  assert (header_ok h) as Hh.
  { pose proof (func_code_range (rq_func r)). subst h. unfold header_ok. cbn [client_id func body_size]. lia. }
  rewrite <- app_assoc.
  destruct (Z.ltb_spec (lenZ (encode_header h ++ takeZ (sh_body (rq_shape r)) (rq_body r) ++ rest))
    header_size) as [Hlt|_].
  { rewrite lenZ_app, lenZ_encode_header in Hlt.
    pose proof (lenZ_nonneg (takeZ (sh_body (rq_shape r)) (rq_body r) ++ rest)). lia. }
  rewrite takeZ_app_exact, dropZ_app_exact, decode_encode_header by auto using lenZ_encode_header.
  subst h. cbn [func body_size]. rewrite func_of_code_code, Hb.
  assert (lenZ (takeZ (sh_body (rq_shape r)) (rq_body r)) = sh_body (rq_shape r)) as Ht
    by (apply lenZ_takeZ; lia).
  destruct (Z.ltb_spec (lenZ (takeZ (sh_body (rq_shape r)) (rq_body r) ++ rest))
    (sh_body (rq_shape r))) as [Hlt|_].
  { rewrite lenZ_app, Ht in Hlt. pose proof (lenZ_nonneg rest). lia. }
  by rewrite takeZ_app_exact, dropZ_app_exact by auto.
Qed.

(** The router's [while(1)] over one connection: the requests it extracts from a
    stream.  A socket-call request is the last one of its connection. *)
Fixpoint router_requests (fuel : nat) (stream : list Z) :
    list (FfrRequestHeader * option RDMA_FUNCTION_CALL * list Z) :=
  match fuel with
  | O => []
  | S fuel =>
      match router_recv stream with
      | RecvKill => []
      | RecvReq h f body rest =>
          (h, f, body) ::
          if default false (is_socket_func <$> f) then [] else router_requests fuel rest
      end
  end.


