(* ===== verification/Transport.v ===== *)
(** * [request_router]: one remote call from client to router

    The sockets the two client libraries keep, how they connect, and
    [request_router] of [libibverbs/src/freeflow.c] (one connection per call,
    except for completion events) and of [librdmacm/src/freeflow.c] (a pool of
    connections that stay open), down to the short reads of the response loops. *)

From S2P Require Import Prelude Layout FfTypes Wire.

(** ** Sockets *)

(** [held] is the state of the [pthread_mutex_t] beside the descriptor. *)
Record sock_with_lock := mkSock { sock : Z; held : bool }.

Definition mutex_lock (u : sock_with_lock) : res sock_with_lock :=
  if held u then Blocked else Ok (mkSock (sock u) true).
Definition mutex_unlock (u : sock_with_lock) : res sock_with_lock :=
  if held u then Ok (mkSock (sock u) false) else UB "unlock of a mutex that is not locked".
Definition set_sock (fd : Z) (u : sock_with_lock) : sock_with_lock := mkSock fd (held u).

(** What the environment, the socket calls and the allocator answer: [FFR_ID] is
    the value [atoi] gives, [malloc_usable n] the number of bytes that may be
    stored in a block of [malloc(n)]. *)
Record os_env := mkEnv {
  FFR_NAME : option string;
  FFR_ID : option Z;
  os_socket : Z;
  os_connect : Z;
  malloc_usable : Z → Z
}.

Definition strlen (s : string) : Z := Z.of_nat (String.length s).
Definition router_dir : string := "/freeflow/".
Definition sun_path_size : Z := 108.

(** [strcpy]/[strcat] of a string, with its NUL, into a buffer of [n] bytes. *)
Definition str_store (why : string) (s : string) (n : Z) : res unit :=
  if Z.leb (strlen s + 1) n then Ok () else UB why.

Definition connect_router (os : os_env) (u : sock_with_lock) : res sock_with_lock :=
  let* u := mutex_lock u in
  let u := set_sock (os_socket os) u in
  if Z.ltb (sock u) 0 then Exit 1
  else
    let* router_name := deref "strlen(getenv(FFR_NAME))" (FFR_NAME os) in
    let room := malloc_usable os (strlen router_dir + strlen router_name) in
    do* str_store "strcpy into pathname" router_dir room;
    do* str_store "strcat into pathname" (router_dir +:+ router_name) room;
    do* str_store "strcpy into sun_path" (router_dir +:+ router_name) sun_path_size;
    let u := if Z.ltb (os_connect os) 0 then set_sock (-1) u else u in
    mutex_unlock u.

(** [libibverbs]: a new socket per request. *)
Definition get_unix_sock (os : os_env) : res sock_with_lock :=
  let unix_sock := mkSock (-1) false in
  if Z.ltb (sock unix_sock) 0 then connect_router os unix_sock else Ok unix_sock.

(** A socket of a map indexed by the descriptor of an event channel; [None] is
    the NULL returned for a descriptor past the map.  The same code serves
    [get_unix_sock_comp_channel] and [get_unix_sock_event_channel]. *)
Definition get_unix_sock_channel (os : os_env) (m : gmap Z sock_with_lock) (fd : Z) :
    res (option sock_with_lock) :=
  if Z.leb MAP_SIZE fd then Ok None
  else
    do* in_bounds "channel_sock_map" fd MAP_SIZE;
    let* u := deref "channel_sock_map" (m !! fd) in
    let* u := (if Z.ltb (sock u) 0 then connect_router os u else Ok u) in
    Ok (Some u).

Definition get_unix_sock_comp_channel := get_unix_sock_channel.
Definition get_unix_sock_event_channel := get_unix_sock_channel.

(** ** State of [libibverbs/src/freeflow.c] set up by [init_sock] *)
Record ibv_state := mkIbv {
  sock_initialized : bool;
  ffr_client_id : Z;
  comp_channel_sock_map : gmap Z sock_with_lock;
  comp_channel_map : gmap Z Z;
  map_cq_to_srq : gmap Z Z
}.

Definition fill {A} (a : A) : gmap Z A := list_to_map ((λ i, (i, a)) <$> seqZ 0 MAP_SIZE).

Definition init_sock (os : os_env) (s : ibv_state) : res ibv_state :=
  if sock_initialized s then Ok s
  else
    match FFR_ID os with
    | None => Exit 1
    | Some cid => Ok (mkIbv true cid (fill (mkSock (-1) false)) (fill (-1)) (fill (MAP_SIZE + 1)))
    end.

(** ** Receiving a descriptor

    [cmsg] is the control message that came with the first bytes: its length,
    level and type as [recvmsg] delivers them, and the descriptor. *)
Record cmsghdr := mkCmsg { cmsg_len : Z; cmsg_level : Z; cmsg_type : Z; cmsg_fd : Z }.
Definition SOL_SOCKET : Z := 1.
Definition SCM_RIGHTS : Z := 1.
Definition CMSG_LEN_int : Z := 20.

Definition recv_fd (cmsg : option cmsghdr) (p : pipe) : res (Z * pipe) :=
  match sys_read 2 p with
  | RdErr _ => Exit 1
  | RdBlock => Blocked
  | RdBytes _ p =>
      match cmsg with
      | Some c =>
          if Z.eqb (cmsg_len c) CMSG_LEN_int then
            if negb (Z.eqb (cmsg_level c) SOL_SOCKET) then Exit 1
            else if negb (Z.eqb (cmsg_type c) SCM_RIGHTS) then Exit 1
            else Ok (cmsg_fd c, p)
          else Ok (-1, p)
      | None => Ok (-1, p)
      end
  end.

(** The router's [send_fd] puts the descriptor beside two bytes of data. *)
Definition send_fd (fd : Z) : list Z * option cmsghdr :=
  ([0; 0], if Z.eqb fd (-1) then None else Some (mkCmsg CMSG_LEN_int SOL_SOCKET SCM_RIGHTS fd)).

(** ** The exchange

    The part of [request_router] both libraries share: two writes, the
    descriptor when one is expected, the response header when the size is not
    fixed, and the response.  [wh] and [wb] are what the two [write] calls return;
    [C] compares them with unsigned sizes, so the test is on the value modulo the
    width of the comparison.  [peer] is the other end: from the bytes written,
    what can be read back and the control message. *)
Definition put (bytes : list Z) (n : Z) : list Z := if Z.ltb n 0 then [] else takeZ n bytes.

Definition after_write (w n size : Z) (u : sock_with_lock) : sock_with_lock :=
  if Z.ltb (n mod 2 ^ w) size then
    if Z.ltb n 0 then set_sock (-1) u else u
  else u.

Record xch := mkXch {
  x_wire : list Z;
  x_fd : Z;
  x_size : Z;
  x_rsp : option (list Z);
  x_sock : sock_with_lock;
  x_left : pipe
}.

Definition read_rsp (fuel : nat) (wire : list Z) (fd n : Z) (u : sock_with_lock) (p : pipe) : res xch :=
  match read_loop fuel 0 n [] p with
  | LFuel => OutOfFuel
  | LBlock => Blocked
  | LErr p => Ok (mkXch wire fd n None (set_sock (-1) u) p)
  | LDone rsp p => Ok (mkXch wire fd n (Some rsp) u p)
  end.

Definition exchange (fuel : nat) (wh wb : Z) (peer : list Z → pipe * option cmsghdr)
    (h : FfrRequestHeader) (req_body : list Z) (wants_fd : bool) (sh : req_shape)
    (u : sock_with_lock) : res xch :=
  let wire := put (encode_header h) wh in
  let u := after_write 64 wh header_size u in
  let wire := if Z.ltb 0 (body_size h) then wire ++ put (takeZ (body_size h) req_body) wb else wire in
  let u := if Z.ltb 0 (body_size h) then after_write 32 wb (body_size h) u else u in
  let '(p, cmsg) := peer wire in
  let* (mapped_fd, p) := (if wants_fd then recv_fd cmsg p else Ok (-1, p)) in
  if sh_fixed sh then read_rsp fuel wire mapped_fd (sh_rsp sh) u p
  else
    match read_loop fuel 0 (sizeof S_FfrResponseHeader) [] p with
    | LFuel => OutOfFuel
    | LBlock => Blocked
    | LErr p => Ok (mkXch wire mapped_fd 0 None (set_sock (-1) u) p)
    | LDone rsp_hr p => read_rsp fuel wire mapped_fd (s32 (le_val rsp_hr)) u p
    end.

(** Overwriting the [int] at offset [off] of a response. *)
Definition poke32 (off v : Z) (bs : list Z) : list Z :=
  takeZ off bs ++ le_bytes 4 (u32 v) ++ dropZ (off + 4) bs.
Definition peek32 (off : Z) (bs : list Z) : Z := s32 (le_val (takeZ 4 (dropZ off bs))).

(** The answer to a channel creation: the router's descriptor is recorded under
    the local one, which replaces it in the response. *)
Definition remap_fd (off mapped_fd : Z) (rsp : list Z) (m : gmap Z Z) : res (list Z * gmap Z Z) :=
  do* in_bounds "channel_map" mapped_fd MAP_SIZE;
  Ok (poke32 off mapped_fd rsp, <[mapped_fd := peek32 off rsp]> m).

(** ** [request_router] of [libibverbs]

    The result is the exchange with the final response, or [None] when the
    function returned before or without one. *)
Definition request_router (fuel : nat) (os : os_env) (wh wb : Z)
    (peer : list Z → pipe * option cmsghdr) (s : ibv_state)
    (req : RDMA_FUNCTION_CALL) (wr_size : Z) (req_body : list Z) : res (option xch * ibv_state) :=
  let ev_fd := peek32 0 req_body in
  let* unix_sock :=
    (if decide (req = IBV_GET_CQ_EVENT) then
       get_unix_sock_comp_channel os (comp_channel_sock_map s) ev_fd
     else let* u := get_unix_sock os in Ok (Some u)) in
  match unix_sock with
  | None => Ok (None, s)
  | Some u =>
    let keep (u : sock_with_lock) (s : ibv_state) :=
      if decide (req = IBV_GET_CQ_EVENT) then
        mkIbv (sock_initialized s) (ffr_client_id s) (<[ev_fd := u]> (comp_channel_sock_map s))
              (comp_channel_map s) (map_cq_to_srq s)
      else s in
    if Z.ltb (sock u) 0 then Ok (None, keep u s)
    else
    match FFR_ID os with
    | None => Exit 1
    | Some cid =>
      match ibv_shape req wr_size with
      | None => Ok (None, s)
      | Some sh =>
        let* u := (if sh_close sh then Ok u else mutex_lock u) in
        let* x := exchange fuel wh wb peer (mkReqHdr cid (func_code req) (u32 (sh_body sh)))
                    req_body (bool_decide (req = IBV_CREATE_COMP_CHANNEL)) sh u in
        let* (rsp, ccm) :=
          (match x_rsp x with
           | Some rsp =>
               if decide (req = IBV_CREATE_COMP_CHANNEL) then
                 let* (rsp, m) := remap_fd 0 (x_fd x) rsp (comp_channel_map s) in Ok (Some rsp, m)
               else Ok (Some rsp, comp_channel_map s)
           | None => Ok (None, comp_channel_map s)
           end) in
        let* u := (if sh_close sh then Ok (x_sock x) else mutex_unlock (x_sock x)) in
        Ok (Some (mkXch (x_wire x) (x_fd x) (x_size x) rsp u (x_left x)),
            keep u (mkIbv (sock_initialized s) (ffr_client_id s) (comp_channel_sock_map s) ccm
                          (map_cq_to_srq s)))
      end
    end
  end.

(** ** [librdmacm]: a pool of kept connections *)
Record cm_state := mkCm {
  control_sock : gmap Z sock_with_lock;
  write_sock : gmap Z sock_with_lock;
  read_sock : gmap Z sock_with_lock;
  poll_sock : gmap Z sock_with_lock;
  event_sock : gmap Z sock_with_lock;
  event_channel_sock_map : gmap Z sock_with_lock;
  event_channel_map : gmap Z Z
}.

Inductive cm_slot := Control (i : Z) | Event (i : Z) | Channel (fd : Z).

#[export] Instance cm_slot_eq_dec : EqDecision cm_slot.
Proof. solve_decision. Defined.

Definition cm_get (s : cm_state) (k : cm_slot) : option sock_with_lock :=
  match k with
  | Control i => control_sock s !! i
  | Event i => event_sock s !! i
  | Channel fd => event_channel_sock_map s !! fd
  end.

Definition cm_put (s : cm_state) (k : cm_slot) (u : sock_with_lock) : cm_state :=
  let 'mkCm c w r p e ch m := s in
  match k with
  | Control i => mkCm (<[i := u]> c) w r p e ch m
  | Event i => mkCm c w r p (<[i := u]> e) ch m
  | Channel fd => mkCm c w r p e (<[fd := u]> ch) m
  end.

Definition cm_set_map (s : cm_state) (m : gmap Z Z) : cm_state :=
  mkCm (control_sock s) (write_sock s) (read_sock s) (poll_sock s) (event_sock s)
       (event_channel_sock_map s) m.

(** [librdmacm] has its own copies of the connection, of the descriptor passing and
    of the exchange, with the same text. *)
Definition cm_connect_router := connect_router.

Definition cm_exchange := exchange.

(** The [switch] of [librdmacm]'s [get_unix_sock]; [r] is [rand()]. *)
Definition cm_slot_of (req : RDMA_FUNCTION_CALL) (r : Z) : option cm_slot :=
  let index := r mod PARALLEL_SIZE in
  match req with
  | CM_CREATE_EVENT_CHANNEL | CM_DESTROY_EVENT_CHANNEL | CM_CREATE_ID | CM_BIND_IP | CM_BIND
  | CM_QUERY_ROUTE | CM_LISTEN | CM_RESOLVE_IP | CM_RESOLVE_ADDR | CM_UCMA_QUERY_ADDR
  | CM_UCMA_QUERY_GID | CM_DESTROY_ID | CM_RESOLVE_ROUTE | CM_UCMA_QUERY_PATH
  | CM_UCMA_PROCESS_CONN_RESP | CM_INIT_QP_ATTR | CM_CONNECT | CM_ACCEPT | CM_SET_OPTION
  | CM_MIGRATE_ID | CM_DISCONNECT => Some (Control index)
  | CM_GET_EVENT => Some (Event index)
  | _ => None
  end.

Definition cm_get_unix_sock (os : os_env) (s : cm_state) (req : RDMA_FUNCTION_CALL) (r : Z) :
    res (option (cm_slot * sock_with_lock)) :=
  match cm_slot_of req r with
  | None => Ok None
  | Some k =>
      let* u := deref "socket pool" (cm_get s k) in
      let* u := (if Z.ltb (sock u) 0 then cm_connect_router os u else Ok u) in
      Ok (Some (k, u))
  end.

(** [init_sock] of [librdmacm] connects the five sockets of every pool slot, then
    clears the channel maps; [os k] is what the system answers during the [k]-th
    connection. *)
Definition cm_init_slot (os : Z → os_env) (i : Z) (s : cm_state) : res cm_state :=
  let fresh := mkSock (-1) false in
  let* c := cm_connect_router (os (5 * i)) fresh in
  let* w := cm_connect_router (os (5 * i + 1)) fresh in
  let* r := cm_connect_router (os (5 * i + 2)) fresh in
  let* p := cm_connect_router (os (5 * i + 3)) fresh in
  let* e := cm_connect_router (os (5 * i + 4)) fresh in
  Ok (mkCm (<[i := c]> (control_sock s)) (<[i := w]> (write_sock s)) (<[i := r]> (read_sock s))
           (<[i := p]> (poll_sock s)) (<[i := e]> (event_sock s))
           (event_channel_sock_map s) (event_channel_map s)).

Fixpoint cm_init_slots (os : Z → os_env) (slots : list Z) (s : cm_state) : res cm_state :=
  match slots with
  | [] => Ok s
  | i :: slots => let* s := cm_init_slot os i s in cm_init_slots os slots s
  end.

Definition cm_init_sock (os : Z → os_env) (initialized : bool) (s : cm_state) : res cm_state :=
  if initialized then Ok s
  else
    let* s := cm_init_slots os (seqZ 0 PARALLEL_SIZE) s in
    Ok (mkCm (control_sock s) (write_sock s) (read_sock s) (poll_sock s) (event_sock s)
             (fill (mkSock (-1) false)) (fill (-1))).

Definition cm_request_router (fuel : nat) (os : os_env) (r wh wb : Z)
    (peer : list Z → pipe * option cmsghdr) (s : cm_state)
    (req : RDMA_FUNCTION_CALL) (req_body : list Z) : res (option xch * cm_state) :=
  let* unix_sock :=
    (if decide (req = CM_GET_EVENT) then
       let fd := peek32 0 req_body in
       let* u := get_unix_sock_event_channel os (event_channel_sock_map s) fd in
       Ok ((λ u, (Channel fd, u)) <$> u)
     else cm_get_unix_sock os s req r) in
  match unix_sock with
  | None => Ok (None, s)
  | Some (k, u) =>
    if Z.ltb (sock u) 0 then Ok (None, cm_put s k u)
    else
      let* cid := deref "atoi(getenv(FFR_ID))" (FFR_ID os) in
      match cm_shape req with
      | None => let* u := mutex_unlock u in Ok (None, cm_put s k u)
      | Some sh =>
        let* u := mutex_lock u in
        let* x := cm_exchange fuel wh wb peer (mkReqHdr cid (func_code req) (sh_body sh))
                    req_body (bool_decide (req = CM_CREATE_EVENT_CHANNEL)) sh u in
        let* (rsp, ecm) :=
          (match x_rsp x with
           | Some rsp =>
               if decide (req = CM_CREATE_EVENT_CHANNEL) then
                 let* (rsp, m) := remap_fd 4 (x_fd x) rsp (event_channel_map s) in Ok (Some rsp, m)
               else Ok (Some rsp, event_channel_map s)
           | None => Ok (None, event_channel_map s)
           end) in
        let* u := mutex_unlock (x_sock x) in
        Ok (Some (mkXch (x_wire x) (x_fd x) (x_size x) rsp u (x_left x)),
            cm_put (cm_set_map s ecm) k u)
      end
  end.

(** ** Theorems *)

Lemma put_full bs n : n = lenZ bs → put bs n = bs.
Proof.
  intros ->. unfold put. pose proof (lenZ_nonneg bs). destruct (Z.ltb_spec (lenZ bs) 0); [lia|].
  unfold takeZ, lenZ. rewrite Nat2Z.id. by apply take_ge.
Qed.

Lemma after_write_full w n u : after_write w n (n mod 2 ^ w) u = u.
Proof. unfold after_write. by rewrite Z.ltb_irrefl. Qed.

(** A failing write is never noticed: the comparison of [-1] with an
    unsigned size is false, so the socket is never marked as disconnected
    whatever the two calls return. *)
Theorem write_failure_unnoticed w n size u :
  (w = 32 ∨ w = 64) → 0 ≤ size < 2 ^ 31 → - 1 ≤ n → after_write w n size u = u.
Proof.
  intros Hw Hs Hn. unfold after_write.
  destruct (Z.ltb_spec n 0) as [Hneg|]; [|by destruct (Z.ltb _ _)].
  assert (n = -1) as -> by lia.
  destruct (Z.ltb_spec (-1 mod 2 ^ w) size) as [Hlt|]; [|done].
  destruct Hw as [-> | ->].
  - change (-1 mod 2 ^ 32) with 4294967295 in Hlt. lia.
  - change (-1 mod 2 ^ 64) with 18446744073709551615 in Hlt. lia.
Qed.

Lemma write_failure_unnoticed_witness :
  after_write 64 (-1) 12 (mkSock 5 true) = mkSock 5 true.
Proof. apply write_failure_unnoticed; [by right|lia|lia]. Defined.

(** The router as a peer: it takes a request off the stream and puts [answer]'s
    bytes back, delivered in any chunks. *)
Definition router_peer (answer : FfrRequestHeader → RDMA_FUNCTION_CALL → list Z → list Z)
    (cmsg : option cmsghdr) (chunks : list (option nat)) (wire : list Z) : pipe * option cmsghdr :=
  match router_recv wire with
  | RecvReq h (Some f) body _ => (mkPipe (answer h f body) false chunks, cmsg)
  | RecvReq _ None _ _ => (mkPipe [] false chunks, None)
  | RecvKill => (mkPipe [] true chunks, None)
  end.

Section Exchange.
Context (answer : FfrRequestHeader → RDMA_FUNCTION_CALL → list Z → list Z).
Context (cmsg : option cmsghdr) (chunks : list (option nat)).
Context (Hchunks : Forall (λ c, c ≠ None) chunks).
Context (r : request) (Hr : request_ok r).
Let hdr := mkReqHdr (rq_client r) (func_code (rq_func r)) (sh_body (rq_shape r)).
Let body := takeZ (sh_body (rq_shape r)) (rq_body r).

Lemma exchange_wire :
  (if Z.ltb 0 (sh_body (rq_shape r))
   then put (encode_header hdr) header_size ++ put body (sh_body (rq_shape r))
   else put (encode_header hdr) header_size) = wire_of r.
Proof.
  destruct Hr as (_ & _ & _ & Hb & Hl). unfold wire_of, request_bytes. fold hdr body.
  rewrite (put_full (encode_header hdr)) by (by rewrite lenZ_encode_header).
  destruct (Z.ltb_spec 0 (sh_body (rq_shape r))).
  - rewrite put_full; [done|]. unfold body. rewrite lenZ_takeZ; lia.
  - assert (sh_body (rq_shape r) = 0) as E by lia. unfold body. rewrite E.
    change (takeZ 0 (rq_body r)) with (@nil Z). by rewrite app_nil_r.
Qed.

Lemma router_peer_wire : router_peer answer cmsg chunks (wire_of r) =
  (mkPipe (answer hdr (rq_func r) body) false chunks, cmsg).
Proof. unfold router_peer. rewrite <- (app_nil_r (wire_of r)). by rewrite router_recv_request. Qed.

(** The exchange, once both writes are complete, is the read of the answer. *)
Lemma exchange_unfold fuel wants_fd u :
  exchange fuel header_size (sh_body (rq_shape r)) (router_peer answer cmsg chunks) hdr
    (rq_body r) wants_fd (rq_shape r) u =
  let p := mkPipe (answer hdr (rq_func r) body) false chunks in
  let* (fd, p) := (if wants_fd then recv_fd cmsg p else Ok (-1, p)) in
  if sh_fixed (rq_shape r) then read_rsp fuel (wire_of r) fd (sh_rsp (rq_shape r)) u p
  else match read_loop fuel 0 (sizeof S_FfrResponseHeader) [] p with
       | LFuel => OutOfFuel
       | LBlock => Blocked
       | LErr p => Ok (mkXch (wire_of r) fd 0 None (set_sock (-1) u) p)
       | LDone rsp_hr p => read_rsp fuel (wire_of r) fd (s32 (le_val rsp_hr)) u p
       end.
Proof.
  unfold exchange. fold body. cbn [body_size hdr].
  change (body_size hdr) with (sh_body (rq_shape r)). fold body. rewrite exchange_wire, router_peer_wire.
  assert (after_write 64 header_size header_size u = u) as ->.
  { apply (after_write_full 64 12). }
  assert (after_write 32 (sh_body (rq_shape r)) (sh_body (rq_shape r)) u = u) as ->.
  { destruct Hr as (_ & _ & _ & Hb & _).
    rewrite <- (Z.mod_small (sh_body (rq_shape r)) (2 ^ 32)) at 2 by lia. apply after_write_full. }
  by destruct (Z.ltb 0 (sh_body (rq_shape r))).
Qed.

Lemma read_rsp_done fuel wire fd n u p :
  0 ≤ n ≤ lenZ (p_data p) → no_errors p → (Z.to_nat n ≤ fuel)%nat →
  ∃ p', read_rsp fuel wire fd n u p = Ok (mkXch wire fd n (Some (takeZ n (p_data p))) u p') ∧
    p_data p' = dropZ n (p_data p) ∧ no_errors p'.
Proof.
  intros Hn Hne Hf. unfold read_rsp.
  destruct (read_loop_done fuel 0 n [] p) as (p' & -> & Hd & Hne' & _); auto; try lia.
  rewrite Z.sub_0_r in *. exists p'. cbn. auto.
Qed.

(** How the router lays out a response: bare when its size is fixed, behind a
    response header otherwise. *)
Definition frame (sh : req_shape) (payload : list Z) : list Z :=
  if sh_fixed sh then payload else le_bytes 4 (u32 (lenZ payload)) ++ payload.

(** An answer laid out as the shape says arrives whole, whatever the chunks,
    and nothing is left in the socket for the next call. *)
Lemma exchange_call fuel u payload :
  answer hdr (rq_func r) body = frame (rq_shape r) payload →
  (sh_fixed (rq_shape r) = true → lenZ payload = sh_rsp (rq_shape r)) →
  lenZ payload < 2 ^ 31 → (4 + length payload ≤ fuel)%nat →
  ∃ p', exchange fuel header_size (sh_body (rq_shape r)) (router_peer answer cmsg chunks) hdr
          (rq_body r) false (rq_shape r) u =
        Ok (mkXch (wire_of r) (-1) (lenZ payload) (Some payload) u p')
        ∧ p_data p' = [].
Proof.
  intros Ha Hlen Hmax Hf. rewrite exchange_unfold, Ha. cbn [rbind]. unfold frame.
  assert (∀ p fd, p_data p = payload → no_errors p →
    ∃ p', read_rsp fuel (wire_of r) fd (lenZ payload) u p =
      Ok (mkXch (wire_of r) fd (lenZ payload) (Some payload) u p') ∧ p_data p' = []) as Hrd.
  { intros p fd Hd Hne.
    destruct (read_rsp_done fuel (wire_of r) fd (lenZ payload) u p) as (p' & -> & Hd' & _); auto.
    - rewrite Hd. pose proof (lenZ_nonneg payload). lia.
    - unfold lenZ. lia.
    - exists p'. rewrite Hd in *. unfold takeZ, dropZ, lenZ in *. rewrite Nat2Z.id in *.
      by rewrite take_ge, Hd', drop_all by lia. }
  destruct (sh_fixed (rq_shape r)).
  - rewrite <- Hlen by done. by apply Hrd.
  - destruct (read_loop_done fuel 0 (sizeof S_FfrResponseHeader) []
      (mkPipe (le_bytes 4 (u32 (lenZ payload)) ++ payload) false chunks))
      as (p' & -> & Hd & Hne & _).
    + vm_compute; congruence.
    + done.
    + cbn [p_data]. rewrite lenZ_app. pose proof (lenZ_nonneg payload).
      change (lenZ (le_bytes 4 (u32 (lenZ payload)))) with 4.
      change (sizeof S_FfrResponseHeader) with 4. lia.
    + change (sizeof S_FfrResponseHeader) with 4. lia.
    + change (sizeof S_FfrResponseHeader - 0) with 4 in *. cbn [p_data] in *.
      rewrite app_nil_l, takeZ_app_exact by reflexivity.
      rewrite dropZ_app_exact in Hd by reflexivity.
      rewrite le_val_bytes4, s32_u32 by (pose proof (lenZ_nonneg payload); lia).
      by apply Hrd.
Qed.
End Exchange.


Definition demo_env : os_env := mkEnv (Some "router"%string) (Some 7) 3 0 (λ n, n + 8).


(** ** The connection manager's calls *)

Definition cm_unlocked (s : cm_state) : Prop := ∀ k u, cm_get s k = Some u → held u = false.

Lemma connect_router_unlocked os u u' :
  connect_router os u = Ok u' → held u = false ∧ held u' = false.
Proof.
  unfold connect_router, mutex_lock, mutex_unlock, str_store. intros H.
  destruct (held u) eqn:E; [done|]. cbn in H.
  destruct (Z.ltb (os_socket os) 0); [done|]. destruct (FFR_NAME os); [|done]. cbn in H.
  repeat (destruct (Z.leb _ _) in H; cbn in H; [|done]).
  destruct (Z.ltb (os_connect os) 0); cbn in H; injection H as <-; done.
Qed.

Lemma reconnect_unlocked os u u' :
  held u = false → (if Z.ltb (sock u) 0 then connect_router os u else Ok u) = Ok u' → held u' = false.
Proof.
  intros Hu. destruct (Z.ltb (sock u) 0).
  - intros H. by apply connect_router_unlocked in H as [_ ?].
  - by intros [= <-].
Qed.

Lemma cm_get_put s k u k' :
  cm_get (cm_put s k u) k' = if decide (k = k') then Some u else cm_get s k'.
Proof.
  destruct s, k as [i|i|i], k' as [j|j|j]; cbn; try (destruct (decide _) as [E|E]; congruence);
    (destruct (decide (_ = _)) as [[= ->]|E]; [apply lookup_insert_eq|apply lookup_insert_ne; congruence]).
Qed.

Lemma cm_put_unlocked s k u : cm_unlocked s → held u = false → cm_unlocked (cm_put s k u).
Proof.
  intros Hs Hu k' u'. rewrite cm_get_put. case_decide; [by intros [= <-]|apply Hs].
Qed.

Lemma cm_set_map_unlocked s m : cm_unlocked s → cm_unlocked (cm_set_map s m).
Proof. intros Hs k u Hk. apply (Hs k). by destruct s, k. Qed.

Lemma mutex_unlock_held u u' : mutex_unlock u = Ok u' → held u' = false.
Proof. unfold mutex_unlock. destruct (held u); [by intros [= <-]|done]. Qed.
#[export] Hint Resolve cm_put_unlocked cm_set_map_unlocked mutex_unlock_held reconnect_unlocked : ff.

(** Splits a hypothesis [rbind m f = Ok b] into the two steps. *)
Ltac rbind_inv H :=
  let x := fresh "x" in let H1 := fresh H in
  apply res_bind_Ok in H as (x & H1 & H).

(** Lock discipline of the pool: a call of [librdmacm]'s [request_router]
    that returns, with an answer, an error or no socket, leaves every mutex of the
    pool and of the channel map unlocked, so no later call can deadlock on it. *)
Theorem cm_request_router_unlocks fuel os r wh wb peer s req body o s' :
  cm_unlocked s →
  cm_request_router fuel os r wh wb peer s req body = Ok (o, s') → cm_unlocked s'.
Proof.
  intros Hs H. unfold cm_request_router in H. rbind_inv H.
  destruct x as [[k u]|]; [|by injection H as _ <-].
  assert (held u = false) as Hu.
  { destruct (decide _).
    - rbind_inv H0. destruct x as [u0|]; [|done]. injection H0 as <- ->.
      unfold get_unix_sock_event_channel, get_unix_sock_channel in H1.
      destruct (Z.leb _ _); [done|]. rbind_inv H1. rbind_inv H1. rbind_inv H1.
      injection H1 as <-. unfold deref in H2. destruct (event_channel_sock_map s !! _) eqn:E; [|done].
      injection H2 as <-. eapply reconnect_unlocked; [|done]. by apply (Hs (Channel (peek32 0 body))).
    - unfold cm_get_unix_sock in H0. destruct (cm_slot_of req r) as [k0|]; [|done].
      rbind_inv H0. rbind_inv H0. injection H0 as <- <-. unfold deref in H1.
      destruct (cm_get s k0) eqn:E; [|done]. injection H1 as <-.
      eapply reconnect_unlocked; [|done]. by apply (Hs k0). }
  destruct (Z.ltb (sock u) 0); [injection H as _ <-; auto with ff|].
  rbind_inv H. destruct (cm_shape req).
  - rbind_inv H. rbind_inv H. rbind_inv H. destruct x2 as [rsp ecm]. rbind_inv H.
    assert (cm_put (cm_set_map s ecm) k x2 = s') as <- by congruence. eauto with ff.
  - rbind_inv H. injection H as _ <-. eauto with ff.
Qed.

Definition demo_cm : cm_state :=
  mkCm {[ 4 := mkSock 3 false ]} ∅ ∅ ∅ ∅ ∅ ∅.

Lemma demo_cm_unlocked : cm_unlocked demo_cm.
Proof.
  intros [i|i|i] u; cbn; [|done|done].
  destruct (decide (i = 4)) as [->|Hi].
  - rewrite lookup_singleton_eq. by intros [= <-].
  - by rewrite lookup_singleton_ne.
Qed.

Lemma cm_request_router_unlocks_witness :
  ∃ o s', cm_request_router 8 demo_env 14 12 20
            (router_peer (λ _ _ b, [0; 0; 0; 0]) None []) demo_cm CM_LISTEN (replicate 20 0) = Ok (o, s')
          ∧ cm_unlocked s'.
Proof.
  destruct (cm_request_router 8 demo_env 14 12 20
    (router_peer (λ _ _ b, [0; 0; 0; 0]) None []) demo_cm CM_LISTEN (replicate 20 0)) as [[o s']| | | |] eqn:E;
    [|vm_compute in E; discriminate E ..].
  exists o, s'. split; [reflexivity|].
  exact (cm_request_router_unlocks 8 demo_env 14 12 20 _ demo_cm CM_LISTEN (replicate 20 0) o s'
           demo_cm_unlocked E).
Defined.

(** The CM call over a pooled connection, and [CM_BIND_IP]'s missing answer. *)
Lemma cm_request_router_unfold fuel os r wh wb peer s req body k u cid sh :
  req ≠ CM_GET_EVENT → req ≠ CM_CREATE_EVENT_CHANNEL →
  cm_slot_of req r = Some k → cm_get s k = Some u → 0 ≤ sock u → held u = false →
  FFR_ID os = Some cid → cm_shape req = Some sh →
  cm_request_router fuel os r wh wb peer s req body =
  (let* x := exchange fuel wh wb peer (mkReqHdr cid (func_code req) (sh_body sh)) body false sh
               (mkSock (sock u) true) in
   let* u := mutex_unlock (x_sock x) in
   Ok (Some (mkXch (x_wire x) (x_fd x) (x_size x) (x_rsp x) u (x_left x)),
       cm_put (cm_set_map s (event_channel_map s)) k u)).
Proof.
  intros Hev Hcc Hk Hu Hs Hl Hid Hsh. unfold cm_request_router, cm_get_unix_sock, cm_exchange, deref.
  destruct (decide _); [done|]. rewrite Hk, Hu. cbn [rbind].
  destruct (Z.ltb_spec (sock u) 0); [lia|]. cbn [rbind].
  destruct (Z.ltb_spec (sock u) 0); [lia|]. rewrite Hid, Hsh. cbn [rbind].
  unfold mutex_lock at 1. rewrite Hl. cbn [rbind]. rewrite bool_decide_eq_false_2 by done.
  destruct (exchange _ _ _ _ _ _ _ _ _) as [x| | | |]; cbn [rbind]; try done.
  destruct (decide _); [done|]. by destruct (x_rsp x).
Qed.

(**  The connection manager's remote call over a pooled connection: the
    caller gets exactly the answer of the router's handler, whatever the chunks;
    the connection stays open, unlocked and with nothing unread, so the next call
    on it starts in step with the router. *)
Theorem cm_request_router_call fuel os s f r sh req_body answer chunks cid k u payload :
  let hdr := mkReqHdr cid (func_code f) (sh_body sh) in
  f ≠ CM_GET_EVENT → f ≠ CM_CREATE_EVENT_CHANNEL →
  cm_slot_of f r = Some k → cm_get s k = Some u → 0 ≤ sock u → held u = false →
  FFR_ID os = Some cid → - 2 ^ 31 ≤ cid < 2 ^ 31 →
  cm_shape f = Some sh → sh_body sh ≤ lenZ req_body →
  Forall (λ c, c ≠ None) chunks →
  answer hdr f (takeZ (sh_body sh) req_body) = payload → lenZ payload = sh_rsp sh →
  (4 + length payload ≤ fuel)%nat →
  ∃ x s', cm_request_router fuel os r header_size (sh_body sh) (router_peer answer None chunks) s f
            req_body = Ok (Some x, s') ∧
          x_rsp x = Some payload ∧ p_data (x_left x) = [] ∧ cm_get s' k = Some u.
Proof.
  intros hdr Hev Hcc Hk Hu Hs Hl Hid Hcid Hsh Hb Hch Ha Hlen Hf.
  pose proof (framed_request_ok (shape := cm_shape) cid f sh req_body Hcid Hsh Hb) as Hr.
  assert (sh_fixed sh = true ∧ sh_rsp sh < 2 ^ 31) as [Hfix Hmax]
    by (destruct f; try done; injection Hsh as <-; vm_compute; auto).
  destruct (exchange_call answer None chunks Hch _ Hr fuel (mkSock (sock u) true) payload)
    as (p' & Hx & Hp'); cbn [rq_client rq_func rq_shape rq_body]; auto.
  { unfold frame. by rewrite Hfix. }
  { lia. }
  cbn [rq_client rq_func rq_shape rq_body] in Hx.
  rewrite (cm_request_router_unfold _ _ _ _ _ _ _ _ _ k u cid sh), Hx by done.
  cbn [rbind x_sock mutex_unlock held sock]. eexists _, _. split; [reflexivity|].
  repeat split; [done|]. rewrite cm_get_put, decide_True by done. destruct u. cbn in *. congruence.
Qed.

Lemma cm_request_router_call_witness :
  ∃ x s', cm_request_router 8 demo_env 14 12 20
            (router_peer (λ _ _ _, [9; 0; 0; 0]) None [Some 2%nat]) demo_cm CM_LISTEN (replicate 20 0)
            = Ok (Some x, s') ∧
          x_rsp x = Some [9; 0; 0; 0] ∧ p_data (x_left x) = [] ∧
          cm_get s' (Control 4) = Some (mkSock 3 false).
Proof.
  apply (cm_request_router_call 8 demo_env demo_cm CM_LISTEN 14 (mkShape 4 true 20 false)
           (replicate 20 0) (λ _ _ _, [9; 0; 0; 0]) [Some 2%nat] 7 (Control 4) (mkSock 3 false)
           [9; 0; 0; 0]);
    try reflexivity; try discriminate; try (cbn; lia).
  by repeat constructor.
Defined.

(** [rdma_bind_addr] of a client never returns: the router reads the request
    but answers with the zero bytes its [size] still holds, keeps the connection
    open, and the client blocks in the read loop with the pool mutex held. *)
Theorem cm_bind_ip_blocks fuel os s r req_body answer chunks cid k u :
  (∀ h b, lenZ (answer h CM_BIND_IP b) = router_size CM_BIND_IP 0) →
  cm_slot_of CM_BIND_IP r = Some k → cm_get s k = Some u → 0 ≤ sock u → held u = false →
  FFR_ID os = Some cid → - 2 ^ 31 ≤ cid < 2 ^ 31 →
  sizeof S_CM_BIND_IP_REQ ≤ lenZ req_body →
  Forall (λ c, c ≠ None) chunks →
  cm_request_router (S fuel) os r header_size (sizeof S_CM_BIND_IP_REQ)
    (router_peer answer None chunks) s CM_BIND_IP req_body = Blocked.
Proof.
  intros Ha Hk Hu Hs Hl Hid Hcid Hb Hch.
  set (sh := mkShape 4 true (sizeof S_CM_BIND_IP_REQ) false).
  assert (cm_shape CM_BIND_IP = Some sh) as Hsh by reflexivity.
  pose proof (framed_request_ok (shape := cm_shape) cid CM_BIND_IP sh req_body Hcid Hsh Hb) as Hr.
  rewrite (cm_request_router_unfold _ _ _ _ _ _ _ _ _ k u cid sh) by done.
  pose proof (exchange_unfold answer None chunks _ Hr (S fuel) false (mkSock (sock u) true)) as Hx.
  cbn [rq_client rq_func rq_shape rq_body] in Hx. change (sh_body sh) with (sizeof S_CM_BIND_IP_REQ) in *.
  rewrite Hx. cbn [rbind sh_fixed sh]. clear Hx.
  assert (∀ l : list Z, lenZ l = router_size CM_BIND_IP 0 → l = []) as Hnil.
  { intros [|z l]; [done|]. change (router_size CM_BIND_IP 0) with 0. rewrite lenZ_cons.
    pose proof (lenZ_nonneg l). lia. }
  rewrite (Hnil _ (Ha _ _)). unfold read_rsp. cbn [sh_rsp sh sh_fixed read_loop Z.ltb Z.compare].
  unfold sys_read. cbn [p_chunks p_data p_eof].
  destruct Hch as [|[c|] cs Hc Hcs]; done.
Qed.

Lemma cm_bind_ip_blocks_witness :
  cm_request_router 100 demo_env 14 12 56 (router_peer (λ _ _ _, []) None []) demo_cm CM_BIND_IP
    (replicate 56 0) = Blocked.
Proof.
  apply (cm_bind_ip_blocks 99 demo_env demo_cm 14 (replicate 56 0) (λ _ _ _, []) [] 7 (Control 4)
           (mkSock 3 false)); try reflexivity; try discriminate; try (cbn; lia); try constructor.
Defined.

(** Once the router has closed the connection a call never returns: the
    response loop treats the zero that [read] returns at the end of the stream as
    progress, and no number of iterations is enough. *)
Theorem request_router_spins_at_eof fuel os s f wr_size sh req_body wh wb cid u chunks :
  f ≠ IBV_GET_CQ_EVENT → f ≠ IBV_CREATE_COMP_CHANNEL →
  ibv_shape f wr_size = Some sh → FFR_ID os = Some cid →
  get_unix_sock os = Ok u → 0 ≤ sock u → Forall (λ c, c ≠ None) chunks →
  request_router fuel os wh wb (λ _, (mkPipe [] true chunks, None)) s f wr_size req_body = OutOfFuel.
Proof.
  intros Hev Hcc Hsh Hid Hu Hs Hch.
  unfold request_router. destruct (decide _); [done|]. rewrite Hu. cbn [rbind].
  destruct (Z.ltb_spec (sock u) 0); [lia|]. rewrite Hid, Hsh.
  assert (sh_close sh = true ∧ (sh_fixed sh = true → 0 < sh_rsp sh)) as [Hcl Hpos]
    by (destruct f; try done; injection Hsh as <-; vm_compute; split; congruence).
  rewrite Hcl. cbn [rbind]. unfold exchange. rewrite bool_decide_eq_false_2 by done. cbn [rbind].
  unfold read_rsp. destruct (sh_fixed sh).
  - rewrite read_loop_eof; auto.
  - rewrite read_loop_eof; auto. vm_compute. congruence.
Qed.

Lemma request_router_spins_at_eof_witness :
  request_router 1000 demo_env 12 4 (λ _, (mkPipe [] true [], None)) (mkIbv true 7 ∅ ∅ ∅)
    IBV_DEALLOC_PD 0 [1; 2; 3; 4] = OutOfFuel.
Proof.
  apply (request_router_spins_at_eof 1000 demo_env _ IBV_DEALLOC_PD 0 (mkShape 4 true 4 true)
           [1; 2; 3; 4] 12 4 7 (mkSock 3 false) []); try reflexivity; try discriminate; constructor.
Defined.

Lemma strlen_app s t : strlen (s +:+ t) = strlen s + strlen t.
Proof.
  unfold strlen. induction s as [|c s IH]; [done|].
  change (String c s +:+ t) with (String c (s +:+ t)). cbn [String.length]. lia.
Qed.

(** The path buffer of [connect_router] is one byte short: with an
    allocator that hands out exactly the bytes asked for, no router name
    connects without writing past the block; one spare byte is enough for every
    name that fits [sun_path]. *)
Theorem connect_router_path_overflow os u name :
  FFR_NAME os = Some name → 0 ≤ os_socket os → held u = false →
  let asked := strlen router_dir + strlen name in
  (malloc_usable os asked = asked → ∃ why, connect_router os u = UB why) ∧
  (asked < malloc_usable os asked → asked < sun_path_size →
   connect_router os u = Ok (mkSock (if Z.ltb (os_connect os) 0 then -1 else os_socket os) false)).
Proof.
  intros Hn Hso Hu asked. unfold connect_router, mutex_lock. rewrite Hu. cbn [rbind set_sock sock held].
  destruct (Z.ltb_spec (os_socket os) 0); [lia|]. rewrite Hn. cbn [rbind deref].
  fold asked. unfold str_store.
  assert (strlen (router_dir +:+ name) = asked) as Hl
    by apply strlen_app.
  rewrite Hl. assert (0 ≤ strlen name) by (unfold strlen; lia). split.
  - intros ->. destruct (Z.leb_spec (strlen router_dir + 1) asked); cbn [rbind]; [|eauto].
    destruct (Z.leb_spec (asked + 1) asked); [lia|]. cbn [rbind]. eauto.
  - intros Hroom Hsun. destruct (Z.leb_spec (strlen router_dir + 1) (malloc_usable os asked));
      [|unfold asked in *; lia]. cbn [rbind].
    destruct (Z.leb_spec (asked + 1) (malloc_usable os asked)); [|lia]. cbn [rbind].
    destruct (Z.leb_spec (asked + 1) sun_path_size); [|lia]. cbn [rbind].
    by destruct (Z.ltb (os_connect os) 0).
Qed.

Lemma connect_router_path_overflow_witness :
  (∃ why, connect_router (mkEnv (Some "router"%string) (Some 7) 3 0 id) (mkSock (-1) false) = UB why) ∧
  connect_router demo_env (mkSock (-1) false) = Ok (mkSock 3 false).
Proof.
  split.
  - refine (proj1 (connect_router_path_overflow
      (mkEnv (Some "router"%string) (Some 7) 3 0 id) (mkSock (-1) false) "router" eq_refl _ eq_refl) eq_refl).
    cbn; lia.
  - refine (proj2 (connect_router_path_overflow demo_env (mkSock (-1) false) "router" eq_refl _ eq_refl) _ _);
      vm_compute; congruence.
Defined.
