(* ===== verification/WrQueue.v ===== *)
(** * The receive-buffer ring

    For every receive work request the client library remembers where the bytes
    will arrive (the shared-memory copy of the memory region) and where the
    application expects them; a completion pops the oldest entry and copies.  The
    ring is [struct wr_queue] of [infiniband/freeflow.h], its operations are the
    enqueue sequence of [ibv_cmd_post_recv] and [ibv_cmd_post_srq_recv] and the
    dequeue sequence of [ibv_cmd_poll_cq] in [libibverbs/src/cmd.c].  Head and tail
    are [uint16_t] although the array has [WR_QUEUE_SIZE] slots. *)

From S2P Require Import Prelude Layout FfTypes.

Record sge_record := mkRec { rec_length : Z; mr_addr : Z; shm_addr : Z }.

(** [sge_queue] is [None] before the first use of the slot and after [free]. *)
Record wr := mkWr { sge_num : Z; sge_queue : option (list sge_record) }.

Record wr_queue := mkQueue { queue : gmap Z wr; head : Z; tail : Z }.

(** The queue [ibv_cmd_create_cq] and [ibv_cmd_create_srq] allocate; the slots are
    not initialised. *)
Definition new_queue : wr_queue := mkQueue ∅ 0 0.

(** [x++; if (x >= WR_QUEUE_SIZE) x = 0;] on a [uint16_t]. *)
Definition advance (x : Z) : Z :=
  let x := x ⊕16 1 in if Z.leb WR_QUEUE_SIZE x then 0 else x.

(** The enqueue of one work request with the records [recs] of its scatter list:
    a slot that is reused keeps its old [sge_queue] pointer when the new request
    has no scatter list. *)
Definition enqueue (recs : list sge_record) (q : wr_queue) : wr_queue :=
  let wr_index := head q in
  let n := lenZ recs in
  let old := default (mkWr 0 None) (queue q !! wr_index) in
  let slot := mkWr n (if Z.eqb n 0 then sge_queue old else Some recs) in
  mkQueue (<[wr_index := slot]> (queue q)) (advance (head q)) (tail q).

(** The dequeue of a completion: the records to copy and the queue with the slot
    freed.  An empty slot is an uninitialised read, a freed one a dangling one. *)
Definition dequeue (q : wr_queue) : res (list sge_record * wr_queue) :=
  let wr_index := tail q in
  let* slot := deref "uninitialised slot of the ring" (queue q !! wr_index) in
  if Z.eqb (sge_num slot) 0 then Ok ([], mkQueue (queue q) (head q) (advance (tail q)))
  else
    let* recs := deref "sge_queue already freed" (sge_queue slot) in
    Ok (recs, mkQueue (<[wr_index := mkWr (sge_num slot) None]> (queue q)) (head q) (advance (tail q))).

(** ** Abstract view: a first-in first-out list of scatter lists *)

Definition ring_size : Z := 2 ^ 16.

Definition slot_holds (q : wr_queue) (i : Z) (recs : list sge_record) : Prop :=
  ∃ slot, queue q !! i = Some slot ∧ sge_num slot = lenZ recs ∧
          (recs ≠ [] → sge_queue slot = Some recs).

Record represents (q : wr_queue) (abs : list (list sge_record)) : Prop := {
  rep_tail : 0 ≤ tail q < ring_size;
  rep_head : head q = (tail q + lenZ abs) mod ring_size;
  rep_len : lenZ abs ≤ ring_size;
  rep_slots i recs : abs !! i = Some recs → slot_holds q ((tail q + Z.of_nat i) mod ring_size) recs
}.

Lemma advance_mod x : advance x = (x + 1) mod ring_size.
Proof.
  unfold advance. destruct (Z.leb_spec WR_QUEUE_SIZE (x ⊕16 1)) as [H|H]; [|done].
  pose proof (u16_range (x + 1)). unfold WR_QUEUE_SIZE in H. lia.
Qed.

Lemma ring_pos : 0 < ring_size.
Proof. done. Qed.

Lemma advance_range x : 0 ≤ advance x < ring_size.
Proof. rewrite advance_mod. apply Z.mod_pos_bound, ring_pos. Qed.

Lemma new_queue_represents : represents new_queue [].
Proof. split; cbn; try lia; try done. all: unfold ring_size; lia. Qed.

Lemma lenZ_nil_inv {A} (l : list A) : lenZ l = 0 → l = [].
Proof. destruct l; [done|]. rewrite lenZ_cons. pose proof (lenZ_nonneg l). lia. Qed.

Lemma enqueue_slot recs q : slot_holds (enqueue recs q) (head q) recs.
Proof.
  unfold slot_holds, enqueue. cbn. eexists. rewrite lookup_insert_eq. split; [done|]. cbn.
  split; [done|]. intros Hne. destruct (Z.eqb_spec (lenZ recs) 0) as [E|]; [|done].
  by apply lenZ_nil_inv in E.
Qed.

Lemma enqueue_represents recs q abs :
  represents q abs → lenZ abs < ring_size → represents (enqueue recs q) (abs ++ [recs]).
Proof.
  intros [Ht Hh Hl Hs] Hlt. pose proof ring_pos as Hp. split.
  - done.
  - cbn [enqueue head tail]. rewrite advance_mod, Hh, Zplus_mod_idemp_l, lenZ_app.
    f_equal. change (lenZ [recs]) with 1. lia.
  - rewrite lenZ_app. change (lenZ [recs]) with 1. lia.
  - intros i r Hi. change (tail (enqueue recs q)) with (tail q).
    apply lookup_app_Some in Hi as [Hi|[Hge Hi]].
    + destruct (Hs i r Hi) as (slot & Hslot & Hrest). exists slot. split; [|done].
      unfold enqueue. cbn. rewrite lookup_insert_ne; [done|]. rewrite Hh. intros Heq.
      apply lookup_lt_Some in Hi. apply mod_small_inj in Heq; [|lia|]; unfold lenZ in *; lia.
    + apply list_lookup_singleton_Some in Hi as [Hi <-].
      assert ((tail q + Z.of_nat i) mod ring_size = head q) as ->.
      { rewrite Hh. f_equal. unfold lenZ. lia. }
      apply enqueue_slot.
Qed.

Lemma dequeue_represents recs q abs :
  represents q (recs :: abs) → ∃ q', dequeue q = Ok (recs, q') ∧ represents q' abs.
Proof.
  intros [Ht Hh Hl Hs]. pose proof ring_pos as Hp.
  destruct (Hs 0%nat recs eq_refl) as (slot & Hslot & Hnum & Hq).
  rewrite Z.add_0_r, Z.mod_small in Hslot by lia.
  unfold dequeue. rewrite Hslot. cbn [deref rbind]. rewrite Hnum, lenZ_cons in *.
  assert (∀ m', (∀ i, i ≠ tail q → m' !! i = queue q !! i) →
    represents (mkQueue m' (head q) (advance (tail q))) abs) as Hrep.
  { intros m' Hm'. split; cbn [head tail queue].
    - apply advance_range.
    - rewrite advance_mod, Hh, Zplus_mod_idemp_l. f_equal. lia.
    - lia.
    - intros i r Hi. destruct (Hs (S i) r Hi) as (sl & Hsl & Hrest). exists sl. split; [|done].
      assert ((advance (tail q) + Z.of_nat i) mod ring_size
              = (tail q + Z.of_nat (S i)) mod ring_size) as ->.
      { rewrite advance_mod, Zplus_mod_idemp_l. f_equal. lia. }
      rewrite Hm'; [done|]. intros Heq. apply lookup_lt_Some in Hi. unfold lenZ in Hl.
      rewrite <- (Z.mod_small (tail q) ring_size) in Heq at 2 by lia.
      apply mod_small_inj in Heq; lia. }
  destruct (Z.eqb_spec (lenZ recs) 0) as [E|E].
  - apply lenZ_nil_inv in E as ->. eexists. split; [done|]. by apply Hrep.
  - rewrite Hq by (intros ->; done). cbn [deref rbind]. eexists. split; [done|].
    apply Hrep. intros i Hi. by rewrite lookup_insert_ne.
Qed.

(** ** Runs of operations *)

Inductive ring_op := Push (recs : list sge_record) | Pop.

Fixpoint ring_run (ops : list ring_op) (q : wr_queue) : res (list (list sge_record) * wr_queue) :=
  match ops with
  | [] => Ok ([], q)
  | Push recs :: ops => ring_run ops (enqueue recs q)
  | Pop :: ops =>
      let* (recs, q) := dequeue q in
      let* (out, q) := ring_run ops q in
      Ok (recs :: out, q)
  end.

(** The specification: a list, with no bound; [None] when a completion arrives
    that no posted request accounts for or more than [cap] are outstanding. *)
Fixpoint fifo_run (cap : Z) (ops : list ring_op) (abs : list (list sge_record)) :
    option (list (list sge_record) * list (list sge_record)) :=
  match ops with
  | [] => Some ([], abs)
  | Push recs :: ops => if Z.ltb (lenZ abs) cap then fifo_run cap ops (abs ++ [recs]) else None
  | Pop :: ops =>
      match abs with
      | [] => None
      | recs :: abs => '(out, abs) ← fifo_run cap ops abs; Some (recs :: out, abs)
      end
  end.

Lemma ring_run_represents ops q abs out abs' :
  represents q abs → fifo_run ring_size ops abs = Some (out, abs') →
  ∃ q', ring_run ops q = Ok (out, q') ∧ represents q' abs'.
Proof.
  revert q abs out. induction ops as [|[recs|] ops IH]; intros q abs out Hr Hf; cbn in *.
  - injection Hf as <- <-. eauto.
  - destruct (Z.ltb_spec (lenZ abs) ring_size); [|done].
    eapply IH; [|done]. by apply enqueue_represents.
  - destruct abs as [|recs abs]; [done|].
    apply bind_Some in Hf as ([out1 abs1] & Hf & [= <- <-]).
    destruct (dequeue_represents _ _ _ Hr) as (q1 & -> & Hr1). cbn [rbind].
    destruct (IH _ _ _ Hr1 Hf) as (q2 & -> & Hr2). cbn [rbind]. eauto.
Qed.

(** C36.  Refinement of the receive ring: for every sequence of posted receives
    and completions with at most 65536 requests outstanding, the ring is safe and
    every completion gets the records of the oldest outstanding request, in the
    order they were posted. *)
Theorem ring_refines_fifo ops out abs :
  fifo_run ring_size ops [] = Some (out, abs) →
  ∃ q, ring_run ops new_queue = Ok (out, q) ∧ represents q abs.
Proof. apply ring_run_represents, new_queue_represents. Qed.

Lemma ring_refines_fifo_witness :
  let a := [mkRec 8 100 200] in let b := [mkRec 4 300 400; mkRec 4 500 600] in
  fifo_run ring_size [Push a; Push []; Push b; Pop; Pop; Pop] [] = Some ([a; []; b], []) ∧
  ∃ q, ring_run [Push a; Push []; Push b; Pop; Pop; Pop] new_queue = Ok ([a; []; b], q) ∧ represents q [].
Proof. split; [reflexivity|]. apply ring_refines_fifo. reflexivity. Defined.

(** Pushes only. *)
Lemma push_run (rs : list (list sge_record)) q abs :
  represents q abs → lenZ abs + lenZ rs ≤ ring_size →
  represents (foldl (λ q r, enqueue r q) q rs) (abs ++ rs).
Proof.
  revert q abs. induction rs as [|r rs IH]; intros q abs Hr Hl; cbn [foldl].
  - by rewrite app_nil_r.
  - rewrite lenZ_cons in Hl. pose proof (lenZ_nonneg rs).
    rewrite cons_middle, app_assoc. apply IH.
    + apply enqueue_represents; [done|lia].
    + rewrite lenZ_app. change (lenZ [r]) with 1. lia.
Qed.

(** The bound is sharp and is not [WR_QUEUE_SIZE]: with 65536 requests
    outstanding one more overwrites the oldest, and the next completion gets the
    records of the newest request, although the array has room for 102400. *)
Theorem ring_overrun (rs : list (list sge_record)) (r : list sge_record) :
  lenZ rs = ring_size → r ≠ [] →
  ∃ q', dequeue (enqueue r (foldl (λ q r, enqueue r q) new_queue rs)) = Ok (r, q') ∧
        lenZ rs + 1 < WR_QUEUE_SIZE.
Proof.
  intros Hl Hne.
  pose proof (push_run rs new_queue [] new_queue_represents) as Hr.
  change (lenZ (@nil (list sge_record))) with 0 in Hr. specialize (Hr ltac:(lia)).
  cbn [app] in Hr. destruct Hr as [Ht Hh _ _].
  set (q := foldl _ _ _) in *.
  assert (head q = tail q) as E.
  { rewrite Hh, Hl. rewrite <- (Z.mul_1_l ring_size) at 1. rewrite Z.mod_add by (unfold ring_size; lia).
    apply Z.mod_small. lia. }
  destruct (enqueue_slot r q) as (slot & Hslot & Hnum & Hq).
  unfold dequeue. change (tail (enqueue r q)) with (tail q). rewrite <- E, Hslot.
  cbn [deref rbind]. rewrite Hnum.
  destruct (Z.eqb_spec (lenZ r) 0) as [E0|]; [by apply lenZ_nil_inv in E0|].
  rewrite Hq by done. cbn [deref rbind]. eexists. split; [done|]. rewrite Hl. done.
Qed.

Lemma ring_overrun_witness :
  let rs := replicate (Z.to_nat ring_size) [mkRec 1 1 1] in let r := [mkRec 2 2 2] in
  ∃ q', dequeue (enqueue r (foldl (λ q r, enqueue r q) new_queue rs)) = Ok (r, q') ∧
        lenZ rs + 1 < WR_QUEUE_SIZE.
Proof.
  apply ring_overrun; [|discriminate].
  unfold lenZ. rewrite length_replicate. reflexivity.
Defined.
