(* ===== verification/SharedMem.v ===== *)
(** * Address spaces over shared objects

    The client and the router see the same shared-memory object at different
    addresses, and an aligned memory region of the application is itself replaced
    by the object.  An address space is a list of mappings, the newest first; the
    bytes live in objects.  Objects stand for shared-memory files and for the
    private memory of a process alike. *)

From S2P Require Import Prelude.

Abbreviation loc := (Z * Z)%type (only parsing).
Abbreviation store := (gmap (Z * Z) Z).

Record mapping := mkMapping { m_base : Z; m_len : Z; m_obj : Z; m_off : Z }.
Definition aspace := list mapping.

Definition PAGE : Z := 4096.
Definition page_up (n : Z) : Z := (n + PAGE - 1) / PAGE * PAGE.

Definition covers (m : mapping) (a : Z) : bool := Z.leb (m_base m) a && Z.ltb a (m_base m + m_len m).

Fixpoint resolve (sp : aspace) (a : Z) : option loc :=
  match sp with
  | [] => None
  | m :: sp => if covers m a then Some (m_obj m, m_off m + (a - m_base m)) else resolve sp a
  end.

(** [mmap] of an object from its start, in whole pages. *)
Definition mmap_at (base length obj : Z) (sp : aspace) : aspace :=
  mkMapping base (page_up length) obj 0 :: sp.

(** [ftruncate] of an object: the bytes it does not have yet, up to the end of
    the last page, read as zero. *)
Definition ftruncate (obj length : Z) (st : store) : store :=
  foldr (λ i st, match st !! (obj, i) with Some _ => st | None => <[(obj, i) := 0]> st end)
    st (seqZ 0 (page_up length)).

Fixpoint mem_load (sp : aspace) (st : store) (a : Z) (n : nat) : res (list Z) :=
  match n with
  | O => Ok []
  | S n =>
      let* l := deref "load from an unmapped address" (resolve sp a) in
      let* b := deref "load past the end of an object" (st !! l) in
      let* bs := mem_load sp st (a + 1) n in
      Ok (b :: bs)
  end.

Fixpoint mem_store (sp : aspace) (st : store) (a : Z) (bs : list Z) : res store :=
  match bs with
  | [] => Ok st
  | b :: bs =>
      let* l := deref "store to an unmapped address" (resolve sp a) in
      let* _ := deref "store past the end of an object" (st !! l) in
      mem_store sp (<[l := b]> st) (a + 1) bs
  end.

(** [memcpy]: the source is read before the destination is written. *)
Definition memcpy (sp : aspace) (st : store) (dst src n : Z) : res store :=
  let* bs := mem_load sp st src (Z.to_nat n) in mem_store sp st dst bs.

(** ** Windows: ranges of addresses that are one contiguous piece of an object *)

Definition window (sp : aspace) (a n obj off : Z) : Prop :=
  ∀ i, 0 ≤ i < n → resolve sp (a + i) = Some (obj, off + i).

(** Every byte of the piece exists. *)
Definition present (st : store) (obj off n : Z) : Prop :=
  ∀ i, 0 ≤ i < n → is_Some (st !! (obj, off + i)).

Lemma window_sub sp a n obj off k m :
  window sp a n obj off → 0 ≤ k → k + m ≤ n → window sp (a + k) m obj (off + k).
Proof.
  intros H Hk Hm i Hi. rewrite <- !Z.add_assoc. apply H. lia.
Qed.

Lemma present_sub st obj off n k m :
  present st obj off n → 0 ≤ k → k + m ≤ n → present st obj (off + k) m.
Proof. intros H Hk Hm i Hi. rewrite <- Z.add_assoc. apply H. lia. Qed.

Lemma resolve_mmap_at base length obj sp a :
  resolve (mmap_at base length obj sp) a =
  if Z.leb base a && Z.ltb a (base + page_up length) then Some (obj, a - base) else resolve sp a.
Proof. unfold mmap_at. cbn. unfold covers. cbn. by destruct (_ && _). Qed.

Lemma page_up_ge n : n ≤ page_up n.
Proof.
  unfold page_up, PAGE. pose proof (Z.div_mod (n + 4096 - 1) 4096).
  pose proof (Z.mod_pos_bound (n + 4096 - 1) 4096). lia.
Qed.

Lemma window_mmap_at base length n obj sp :
  n ≤ page_up length → window (mmap_at base length obj sp) base n obj 0.
Proof.
  intros Hn i Hi. rewrite resolve_mmap_at.
  destruct (Z.leb_spec base (base + i)); [|lia].
  destruct (Z.ltb_spec (base + i) (base + page_up length)); [|lia]. cbn. do 2 f_equal. lia.
Qed.

Lemma window_head m sp n : n ≤ m_len m → window (m :: sp) (m_base m) n (m_obj m) (m_off m).
Proof.
  intros Hn i Hi. cbn [resolve]. unfold covers.
  destruct (Z.leb_spec (m_base m) (m_base m + i)); [|lia].
  destruct (Z.ltb_spec (m_base m + i) (m_base m + m_len m)); [|lia]. cbn [andb]. do 2 f_equal. lia.
Qed.

Lemma window_tail m sp a n obj off :
  a + n ≤ m_base m ∨ m_base m + m_len m ≤ a → window sp a n obj off → window (m :: sp) a n obj off.
Proof.
  intros Hd Hw i Hi. cbn [resolve]. unfold covers.
  destruct (Z.leb_spec (m_base m) (a + i)); cbn [andb]; [|by apply Hw].
  destruct (Z.ltb_spec (a + i) (m_base m + m_len m)); [lia|by apply Hw].
Qed.

(** ** Loads and stores through a window *)

(** What a load returns, byte by byte. *)
Lemma mem_load_Some sp st a n bs :
  mem_load sp st a n = Ok bs ↔
  length bs = n ∧ ∀ i b, bs !! i = Some b →
    ∃ l, resolve sp (a + Z.of_nat i) = Some l ∧ st !! l = Some b.
Proof.
  revert a bs. induction n as [|n IH]; intros a bs; cbn.
  - split; [intros [= <-]; split; [done|]; intros i b; rewrite lookup_nil; done|].
    intros [Hl _]. by destruct bs.
  - split.
    + intros H. apply res_bind_Ok in H as (l & Hl & H). apply res_bind_Ok in H as (b & Hb & H).
      apply res_bind_Ok in H as (bs' & Hbs & [= <-]). apply IH in Hbs as [Hlen Hi].
      split; [by rewrite length_cons, Hlen|]. intros [|i] c Hc.
      * cbn in Hc. injection Hc as <-. rewrite Z.add_0_r. exists l.
        destruct (resolve sp a); [|done]. injection Hl as ->. split; [done|].
        by destruct (st !! l); [injection Hb as ->|].
      * destruct (Hi i c Hc) as (l' & Hl' & Hc'). exists l'. split; [|done].
        rewrite <- Hl'. f_equal. lia.
    + intros [Hlen Hi]. destruct bs as [|b bs]; [done|]. cbn in Hlen.
      destruct (Hi 0%nat b eq_refl) as (l & Hl & Hb). rewrite Z.add_0_r in Hl.
      rewrite Hl. cbn. rewrite Hb. cbn.
      assert (mem_load sp st (a + 1) n = Ok bs) as ->; [|done].
      apply IH. split; [lia|]. intros i c Hc.
      destruct (Hi (S i) c Hc) as (l' & Hl' & Hc'). exists l'. split; [|done].
      rewrite <- Hl'. f_equal. lia.
Qed.

(** A load of a window that is present succeeds. *)
Lemma mem_load_window sp st a n obj off :
  window sp a (Z.of_nat n) obj off → present st obj off (Z.of_nat n) →
  ∃ bs, mem_load sp st a n = Ok bs ∧ length bs = n.
Proof.
  revert a off. induction n as [|n IH]; intros a off Hw Hp; [by exists []|]. cbn [mem_load].
  specialize (Hw 0 ltac:(lia)) as Hw0. destruct (Hp 0 ltac:(lia)) as [b Hb].
  rewrite !Z.add_0_r in Hw0. rewrite Z.add_0_r in Hb. rewrite Hw0. cbn [deref rbind].
  rewrite Hb. cbn [deref rbind].
  destruct (IH (a + 1) (off + 1)) as (bs & -> & Hl).
  - apply (window_sub _ _ _ _ _ 1) with (m := Z.of_nat n) in Hw; [done|lia|lia].
  - apply (present_sub _ _ _ _ 1 (Z.of_nat n)) in Hp; [done|lia|lia].
  - exists (b :: bs). cbn. split; [done|lia].
Qed.

(** What a store through a window does to every byte of every object. *)
Definition overwrite (bs : list Z) (obj off : Z) (st : store) (l : loc) : option Z :=
  if bool_decide (l.1 = obj ∧ off ≤ l.2 < off + lenZ bs) then bs !! Z.to_nat (l.2 - off) else st !! l.

Lemma mem_store_window sp st a obj off bs :
  window sp a (lenZ bs) obj off → present st obj off (lenZ bs) →
  ∃ st', mem_store sp st a bs = Ok st' ∧ ∀ l, st' !! l = overwrite bs obj off st l.
Proof.
  revert st a off. induction bs as [|b bs IH]; intros st a off Hw Hp.
  - exists st. split; [done|]. intros l. unfold overwrite.
    rewrite bool_decide_eq_false_2; [done|]. change (lenZ []) with 0. lia.
  - rewrite lenZ_cons in Hw, Hp. pose proof (lenZ_nonneg bs) as Hnn.
    cbn [mem_store]. specialize (Hw 0 ltac:(lia)) as Hw0. destruct (Hp 0 ltac:(lia)) as [c Hc].
    rewrite !Z.add_0_r in Hw0. rewrite Z.add_0_r in Hc. rewrite Hw0. cbn [deref rbind].
    rewrite Hc. cbn [deref rbind].
    destruct (IH (<[(obj, off) := b]> st) (a + 1) (off + 1)) as (st' & -> & Hst').
    + apply (window_sub _ _ _ _ _ 1) with (m := lenZ bs) in Hw; [done|lia|lia].
    + intros i Hi. destruct (Hp (1 + i)) as [d Hd]; [lia|]. exists d.
      rewrite lookup_insert_ne; [|intros [=]; lia]. rewrite <- Hd. f_equal. f_equal. lia.
    + exists st'. split; [done|]. intros l. rewrite Hst'. unfold overwrite.
      rewrite lenZ_cons. destruct l as [o x]. cbn [fst snd].
      destruct (decide (o = obj ∧ x = off)) as [[-> ->]|Hne].
      * rewrite bool_decide_eq_false_2 by lia. rewrite bool_decide_eq_true_2 by lia.
        by rewrite Z.sub_diag, lookup_insert_eq.
      * destruct (decide (o = obj ∧ off + 1 ≤ x < off + 1 + lenZ bs)) as [[-> Hx]|Hx].
        -- rewrite !bool_decide_eq_true_2 by lia.
           assert (Z.to_nat (x - off) = S (Z.to_nat (x - (off + 1)))) as -> by lia. done.
        -- rewrite !bool_decide_eq_false_2 by lia. apply lookup_insert_ne. intros [=]. lia.
Qed.

(** Distinct addresses of the range are distinct bytes. *)
Definition unaliased (sp : aspace) (a n : Z) : Prop :=
  ∀ i j, 0 ≤ i < n → 0 ≤ j < n → resolve sp (a + i) = resolve sp (a + j) → i = j.

(** A store to any range of existing, unaliased bytes. *)
Lemma mem_store_unaliased sp st a bs :
  (∀ i, 0 ≤ i < lenZ bs → ∃ l, resolve sp (a + i) = Some l ∧ is_Some (st !! l)) →
  unaliased sp a (lenZ bs) →
  ∃ st', mem_store sp st a bs = Ok st' ∧ mem_load sp st' a (length bs) = Ok bs ∧
    (∀ l, (∀ i, 0 ≤ i < lenZ bs → resolve sp (a + i) ≠ Some l) → st' !! l = st !! l).
Proof.
  revert st a. induction bs as [|b bs IH]; intros st a Hex Hun; [by exists st|].
  rewrite lenZ_cons in *. pose proof (lenZ_nonneg bs).
  destruct (Hex 0) as (l0 & Hl0 & v & Hv); [lia|]. rewrite Z.add_0_r in Hl0.
  assert (∀ i, 0 ≤ i < lenZ bs → resolve sp (a + 1 + i) ≠ Some l0) as Hoth.
  { intros i Hi Heq. assert (0 = 1 + i); [|lia]. apply Hun; [lia|lia|].
    rewrite Z.add_0_r, Hl0, <- Heq. f_equal. lia. }
  destruct (IH (<[l0 := b]> st) (a + 1)) as (st' & Hst' & Hld & Hf).
  - intros i Hi. destruct (Hex (1 + i)) as (l & Hl & Hs); [lia|]. exists l.
    rewrite Z.add_assoc in Hl. split; [done|].
    rewrite lookup_insert_ne; [done|]. intros <-. by eapply Hoth.
  - intros i j Hi Hj Heq. assert (1 + i = 1 + j); [|lia]. apply Hun; [lia|lia|].
    by rewrite !Z.add_assoc.
  - exists st'. cbn [mem_store mem_load length]. rewrite Hl0. cbn [deref rbind]. rewrite Hv.
    cbn [deref rbind]. split; [done|]. rewrite (Hf l0) by done. rewrite lookup_insert_eq.
    cbn [deref rbind]. rewrite Hld. split; [done|]. intros l Hl. rewrite Hf.
    + apply lookup_insert_ne. intros <-. apply (Hl 0); [lia|]. by rewrite Z.add_0_r.
    + intros i Hi. rewrite <- Z.add_assoc. apply Hl. lia.
Qed.

Lemma present_overwrite bs obj off st st' o f n :
  (∀ l, st' !! l = overwrite bs obj off st l) → present st o f n → present st' o f n.
Proof.
  intros Hst Hp i Hi. rewrite Hst. unfold overwrite. case_bool_decide as Hc; [|by apply Hp].
  apply lookup_lt_is_Some_2. cbn [fst snd] in *. unfold lenZ in *. lia.
Qed.

(** [ftruncate] makes the whole last page present and keeps what was there. *)
Lemma ftruncate_present obj length st : present (ftruncate obj length st) obj 0 (page_up length).
Proof.
  intros i Hi. unfold ftruncate. rewrite Z.add_0_l.
  assert (i ∈ seqZ 0 (page_up length)) as Hin by (apply elem_of_seqZ; lia).
  revert Hin. generalize (seqZ 0 (page_up length)) as js. intros js.
  induction js as [|j js IH]; intros Hin; cbn; [by apply elem_of_nil in Hin|].
  set (st' := foldr _ _ js) in *. destruct (st' !! (obj, j)) eqn:E.
  - apply elem_of_cons in Hin as [->|Hin]; eauto.
  - destruct (decide (i = j)) as [->|Hne]; [rewrite lookup_insert_eq; eauto|].
    rewrite lookup_insert_ne by (intros [=]; congruence). apply IH.
    apply elem_of_cons in Hin as [->|Hin]; done.
Qed.

Lemma ftruncate_other obj length st l b : st !! l = Some b → ftruncate obj length st !! l = Some b.
Proof.
  intros Hb. unfold ftruncate. induction (seqZ 0 (page_up length)) as [|j js IH]; cbn; [done|].
  set (st' := foldr _ _ js) in *. destruct (st' !! (obj, j)) eqn:E; [done|].
  rewrite lookup_insert_ne; [done|]. intros <-. congruence.
Qed.

Lemma ftruncate_fresh obj length st i b :
  st !! (obj, i) = None → ftruncate obj length st !! (obj, i) = Some b → b = 0.
Proof.
  intros Hn. unfold ftruncate. induction (seqZ 0 (page_up length)) as [|j js IH]; cbn; [congruence|].
  set (st' := foldr _ _ js) in *. destruct (st' !! (obj, j)) eqn:E; [done|].
  destruct (decide (i = j)) as [->|Hne]; [rewrite lookup_insert_eq; by intros [= <-]|].
  rewrite lookup_insert_ne by congruence. done.
Qed.
