(* ===== verification/MemReg.v ===== *)
(** * Memory registration

    [ibv_cmd_reg_mr], [ibv_cmd_reg_mr_ff] and [ibv_cmd_dereg_mr] of
    [libibverbs/src/cmd.c] and the [IBV_REG_MR] and [IBV_DEREG_MR] cases of
    [HandleRequest]: a memory region of the application is backed by a
    shared-memory object that the router registers with the NIC.  A page-aligned
    region is replaced by the object in place; any other region keeps its memory
    and has a copy in the object. *)

From S2P Require Import Prelude SharedMem.

(** An entry of [map_lkey_to_mrshm]. *)
Record mr_shm := mkMrShm { ms_mr : Z; ms_shm : Z }.

Record client := mkClient { c_space : aspace; c_lkeys : gmap Z mr_shm }.

Record ibv_mr := mkMr {
  mr_handle : Z; mr_lkey : Z; mr_rkey : Z; mr_obj : Z; mr_shm_ptr : option Z;
  mr_base : Z; mr_length : Z
}.

(** [IBV_REG_MR_RSP]: the shared-memory name stands for the object. *)
Record reg_rsp := mkRegRsp { rsp_handle : Z; rsp_lkey : Z; rsp_rkey : Z; rsp_shm : Z }.

(** [IBV_REG_MR_MAPPING_REQ], sent to the router after the mapping. *)
Record mapping_req := mkMappingReq { map_key : Z; map_mr : Z; map_shm : Z }.

(** [mmap_ok] is whether [mmap] succeeds, [fresh] the address it chooses when it
    is not given one. *)
Definition ibv_cmd_reg_mr (mmap_ok : bool) (fresh : Z) (rsp : reg_rsp) (addr length : Z)
    (c : client) (st : store) : res (ibv_mr * option mapping_req * client * store) :=
  let obj := rsp_shm rsp in
  let st := ftruncate obj length st in
  let* membuff := mem_load (c_space c) st addr (Z.to_nat length) in
  let is_align := Z.eqb (Z.rem addr (4 * 1024)) 0 in
  let shm_ptr := if is_align then addr else fresh in
  if mmap_ok then
    let sp := mmap_at shm_ptr length obj (c_space c) in
    let* st := mem_store sp st shm_ptr membuff in
    Ok (mkMr (rsp_handle rsp) (rsp_lkey rsp) (rsp_rkey rsp) obj (Some shm_ptr) addr length,
        Some (mkMappingReq (rsp_lkey rsp) addr shm_ptr),
        mkClient sp (<[rsp_lkey rsp := mkMrShm addr shm_ptr]> (c_lkeys c)), st)
  else
    Ok (mkMr (rsp_handle rsp) (rsp_lkey rsp) (rsp_rkey rsp) obj None addr length, None, c, st).

(** The variant that hands the shared memory to the application: the new address
    is returned through [addr]; a null [addr] is [0]. *)
Definition ibv_cmd_reg_mr_ff (mmap_ok : bool) (fresh : Z) (rsp : reg_rsp) (addr length : Z)
    (c : client) (st : store) : res (ibv_mr * option mapping_req * Z * client * store) :=
  let obj := rsp_shm rsp in
  let st := ftruncate obj length st in
  if mmap_ok then
    let sp := mmap_at fresh length obj (c_space c) in
    let* st := (if Z.eqb addr 0 then Ok st
                else let* membuff := mem_load sp st addr (Z.to_nat length) in
                     mem_store sp st fresh membuff) in
    Ok (mkMr (rsp_handle rsp) (rsp_lkey rsp) (rsp_rkey rsp) obj (Some fresh) fresh length,
        Some (mkMappingReq (rsp_lkey rsp) fresh fresh), fresh,
        mkClient sp (<[rsp_lkey rsp := mkMrShm fresh fresh]> (c_lkeys c)), st)
  else
    Ok (mkMr (rsp_handle rsp) (rsp_lkey rsp) (rsp_rkey rsp) obj None addr length, None, addr, c, st).

(** The mapping stays: only the name and the table entry go. *)
Definition ibv_cmd_dereg_mr (ret : Z) (mr : ibv_mr) (c : client) : Z * client :=
  (ret, mkClient (c_space c) (delete (mr_lkey mr) (c_lkeys c))).

(** ** The router's side *)

Record router_mem := mkRouterMem { r_space : aspace; lkey_ptr : gmap Z Z }.

(** [IBV_REG_MR] once the shared-memory piece [obj] is mapped at [base] and the
    NIC has registered it under [lkey]. *)
Definition router_reg_mr (obj base size lkey : Z) (r : router_mem) (st : store) : router_mem * store :=
  (mkRouterMem (mmap_at base size obj (r_space r)) (<[lkey := base]> (lkey_ptr r)),
   ftruncate obj size st).

(** ** What registration promises the data path *)

(** A registered region as the two processes see it. *)
Record region := mkRegion {
  g_key : Z; g_mr : Z; g_shm : Z; g_router : Z; g_len : Z; g_obj : Z
}.

(** The object of the region is at [g_shm] in the client and at [g_router] in the
    router; both tables know it; the application's own view at [g_mr] is the
    object itself, or private bytes outside every registered object [objs]. *)
Record region_ok (c : client) (r : router_mem) (st : store) (objs : Z → Prop) (g : region) : Prop := {
  rg_len : 0 ≤ g_len g;
  rg_obj : objs (g_obj g);
  rg_entry : c_lkeys c !! g_key g = Some (mkMrShm (g_mr g) (g_shm g));
  rg_ptr : lkey_ptr r !! g_key g = Some (g_router g);
  rg_client : window (c_space c) (g_shm g) (g_len g) (g_obj g) 0;
  rg_router : window (r_space r) (g_router g) (g_len g) (g_obj g) 0;
  rg_present : present st (g_obj g) 0 (g_len g);
  rg_app : g_mr g = g_shm g ∨
           (unaliased (c_space c) (g_mr g) (g_len g) ∧
            ∀ i, 0 ≤ i < g_len g → ∃ l, resolve (c_space c) (g_mr g + i) = Some l ∧
              is_Some (st !! l) ∧ ¬ objs l.1)
}.

(** No mapping of the space refers to the object. *)
Definition obj_fresh (sp : aspace) (obj : Z) : Prop :=
  ∀ a l, resolve sp a = Some l → l.1 ≠ obj.

Lemma rem_4096 addr : 0 ≤ addr → Z.eqb (Z.rem addr (4 * 1024)) 0 = bool_decide (addr mod PAGE = 0).
Proof.
  intros H. rewrite Z.rem_mod_nonneg by lia. change (4 * 1024) with PAGE.
  destruct (Z.eqb_spec (addr mod PAGE) 0); [by rewrite bool_decide_eq_true_2|by rewrite bool_decide_eq_false_2].
Qed.

Section RegMr.
Context (fresh addr length : Z) (rsp : reg_rsp) (c : client) (st : store).
Let obj := rsp_shm rsp.
Let shm_ptr := if bool_decide (addr mod PAGE = 0) then addr else fresh.
Context (Haddr : 0 ≤ addr) (Hlen : 0 ≤ length).
(** The kernel maps a fresh range, and the object is new to the client. *)
Context (Hfresh : ∀ a, fresh ≤ a < fresh + page_up length → resolve (c_space c) a = None).
Context (Hobj : obj_fresh (c_space c) obj).
Context (bs : list Z) (Happ : mem_load (c_space c) st addr (Z.to_nat length) = Ok bs).

Lemma reg_mr_load : mem_load (c_space c) (ftruncate obj length st) addr (Z.to_nat length) = Ok bs.
Proof.
  apply mem_load_Some in Happ as [Hl Hi]. apply mem_load_Some. split; [done|].
  intros i b Hb. destruct (Hi i b Hb) as (l & Hr & Hs). exists l. split; [done|].
  by apply ftruncate_other.
Qed.

Lemma reg_mr_bs : lenZ bs = length.
Proof. apply mem_load_Some in Happ as [Hl _]. unfold lenZ. lia. Qed.

(** The whole call, with what it does to every byte. *)
Lemma reg_mr_run :
  ∃ st', ibv_cmd_reg_mr true fresh rsp addr length c st =
    Ok (mkMr (rsp_handle rsp) (rsp_lkey rsp) (rsp_rkey rsp) obj (Some shm_ptr) addr length,
        Some (mkMappingReq (rsp_lkey rsp) addr shm_ptr),
        mkClient (mmap_at shm_ptr length obj (c_space c))
                 (<[rsp_lkey rsp := mkMrShm addr shm_ptr]> (c_lkeys c)), st')
    ∧ ∀ l, st' !! l = overwrite bs obj 0 (ftruncate obj length st) l.
Proof.
  unfold ibv_cmd_reg_mr. fold obj. rewrite reg_mr_load. cbn [rbind]. rewrite rem_4096 by done.
  fold shm_ptr.
  destruct (mem_store_window (mmap_at shm_ptr length obj (c_space c)) (ftruncate obj length st)
              shm_ptr obj 0 bs) as (st' & Hst & Hall).
  - rewrite reg_mr_bs. apply window_mmap_at, page_up_ge.
  - rewrite reg_mr_bs. intros i Hi. apply ftruncate_present. pose proof (page_up_ge length). lia.
  - rewrite Hst. cbn [rbind]. eauto.
Qed.

(** The application reads the same bytes afterwards. *)
Lemma reg_mr_app st' :
  (∀ l, st' !! l = overwrite bs obj 0 (ftruncate obj length st) l) →
  mem_load (mmap_at shm_ptr length obj (c_space c)) st' addr (Z.to_nat length) = Ok bs.
Proof.
  intros Hall. pose proof reg_mr_load as Hld. pose proof reg_mr_bs as Hbs.
  apply mem_load_Some in Hld as [Hl Hi]. apply mem_load_Some. split; [done|]. intros i b Hb.
  destruct (Hi i b Hb) as (l & Hr & Hs).
  pose proof (lookup_lt_Some _ _ _ Hb) as Hlt. pose proof (page_up_ge length) as Hup.
  unfold shm_ptr in *. rewrite resolve_mmap_at.
  destruct (bool_decide_reflect (addr mod PAGE = 0)) as [Hal|Hal].
  - destruct (Z.leb_spec addr (addr + Z.of_nat i)); [|lia].
    destruct (Z.ltb_spec (addr + Z.of_nat i) (addr + page_up length)); [|unfold lenZ in *; lia].
    cbn [andb]. eexists. split; [done|]. rewrite Hall. unfold overwrite. cbn [fst snd].
    rewrite bool_decide_eq_true_2 by (unfold lenZ in *; lia). rewrite <- Hb. f_equal. lia.
  - destruct (Z.leb_spec fresh (addr + Z.of_nat i));
      [destruct (Z.ltb_spec (addr + Z.of_nat i) (fresh + page_up length));
        [rewrite Hfresh in Hr by lia; done|]|]; cbn [andb].
    all: exists l; split; [done|]; rewrite Hall; unfold overwrite;
      rewrite bool_decide_eq_false_2; [done|]; intros [E _]; by apply Hobj in Hr.
Qed.
End RegMr.


(** A small process: one private page at 8192 with three known bytes. *)
Definition demo_client : client := mkClient [mkMapping 8192 16 0 0] ∅.
Definition demo_store : store := list_to_map ((λ i, ((0, i), 65 + i)) <$> seqZ 0 16).

Lemma demo_resolve a : resolve (c_space demo_client) a =
  if Z.leb 8192 a && Z.ltb a 8208 then Some (0, a - 8192) else None.
Proof. cbn. unfold covers. cbn. by destruct (_ && _). Qed.


(** What the in-place mapping destroys: when the region is page-aligned and
    its length is not a multiple of the page size, every application byte between
    the end of the region and the end of its last page reads as zero after the
    registration, whatever it held before. *)
Theorem reg_mr_clobbers_page_tail fresh addr length rsp c st bs a :
  0 ≤ addr → 0 ≤ length → addr mod PAGE = 0 →
  (∀ i, st !! (rsp_shm rsp, i) = None) →
  mem_load (c_space c) st addr (Z.to_nat length) = Ok bs →
  addr + length ≤ a < addr + page_up length →
  ∃ mr req c' st', ibv_cmd_reg_mr true fresh rsp addr length c st = Ok (mr, req, c', st') ∧
    mem_load (c_space c') st' a 1 = Ok [0].
Proof.
  intros Haddr Hlen Hal Hnew Happ Ha.
  destruct (reg_mr_run fresh addr length rsp c st Haddr Hlen bs Happ) as (st' & Hrun & Hall).
  assert (lenZ bs = length) as Hbs by (eapply reg_mr_bs; eauto).
  rewrite bool_decide_eq_true_2 in Hrun by done.
  eexists _, _, _, st'. split; [exact Hrun|]. apply mem_load_Some. split; [done|].
  intros i b Hb. apply list_lookup_singleton_Some in Hb as [-> <-]. rewrite Z.add_0_r.
  cbn [c_space]. rewrite resolve_mmap_at.
  destruct (Z.leb_spec addr a); [|lia]. destruct (Z.ltb_spec a (addr + page_up length)); [|lia].
  cbn [andb]. eexists. split; [done|]. rewrite Hall. unfold overwrite. cbn [fst snd].
  rewrite bool_decide_eq_false_2 by lia.
  destruct (ftruncate_present (rsp_shm rsp) length st (a - addr)) as [z Hz]; [lia|].
  rewrite Z.add_0_l in Hz. rewrite Hz. f_equal. by eapply ftruncate_fresh.
Qed.

Lemma reg_mr_clobbers_page_tail_witness :
  mem_load (c_space demo_client) demo_store 8203 1 = Ok [76] ∧
  ∃ mr req c' st', ibv_cmd_reg_mr true 65536 (mkRegRsp 3 17 17 5) 8192 8 demo_client demo_store =
      Ok (mr, req, c', st') ∧ mem_load (c_space c') st' 8203 1 = Ok [0].
Proof.
  split; [vm_compute; reflexivity|].
  apply (reg_mr_clobbers_page_tail 65536 8192 8 (mkRegRsp 3 17 17 5) demo_client demo_store
           [65; 66; 67; 68; 69; 70; 71; 72] 8203); try lia; try reflexivity.
  - intros i. apply not_elem_of_list_to_map_1. rewrite list_elem_of_fmap.
    intros ([k v] & Hk & Hin). apply list_elem_of_fmap in Hin as (j & Hj & _). cbn in *. congruence.
  - change (page_up 8) with 4096. lia.
Defined.
