(* ===== verification/Request.v ===== *)
(** * The request area: how work requests cross the shared memory

    A post request is a header, a command, an array of work requests, an array
    of scatter/gather elements and, for datagram queues, an array of address
    handles, laid out one after another in [csp->req].  The client fills it
    ([ibv_cmd_post_send], [ibv_cmd_post_recv], [ibv_cmd_post_srq_recv]); the router
    finds the parts again from the counts, repairs the pointers in place and hands
    the first work request to the NIC ([CtrlChannelLoop]).  Memory is modelled by
    byte offset: a cell is a struct stored at its offset; pointers into the area
    are offsets. *)

From S2P Require Import Prelude Layout FfTypes.

Record ibv_sge := mkSge { sge_addr : Z; sge_len : Z; sge_lkey : Z }.

(** [sw_w0] is the first word of the union [wr]: [rdma.remote_addr],
    [atomic.remote_addr] or the pointer [ud.ah]; [sw_w1] the 32 bits after it:
    [rdma.rkey] or [ud.remote_qpn]; [sw_rest] all other members, which the code
    only copies. *)
Record ibv_send_wr := mkSendWr {
  sw_id : Z; sw_next : option Z; sw_sg_list : option Z; sw_num_sge : Z; sw_opcode : Z;
  sw_w0 : Z; sw_w1 : Z; sw_rest : list Z
}.

Record ibv_recv_wr := mkRecvWr {
  rw_id : Z; rw_next : option Z; rw_sg_list : option Z; rw_num_sge : Z
}.

Inductive cell :=
  | CHeader (h : FfrRequestHeader)
  | CPost (handle wr_count sge_count : Z)
  | CSend (w : ibv_send_wr)
  | CRecv (w : ibv_recv_wr)
  | CSge (s : ibv_sge)
  | CAh (handle : Z)
  | CPoll (cq_handle ne : Z).

Abbreviation area := (gmap Z cell).

Definition put_cell (off size : Z) (c : cell) (a : area) : res area :=
  if Z.leb (off + size) CTRL_REQ_SIZE then Ok (<[off := c]> a) else UB "store past csp->req".

Definition sge_size : Z := sizeof S_ibv_sge.

(** What send and receive work requests have in common. *)
Class WorkRequest (W : Type) := {
  w_size : Z;
  w_num_sge : W → Z;
  w_cell : W → cell;
  w_of_cell : cell → option W;
  w_link : option Z → option Z → W → W;
  w_of_cell_cell w : w_of_cell (w_cell w) = Some w;
  w_num_sge_link n s w : w_num_sge (w_link n s w) = w_num_sge w;
  w_size_pos : 0 < w_size;
  w_next : W → option Z;
  w_sgl : W → option Z;
  w_next_link n s w : w_next (w_link n s w) = n;
  w_sgl_link n s w : w_sgl (w_link n s w) = s;
  w_link_link n s n' s' w : w_link n s (w_link n' s' w) = w_link n s w
}.

Arguments w_size W {_}.
Arguments w_size_pos W {_}.

#[export] Instance send_work : WorkRequest ibv_send_wr.
Proof.
  refine {|
    w_size := sizeof S_ibv_send_wr;
    w_num_sge := sw_num_sge;
    w_cell := CSend;
    w_of_cell c := match c with CSend w => Some w | _ => None end;
    w_link n s w := mkSendWr (sw_id w) n s (sw_num_sge w) (sw_opcode w) (sw_w0 w) (sw_w1 w) (sw_rest w);
    w_next := sw_next;
    w_sgl := sw_sg_list
  |}; reflexivity.
Defined.

#[export] Instance recv_work : WorkRequest ibv_recv_wr.
Proof.
  refine {|
    w_size := sizeof S_ibv_recv_wr;
    w_num_sge := rw_num_sge;
    w_cell := CRecv;
    w_of_cell c := match c with CRecv w => Some w | _ => None end;
    w_link n s w := mkRecvWr (rw_id w) n s (rw_num_sge w);
    w_next := rw_next;
    w_sgl := rw_sg_list
  |}; reflexivity.
Defined.

(** The array behind [i->sg_list], as [memcpy(s, i->sg_list, num_sge * sizeof *s)]
    reads it. *)
Definition sg_array (num_sge : Z) (sgl : list ibv_sge) : res (list ibv_sge) :=
  if Z.leb 0 num_sge && Z.leb num_sge (lenZ sgl) then Ok (takeZ num_sge sgl)
  else UB "read past sg_list".

Fixpoint put_sges (s : Z) (sgl : list ibv_sge) (a : area) : res area :=
  match sgl with
  | [] => Ok a
  | g :: sgl => let* a := put_cell s sge_size (CSge g) a in put_sges (s + sge_size) sgl a
  end.

Section Requests.
Context {W : Type} `{WorkRequest W}.

(** ** Client: filling the arrays

    [conv] is what the caller does with the scatter list of one request: it
    yields the elements to send and threads the caller's state (the memory for a
    send, the receive ring for a receive).  [ah_of] is the address handle to
    append, if any; [local] what the caller changes in the copied request. *)
Context {X : Type}.
Context (conv : list ibv_sge → X → res (list ibv_sge * X)).
Context (ah_of : W → res (option Z)).
Context (local : Z → W → W).

Fixpoint fill_wrs (wrs : list (W * list ibv_sge)) (tmp s ah : Z) (a : area) (x : X) : res (area * X) :=
  match wrs with
  | [] => Ok (a, x)
  | (w, sgl) :: wrs =>
      let* a := put_cell tmp (w_size W) (w_cell (local s w)) a in
      let* oh := ah_of w in
      let* (a, ah) :=
        (match oh with
         | Some h => let* a := put_cell ah 4 (CAh h) a in Ok (a, ah + 4)
         | None => Ok (a, ah)
         end) in
      let* sgl := sg_array (w_num_sge w) sgl in
      let* (sgl, x) := conv sgl x in
      let* a := put_sges s sgl a in
      fill_wrs wrs (tmp + (w_size W)) (s + sge_size * w_num_sge w) ah a x
  end.

(** [wr_count] and [sge_count], as [uint32_t]. *)
Definition count_wrs (wrs : list (W * list ibv_sge)) : Z := u32 (lenZ wrs).
Definition count_sges (wrs : list (W * list ibv_sge)) : Z :=
  foldl (λ n p, n ⊕32 w_num_sge p.1) 0 wrs.

(** The whole request: header, command, arrays.  [cmd_size] is [sizeof *cmd]. *)
Definition fill_request (func cmd_size client handle ah_count : Z)
    (wrs : list (W * list ibv_sge)) (a : area) (x : X) : res (area * X) :=
  let wr_count := count_wrs wrs in
  let sge_count := count_sges wrs in
  let body := u32 (cmd_size + wr_count * (w_size W) + sge_count * sge_size + ah_count * 4) in
  let hdr := sizeof S_FfrRequestHeader in
  let* a := put_cell 0 hdr (CHeader (mkReqHdr client func body)) a in
  let* a := put_cell hdr cmd_size (CPost handle wr_count sge_count) a in
  let n := hdr + cmd_size in
  let s := n + wr_count * (w_size W) in
  let ah := s + sge_count * sge_size in
  fill_wrs wrs n s ah a x.

(** ** Router: repairing the request in place

    [pre] and [post] are the send path's extra steps (remote addresses before
    the pointers are fixed, address handles after); [Y] is their state. *)
Context {Y : Type}.
Context (pre : area → W → Y → res (W * Y)) (post : area → W → Y → res (W * Y)).

Definition get_wr (off : Z) (a : area) : res W :=
  let* c := deref "no work request here" (a !! off) in
  deref "not a work request" (w_of_cell c).

Definition get_sge (off : Z) (a : area) : res ibv_sge :=
  match a !! off with Some (CSge g) => Ok g | _ => UB "no scatter element here" end.

(** [lkey_ptr[k]] of a [std::map]: a missing key is inserted with a null. *)
Definition lkey_at (k : Z) (m : gmap Z Z) : Z * gmap Z Z :=
  let v := default 0 (m !! k) in (v, <[k := v]> m).

Fixpoint fix_sges (n : nat) (off : Z) (m : gmap Z Z) (a : area) : res (gmap Z Z * area) :=
  match n with
  | O => Ok (m, a)
  | S n =>
      let* g := get_sge off a in
      let '(base, m) := lkey_at (sge_lkey g) m in
      let a := <[off := CSge (mkSge (base ⊕64 sge_addr g) (sge_len g) (sge_lkey g))]> a in
      fix_sges n (off + sge_size) m a
  end.

(** The loop [for (i = 0; i < wr_count; i++)] with [todo] iterations to go,
    [off] the address of [wr[i]] and [sge] the running element pointer. *)
Fixpoint fix_wrs (todo : nat) (off sge : Z) (m : gmap Z Z) (a : area) (y : Y) :
    res (gmap Z Z * area * Y) :=
  match todo with
  | O => Ok (m, a, y)
  | S todo =>
      let* w := get_wr off a in
      let* (w, y) := pre a w y in
      let next := match todo with O => None | S _ => Some (off + (w_size W)) end in
      let* (m, a, w, sge) :=
        (if Z.ltb 0 (w_num_sge w) then
           let* (m, a) := fix_sges (Z.to_nat (w_num_sge w)) sge m a in
           Ok (m, a, w_link next (Some sge) w, sge + sge_size * w_num_sge w)
         else Ok (m, a, w_link next None w, sge)) in
      let* (w, y) := post a w y in
      fix_wrs todo (off + (w_size W)) sge m (<[off := w_cell w]> a) y
  end.

(** ** The NIC's view: the list it reaches from the first work request *)

Fixpoint read_sges (n : nat) (off : Z) (a : area) : res (list ibv_sge) :=
  match n with
  | O => Ok []
  | S n => let* g := get_sge off a in let* l := read_sges n (off + sge_size) a in Ok (g :: l)
  end.

Fixpoint nic_chain (fuel : nat) (off : Z) (a : area) : res (list (W * list ibv_sge)) :=
  match fuel with
  | O => OutOfFuel
  | S fuel =>
      let* w := get_wr off a in
      let* sgl := (match w_sgl w with
                   | Some s => read_sges (Z.to_nat (w_num_sge w)) s a
                   | None => Ok []
                   end) in
      match w_next w with
      | None => Ok [(w, sgl)]
      | Some next => let* l := nic_chain fuel next a in Ok ((w, sgl) :: l)
      end
  end.
End Requests.

(** ** Layout lemmas *)

Lemma sge_size_16 : sge_size = 16.
Proof. reflexivity. Qed.

Lemma put_cell_Ok off size c a :
  off + size ≤ CTRL_REQ_SIZE → put_cell off size c a = Ok (<[off := c]> a).
Proof. intros Hle. unfold put_cell. by destruct (Z.leb_spec (off + size) CTRL_REQ_SIZE); [|lia]. Qed.

(** An array of elements of [size] bytes starting at [base]. *)
Definition holds {A} (a : area) (base size : Z) (mk : A → cell) (l : list A) : Prop :=
  ∀ i x, l !! i = Some x → a !! (base + size * Z.of_nat i) = Some (mk x).

Lemma holds_nil {A} a base size (mk : A → cell) : holds a base size mk [].
Proof. intros i x. by rewrite lookup_nil. Qed.

Lemma holds_cons {A} a base size (mk : A → cell) x l :
  holds a base size mk (x :: l) ↔ a !! base = Some (mk x) ∧ holds a (base + size) size mk l.
Proof.
  split.
  - intros Hh. split.
    + specialize (Hh 0%nat x eq_refl). by rewrite Z.mul_0_r, Z.add_0_r in Hh.
    + intros i y Hy. specialize (Hh (S i) y Hy). rewrite <- Hh. f_equal. lia.
  - intros [H0 Hl] [|i] y Hy.
    + injection Hy as <-. by rewrite Z.mul_0_r, Z.add_0_r.
    + rewrite <- (Hl i y Hy). f_equal. lia.
Qed.

Lemma holds_app {A} a base size (mk : A → cell) l k :
  holds a base size mk (l ++ k) ↔
  holds a base size mk l ∧ holds a (base + size * lenZ l) size mk k.
Proof.
  revert base. induction l as [|x l IH]; intros base; cbn [app].
  - change (lenZ (@nil A)) with 0. rewrite Z.mul_0_r, Z.add_0_r. split; [|tauto].
    intros Hh. split; [apply holds_nil|done].
  - rewrite !holds_cons, IH, lenZ_cons.
    assert (base + size + size * lenZ l = base + size * (1 + lenZ l)) as -> by lia. tauto.
Qed.

(** Cells outside the array do not matter. *)
Lemma holds_frame {A} (a a' : area) base size (mk : A → cell) l :
  0 < size → (∀ off, base ≤ off < base + size * lenZ l → a' !! off = a !! off) →
  holds a base size mk l → holds a' base size mk l.
Proof.
  intros Hs Hf Hh i x Hx. rewrite Hf; [by apply Hh|].
  apply lookup_lt_Some in Hx. unfold lenZ. nia.
Qed.

Lemma put_sges_spec sgl s a :
  s + sge_size * lenZ sgl ≤ CTRL_REQ_SIZE →
  ∃ a', put_sges s sgl a = Ok a' ∧ holds a' s sge_size CSge sgl ∧
    ∀ off, off < s ∨ s + sge_size * lenZ sgl ≤ off → a' !! off = a !! off.
Proof.
  rewrite sge_size_16. revert s a. induction sgl as [|g sgl IH]; intros s a Hle; cbn [put_sges].
  - exists a. split; [done|]. split; [apply holds_nil|done].
  - rewrite lenZ_cons in *. pose proof (lenZ_nonneg sgl).
    rewrite put_cell_Ok by (rewrite sge_size_16; lia). cbn [rbind]. rewrite sge_size_16.
    destruct (IH (s + 16) (<[s := CSge g]> a)) as (a' & -> & Hh & Hf); [lia|].
    exists a'. split; [done|]. split.
    + apply holds_cons. split; [|done]. rewrite Hf by lia. apply lookup_insert_eq.
    + intros off Hoff. rewrite Hf by lia. apply lookup_insert_ne. lia.
Qed.

Section FillLemmas.
Context {W : Type} `{WorkRequest W} {X : Type}.
Context (conv : list ibv_sge → X → res (list ibv_sge * X)).
Context (ah_of : W → res (option Z)) (local : Z → W → W).

(** The caller's conversions of all scatter lists, in order. *)
Fixpoint conv_all (wrs : list (W * list ibv_sge)) (x : X) : res (list (list ibv_sge) * X) :=
  match wrs with
  | [] => Ok ([], x)
  | (w, sgl) :: wrs =>
      let* sgl := sg_array (w_num_sge w) sgl in
      let* (sgl, x) := conv sgl x in
      let* (sgls, x) := conv_all wrs x in
      Ok (sgl :: sgls, x)
  end.

Definition total (sgls : list (list ibv_sge)) : Z := lenZ (concat sgls).

(** The address handles appended: one per request, or none at all. *)
Definition handles (ud : bool) (wrs : list (W * list ibv_sge)) (hs : list Z) : Prop :=
  if ud then Forall2 (λ p h, ah_of p.1 = Ok (Some h)) wrs hs
  else hs = [] ∧ Forall (λ p, ah_of p.1 = Ok None) wrs.

Lemma handles_cons ud p wrs hs :
  handles ud (p :: wrs) hs → ∃ oh hs', ah_of p.1 = Ok oh ∧ handles ud wrs hs' ∧
    hs = match oh with Some h => h :: hs' | None => hs' end.
Proof.
  unfold handles. destruct ud.
  - intros Hf. inversion Hf; subst. eauto.
  - intros [-> Hf]. inversion Hf; subst. exists None, []. eauto.
Qed.

Definition written (wrs : list (W * list ibv_sge)) (a : area) (tmp : Z) : Prop :=
  ∀ i w sgl, wrs !! i = Some (w, sgl) →
    ∃ k, a !! (tmp + (w_size W) * Z.of_nat i) = Some (w_cell (local k w)).

Lemma fill_wrs_spec ud wrs tmp s ah a x sgls x' hs :
  conv_all wrs x = Ok (sgls, x') →
  Forall2 (λ p l, w_num_sge p.1 = lenZ l) wrs sgls →
  handles ud wrs hs →
  tmp + (w_size W) * lenZ wrs ≤ s → s + sge_size * total sgls ≤ ah →
  ah + 4 * lenZ hs ≤ CTRL_REQ_SIZE →
  ∃ a', fill_wrs conv ah_of local wrs tmp s ah a x = Ok (a', x') ∧
    written wrs a' tmp ∧ holds a' s sge_size CSge (concat sgls) ∧ holds a' ah 4 CAh hs ∧
    ∀ off, off < tmp ∨ tmp + (w_size W) * lenZ wrs ≤ off < s ∨
           s + sge_size * total sgls ≤ off < ah ∨ ah + 4 * lenZ hs ≤ off → a' !! off = a !! off.
Proof.
  pose proof (w_size_pos W) as Hpos. unfold total. rewrite sge_size_16.
  revert tmp s ah a x sgls hs. induction wrs as [|[w sgl] wrs IH];
    intros tmp s ah a x sgls hs Hc Hn Hh Htmp Hs Hah.
  - cbn in Hc. injection Hc as <- <-. exists a. split; [done|].
    split; [intros i w sgl; by rewrite lookup_nil|]. split; [apply holds_nil|]. split; [|done].
    assert (hs = []) as ->; [|apply holds_nil]. unfold handles in Hh. destruct ud; [by inversion Hh|tauto].
  - cbn [conv_all] in Hc. apply res_bind_Ok in Hc as (l0 & Hl0 & Hc).
    apply res_bind_Ok in Hc as ([l1 x1] & Hl1 & Hc).
    apply res_bind_Ok in Hc as ([sgls1 x2] & Hrest & [= <- <-]).
    inversion Hn as [|? ? ? ? Hlen Hn']; subst. cbn [fst] in Hlen.
    apply handles_cons in Hh as (oh & hs' & Hoh & Hh & ->). cbn [fst] in Hoh.
    cbn [concat] in *. rewrite lenZ_app, lenZ_cons in *.
    pose proof (lenZ_nonneg wrs). pose proof (lenZ_nonneg l1). pose proof (lenZ_nonneg (concat sgls1)).
    pose proof (lenZ_nonneg hs') as Hhs'.
    set (ahn := match oh with Some _ => 4 | None => 0 end).
    assert (0 ≤ ahn ≤ 4) as Hahn by (subst ahn; destruct oh; lia).
    assert (lenZ (match oh with Some h => h :: hs' | None => hs' end) * 4 = ahn + 4 * lenZ hs') as Hahl.
    { subst ahn. destruct oh; rewrite ?lenZ_cons; lia. }
    cbn [fill_wrs]. rewrite put_cell_Ok by lia. cbn [rbind]. rewrite Hoh. cbn [rbind].
    set (a1 := <[tmp := _]> a).
    assert (∃ a2, (match oh with
         | Some h => let* a := put_cell ah 4 (CAh h) a1 in Ok (a, ah + 4)
         | None => Ok (a1, ah) end) = Ok (a2, ah + ahn) ∧
         (match oh with Some h => a2 !! ah = Some (CAh h) | None => True end) ∧
         ∀ off, off < ah ∨ ah + ahn ≤ off → a2 !! off = a1 !! off) as (a2 & Ha2 & Hhead & Hf2).
    { subst ahn. destruct oh as [h|].
      - rewrite put_cell_Ok by lia. cbn [rbind]. eexists. split; [done|].
        split; [apply lookup_insert_eq|]. intros off Hoff. apply lookup_insert_ne. lia.
      - exists a1. rewrite Z.add_0_r. auto. }
    rewrite Ha2. cbn [rbind]. rewrite Hl0. cbn [rbind]. rewrite Hl1. cbn [rbind].
    destruct (put_sges_spec l1 s a2) as (a3 & -> & Hsg & Hf3); [rewrite sge_size_16; lia|].
    rewrite sge_size_16 in *. cbn [rbind]. rewrite Hlen.
    destruct (IH (tmp + (w_size W)) (s + 16 * lenZ l1) (ah + ahn) a3 x1 sgls1 hs')
      as (a' & -> & Hw & Hcs & Hcah & Hf); auto; try lia.
    exists a'. split; [done|]. split; [|split; [|split]].
    + intros [|i] w' sgl' Hi.
      * injection Hi as <- <-. exists s. rewrite Z.mul_0_r, Z.add_0_r.
        rewrite Hf by lia. rewrite Hf3 by lia. rewrite Hf2 by lia. apply lookup_insert_eq.
      * destruct (Hw i w' sgl' Hi) as [k Hk]. exists k. rewrite <- Hk. f_equal. lia.
    + apply holds_app. split; [|done]. eapply holds_frame; [lia| |done].
      intros off Hoff. apply Hf. lia.
    + destruct oh as [h|]; cbn in ahn; [|by rewrite Z.add_0_r in Hcah].
      apply holds_cons. split; [|done]. rewrite Hf by lia. rewrite Hf3 by lia. done.
    + intros off Hoff. rewrite Hf by lia. rewrite Hf3 by lia. rewrite Hf2 by lia.
      apply lookup_insert_ne. lia.
Qed.
End FillLemmas.

(** ** The router's repairs *)

Definition ptr (m : gmap Z Z) (k : Z) : Z := default 0 (m !! k).

Lemma ptr_lkey_at m k k' : ptr (lkey_at k m).2 k' = ptr m k'.
Proof.
  unfold lkey_at, ptr. cbn [snd]. destruct (decide (k = k')) as [->|Hne].
  - by rewrite lookup_insert_eq.
  - by rewrite lookup_insert_ne.
Qed.

(** An element after translation to the router's address space. *)
Definition router_sge (m : gmap Z Z) (g : ibv_sge) : ibv_sge :=
  mkSge (ptr m (sge_lkey g) ⊕64 sge_addr g) (sge_len g) (sge_lkey g).

Lemma router_sge_ext m m' g : (∀ k, ptr m' k = ptr m k) → router_sge m' g = router_sge m g.
Proof. intros Hm. unfold router_sge. by rewrite Hm. Qed.

Definition router_sges (m : gmap Z Z) (l : list ibv_sge) : list ibv_sge := router_sge m <$> l.

Lemma router_sges_ext m m' l :
  (∀ k, ptr m' k = ptr m k) → router_sges m' l = router_sges m l.
Proof. intros Hm. apply list_fmap_ext. intros. by apply router_sge_ext. Qed.

Lemma lenZ_router_sges m l : lenZ (router_sges m l) = lenZ l.
Proof. unfold lenZ, router_sges. by rewrite length_fmap. Qed.

Lemma fix_sges_spec l off m a :
  holds a off sge_size CSge l →
  ∃ m' a', fix_sges (length l) off m a = Ok (m', a') ∧ (∀ k, ptr m' k = ptr m k) ∧
    holds a' off sge_size CSge (router_sges m l) ∧
    ∀ o, o < off ∨ off + sge_size * lenZ l ≤ o → a' !! o = a !! o.
Proof.
  rewrite sge_size_16. revert off m a. induction l as [|g l IH]; intros off m a Hh; cbn [length fix_sges].
  - exists m, a. split; [done|]. split; [done|]. split; [apply holds_nil|done].
  - apply holds_cons in Hh as [H0 Hl]. unfold get_sge at 1. rewrite H0. cbn [rbind].
    destruct (lkey_at (sge_lkey g) m) as [base m1] eqn:E.
    assert (base = ptr m (sge_lkey g)) as -> by (unfold lkey_at in E; injection E as <- _; done).
    assert (∀ k, ptr m1 k = ptr m k) as Hm1.
    { intros k. rewrite <- (ptr_lkey_at m (sge_lkey g) k). by rewrite E. }
    rewrite sge_size_16. set (a1 := <[off := _]> a).
    destruct (IH (off + 16) m1 a1) as (m' & a' & -> & Hm' & Hh' & Hf).
    { eapply holds_frame; [lia| |done]. intros o Ho. apply lookup_insert_ne. lia. }
    exists m', a'. split; [done|]. split; [intros k; by rewrite Hm', Hm1|].
    rewrite lenZ_cons. pose proof (lenZ_nonneg l). split.
    + apply (holds_cons a' off 16 CSge (router_sge m g)). split.
      * rewrite Hf by lia. apply lookup_insert_eq.
      * by rewrite <- (router_sges_ext m m1) by done.
    + intros o Ho. rewrite Hf by lia. apply lookup_insert_ne. lia.
Qed.

Section FixLemmas.
Context {W : Type} `{WorkRequest W} {Y : Type}.
Context (pre post : area → W → Y → res (W * Y)).
(** The send path's steps do not look at the arrays being repaired (only at
    what lies from [lim] on), keep the number of elements, and commute with
    setting the pointers. *)
Context (a0 : area) (lim : Z).
Context (pre_s post_s : W → Y → res (W * Y)).
Context (Yok : Y → Prop).
Context (Hpre : ∀ a w y, Yok y → (∀ o, lim ≤ o → a !! o = a0 !! o) → pre a w y = pre_s w y).
Context (Hpost : ∀ a w y, Yok y → (∀ o, lim ≤ o → a !! o = a0 !! o) → post a w y = post_s w y).
Context (Hpre_ok : ∀ w y w' y', pre_s w y = Ok (w', y') → Yok y → Yok y').
Context (Hpost_ok : ∀ w y w' y', post_s w y = Ok (w', y') → Yok y → Yok y').
Context (Hpre_num : ∀ w y w' y', pre_s w y = Ok (w', y') → w_num_sge w' = w_num_sge w).
Context (Hpost_num : ∀ w y w' y', post_s w y = Ok (w', y') → w_num_sge w' = w_num_sge w).
Context (Hpost_link : ∀ n s w y w' y', post_s w y = Ok (w', y') →
  post_s (w_link n s w) y = Ok (w_link n s w', y')).

(** What happens to the work requests themselves. *)
Fixpoint xform_all (ws : list W) (y : Y) : res (list W * Y) :=
  match ws with
  | [] => Ok ([], y)
  | w :: ws =>
      let* (w, y) := pre_s w y in
      let* (w, y) := post_s w y in
      let* (ws, y) := xform_all ws y in
      Ok (w :: ws, y)
  end.

(** The list the NIC reaches from [off], as a relation on the repaired area. *)
Fixpoint chain (a : area) (off sge : Z) (l : list (W * list ibv_sge)) : Prop :=
  match l with
  | [] => True
  | (w, sgl) :: l' =>
      let next := match l' with [] => None | _ => Some (off + (w_size W)) end in
      let sg := if Z.ltb 0 (w_num_sge w) then Some sge else None in
      a !! off = Some (w_cell (w_link next sg w)) ∧ w_num_sge w = lenZ sgl ∧
      holds a sge sge_size CSge sgl ∧ chain a (off + (w_size W)) (sge + sge_size * lenZ sgl) l'
  end.

Lemma chain_frame a a' off sge l :
  chain a off sge l →
  (∀ o, off ≤ o < off + (w_size W) * lenZ l ∨ sge ≤ o < sge + sge_size * lenZ (concat (snd <$> l)) →
    a' !! o = a !! o) →
  chain a' off sge l.
Proof.
  pose proof (w_size_pos W) as Hpos. rewrite sge_size_16.
  revert off sge. induction l as [|[w sgl] l IH]; intros off sge Hc Hf; [done|].
  cbn [chain] in Hc |- *. destruct Hc as (Hw & Hn & Hs & Hc).
  cbn [fmap list_fmap concat snd] in Hf. rewrite lenZ_app, lenZ_cons in Hf.
  pose proof (lenZ_nonneg l). pose proof (lenZ_nonneg sgl).
  pose proof (lenZ_nonneg (concat (snd <$> l))).
  rewrite Hf by lia. split; [done|]. split; [done|]. split.
  - eapply holds_frame; [|intros o Ho; apply Hf|done]; rewrite sge_size_16 in *; lia.
  - apply IH; [done|]. intros o Ho. apply Hf. rewrite sge_size_16 in *. lia.
Qed.

Lemma xform_all_length ws y ws' y' : xform_all ws y = Ok (ws', y') → length ws' = length ws.
Proof.
  revert y ws'. induction ws as [|w ws IH]; intros y ws' Hx; cbn [xform_all] in Hx.
  - by injection Hx as <- _.
  - apply res_bind_Ok in Hx as ([? ?] & _ & Hx). apply res_bind_Ok in Hx as ([? ?] & _ & Hx).
    apply res_bind_Ok in Hx as ([ws3 ?] & Hx & [= <- <-]). cbn. f_equal. by eapply IH.
Qed.

(** The scatter-list part of one iteration. *)
Lemma fix_sg_list w next sgl sge m a :
  w_num_sge w = lenZ sgl → holds a sge sge_size CSge sgl →
  ∃ m2 a2,
    (if Z.ltb 0 (w_num_sge w) then
       let* (m, a) := fix_sges (Z.to_nat (w_num_sge w)) sge m a in
       Ok (m, a, w_link next (Some sge) w, sge + sge_size * w_num_sge w)
     else Ok (m, a, w_link next None w, sge)) =
    Ok (m2, a2, w_link next (if Z.ltb 0 (w_num_sge w) then Some sge else None) w,
        sge + sge_size * lenZ sgl) ∧
    (∀ k, ptr m2 k = ptr m k) ∧ holds a2 sge sge_size CSge (router_sges m sgl) ∧
    ∀ o, o < sge ∨ sge + sge_size * lenZ sgl ≤ o → a2 !! o = a !! o.
Proof.
  intros Hnum Hs. destruct (fix_sges_spec sgl sge m a Hs) as (m1 & a1 & Hfix & Hm1 & Hs1 & Hf1).
  destruct (Z.ltb_spec 0 (w_num_sge w)).
  - assert (Z.to_nat (w_num_sge w) = length sgl) as -> by (rewrite Hnum; unfold lenZ; lia).
    rewrite Hfix. cbn [rbind]. rewrite Hnum. exists m1, a1. auto.
  - assert (lenZ sgl = 0) as E by (pose proof (lenZ_nonneg sgl); lia).
    assert (sgl = []) as ->.
    { destruct sgl as [|g sgl]; [done|]. rewrite lenZ_cons in E. pose proof (lenZ_nonneg sgl). lia. }
    exists m, a. rewrite E, Z.mul_0_r, Z.add_0_r. split; [done|]. split; [done|].
    split; [apply holds_nil|done].
Qed.

Lemma fix_wrs_spec ws sgls ws' off sge m a y y' :
  Forall2 (λ w l, w_num_sge w = lenZ l) ws sgls →
  holds a off (w_size W) w_cell ws → holds a sge sge_size CSge (concat sgls) →
  xform_all ws y = Ok (ws', y') →
  off + (w_size W) * lenZ ws ≤ sge → sge + sge_size * lenZ (concat sgls) ≤ lim →
  (∀ o, lim ≤ o → a !! o = a0 !! o) → Yok y →
  ∃ m' a', fix_wrs pre post (length ws) off sge m a y = Ok (m', a', y') ∧
    chain a' off sge (zip ws' (map (router_sges m) sgls)) ∧
    (∀ k, ptr m' k = ptr m k) ∧
    ∀ o, o < off ∨ off + (w_size W) * lenZ ws ≤ o < sge ∨ sge + sge_size * lenZ (concat sgls) ≤ o →
      a' !! o = a !! o.
Proof.
  pose proof (w_size_pos W) as Hpos. assert (0 < sge_size) as Hsz by done.
  revert sgls ws' off sge m a y.
  induction ws as [|w ws IH]; intros sgls ws' off sge m a y Hn Hw Hs Hx Hoff Hsge Hlim Hy.
  - cbn in Hx. injection Hx as <- <-. exists m, a. cbn. auto.
  - inversion Hn as [|? sgl ? sgls0 Hn0 Hn1]; subst.
    apply holds_cons in Hw as [Hw0 Hw]. cbn [concat] in *. apply holds_app in Hs as [Hs0 Hs].
    cbn [xform_all] in Hx. apply res_bind_Ok in Hx as ([w1 y1] & Hp & Hx).
    apply res_bind_Ok in Hx as ([w2 y2] & Hq & Hx).
    apply res_bind_Ok in Hx as ([ws2 y3] & Hx & [= <- <-]).
    rewrite lenZ_app, lenZ_cons in *.
    pose proof (lenZ_nonneg ws). pose proof (lenZ_nonneg sgl). pose proof (lenZ_nonneg (concat sgls0)).
    cbn [length fix_wrs]. unfold get_wr at 1. rewrite Hw0. cbn [deref rbind].
    rewrite w_of_cell_cell. cbn [deref rbind]. rewrite Hpre, Hp by done. cbn [rbind].
    assert (w_num_sge w1 = lenZ sgl) as Hnum by (by rewrite (Hpre_num _ _ _ _ Hp)).
    set (next := match length ws with O => None | S _ => Some (off + (w_size W)) end).
    destruct (fix_sg_list w1 next sgl sge m a Hnum Hs0) as (m2 & a2 & -> & Hm2 & Hs2 & Hf2).
    set (sg := if Z.ltb 0 (w_num_sge w1) then Some sge else None). cbn [rbind].
    rewrite Hpost by (eauto; intros o Ho; rewrite Hf2 by nia; by apply Hlim).
    rewrite (Hpost_link _ _ _ _ _ _ Hq). cbn [rbind].
    destruct (IH sgls0 ws2 (off + (w_size W)) (sge + sge_size * lenZ sgl) m2
                (<[off := w_cell (w_link next sg w2)]> a2) y2)
      as (m' & a' & -> & Hc & Hm' & Hf); eauto; try lia.
    1-2: eapply holds_frame; [done| |done]; intros o Ho; rewrite lookup_insert_ne by nia; apply Hf2; nia.
    { intros o Ho. rewrite lookup_insert_ne by nia. rewrite Hf2 by nia. by apply Hlim. }
    exists m', a'. split; [done|]. split; [|split; [intros k; by rewrite Hm', Hm2|]].
    + cbn [map zip zip_with chain]. rewrite Hf by nia. rewrite lookup_insert_eq.
      rewrite lenZ_router_sges, (Hpost_num _ _ _ _ Hq). fold sg.
      assert (match zip ws2 (map (router_sges m) sgls0) with [] => None | _ => Some (off + (w_size W)) end = next) as ->.
      { pose proof (xform_all_length _ _ _ _ Hx) as El. pose proof (Forall2_length Hn1).
        subst next. by destruct ws2, ws, sgls0. }
      split; [done|]. split; [done|]. split.
      * eapply holds_frame; [done| |done]. intros o Ho. rewrite lenZ_router_sges in Ho.
        rewrite Hf by nia. by rewrite lookup_insert_ne by nia.
      * rewrite (map_ext (router_sges m2) (router_sges m)) in Hc; [done|].
        intros l. by apply router_sges_ext.
    + intros o Ho. rewrite Hf by nia. rewrite lookup_insert_ne by nia. apply Hf2. nia.
Qed.

(** The NIC, following [next] and [sg_list], reads the chain. *)
Lemma read_sges_spec l off a : holds a off sge_size CSge l → read_sges (length l) off a = Ok l.
Proof.
  revert off. induction l as [|g l IH]; intros off Hh; [done|]. apply holds_cons in Hh as [H0 Hl].
  cbn [length read_sges]. unfold get_sge. rewrite H0. cbn [rbind]. by rewrite IH.
Qed.

Lemma nic_chain_spec l off sge a fuel :
  chain a off sge l → l ≠ [] → (length l ≤ fuel)%nat →
  ∃ l', nic_chain fuel off a = Ok l' ∧
    Forall2 (λ p q, (∃ n s, p.1 = w_link n s q.1) ∧ p.2 = q.2) l' l.
Proof.
  revert off sge fuel. induction l as [|[w sgl] l IH]; intros off sge fuel Hc Hne Hf; [done|].
  destruct fuel as [|fuel]; [cbn in Hf; lia|]. cbn [chain] in Hc. destruct Hc as (Hw & Hn & Hs & Hc).
  cbn [nic_chain]. unfold get_wr. rewrite Hw. cbn [deref rbind]. rewrite w_of_cell_cell. cbn [deref rbind].
  rewrite w_sgl_link, w_num_sge_link, w_next_link.
  assert (match (if Z.ltb 0 (w_num_sge w) then Some sge else None) with
          | Some s => read_sges (Z.to_nat (w_num_sge w)) s a
          | None => Ok [] end = Ok sgl) as ->.
  { destruct (Z.ltb_spec 0 (w_num_sge w)).
    - rewrite Hn. unfold lenZ. rewrite Nat2Z.id. by apply read_sges_spec.
    - rewrite Hn in *. destruct sgl; [done|]. rewrite lenZ_cons in *. pose proof (lenZ_nonneg sgl). lia. }
  cbn [rbind]. destruct l as [|p l].
  - eexists. split; [done|]. constructor; [|constructor]. cbn. eauto.
  - destruct (IH (off + (w_size W)) (sge + sge_size * lenZ sgl) fuel) as (l' & -> & Hl'); auto.
    { cbn in *. lia. }
    cbn [rbind]. eexists. split; [done|]. constructor; [|done]. cbn. eauto.
Qed.
End FixLemmas.

(** ** A whole request *)

Section RequestLemmas.
Context {W : Type} `{WorkRequest W} {X : Type}.
Context (conv : list ibv_sge → X → res (list ibv_sge * X)).
Context (ah_of : W → res (option Z)) (local : Z → W → W).

Lemma count_sges_acc (wrs : list (W * list ibv_sge)) sgls n :
  Forall2 (λ p l, w_num_sge p.1 = lenZ l) wrs sgls →
  0 ≤ n → n + total sgls < 2 ^ 32 →
  foldl (λ n p, n ⊕32 w_num_sge p.1) n wrs = n + total sgls.
Proof.
  intros Hf. revert n. unfold total. induction Hf as [|p l wrs sgls Hp Hf IH]; intros n Hn Hlt.
  - cbn. change (lenZ (@nil ibv_sge)) with 0. lia.
  - cbn [foldl concat] in *. rewrite lenZ_app in *. rewrite Hp.
    pose proof (lenZ_nonneg l). pose proof (lenZ_nonneg (concat sgls)).
    rewrite u32_id by lia. rewrite IH by lia. lia.
Qed.

(** Size in bytes of a request, header included. *)
Definition request_size (cmd_size : Z) (wrs : list (W * list ibv_sge)) (nsge nah : Z) : Z :=
  sizeof S_FfrRequestHeader + (cmd_size + lenZ wrs * (w_size W) + nsge * sge_size + nah * 4).

Lemma written_holds (wrs : list (W * list ibv_sge)) a tmp :
  written local wrs a tmp →
  ∃ ws, holds a tmp (w_size W) w_cell ws ∧ Forall2 (λ w p, ∃ k, w = local k p.1) ws wrs.
Proof.
  revert tmp. induction wrs as [|[w sgl] wrs IH]; intros tmp Hw.
  - exists []. split; [apply holds_nil|constructor].
  - destruct (Hw 0%nat w sgl eq_refl) as [k Hk]. rewrite Z.mul_0_r, Z.add_0_r in Hk.
    destruct (IH (tmp + (w_size W))) as (ws & Hh & Hf).
    { intros i w' sgl' Hi. destruct (Hw (S i) w' sgl' Hi) as [k' Hk']. exists k'.
      rewrite <- Hk'. f_equal. lia. }
    exists (local k w :: ws). split; [by apply holds_cons|]. constructor; [eauto|done].
Qed.

Lemma fill_request_spec ud func cmd_size client handle ah_count wrs a x sgls x' hs :
  conv_all conv wrs x = Ok (sgls, x') →
  Forall2 (λ p l, w_num_sge p.1 = lenZ l) wrs sgls →
  handles ah_of ud wrs hs → ah_count = lenZ hs → 0 < cmd_size →
  request_size cmd_size wrs (total sgls) (lenZ hs) ≤ CTRL_REQ_SIZE →
  let n := sizeof S_FfrRequestHeader + cmd_size in
  let s := n + lenZ wrs * (w_size W) in
  let ah := s + total sgls * sge_size in
  ∃ a' ws, fill_request conv ah_of local func cmd_size client handle ah_count wrs a x = Ok (a', x') ∧
    a' !! 0 = Some (CHeader (mkReqHdr client func
                (request_size cmd_size wrs (total sgls) (lenZ hs) - sizeof S_FfrRequestHeader))) ∧
    a' !! sizeof S_FfrRequestHeader = Some (CPost handle (lenZ wrs) (total sgls)) ∧
    holds a' n (w_size W) w_cell ws ∧ Forall2 (λ w p, ∃ k, w = local k p.1) ws wrs ∧
    holds a' s sge_size CSge (concat sgls) ∧ holds a' ah 4 CAh hs.
Proof.
  intros Hc Hn Hh Hahc Hcmd Hsz n s ah. unfold request_size in *.
  pose proof (w_size_pos W) as Hpos. pose proof (lenZ_nonneg wrs) as Hlw.
  pose proof (lenZ_nonneg hs) as Hlh. assert (0 ≤ total sgls) as Hlt by apply lenZ_nonneg.
  change (sizeof S_FfrRequestHeader) with 12 in *. change sge_size with 16 in *.
  change CTRL_REQ_SIZE with 1048576 in *.
  assert (count_wrs wrs = lenZ wrs) as Hcw by (unfold count_wrs; apply u32_id; nia).
  assert (count_sges wrs = total sgls) as Hcs.
  { unfold count_sges. rewrite (count_sges_acc wrs sgls 0); [lia|done|lia|].
    change (2 ^ 32) with 4294967296. nia. }
  unfold fill_request. rewrite Hcw, Hcs, Hahc. change (sizeof S_FfrRequestHeader) with 12.
  change sge_size with 16. rewrite put_cell_Ok by (change CTRL_REQ_SIZE with 1048576; nia).
  cbn [rbind]. rewrite put_cell_Ok by (change CTRL_REQ_SIZE with 1048576; nia). cbn [rbind].
  fold n. fold s. fold ah. set (a1 := <[12 := _]> (<[0 := _]> a)).
  destruct (fill_wrs_spec conv ah_of local ud wrs n s ah a1 x sgls x' hs)
    as (a' & Hrun & Hw & Hs & Ha & Hf); auto.
  { subst s. lia. }
  { change sge_size with 16. subst ah. lia. }
  { change CTRL_REQ_SIZE with 1048576. subst ah s n. lia. }
  apply written_holds in Hw as (ws & Hws & Hloc). exists a', ws. split; [done|].
  subst a1. rewrite !Hf by (subst n; lia). rewrite lookup_insert_ne, !lookup_insert_eq by lia.
  split; [|auto]. do 3 f_equal. rewrite u32_id by nia. lia.
Qed.
End RequestLemmas.
