(* ===== verification/DataPath.v ===== *)
(** * The data path: posting work requests through the router

    [ibv_cmd_post_send], [ibv_cmd_post_recv] and [ibv_cmd_post_srq_recv] of
    [libibverbs/src/cmd.c] as whole functions, and the three cases of
    [CtrlChannelLoop] (and of [HandleRequest] for the slow path) that serve them.
    The verbs the router calls are a parameter, [nic].  The wait for tokens in the slow
    path is in [RateLimit]. *)

From S2P Require Import Prelude Layout FfTypes SharedMem MemReg WrQueue Request.

(** ** Client *)

(** One scatter element of a send: copied to the shared memory unless it already
    is there, and made relative to the region. *)
Definition send_sge (c : client) (g : ibv_sge) (st : store) : res (ibv_sge * store) :=
  let* p := deref "mempool_get returned NULL" (c_lkeys c !! sge_lkey g) in
  let addr := sge_addr g in
  let off := u64 (addr - ms_mr p) in
  let* st := (if Z.eqb (ms_shm p ⊕64 off) addr then Ok st
              else memcpy (c_space c) st (ms_shm p ⊕64 off) addr (sge_len g)) in
  Ok (mkSge off (sge_len g) (sge_lkey g), st).

Fixpoint send_conv (c : client) (sgl : list ibv_sge) (st : store) : res (list ibv_sge * store) :=
  match sgl with
  | [] => Ok ([], st)
  | g :: sgl =>
      let* (g, st) := send_sge c g st in
      let* (sgl, st) := send_conv c sgl st in
      Ok (g :: sgl, st)
  end.

(** One scatter element of a receive: made relative, with the record of where to
    copy it when it completes. *)
Definition recv_sge (c : client) (g : ibv_sge) : res (ibv_sge * sge_record) :=
  let* p := deref "mempool_get returned NULL" (c_lkeys c !! sge_lkey g) in
  let off := u64 (sge_addr g - ms_mr p) in
  Ok (mkSge off (sge_len g) (sge_lkey g),
      mkRec (sge_len g) (ms_mr p ⊕64 off) (ms_shm p ⊕64 off)).

Fixpoint recv_sges (c : client) (sgl : list ibv_sge) : res (list ibv_sge * list sge_record) :=
  match sgl with
  | [] => Ok ([], [])
  | g :: sgl =>
      let* (g, r) := recv_sge c g in
      let* (sgl, rs) := recv_sges c sgl in
      Ok (g :: sgl, r :: rs)
  end.

Definition recv_conv (c : client) (sgl : list ibv_sge) (q : wr_queue) : res (list ibv_sge * wr_queue) :=
  let* (sgl, recs) := recv_sges c sgl in Ok (sgl, enqueue recs q).

Record post_rsp := mkPostRsp { ret_errno : Z; bad_wr : Z }.

(** The search for the failed request in the application's list: [None] leaves
    [*bad_wr] as it was, [Some None] is a null pointer, [Some (Some k)] the [k]-th
    request. *)
Definition find_bad (rsp : post_rsp) (len : Z) : res (option (option Z)) :=
  if negb (Z.eqb (bad_wr rsp) 0) then
    let k := bad_wr rsp - 1 in
    if Z.ltb k len then Ok (Some (Some k))
    else if Z.eqb k len then Ok (Some None) else UB "i->next past the end of the list"
  else if negb (Z.eqb (ret_errno rsp) 0) then Ok (Some (if Z.ltb 0 len then Some 0 else None))
  else Ok None.

Record post_out := mkPostOut { po_ret : Z; po_bad : option (option Z) }.

(** [serve] is what happens between the request and the response: the router,
    reached through [request_router_shm] or [request_router]. *)
Definition ibv_cmd_post_send (c : client) (cid handle : Z) (ud : bool) (ah_handle : Z → option Z)
    (serve : area → store → res (post_rsp * area * store))
    (wrs : list (ibv_send_wr * list ibv_sge)) (a : area) (st : store) : res (post_out * area * store) :=
  do* in_bounds "qp_shm_map" handle MAP_SIZE;
  let ah_of (w : ibv_send_wr) : res (option Z) :=
    if ud then let* h := deref "i->wr.ud.ah->handle" (ah_handle (sw_w0 w)) in Ok (Some h)
    else Ok None in
  let ah_count := if ud then count_wrs wrs else 0 in
  let* (a, st) := fill_request (send_conv c) ah_of (λ _ w, w) (func_code IBV_POST_SEND)
                    (sizeof S_ibv_post_send) cid handle ah_count wrs a st in
  let* (rsp, a, st) := serve a st in
  let* bad := find_bad rsp (lenZ wrs) in
  Ok (mkPostOut (ret_errno rsp) bad, a, st).

Definition recv_local (s : Z) (w : ibv_recv_wr) : ibv_recv_wr :=
  if Z.eqb (rw_num_sge w) 0 then w else mkRecvWr (rw_id w) (rw_next w) (Some s) (rw_num_sge w).

(** The two receive posts differ in the shared-memory channel and in the ring they
    record into ([map_cq_to_wr_queue] of the receive CQ, or [map_srq_to_wr_queue]). *)
Definition post_recv (f : RDMA_FUNCTION_CALL) (cmd_size : Z) (c : client) (cid handle : Z)
    (serve : area → res (post_rsp * area))
    (wrs : list (ibv_recv_wr * list ibv_sge)) (a : area) (q : wr_queue) :
    res (post_out * area * wr_queue) :=
  do* in_bounds "shm_map" handle MAP_SIZE;
  let* (a, q) := fill_request (recv_conv c) (λ _, Ok None) recv_local (func_code f)
                   cmd_size cid handle 0 wrs a q in
  let* (rsp, a) := serve a in
  let* bad := find_bad rsp (lenZ wrs) in
  Ok (mkPostOut (ret_errno rsp) bad, a, q).

Definition ibv_cmd_post_recv := post_recv IBV_POST_RECV (sizeof S_ibv_post_recv).
Definition ibv_cmd_post_srq_recv := post_recv IBV_POST_SRQ_RECV (sizeof S_ibv_post_srq_recv).

(** ** Router *)

(** [qp] is the variable of [CtrlChannelLoop] that survives from one request to
    the next; [queue_map] is [qp_map] or [srq_map], null entries being [0]. *)
Record router := mkRouter {
  rt_lkeys : gmap Z Z;
  queue_map : gmap Z Z;
  ah_map : gmap Z Z;
  rt_cur : Z
}.

Definition IBV_WR_RDMA_WRITE : Z := 0.
Definition IBV_WR_RDMA_WRITE_WITH_IMM : Z := 1.
Definition IBV_WR_RDMA_READ : Z := 4.

Definition is_rdma (opcode : Z) : bool :=
  Z.eqb opcode IBV_WR_RDMA_WRITE || Z.eqb opcode IBV_WR_RDMA_WRITE_WITH_IMM || Z.eqb opcode IBV_WR_RDMA_READ.

(** State of the loop over the send requests: the retry counter, the number of
    looks at [rkey_mr_shm] so far, and the address-handle pointer. *)
Record send_st := mkSendSt { ss_count : Z; ss_time : nat; ss_ah : Z }.

(** The retry loop: [views t] is [rkey_mr_shm] as the [t]-th look finds it, since
    another thread fills it. *)
Fixpoint find_rkey (fuel : nat) (views : nat → gmap Z mr_shm) (rkey count : Z) (t : nat) :
    res (option mr_shm * Z * nat) :=
  match fuel with
  | O => OutOfFuel
  | S fuel =>
      match views t !! rkey with
      | Some p => Ok (Some p, count, S t)
      | None => if Z.ltb 4 count then Ok (None, count, S t)
                else find_rkey fuel views rkey (count + 1) (S t)
      end
  end.

Definition set_w0 (v : Z) (w : ibv_send_wr) : ibv_send_wr :=
  mkSendWr (sw_id w) (sw_next w) (sw_sg_list w) (sw_num_sge w) (sw_opcode w) v (sw_w1 w) (sw_rest w).

Definition remap_remote (views : nat → gmap Z mr_shm) (w : ibv_send_wr) (y : send_st) :
    res (ibv_send_wr * send_st) :=
  if is_rdma (sw_opcode w) then
    let* (o, count, t) := find_rkey 8 views (sw_w1 w) (ss_count y) (ss_time y) in
    let y := mkSendSt count t (ss_ah y) in
    match o with
    | Some p => Ok (set_w0 (u64 (ms_shm p + sw_w0 w - ms_mr p)) w, y)
    | None => Ok (w, y)
    end
  else Ok (w, y).

(** [advance] is the [ah = ah + 1] that only the slow path has. *)
Definition fix_ah (adv : bool) (ud : bool) (ahs : gmap Z Z) (a : area) (w : ibv_send_wr) (y : send_st) :
    res (ibv_send_wr * send_st) :=
  if ud then
    match a !! ss_ah y with
    | Some (CAh h) =>
        do* in_bounds "ah_map" h MAP_SIZE;
        Ok (set_w0 (default 0 (ahs !! h)) w,
            mkSendSt (ss_count y) (ss_time y) (if adv then ss_ah y + 4 else ss_ah y))
    | _ => UB "*ah"
    end
  else Ok (w, y).

Definition req_header_size : Z := sizeof S_FfrRequestHeader.

(** The queue a request names; a handle past the map leaves the previous one. *)
Definition find_queue (r : router) (handle : Z) : Z :=
  if Z.leb MAP_SIZE handle then rt_cur r else default 0 (queue_map r !! handle).

Definition get_post (a : area) : res (Z * Z * Z) :=
  match a !! req_header_size with
  | Some (CPost handle wr_count sge_count) => Ok (handle, wr_count, sge_count)
  | _ => UB "no command in the request"
  end.

(** The verb's answer: its errno and the index of the request it rejected. *)
Definition bad_index (bad : option Z) : Z := default 0 bad.

(** [case IBV_POST_SEND] of [CtrlChannelLoop] ([adv = false]). *)
Definition serve_post_send (adv : bool) (is_ud : Z → option bool) (views : nat → gmap Z mr_shm)
    (nic : Z → list (ibv_send_wr * list ibv_sge) → Z * option Z) (r : router) (a : area) :
    res (post_rsp * router * area) :=
  let* (handle, wr_count, sge_count) := get_post a in
  let qp := find_queue r handle in
  let wr := req_header_size + sizeof S_ibv_post_send in
  let sge := wr + wr_count * sizeof S_ibv_send_wr in
  let* ud := deref "qp->qp_type" (is_ud qp) in
  let ah := sge + sge_count * sge_size in
  let* (m, a, _) := fix_wrs (λ _, remap_remote views) (fix_ah adv ud (ah_map r))
                      (Z.to_nat wr_count) wr sge (rt_lkeys r) a (mkSendSt 0 0 ah) in
  let* l := nic_chain (S (Z.to_nat wr_count)) wr a in
  let '(errno, bad) := nic qp l in
  Ok (mkPostRsp errno (bad_index bad), mkRouter m (queue_map r) (ah_map r) qp, a).

(** [case IBV_POST_RECV], and the SRQ loop, which is the same code over
    [srq_map]. *)
Definition serve_post_recv (cmd_size : Z)
    (nic : Z → list (ibv_recv_wr * list ibv_sge) → Z * option Z) (r : router) (a : area) :
    res (post_rsp * router * area) :=
  let* (handle, wr_count, sge_count) := get_post a in
  let qp := find_queue r handle in
  let wr := req_header_size + cmd_size in
  let sge := wr + wr_count * sizeof S_ibv_recv_wr in
  let* (m, a, _) := fix_wrs (λ _ w y, Ok (w, y)) (λ _ w y, Ok (w, y))
                      (Z.to_nat wr_count) wr sge (rt_lkeys r) a () in
  let* l := nic_chain (S (Z.to_nat wr_count)) wr a in
  let '(errno, bad) := nic qp l in
  Ok (mkPostRsp errno (bad_index bad), mkRouter m (queue_map r) (ah_map r) qp, a).

(** ** Memory: what the router's side of a region holds after the client's copies *)

Section SendMemory.
Context (c : client) (rm : router_mem) (st0 : store) (objs : Z → Prop).
Context (regions : gmap Z region).

(** Every region is registered, its addresses are ordinary 64-bit pointers, and
    different keys have different objects. *)
Record regions_ok : Prop := {
  rgs_ok k g : regions !! k = Some g → g_key g = k ∧ region_ok c rm st0 objs g;
  rgs_range k g : regions !! k = Some g →
    0 ≤ g_mr g ∧ g_mr g + g_len g < 2 ^ 64 ∧ 0 ≤ g_shm g ∧ g_shm g + g_len g < 2 ^ 64 ∧
    0 ≤ g_router g ∧ g_router g + g_len g < 2 ^ 64;
  rgs_distinct k g k' g' : regions !! k = Some g → regions !! k' = Some g' →
    g_obj g = g_obj g' → k = k'
}.

(** A scatter element inside the region of its key. *)
Definition sge_in (s : ibv_sge) (g : region) : Prop :=
  regions !! sge_lkey s = Some g ∧ 0 ≤ sge_len s ∧
  g_mr g ≤ sge_addr s ∧ sge_addr s + sge_len s ≤ g_mr g + g_len g.

Definition sge_ok (s : ibv_sge) : Prop := ∃ g, sge_in s g.

Definition peek (st : store) (a : Z) : option Z := l ← resolve (c_space c) a; st !! l.

(** The application's bytes are the ones it had, the regions still exist, and
    the elements already converted are in the shared objects. *)
Record copied (st : store) (sent : list ibv_sge) : Prop := {
  cp_app k g i : regions !! k = Some g → 0 ≤ i < g_len g →
    peek st (g_mr g + i) = peek st0 (g_mr g + i);
  cp_present k g : regions !! k = Some g → present st (g_obj g) 0 (g_len g);
  cp_sent s g i : s ∈ sent → sge_in s g → 0 ≤ i < sge_len s →
    st !! (g_obj g, sge_addr s - g_mr g + i) = peek st0 (sge_addr s + i)
}.

Context (Hrg : regions_ok).

Lemma peek_app k g i : regions !! k = Some g → 0 ≤ i < g_len g → is_Some (peek st0 (g_mr g + i)).
Proof.
  intros Hk Hi. destruct (rgs_ok Hrg k g Hk) as [_ Hok]. unfold peek.
  destruct (rg_app _ _ _ _ _ Hok) as [E|[_ Hpriv]].
  - rewrite E, (rg_client _ _ _ _ _ Hok i Hi). cbn. by apply (rg_present _ _ _ _ _ Hok).
  - destruct (Hpriv i Hi) as (l & -> & Hl & _). done.
Qed.

(** Loading [n] bytes whose [peek] is known. *)
Lemma mem_load_peek st a n bs :
  length bs = n → (∀ i b, bs !! i = Some b → peek st (a + Z.of_nat i) = Some b) →
  mem_load (c_space c) st a n = Ok bs.
Proof.
  intros Hl Hb. apply mem_load_Some. split; [done|]. intros i b Hi. apply Hb in Hi.
  unfold peek in Hi. by apply bind_Some in Hi.
Qed.

(** The bytes of an element in the application's memory. *)
Lemma app_bytes s : sge_ok s →
  ∃ bs, lenZ bs = sge_len s ∧ mem_load (c_space c) st0 (sge_addr s) (Z.to_nat (sge_len s)) = Ok bs ∧
    ∀ i b, bs !! i = Some b → peek st0 (sge_addr s + Z.of_nat i) = Some b.
Proof.
  intros (g & Hk & Hlen & Hlo & Hhi).
  assert (∃ bs, length bs = Z.to_nat (sge_len s) ∧
    ∀ i b, bs !! i = Some b → peek st0 (sge_addr s + Z.of_nat i) = Some b) as (bs & Hl & Hb).
  { exists ((λ i, default 0 (peek st0 (sge_addr s + Z.of_nat i))) <$> seq 0 (Z.to_nat (sge_len s))).
    rewrite length_fmap, length_seq. split; [done|]. intros i b Hi.
    apply list_lookup_fmap_Some in Hi as (j & -> & Hj). apply lookup_seq in Hj as [-> Hj].
    destruct (peek_app _ g (sge_addr s - g_mr g + Z.of_nat i) Hk) as [z Hz]; [lia|].
    cbn [Nat.add].
    assert (g_mr g + (sge_addr s - g_mr g + Z.of_nat i) = sge_addr s + Z.of_nat i) as E by lia.
    rewrite E in Hz. by rewrite Hz. }
  exists bs. split; [unfold lenZ; lia|]. split; [|done]. by apply mem_load_peek.
Qed.

(** An element of a region that is its own shared memory needs no copy. *)
Lemma copied_in_place st sent s g :
  copied st sent → sge_in s g → g_mr g = g_shm g → copied st (sent ++ [s]).
Proof.
  intros [Ha Hp Hsent] (Hk & Hlen & Hlo & Hhi) Em. destruct (rgs_ok Hrg _ g Hk) as [_ Hok].
  split; [done|done|]. intros s' g' i Hin' Hsg Hi.
  apply elem_of_app in Hin' as [Hin'|Hin']; [by eapply Hsent|].
  apply list_elem_of_singleton in Hin' as ->.
  assert (g' = g) as -> by (destruct Hsg; congruence).
  assert (sge_addr s + i = g_mr g + (sge_addr s - g_mr g + i)) as -> by lia.
  rewrite <- (Ha _ g (sge_addr s - g_mr g + i) Hk) by lia.
  unfold peek. rewrite Em at 2. rewrite (rg_client _ _ _ _ _ Hok) by lia. cbn.
  by rewrite Z.add_0_l.
Qed.

(** A copy into a region's object leaves every application byte alone. *)
Lemma overwrite_app st st' s g bs :
  sge_in s g → g_mr g ≠ g_shm g →
  (∀ l, st' !! l = overwrite bs (g_obj g) (sge_addr s - g_mr g) st l) →
  ∀ k' g' i, regions !! k' = Some g' → 0 ≤ i < g_len g' →
    peek st' (g_mr g' + i) = peek st (g_mr g' + i).
Proof.
  intros (Hk & _) Hne Hall k' g' i Hk' Hi. destruct (rgs_ok Hrg _ g' Hk') as [_ Hok'].
  destruct (rgs_ok Hrg _ g Hk) as [_ Hok].
  unfold peek. destruct (resolve (c_space c) (g_mr g' + i)) as [l|] eqn:Er; [|done]. cbn.
  rewrite Hall. unfold overwrite. rewrite bool_decide_eq_false_2; [done|]. intros [El _].
  destruct (rg_app _ _ _ _ _ Hok') as [Em|[_ Hpriv]].
  - rewrite Em, (rg_client _ _ _ _ _ Hok' i Hi) in Er. injection Er as <-. cbn [fst] in El.
    assert (k' = sge_lkey s) as -> by (eapply (rgs_distinct Hrg); eauto).
    assert (g' = g) as -> by congruence. done.
  - destruct (Hpriv i Hi) as (l' & Hl' & _ & Hno). rewrite Er in Hl'. injection Hl' as ->.
    apply Hno. rewrite El. apply (rg_obj _ _ _ _ _ Hok).
Qed.

Lemma copied_overwrite st st' sent s g bs :
  copied st sent → sge_in s g → g_mr g ≠ g_shm g → lenZ bs = sge_len s →
  (∀ i b, bs !! i = Some b → peek st0 (sge_addr s + Z.of_nat i) = Some b) →
  (∀ l, st' !! l = overwrite bs (g_obj g) (sge_addr s - g_mr g) st l) →
  copied st' (sent ++ [s]).
Proof.
  intros Hcp Hin Hne Hbl Hbs Hall. pose proof Hin as (Hk & Hlen & Hlo & Hhi). split.
  - intros k' g' i Hk' Hi. rewrite (overwrite_app st st' s g bs Hin Hne Hall k' g' i Hk' Hi).
    by eapply cp_app.
  - intros k' g' Hk'. eapply present_overwrite; [done|]. by eapply cp_present.
  - intros s' g' i Hin' Hsg Hi. rewrite Hall. unfold overwrite. cbn [fst snd].
    pose proof Hsg as (Hk' & _ & Hlo' & Hhi').
    case_bool_decide as Hc.
    + destruct Hc as [Hobj Hrange].
      assert (sge_lkey s' = sge_lkey s) as Ek by (eapply (rgs_distinct Hrg); eauto).
      assert (g' = g) as -> by congruence.
      destruct (lookup_lt_is_Some_2 bs (Z.to_nat (sge_addr s' - g_mr g + i - (sge_addr s - g_mr g))))
        as [b Hb]; [unfold lenZ in *; lia|].
      rewrite Hb, <- (Hbs _ _ Hb). f_equal. lia.
    + apply elem_of_app in Hin' as [Hin'|Hin']; [by eapply cp_sent|].
      apply list_elem_of_singleton in Hin' as ->.
      assert (g' = g) as -> by congruence. exfalso. apply Hc. split; [done|lia].
Qed.

(** One element of a send. *)
Lemma send_sge_spec st sent s :
  copied st sent → sge_ok s →
  ∃ st' g, sge_in s g ∧
    send_sge c s st = Ok (mkSge (sge_addr s - g_mr g) (sge_len s) (sge_lkey s), st') ∧
    copied st' (sent ++ [s]).
Proof.
  intros Hcp Hs. pose proof Hs as (g & Hin). pose proof Hin as (Hk & Hlen & Hlo & Hhi).
  destruct (rgs_ok Hrg _ g Hk) as [Hkey Hok]. destruct (rgs_range Hrg _ g Hk) as (R1 & R2 & R3 & R4 & _).
  destruct (app_bytes s Hs) as (bs & Hbl & _ & Hbs).
  unfold send_sge. rewrite <- Hkey, (rg_entry _ _ _ _ _ Hok). cbn [deref rbind ms_mr ms_shm].
  rewrite (u64_id (sge_addr s - g_mr g)) by lia.
  rewrite (u64_id (g_shm g + (sge_addr s - g_mr g))) by lia. rewrite Hkey.
  destruct (Z.eqb_spec (g_shm g + (sge_addr s - g_mr g)) (sge_addr s)) as [E|Hne].
  - exists st, g. split; [done|]. split; [done|]. eapply copied_in_place; eauto. lia.
  - assert (mem_load (c_space c) st (sge_addr s) (Z.to_nat (sge_len s)) = Ok bs) as Hldst.
    { apply mem_load_peek; [unfold lenZ in Hbl; lia|]. intros i b Hb. rewrite <- (Hbs i b Hb).
      pose proof (lookup_lt_Some _ _ _ Hb).
      assert (sge_addr s + Z.of_nat i = g_mr g + (sge_addr s - g_mr g + Z.of_nat i)) as -> by lia.
      eapply cp_app; eauto. unfold lenZ in Hbl. lia. }
    unfold memcpy. rewrite Hldst. cbn [rbind].
    destruct (mem_store_window (c_space c) st (g_shm g + (sge_addr s - g_mr g)) (g_obj g)
                (0 + (sge_addr s - g_mr g)) bs) as (st' & -> & Hall).
    { eapply window_sub; [apply (rg_client _ _ _ _ _ Hok)|lia|lia]. }
    { eapply present_sub; [by eapply cp_present|lia|lia]. }
    rewrite Z.add_0_l in Hall.
    cbn [rbind]. exists st', g. split; [done|]. split; [done|].
    eapply copied_overwrite; eauto. lia.
Qed.

(** All elements of a scatter list, and of a list of requests. *)
Definition client_sge (s : ibv_sge) : ibv_sge :=
  mkSge (sge_addr s - default 0 (g_mr <$> regions !! sge_lkey s)) (sge_len s) (sge_lkey s).

Lemma send_conv_spec sgl st sent :
  copied st sent → Forall sge_ok sgl →
  ∃ st', send_conv c sgl st = Ok (map client_sge sgl, st') ∧ copied st' (sent ++ sgl).
Proof.
  revert st sent. induction sgl as [|s sgl IH]; intros st sent Hcp Hs; cbn [send_conv].
  - exists st. by rewrite app_nil_r.
  - inversion Hs; subst. destruct (send_sge_spec st sent s) as (st1 & g & Hin & -> & Hcp1); auto.
    cbn [rbind]. destruct (IH st1 (sent ++ [s])) as (st2 & -> & Hcp2); auto.
    exists st2. cbn [rbind map]. split.
    + unfold client_sge at 2. destruct Hin as (-> & _). done.
    + by rewrite <- app_assoc in Hcp2.
Qed.

Lemma sg_array_all w (sgl : list ibv_sge) : w = lenZ sgl → sg_array w sgl = Ok sgl.
Proof.
  intros ->. unfold sg_array. pose proof (lenZ_nonneg sgl).
  destruct (Z.leb_spec 0 (lenZ sgl)); [|lia]. destruct (Z.leb_spec (lenZ sgl) (lenZ sgl)); [|lia].
  cbn [andb]. unfold takeZ, lenZ. rewrite Nat2Z.id. by rewrite take_ge.
Qed.

Lemma send_conv_all (wrs : list (ibv_send_wr * list ibv_sge)) st sent :
  copied st sent → Forall (λ p, sw_num_sge p.1 = lenZ p.2 ∧ Forall sge_ok p.2) wrs →
  ∃ st', conv_all (send_conv c) wrs st = Ok (map (λ p, map client_sge p.2) wrs, st') ∧
         copied st' (sent ++ concat (map snd wrs)).
Proof.
  revert st sent. induction wrs as [|[w sgl] wrs IH]; intros st sent Hcp Hw; cbn [conv_all].
  - exists st. by rewrite app_nil_r.
  - inversion Hw as [|? ? [Hn Hs] Hw']; subst. cbn [fst snd] in *.
    change (w_num_sge w) with (sw_num_sge w). rewrite sg_array_all by done. cbn [rbind].
    destruct (send_conv_spec sgl st sent) as (st1 & -> & Hcp1); auto. cbn [rbind].
    destruct (IH st1 (sent ++ sgl)) as (st2 & -> & Hcp2); auto. cbn [rbind].
    exists st2. split; [done|]. cbn [map concat snd]. by rewrite app_assoc.
Qed.

(** What the router reads at the translated address of a sent element. *)
Lemma router_reads st sent s g :
  copied st sent → s ∈ sent → sge_in s g →
  ∃ bs, mem_load (c_space c) st0 (sge_addr s) (Z.to_nat (sge_len s)) = Ok bs ∧
        mem_load (r_space rm) st (g_router g + (sge_addr s - g_mr g)) (Z.to_nat (sge_len s)) = Ok bs.
Proof.
  intros Hcp Hin Hsg. destruct (app_bytes s) as (bs & Hl & Hld & Hbs); [by exists g|].
  exists bs. split; [done|]. pose proof Hsg as (Hk & Hlen & Hlo & Hhi).
  destruct (rgs_ok Hrg _ g Hk) as [_ Hok].
  apply mem_load_Some. split; [unfold lenZ in Hl; lia|]. intros i b Hb.
  pose proof (lookup_lt_Some _ _ _ Hb) as Hlt. unfold lenZ in Hl.
  exists (g_obj g, sge_addr s - g_mr g + Z.of_nat i). split.
  - assert (g_router g + (sge_addr s - g_mr g) + Z.of_nat i
            = g_router g + (sge_addr s - g_mr g + Z.of_nat i)) as -> by lia.
    rewrite (rg_router _ _ _ _ _ Hok) by lia. by rewrite Z.add_0_l.
  - rewrite (cp_sent _ _ Hcp s g (Z.of_nat i) Hin Hsg) by lia. by apply Hbs.
Qed.

Lemma copied_start : copied st0 [].
Proof.
  split; [done| |].
  - intros k g Hk. by destruct (rgs_ok Hrg k g Hk) as [_ [? ? ? ? ? ? ? ?]].
  - intros s g i Hin. by apply elem_of_nil in Hin.
Qed.
End SendMemory.

(** ** Serving a post request *)

Lemma remap_remote_keeps views w y w' y' :
  remap_remote views w y = Ok (w', y') →
  sw_num_sge w' = sw_num_sge w ∧ ss_ah y' = ss_ah y.
Proof.
  unfold remap_remote. destruct (is_rdma _); [|by intros [= <- <-]].
  intros Hb. apply res_bind_Ok in Hb as ([[[p|] n] t] & _ & Hb); by injection Hb as <- <-.
Qed.

Lemma fix_ah_keeps adv ud ahs a w y w' y' :
  fix_ah adv ud ahs a w y = Ok (w', y') →
  sw_num_sge w' = sw_num_sge w ∧ ss_ah y ≤ ss_ah y'.
Proof.
  unfold fix_ah. destruct ud; [|intros [= <- <-]; lia].
  destruct (a !! ss_ah y) as [[]|]; try done. intros Hb. apply res_bind_Ok in Hb as ([] & _ & Hb).
  injection Hb as <- <-. cbn. destruct adv; lia.
Qed.

(** Serving a request that is laid out as the client lays it out: the NIC is
    handed the transformed work requests with the translated scatter lists. *)
Lemma serve_post_send_spec adv is_ud views nic r a handle qp ud ws sgls hs ws' y' :
  let wr := req_header_size + sizeof S_ibv_post_send in
  let sge := wr + lenZ ws * sizeof S_ibv_send_wr in
  let ah := sge + total sgls * sge_size in
  a !! req_header_size = Some (CPost handle (lenZ ws) (total sgls)) →
  find_queue r handle = qp → is_ud qp = Some ud → ws ≠ [] →
  Forall2 (λ w l, sw_num_sge w = lenZ l) ws sgls →
  holds a wr (w_size ibv_send_wr) w_cell ws → holds a sge sge_size CSge (concat sgls) → holds a ah 4 CAh hs →
  xform_all (remap_remote views) (fix_ah adv ud (ah_map r) a) ws (mkSendSt 0 0 ah) = Ok (ws', y') →
  ∃ l r' a', serve_post_send adv is_ud views nic r a =
      Ok (mkPostRsp (nic qp l).1 (bad_index (nic qp l).2), r', a') ∧
    Forall2 (λ p q, (∃ n s, p.1 = w_link n s q.1) ∧ p.2 = q.2) l
            (zip ws' (map (router_sges (rt_lkeys r)) sgls)).
Proof.
  intros wr sge ah Hpost Hq Hud Hne Hn Hw Hs Ha Hx.
  unfold serve_post_send, get_post. rewrite Hpost. cbn [rbind]. rewrite Hq, Hud. cbn [deref rbind].
  fold wr. fold sge. fold ah.
  assert (Z.to_nat (lenZ ws) = length ws) as -> by (unfold lenZ; lia).
  destruct (fix_wrs_spec (λ _, remap_remote views) (fix_ah adv ud (ah_map r)) a ah
    (remap_remote views) (fix_ah adv ud (ah_map r) a) (λ y, ah ≤ ss_ah y)) with
    (ws := ws) (sgls := sgls) (ws' := ws') (off := wr) (sge := sge) (m := rt_lkeys r) (a := a)
    (y := mkSendSt 0 0 ah) (y' := y') as (m' & a' & Hrun & Hc & _ & _);
    first [exact Hn | exact Hw | exact Hs | exact Hx | auto].
  - intros a1 w y Hy Hag. unfold fix_ah. destruct ud; [|done]. by rewrite Hag.
  - intros w y w1 y1 Hp. apply remap_remote_keeps in Hp as [_ ->]. done.
  - intros w y w1 y1 Hp. apply fix_ah_keeps in Hp as [_ ?]. cbn. lia.
  - intros w y w1 y1 Hp. by apply remap_remote_keeps in Hp as [? _].
  - intros w y w1 y1 Hp. by apply fix_ah_keeps in Hp as [? _].
  - intros n s w y w1 y1. unfold fix_ah. destruct ud; [|by intros [= <- <-]].
    destruct (a !! ss_ah y) as [[]|]; try done. intros Hb. apply res_bind_Ok in Hb as ([] & -> & Hb).
    by injection Hb as <- <-.
  - subst sge. rewrite (Z.mul_comm (lenZ ws)). apply Z.le_refl.
  - subst ah. unfold total. lia.
  - apply Z.le_refl.
  - rewrite Hrun. cbn [rbind].
    assert (length ws' = length ws) as El by (by eapply xform_all_length).
    assert (length sgls = length ws) as El2 by (symmetry; by eapply Forall2_length).
    destruct (nic_chain_spec (zip ws' (map (router_sges (rt_lkeys r)) sgls)) wr sge a' (S (length ws)))
      as (l & -> & Hl); auto.
    + destruct ws', ws, sgls; done.
    + rewrite length_zip_with, length_map. lia.
    + cbn [rbind]. exists l. destruct (nic qp l) as [e b]. eauto.
Qed.

(** ** Sending, end to end *)

(** The address translation of one-sided operations. *)
Definition remote_fix (rk : gmap Z mr_shm) (w : ibv_send_wr) : ibv_send_wr :=
  if is_rdma (sw_opcode w) then
    match rk !! sw_w1 w with
    | Some p => set_w0 (u64 (ms_shm p + sw_w0 w - ms_mr p)) w
    | None => w
    end
  else w.

(** The router has learned the remote regions these requests name. *)
Definition remotes_known (views : nat → gmap Z mr_shm) (rk : gmap Z mr_shm)
    (ws : list ibv_send_wr) : Prop :=
  Forall (λ w, is_rdma (sw_opcode w) = true →
    ∃ p, rk !! sw_w1 w = Some p ∧ ∀ t, views t !! sw_w1 w = Some p) ws.

Lemma xform_connected adv ahs a views rk ws y :
  remotes_known views rk ws →
  ∃ y', xform_all (remap_remote views) (fix_ah adv false ahs a) ws y = Ok (map (remote_fix rk) ws, y').
Proof.
  revert y. induction ws as [|w ws IH]; intros y Hk; [by eexists|].
  inversion Hk as [|? ? Hw Hk']; subst. cbn [xform_all map].
  assert (∃ y1, remap_remote views w y = Ok (remote_fix rk w, y1)) as [y1 ->].
  { unfold remap_remote, remote_fix. destruct (is_rdma (sw_opcode w)) eqn:E; [|eauto].
    destruct (Hw eq_refl) as (p & Hp & Hv). cbn [find_rkey]. rewrite Hv, Hp. cbn. eauto. }
  cbn [rbind fix_ah]. destruct (IH y1 Hk') as [y2 ->]. cbn. eauto.
Qed.

(** Documented behaviour of the verbs' post functions: success with no rejected
    request, or an error and the index of the first request rejected. *)
Definition nic_ok {W} (nic : Z → list (W * list ibv_sge) → Z * option Z) : Prop :=
  ∀ q l, nic q l = (0, None) ∨ ∃ e k, nic q l = (e, Some k) ∧ e ≠ 0 ∧ 0 ≤ k < lenZ l.

(** What the application is told: on rejection of request [k] the errno, and the
    request before it ([k] is counted from zero by the router, from one by the
    client). *)
Definition post_result (r : Z * option Z) : post_out :=
  mkPostOut r.1 (match r.2 with
                 | None => None
                 | Some k => Some (Some (if Z.eqb k 0 then 0 else k - 1))
                 end).

Lemma find_bad_nic {W} (nic : Z → list (W * list ibv_sge) → Z * option Z) q l n :
  nic_ok nic → lenZ l = n →
  (let* bad := find_bad (mkPostRsp (nic q l).1 (bad_index (nic q l).2)) n in
   Ok (mkPostOut (nic q l).1 bad)) = Ok (post_result (nic q l)).
Proof.
  intros Hnic <-. destruct (Hnic q l) as [->|(e & k & -> & He & Hk)]; [done|].
  unfold find_bad, post_result. cbn [fst snd bad_wr ret_errno].
  change (bad_index (Some k)) with k.
  destruct (Z.eqb_spec k 0) as [->|Hk0]; cbn [negb].
  - destruct (Z.eqb_spec e 0); [done|]. cbn [negb]. by destruct (Z.ltb_spec 0 (lenZ l)); [|lia].
  - destruct (Z.ltb_spec (k - 1) (lenZ l)); [reflexivity|lia].
Qed.

(** The element the NIC is given for the application's element [s]: same length
    and key, and its bytes in the router's memory are those the application had. *)
Definition delivers (c : client) (rm : router_mem) (st st' : store) (t s : ibv_sge) : Prop :=
  sge_len t = sge_len s ∧ sge_lkey t = sge_lkey s ∧
  ∃ bs, mem_load (c_space c) st (sge_addr s) (Z.to_nat (sge_len s)) = Ok bs ∧
        mem_load (r_space rm) st' (sge_addr t) (Z.to_nat (sge_len t)) = Ok bs.

Lemma delivered c rm st objs regions st' sent s :
  regions_ok c rm st objs regions → copied c st regions st' sent → s ∈ sent → sge_ok regions s →
  delivers c rm st st' (router_sge (lkey_ptr rm) (client_sge regions s)) s.
Proof.
  intros Hrg Hcp Hin (g & Hsg). split; [done|]. split; [done|].
  destruct (router_reads c rm st objs regions Hrg st' sent s g Hcp Hin Hsg) as (bs & H1 & H2).
  exists bs. split; [done|]. pose proof Hsg as (Hk & Hlen & Hlo & Hhi).
  destruct (rgs_ok _ _ _ _ _ Hrg _ g Hk) as [Hkey Hok].
  destruct (rgs_range _ _ _ _ _ Hrg _ g Hk) as (R1 & R2 & _ & _ & R5 & R6).
  unfold router_sge, client_sge, ptr. cbn [sge_len sge_addr sge_lkey]. rewrite Hk.
  cbn [fmap option_fmap option_map default].
  rewrite <- Hkey, (rg_ptr _ _ _ _ _ Hok). cbn [default from_option id].
  rewrite u64_id by lia. done.
Qed.

Lemma delivered_all c rm st objs regions st' sent sgl :
  regions_ok c rm st objs regions → copied c st regions st' sent → sgl ⊆ sent →
  Forall (sge_ok regions) sgl →
  Forall2 (delivers c rm st st') (router_sges (lkey_ptr rm) (map (client_sge regions) sgl)) sgl.
Proof.
  intros Hrg Hcp Hsub Hok. induction Hok as [|s sgl Hs Hok IH]; [constructor|].
  constructor.
  - eapply delivered; eauto. apply Hsub. by left.
  - apply IH. intros x Hx. apply Hsub. by right.
Qed.

(** Converted scatter lists: lengths and total. *)
Lemma client_sges_num regions (wrs : list (ibv_send_wr * list ibv_sge)) :
  Forall (λ p, sw_num_sge p.1 = lenZ p.2 ∧ Forall (sge_ok regions) p.2) wrs →
  Forall2 (λ p l, w_num_sge p.1 = lenZ l) wrs (map (λ p, map (client_sge regions) p.2) wrs).
Proof.
  induction 1 as [|p wrs [Hp _] Hw IH]; constructor; [|done].
  change (w_num_sge p.1) with (sw_num_sge p.1). rewrite Hp. unfold lenZ. by rewrite length_map.
Qed.

Lemma client_sges_total {W} regions (wrs : list (W * list ibv_sge)) :
  total (map (λ p, map (client_sge regions) p.2) wrs) = total (map snd wrs).
Proof.
  unfold total, lenZ. f_equal. induction wrs as [|p wrs IH]; [done|].
  cbn [map concat]. by rewrite !length_app, IH, length_map.
Qed.

(** From the NIC's list to the application's: same requests, bytes delivered. *)
Lemma zip_delivered c rm st objs regions st' sent (ws' : list ibv_send_wr)
    (wrs : list (ibv_send_wr * list ibv_sge)) l :
  regions_ok c rm st objs regions → copied c st regions st' sent →
  (∀ p, p ∈ wrs → p.2 ⊆ sent) → Forall (λ p, Forall (sge_ok regions) p.2) wrs →
  Forall2 (λ p q, (∃ n s, p.1 = w_link n s q.1) ∧ p.2 = q.2) l
    (zip ws' (map (router_sges (lkey_ptr rm)) (map (λ p, map (client_sge regions) p.2) wrs))) →
  Forall2 (λ q p, (∃ n s, q.1 = w_link n s p.1) ∧ Forall2 (delivers c rm st st') q.2 p.2) l
    (zip ws' (map snd wrs)).
Proof.
  intros Hrg Hcp Hsub Hw. revert ws' l. induction Hw as [|p wrs Hps Hw IH]; intros ws' l Hl.
  - destruct ws'; cbn in *; inversion Hl; constructor.
  - destruct ws' as [|w ws']; cbn [map zip zip_with] in *; [inversion Hl; constructor|].
    inversion Hl as [|q ? l' ? [Hq1 Hq2] Hl']; subst.
    constructor; [|apply IH; [intros p' Hp'; apply Hsub; by right|done]].
    split; [done|]. rewrite Hq2. cbn [snd]. eapply delivered_all; eauto. apply Hsub. by left.
Qed.

Section PostSend.
Context (c : client) (rm : router_mem) (r : router) (st : store) (objs : Z → Prop).
Context (regions : gmap Z region) (cid handle qp : Z) (ud : bool) (ah_handle : Z → option Z).
Context (is_ud : Z → option bool) (views : nat → gmap Z mr_shm).
Context (nic : Z → list (ibv_send_wr * list ibv_sge) → Z * option Z).
Context (Hrg : regions_ok c rm st objs regions) (Hlk : rt_lkeys r = lkey_ptr rm).
Context (Hh : 0 ≤ handle < MAP_SIZE) (Hqp : queue_map r !! handle = Some qp).
Context (Hud : is_ud qp = Some ud) (Hnic : nic_ok nic).

Definition send_ah_of (w : ibv_send_wr) : res (option Z) :=
  if ud then let* h := deref "i->wr.ud.ah->handle" (ah_handle (sw_w0 w)) in Ok (Some h)
  else Ok None.

Lemma post_send_run adv wrs hs ws' a :
  wrs ≠ [] → Forall (λ p, sw_num_sge p.1 = lenZ p.2 ∧ Forall (sge_ok regions) p.2) wrs →
  handles send_ah_of ud wrs hs →
  request_size (sizeof S_ibv_post_send) wrs (total (map snd wrs)) (lenZ hs) ≤ CTRL_REQ_SIZE →
  (∀ a1 ah, holds a1 ah 4 CAh hs → ∃ y', xform_all (remap_remote views)
     (fix_ah adv ud (ah_map r) a1) (map fst wrs) (mkSendSt 0 0 ah) = Ok (ws', y')) →
  ∃ l a' st',
    ibv_cmd_post_send c cid handle ud ah_handle
      (λ a st, let* (rsp, _, a) := serve_post_send adv is_ud views nic r a in Ok (rsp, a, st))
      wrs a st = Ok (post_result (nic qp l), a', st') ∧
    Forall2 (λ q p, (∃ n s, q.1 = w_link n s p.1) ∧ Forall2 (delivers c rm st st') q.2 p.2) l
      (zip ws' (map snd wrs)).
Proof.
  intros Hne Hw Hhs Hsz Hxf.
  destruct (send_conv_all c rm st objs regions Hrg wrs st [] (copied_start _ _ _ _ _ Hrg) Hw)
    as (st' & Hconv & Hcp). cbn [app] in Hcp.
  pose proof (client_sges_num regions wrs Hw) as Hn.
  rewrite <- (client_sges_total regions wrs) in Hsz.
  set (sgls := map (λ p, map (client_sge regions) p.2) wrs) in *.
  assert ((if ud then count_wrs wrs else 0) = lenZ hs) as Hcount.
  { pose proof (lenZ_nonneg wrs). unfold handles in Hhs. destruct ud; [|by destruct Hhs as [-> _]].
    apply Forall2_length in Hhs. unfold count_wrs.
    assert (lenZ wrs = lenZ hs) as E by (unfold lenZ; by rewrite Hhs). rewrite E. apply u32_id.
    unfold request_size in Hsz. rewrite E in *. change (w_size ibv_send_wr) with 128 in Hsz.
    change CTRL_REQ_SIZE with 1048576 in Hsz. change sge_size with 16 in Hsz.
    assert (0 ≤ total sgls) by apply lenZ_nonneg.
    change (sizeof S_FfrRequestHeader) with 12 in Hsz. change (sizeof S_ibv_post_send) with 32 in Hsz. lia. }
  destruct (fill_request_spec (send_conv c) send_ah_of (λ _ w, w) ud (func_code IBV_POST_SEND)
    (sizeof S_ibv_post_send) cid handle (lenZ hs) wrs a st sgls st' hs Hconv Hn Hhs eq_refl eq_refl Hsz)
    as (a1 & ws & Hfill & _ & Hpost & Hws & Hloc & Hsg & Hah).
  assert (ws = map fst wrs) as ->.
  { clear -Hloc. induction Hloc as [|w p ws wrs [k ->] Hl IH]; [done|]. cbn. by rewrite IH. }
  assert (lenZ wrs = lenZ (map fst wrs)) as El by (unfold lenZ; by rewrite length_map).
  rewrite El in *. destruct (Hxf _ _ Hah) as [y' Hx].
  destruct (serve_post_send_spec adv is_ud views nic r a1 handle qp ud (map fst wrs) sgls hs
    ws' y' Hpost) as (l & r' & a' & Hserve & Hl); [|exact Hud| | |exact Hws|exact Hsg|exact Hah|exact Hx|].
  { unfold find_queue. destruct (Z.leb_spec MAP_SIZE handle); [lia|]. rewrite Hqp. reflexivity. }
  { clear -Hne. by destruct wrs. }
  { clear -Hn. induction Hn; constructor; auto. }
  exists l, a', st'. unfold ibv_cmd_post_send. fold send_ah_of.
  assert (in_bounds "qp_shm_map" handle MAP_SIZE = Ok ()) as -> by (by apply in_bounds_Ok).
  cbn [rbind]. rewrite Hcount, Hfill. cbn [rbind]. rewrite Hserve. cbn [rbind ret_errno].
  assert (lenZ l = lenZ wrs) as Ell.
  { apply Forall2_length in Hl. apply xform_all_length in Hx. unfold lenZ.
    rewrite Hl, length_zip_with, Hx, !length_map. subst sgls. rewrite length_map. lia. }
  rewrite Hlk in Hl. split.
  - pose proof (find_bad_nic nic qp l (lenZ wrs) Hnic Ell) as Hbad.
    destruct (find_bad _ _) as [bad| | | |]; cbn [rbind] in Hbad |- *; congruence.
  - eapply zip_delivered; eauto.
    + intros p Hp x Hx'. apply list_elem_of_In, in_concat. exists p.2.
      split; [apply in_map; by apply list_elem_of_In|by apply list_elem_of_In].
    + clear -Hw. induction Hw as [|p wrs [_ Hp] Hw IH]; constructor; auto.
Qed.
End PostSend.


(** On a datagram queue the fast path gives every work request the address
    handle of the first one: the router never advances its handle pointer, so a
    list of sends to different destinations all goes to the first destination. *)
Theorem post_send_ud_first_handle c rm r st objs regions cid handle qp ah_handle is_ud views nic wrs a h hs :
  regions_ok c rm st objs regions → rt_lkeys r = lkey_ptr rm →
  0 ≤ handle < MAP_SIZE → queue_map r !! handle = Some qp → is_ud qp = Some true →
  Forall (λ p, sw_num_sge p.1 = lenZ p.2 ∧ Forall (sge_ok regions) p.2) wrs →
  Forall2 (λ p h, ah_handle (sw_w0 p.1) = Some h) wrs (h :: hs) → 0 ≤ h < MAP_SIZE →
  Forall (λ p, is_rdma (sw_opcode p.1) = false) wrs →
  request_size (sizeof S_ibv_post_send) wrs (total (map snd wrs)) (lenZ (h :: hs)) ≤ CTRL_REQ_SIZE →
  nic_ok nic →
  ∃ l a' st',
    ibv_cmd_post_send c cid handle true ah_handle
      (λ a st, let* (rsp, _, a) := serve_post_send false is_ud views nic r a in Ok (rsp, a, st))
      wrs a st = Ok (post_result (nic qp l), a', st') ∧
    length l = length wrs ∧ Forall (λ q, sw_w0 q.1 = default 0 (ah_map r !! h)) l.
Proof.
  intros Hrg Hlk Hh Hqp Hud Hw Hahs Hhr Hop Hsz Hnic.
  set (p0 := default 0 (ah_map r !! h)).
  destruct (post_send_run c rm r st objs regions cid handle qp true ah_handle is_ud views nic
    Hrg Hlk Hh Hqp Hud Hnic false wrs (h :: hs) (map (set_w0 p0) (map fst wrs)) a)
    as (l & a' & st' & Hrun & Hl); auto.
  - by inversion Hahs.
  - unfold handles, send_ah_of. clear -Hahs. revert Hahs. generalize (h :: hs) as hs'.
    intros hs' Hf. induction Hf as [|p h' wrs hs' Hp Hf IH]; constructor; auto. by rewrite Hp.
  - intros a1 ah Hah. apply holds_cons in Hah as [Hah _].
    exists (mkSendSt 0 0 ah). clear -Hop Hah Hhr. induction Hop as [|p wrs Hp Hop IH]; [done|].
    cbn [map xform_all]. unfold remap_remote at 1. rewrite Hp. cbn [rbind].
    unfold fix_ah at 1. cbn [ss_ah]. rewrite Hah.
    assert (in_bounds "ah_map" h MAP_SIZE = Ok ()) as -> by (by apply in_bounds_Ok).
    cbn [rbind ss_count ss_time]. by rewrite IH.
  - exists l, a', st'. split; [done|]. split.
    + apply Forall2_length in Hl. rewrite Hl, length_zip_with, !length_map. lia.
    + clear -Hl. revert l Hl. induction wrs as [|p wrs IH]; intros l Hl; cbn in Hl;
        inversion Hl as [|q ? l' ? [(n & s & Hq) _] Hl']; subst; constructor; auto. by rewrite Hq.
Qed.

(** The failed request is misreported: when the NIC rejects the [k]-th
    request of a list (counted from zero, [k] at least one), the application is
    told the one before it, which the NIC has accepted. *)
Theorem post_send_bad_wr_off_by_one c rm r st objs regions cid handle qp ah_handle is_ud views rk e k wrs a :
  let nic (q : Z) (l : list (ibv_send_wr * list ibv_sge)) :=
    if Z.ltb k (lenZ l) then (e, Some k) else (0, None) in
  regions_ok c rm st objs regions → rt_lkeys r = lkey_ptr rm →
  0 ≤ handle < MAP_SIZE → queue_map r !! handle = Some qp → is_ud qp = Some false →
  Forall (λ p, sw_num_sge p.1 = lenZ p.2 ∧ Forall (sge_ok regions) p.2) wrs →
  request_size (sizeof S_ibv_post_send) wrs (total (map snd wrs)) 0 ≤ CTRL_REQ_SIZE →
  remotes_known views rk (map fst wrs) → e ≠ 0 → 1 ≤ k < lenZ wrs →
  ∃ a' st',
    ibv_cmd_post_send c cid handle false ah_handle
      (λ a st, let* (rsp, _, a) := serve_post_send false is_ud views nic r a in Ok (rsp, a, st))
      wrs a st = Ok (mkPostOut e (Some (Some (k - 1))), a', st').
Proof.
  intros nic Hrg Hlk Hh Hqp Hud Hw Hsz Hrk He Hk.
  destruct (post_send_run c rm r st objs regions cid handle qp false ah_handle is_ud views nic
    Hrg Hlk Hh Hqp Hud) with (adv := false) (wrs := wrs) (hs := @nil Z)
    (ws' := map (remote_fix rk) (map fst wrs)) (a := a) as (l & a' & st' & Hrun & Hl); auto.
  - intros q l. subst nic. cbn. destruct (Z.ltb_spec k (lenZ l)); [|by left].
    right. exists e, k. split; [done|]. split; [done|lia].
  - intros ->. change (lenZ []) with 0 in Hk. lia.
  - split; [done|]. by apply Forall_true.
  - intros a1 ah _. by apply xform_connected.
  - exists a', st'. rewrite Hrun. do 3 f_equal.
    assert (lenZ l = lenZ wrs) as El.
    { apply Forall2_length in Hl. rewrite length_zip_with, !length_map in Hl. unfold lenZ. lia. }
    unfold nic. rewrite El. destruct (Z.ltb_spec k (lenZ wrs)); [|lia].
    unfold post_result. cbn [fst snd]. by destruct (Z.eqb_spec k 0); [lia|].
Qed.

(** ** A small instance *)

(** One region of 16 bytes: application bytes in a private object, shared object
    5 at 65536 in the client and at 32768 in the router. *)
Definition demo_c : client :=
  mkClient [mkMapping 8192 16 0 0; mkMapping 65536 16 5 0] {[ 17 := mkMrShm 8192 65536 ]}.
Definition demo_rm : router_mem := mkRouterMem [mkMapping 32768 16 5 0] {[ 17 := 32768 ]}.
Definition demo_st : store :=
  list_to_map (((λ i, ((0, i), 65 + i)) <$> seqZ 0 16) ++ ((λ i, ((5, i), 0)) <$> seqZ 0 16)).
Definition demo_regions : gmap Z region := {[ 17 := mkRegion 17 8192 65536 32768 16 5 ]}.
Definition demo_r : router := mkRouter {[ 17 := 32768 ]} {[ 2 := 900 ]} {[ 6 := 700; 7 := 800 ]} 0.
Definition demo_nic {W} (q : Z) (l : list (W * list ibv_sge)) : Z * option Z := (0, None).
Definition demo_send (id op w0 : Z) (sgl : list ibv_sge) : ibv_send_wr * list ibv_sge :=
  (mkSendWr id None None (lenZ sgl) op w0 0 [], sgl).
Definition demo_wrs : list (ibv_send_wr * list ibv_sge) :=
  [demo_send 1 2 6000 [mkSge 8194 3 17; mkSge 8200 2 17]; demo_send 2 2 7000 []].
Definition demo_ah (p : Z) : option Z := if Z.eqb p 6000 then Some 6 else Some 7.

Lemma demo_regions_ok : regions_ok demo_c demo_rm demo_st (λ o, o = 5) demo_regions.
Proof.
  assert (∀ k g, demo_regions !! k = Some g → k = 17 ∧ g = mkRegion 17 8192 65536 32768 16 5) as Hl.
  { intros k g Hk. unfold demo_regions in Hk. apply lookup_singleton_Some in Hk as [<- <-]. done. }
  assert (∀ i, 0 ≤ i < 16 → is_Some (demo_st !! (0, i)) ∧ is_Some (demo_st !! (5, i))) as Hst.
  { intros i Hi.
    assert (i = 0 ∨ i = 1 ∨ i = 2 ∨ i = 3 ∨ i = 4 ∨ i = 5 ∨ i = 6 ∨ i = 7 ∨ i = 8 ∨ i = 9 ∨ i = 10
            ∨ i = 11 ∨ i = 12 ∨ i = 13 ∨ i = 14 ∨ i = 15) as Hc by lia.
    repeat destruct Hc as [->|Hc]; try subst i; split; eexists; vm_compute; reflexivity. }
  split.
  - intros k g Hk. apply Hl in Hk as [-> ->]. split; [done|].
    split; cbn [g_key g_mr g_shm g_router g_len g_obj c_lkeys c_space r_space lkey_ptr demo_c demo_rm].
    + lia.
    + done.
    + apply lookup_singleton_eq.
    + apply lookup_singleton_eq.
    + apply window_tail; [cbn; lia|]. by apply (window_head (mkMapping 65536 16 5 0)).
    + by apply (window_head (mkMapping 32768 16 5 0)).
    + intros i Hi. by apply Hst.
    + right. split.
      * intros i j Hi Hj. rewrite !(window_head (mkMapping 8192 16 0 0) _ 16) by done.
        cbn [m_obj m_off]. intros [=]. lia.
      * intros i Hi. exists (0, i). split; [|split; [by apply Hst|done]].
        by apply (window_head (mkMapping 8192 16 0 0) _ 16).
  - intros k g Hk. apply Hl in Hk as [-> ->]. cbn. lia.
  - intros k g k' g' Hk Hk' _. apply Hl in Hk as [-> _]. apply Hl in Hk' as [-> _]. done.
Qed.

Lemma demo_sges_ok :
  Forall (λ p, sw_num_sge p.1 = lenZ p.2 ∧ Forall (sge_ok demo_regions) p.2) demo_wrs.
Proof.
  assert (∀ s, sge_lkey s = 17 → 8192 ≤ sge_addr s → 0 ≤ sge_len s → sge_addr s + sge_len s ≤ 8208 →
    sge_ok demo_regions s) as Hs.
  { intros s Hk H1 H2 H3. exists (mkRegion 17 8192 65536 32768 16 5). unfold sge_in. rewrite Hk.
    split; [apply lookup_singleton_eq|]. cbn. lia. }
  repeat constructor; apply Hs; cbn; lia.
Qed.


Lemma post_send_ud_first_handle_witness :
  ∃ l a' st',
    ibv_cmd_post_send demo_c 7 2 true demo_ah
      (λ a st, let* (rsp, _, a) := serve_post_send false (λ _, Some true) (λ _, ∅) demo_nic demo_r a in
               Ok (rsp, a, st))
      demo_wrs ∅ demo_st = Ok (post_result (demo_nic 900 l), a', st') ∧
    length l = 2%nat ∧ Forall (λ q, sw_w0 q.1 = 700) l.
Proof.
  apply (post_send_ud_first_handle demo_c demo_rm demo_r demo_st (λ o, o = 5) demo_regions 7 2 900 demo_ah
           (λ _, Some true) (λ _, ∅) demo_nic demo_wrs ∅ 6 [7]).
  - exact demo_regions_ok.
  - reflexivity.
  - unfold MAP_SIZE. lia.
  - reflexivity.
  - reflexivity.
  - exact demo_sges_ok.
  - repeat constructor.
  - unfold MAP_SIZE. lia.
  - repeat constructor.
  - vm_compute. discriminate.
  - intros q l. by left.
Defined.

Lemma post_send_bad_wr_off_by_one_witness :
  let nic (q : Z) (l : list (ibv_send_wr * list ibv_sge)) :=
    if Z.ltb 1 (lenZ l) then (12, Some 1) else (0, None) in
  ∃ a' st',
    ibv_cmd_post_send demo_c 7 2 false demo_ah
      (λ a st, let* (rsp, _, a) := serve_post_send false (λ _, Some false) (λ _, ∅) nic demo_r a in
               Ok (rsp, a, st))
      demo_wrs ∅ demo_st = Ok (mkPostOut 12 (Some (Some 0)), a', st').
Proof.
  apply (post_send_bad_wr_off_by_one demo_c demo_rm demo_r demo_st (λ o, o = 5) demo_regions 7 2 900
           demo_ah (λ _, Some false) (λ _, ∅) ∅ 12 1 demo_wrs ∅).
  - exact demo_regions_ok.
  - reflexivity.
  - unfold MAP_SIZE. lia.
  - reflexivity.
  - reflexivity.
  - exact demo_sges_ok.
  - vm_compute. discriminate.
  - repeat constructor; discriminate.
  - discriminate.
  - change (lenZ demo_wrs) with 2. lia.
Defined.
