(* ===== verification/Completion.v ===== *)
(** * Receiving: posted buffers, completions and the poll

    [ibv_cmd_poll_cq] of [libibverbs/src/cmd.c] as a whole function, the CQ part of
    [CtrlChannelLoop], and the receive path end to end: a buffer posted by
    [ibv_cmd_post_recv], filled by the NIC in the router's memory, copied to the
    application when its completion is polled. *)

From S2P Require Import Prelude Layout FfTypes SharedMem MemReg WrQueue Request DataPath.

(** ** Client *)

Record ibv_wc := mkWc { wc_id : Z; wc_status : Z; wc_opcode : Z; wc_rest : list Z }.

Definition IBV_WC_RECV : Z := 128.
Definition wc_size : Z := sizeof S_ibv_wc.

(** The copy of one record to the application. *)
Definition copy_rec (c : client) (rec : sge_record) (st : store) : res store :=
  if Z.eqb (mr_addr rec) (shm_addr rec) then Ok st
  else memcpy (c_space c) st (mr_addr rec) (shm_addr rec) (rec_length rec).

Fixpoint copy_recs (c : client) (recs : list sge_record) (st : store) : res store :=
  match recs with
  | [] => Ok st
  | rec :: recs => let* st := copy_rec c rec st in copy_recs c recs st
  end.

(** The loop over the completions: each receive pops one entry of the ring. *)
Fixpoint drain (c : client) (wcs : list ibv_wc) (q : wr_queue) (st : store) : res (wr_queue * store) :=
  match wcs with
  | [] => Ok (q, st)
  | wc :: wcs =>
      if negb (Z.eqb (Z.land (wc_opcode wc) IBV_WC_RECV) 0) then
        let* (recs, q) := dequeue q in
        let* st := copy_recs c recs st in
        drain c wcs q st
      else drain c wcs q st
  end.

(** What a completion queue's client side keeps: the channel state and its mutex,
    the SRQ the queue is bound to ([map_cq_to_srq]), the rings, and the tail lock of
    the SRQ's ring. *)
Record cq_state := mkCq {
  cq_chan : CtrlChannelState;
  cq_mutex : bool;
  cq_srq : Z;
  cq_ring : wr_queue;
  srq_ring : option wr_queue;
  srq_tail_lock : bool
}.

Definition has_srq (s : cq_state) : bool := Z.leb (cq_srq s) MAP_SIZE.

(** [serve] is the router: the size it announces and the completions it wrote.
    The size is an [int] compared with the unsigned [sizeof]. *)
Definition ibv_cmd_poll_cq (c : client) (handle ne : Z)
    (serve : Z → Z → res (Z * list ibv_wc)) (s : cq_state) (st : store) :
    res (Z * list ibv_wc * cq_state * store) :=
  do* in_bounds "cq_shm_map" handle MAP_SIZE;
  if cq_mutex s then Blocked
  else
    let* _ := (if has_srq s then deref "map_srq_to_wr_queue" (srq_ring s) else Ok (cq_ring s)) in
    if has_srq s && srq_tail_lock s then Blocked
    else
      let* (rsp_size, wc_list) := serve handle ne in
      if negb (Z.eqb (u64 rsp_size mod wc_size) 0) then
        Ok (-1, [], mkCq RSP_DONE false (cq_srq s) (cq_ring s) (srq_ring s) (has_srq s || srq_tail_lock s), st)
      else
        let count := s32 (u64 rsp_size / wc_size) in
        let* q := (if has_srq s then deref "map_srq_to_wr_queue" (srq_ring s) else Ok (cq_ring s)) in
        let wcs := takeZ count wc_list in
        let* (q, st) := drain c wcs q st in
        Ok (count, wcs,
            mkCq IDLE false (cq_srq s) (if has_srq s then cq_ring s else q)
                 (if has_srq s then Some q else srq_ring s)
                 (if has_srq s then false else srq_tail_lock s), st).

(** ** Router *)

(** [case REQ_DONE] of the CQ scan: [cur] is the loop variable [cq], [nic_poll] the
    verb; [count] is declared [unsigned int].  [None] is the [break] that leaves
    the request unanswered. *)
Definition serve_poll_cq (cq_map : gmap Z Z) (nic_poll : Z → Z → Z * list ibv_wc) (cur handle ne : Z) :
    res (option (Z * Z * list ibv_wc)) :=
  let cq := if Z.leb MAP_SIZE handle then cur else default 0 (cq_map !! handle) in
  if Z.eqb cq 0 then Ok None
  else
    let '(n, wc_list) := nic_poll cq ne in
    let count := u32 n in
    let rsp_size := if Z.leb count 0 then 0 else s32 (count * wc_size) in
    if Z.leb count (lenZ wc_list) then Ok (Some (cq, rsp_size, wc_list))
    else UB "wc_list[i] past the completions".

(** The scan of the CQ channels, [for (int i = 0; i < vec.size(); i++)]: the inner
    loop over the completions uses the same [i].  [look t i] is what the [t]-th look
    finds in slot [i]: [Some count] when a request is there and is answered with
    [count] completions.  The result is the slots visited. *)
Fixpoint cq_scan (fuel : nat) (n : Z) (look : nat → Z → option Z) (i : Z) (t : nat) : res (list Z) :=
  if Z.ltb i n then
    match fuel with
    | O => OutOfFuel
    | S fuel =>
        let i' := match look t i with Some count => Z.max 0 count | None => i end in
        let* l := cq_scan fuel n look (i' + 1) (S t) in Ok (i :: l)
    end
  else Ok [].

(** ** The receive path, end to end *)

Lemma recv_fix_id (ws : list ibv_recv_wr) :
  xform_all (λ w (y : ()), Ok (w, y)) (λ w y, Ok (w, y)) ws () = Ok (ws, ()).
Proof. induction ws as [|w ws IH]; [done|]. cbn [xform_all rbind]. by rewrite IH. Qed.

Lemma serve_post_recv_spec cmd_size nic r a handle qp ws sgls :
  let wr := req_header_size + cmd_size in
  let sge := wr + lenZ ws * sizeof S_ibv_recv_wr in
  a !! req_header_size = Some (CPost handle (lenZ ws) (total sgls)) →
  find_queue r handle = qp → ws ≠ [] →
  Forall2 (λ w l, rw_num_sge w = lenZ l) ws sgls →
  holds a wr (w_size ibv_recv_wr) w_cell ws → holds a sge sge_size CSge (concat sgls) →
  ∃ l r' a', serve_post_recv cmd_size nic r a =
      Ok (mkPostRsp (nic qp l).1 (bad_index (nic qp l).2), r', a') ∧
    Forall2 (λ p q, (∃ n s, p.1 = w_link n s q.1) ∧ p.2 = q.2) l
            (zip ws (map (router_sges (rt_lkeys r)) sgls)).
Proof.
  intros wr sge Hpost Hq Hne Hn Hw Hs.
  unfold serve_post_recv, get_post. rewrite Hpost. cbn [rbind]. rewrite Hq.
  fold wr. fold sge.
  assert (Z.to_nat (lenZ ws) = length ws) as -> by (unfold lenZ; lia).
  destruct (fix_wrs_spec (λ _ w y, Ok (w, y)) (λ _ w y, Ok (w, y)) a (sge + total sgls * sge_size)
    (λ w y, Ok (w, y)) (λ w y, Ok (w, y)) (λ _ : (), True)) with
    (ws := ws) (sgls := sgls) (ws' := ws) (off := wr) (sge := sge) (m := rt_lkeys r) (a := a)
    (y := ()) (y' := ()) as (m' & a' & Hrun & Hc & _ & _);
    first [exact Hn | exact Hw | exact Hs | exact (recv_fix_id ws) | auto].
  - intros w y w1 y1 Hp. by injection Hp as <- _.
  - intros w y w1 y1 Hp. by injection Hp as <- _.
  - intros n s w y w1 y1 Hp. by injection Hp as <- <-.
  - subst sge. rewrite (Z.mul_comm (lenZ ws)). apply Z.le_refl.
  - unfold total. rewrite Z.mul_comm. apply Z.le_refl.
  - rewrite Hrun. cbn [rbind].
    assert (length sgls = length ws) as El2 by (symmetry; by eapply Forall2_length).
    destruct (nic_chain_spec (zip ws (map (router_sges (rt_lkeys r)) sgls)) wr sge a' (S (length ws)))
      as (l & -> & Hl); auto.
    + clear -Hne El2. destruct ws, sgls; done.
    + rewrite length_zip_with, length_map. lia.
    + cbn [rbind]. exists l. destruct (nic qp l) as [e b]. eauto.
Qed.

Section Receive.
Context (c : client) (rm : router_mem) (st : store) (objs : Z → Prop) (regions : gmap Z region).
Context (Hrg : regions_ok c rm st objs regions).

(** The record of an element: the application's address and the same place in
    the client's view of the shared object. *)
Definition rec_of (s : ibv_sge) : sge_record :=
  let g := default (mkRegion 0 0 0 0 0 0) (regions !! sge_lkey s) in
  mkRec (sge_len s) (sge_addr s) (g_shm g + (sge_addr s - g_mr g)).

(** Later stores have at least the bytes of [st]. *)
Definition extends (st1 : store) : Prop := ∀ l, is_Some (st !! l) → is_Some (st1 !! l).

(** What the NIC writes at the element's address reaches the application when
    the record is copied. *)
Definition receives (t s : ibv_sge) : Prop :=
  sge_len t = sge_len s ∧ sge_lkey t = sge_lkey s ∧
  ∀ st1 bs, extends st1 → lenZ bs = sge_len s →
    ∃ st2 st3, mem_store (r_space rm) st1 (sge_addr t) bs = Ok st2 ∧
      copy_rec c (rec_of s) st2 = Ok st3 ∧
      mem_load (c_space c) st3 (sge_addr s) (Z.to_nat (sge_len s)) = Ok bs.

Lemma recv_sges_spec sgl :
  Forall (sge_ok regions) sgl →
  recv_sges c sgl = Ok (map (client_sge regions) sgl, map rec_of sgl).
Proof.
  induction 1 as [|s sgl (g & Hk & Hlen & Hlo & Hhi) Hs IH]; [done|].
  destruct (rgs_ok _ _ _ _ _ Hrg _ g Hk) as [Hkey Hok].
  destruct (rgs_range _ _ _ _ _ Hrg _ g Hk) as (R1 & R2 & R3 & R4 & _).
  cbn [recv_sges map]. unfold recv_sge at 1. rewrite <- Hkey, (rg_entry _ _ _ _ _ Hok).
  cbn [deref rbind ms_mr ms_shm]. rewrite IH. cbn [rbind]. rewrite Hkey.
  rewrite (u64_id (sge_addr s - g_mr g)) by lia. rewrite !u64_id by lia.
  unfold client_sge, rec_of. rewrite Hk. cbn [default from_option id fmap option_fmap option_map].
  do 4 f_equal. lia.
Qed.

Lemma recv_conv_all (wrs : list (ibv_recv_wr * list ibv_sge)) q :
  Forall (λ p, rw_num_sge p.1 = lenZ p.2 ∧ Forall (sge_ok regions) p.2) wrs →
  conv_all (recv_conv c) wrs q =
  Ok (map (λ p, map (client_sge regions) p.2) wrs,
      foldl (λ q r, enqueue r q) q (map (λ p, map rec_of p.2) wrs)).
Proof.
  intros Hw. revert q. induction Hw as [|[w sgl] wrs [Hn Hs] Hw IH]; intros q; [done|].
  cbn [conv_all map foldl fst snd] in *. change (w_num_sge w) with (rw_num_sge w).
  rewrite sg_array_all by done. cbn [rbind]. unfold recv_conv at 1.
  rewrite recv_sges_spec by done. cbn [rbind]. by rewrite IH.
Qed.

(** One element. *)
Lemma sge_receives s :
  sge_ok regions s → receives (router_sge (lkey_ptr rm) (client_sge regions s)) s.
Proof.
  intros (g & Hk & Hlen & Hlo & Hhi). split; [done|]. split; [done|]. intros st1 bs Hext Hbs.
  destruct (rgs_ok _ _ _ _ _ Hrg _ g Hk) as [Hkey Hok].
  destruct (rgs_range _ _ _ _ _ Hrg _ g Hk) as (R1 & R2 & R3 & R4 & R5 & R6).
  set (off := sge_addr s - g_mr g).
  assert (sge_addr (router_sge (lkey_ptr rm) (client_sge regions s)) = g_router g + off) as ->.
  { unfold router_sge, client_sge, ptr. cbn [sge_addr sge_lkey]. rewrite Hk.
    cbn [fmap option_fmap option_map default from_option id].
    rewrite <- Hkey, (rg_ptr _ _ _ _ _ Hok). cbn [default from_option id]. apply u64_id. lia. }
  destruct (mem_store_window (r_space rm) st1 (g_router g + off) (g_obj g) (0 + off) bs)
    as (st2 & Hst2 & Hall).
  { eapply window_sub; [apply (rg_router _ _ _ _ _ Hok)|lia|lia]. }
  { intros i Hi. apply Hext. rewrite <- Z.add_assoc. apply (rg_present _ _ _ _ _ Hok). lia. }
  rewrite Z.add_0_l in Hall. exists st2. unfold copy_rec, rec_of. rewrite Hk.
  cbn [default from_option id mr_addr shm_addr rec_length]. fold off.
  assert (mem_load (c_space c) st2 (g_shm g + off) (Z.to_nat (sge_len s)) = Ok bs) as Hld.
  { apply mem_load_Some. split; [unfold lenZ in Hbs; lia|]. intros i b Hb.
    pose proof (lookup_lt_Some _ _ _ Hb). unfold lenZ in Hbs.
    exists (g_obj g, off + Z.of_nat i). split.
    - rewrite <- Z.add_assoc, (rg_client _ _ _ _ _ Hok) by lia. by rewrite Z.add_0_l.
    - rewrite Hall. unfold overwrite. cbn [fst snd].
      rewrite bool_decide_eq_true_2 by (unfold lenZ; lia). rewrite <- Hb. f_equal. lia. }
  destruct (Z.eqb_spec (sge_addr s) (g_shm g + off)) as [E|Hne].
  - exists st2. split; [done|]. split; [done|]. by rewrite E.
  - destruct (rg_app _ _ _ _ _ Hok) as [E|[Hun Hpriv]]; [lia|].
    assert (Z.to_nat (sge_len s) = length bs) as El by (unfold lenZ in Hbs; lia).
    destruct (mem_store_unaliased (c_space c) st2 (sge_addr s) bs) as (st3 & Hst3 & Hld3 & _).
    { intros i Hi. destruct (Hpriv (off + i)) as (l & Hl & Hs & _); [lia|]. exists l.
      assert (sge_addr s + i = g_mr g + (off + i)) as -> by lia. split; [done|].
      rewrite Hall. unfold overwrite. case_bool_decide; [|by apply Hext].
      apply lookup_lt_is_Some_2. unfold lenZ in *. lia. }
    { intros i j Hi Hj Heq. assert (off + i = off + j); [|lia]. apply Hun; [lia|lia|].
      assert (g_mr g + (off + i) = sge_addr s + i) as -> by lia.
      by assert (g_mr g + (off + j) = sge_addr s + j) as -> by lia. }
    exists st3. split; [done|]. unfold memcpy. rewrite Hld. cbn [rbind]. split; [done|].
    by rewrite El.
Qed.
End Receive.

Lemma recv_local_link k n s w : w_link n s (recv_local k w) = w_link n s w.
Proof. unfold recv_local. by destruct (Z.eqb (rw_num_sge w) 0). Qed.

Lemma recv_local_num k w : rw_num_sge (recv_local k w) = rw_num_sge w.
Proof. unfold recv_local. by destruct (Z.eqb (rw_num_sge w) 0). Qed.

(** C2.  The receive path, end to end.  The application posts any non-empty list
    of receive requests with buffers in registered regions: the call succeeds and
    the NIC is handed exactly these requests; the ring records them in order
    behind what it held (while it has room); and whatever the NIC then writes into
    an element's memory on the router's side, the copy that the poll makes for its
    record delivers to the application's buffer. *)
Theorem post_recv_end_to_end f cmd_size c rm r st objs regions cid handle qp nic wrs a q :
  regions_ok c rm st objs regions → rt_lkeys r = lkey_ptr rm → 0 < cmd_size →
  0 ≤ handle < MAP_SIZE → queue_map r !! handle = Some qp →
  wrs ≠ [] → Forall (λ p, rw_num_sge p.1 = lenZ p.2 ∧ Forall (sge_ok regions) p.2) wrs →
  request_size cmd_size wrs (total (map snd wrs)) 0 ≤ CTRL_REQ_SIZE → nic_ok nic →
  ∃ l a' q',
    post_recv f cmd_size c cid handle
      (λ a, let* (rsp, _, a) := serve_post_recv cmd_size nic r a in Ok (rsp, a)) wrs a q =
      Ok (post_result (nic qp l), a', q') ∧
    Forall2 (λ x p, (∃ n s, x.1 = w_link n s p.1) ∧
                    Forall2 (receives c rm st regions) x.2 p.2) l wrs ∧
    (∀ abs, represents q abs → lenZ abs + lenZ wrs ≤ ring_size →
      represents q' (abs ++ map (λ p, map (rec_of regions) p.2) wrs)).
Proof.
  intros Hrg Hlk Hcmd Hh Hqp Hne Hw Hsz Hnic.
  pose proof (recv_conv_all c rm st objs regions Hrg wrs q Hw) as Hconv.
  assert (Forall2 (λ p l, w_num_sge p.1 = lenZ l) wrs (map (λ p, map (client_sge regions) p.2) wrs)) as Hn.
  { clear -Hw. induction Hw as [|p wrs [Hp _] Hw IH]; constructor; [|done].
    change (w_num_sge p.1) with (rw_num_sge p.1). rewrite Hp. unfold lenZ. by rewrite length_map. }
  rewrite <- (client_sges_total regions wrs) in Hsz.
  destruct (fill_request_spec (recv_conv c) (λ _, Ok None) recv_local false (func_code f)
    cmd_size cid handle 0 wrs a q _ _ [] Hconv Hn) as (a1 & ws & Hfill & _ & Hpost & Hws & Hloc & Hsg & _);
    [by split; [|apply Forall_true]|done|done|done|].
  assert (lenZ wrs = lenZ ws) as El by (apply Forall2_length in Hloc; unfold lenZ; lia).
  rewrite El in *.
  destruct (serve_post_recv_spec cmd_size nic r a1 handle qp ws _ Hpost) as (l & r' & a' & Hserve & Hl);
    [| | |exact Hws|exact Hsg|].
  { unfold find_queue. destruct (Z.leb_spec MAP_SIZE handle); [lia|]. rewrite Hqp. reflexivity. }
  { clear -Hne Hloc. inversion Hloc; by subst. }
  { clear -Hn Hloc. revert wrs Hn Hloc. generalize (@map (ibv_recv_wr * list ibv_sge) _ (λ p, map (client_sge regions) p.2)) as g.
    intros g wrs Hn Hloc. revert Hn. generalize (g wrs). induction Hloc as [|w p ws wrs [k ->] Hl IH]; intros sgls Hn;
      inversion Hn; subst; constructor; auto. rewrite recv_local_num. done. }
  eexists l, a', _. unfold post_recv.
  assert (in_bounds "shm_map" handle MAP_SIZE = Ok ()) as -> by (by apply in_bounds_Ok).
  cbn [rbind]. rewrite Hfill. cbn [rbind]. rewrite Hserve. cbn [rbind ret_errno].
  assert (lenZ l = lenZ wrs) as Ell.
  { apply Forall2_length in Hl. unfold lenZ in *.
    rewrite Hl, length_zip_with, !length_map. lia. }
  split.
  - pose proof (find_bad_nic nic qp l (lenZ wrs) Hnic Ell) as Hbad.
    destruct (find_bad _ _) as [bad| | | |]; cbn [rbind] in Hbad |- *; try discriminate.
    injection Hbad as ->. reflexivity.
  - rewrite Hlk in Hl. split.
    + clear -Hl Hw Hrg Hloc. revert ws l Hl Hloc.
      induction Hw as [|p wrs [_ Hps] Hw IH]; intros ws l Hl Hloc; inversion Hloc as [|w ? ws0 ? [k Hk] Hloc']; subst;
        cbn [map zip zip_with] in Hl; inversion Hl as [|x ? l' ? [(n & s & Hx) Hx2] Hl']; subst; constructor; eauto.
      split.
      * exists n, s. rewrite Hx. cbn [fst]. apply recv_local_link.
      * rewrite Hx2. cbn [snd]. clear -Hps Hrg.
        induction Hps as [|s0 sgl Hs Hps IH]; constructor; [|done]. by eapply sge_receives.
    + intros abs Hrep Hcap. apply push_run; [done|]. unfold lenZ in *. rewrite length_map. lia.
Qed.

Definition demo_recvs : list (ibv_recv_wr * list ibv_sge) :=
  [(mkRecvWr 1 None None 1, [mkSge 8192 4 17]); (mkRecvWr 2 None None 2, [mkSge 8196 2 17; mkSge 8200 4 17])].

Lemma post_recv_end_to_end_witness :
  ∃ l a' q',
    ibv_cmd_post_recv demo_c 7 2
      (λ a, let* (rsp, _, a) := serve_post_recv 32 demo_nic demo_r a in Ok (rsp, a)) demo_recvs ∅ new_queue =
      Ok (post_result (demo_nic 900 l), a', q') ∧
    Forall2 (λ x p, (∃ n s, x.1 = w_link n s p.1) ∧
                    Forall2 (receives demo_c demo_rm demo_st demo_regions) x.2 p.2) l demo_recvs ∧
    (∀ abs, represents new_queue abs → lenZ abs + 2 ≤ ring_size →
      represents q' (abs ++ map (λ p, map (rec_of demo_regions) p.2) demo_recvs)).
Proof.
  apply (post_recv_end_to_end IBV_POST_RECV (sizeof S_ibv_post_recv) demo_c demo_rm demo_r demo_st
           (λ o, o = 5) demo_regions 7 2 900 demo_nic demo_recvs ∅ new_queue).
  - exact demo_regions_ok.
  - reflexivity.
  - reflexivity.
  - unfold MAP_SIZE. lia.
  - reflexivity.
  - discriminate.
  - assert (∀ s, sge_lkey s = 17 → 8192 ≤ sge_addr s → 0 ≤ sge_len s → sge_addr s + sge_len s ≤ 8208 →
      sge_ok demo_regions s) as Hs.
    { intros s Hk H1 H2 H3. exists (mkRegion 17 8192 65536 32768 16 5). unfold sge_in. rewrite Hk.
      split; [apply lookup_singleton_eq|]. cbn. lia. }
    repeat constructor; apply Hs; cbn; lia.
  - vm_compute. discriminate.
  - intros q l. by left.
Defined.

(** ** Polling *)

Definition is_recv (wc : ibv_wc) : bool := negb (Z.eqb (Z.land (wc_opcode wc) IBV_WC_RECV) 0).

Lemma copy_recs_app c l k st :
  copy_recs c (l ++ k) st = (let* st := copy_recs c l st in copy_recs c k st).
Proof.
  revert st. induction l as [|r l IH]; intros st; [done|]. cbn [app copy_recs].
  destruct (copy_rec c r st); cbn [rbind]; auto.
Qed.

(** Draining the completions copies the oldest entries, one per receive, in
    order, and leaves the others in the ring. *)
Lemma drain_spec c wcs served rest q st st' :
  length (filter (λ wc, is_recv wc = true) wcs) = length served →
  represents q (served ++ rest) → copy_recs c (concat served) st = Ok st' →
  ∃ q', drain c wcs q st = Ok (q', st') ∧ represents q' rest.
Proof.
  revert served q st. induction wcs as [|wc wcs IH]; intros served q st Hlen Hrep Hcp; cbn [drain].
  - destruct served; [|done]. cbn in Hcp. injection Hcp as <-. eauto.
  - rewrite filter_cons in Hlen. change (negb (Z.eqb (Z.land (wc_opcode wc) IBV_WC_RECV) 0)) with (is_recv wc).
    case_decide as Hr; [rewrite Hr|apply not_true_is_false in Hr; rewrite Hr; by apply (IH served)].
    cbn [length] in Hlen.
    destruct served as [|recs served]; [done|]. cbn [app concat] in *.
    destruct (dequeue_represents _ _ _ Hrep) as (q1 & -> & Hrep1). cbn [rbind].
    rewrite copy_recs_app in Hcp. destruct (copy_recs c recs st) as [st1| | | |]; try done.
    cbn [rbind] in *. cbn [length] in Hlen. apply (IH served); [lia|done|done].
Qed.

(** The ring a completion queue pops from. *)
Definition active_ring (s : cq_state) : option wr_queue := if has_srq s then srq_ring s else Some (cq_ring s).

Lemma wc_count_roundtrip n :
  0 ≤ n → n * wc_size < 2 ^ 31 →
  u64 (if Z.leb (u32 n) 0 then 0 else s32 (u32 n * wc_size)) mod wc_size = 0 ∧
  s32 (u64 (if Z.leb (u32 n) 0 then 0 else s32 (u32 n * wc_size)) / wc_size) = n.
Proof.
  change wc_size with 48. change (2 ^ 31) with 2147483648. intros Hn Hlt.
  rewrite u32_id by lia.
  assert ((if Z.leb n 0 then 0 else s32 (n * 48)) = n * 48) as ->.
  { destruct (Z.leb_spec n 0); [lia|]. unfold s32, sint. change (2 ^ (32 - 1)) with 2147483648.
    rewrite Z.mod_small by lia. by destruct (Z.ltb_spec (n * 48) 2147483648); [|lia]. }
  rewrite u64_id by lia. rewrite Z.mod_mul, Z.div_mul by lia. split; [done|].
  unfold s32, sint. change (2 ^ (32 - 1)) with 2147483648. rewrite Z.mod_small by lia.
  by destruct (Z.ltb_spec n 2147483648); [|lia].
Qed.


Definition tiny_store : store := {[ (0, 0) := 65; (5, 0) := 90 ]}.
Definition tiny_store' : store := <[ (0, 0) := 90 ]> tiny_store.
Definition demo_cq : cq_state :=
  mkCq IDLE false (MAP_SIZE + 1) (enqueue [mkRec 1 8192 65536] new_queue) None false.


(** A poll of a queue bound to an SRQ that fails never gives the ring's
    lock back: it returns [-1] with the channel still in [RSP_DONE], and every
    later poll of the same queue blocks forever. *)
Theorem poll_cq_error_wedges c handle ne serve s st size l q ne' serve' st1 :
  0 ≤ handle < MAP_SIZE → cq_mutex s = false → srq_tail_lock s = false →
  has_srq s = true → srq_ring s = Some q →
  serve handle ne = Ok (size, l) → u64 size mod wc_size ≠ 0 →
  ∃ s', ibv_cmd_poll_cq c handle ne serve s st = Ok (-1, [], s', st) ∧
    cq_chan s' = RSP_DONE ∧ ibv_cmd_poll_cq c handle ne' serve' s' st1 = Blocked.
Proof.
  intros Hh Hm Ht Hsrq Hq Hserve Hbad. unfold ibv_cmd_poll_cq.
  assert (in_bounds "cq_shm_map" handle MAP_SIZE = Ok ()) as -> by (by apply in_bounds_Ok).
  cbn [rbind]. rewrite Hm, Hsrq, Ht, Hq. cbn [deref rbind andb]. rewrite Hserve. cbn [rbind].
  destruct (Z.eqb_spec (u64 size mod wc_size) 0) as [E|_]; [done|]. cbn [negb orb].
  eexists. split; [reflexivity|]. split; [done|]. cbn [cq_mutex srq_ring srq_tail_lock].
  change (has_srq (mkCq _ _ (cq_srq s) _ _ _)) with (has_srq s). by rewrite Hsrq.
Qed.

Lemma poll_cq_error_wedges_witness :
  let s := mkCq IDLE false 3 new_queue (Some new_queue) false in
  ∃ s', ibv_cmd_poll_cq demo_c 2 4 (λ _ _, Ok (-48, [])) s ∅ = Ok (-1, [], s', ∅) ∧
    cq_chan s' = RSP_DONE ∧ ibv_cmd_poll_cq demo_c 2 4 (λ _ _, Ok (0, [])) s' ∅ = Blocked.
Proof.
  apply (poll_cq_error_wedges demo_c 2 4 _ (mkCq IDLE false 3 new_queue (Some new_queue) false) ∅ (-48) []
           new_queue); try reflexivity; try (unfold MAP_SIZE; lia). vm_compute. discriminate.
Defined.

(** When the NIC's poll itself fails the router does not survive it: the
    count is unsigned, so the error is taken for four thousand million completions
    and the scan reads past them. *)
Theorem poll_error_kills_router cq_map nic_poll cur handle ne cq n l :
  0 ≤ handle < MAP_SIZE → cq_map !! handle = Some cq → cq ≠ 0 →
  nic_poll cq ne = (n, l) → - 2 ^ 31 ≤ n < 0 → lenZ l * wc_size ≤ CTRL_RSP_SIZE →
  ∃ why, serve_poll_cq cq_map nic_poll cur handle ne = UB why.
Proof.
  intros Hh Hcq Hnz Hnic Hn Hl. unfold serve_poll_cq.
  destruct (Z.leb_spec MAP_SIZE handle); [lia|]. rewrite Hcq. cbn [default from_option id].
  destruct (Z.eqb_spec cq 0); [done|]. rewrite Hnic.
  assert (u32 n = n + 2 ^ 32) as ->.
  { unfold u32. symmetry. apply (Z.mod_unique_pos _ _ (-1)); lia. }
  change wc_size with 48 in Hl. change CTRL_RSP_SIZE with 1048576 in Hl.
  destruct (Z.leb_spec (n + 2 ^ 32) (lenZ l)); [lia|]. eauto.
Qed.

Lemma poll_error_kills_router_witness :
  ∃ why, serve_poll_cq {[ 2 := 500 ]} (λ _ _, (-1, [])) 0 2 4 = UB why.
Proof.
  apply (poll_error_kills_router {[ 2 := 500 ]} (λ _ _, (-1, [])) 0 2 4 500 (-1) []);
    try reflexivity; try discriminate; try (unfold MAP_SIZE; lia).
Defined.

(** ** The scan of the completion channels *)

(** The inner loop of the scan destroys the scan's index: once the channel
    in slot 1 or later is polled again each time it has been answered with no
    completion, the scan restarts at slot 1 after every answer and never ends,
    so slot 0, and with it every queue pair and shared receive queue, is never
    looked at again. *)
Theorem cq_scan_livelock n look i t k :
  1 ≤ i ≤ k → k < n → (∀ t, look t k = Some 0) → (∀ t j, j ≠ k → look t j = None) →
  ∀ fuel, cq_scan fuel n look i t = OutOfFuel.
Proof.
  intros Hi Hk Hlook Hother fuel. revert i t Hi.
  induction fuel as [|fuel IH]; intros i t Hi; cbn [cq_scan];
    (destruct (Z.ltb_spec i n); [|lia]); [done|].
  destruct (decide (i = k)) as [->|Hne].
  - rewrite Hlook. change (Z.max 0 0 + 1) with 1. rewrite IH by lia. done.
  - rewrite Hother by done. rewrite IH by lia. done.
Qed.

Lemma cq_scan_livelock_witness :
  cq_scan 1000 4 (λ _ j, if Z.eqb j 2 then Some 0 else None) 1 0 = OutOfFuel.
Proof.
  apply (cq_scan_livelock 4 (λ _ j, if Z.eqb j 2 then Some 0 else None) 1 0 2); try lia; auto.
  intros t j Hj. by destruct (Z.eqb_spec j 2).
Defined.
