(* ===== verification/ShmChannel.v ===== *)
(** * The shared-memory channel between client threads and the router

    Every queue has a [struct CtrlShmPiece]: a state word, a request area and a
    response area.  Client threads serialise on a process-local mutex, fill the
    request area, call [request_router_shm] of [libibverbs/src/freeflow.c], read the
    response and reset the state to [IDLE]; the router's [CtrlChannelLoop] polls the
    state word, serves a request in state [REQ_DONE] and sets [RSP_DONE].  The steps
    below are the individual accesses to the shared word and areas, in any
    interleaving of any number of threads with the router (the barriers of the
    code make them appear in program order). *)

From S2P Require Import Prelude FfTypes.

(** One iteration of the loop of [request_router_shm]: the store it makes, and
    whether it returns. *)
Definition request_router_shm_iter (state : CtrlChannelState) : option CtrlChannelState * bool :=
  match state with
  | IDLE => (Some REQ_DONE, false)
  | REQ_DONE => (None, false)
  | RSP_DONE => (None, true)
  end.

(** The whole loop against the states the thread observes. *)
Fixpoint request_router_shm (fuel : nat) (observe : nat → CtrlChannelState) (t : nat) :
    res (nat * list CtrlChannelState) :=
  match fuel with
  | O => OutOfFuel
  | S fuel =>
      match request_router_shm_iter (observe t) with
      | (_, true) => Ok (t, [])
      | (Some st, false) => let* (t', l) := request_router_shm fuel observe (S t) in Ok (t', st :: l)
      | (None, false) => request_router_shm fuel observe (S t)
      end
  end.

Section Channel.
Context {Req Rsp RState : Type}.
(** What the router computes for a request. *)
Context (serve : RState → Req → RState * Rsp).

(** Where a client thread is in a call of a verb. *)
Inductive phase :=
  | Outside
  | Locked (q : Req)
  | Looping (q : Req)
  | Returned (q : Req)
  | HasRsp (q : Req) (r : Rsp)
  | Cleared.

(** Where the router is with this channel: scanning, or having written the
    response but not yet the state. *)
Inductive router_phase := Scanning | Answered.

Record chan := mkChan {
  c_state : CtrlChannelState;
  c_mtx : option nat;
  c_req : option Req;
  c_rsp : option Rsp;
  c_threads : nat → phase;
  c_router : router_phase;
  c_rstate : RState;
  c_log : list (Req * Rsp);
  c_rets : list (Req * Rsp)
}.

Definition set_thread (t : nat) (p : phase) (f : nat → phase) (u : nat) : phase :=
  if decide (u = t) then p else f u.

Inductive step : chan → chan → Prop :=
  (** [pthread_mutex_lock] *)
  | s_lock t q st req rsp th rp rs log rets :
      th t = Outside →
      step (mkChan st None req rsp th rp rs log rets)
           (mkChan st (Some t) req rsp (set_thread t (Locked q) th) rp rs log rets)
  (** the stores into [csp->req] *)
  | s_fill t q st m req rsp th rp rs log rets :
      th t = Locked q →
      step (mkChan st m req rsp th rp rs log rets)
           (mkChan st m (Some q) rsp (set_thread t (Looping q) th) rp rs log rets)
  (** one iteration of [request_router_shm] *)
  | s_iter t q st m req rsp th rp rs log rets :
      th t = Looping q →
      step (mkChan st m req rsp th rp rs log rets)
           (mkChan (default st (request_router_shm_iter st).1) m req rsp
              (if (request_router_shm_iter st).2 then set_thread t (Returned q) th else th)
              rp rs log rets)
  (** reading the response *)
  | s_read t q r st m req th rp rs log rets :
      th t = Returned q →
      step (mkChan st m req (Some r) th rp rs log rets)
           (mkChan st m req (Some r) (set_thread t (HasRsp q r) th) rp rs log rets)
  (** [wmb(); csp->state = IDLE] *)
  | s_idle t q r st m req rsp th rp rs log rets :
      th t = HasRsp q r →
      step (mkChan st m req rsp th rp rs log rets)
           (mkChan IDLE m req rsp (set_thread t Cleared th) rp rs log (rets ++ [(q, r)]))
  (** [pthread_mutex_unlock] *)
  | s_unlock t st req rsp th rp rs log rets :
      th t = Cleared →
      step (mkChan st (Some t) req rsp th rp rs log rets)
           (mkChan st None req rsp (set_thread t Outside th) rp rs log rets)
  (** the router finds [REQ_DONE], serves the request and writes the response *)
  | r_serve q st m rsp th rs log rets :
      st = REQ_DONE →
      step (mkChan st m (Some q) rsp th Scanning rs log rets)
           (mkChan st m (Some q) (Some (serve rs q).2) th Answered (serve rs q).1
              (log ++ [(q, (serve rs q).2)]) rets)
  (** [wmb(); csp->state = RSP_DONE] *)
  | r_done st m req rsp th rs log rets :
      step (mkChan st m req rsp th Answered rs log rets)
           (mkChan RSP_DONE m req rsp th Scanning rs log rets).

Definition initial (rs : RState) : chan :=
  mkChan IDLE None None None (λ _, Outside) Scanning rs [] [].

(** The sequential specification: one request after another. *)
Fixpoint seq_run (rs : RState) (l : list (Req * Rsp)) (rs' : RState) : Prop :=
  match l with
  | [] => rs' = rs
  | (q, r) :: l => r = (serve rs q).2 ∧ seq_run (serve rs q).1 l rs'
  end.

Lemma seq_run_snoc rs l rs' q :
  seq_run rs l rs' → seq_run rs (l ++ [(q, (serve rs' q).2)]) (serve rs' q).1.
Proof.
  revert rs. induction l as [|[q0 r0] l IH]; intros rs; cbn [seq_run app].
  - intros ->. done.
  - intros [-> Hl]. split; [done|]. by apply IH.
Qed.

Definition in_call (p : phase) : Prop := p ≠ Outside.

(** The call in progress and what the shared words must be for it. *)
Inductive owner_ok : phase → CtrlChannelState → option Req → option Rsp → router_phase →
    list (Req * Rsp) → list (Req * Rsp) → Prop :=
  | ok_locked q req rsp log : owner_ok (Locked q) IDLE req rsp Scanning log log
  | ok_filled q rsp log : owner_ok (Looping q) IDLE (Some q) rsp Scanning log log
  | ok_rung q rsp log : owner_ok (Looping q) REQ_DONE (Some q) rsp Scanning log log
  | ok_answered q r rets :
      owner_ok (Looping q) REQ_DONE (Some q) (Some r) Answered (rets ++ [(q, r)]) rets
  | ok_done q r rets :
      owner_ok (Looping q) RSP_DONE (Some q) (Some r) Scanning (rets ++ [(q, r)]) rets
  | ok_returned q r rets :
      owner_ok (Returned q) RSP_DONE (Some q) (Some r) Scanning (rets ++ [(q, r)]) rets
  | ok_has q r req rsp rets :
      owner_ok (HasRsp q r) RSP_DONE req rsp Scanning (rets ++ [(q, r)]) rets
  | ok_cleared req rsp log : owner_ok Cleared IDLE req rsp Scanning log log.

Record inv (rs0 : RState) (c : chan) : Prop := {
  inv_mutex t : in_call (c_threads c t) ↔ c_mtx c = Some t;
  inv_owner : match c_mtx c with
              | Some t => owner_ok (c_threads c t) (c_state c) (c_req c) (c_rsp c) (c_router c)
                            (c_log c) (c_rets c)
              | None => c_state c = IDLE ∧ c_router c = Scanning ∧ c_log c = c_rets c
              end;
  inv_seq : seq_run rs0 (c_log c) (c_rstate c)
}.

Lemma inv_initial rs : inv rs (initial rs).
Proof. split; cbn; [|done|done]. intros t. split; [by intros []|done]. Qed.

(** The thread that takes a step in a call is the owner. *)
Lemma inv_owner_of rs0 c t :
  inv rs0 c → in_call (c_threads c t) →
  c_mtx c = Some t ∧ owner_ok (c_threads c t) (c_state c) (c_req c) (c_rsp c) (c_router c)
                       (c_log c) (c_rets c).
Proof. intros [Hm Ho _] Hc. apply Hm in Hc. rewrite Hc in Ho. done. Qed.

Lemma mutex_set_thread th m t p :
  (∀ u, in_call (th u) ↔ m = Some u) → m = Some t → in_call p →
  ∀ u, in_call (set_thread t p th u) ↔ m = Some u.
Proof.
  intros Hm Ht Hp u. unfold set_thread. destruct (decide (u = t)) as [->|]; [|apply Hm]. tauto.
Qed.

Lemma set_thread_eq t p th : set_thread t p th t = p.
Proof. unfold set_thread. by rewrite decide_True. Qed.

Lemma inv_step rs0 c c' : inv rs0 c → step c c' → inv rs0 c'.
Proof.
  intros Hinv Hst. pose proof Hinv as [Hm Ho Hs]. destruct Hst; cbn in *.
  - (* lock *)
    destruct Ho as (-> & -> & ->). split; cbn; [|rewrite set_thread_eq; constructor|done].
    intros u. unfold set_thread. destruct (decide (u = t)) as [->|Hne]; [done|].
    rewrite Hm. split; [done|]. intros [= ->]. done.
  - destruct (inv_owner_of _ _ t Hinv) as [Hmt Hot]; [cbn; rewrite H; discriminate|]. cbn in *.
    subst m. rewrite H in Hot. inversion Hot; subst.
    split; cbn; [by apply mutex_set_thread|rewrite set_thread_eq; constructor|done].
  - destruct (inv_owner_of _ _ t Hinv) as [Hmt Hot]; [cbn; rewrite H; discriminate|]. cbn in *.
    subst m. rewrite H in Hot.
    inversion Hot; subst; cbn [request_router_shm_iter fst snd default from_option id];
      (split; cbn; [first [done | by apply mutex_set_thread]| |done]);
      first [rewrite H; constructor | rewrite set_thread_eq; constructor].
  - destruct (inv_owner_of _ _ t Hinv) as [Hmt Hot]; [cbn; rewrite H; discriminate|]. cbn in *.
    subst m. rewrite H in Hot. inversion Hot; subst.
    split; cbn; [by apply mutex_set_thread|rewrite set_thread_eq; constructor|done].
  - destruct (inv_owner_of _ _ t Hinv) as [Hmt Hot]; [cbn; rewrite H; discriminate|]. cbn in *.
    subst m. rewrite H in Hot. inversion Hot; subst.
    split; cbn; [by apply mutex_set_thread|rewrite set_thread_eq; constructor|done].
  - rewrite H in Ho. inversion Ho; subst. split; cbn; [|done|done].
    intros u. unfold set_thread. destruct (decide (u = t)) as [->|Hne]; [by split; [intros []|]|].
    rewrite Hm. split; [|done]. intros [= ->]. done.
  - subst st. destruct m as [t|]; [|by destruct Ho].
    inversion Ho; subst. split; cbn; [done| |by apply seq_run_snoc].
    match goal with E : Looping _ = th t |- _ => rewrite <- E end. constructor.
  - destruct m as [t|]; [|by destruct Ho as (_ & ? & _)].
    inversion Ho; subst. split; cbn; [done| |done].
    match goal with E : Looping _ = th t |- _ => rewrite <- E end. constructor.
Qed.

Inductive reachable (rs : RState) : chan → Prop :=
  | reach_init : reachable rs (initial rs)
  | reach_step c c' : reachable rs c → step c c' → reachable rs c'.

Lemma reachable_inv rs c : reachable rs c → inv rs c.
Proof. induction 1; eauto using inv_initial, inv_step. Qed.

(** C5.  The channel is a sequential remote call for any number of threads: in
    every reachable state at most one thread is inside a call, the answers the
    router has computed are those of a sequential run of [serve], and the calls
    that have returned got, in order, exactly the answers to their own requests;
    at most the call in progress is still missing. *)
Theorem shm_channel_linearizable rs c :
  reachable rs c →
  (∀ t u, in_call (c_threads c t) → in_call (c_threads c u) → t = u) ∧
  seq_run rs (c_log c) (c_rstate c) ∧
  (c_log c = c_rets c ∨ ∃ q r, c_log c = c_rets c ++ [(q, r)]).
Proof.
  intros Hr. apply reachable_inv in Hr as [Hm Ho Hs]. split; [|split; [done|]].
  - intros t u Ht Hu. apply Hm in Ht, Hu. congruence.
  - destruct (c_mtx c); [inversion Ho; eauto|]. left. by destruct Ho as (_ & _ & ?).
Qed.

(** How many steps of its owner and of the router a call is away from its end. *)
Definition remaining (t : nat) (c : chan) : nat :=
  match c_threads c t, c_state c, c_router c with
  | Outside, _, _ => 0
  | Cleared, _, _ => 1
  | HasRsp _ _, _, _ => 2
  | Returned _, _, _ => 3
  | Looping _, RSP_DONE, _ => 4
  | Looping _, REQ_DONE, Answered => 5
  | Looping _, REQ_DONE, Scanning => 6
  | Looping _, IDLE, _ => 7
  | Locked _, _, _ => 8
  end.

(** The owner or the router can always bring the call one step nearer. *)
Lemma owner_advances rs c t :
  reachable rs c → in_call (c_threads c t) →
  ∃ c', step c c' ∧ S (remaining t c') = remaining t c.
Proof.
  intros Hr Ht. apply reachable_inv in Hr as Hinv.
  destruct (inv_owner_of _ _ t Hinv Ht) as [Hmt Hot].
  destruct c as [st m req rsp th rp rs1 log rets]. cbn in *. subst m. unfold remaining at 2; cbn.
  inversion Hot as [q ? ? ? E|q ? ? E|q ? ? E|q r ? E|q r ? E|q r ? E|q r ? ? ? E|? ? ? E]; subst;
    symmetry in E.
  - eexists. split; [by eapply s_fill|]. unfold remaining; cbn. by rewrite set_thread_eq.
  - eexists. split; [by eapply s_iter|]. unfold remaining; cbn. by rewrite E.
  - eexists. split; [by apply r_serve|]. unfold remaining; cbn. by rewrite E.
  - eexists. split; [by apply r_done|]. unfold remaining; cbn. by rewrite E.
  - eexists. split; [by eapply s_iter|]. unfold remaining; cbn. by rewrite set_thread_eq.
  - eexists. split; [by eapply s_read|]. unfold remaining; cbn. by rewrite set_thread_eq.
  - eexists. split; [by eapply s_idle|]. unfold remaining; cbn. by rewrite set_thread_eq.
  - eexists. split; [by eapply s_unlock|]. unfold remaining; cbn. by rewrite set_thread_eq.
Qed.

Lemma call_ends n rs c t :
  reachable rs c → n = remaining t c → ∃ c', nsteps step n c c' ∧ c_threads c' t = Outside.
Proof.
  revert c. induction n as [|n IH]; intros c Hr En.
  - exists c. split; [constructor|]. unfold remaining in En.
    by destruct (c_threads c t), (c_state c), (c_router c).
  - destruct (owner_advances rs c t Hr) as (c1 & Hs & E1).
    { intros E. unfold remaining in En. by rewrite E in En. }
    destruct (IH c1) as (c' & Hss & Ho); [by eapply reach_step|lia|].
    exists c'. split; [by econstructor|done].
Qed.

(** C30.  No deadlock: from every reachable state in which a thread is inside a
    call, at most eight steps of that thread and of the router take it out of the
    call. *)
Theorem shm_channel_progress rs c t :
  reachable rs c → in_call (c_threads c t) →
  ∃ n c', nsteps step n c c' ∧ (0 < n ≤ 8)%nat ∧ c_threads c' t = Outside.
Proof.
  intros Hr Ht. assert (0 < remaining t c ≤ 8)%nat as Hn.
  { unfold remaining. destruct (c_threads c t), (c_state c), (c_router c); try lia; by destruct Ht. }
  destruct (call_ends (remaining t c) rs c t Hr eq_refl) as (c' & Hs & Ho). eauto.
Qed.
End Channel.
Arguments chan Req Rsp RState : clear implicits.
Arguments phase Req Rsp : clear implicits.

(** [request_router_shm] returns at the first moment it observes [RSP_DONE],
    and only then: with any number of other observations before it the loop ends
    within that many iterations and one; if the router never answers (for
    instance because it found no queue for the handle) no number is enough. *)
Theorem request_router_shm_returns observe t :
  (∀ d fuel, observe (t + d)%nat = RSP_DONE → (∀ e, (e < d)%nat → observe (t + e)%nat ≠ RSP_DONE) →
    (d < fuel)%nat → ∃ l, request_router_shm fuel observe t = Ok ((t + d)%nat, l)) ∧
  ((∀ e, observe (t + e)%nat ≠ RSP_DONE) → ∀ fuel, request_router_shm fuel observe t = OutOfFuel).
Proof.
  split.
  - intros d. revert t. induction d as [|d IH]; intros t fuel Hd Hb Hf;
      (destruct fuel as [|fuel]; [lia|]); cbn [request_router_shm].
    + rewrite Nat.add_0_r in *. rewrite Hd. eexists. reflexivity.
    + destruct (IH (S t) fuel) as [l Hl].
      * rewrite <- Hd. f_equal. lia.
      * intros e He. specialize (Hb (S e)). rewrite Nat.add_succ_r in Hb. apply Hb. lia.
      * lia.
      * specialize (Hb 0%nat ltac:(lia)). rewrite Nat.add_0_r in Hb. rewrite Nat.add_succ_r.
        destruct (observe t); cbn [request_router_shm_iter]; [| |done]; rewrite Hl; cbn [rbind]; eauto.
  - intros Hn fuel. revert t Hn. induction fuel as [|fuel IH]; intros t Hn; [done|].
    assert (request_router_shm fuel observe (S t) = OutOfFuel) as E.
    { apply IH. intros e. specialize (Hn (S e)). by rewrite Nat.add_succ_r in Hn. }
    specialize (Hn 0%nat). rewrite Nat.add_0_r in Hn. cbn [request_router_shm].
    destruct (observe t); cbn [request_router_shm_iter]; [by rewrite E|by rewrite E|done].
Qed.

(** ** A run *)

Definition demo_serve (s q : Z) : Z * Z := (s + 1, q + s).

(** Extends a run by the step [s]. *)
Ltac do_step H s :=
  eapply reach_step in H; [|eapply s; reflexivity]; cbn [request_router_shm_iter fst snd default from_option id] in H.

Lemma demo_reachable :
  ∃ c : chan Z Z Z, reachable demo_serve 10 c ∧ c_rets c = [(5, 15)] ∧ c_log c = [(5, 15); (6, 17)] ∧
    c_threads c 3%nat = Looping 6.
Proof.
  pose proof (reach_init demo_serve 10) as H. unfold initial in H.
  do_step H (s_lock demo_serve 0%nat 5). do_step H (s_fill demo_serve 0%nat 5).
  do_step H (s_iter demo_serve 0%nat 5). do_step H (r_serve demo_serve 5).
  do_step H (r_done demo_serve). do_step H (s_iter demo_serve 0%nat 5).
  do_step H (s_read demo_serve 0%nat 5). do_step H (s_idle demo_serve 0%nat 5 15).
  do_step H (s_unlock demo_serve 0%nat). do_step H (s_lock demo_serve 3%nat 6).
  do_step H (s_fill demo_serve 3%nat 6). do_step H (s_iter demo_serve 3%nat 6).
  do_step H (r_serve demo_serve 6).
  eexists. split; [exact H|]. done.
Qed.

(** The theorems at that state: a second thread is waiting for its answer. *)
Lemma shm_channel_linearizable_witness :
  ∃ c : chan Z Z Z, c_rets c = [(5, 15)] ∧
    (∀ t u, in_call (c_threads c t) → in_call (c_threads c u) → t = u) ∧
    seq_run demo_serve 10 (c_log c) (c_rstate c) ∧
    (c_log c = c_rets c ∨ ∃ q r, c_log c = c_rets c ++ [(q, r)]).
Proof.
  destruct demo_reachable as (c & Hr & Hrets & _ & _). exists c. split; [exact Hrets|].
  exact (shm_channel_linearizable demo_serve 10 c Hr).
Defined.

Lemma shm_channel_progress_witness :
  ∃ (c c' : chan Z Z Z) n, c_threads c 3%nat = Looping 6 ∧ nsteps (step demo_serve) n c c' ∧
    c_threads c' 3%nat = Outside.
Proof.
  destruct demo_reachable as (c & Hr & _ & _ & Ht).
  destruct (shm_channel_progress demo_serve 10 c 3%nat Hr) as (n & c' & Hs & _ & Ho).
  - rewrite Ht. discriminate.
  - exists c, c', n. split; [exact Ht|]. split; [exact Hs|exact Ho].
Defined.
