(* ===== verification/Control.v ===== *)
(** * The control path: creating and destroying verbs objects

    The client half is [libibverbs/src/cmd.c] and [cmd_exp.c]: one function per
    verb, each a remote call followed by the set-up of the queue's shared-memory
    channel and receive ring.  The router half is the [switch] of [HandleRequest] in
    [ffrouter/ffrouter.cpp], which executes the verb on the host's device and keeps
    the tables from handles to host objects.  The host's verbs library is a
    parameter (class [HostVerbs]).  Objects of shared memory have names and
    identities, so that two processes opening one name share one channel. *)

From stdpp Require Import pretty.
From S2P Require Import Prelude FfTypes WrQueue Completion.

(** ** Data *)

Inductive qkind := CQ | QP | SRQ.

#[export] Instance qkind_eq_dec : EqDecision qkind.
Proof. solve_decision. Defined.

(** An object of the host's library: its address and its handle. *)
Record hobj := mkObj { o_ptr : Z; o_handle : Z }.

Record qp_cap := mkCap {
  max_send_wr : Z; max_recv_wr : Z; max_send_sge : Z; max_recv_sge : Z; max_inline_data : Z
}.

(** [struct ibv_qp_init_attr] over what names the other objects: handles in the
    client, host objects (or NULL) in the router. *)
Record qp_init (O S : Type) := mkInit {
  i_type : Z; i_sig_all : Z; i_send_cq : O; i_recv_cq : O; i_srq : S; i_cap : qp_cap
}.
Arguments mkInit {O S} _ _ _ _ _ _.
Arguments i_type {O S} _.
Arguments i_sig_all {O S} _.
Arguments i_send_cq {O S} _.
Arguments i_recv_cq {O S} _.
Arguments i_srq {O S} _.
Arguments i_cap {O S} _.

(** Requests, indexed by the response the router gives. *)
Inductive ctl_req : Type → Type :=
  | GetContext : ctl_req (Z * Z)
  | QueryDev : ctl_req (list Z)
  | QueryPort (port_num : Z) : ctl_req (list Z)
  | AllocPd : ctl_req Z
  | DeallocPd (pd_handle : Z) : ctl_req Z
  | CreateCq (channel_fd comp_vector cqe : Z) : ctl_req (Z * Z * string)
  | DestroyCq (cq_handle : Z) : ctl_req Z
  | ReqNotifyCq (cq_handle solicited_only : Z) : ctl_req Z
  | CreateSrq (pd_handle : Z) (attr : list Z) : ctl_req (Z * string)
  | ModifySrq (srq_handle : Z) (attr : list Z) (mask : Z) : ctl_req Z
  | DestroySrq (srq_handle : Z) : ctl_req Z
  | CreateQp (pd_handle : Z) (attr : qp_init Z Z) : ctl_req (Z * Z * qp_cap * string)
  | ModifyQp (handle : Z) (attr : list Z) (mask : Z) : ctl_req (Z * Z)
  | DestroyQp (qp_handle : Z) : ctl_req Z
  | CreateAh (pd_handle : Z) (attr : list Z) : ctl_req (Z * Z)
  | DestroyAh (ah_handle : Z) : ctl_req Z.

(** The host's verbs library.  A creation returns NULL or a new object.  [h_rate_env]
    is the value of the router's environment variable [RATE_LIMIT_<client>]. *)
Class HostVerbs (H : Type) := {
  h_context : H → Z * Z;
  h_dev_attr : H → list Z;
  h_query_port : Z → H → list Z;
  h_alloc_pd : H → option hobj * H;
  h_dealloc_pd : hobj → H → Z * H;
  h_create_cq : Z → option hobj → Z → H → option (hobj * Z) * H;
  h_notify_cq : hobj → Z → H → Z * H;
  h_create_srq : hobj → list Z → H → option hobj * H;
  h_modify_srq : hobj → list Z → Z → H → Z * H;
  h_create_qp : option hobj → qp_init (option hobj) (option hobj) → H →
                option (hobj * Z * qp_cap) * H;
  h_modify_qp : option hobj → list Z → Z → H → Z * H;
  h_destroy : qkind → hobj → H → Z * H;
  h_create_ah : hobj → list Z → H → option hobj * H;
  h_destroy_ah : hobj → H → Z * H;
  h_rate_env : Z → H → option Z
}.

(** ** POSIX shared memory: names to objects, and the state word of each object *)
Record shm_fs := mkFs { fs_names : gmap string Z; fs_next : Z; fs_state : gmap Z CtrlChannelState }.

(** [shm_open] with [O_CREAT], [ftruncate] and [mmap]; a new object is zero-filled,
    and the zero of the state word is [IDLE]. *)
Definition shm_open (name : string) (fs : shm_fs) : Z * shm_fs :=
  match fs_names fs !! name with
  | Some id => (id, fs)
  | None => (fs_next fs, mkFs (<[name := fs_next fs]> (fs_names fs)) (fs_next fs + 1)
                              (<[fs_next fs := IDLE]> (fs_state fs)))
  end.

Definition shm_unlink (name : string) (fs : shm_fs) : shm_fs :=
  mkFs (delete name (fs_names fs)) (fs_next fs) (fs_state fs).

(** ** The router's tables *)
Definition set_k {A} (k : qkind) (v : A) (f : qkind → A) : qkind → A :=
  λ j, if decide (j = k) then v else f j.

Record ffr := mkFfr {
  pd_map : gmap Z hobj;
  ah_map : gmap Z hobj;
  channel_map : gmap Z hobj;
  q_map : qkind → gmap Z hobj;
  q_shm_map : qkind → gmap Z (string * Z);
  q_shm_vec : qkind → list Z;
  tokenbucket : gmap Z (Z * Z)
}.

Record world (H : Type) := mkWorld { w_ffr : ffr; w_fs : shm_fs; w_host : H }.
Arguments mkWorld {H} _ _ _.
Arguments w_ffr {H} _.
Arguments w_fs {H} _.
Arguments w_host {H} _.

Definition set_pds (m : gmap Z hobj) (r : ffr) : ffr :=
  mkFfr m (ah_map r) (channel_map r) (q_map r) (q_shm_map r) (q_shm_vec r) (tokenbucket r).
Definition set_ahs (m : gmap Z hobj) (r : ffr) : ffr :=
  mkFfr (pd_map r) m (channel_map r) (q_map r) (q_shm_map r) (q_shm_vec r) (tokenbucket r).
Definition set_qs (k : qkind) (m : gmap Z hobj) (r : ffr) : ffr :=
  mkFfr (pd_map r) (ah_map r) (channel_map r) (set_k k m (q_map r)) (q_shm_map r) (q_shm_vec r) (tokenbucket r).
Definition set_chans (k : qkind) (m : gmap Z (string * Z)) (v : list Z) (r : ffr) : ffr :=
  mkFfr (pd_map r) (ah_map r) (channel_map r) (q_map r) (set_k k m (q_shm_map r))
        (set_k k v (q_shm_vec r)) (tokenbucket r).

Definition set_buckets (m : gmap Z (Z * Z)) (r : ffr) : ffr :=
  mkFfr (pd_map r) (ah_map r) (channel_map r) (q_map r) (q_shm_map r) (q_shm_vec r) m.

(** An element of one of the router's arrays; [None] is NULL. *)
Definition entry {A} (m : gmap Z A) (h : Z) : res (option A) :=
  do* in_bounds "router table" h MAP_SIZE; Ok (m !! h).

(** A new object goes into its table unless its handle is too large. *)
Definition enter (o : hobj) (m : gmap Z hobj) : gmap Z hobj :=
  if Z.leb MAP_SIZE (o_handle o) then m else <[o_handle o := o]> m.

Definition tag (k : qkind) : string :=
  match k with CQ => "cq" | QP => "qp" | SRQ => "srq" end.

Definition ctrl_name (k : qkind) (h : Z) : string := "ctrlshm-" +:+ (tag k +:+ pretty h).

(** [initCtrlShm]: the channel of a queue, created or re-opened, with its state reset. *)
Definition initCtrlShm (k : qkind) (h : Z) (fs : shm_fs) : string * Z * shm_fs :=
  let '(id, fs) := shm_open (ctrl_name k h) fs in
  (ctrl_name k h, id, mkFs (fs_names fs) (fs_next fs) (<[id := IDLE]> (fs_state fs))).

(** [std::find] and [erase]: the first occurrence goes. *)
Fixpoint erase (h : Z) (l : list Z) : list Z :=
  match l with
  | [] => []
  | x :: l => if Z.eqb x h then l else x :: erase h l
  end.

(** [tokenbucket.h]: the constructor of a rate limiter, the time of one token
    and of a burst. *)
Definition MAX_QP_RATE_LIMIT : Z := 5000000000.
Definition BURST_PER_QP : Z := 4000000.

Definition TokenBucket (rate burstSize : Z) : res (Z * Z) :=
  if Z.eqb rate 0 then UB "division by zero"
  else Ok (5000000000 / rate, u64 (burstSize * (5000000000 / rate))).

Section Router.
Context {H : Type} `{!HostVerbs H}.

(** The end of the three creation handlers: table, channel and scan list. *)
Definition register (k : qkind) (o : hobj) (w : world H) : res (string * world H) :=
  let h := o_handle o in
  let r := set_qs k (enter o (q_map (w_ffr w) k)) (w_ffr w) in
  let '(name, id, fs) := initCtrlShm k h (w_fs w) in
  do* in_bounds "shm_map" h MAP_SIZE;
  Ok (name, mkWorld (set_chans k (<[h := (name, id)]> (q_shm_map r k)) (q_shm_vec r k ++ [h]) r)
                    fs (w_host w)).

(** The three destruction handlers; [None] is [goto end]: nothing is sent back. *)
Definition unregister (k : qkind) (h : Z) (w : world H) : res (option Z * world H) :=
  let r := w_ffr w in
  let* q := entry (q_map r k) h in
  match q with
  | None => Ok (None, w)
  | Some o =>
      let r := set_qs k (delete h (q_map r k)) r in
      let '(ret, host) := h_destroy k o (w_host w) in
      let fs := match q_shm_map r k !! h with
                | Some (name, _) => shm_unlink name (w_fs w)
                | None => w_fs w
                end in
      Ok (Some ret, mkWorld (set_chans k (delete h (q_shm_map r k)) (erase h (q_shm_vec r k)) r) fs host)
  end.

Definition with_host (w : world H) (h : H) : world H := mkWorld (w_ffr w) (w_fs w) h.

(** The rate limiter of a new queue pair. *)
Definition limit_rate (cid : Z) (o : hobj) (w : world H) : res (world H) :=
  if Z.leb MAP_SIZE (o_handle o) then Ok w
  else
    let* b := TokenBucket (match h_rate_env cid (w_host w) with
                           | None => MAX_QP_RATE_LIMIT
                           | Some limit => limit / 8
                           end) BURST_PER_QP in
    Ok (mkWorld (set_buckets (<[o_handle o := b]> (tokenbucket (w_ffr w))) (w_ffr w)) (w_fs w) (w_host w)).

(** The handlers of [HandleRequest], one per request; [None] is [goto end], after
    which nothing is sent back. *)
Definition handle_alloc_pd (w : world H) : res (option Z * world H) :=
  let '(o, host) := h_alloc_pd (w_host w) in
  let* o := deref "pd->handle" o in
  Ok (Some (o_handle o),
      mkWorld (set_pds (enter o (pd_map (w_ffr w))) (w_ffr w)) (w_fs w) host).

Definition handle_dealloc_pd (h : Z) (w : world H) : res (option Z * world H) :=
  let* pd := entry (pd_map (w_ffr w)) h in
  match pd with
  | None => Ok (None, w)
  | Some o =>
      let '(ret, host) := h_dealloc_pd o (w_host w) in
      Ok (Some ret, mkWorld (set_pds (delete h (pd_map (w_ffr w))) (w_ffr w)) (w_fs w) host)
  end.

Definition handle_create_cq (fd vec cqe : Z) (w : world H) : res (option (Z * Z * string) * world H) :=
  let* channel := (if Z.ltb fd 0 then Ok (Some None)
                   else let* c := entry (channel_map (w_ffr w)) fd in Ok (Some <$> c)) in
  match channel with
  | None => Ok (None, w)
  | Some channel =>
      let '(o, host) := h_create_cq cqe channel vec (w_host w) in
      let* (o, cqe) := deref "cq->handle" o in
      let* (name, w) := register CQ o (with_host w host) in
      Ok (Some (cqe, o_handle o, name), w)
  end.

Definition handle_req_notify_cq (h solicited : Z) (w : world H) : res (option Z * world H) :=
  let* cq := entry (q_map (w_ffr w) CQ) h in
  match cq with
  | None => Ok (None, w)
  | Some o => let '(ret, host) := h_notify_cq o solicited (w_host w) in
              Ok (Some ret, with_host w host)
  end.

Definition handle_create_srq (pdh : Z) (attr : list Z) (w : world H) : res (option (Z * string) * world H) :=
  let* pd := entry (pd_map (w_ffr w)) pdh in
  match pd with
  | None => Ok (None, w)
  | Some pd =>
      let '(o, host) := h_create_srq pd attr (w_host w) in
      let* o := deref "srq->handle" o in
      let* (name, w) := register SRQ o (with_host w host) in
      Ok (Some (o_handle o, name), w)
  end.

Definition handle_modify_srq (h : Z) (attr : list Z) (mask : Z) (w : world H) : res (option Z * world H) :=
  let* srq := entry (q_map (w_ffr w) SRQ) h in
  match srq with
  | None => Ok (None, w)
  | Some o => let '(ret, host) := h_modify_srq o attr mask (w_host w) in
              Ok (Some ret, with_host w host)
  end.

(** [cid] is the client of the request's header. *)
Definition handle_create_qp (cid pdh : Z) (a : qp_init Z Z) (w : world H) :
    res (option (Z * Z * qp_cap * string) * world H) :=
  let* srq := entry (q_map (w_ffr w) SRQ) (i_srq a) in
  let* scq := entry (q_map (w_ffr w) CQ) (i_send_cq a) in
  let* rcq := entry (q_map (w_ffr w) CQ) (i_recv_cq a) in
  let* pd := entry (pd_map (w_ffr w)) pdh in
  let '(o, host) := h_create_qp pd (mkInit (i_type a) (i_sig_all a) scq rcq srq (i_cap a)) (w_host w) in
  match o with
  | None => Ok (None, with_host w host)
  | Some (o, num, cap) =>
      let* w := limit_rate cid o (with_host w host) in
      let* (name, w) := register QP o w in
      Ok (Some (num, o_handle o, cap, name), w)
  end.

Definition handle_modify_qp (h : Z) (attr : list Z) (mask : Z) (w : world H) : res (option (Z * Z) * world H) :=
  if Z.leb MAP_SIZE h then UB "qp->handle of NULL"
  else
    let* qp := entry (q_map (w_ffr w) QP) h in
    let '(ret, host) := h_modify_qp qp attr mask (w_host w) in
    Ok (Some (ret, h), with_host w host).

Definition handle_create_ah (pdh : Z) (attr : list Z) (w : world H) : res (option (Z * Z) * world H) :=
  let* pd := entry (pd_map (w_ffr w)) pdh in
  match pd with
  | None => Ok (None, w)
  | Some pd =>
      let '(o, host) := h_create_ah pd attr (w_host w) in
      let* o := deref "ah->handle" o in
      Ok (Some (o_handle o, 0),
          mkWorld (set_ahs (enter o (ah_map (w_ffr w))) (w_ffr w)) (w_fs w) host)
  end.

Definition handle_destroy_ah (h : Z) (w : world H) : res (option Z * world H) :=
  let* ah := entry (ah_map (w_ffr w)) h in
  match ah with
  | None => Ok (None, w)
  | Some o => let '(ret, host) := h_destroy_ah o (w_host w) in
              Ok (Some ret, with_host w host)
  end.

(** The [switch] over the request's function. *)
Definition handle {R} (cid : Z) (q : ctl_req R) : world H → res (option R * world H) :=
  match q in ctl_req R return world H → res (option R * world H) with
  | GetContext => λ w, Ok (Some (h_context (w_host w)), w)
  | QueryDev => λ w, Ok (Some (h_dev_attr (w_host w)), w)
  | QueryPort n => λ w, Ok (Some (h_query_port n (w_host w)), w)
  | AllocPd => handle_alloc_pd
  | DeallocPd h => handle_dealloc_pd h
  | CreateCq fd vec cqe => handle_create_cq fd vec cqe
  | DestroyCq h => unregister CQ h
  | ReqNotifyCq h solicited => handle_req_notify_cq h solicited
  | CreateSrq pdh attr => handle_create_srq pdh attr
  | ModifySrq h attr mask => handle_modify_srq h attr mask
  | DestroySrq h => unregister SRQ h
  | CreateQp pdh a => handle_create_qp cid pdh a
  | ModifyQp h attr mask => handle_modify_qp h attr mask
  | DestroyQp h => unregister QP h
  | CreateAh pdh attr => handle_create_ah pdh attr
  | DestroyAh h => handle_destroy_ah h
  end.

(** The remote call: the client waits for a response, so a request the router
    does not answer blocks it. *)
Definition call {R} (cid : Z) (q : ctl_req R) (w : world H) : res (R * world H) :=
  let* (r, w) := handle cid q w in
  match r with
  | Some r => Ok (r, w)
  | None => Blocked
  end.
End Router.

(** ** The client *)
Record verbs := mkVerbs {
  v_cid : Z;
  v_shm : qkind → gmap Z Z;
  v_cq_ring : gmap Z wr_queue;
  v_srq_ring : gmap Z wr_queue;
  v_cq_srq : gmap Z Z;
  v_channels : gmap Z Z
}.

Definition set_shm (k : qkind) (m : gmap Z Z) (v : verbs) : verbs :=
  mkVerbs (v_cid v) (set_k k m (v_shm v)) (v_cq_ring v) (v_srq_ring v) (v_cq_srq v) (v_channels v).
Definition set_cq_ring (m : gmap Z wr_queue) (v : verbs) : verbs :=
  mkVerbs (v_cid v) (v_shm v) m (v_srq_ring v) (v_cq_srq v) (v_channels v).
Definition set_srq_ring (m : gmap Z wr_queue) (v : verbs) : verbs :=
  mkVerbs (v_cid v) (v_shm v) (v_cq_ring v) m (v_cq_srq v) (v_channels v).
Definition set_cq_srq (m : gmap Z Z) (v : verbs) : verbs :=
  mkVerbs (v_cid v) (v_shm v) (v_cq_ring v) (v_srq_ring v) m (v_channels v).

Section Client.
Context {H : Type} `{!HostVerbs H}.
Implicit Types (v : verbs) (w : world H).

(** [shm_open] and [mmap] of the name in the response. *)
Definition open_channel (k : qkind) (h : Z) (name : string) v w : res (verbs * world H) :=
  let '(id, fs) := shm_open name (w_fs w) in
  do* in_bounds "client shm_map" h MAP_SIZE;
  Ok (set_shm k (<[h := id]> (v_shm v k)) v, mkWorld (w_ffr w) fs (w_host w)).

Definition ibv_cmd_get_context v w : res (Z * Z * world H) := call (v_cid v) GetContext w.
Definition ibv_cmd_query_device v w : res (list Z * world H) := call (v_cid v) QueryDev w.
Definition ibv_cmd_query_port (port_num : Z) v w : res (list Z * world H) :=
  call (v_cid v) (QueryPort port_num) w.
Definition ibv_cmd_alloc_pd v w : res (Z * world H) := call (v_cid v) AllocPd w.
Definition ibv_cmd_dealloc_pd (pd : Z) v w : res (Z * world H) := call (v_cid v) (DeallocPd pd) w.

(** The handle and the number of entries of the new queue. *)
Definition ibv_cmd_create_cq (cqe : Z) (channel : option Z) (comp_vector : Z) v w :
    res (Z * Z * verbs * world H) :=
  let* fd := (match channel with
              | Some fd => do* in_bounds "comp_channel_map" fd MAP_SIZE;
                           deref "comp_channel_map" (v_channels v !! fd)
              | None => Ok (-1)
              end) in
  let* (cqe, h, name, w) := call (v_cid v) (CreateCq fd comp_vector cqe) w in
  let* (v, w) := open_channel CQ h name v w in
  Ok (h, cqe, set_cq_ring (<[h := new_queue]> (v_cq_ring v)) v, w).

Definition ibv_cmd_req_notify_cq (cq solicited_only : Z) v w : res (Z * world H) :=
  call (v_cid v) (ReqNotifyCq cq solicited_only) w.
Definition ibv_cmd_destroy_cq (cq : Z) v w : res (Z * world H) := call (v_cid v) (DestroyCq cq) w.

Definition ibv_cmd_create_srq (pd : Z) (attr : list Z) v w : res (Z * verbs * world H) :=
  let* (h, name, w) := call (v_cid v) (CreateSrq pd attr) w in
  let* (v, w) := open_channel SRQ h name v w in
  Ok (h, set_srq_ring (<[h := new_queue]> (v_srq_ring v)) v, w).

Definition ibv_cmd_modify_srq (srq : Z) (attr : list Z) (mask : Z) v w : res (Z * world H) :=
  call (v_cid v) (ModifySrq srq attr mask) w.
Definition ibv_cmd_destroy_srq (srq : Z) v w : res (Z * world H) := call (v_cid v) (DestroySrq srq) w.

(** The request of both [create_qp] functions: a missing SRQ is sent as handle 0. *)
Definition qp_request (a : qp_init Z (option Z)) : qp_init Z Z :=
  mkInit (i_type a) (i_sig_all a) (i_send_cq a) (i_recv_cq a) (default 0 (i_srq a)) (i_cap a).

(** [ibv_exp_cmd_create_qp], the one the provider calls: number, handle and
    capabilities of the new queue pair. *)
Definition ibv_exp_cmd_create_qp (abi_ver pd : Z) (a : qp_init Z (option Z)) v w :
    res (Z * Z * qp_cap * verbs * world H) :=
  let* (num, h, cap, name, w) := call (v_cid v) (CreateQp pd (qp_request a)) w in
  let cap := if Z.ltb 3 abi_ver then cap else i_cap a in
  let* v := (match i_srq a with
             | Some s => do* in_bounds "map_cq_to_srq" (i_recv_cq a) MAP_SIZE;
                         Ok (set_cq_srq (<[i_recv_cq a := s]> (v_cq_srq v)) v)
             | None => Ok v
             end) in
  let* (v, w) := open_channel QP h name v w in
  Ok (num, h, cap, v, w).

(** [ibv_cmd_create_qp]: the SRQ and the receive queue are read from the queue pair
    under construction, [qp_srq] and [qp_recv_cq], not from the attributes. *)
Definition ibv_cmd_create_qp (abi_ver pd : Z) (a : qp_init Z (option Z)) (qp_srq qp_recv_cq : option Z) v w :
    res (Z * Z * qp_cap * verbs * world H) :=
  let* (num, h, cap, name, w) := call (v_cid v) (CreateQp pd (qp_request a)) w in
  let cap := if Z.ltb 3 abi_ver then cap else i_cap a in
  let cap := mkCap (max_send_wr cap) (max_recv_wr cap) (max_send_sge cap) (max_recv_sge cap) 0 in
  let* rcq := deref "qp->recv_cq->handle" qp_recv_cq in
  do* in_bounds "map_cq_to_srq" rcq MAP_SIZE;
  let v := set_cq_srq (<[rcq := default (MAP_SIZE + 1) qp_srq]> (v_cq_srq v)) v in
  let* (v, w) := open_channel QP h name v w in
  Ok (num, h, cap, v, w).

(** [ibv_cmd_modify_qp]: the result and the new state of the client's queue pair. *)
Definition IBV_QP_STATE : Z := 1.

Definition ibv_cmd_modify_qp (qp : Z) (attr : list Z) (qp_state mask state : Z) v w :
    res (Z * Z * world H) :=
  let* (ret, _, w) := call (v_cid v) (ModifyQp qp attr mask) w in
  Ok (ret, if negb (Z.eqb (Z.land mask IBV_QP_STATE) 0) then qp_state else state, w).

Definition ibv_cmd_destroy_qp (qp : Z) v w : res (Z * world H) := call (v_cid v) (DestroyQp qp) w.
Definition ibv_cmd_create_ah (pd : Z) (attr : list Z) v w : res (Z * Z * world H) :=
  call (v_cid v) (CreateAh pd attr) w.
Definition ibv_cmd_destroy_ah (ah : Z) v w : res (Z * world H) := call (v_cid v) (DestroyAh ah) w.

(** ** Any verb *)
Inductive verb :=
  | VGetContext | VQueryDevice | VQueryPort (n : Z)
  | VAllocPd | VDeallocPd (pd : Z)
  | VCreateCq (cqe : Z) (channel : option Z) (vec : Z) | VNotifyCq (cq s : Z)
  | VCreateSrq (pd : Z) (attr : list Z) | VModifySrq (srq : Z) (attr : list Z) (mask : Z)
  | VCreateQp (abi pd : Z) (a : qp_init Z (option Z))
  | VModifyQp (qp : Z) (attr : list Z) (st mask cur : Z)
  | VDestroy (k : qkind) (h : Z)
  | VCreateAh (pd : Z) (attr : list Z) | VDestroyAh (ah : Z).

Definition destroy (k : qkind) : Z → verbs → world H → res (Z * world H) :=
  match k with CQ => ibv_cmd_destroy_cq | QP => ibv_cmd_destroy_qp | SRQ => ibv_cmd_destroy_srq end.

(** One verb of one client: what it creates, its tables, and the world. *)
Definition exec (b : verb) v w : res (option (qkind * Z) * verbs * world H) :=
  match b with
  | VGetContext => let* (_, w) := ibv_cmd_get_context v w in Ok (None, v, w)
  | VQueryDevice => let* (_, w) := ibv_cmd_query_device v w in Ok (None, v, w)
  | VQueryPort n => let* (_, w) := ibv_cmd_query_port n v w in Ok (None, v, w)
  | VAllocPd => let* (_, w) := ibv_cmd_alloc_pd v w in Ok (None, v, w)
  | VDeallocPd pd => let* (_, w) := ibv_cmd_dealloc_pd pd v w in Ok (None, v, w)
  | VCreateCq cqe c vec => let* (h, _, v, w) := ibv_cmd_create_cq cqe c vec v w in Ok (Some (CQ, h), v, w)
  | VNotifyCq cq s => let* (_, w) := ibv_cmd_req_notify_cq cq s v w in Ok (None, v, w)
  | VCreateSrq pd a => let* (h, v, w) := ibv_cmd_create_srq pd a v w in Ok (Some (SRQ, h), v, w)
  | VModifySrq s a m => let* (_, w) := ibv_cmd_modify_srq s a m v w in Ok (None, v, w)
  | VCreateQp abi pd a =>
      let* (_, h, _, v, w) := ibv_exp_cmd_create_qp abi pd a v w in Ok (Some (QP, h), v, w)
  | VModifyQp qp a st m cur => let* (_, _, w) := ibv_cmd_modify_qp qp a st m cur v w in Ok (None, v, w)
  | VDestroy k h => let* (_, w) := destroy k h v w in Ok (None, v, w)
  | VCreateAh pd a => let* (_, w) := ibv_cmd_create_ah pd a v w in Ok (None, v, w)
  | VDestroyAh ah => let* (_, w) := ibv_cmd_destroy_ah ah v w in Ok (None, v, w)
  end.
End Client.

(** ** Invariant of the whole system

    What the code relies on in the host's library: the handle of a live object is
    not given to another one. *)
Class HostLaws (H : Type) `{!HostVerbs H} := {
  h_live : H → qkind → gset Z;
  law_cq cqe c vec s r s' : h_create_cq cqe c vec s = (r, s') →
    (∀ k, h_live s k ⊆ h_live s' k) ∧
    (∀ o n, r = Some (o, n) → (o_handle o ∉ h_live s CQ) ∧ o_handle o ∈ h_live s' CQ);
  law_srq pd a s r s' : h_create_srq pd a s = (r, s') →
    (∀ k, h_live s k ⊆ h_live s' k) ∧
    (∀ o, r = Some o → (o_handle o ∉ h_live s SRQ) ∧ o_handle o ∈ h_live s' SRQ);
  law_qp pd a s r s' : h_create_qp pd a s = (r, s') →
    (∀ k, h_live s k ⊆ h_live s' k) ∧
    (∀ o n c, r = Some (o, n, c) → (o_handle o ∉ h_live s QP) ∧ o_handle o ∈ h_live s' QP);
  law_destroy k o s r s' : h_destroy k o s = (r, s') →
    ∀ j h, h ∈ h_live s j → (j, h) ≠ (k, o_handle o) → h ∈ h_live s' j;
  law_alloc_pd s r s' : h_alloc_pd s = (r, s') → ∀ k, h_live s k ⊆ h_live s' k;
  law_dealloc_pd o s r s' : h_dealloc_pd o s = (r, s') → ∀ k, h_live s k ⊆ h_live s' k;
  law_notify o x s r s' : h_notify_cq o x s = (r, s') → ∀ k, h_live s k ⊆ h_live s' k;
  law_modify_srq o a m s r s' : h_modify_srq o a m s = (r, s') → ∀ k, h_live s k ⊆ h_live s' k;
  law_modify_qp o a m s r s' : h_modify_qp o a m s = (r, s') → ∀ k, h_live s k ⊆ h_live s' k;
  law_create_ah o a s r s' : h_create_ah o a s = (r, s') → ∀ k, h_live s k ⊆ h_live s' k;
  law_destroy_ah o s r s' : h_destroy_ah o s = (r, s') → ∀ k, h_live s k ⊆ h_live s' k
}.

Lemma set_k_eq {A} k (x : A) f : set_k k x f k = x.
Proof. unfold set_k. by rewrite decide_True. Qed.
Lemma set_k_ne {A} k j (x : A) f : j ≠ k → set_k k x f j = f j.
Proof. intros. unfold set_k. by rewrite decide_False. Qed.

#[export] Hint Rewrite @set_k_eq : ff.

(** Different queues have channels of different names. *)
Lemma ctrl_name_inj k h k' h' : ctrl_name k h = ctrl_name k' h' → k = k' ∧ h = h'.
Proof.
  unfold ctrl_name. intros E. destruct k, k'; cbn in E; try discriminate E; (split; [done|]);
    injection E as E; by apply (inj pretty).
Qed.

Lemma elem_of_erase x h l : NoDup l → x ∈ erase h l ↔ x ∈ l ∧ x ≠ h.
Proof.
  induction 1 as [|y l Hy Hl IH]; cbn [erase]; [set_solver|].
  destruct (Z.eqb_spec y h) as [->|Hne]; [|set_solver].
  split; [|set_solver]. intros Hx. split; [set_solver|]. by intros ->.
Qed.

Lemma NoDup_erase h l : NoDup l → NoDup (erase h l).
Proof.
  induction 1 as [|y l Hy Hl IH]; cbn [erase]; [constructor|].
  destruct (Z.eqb y h); [done|]. constructor; [|done]. rewrite elem_of_erase by done. tauto.
Qed.

Ltac open_handle H :=
  cbn [handle] in H;
  unfold handle_alloc_pd, handle_dealloc_pd, handle_create_cq, handle_req_notify_cq, handle_create_srq,
    handle_modify_srq, handle_create_qp, handle_modify_qp, handle_create_ah, handle_destroy_ah in H.

Section Invariant.
Context {H : Type} `{!HostVerbs H, !HostLaws H}.
Implicit Types (v : verbs) (w : world H).

Abbreviation qmap w := (q_map (w_ffr w)).
Abbreviation qshm w := (q_shm_map (w_ffr w)).
Abbreviation qvec w := (q_shm_vec (w_ffr w)).
Abbreviation names w := (fs_names (w_fs w)).

(** The router's tables agree with one another, with the host and with the names
    of shared memory. *)
Record router_ok w : Prop := {
  ok_obj k h o : qmap w k !! h = Some o →
    o_handle o = h ∧ h ∈ h_live (w_host w) k ∧ 0 ≤ h < MAP_SIZE;
  ok_nodup k : NoDup (qvec w k);
  ok_vec k h : h ∈ qvec w k ↔ is_Some (qmap w k !! h);
  ok_shm k h : match qmap w k !! h with
               | Some _ => ∃ id, qshm w k !! h = Some (ctrl_name k h, id) ∧
                                 names w !! ctrl_name k h = Some id
               | None => names w !! ctrl_name k h = None
               end;
  ok_next n id : names w !! n = Some id → id < fs_next (w_fs w);
  ok_inj n n' id : names w !! n = Some id → names w !! n' = Some id → n = n'
}.

(** The client's half of a queue: the same channel, and a receive ring. *)
Definition linked v k h w : Prop :=
  (∃ id, v_shm v k !! h = Some id ∧ qshm w k !! h = Some (ctrl_name k h, id)) ∧
  match k with
  | CQ => is_Some (v_cq_ring v !! h)
  | SRQ => is_Some (v_srq_ring v !! h)
  | QP => True
  end.

(** What the non-queue verbs leave alone. *)
Definition same_queues w w' : Prop :=
  (∀ k, qmap w' k = qmap w k) ∧ (∀ k, qshm w' k = qshm w k) ∧ (∀ k, qvec w' k = qvec w k) ∧
  w_fs w' = w_fs w ∧ ∀ k, h_live (w_host w) k ⊆ h_live (w_host w') k.

Lemma same_queues_ok w w' : same_queues w w' → router_ok w → router_ok w'.
Proof.
  intros (Hm & Hs & Hv & Hf & Hl) [H1 H2 H3 H4 H5 H6].
  split; intros *; rewrite ?Hm, ?Hs, ?Hv, ?Hf; [|apply H2|apply H3|apply H4|apply H5|apply H6].
  intros Ho. destruct (H1 _ _ _ Ho) as (? & ? & ?). split; [done|]. split; [by apply Hl|done].
Qed.

Lemma same_queues_linked w w' v k h : same_queues w w' → linked v k h w → linked v k h w'.
Proof. intros (_ & Hs & _). unfold linked. by rewrite Hs. Qed.

(** A registration changes nothing for the other queues. *)
Definition others k h w w' : Prop :=
  ∀ j h', (j, h') ≠ (k, h) → qmap w' j !! h' = qmap w j !! h' ∧ qshm w' j !! h' = qshm w j !! h'.

Lemma names_fresh w (id : Z) :
  router_ok w → id = fs_next (w_fs w) → ∀ n, names w !! n ≠ Some id.
Proof. intros Hok -> n E. pose proof (ok_next _ Hok _ _ E). lia. Qed.

Lemma register_ok k o w name w' :
  router_ok w → qmap w k !! o_handle o = None → o_handle o ∈ h_live (w_host w) k →
  register k o w = Ok (name, w') →
  router_ok w' ∧ others k (o_handle o) w w' ∧ name = ctrl_name k (o_handle o) ∧
  qmap w' k !! o_handle o = Some o ∧ 0 ≤ o_handle o < MAP_SIZE ∧
  qshm w' k !! o_handle o = Some (name, fs_next (w_fs w)) ∧ names w' !! name = Some (fs_next (w_fs w)).
Proof.
  intros Hok Hnone Hlive. unfold register, initCtrlShm, shm_open.
  pose proof (ok_shm _ Hok k (o_handle o)) as Hn. rewrite Hnone in Hn. rewrite Hn.
  intros E. apply res_bind_Ok in E as ([] & Hb & E). apply in_bounds_Ok in Hb.
  injection E as <- <-. unfold enter. destruct (Z.leb_spec MAP_SIZE (o_handle o)) as [|_]; [lia|].
  set (h := o_handle o) in *. set (id := fs_next (w_fs w)).
  assert (∀ j h', (j, h') ≠ (k, h) → ctrl_name j h' ≠ ctrl_name k h) as Hname.
  { intros j h' Hne E. by apply ctrl_name_inj in E as [-> ->]. }
  split; [|split; [|split; [done|]]].
  - split; cbn -[ctrl_name].
    + intros j h' o'. destruct (decide ((j, h') = (k, h))) as [[= -> ->]|Hne].
      * rewrite set_k_eq, lookup_insert_eq. intros [= <-]. done.
      * intros Ho. apply (ok_obj _ Hok). revert Ho. unfold set_k. case_decide as Ej; [subst j|done].
        rewrite lookup_insert_ne; [done|]. congruence.
    + intros j. unfold set_k. case_decide; [subst j|apply (ok_nodup _ Hok)].
      apply list.NoDup_app. split; [apply (ok_nodup _ Hok)|]. split; [|apply NoDup_singleton].
      intros x Hx. rewrite list_elem_of_singleton. intros ->. apply (ok_vec _ Hok) in Hx.
      rewrite Hnone in Hx. by destruct Hx.
    + intros j h'. unfold set_k. case_decide; [subst j|apply (ok_vec _ Hok)].
      rewrite elem_of_app, list_elem_of_singleton, (ok_vec _ Hok).
      destruct (decide (h' = h)) as [->|Hne]; [rewrite lookup_insert_eq; naive_solver|].
      rewrite lookup_insert_ne by done. naive_solver.
    + intros j h'. destruct (decide ((j, h') = (k, h))) as [[= -> ->]|Hne].
      * rewrite !set_k_eq, !lookup_insert_eq. eauto.
      * pose proof (ok_shm _ Hok j h') as Hj. rewrite lookup_insert_ne by (symmetry; by apply Hname).
        unfold set_k. case_decide; [subst j|done]. by rewrite !lookup_insert_ne by congruence.
    + intros n i. destruct (decide (n = ctrl_name k h)) as [->|Hne].
      * rewrite lookup_insert_eq. intros [= <-]. lia.
      * rewrite lookup_insert_ne by done. intros E. pose proof (ok_next _ Hok _ _ E). lia.
    + intros n n' i E E'. apply lookup_insert_Some in E as [[<- Ei]|[Hne E]];
        apply lookup_insert_Some in E' as [[<- Ei']|[Hne' E']]; [done| | |by eapply (ok_inj _ Hok)].
      * by destruct (names_fresh w i Hok (eq_sym Ei) n').
      * by destruct (names_fresh w i Hok (eq_sym Ei') n).
  - intros j h' Hne. cbn -[ctrl_name]. unfold set_k. case_decide; [subst j|done].
    by rewrite !lookup_insert_ne by congruence.
  - cbn -[ctrl_name]. rewrite !set_k_eq, !lookup_insert_eq. done.
Qed.

(** The client opens the channel the router has just made. *)
Lemma open_channel_ok k h name v w v' w' id :
  names w !! name = Some id → open_channel k h name v w = Ok (v', w') →
  v' = set_shm k (<[h := id]> (v_shm v k)) v ∧ w' = w ∧ 0 ≤ h < MAP_SIZE.
Proof.
  intros Hn. unfold open_channel, shm_open. rewrite Hn. intros E.
  apply res_bind_Ok in E as ([] & Hb & E). apply in_bounds_Ok in Hb. injection E as <- <-.
  destruct w. done.
Qed.

Lemma unregister_ok k h w ret w' :
  router_ok w → unregister k h w = Ok (Some ret, w') →
  router_ok w' ∧ others k h w w' ∧ qmap w' k !! h = None.
Proof.
  intros Hok. unfold unregister, entry. intros E. apply res_bind_Ok in E as (q & Hq & E).
  apply res_bind_Ok in Hq as ([] & Hb & [= <-]). apply in_bounds_Ok in Hb.
  destruct (qmap w k !! h) as [o|] eqn:Ho; [|done].
  destruct (h_destroy k o (w_host w)) as [ret' host] eqn:Hd.
  destruct (ok_obj _ Hok _ _ _ Ho) as (Hoh & Hlive & _).
  pose proof (ok_shm _ Hok k h) as Hs. rewrite Ho in Hs. destruct Hs as (id & Hs & Hid).
  cbn in E. rewrite Hs in E. injection E as <- <-.
  assert (∀ j h', (j, h') ≠ (k, h) → ctrl_name j h' ≠ ctrl_name k h) as Hname.
  { intros j h' Hne E. by apply ctrl_name_inj in E as [-> ->]. }
  split; [|split].
  - split; cbn -[ctrl_name].
    + intros j h' o'. destruct (decide ((j, h') = (k, h))) as [[= -> ->]|Hne].
      * by rewrite set_k_eq, lookup_delete_eq.
      * intros Ho'. assert (qmap w j !! h' = Some o') as Ho''.
        { revert Ho'. unfold set_k. case_decide; [subst j|done]. by rewrite lookup_delete_ne by congruence. }
        destruct (ok_obj _ Hok _ _ _ Ho'') as (? & ? & ?). split; [done|]. split; [|done].
        eapply law_destroy; [exact Hd|done|]. by rewrite Hoh.
    + intros j. unfold set_k. case_decide; [subst j; apply NoDup_erase|]; apply (ok_nodup _ Hok).
    + intros j h'. unfold set_k. case_decide; [subst j|apply (ok_vec _ Hok)].
      rewrite elem_of_erase by apply (ok_nodup _ Hok). rewrite (ok_vec _ Hok).
      destruct (decide (h' = h)) as [->|Hne]; [rewrite lookup_delete_eq; split; [by intros []|by intros []]|].
      rewrite lookup_delete_ne by done. tauto.
    + intros j h'. destruct (decide ((j, h') = (k, h))) as [[= -> ->]|Hne].
      * by rewrite !set_k_eq, !lookup_delete_eq.
      * pose proof (ok_shm _ Hok j h') as Hj. rewrite lookup_delete_ne by (symmetry; by apply Hname).
        unfold set_k. case_decide; [subst j|done]. by rewrite !lookup_delete_ne by congruence.
    + intros n i E. apply lookup_delete_Some in E as [_ E]. by eapply (ok_next _ Hok).
    + intros n n' i E E'. apply lookup_delete_Some in E as [_ E], E' as [_ E']. by eapply (ok_inj _ Hok).
  - intros j h' Hne. cbn -[ctrl_name]. unfold set_k. case_decide; [subst j|done].
    by rewrite !lookup_delete_ne by congruence.
  - cbn. by rewrite set_k_eq, lookup_delete_eq.
Qed.

Lemma call_Ok {R} cid (q : ctl_req R) w r w' : call cid q w = Ok (r, w') → handle cid q w = Ok (Some r, w').
Proof.
  unfold call. intros E. apply res_bind_Ok in E as ([[r'|] w1] & E & E'); [|done]. by injection E' as -> ->.
Qed.

(** The rings a client has, and those it keeps. *)
Definition ring_of v k h : Prop :=
  match k with CQ => is_Some (v_cq_ring v !! h) | SRQ => is_Some (v_srq_ring v !! h) | QP => True end.

(** The outcome of a creation for its client and for everybody else. *)
Record created k h v w v' w' : Prop := {
  cr_ok : router_ok w';
  cr_others : others k h w w';
  cr_live : is_Some (qmap w' k !! h);
  cr_linked : linked v' k h w';
  cr_keeps j h' : (j, h') ≠ (k, h) → linked v j h' w → linked v' j h' w'
}.

Lemma create_ok k o v w w0 name w1 v0 v1 w2 v' :
  router_ok w → same_queues w w0 →
  o_handle o ∉ h_live (w_host w) k → o_handle o ∈ h_live (w_host w0) k →
  register k o w0 = Ok (name, w1) → open_channel k (o_handle o) name v0 w1 = Ok (v1, w2) →
  v_shm v0 = v_shm v → v_shm v' = v_shm v1 →
  (∀ j h, ring_of v j h → ring_of v' j h) → ring_of v' k (o_handle o) →
  created k (o_handle o) v w v' w2.
Proof.
  intros Hok Hsame Hnew Hlive Hreg Hopen Hv0 Hv' Hrings Hring.
  pose proof (same_queues_ok _ _ Hsame Hok) as Hok0.
  assert (qmap w0 k !! o_handle o = None) as Hnone.
  { destruct Hsame as (-> & _). destruct (qmap w k !! o_handle o) as [o'|] eqn:E; [|done].
    destruct (ok_obj _ Hok _ _ _ E) as (_ & ? & _). done. }
  destruct (register_ok _ _ _ _ _ Hok0 Hnone Hlive Hreg) as (Hok1 & Hoth & -> & Hm & Hb & Hs & Hn).
  destruct (open_channel_ok _ _ _ _ _ _ _ _ Hn Hopen) as (-> & -> & _).
  assert (others k (o_handle o) w w1) as Hoth'.
  { intros j h' Hne. destruct (Hoth j h' Hne) as [-> ->]. by destruct Hsame as (-> & -> & _). }
  split; [done|done|by rewrite Hm| |].
  - split; [|exact Hring]. exists (fs_next (w_fs w0)). rewrite Hv'. cbn -[ctrl_name].
    by rewrite set_k_eq, lookup_insert_eq.
  - intros j h' Hne [(id & Hid & Hq) Hr]. split; [|by apply Hrings]. exists id.
    rewrite Hv'. destruct (Hoth' j h' Hne) as [_ ->]. split; [|done].
    cbn -[ctrl_name]. rewrite Hv0. unfold set_k. case_decide; [subst j|done].
    by rewrite lookup_insert_ne by congruence.
Qed.

(** Taking a successful run of the monad apart. *)

Lemma with_host_same w host :
  (∀ k, h_live (w_host w) k ⊆ h_live host k) → same_queues w (with_host w host).
Proof. intros Hl. repeat split; done. Qed.

Lemma open_channel_rings k h name v w v' w' :
  open_channel k h name v w = Ok (v', w') →
  v_cq_ring v' = v_cq_ring v ∧ v_srq_ring v' = v_srq_ring v ∧ v_cq_srq v' = v_cq_srq v.
Proof. unfold open_channel. destruct (shm_open _ _). intros E. run E. by injection E as <- <-. Qed.

Lemma insert_is_Some {A} (m : gmap Z A) i x j : is_Some (m !! j) → is_Some (<[i := x]> m !! j).
Proof. intros Hj. rewrite lookup_insert_is_Some. destruct (decide (i = j)); auto. Qed.

Lemma create_cq_ok cqe0 c vec v w h cqe v' w' :
  router_ok w → ibv_cmd_create_cq cqe0 c vec v w = Ok (h, cqe, v', w') → created CQ h v w v' w'.
Proof.
  intros Hok E. unfold ibv_cmd_create_cq in E. run E. injection E as -> -> <- ->.
  apply call_Ok in Hx0. open_handle Hx0. run Hx0. destruct x0 as [ch|]; [|done].
  destruct (h_create_cq cqe0 ch vec (w_host w)) as [r host] eqn:Hc. run Hx0.
  injection Hx0 as -> <- -> ->. destruct r as [[o' n]|]; [|done]. injection Hx3 as -> ->.
  destruct (law_cq _ _ _ _ _ _ Hc) as [Hkeep Hnew]. destruct (Hnew _ _ eq_refl) as [Hn1 Hn2].
  eapply create_ok; [done|by apply with_host_same|done|done|done|done|done|done| |].
  - apply open_channel_rings in Hx1 as (Hr1 & Hr2 & _).
    intros [] h'; cbn; rewrite ?Hr1, ?Hr2; auto using insert_is_Some.
  - cbn. by rewrite lookup_insert_eq.
Qed.

Lemma create_srq_ok pd a v w h v' w' :
  router_ok w → ibv_cmd_create_srq pd a v w = Ok (h, v', w') → created SRQ h v w v' w'.
Proof.
  intros Hok E. unfold ibv_cmd_create_srq in E. run E. injection E as -> <- ->.
  apply call_Ok in Hx. open_handle Hx. run Hx. destruct x as [ch|]; [|done].
  destruct (h_create_srq ch a (w_host w)) as [r host] eqn:Hc. run Hx.
  injection Hx as <- -> ->. destruct r as [o'|]; [|done]. injection Hx2 as ->.
  destruct (law_srq _ _ _ _ _ Hc) as [Hkeep Hnew]. destruct (Hnew _ eq_refl) as [Hn1 Hn2].
  eapply create_ok; [done|by apply with_host_same|done|done|done|done|done|done| |].
  - apply open_channel_rings in Hx0 as (Hr1 & Hr2 & _).
    intros [] h'; cbn; rewrite ?Hr1, ?Hr2; auto using insert_is_Some.
  - cbn. by rewrite lookup_insert_eq.
Qed.

Lemma limit_rate_same cid o w w' : limit_rate cid o w = Ok w' → same_queues w w' ∧ w_host w' = w_host w.
Proof.
  unfold limit_rate. intros E. destruct (Z.leb _ _); [by injection E as <-|]. run E. by injection E as <-.
Qed.

Lemma create_qp_ok abi pd a v w num h cap v' w' :
  router_ok w → ibv_exp_cmd_create_qp abi pd a v w = Ok (num, h, cap, v', w') → created QP h v w v' w'.
Proof.
  intros Hok E. unfold ibv_exp_cmd_create_qp in E. run E. injection E as -> -> <- -> ->.
  apply call_Ok in Hx. open_handle Hx. run Hx.
  destruct (h_create_qp _ _ (w_host w)) as [[[[o n] cp]|] host] eqn:Hc; [|done]. run Hx.
  injection Hx as -> <- -> -> ->.
  destruct (law_qp _ _ _ _ _ Hc) as [Hkeep Hnew]. destruct (Hnew _ _ _ eq_refl) as [Hn1 Hn2].
  apply limit_rate_same in Hx6 as [Hsame Hhost].
  assert (v_shm x = v_shm v ∧ v_cq_ring x = v_cq_ring v ∧ v_srq_ring x = v_srq_ring v) as (Hv1 & Hv2 & Hv3).
  { destruct (i_srq a); [|by injection Hx0 as <-]. run Hx0. by injection Hx0 as <-. }
  eapply create_ok; [done| |done| |exact Hx7|exact Hx1|done|done| |done].
  - destruct Hsame as (H1 & H2 & H3 & H4 & H5). repeat split; intros; rewrite ?H1, ?H2, ?H3, ?H4; try done.
    rewrite Hhost. apply Hkeep.
  - by rewrite Hhost.
  - apply open_channel_rings in Hx1 as (Hr1 & Hr2 & _).
    intros [] h'; cbn; rewrite ?Hr1, ?Hr2, ?Hv2, ?Hv3; done.
Qed.

(** What a verb does to the queues. *)
Definition effect (b : verb) (made : option (qkind * Z)) v w v' w' : Prop :=
  match made, b with
  | Some (k, h), _ => created k h v w v' w'
  | None, VDestroy k h => v' = v ∧ router_ok w' ∧ others k h w w' ∧ qmap w' k !! h = None
  | None, _ => v' = v ∧ same_queues w w'
  end.

Lemma alloc_pd_same v w r w' : ibv_cmd_alloc_pd v w = Ok (r, w') → same_queues w w'.
Proof.
  intros E. apply call_Ok in E. open_handle E. destruct (h_alloc_pd _) eqn:Hh. run E.
  injection E as _ <-. repeat split; try done. eapply law_alloc_pd; eassumption.
Qed.

Lemma dealloc_pd_same pd v w r w' : ibv_cmd_dealloc_pd pd v w = Ok (r, w') → same_queues w w'.
Proof.
  intros E. apply call_Ok in E. open_handle E. run E. destruct x as [o|]; [|done].
  destruct (h_dealloc_pd _ _) eqn:Hh. injection E as -> <-. repeat split; try done.
  eapply law_dealloc_pd; eassumption.
Qed.

Lemma notify_same cq s v w r w' : ibv_cmd_req_notify_cq cq s v w = Ok (r, w') → same_queues w w'.
Proof.
  intros E. apply call_Ok in E. open_handle E. run E. destruct x as [o|]; [|done].
  destruct (h_notify_cq _ _ _) eqn:Hh. injection E as -> <-. apply with_host_same.
  eapply law_notify; eassumption.
Qed.

Lemma modify_srq_same h a m v w r w' : ibv_cmd_modify_srq h a m v w = Ok (r, w') → same_queues w w'.
Proof.
  intros E. apply call_Ok in E. open_handle E. run E. destruct x as [o|]; [|done].
  destruct (h_modify_srq _ _ _ _) eqn:Hh. injection E as -> <-. apply with_host_same.
  eapply law_modify_srq; eassumption.
Qed.

Lemma modify_qp_same h a st m cur v w r cur' w' :
  ibv_cmd_modify_qp h a st m cur v w = Ok (r, cur', w') → same_queues w w'.
Proof.
  intros E. unfold ibv_cmd_modify_qp in E. run E. injection E as -> <- ->.
  apply call_Ok in Hx. open_handle Hx. destruct (Z.leb _ _); [done|]. run Hx.
  destruct (h_modify_qp _ _ _ _) eqn:Hh. injection Hx as -> <- <-. apply with_host_same.
  eapply law_modify_qp; eassumption.
Qed.

Lemma create_ah_same pd a v w r w' : ibv_cmd_create_ah pd a v w = Ok (r, w') → same_queues w w'.
Proof.
  intros E. apply call_Ok in E. open_handle E. run E. destruct x as [o|]; [|done].
  destruct (h_create_ah _ _ _) eqn:Hh. run E. injection E as _ _ <-. repeat split; try done.
  eapply law_create_ah; eassumption.
Qed.

Lemma destroy_ah_same h v w r w' : ibv_cmd_destroy_ah h v w = Ok (r, w') → same_queues w w'.
Proof.
  intros E. apply call_Ok in E. open_handle E. run E. destruct x as [o|]; [|done].
  destruct (h_destroy_ah _ _) eqn:Hh. injection E as -> <-. apply with_host_same.
  eapply law_destroy_ah; eassumption.
Qed.

Lemma destroy_effect k h v w r w' :
  router_ok w → destroy k h v w = Ok (r, w') →
  router_ok w' ∧ others k h w w' ∧ qmap w' k !! h = None.
Proof. intros Hok E. destruct k; apply call_Ok in E; open_handle E; by eapply unregister_ok. Qed.

Lemma exec_effect b v w made v' w' :
  router_ok w → exec b v w = Ok (made, v', w') → effect b made v w v' w'.
Proof.
  intros Hok E. unfold exec in E. destruct b; run E; injection E as <- <- <-; cbn [effect];
    eauto 10 using alloc_pd_same, dealloc_pd_same, notify_same, modify_srq_same, modify_qp_same,
      create_ah_same, destroy_ah_same, destroy_effect, create_cq_ok, create_srq_ok, create_qp_ok.
  all: apply call_Ok in Hx; open_handle Hx; split; [done|].
  all: match goal with |- same_queues ?w ?w' => assert (w' = w) as -> by congruence end.
  all: by repeat split.
Qed.

(** ** Many clients and one router *)
Record sys := mkSys { s_client : Z → verbs; s_world : world H; s_owner : qkind → gmap Z Z }.

Definition set_client (i : Z) v (f : Z → verbs) : Z → verbs := λ j, if decide (j = i) then v else f j.

Inductive sys_step : sys → sys → Prop :=
  | sys_exec i b cs w own made v' w' :
      exec b (cs i) w = Ok (made, v', w') →
      sys_step (mkSys cs w own)
        (mkSys (set_client i v' cs) w'
           (match made, b with
            | Some (k, h), _ => set_k k (<[h := i]> (own k)) own
            | None, VDestroy k h => set_k k (delete h (own k)) own
            | None, _ => own
            end)).

(** The same step as a function, and runs of it. *)
Definition sys_do (i : Z) (b : verb) (s : sys) : res sys :=
  let* (made, v', w') := exec b (s_client s i) (s_world s) in
  Ok (mkSys (set_client i v' (s_client s)) w'
        (match made, b with
         | Some (k, h), _ => set_k k (<[h := i]> (s_owner s k)) (s_owner s)
         | None, VDestroy k h => set_k k (delete h (s_owner s k)) (s_owner s)
         | None, _ => s_owner s
         end)).

Fixpoint sys_run (bs : list (Z * verb)) (s : sys) : res sys :=
  match bs with
  | [] => Ok s
  | (i, b) :: bs => let* s := sys_do i b s in sys_run bs s
  end.

Lemma sys_run_steps bs s s' : sys_run bs s = Ok s' → rtc sys_step s s'.
Proof.
  revert s. induction bs as [|[i b] bs IH]; intros s E; cbn [sys_run] in E; [by injection E as <-|].
  apply res_bind_Ok in E as (s1 & E1 & E). apply rtc_l with s1; [|by apply IH].
  unfold sys_do in E1. apply res_bind_Ok in E1 as ([[made v'] w'] & E1 & [= <-]).
  destruct s as [cs w own]. by apply sys_exec.
Qed.

Record sys_ok (s : sys) : Prop := {
  sys_router : router_ok (s_world s);
  sys_linked k h : is_Some (qmap (s_world s) k !! h) →
    ∃ i, s_owner s k !! h = Some i ∧ linked (s_client s i) k h (s_world s)
}.

Lemma set_client_linked i v' cs own k h w w' j h' :
  own = Some j →
  (linked (cs i) k h w → linked v' k h w') → (linked (cs j) k h w → linked (cs j) k h w') →
  linked (cs j) k h w → h' = h → linked (set_client i v' cs j) k h' w'.
Proof. intros _ H1 H2 Hl ->. unfold set_client. case_decide; subst; auto. Qed.

Lemma sys_step_ok s s' : sys_ok s → sys_step s s' → sys_ok s'.
Proof.
  intros Hs Hst. destruct Hst as [i b cs w own made v' w' E]. destruct Hs as [Hr Hl]. cbn in *.
  pose proof (exec_effect _ _ _ _ _ _ Hr E) as Heff. destruct made as [[k h]|].
  - destruct Heff as [Hok Hoth Hlive Hlk Hkeep]. split; cbn; [done|]. intros j h' Hj.
    destruct (decide ((j, h') = (k, h))) as [[= -> ->]|Hne].
    + exists i. rewrite set_k_eq, lookup_insert_eq. split; [done|]. unfold set_client. by rewrite decide_True.
    + destruct (Hoth j h' Hne) as [Em Es]. rewrite Em in Hj. destruct (Hl _ _ Hj) as (i' & Ho & Hli).
      exists i'. split.
      { unfold set_k. case_decide; [subst j|done]. by rewrite lookup_insert_ne by congruence. }
      eapply set_client_linked; [done| | |exact Hli|done].
      * intros Hi. by apply Hkeep.
      * unfold linked. by rewrite Es.
  - destruct b; cbn [effect] in Heff; try (destruct Heff as [-> Hsame]; split; cbn;
      [by eapply same_queues_ok|]; intros j h' Hj; pose proof (proj1 Hsame) as Em; rewrite Em in Hj;
      destruct (Hl _ _ Hj) as (i' & Ho & Hli); exists i'; split; [done|];
      eapply set_client_linked; [done| | |exact Hli|done]; by eapply same_queues_linked).
    destruct Heff as (-> & Hok & Hoth & Hgone). split; cbn; [done|]. intros j h' Hj.
    destruct (decide ((j, h') = (k, h))) as [[= -> ->]|Hne]; [rewrite Hgone in Hj; by destruct Hj|].
    destruct (Hoth j h' Hne) as [Em Es]. rewrite Em in Hj. destruct (Hl _ _ Hj) as (i' & Ho & Hli).
    exists i'. split.
    { unfold set_k. case_decide; [subst j|done]. by rewrite lookup_delete_ne by congruence. }
    eapply set_client_linked; [done| | |exact Hli|done]; unfold linked; by rewrite Es.
Qed.

(** The router before the first request: no queue, no channel name. *)
Definition sys_initial (s : sys) : Prop :=
  (∀ k, qmap (s_world s) k = ∅) ∧ (∀ k, qvec (s_world s) k = []) ∧ names (s_world s) = ∅.

Lemma sys_reach_ok s0 s : sys_initial s0 → rtc sys_step s0 s → sys_ok s.
Proof.
  intros (Hm & Hv & Hn) Hr. assert (sys_ok s0) as H0.
  { split; [split|].
    - intros k h o. by rewrite Hm, lookup_empty.
    - intros k. rewrite Hv. constructor.
    - intros k h. rewrite Hv, Hm, lookup_empty. split; [set_solver|by intros []].
    - intros k h. by rewrite Hm, Hn, !lookup_empty.
    - intros n id. by rewrite Hn, lookup_empty.
    - intros n n' id. by rewrite Hn, lookup_empty.
    - intros k h. rewrite Hm, lookup_empty. by intros []. }
  clear Hm Hv Hn. induction Hr; eauto using sys_step_ok.
Qed.

(** C11.  Every live queue has a working channel of its own: after any verbs of any
    clients in any order, a queue in the router's tables has an owner whose channel
    is the very shared object the router scans for it, the scan visits it exactly
    once, the table entry is the host object with that handle, and no other live
    queue of any client uses the same object. *)
Theorem control_channels_linked s0 s k h o :
  sys_initial s0 → rtc sys_step s0 s → qmap (s_world s) k !! h = Some o →
  ∃ i id, s_owner s k !! h = Some i ∧
    v_shm (s_client s i) k !! h = Some id ∧ qshm (s_world s) k !! h = Some (ctrl_name k h, id) ∧
    o_handle o = h ∧ h ∈ qvec (s_world s) k ∧ NoDup (qvec (s_world s) k) ∧
    ∀ k' h' name, is_Some (qmap (s_world s) k' !! h') → qshm (s_world s) k' !! h' = Some (name, id) →
      k' = k ∧ h' = h.
Proof.
  intros H0 Hr Ho. destruct (sys_reach_ok _ _ H0 Hr) as [Hok Hl].
  destruct (Hl k h) as (i & Hi & (id & Hid & Hs) & _); [by rewrite Ho|].
  exists i, id. do 3 (split; [done|]). split; [by apply (ok_obj _ Hok) in Ho as (? & _)|].
  split; [by apply (ok_vec _ Hok); rewrite Ho|]. split; [apply (ok_nodup _ Hok)|].
  intros k' h' name [o' Ho'] Hs'.
  pose proof (ok_shm _ Hok k h) as E. rewrite Ho in E. destruct E as (id1 & E1 & En).
  pose proof (ok_shm _ Hok k' h') as E. rewrite Ho' in E. destruct E as (id2 & E2 & En').
  rewrite Hs in E1. rewrite Hs' in E2. injection E1 as <-. injection E2 as -> <-.
  apply ctrl_name_inj. by eapply (ok_inj _ Hok).
Qed.

(** ** Creating a queue pair *)

Lemma entry_Ok {A} (m : gmap Z A) h : 0 ≤ h < MAP_SIZE → entry m h = Ok (m !! h).
Proof. intros Hh. unfold entry. by rewrite (proj2 (in_bounds_Ok _ _ _) Hh). Qed.

(** What the host is asked for when a client asks for a queue pair. *)
Lemma create_qp_request pd (a : qp_init Z (option Z)) v w :
  0 ≤ pd < MAP_SIZE → 0 ≤ i_send_cq a < MAP_SIZE → 0 ≤ i_recv_cq a < MAP_SIZE →
  (∀ s, i_srq a = Some s → 0 ≤ s < MAP_SIZE) →
  handle (v_cid v) (CreateQp pd (qp_request a)) w =
  (let '(o, host) := h_create_qp (pd_map (w_ffr w) !! pd)
     (mkInit (i_type a) (i_sig_all a) (qmap w CQ !! i_send_cq a) (qmap w CQ !! i_recv_cq a)
             (qmap w SRQ !! default 0 (i_srq a)) (i_cap a)) (w_host w) in
   match o with
   | None => Ok (None, with_host w host)
   | Some (o, num, cap) =>
       let* w := limit_rate (v_cid v) o (with_host w host) in
       let* (name, w) := register QP o w in Ok (Some (num, o_handle o, cap, name), w)
   end).
Proof.
  intros Hp Hs Hr Hq. cbn [handle]; unfold handle_create_qp. unfold qp_request. cbn [i_srq i_send_cq i_recv_cq i_type i_sig_all i_cap].
  rewrite !entry_Ok; [done|done|done|done|].
  destruct (i_srq a) as [s|]; cbn; [by apply Hq|unfold MAP_SIZE; lia].
Qed.

Lemma limit_rate_Ok cid o w :
  match h_rate_env cid (w_host w) with Some l => 8 ≤ l | None => True end →
  ∃ w', limit_rate cid o w = Ok w' ∧ w_fs w' = w_fs w.
Proof.
  intros Hl. unfold limit_rate. destruct (Z.leb _ _); [by eexists|]. unfold TokenBucket.
  destruct (h_rate_env cid (w_host w)) as [l|]; [|by eexists].
  pose proof (Z.div_le_mono 8 l 8 ltac:(lia) Hl) as Hd. change (8 / 8) with 1 in Hd.
  destruct (Z.eqb_spec (l / 8) 0); [lia|]. by eexists.
Qed.

Lemma register_Ok k o w : 0 ≤ o_handle o < MAP_SIZE → ∃ name w', register k o w = Ok (name, w').
Proof.
  intros Hb. unfold register. destruct (initCtrlShm _ _ _) as [[name id] fs].
  rewrite (proj2 (in_bounds_Ok _ _ _) Hb). eauto.
Qed.

Lemma open_channel_Ok k h name v w : 0 ≤ h < MAP_SIZE → ∃ v' w', open_channel k h name v w = Ok (v', w').
Proof.
  intros Hb. unfold open_channel. destruct (shm_open _ _). rewrite (proj2 (in_bounds_Ok _ _ _) Hb). eauto.
Qed.

(**  Creating a queue pair: when the host can make one from the objects behind
    the client's handles (and there is no SRQ with handle 0 to be mistaken for
    "none"), the call returns its number, handle and capabilities; the new queue
    pair is in the router's table, its channel is shared with the client, and an
    SRQ is bound to the receive queue for polling. *)
Theorem create_qp_forwards abi pd a v w o num cap host :
  let srq := s ← i_srq a; qmap w SRQ !! s in
  router_ok w → 0 ≤ pd < MAP_SIZE → 0 ≤ i_send_cq a < MAP_SIZE → 0 ≤ i_recv_cq a < MAP_SIZE →
  (∀ s, i_srq a = Some s → 0 ≤ s < MAP_SIZE) → (i_srq a = None → qmap w SRQ !! 0 = None) →
  h_create_qp (pd_map (w_ffr w) !! pd)
    (mkInit (i_type a) (i_sig_all a) (qmap w CQ !! i_send_cq a) (qmap w CQ !! i_recv_cq a) srq (i_cap a))
    (w_host w) = (Some (o, num, cap), host) →
  0 ≤ o_handle o < MAP_SIZE →
  match h_rate_env (v_cid v) host with Some l => 8 ≤ l | None => True end →
  ∃ v' w', ibv_exp_cmd_create_qp abi pd a v w =
             Ok (num, o_handle o, (if Z.ltb 3 abi then cap else i_cap a), v', w') ∧
           created QP (o_handle o) v w v' w' ∧
           (∀ s, i_srq a = Some s → v_cq_srq v' !! i_recv_cq a = Some s).
Proof.
  intros srq Hok Hp Hs Hr Hq H0 Hc Hb Hrate.
  assert (qmap w SRQ !! default 0 (i_srq a) = srq) as Hsrq.
  { subst srq. destruct (i_srq a); [done|]. by apply H0. }
  destruct (limit_rate_Ok (v_cid v) o (with_host w host) Hrate) as (w1 & Hw1 & _).
  destruct (register_Ok QP o w1 Hb) as (name & w2 & Hw2).
  set (v1 := match i_srq a with
             | Some s => set_cq_srq (<[i_recv_cq a := s]> (v_cq_srq v)) v | None => v end).
  destruct (open_channel_Ok QP (o_handle o) name v1 w2 Hb) as (v' & w' & Hopen).
  assert (ibv_exp_cmd_create_qp abi pd a v w =
            Ok (num, o_handle o, (if Z.ltb 3 abi then cap else i_cap a), v', w')) as E.
  { unfold ibv_exp_cmd_create_qp, call. rewrite create_qp_request by done. rewrite Hsrq, Hc.
    rewrite Hw1. cbn [rbind]. rewrite Hw2. cbn [rbind].
    assert ((match i_srq a with
             | Some s => do* in_bounds "map_cq_to_srq" (i_recv_cq a) MAP_SIZE;
                         Ok (set_cq_srq (<[i_recv_cq a := s]> (v_cq_srq v)) v)
             | None => Ok v
             end) = Ok v1) as ->.
    { subst v1. destruct (i_srq a); [|done]. by rewrite (proj2 (in_bounds_Ok _ _ _) Hr). }
    cbn [rbind]. rewrite Hopen. done. }
  exists v', w'. split; [exact E|]. split; [by eapply create_qp_ok|].
  intros s Es. destruct (open_channel_rings _ _ _ _ _ _ _ Hopen) as (_ & _ & ->).
  subst v1. rewrite Es. cbn. by rewrite lookup_insert_eq.
Qed.

(** "No SRQ" is sent as handle 0: if an SRQ with handle 0 exists, of this or
    of any other client, the host is asked to attach it to the new queue pair. *)
Theorem no_srq_attaches_srq_zero pd a v w s0 :
  i_srq a = None → qmap w SRQ !! 0 = Some s0 →
  0 ≤ pd < MAP_SIZE → 0 ≤ i_send_cq a < MAP_SIZE → 0 ≤ i_recv_cq a < MAP_SIZE →
  handle (v_cid v) (CreateQp pd (qp_request a)) w =
  (let '(o, host) := h_create_qp (pd_map (w_ffr w) !! pd)
     (mkInit (i_type a) (i_sig_all a) (qmap w CQ !! i_send_cq a) (qmap w CQ !! i_recv_cq a)
             (Some s0) (i_cap a)) (w_host w) in
   match o with
   | None => Ok (None, with_host w host)
   | Some (o, num, cap) =>
       let* w := limit_rate (v_cid v) o (with_host w host) in
       let* (name, w) := register QP o w in Ok (Some (num, o_handle o, cap, name), w)
   end).
Proof.
  intros Ha Hz Hp Hs Hr. rewrite create_qp_request; [|done|done|done|by rewrite Ha].
  rewrite Ha. cbn [default from_option id]. by rewrite Hz.
Qed.

(** ** Destroying *)

(** A destruction the host refuses (the queue is still in use) loses the
    object: the router has already dropped it, so although the client was told of the
    failure, trying again blocks forever. *)
Theorem failed_destroy_orphans k h v w o ret host :
  qmap w k !! h = Some o → 0 ≤ h < MAP_SIZE → h_destroy k o (w_host w) = (ret, host) →
  ∃ w', destroy k h v w = Ok (ret, w') ∧ destroy k h v w' = Blocked.
Proof.
  intros Ho Hb Hd.
  assert (∀ w1, destroy k h v w1 = let* (r, w1) := unregister k h w1 in
                                   match r with Some r => Ok (r, w1) | None => Blocked end) as Hdef
    by (by destruct k).
  rewrite !Hdef. unfold unregister at 1. rewrite entry_Ok by done. rewrite Ho. cbn [rbind]. rewrite Hd.
  cbn [rbind]. eexists. split; [reflexivity|]. rewrite Hdef. unfold unregister.
  rewrite entry_Ok by done. cbn. by rewrite set_k_eq, lookup_delete_eq.
Qed.

(** ** The binding of a completion queue to an SRQ *)

(** The ring [ibv_cmd_poll_cq] takes receives from. *)
Definition poll_ring v cq : option wr_queue :=
  match v_cq_srq v !! cq with
  | Some s => if Z.leb s MAP_SIZE then v_srq_ring v !! s else v_cq_ring v !! cq
  | None => None
  end.

Fixpoint exec_all (bs : list verb) v w : res (verbs * world H) :=
  match bs with
  | [] => Ok (v, w)
  | b :: bs => let* (_, v, w) := exec b v w in exec_all bs v w
  end.

(** No queue pair with an SRQ is made on [cq]. *)
Definition no_binding cq (b : verb) : Prop :=
  match b with VCreateQp _ _ a => i_recv_cq a = cq → i_srq a = None | _ => True end.

Lemma exec_binding b v w made v' w' cq :
  exec b v w = Ok (made, v', w') → no_binding cq b → v_cq_srq v' !! cq = v_cq_srq v !! cq.
Proof.
  intros E Hb. destruct b; cbn [exec] in E; try (run E; by injection E as <- <- <-).
  - unfold ibv_cmd_create_cq in E. run E. injection E as <- <- <-. run Hx. injection Hx as -> -> <- ->.
    cbn. by apply open_channel_rings in Hx2 as (_ & _ & ->).
  - unfold ibv_cmd_create_srq in E. run E. injection E as <- <- <-. run Hx. injection Hx as -> <- ->.
    cbn. by apply open_channel_rings in Hx1 as (_ & _ & ->).
  - unfold ibv_exp_cmd_create_qp in E. run E. injection E as <- <- <-. run Hx. injection Hx as -> -> <- -> ->.
    apply open_channel_rings in Hx2 as (_ & _ & ->). cbn in Hb.
    destruct (i_srq a) as [sq|]; [|by injection Hx1 as ->]. run Hx1. injection Hx1 as <-. cbn.
    rewrite lookup_insert_ne; [done|]. intros Ecq. by specialize (Hb Ecq).
Qed.

Lemma exec_all_binding bs v w v' w' cq :
  exec_all bs v w = Ok (v', w') → Forall (no_binding cq) bs → v_cq_srq v' !! cq = v_cq_srq v !! cq.
Proof.
  intros E Hb. revert v w E. induction Hb as [|b bs Hb Hbs IH]; intros v w E; cbn [exec_all] in E.
  - by injection E as <- <-.
  - run E. rewrite (IH _ _ E). by eapply exec_binding.
Qed.

(** The binding of a completion queue to an SRQ outlives both: once a queue
    pair with SRQ [s] has been made on [cq], after any further verbs that bind no
    SRQ to it, destroying the queue pair, the SRQ and the completion queue and
    making new ones with the same handles included, polling [cq] still takes the
    records of SRQ [s], not those the new queue pair's receives went to. *)
Theorem stale_srq_binding abi pd a v w num h cap v1 w1 s bs v' w' :
  ibv_exp_cmd_create_qp abi pd a v w = Ok (num, h, cap, v1, w1) → i_srq a = Some s → s ≤ MAP_SIZE →
  exec_all bs v1 w1 = Ok (v', w') → Forall (no_binding (i_recv_cq a)) bs →
  poll_ring v' (i_recv_cq a) = v_srq_ring v' !! s.
Proof.
  intros E Ha Hs Ebs Hbs. unfold poll_ring. rewrite (exec_all_binding _ _ _ _ _ _ Ebs Hbs).
  unfold ibv_exp_cmd_create_qp in E. run E. injection E as -> -> <- -> ->.
  apply open_channel_rings in Hx1 as (_ & _ & ->). rewrite Ha in Hx0. run Hx0. injection Hx0 as <-. cbn.
  rewrite lookup_insert_eq. destruct (Z.leb_spec s MAP_SIZE); [done|lia].
Qed.
End Invariant.

(** ** A host for the examples: handles are the smallest above all live ones, and a
    completion queue cannot be destroyed while a queue pair lives *)
Definition dhost : Type := qkind → gset Z.

Definition top (X : gset Z) : Z := foldr Z.max (-1) (elements X) + 1.

Lemma top_fresh X : top X ∉ X.
Proof.
  unfold top. rewrite <- elem_of_elements. generalize (elements X). intros l Hl.
  assert (∀ x, x ∈ l → x ≤ foldr Z.max (-1) l) as Hmax.
  { clear Hl. induction l as [|y l IH]; intros x Hx; [set_solver|]. cbn.
    apply elem_of_cons in Hx as [->|Hx]; [lia|]. specialize (IH x Hx). lia. }
  apply Hmax in Hl. lia.
Qed.

Definition dnew (k : qkind) (s : dhost) : hobj * dhost :=
  let h := top (s k) in (mkObj (1000 + h) h, set_k k ({[h]} ∪ s k) s).

Definition ddestroy (k : qkind) (o : hobj) (s : dhost) : Z * dhost :=
  if bool_decide (k = CQ ∧ s QP ≠ ∅) then (16, s) else (0, set_k k (s k ∖ {[o_handle o]}) s).

#[export] Instance demo_host : HostVerbs dhost := {
  h_context _ := (3, 8);
  h_dev_attr _ := [];
  h_query_port _ _ := [];
  h_alloc_pd s := (Some (mkObj 500 5), s);
  h_dealloc_pd _ s := (0, s);
  h_create_cq cqe _ _ s := let '(o, s) := dnew CQ s in (Some (o, cqe), s);
  h_notify_cq _ _ s := (0, s);
  h_create_srq _ _ s := let '(o, s) := dnew SRQ s in (Some o, s);
  h_modify_srq _ _ _ s := (0, s);
  h_create_qp _ a s := let '(o, s) := dnew QP s in (Some (o, 77, i_cap a), s);
  h_modify_qp _ _ _ s := (0, s);
  h_destroy := ddestroy;
  h_create_ah _ _ s := (Some (mkObj 600 6), s);
  h_destroy_ah _ s := (0, s);
  h_rate_env _ _ := None
}.

Lemma dnew_law k s o s' :
  dnew k s = (o, s') →
  (∀ j, s j ⊆ s' j) ∧ (o_handle o ∉ s k) ∧ o_handle o ∈ s' k.
Proof.
  unfold dnew. intros [= <- <-]. cbn [o_handle]. split; [|split; [apply top_fresh|rewrite set_k_eq; set_solver]].
  intros j. unfold set_k. case_decide; [subst; set_solver|done].
Qed.

#[export, refine] Instance demo_laws : HostLaws dhost := { h_live s k := s k }.
Proof.
  all: intros; cbn in *; try (by simplify_eq).
  - injection H as <- <-. destruct (dnew_law CQ s _ _ eq_refl) as (? & ? & ?). split; [done|].
    by intros ? ? [= <- <-].
  - injection H as <- <-. destruct (dnew_law SRQ s _ _ eq_refl) as (? & ? & ?). split; [done|].
    by intros ? [= <-].
  - injection H as <- <-. destruct (dnew_law QP s _ _ eq_refl) as (? & ? & ?). split; [done|].
    by intros ? ? ? [= <- <- <-].
  - unfold ddestroy in H. case_bool_decide; injection H as <- <-; [done|].
    unfold set_k. case_decide; [subst|done]. apply elem_of_difference. split; [done|].
    rewrite elem_of_singleton. congruence.
Defined.

Definition demo_verbs (i : Z) : verbs := mkVerbs i (λ _, ∅) ∅ ∅ {[ 0 := MAP_SIZE + 1; 1 := MAP_SIZE + 1 ]} ∅.
Definition demo_world : world dhost :=
  mkWorld (mkFfr ∅ ∅ ∅ (λ _, ∅) (λ _, ∅) (λ _, []) ∅) (mkFs ∅ 0 ∅) (λ _, ∅).
Definition demo_sys : sys := mkSys demo_verbs demo_world (λ _, ∅).
Definition demo_cap : qp_cap := mkCap 64 64 4 4 128.
Definition demo_init (srq : option Z) : qp_init Z (option Z) := mkInit 2 1 0 0 srq demo_cap.

(** Two clients create queues in turn, one of them destroys its own. *)
Definition demo_script : list (Z * verb) :=
  [(1, VAllocPd); (1, VCreateCq 16 None 0); (2, VCreateCq 32 None 0); (2, VCreateSrq 5 []);
   (1, VCreateQp 4 5 (demo_init None)); (2, VDestroy SRQ 0); (2, VNotifyCq 1 0)].

Lemma control_channels_linked_witness :
  ∃ s, sys_run demo_script demo_sys = Ok s ∧
  ∃ i id, s_owner s CQ !! 1 = Some i ∧ v_shm (s_client s i) CQ !! 1 = Some id ∧
    q_shm_map (w_ffr (s_world s)) CQ !! 1 = Some (ctrl_name CQ 1, id).
Proof.
  destruct (sys_run demo_script demo_sys) as [s| | | |] eqn:E; [|vm_compute in E; discriminate E..].
  exists s. split; [reflexivity|].
  assert (match sys_run demo_script demo_sys with
          | Ok s => q_map (w_ffr (s_world s)) CQ !! 1 | _ => None end = Some (mkObj 1001 1)) as Ho
    by (vm_compute; reflexivity).
  rewrite E in Ho.
  destruct (control_channels_linked demo_sys s CQ 1 (mkObj 1001 1)) as (i & id & H1 & H2 & H3 & _).
  - repeat split; reflexivity.
  - by apply (sys_run_steps demo_script).
  - exact Ho.
  - exists i, id. split; [exact H1|]. split; [exact H2|exact H3].
Defined.

(** A world with one protection domain and one completion queue. *)
Definition demo_world1 : world dhost :=
  mkWorld (mkFfr {[ 5 := mkObj 500 5 ]} ∅ ∅ (set_k CQ {[ 0 := mkObj 1000 0 ]} (λ _, ∅))
             (set_k CQ {[ 0 := (ctrl_name CQ 0, 0) ]} (λ _, ∅)) (set_k CQ [0] (λ _, [])) ∅)
          (mkFs {[ ctrl_name CQ 0 := 0 ]} 1 {[ 0 := IDLE ]}) (set_k CQ {[0]} (λ _, ∅)).

Lemma demo_world1_ok : router_ok demo_world1.
Proof.
  split.
  - intros [] h o; cbn -[ctrl_name]; rewrite ?set_k_eq, ?set_k_ne by done; rewrite ?lookup_empty; try done.
    intros E. apply lookup_singleton_Some in E as [<- <-]. split; [done|]. split; [set_solver|].
    unfold MAP_SIZE. lia.
  - intros []; cbn; rewrite ?set_k_eq, ?set_k_ne by done; repeat constructor; set_solver.
  - intros [] h; cbn; rewrite ?set_k_eq, ?set_k_ne by done; rewrite ?lookup_empty; try (split; [set_solver|by intros []]).
    rewrite list_elem_of_singleton. split; [intros ->; by eexists|].
    intros [o E]. by apply lookup_singleton_Some in E as [<- _].
  - intros k h. cbn -[ctrl_name]. unfold set_k.
    destruct (decide (k = CQ)) as [->|Hk].
    + destruct (decide (h = 0)) as [->|Hh].
      * rewrite !lookup_singleton_eq. eauto.
      * rewrite !lookup_singleton_ne; [done| |done]. intros E. by apply ctrl_name_inj in E as [_ <-].
    + rewrite !lookup_empty, lookup_singleton_ne; [done|]. intros E. by apply ctrl_name_inj in E as [<- _].
  - intros n id. cbn -[ctrl_name]. intros E. apply lookup_singleton_Some in E as [_ <-]. lia.
  - intros n n' id. cbn -[ctrl_name]. intros E E'. apply lookup_singleton_Some in E as [<- _], E' as [<- _]. done.
Qed.

Lemma create_qp_forwards_witness :
  ∃ v' w', ibv_exp_cmd_create_qp 4 5 (demo_init None) (demo_verbs 1) demo_world1 =
             Ok (77, 0, demo_cap, v', w') ∧ created QP 0 (demo_verbs 1) demo_world1 v' w'.
Proof.
  destruct (create_qp_forwards 4 5 (demo_init None) (demo_verbs 1) demo_world1 (mkObj 1000 0) 77 demo_cap
              (dnew QP (w_host demo_world1)).2) as (v' & w' & H1 & H2 & _);
    try exact demo_world1_ok; try (cbn; unfold MAP_SIZE; lia); try discriminate; try reflexivity.
  exists v', w'. split; [exact H1|exact H2].
Defined.

(** An SRQ with handle 0 of somebody else. *)
Definition demo_world2 : world dhost :=
  mkWorld (set_qs SRQ {[ 0 := mkObj 4242 0 ]} (w_ffr demo_world1)) (w_fs demo_world1) (w_host demo_world1).

Lemma no_srq_attaches_srq_zero_witness :
  i_srq (demo_init None) = None ∧
  handle 1 (CreateQp 5 (qp_request (demo_init None))) demo_world2 =
  (let '(o, host) := h_create_qp (Some (mkObj 500 5))
     (mkInit 2 1 (Some (mkObj 1000 0)) (Some (mkObj 1000 0)) (Some (mkObj 4242 0)) demo_cap)
     (w_host demo_world2) in
   match o with
   | None => Ok (None, with_host demo_world2 host)
   | Some (o, num, cap) =>
       let* w := limit_rate 1 o (with_host demo_world2 host) in
       let* (name, w) := register QP o w in Ok (Some (num, o_handle o, cap, name), w)
   end).
Proof.
  split; [reflexivity|].
  apply (no_srq_attaches_srq_zero 5 (demo_init None) (demo_verbs 1) demo_world2 (mkObj 4242 0));
    try reflexivity; cbn; unfold MAP_SIZE; lia.
Defined.

(** Destroying a completion queue while a queue pair lives. *)
Definition demo_world3 : world dhost :=
  mkWorld (w_ffr demo_world1) (w_fs demo_world1) (set_k QP {[3]} (w_host demo_world1)).

Lemma failed_destroy_orphans_witness :
  ∃ w', destroy CQ 0 (demo_verbs 1) demo_world3 = Ok (16, w') ∧ destroy CQ 0 (demo_verbs 1) w' = Blocked.
Proof.
  apply (failed_destroy_orphans CQ 0 (demo_verbs 1) demo_world3 (mkObj 1000 0) 16 (w_host demo_world3));
    [reflexivity|unfold MAP_SIZE; lia|reflexivity].
Defined.

(** A queue pair on an SRQ; everything is destroyed and made anew, without an SRQ. *)
Definition demo_again : list verb :=
  [VDestroy QP 0; VDestroy SRQ 0; VDestroy CQ 0; VCreateCq 16 None 0; VCreateQp 4 5 (demo_init None)].

Lemma stale_srq_binding_witness :
  ∃ v1 w1 v' w',
    ibv_exp_cmd_create_qp 4 5 (demo_init (Some 0)) (demo_verbs 1) demo_world2 = Ok (77, 0, demo_cap, v1, w1) ∧
    exec_all demo_again v1 w1 = Ok (v', w') ∧ poll_ring v' 0 = v_srq_ring v' !! 0.
Proof.
  destruct (ibv_exp_cmd_create_qp 4 5 (demo_init (Some 0)) (demo_verbs 1) demo_world2)
    as [[[[[num h] cap] v1] w1]| | | |] eqn:E; [|vm_compute in E; discriminate E..].
  assert (match ibv_exp_cmd_create_qp 4 5 (demo_init (Some 0)) (demo_verbs 1) demo_world2 with
          | Ok (num, h, cap, v, w) => (num, h, cap) = (77, 0, demo_cap) ∧
              match exec_all demo_again v w with Ok _ => True | _ => False end
          | _ => False end) as Hrun by (vm_compute; auto).
  rewrite E in Hrun. destruct Hrun as [Hnum Hrun].
  destruct (exec_all demo_again v1 w1) as [[v' w']| | | |] eqn:E'; [|destruct Hrun..].
  exists v1, w1, v', w'. injection Hnum as -> -> ->. split; [reflexivity|]. split; [exact E'|].
  apply (stale_srq_binding 4 5 (demo_init (Some 0)) (demo_verbs 1) demo_world2 77 0 demo_cap v1 w1 0
           demo_again v' w'); [exact E|reflexivity|unfold MAP_SIZE; lia|exact E'|].
  repeat constructor.
Defined.
