(* ===== verification/FlowSpec.v ===== *)
(** * Flow steering: from the application's specifications to the kernel's

    [libibverbs/src/cmd.c], from [buffer_is_zero] to [ibv_cmd_destroy_flow]: a list of
    variable-size specifications in the application's memory is converted into the
    kernel's format, checked, and sent to the router inside a fixed-size request.
    Memory is a list of bytes, and every read outside it is undefined behaviour. *)

From S2P Require Import Prelude Layout FfTypes.

(** ** Structures of [verbs.h], [verbs_exp.h], [kern-abi.h] and [kern-abi_exp.h] *)

Definition F_eth : cty := CStruct [("dst_mac", CArr 6 (CInt 1)); ("src_mac", CArr 6 (CInt 1));
                                   ("ether_type", CInt 2); ("vlan_tag", CInt 2)].
Definition F_ib : cty := CStruct [("qpn", CInt 4); ("dst_gid", CArr 16 (CInt 1))].
Definition F_ipv4 : cty := CStruct [("src_ip", CInt 4); ("dst_ip", CInt 4)].
Definition F_ipv6 : cty := CStruct [("src_ip", CArr 16 (CInt 1)); ("dst_ip", CArr 16 (CInt 1))].
Definition F_ipv4_ext : cty := CStruct [("src_ip", CInt 4); ("dst_ip", CInt 4); ("proto", CInt 1);
                                        ("tos", CInt 1); ("ttl", CInt 1); ("flags", CInt 1)].
Definition F_tcp_udp : cty := CStruct [("dst_port", CInt 2); ("src_port", CInt 2)].
Definition F_tunnel : cty := CStruct [("tunnel_id", CInt 4)].
Definition F_ipv6_ext : cty := CStruct [("src_ip", CArr 16 (CInt 1)); ("dst_ip", CArr 16 (CInt 1));
  ("flow_label", CInt 4); ("next_hdr", CInt 1); ("traffic_class", CInt 1); ("hop_limit", CInt 1)].
Definition K_ipv6_ext : cty := CStruct [("src_ip", CArr 16 (CInt 1)); ("dst_ip", CArr 16 (CInt 1));
  ("flow_label", CInt 4); ("next_hdr", CInt 1); ("traffic_class", CInt 1); ("hop_limit", CInt 1);
  ("reserved", CInt 1)].

(** An application's specification ([struct ibv_exp_flow_spec_*]) and a kernel's
    ([struct ibv_kern_spec_*]) around a filter. *)
Definition user_spec (f : cty) : cty :=
  CStruct [("type", CInt 4); ("size", CInt 2); ("val", f); ("mask", f)].
Definition kern_spec (f : cty) : cty :=
  CStruct [("type", CInt 4); ("size", CInt 2); ("reserved", CInt 2); ("val", f); ("mask", f)].
Definition S_flow_spec_action_tag : cty := CStruct [("type", CInt 4); ("size", CInt 2); ("tag_id", CInt 4)].
Definition S_kern_spec_action_tag : cty :=
  CStruct [("type", CInt 4); ("size", CInt 2); ("reserved", CInt 2); ("tag_id", CInt 4); ("reserved1", CInt 4)].
Definition S_spec_hdr : cty := CStruct [("type", CInt 4); ("size", CInt 2)].

Definition S_ibv_kern_spec : cty :=
  CUnion [("ib", kern_spec F_ib); ("eth", kern_spec F_eth); ("ipv4", kern_spec F_ipv4);
          ("tcp_udp", kern_spec F_tcp_udp)].
Definition S_ibv_exp_kern_spec : cty :=
  CUnion [("ib", kern_spec F_ib); ("eth", kern_spec F_eth); ("ipv4", kern_spec F_ipv4);
          ("ipv4_ext", kern_spec F_ipv4_ext); ("tcp_udp", kern_spec F_tcp_udp); ("ipv6", kern_spec F_ipv6);
          ("ipv6_ext", kern_spec K_ipv6_ext); ("tunnel", kern_spec F_tunnel);
          ("flow_tag", S_kern_spec_action_tag)].

Definition S_ibv_flow_attr : cty :=
  CStruct [("comp_mask", CInt 4); ("type", CInt 4); ("size", CInt 2); ("priority", CInt 2);
           ("num_of_specs", CInt 1); ("port", CInt 1); ("flags", CInt 4)].
Definition S_ibv_exp_flow_attr : cty :=
  CStruct [("type", CInt 4); ("size", CInt 2); ("priority", CInt 2); ("num_of_specs", CInt 1);
           ("port", CInt 1); ("flags", CInt 4); ("reserved", CInt 8)].
Definition S_ibv_kern_flow_attr : cty :=
  CStruct [("type", CInt 4); ("size", CInt 2); ("priority", CInt 2); ("num_of_specs", CInt 1);
           ("reserved", CArr 2 (CInt 1)); ("port", CInt 1); ("flags", CInt 4)].
Definition S_ibv_create_flow : cty :=
  CStruct [("hdr", S_ex_hdr); ("comp_mask", CInt 4); ("qp_handle", CInt 4);
           ("flow_attr", S_ibv_kern_flow_attr)].

(** [enum ibv_exp_flow_spec_type] *)
Definition SPEC_ETH : Z := 0x20.
Definition SPEC_IB : Z := 0x21.
Definition SPEC_IPV4 : Z := 0x30.
Definition SPEC_IPV6 : Z := 0x31.
Definition SPEC_IPV4_EXT : Z := 0x32.
Definition SPEC_IPV6_EXT : Z := 0x33.
Definition SPEC_TCP : Z := 0x40.
Definition SPEC_UDP : Z := 0x41.
Definition SPEC_VXLAN_TUNNEL : Z := 0x50.
Definition SPEC_INNER : Z := 0x100.
Definition SPEC_ACTION_TAG : Z := 0x1000.

Definition EINVAL : Z := 22.
Definition EOPNOTSUPP : Z := 95.

(** ** Reading memory *)
Definition bytes_at (off n : Z) (m : list Z) : res (list Z) :=
  if Z.leb 0 off && Z.leb (off + n) (lenZ m) then Ok (takeZ n (dropZ off m)) else UB "read past the buffer".
Definition int_at (off n : Z) (m : list Z) : res Z := let* b := bytes_at off n m in Ok (le_val b).
Definition off (t : cty) (n : string) : Z := default 0 (offsetof t n).
Definition zeros (n : Z) : list Z := replicate (Z.to_nat n) 0.

(** ** [buffer_is_zero] and [get_filters_size] *)

(** [addr[0] == 0 && !memcmp(addr, addr + 1, size - 1)] on a non-empty buffer *)
Definition buffer_is_zero (b : list Z) : bool :=
  match b with
  | [] => true
  | x :: rest => Z.eqb x 0 && bool_decide (take (length rest) b = rest)
  end.

Definition EXT_MIN (t : Z) : option Z :=
  if Z.eqb t SPEC_IPV4_EXT then Some (off F_ipv4_ext "flags" + 1)
  else if Z.eqb t SPEC_IPV6_EXT then Some (off K_ipv6_ext "hop_limit" + 1)
  else if Z.eqb t SPEC_VXLAN_TUNNEL then Some (off F_tunnel "tunnel_id" + 4)
  else None.

(** The size of one filter in the application's specification and the number of its
    bytes the kernel takes, or an error. *)
Definition get_filters_size (ib : list Z) (t val : Z) : res (Z + Z * Z) :=
  let* size := int_at 4 2 ib in
  let ib_filter_size := s32 (u64 (size - sizeof S_spec_hdr) / 2) in
  match EXT_MIN t with
  | None => Ok (inl EINVAL)
  | Some min_filter_size =>
      if Z.ltb ib_filter_size min_filter_size then Ok (inl EINVAL)
      else if Z.ltb min_filter_size ib_filter_size then
        let* tail := bytes_at (val + ib_filter_size + min_filter_size) (ib_filter_size - min_filter_size) ib in
        if buffer_is_zero tail then Ok (inr (ib_filter_size, Z.min min_filter_size ib_filter_size))
        else Ok (inl EOPNOTSUPP)
      else Ok (inr (ib_filter_size, Z.min min_filter_size ib_filter_size))
  end.

(** ** [ib_spec_to_kern_spec]

    The kernel's specification is written into zeroed memory. *)
Definition kern_bytes (ty : Z) (k : cty) (val mask : list Z) : list Z :=
  le_bytes 4 (u32 ty) ++ le_bytes 2 (sizeof k) ++ zeros (off k "val" - 6) ++ val ++
  zeros (off k "mask" - off k "val" - lenZ val) ++ mask ++ zeros (sizeof k - off k "mask" - lenZ mask).

Definition copy_fixed (ty : Z) (f : cty) (ib : list Z) : res (Z + list Z) :=
  let* val := bytes_at (off (user_spec f) "val") (sizeof f) ib in
  let* mask := bytes_at (off (user_spec f) "mask") (sizeof f) ib in
  Ok (inr (kern_bytes ty (kern_spec f) val mask)).

Definition copy_ext (ty t : Z) (f kf : cty) (ib : list Z) : res (Z + list Z) :=
  let val_off := off (user_spec f) "val" in
  let* sizes := get_filters_size ib t val_off in
  match sizes with
  | inl e => Ok (inl e)
  | inr (ib_filter_size, kern_filter_size) =>
      let* val := bytes_at val_off kern_filter_size ib in
      let* mask := bytes_at (val_off + ib_filter_size) kern_filter_size ib in
      Ok (inr (kern_bytes ty (kern_spec kf) val mask))
  end.

Definition tag_bytes (ty : Z) (tag : list Z) : list Z :=
  le_bytes 4 ty ++ le_bytes 2 (sizeof S_kern_spec_action_tag) ++ zeros 2 ++ tag ++ zeros 4.

Definition one_of (ty t : Z) : bool := Z.eqb ty t || Z.eqb ty (Z.lor t SPEC_INNER).
Definition is_inner (ty : Z) : bool := negb (Z.eqb (Z.land ty SPEC_INNER) 0).

Definition ib_spec_to_kern_spec (ib : list Z) (is_exp : bool) : res (Z + list Z) :=
  let* ty := int_at 0 4 ib in
  if negb is_exp && is_inner ty then Ok (inl EINVAL)
  else if one_of ty SPEC_ETH then copy_fixed ty F_eth ib
  else if Z.eqb ty SPEC_IB then if is_exp then copy_fixed ty F_ib ib else Ok (inl EINVAL)
  else if one_of ty SPEC_IPV4 then copy_fixed ty F_ipv4 ib
  else if one_of ty SPEC_IPV6 then if is_exp then copy_fixed ty F_ipv6 ib else Ok (inl EINVAL)
  else if one_of ty SPEC_IPV6_EXT then
    if is_exp then
      copy_ext (if is_inner ty then Z.lor SPEC_IPV6 SPEC_INNER else SPEC_IPV6) SPEC_IPV6_EXT F_ipv6_ext K_ipv6_ext ib
    else Ok (inl EINVAL)
  else if one_of ty SPEC_IPV4_EXT then
    if is_exp then
      copy_ext (if is_inner ty then Z.lor SPEC_IPV4 SPEC_INNER else SPEC_IPV4) SPEC_IPV4_EXT F_ipv4_ext F_ipv4_ext ib
    else Ok (inl EINVAL)
  else if one_of ty SPEC_TCP || one_of ty SPEC_UDP then copy_fixed ty F_tcp_udp ib
  else if Z.eqb ty SPEC_VXLAN_TUNNEL then
    if is_exp then copy_ext ty SPEC_VXLAN_TUNNEL F_tunnel F_tunnel ib else Ok (inl EINVAL)
  else if Z.eqb ty SPEC_ACTION_TAG then
    if is_exp then
      let* tag := bytes_at (off S_flow_spec_action_tag "tag_id") 4 ib in
      Ok (inr (tag_bytes ty tag))
    else Ok (inl EINVAL)
  else Ok (inl EINVAL).

(** ** [flow_is_exp]

    [m] is the memory from the attributes on, read as [struct ibv_exp_flow_attr]; the
    specifications are taken to start right after that structure. *)
Definition exp_type (ty : Z) : bool :=
  Z.eqb ty SPEC_IPV6 || Z.eqb ty SPEC_IPV4_EXT || Z.eqb ty SPEC_IPV6_EXT ||
  Z.eqb ty SPEC_VXLAN_TUNNEL || Z.eqb ty SPEC_ACTION_TAG || is_inner ty.

Fixpoint any_exp (n : nat) (m : list Z) : res bool :=
  match n with
  | O => Ok false
  | S n =>
      let* ty := int_at 0 4 m in
      if exp_type ty then Ok true
      else
        let* size := int_at 4 2 m in
        if Z.leb size (lenZ m) then any_exp n (dropZ size m) else UB "specification past the buffer"
  end.

Definition num_of_specs (m : list Z) : res Z := int_at (off S_ibv_exp_flow_attr "num_of_specs") 1 m.

Definition flow_is_exp (m : list Z) : res bool :=
  let* n := num_of_specs m in
  if Z.leb (sizeof S_ibv_exp_flow_attr) (lenZ m)
  then any_exp (Z.to_nat n) (dropZ (sizeof S_ibv_exp_flow_attr) m)
  else UB "attributes past the buffer".

(** ** [cmd_create_flow] *)

(** The loop over the specifications: the kernel's bytes one after another, written
    into what is left of the command's buffer. *)
Fixpoint convert (n : nat) (room : Z) (ib : list Z) (is_exp : bool) : res (Z + list Z) :=
  match n with
  | O => Ok (inr [])
  | S n =>
      let* k := ib_spec_to_kern_spec ib is_exp in
      match k with
      | inl e => Ok (inl e)
      | inr k =>
          if Z.ltb room (lenZ k) then UB "write past the command"
          else
            let* size := int_at 4 2 ib in
            if Z.leb size (lenZ ib) then
              let* rest := convert n (room - lenZ k) (dropZ size ib) is_exp in
              match rest with
              | inl e => Ok (inl e)
              | inr ks => Ok (inr (k ++ ks))
              end
            else UB "specification past the buffer"
      end
  end.

(** The request to the router: the flag, the size of the command, and the members of
    the command itself, [struct ibv_create_flow] and the specifications after it. *)
Record flow_req := mkFlowReq {
  fr_exp : bool; fr_written : Z; fr_qp : Z;
  fr_type : Z; fr_size : Z; fr_priority : Z; fr_num : Z; fr_port : Z; fr_flags : Z;
  fr_specs : list Z
}.

(** A member of the attributes, read as [struct ibv_exp_flow_attr]. *)
Definition attr_at (n : string) (width : Z) (m : list Z) : res Z := int_at (off S_ibv_exp_flow_attr n) width m.

Definition FLOW_CMD_MAX : Z := 1024.

Section Flow.
(** The router: error and flow handle for a request. *)
Context (serve : flow_req → Z * Z) (serve_destroy : Z → Z).

(** The request sent and the handle of the new flow; the error in the response is
    not looked at.  [qp] is the handle of the queue pair. *)
Definition cmd_create_flow (qp : Z) (attr ib : list Z) (is_exp : bool) : res (Z + flow_req * Z) :=
  let* exp_flow := flow_is_exp attr in
  let* n := num_of_specs attr in
  let spec_size := if exp_flow then sizeof S_ibv_exp_kern_spec else sizeof S_ibv_kern_spec in
  let* type := attr_at "type" 4 attr in
  let* priority := attr_at "priority" 2 attr in
  let* port := attr_at "port" 1 attr in
  let* flags := attr_at "flags" 4 attr in
  let* ks := convert (Z.to_nat n) (n * spec_size) ib is_exp in
  match ks with
  | inl e => Ok (inl e)
  | inr ks =>
      let size := u16 (lenZ ks) in
      let written := sizeof S_ibv_create_flow + size in
      if Z.ltb FLOW_CMD_MAX written then UB "memcpy past req_body.cmd"
      else
        let req := mkFlowReq exp_flow written qp type size priority n port flags ks in
        Ok (inr (req, (serve req).2))
  end.

(** [ibv_exp_cmd_create_flow]: the specifications follow the attributes. *)
Definition ibv_exp_cmd_create_flow (qp : Z) (m : list Z) : res (Z + flow_req * Z) :=
  if Z.leb (sizeof S_ibv_exp_flow_attr) (lenZ m)
  then cmd_create_flow qp m (dropZ (sizeof S_ibv_exp_flow_attr) m) true
  else UB "attributes past the buffer".

(** [ibv_cmd_create_flow]: the same routine on the attributes without their first
    member, and the specifications after the shorter structure. *)
Definition ibv_cmd_create_flow (qp : Z) (m : list Z) : res (Z + flow_req * Z) :=
  let* comp_mask := int_at 0 4 m in
  if negb (Z.eqb comp_mask 0) then Ok (inl EINVAL)
  else if Z.leb (sizeof S_ibv_flow_attr) (lenZ m)
  then cmd_create_flow qp (dropZ (off S_ibv_flow_attr "type") m) (dropZ (sizeof S_ibv_flow_attr) m) false
  else UB "attributes past the buffer".

(** [cmd_destroy_flow], behind both destruction calls. *)
Definition cmd_destroy_flow (handle : Z) : Z := serve_destroy handle.
End Flow.

(** ** Theorems *)

Lemma memcmp_shifted (x : Z) l : take (length l) (x :: l) = l ↔ Forall (λ y, y = x) l.
Proof.
  revert x. induction l as [|y l IH]; intros x; [done|]. cbn [length take]. rewrite Forall_cons_iff.
  split.
  - intros [= -> E]. by split; [|apply IH].
  - intros [-> E]. f_equal. by apply IH.
Qed.

Lemma buffer_is_zero_spec b : buffer_is_zero b = true ↔ Forall (λ y, y = 0) b.
Proof.
  destruct b as [|x l]; cbn [buffer_is_zero]; [done|].
  rewrite andb_true_iff, Z.eqb_eq, bool_decide_eq_true, Forall_cons_iff.
  split; intros [-> H]; (split; [done|]); by apply (memcmp_shifted 0).
Qed.

Lemma bytes_at_Ok o n m : 0 ≤ o → o + n ≤ lenZ m → bytes_at o n m = Ok (takeZ n (dropZ o m)).
Proof.
  intros Ho Hn. unfold bytes_at. destruct (Z.leb_spec 0 o); [|lia]. by destruct (Z.leb_spec (o + n) (lenZ m)); [|lia].
Qed.

Lemma bytes_at_len o n m b : 0 ≤ n → bytes_at o n m = Ok b → lenZ b = n.
Proof.
  intros Hn. unfold bytes_at. destruct (Z.leb_spec 0 o); [|done].
  destruct (Z.leb_spec (o + n) (lenZ m)); [|done]. intros [= <-].
  apply lenZ_takeZ. rewrite lenZ_dropZ by lia. lia.
Qed.

(** The extended filters: a specification with filters of [f] bytes is
    accepted exactly when [f] covers the fields the kernel knows and every mask bit
    beyond them is zero, so the part that is cut off cannot change what the rule
    matches. *)
Theorem get_filters_size_spec ib t val size mn :
  int_at 4 2 ib = Ok size → sizeof S_spec_hdr ≤ size < 65536 → EXT_MIN t = Some mn → 0 ≤ val →
  let f := (size - sizeof S_spec_hdr) / 2 in
  val + 2 * f ≤ lenZ ib →
  (∃ r, get_filters_size ib t val = Ok r) ∧
  (get_filters_size ib t val = Ok (inr (f, mn)) ↔
   mn ≤ f ∧ Forall (λ y, y = 0) (takeZ (f - mn) (dropZ (val + f + mn) ib))).
Proof.
  intros Hsz Hsize Hmn Hval f Hib. unfold get_filters_size. rewrite Hsz, Hmn. cbn [rbind].
  change (sizeof S_spec_hdr) with 8 in *.
  assert (0 ≤ f < 2 ^ 31) as Hf by (subst f; split; [apply Z.div_pos; lia|apply Z.div_lt_upper_bound; lia]).
  assert (s32 (u64 (size - 8) / 2) = f) as ->.
  { unfold u64. rewrite Z.mod_small by lia. fold f. unfold s32, sint. rewrite Z.mod_small by lia.
    by destruct (Z.ltb_spec f (2 ^ (32 - 1))); [|lia]. }
  assert (0 < mn) as Hpos.
  { unfold EXT_MIN in Hmn. repeat case_match; simplify_eq; vm_compute; reflexivity. }
  destruct (Z.ltb_spec f mn) as [Hlt|Hge].
  { split; [eauto|]. split; [done|lia]. }
  destruct (Z.ltb_spec mn f) as [Hlt|Hle].
  - rewrite bytes_at_Ok by lia. cbn [rbind]. destruct (buffer_is_zero _) eqn:Hz.
    + apply buffer_is_zero_spec in Hz. rewrite Z.min_l by lia. split; [eauto|]. done.
    + split; [eauto|]. split; [done|]. intros [_ HF]. apply buffer_is_zero_spec in HF. congruence.
  - assert (f = mn) as E by lia. rewrite E. rewrite Z.min_id. split; [eauto|]. split; [|done].
    intros _. split; [lia|]. rewrite Z.sub_diag. unfold takeZ. cbn. constructor.
Qed.

Lemma get_filters_size_spec_witness :
  let ib := le_bytes 4 0x50 ++ le_bytes 2 20 ++ zeros 2 ++ [1; 2; 3; 4; 9; 9] ++ [5; 5; 5; 5; 0; 0] in
  get_filters_size ib SPEC_VXLAN_TUNNEL 8 = Ok (inr (6, 4)).
Proof.
  intros ib.
  refine (proj2 (proj2 (get_filters_size_spec ib SPEC_VXLAN_TUNNEL 8 20 4 _ _ _ _ _)) _);
    [reflexivity|split; [discriminate|reflexivity]|reflexivity|lia|discriminate|].
  split; [discriminate|]. vm_compute. repeat constructor.
Defined.

Lemma lenZ_zeros n : 0 ≤ n → lenZ (zeros n) = n.
Proof. intros. unfold lenZ, zeros. rewrite length_replicate. lia. Qed.

Lemma lenZ_le_bytes n z : lenZ (le_bytes n z) = Z.of_nat n.
Proof. unfold lenZ. by rewrite length_le_bytes. Qed.

(** A converted specification announces its own length. *)
Definition sized (n : Z) (k : list Z) : Prop := lenZ k = n ∧ int_at 4 2 k = Ok n.

Lemma sized_head a b rest n : lenZ (le_bytes 4 a ++ le_bytes 2 b ++ rest) = n → b = n → 0 ≤ n < 65536 →
  sized n (le_bytes 4 a ++ le_bytes 2 b ++ rest).
Proof.
  intros Hlen -> Hn. split; [done|]. unfold int_at.
  rewrite bytes_at_Ok; [|lia|rewrite !lenZ_app, !lenZ_le_bytes; pose proof (lenZ_nonneg rest); lia].
  rewrite (dropZ_app_exact (le_bytes 4 a)) by (by rewrite lenZ_le_bytes).
  rewrite (takeZ_app_exact (le_bytes 2 n)) by (by rewrite lenZ_le_bytes). cbn [rbind].
  by rewrite le_val_bytes by (cbn; lia).
Qed.

(** The parts of a kernel structure do not overlap. *)
Definition fits (k : cty) (n : Z) : bool :=
  Z.leb 6 (off k "val") && Z.leb (off k "val" + n) (off k "mask") && Z.leb (off k "mask" + n) (sizeof k) &&
  Z.ltb (sizeof k) 65536.

Lemma kern_bytes_sized ty k val mask n :
  lenZ val = n → lenZ mask = n → 0 ≤ n → fits k n = true → sized (sizeof k) (kern_bytes ty k val mask).
Proof.
  intros Hv Hm Hn Hf. unfold fits in Hf. rewrite !andb_true_iff, !Z.leb_le, Z.ltb_lt in Hf.
  unfold kern_bytes. apply sized_head; [|done|lia].
  rewrite !lenZ_app, !lenZ_le_bytes, !lenZ_zeros by lia. lia.
Qed.

Lemma copy_fixed_sized ty f ib k :
  0 ≤ sizeof f → fits (kern_spec f) (sizeof f) = true →
  copy_fixed ty f ib = Ok (inr k) → sized (sizeof (kern_spec f)) k.
Proof.
  intros Hn Hf E. unfold copy_fixed in E. apply res_bind_Ok in E as (val & Hv & E).
  apply res_bind_Ok in E as (mask & Hm & E). injection E as <-.
  apply bytes_at_len in Hv, Hm; [|done|done]. by apply (kern_bytes_sized _ _ _ _ (sizeof f)).
Qed.

Lemma get_filters_size_min ib t val a b :
  get_filters_size ib t val = Ok (inr (a, b)) → EXT_MIN t = Some b ∧ b ≤ a.
Proof.
  unfold get_filters_size. intros E. apply res_bind_Ok in E as (size & _ & E).
  destruct (EXT_MIN t) as [mn|]; [|done].
  revert E. generalize (s32 (u64 (size - sizeof S_spec_hdr) / 2)). intros f.
  destruct (Z.ltb_spec f mn) as [|H1]; [done|]. rewrite Z.min_l by lia.
  destruct (Z.ltb_spec mn f) as [H2|H2].
  - intros E. apply res_bind_Ok in E as (tl & _ & E). destruct (buffer_is_zero tl); [|done].
    by injection E as <- <-.
  - by intros [= <- <-].
Qed.

Lemma copy_ext_sized ty t f kf ib k mn :
  EXT_MIN t = Some mn → 0 ≤ mn → fits (kern_spec kf) mn = true →
  copy_ext ty t f kf ib = Ok (inr k) → sized (sizeof (kern_spec kf)) k.
Proof.
  intros Ht Hmn Hf E. unfold copy_ext in E. apply res_bind_Ok in E as ([e|[a b]] & Hs & E); [done|].
  apply get_filters_size_min in Hs as [Hb _]. rewrite Ht in Hb. injection Hb as <-.
  apply res_bind_Ok in E as (val & Hv & E). apply res_bind_Ok in E as (mask & Hm & E). injection E as <-.
  apply bytes_at_len in Hv, Hm; [|done|done]. by apply (kern_bytes_sized _ _ _ _ mn).
Qed.

Lemma one_of_exp ty t : one_of ty t = true → exp_type t = true → exp_type ty = true.
Proof.
  intros Ht He. unfold one_of in Ht. apply orb_true_iff in Ht as [->%Z.eqb_eq| ->%Z.eqb_eq]; [done|].
  unfold exp_type. apply orb_true_iff. right. unfold is_inner. rewrite Z.land_comm.
  rewrite Z.lor_comm, Z.land_lor_distr_r. change (Z.land SPEC_INNER SPEC_INNER) with SPEC_INNER.
  destruct (Z.eqb_spec (Z.lor SPEC_INNER (Z.land SPEC_INNER t)) 0) as [E0|]; [|done].
  by apply Z.lor_eq_0_iff in E0 as [? _].
Qed.

Lemma ib_spec_to_kern_spec_len ib is_exp k ty :
  int_at 0 4 ib = Ok ty → ib_spec_to_kern_spec ib is_exp = Ok (inr k) →
  int_at 4 2 k = Ok (lenZ k) ∧
  lenZ k ≤ (if is_exp && exp_type ty then sizeof S_ibv_exp_kern_spec else sizeof S_ibv_kern_spec).
Proof.
  intros Hty E. unfold ib_spec_to_kern_spec in E. rewrite Hty in E. cbn [rbind] in E.
  assert (∀ n m, sized n k → n ≤ m → int_at 4 2 k = Ok (lenZ k) ∧ lenZ k ≤ m) as Hdone
    by (by intros n m [-> ->]).
  set (small := sizeof S_ibv_kern_spec). set (big := sizeof S_ibv_exp_kern_spec).
  assert (small ≤ big) as Hsb by (vm_compute; discriminate).
  assert (∀ b : bool, small ≤ (if b then big else small)) as Hif by (intros []; lia).
  destruct (negb is_exp && is_inner ty) eqn:Hin; [done|].
  destruct (one_of ty SPEC_ETH) eqn:H1.
  { apply copy_fixed_sized in E; [|done|done]. eapply Hdone; [exact E|]. etransitivity; [|apply Hif]. done. }
  destruct (Z.eqb ty SPEC_IB) eqn:H2.
  { destruct is_exp; [|done]. apply copy_fixed_sized in E; [|done|done].
    eapply Hdone; [exact E|]. etransitivity; [|apply Hif]. done. }
  destruct (one_of ty SPEC_IPV4) eqn:H3.
  { apply copy_fixed_sized in E; [|done|done]. eapply Hdone; [exact E|]. etransitivity; [|apply Hif]. done. }
  destruct (one_of ty SPEC_IPV6) eqn:H4.
  { destruct is_exp; [|done]. apply copy_fixed_sized in E; [|done|done]. rewrite (one_of_exp _ _ H4) by done.
    by eapply Hdone. }
  destruct (one_of ty SPEC_IPV6_EXT) eqn:H5.
  { destruct is_exp; [|done]. eapply copy_ext_sized in E; [|reflexivity|done|done]. rewrite (one_of_exp _ _ H5) by done.
    by eapply Hdone. }
  destruct (one_of ty SPEC_IPV4_EXT) eqn:H6.
  { destruct is_exp; [|done]. eapply copy_ext_sized in E; [|reflexivity|done|done]. rewrite (one_of_exp _ _ H6) by done.
    by eapply Hdone. }
  destruct (one_of ty SPEC_TCP || one_of ty SPEC_UDP) eqn:H7.
  { apply copy_fixed_sized in E; [|done|done]. eapply Hdone; [exact E|]. etransitivity; [|apply Hif]. done. }
  destruct (Z.eqb_spec ty SPEC_VXLAN_TUNNEL) as [->|_].
  { destruct is_exp; [|done]. eapply copy_ext_sized in E; [|reflexivity|done|done]. by eapply Hdone. }
  destruct (Z.eqb_spec ty SPEC_ACTION_TAG) as [->|_]; [|done].
  destruct is_exp; [|done]. apply res_bind_Ok in E as (tag & Ht & E). apply bytes_at_len in Ht; [|done].
  injection E as <-. eapply (Hdone 16); [|vm_compute; discriminate].
  unfold tag_bytes. apply sized_head; [|done|lia]. rewrite !lenZ_app, !lenZ_le_bytes, Ht. done.
Qed.

(** Conversion of one specification: what the kernel gets announces exactly
    its own length, which the command reserves room for; without the experimental
    interface, and for every type [flow_is_exp] does not count as experimental, the
    smaller structure is enough. *)
Theorem ib_spec_to_kern_spec_sized ib is_exp k ty :
  int_at 0 4 ib = Ok ty → ib_spec_to_kern_spec ib is_exp = Ok (inr k) →
  int_at 4 2 k = Ok (lenZ k) ∧
  lenZ k ≤ (if is_exp && exp_type ty then sizeof S_ibv_exp_kern_spec else sizeof S_ibv_kern_spec).
Proof. apply ib_spec_to_kern_spec_len. Qed.

Lemma ib_spec_to_kern_spec_sized_witness :
  let ib := le_bytes 4 SPEC_TCP ++ le_bytes 2 14 ++ [0; 80; 0; 0] ++ [255; 255; 0; 0] in
  let k := kern_bytes SPEC_TCP (kern_spec F_tcp_udp) [0; 80; 0; 0] [255; 255; 0; 0] in
  int_at 4 2 k = Ok (lenZ k) ∧ lenZ k ≤ sizeof S_ibv_kern_spec.
Proof.
  intros ib k. exact (ib_spec_to_kern_spec_sized ib false k SPEC_TCP eq_refl eq_refl).
Defined.

(** The only undefined behaviour of the conversion is a read past the
    application's memory. *)
Lemma rbind_UB {A B} (m : res A) (f : A → res B) why :
  rbind m f = UB why → m = UB why ∨ ∃ a, m = Ok a ∧ f a = UB why.
Proof. destruct m; cbn; try discriminate; [by eauto|]. intros [= ->]. by left. Qed.

Abbreviation reads_only m := (∀ why, m = UB why → why = "read past the buffer"%string).

Lemma rbind_reads_only {A B} (m : res A) (f : A → res B) :
  reads_only m → (∀ a, reads_only (f a)) → reads_only (rbind m f).
Proof. intros Hm Hf why E. apply rbind_UB in E as [E|(a & _ & E)]; [by apply Hm|by eapply Hf]. Qed.

Lemma bytes_at_reads_only o n m : reads_only (bytes_at o n m).
Proof. intros why. unfold bytes_at. case_match; [done|]. by intros [= <-]. Qed.

Lemma int_at_reads_only o n m : reads_only (int_at o n m).
Proof. apply rbind_reads_only; [apply bytes_at_reads_only|done]. Qed.

Ltac reads :=
  repeat match goal with
  | |- reads_only (rbind _ _) => apply rbind_reads_only; [|intros ?]
  | |- reads_only (match ?x with _ => _ end) => destruct x
  | |- reads_only (bytes_at _ _ _) => apply bytes_at_reads_only
  | |- reads_only (int_at _ _ _) => apply int_at_reads_only
  | |- reads_only (Ok _) => discriminate
  end.

Lemma get_filters_size_reads_only ib t val : reads_only (get_filters_size ib t val).
Proof. unfold get_filters_size. reads. Qed.

Lemma copy_fixed_reads_only ty f ib : reads_only (copy_fixed ty f ib).
Proof. unfold copy_fixed. reads. Qed.

Lemma copy_ext_reads_only ty t f kf ib : reads_only (copy_ext ty t f kf ib).
Proof. unfold copy_ext. apply rbind_reads_only; [apply get_filters_size_reads_only|]. intros a. reads. Qed.

Lemma ib_spec_to_kern_spec_reads_only ib is_exp : reads_only (ib_spec_to_kern_spec ib is_exp).
Proof.
  unfold ib_spec_to_kern_spec. reads; first [apply copy_fixed_reads_only|apply copy_ext_reads_only].
Qed.

Lemma spec_has_type ib is_exp k :
  ib_spec_to_kern_spec ib is_exp = Ok (inr k) → ∃ ty, int_at 0 4 ib = Ok ty.
Proof. unfold ib_spec_to_kern_spec. intros E. apply res_bind_Ok in E as (ty & E & _). eauto. Qed.

(** Room for the smaller structures is enough when no specification is counted as
    experimental. *)
Lemma convert_fits n room ib is_exp :
  (Z.of_nat n * 88 ≤ room ∨ Z.of_nat n * 48 ≤ room ∧ (is_exp = false ∨ any_exp n ib = Ok false)) →
  convert n room ib is_exp ≠ UB "write past the command".
Proof.
  revert room ib. induction n as [|n IH]; intros room ib Hroom E; cbn [convert] in E; [done|].
  apply rbind_UB in E as [E|(k & Hk & E)]; [by apply ib_spec_to_kern_spec_reads_only in E|].
  destruct k as [e|k]; [done|]. destruct (spec_has_type _ _ _ Hk) as (ty & Hty).
  destruct (ib_spec_to_kern_spec_len _ _ _ _ Hty Hk) as [_ Hlen].
  change (sizeof S_ibv_exp_kern_spec) with 88 in Hlen. change (sizeof S_ibv_kern_spec) with 48 in Hlen.
  assert (lenZ k ≤ 88) as H88 by (destruct (is_exp && exp_type ty); lia).
  assert (is_exp = false ∨ any_exp (S n) ib = Ok false → lenZ k ≤ 48) as H48.
  { intros [->|He]; [done|]. cbn [any_exp] in He. rewrite Hty in He. cbn [rbind] in He.
    destruct (exp_type ty); [done|]. by rewrite andb_false_r in Hlen. }
  destruct (Z.ltb_spec room (lenZ k)) as [Hlt|Hge].
  { destruct Hroom as [Hr|[Hr Hs]]; [lia|]. specialize (H48 Hs). lia. }
  apply rbind_UB in E as [E|(size & Hsz & E)]; [by apply int_at_reads_only in E|].
  destruct (Z.leb_spec size (lenZ ib)) as [Hle|]; [|done].
  apply rbind_UB in E as [E|([?|?] & _ & E)]; [|done|done].
  revert E. apply IH. destruct Hroom as [Hr|[Hr Hs]]; [left; lia|right].
  split; [specialize (H48 Hs); lia|]. destruct Hs as [->|Hs]; [by left|right].
  cbn [any_exp] in Hs. rewrite Hty in Hs. cbn [rbind] in Hs. destruct (exp_type ty); [done|].
  rewrite Hsz in Hs. cbn [rbind] in Hs. destruct (Z.leb_spec size (lenZ ib)); [done|lia].
Qed.

Lemma any_exp_UB n m why : any_exp n m = UB why → why ≠ "write past the command"%string.
Proof.
  revert m. induction n as [|n IH]; intros m E; cbn [any_exp] in E; [done|].
  apply rbind_UB in E as [E|(ty & _ & E)]; [by apply int_at_reads_only in E as ->|].
  destruct (exp_type ty); [done|].
  apply rbind_UB in E as [E|(size & _ & E)]; [by apply int_at_reads_only in E as ->|].
  destruct (Z.leb size (lenZ m)); [by eapply IH|]. by injection E as <-.
Qed.

Lemma num_of_specs_pos m n : Forall (λ b, 0 ≤ b) m → num_of_specs m = Ok n → 0 ≤ n.
Proof.
  intros Hm E. unfold num_of_specs, int_at in E. apply res_bind_Ok in E as (b & Hb & [= <-]).
  unfold bytes_at in Hb. case_match; [|done]. injection Hb as <-.
  assert (Forall (λ b, 0 ≤ b) (takeZ 1 (dropZ (off S_ibv_exp_flow_attr "num_of_specs") m))) as HF
    by (by apply Forall_take, Forall_drop).
  induction HF as [|x l Hx Hl IH]; cbn [le_val]; [done|]. lia.
Qed.

Lemma create_flow_fits serve qp attr ib is_exp :
  Forall (λ b, 0 ≤ b) attr →
  (is_exp = true → ib = dropZ (sizeof S_ibv_exp_flow_attr) attr) →
  cmd_create_flow serve qp attr ib is_exp ≠ UB "write past the command".
Proof.
  intros Hpos Hib E. unfold cmd_create_flow in E.
  apply rbind_UB in E as [E|(e & He & E)].
  { unfold flow_is_exp in E. apply rbind_UB in E as [E|(n & _ & E)]; [by apply int_at_reads_only in E|].
    destruct (Z.leb _ _); [by apply any_exp_UB in E|done]. }
  apply rbind_UB in E as [E|(n & Hn & E)]; [by apply int_at_reads_only in E|].
  pose proof (num_of_specs_pos _ _ Hpos Hn) as Hn0.
  do 4 (apply rbind_UB in E as [E|(? & _ & E)]; [by apply int_at_reads_only in E|]).
  apply rbind_UB in E as [E|([?|ks] & _ & E)]; [|done|by destruct (Z.ltb _ _)].
  revert E. apply convert_fits. rewrite Z2Nat.id by done.
  destruct e; [left; change (sizeof S_ibv_exp_kern_spec) with 88; lia|right].
  change (sizeof S_ibv_kern_spec) with 48. split; [lia|].
  destruct is_exp; [right|by left]. rewrite (Hib eq_refl). unfold flow_is_exp in He.
  rewrite Hn in He. cbn [rbind] in He. by destruct (Z.leb _ _).
Qed.

(** C39.  The buffer of the command, sized by counting the specifications, is never
    written past its end, whatever specifications the application gives and through
    either interface: [flow_is_exp] may be wrong for the older interface, but then it
    can only reserve too much. *)
Theorem flow_command_fits serve qp m :
  Forall (λ b, 0 ≤ b < 256) m →
  ibv_exp_cmd_create_flow serve qp m ≠ UB "write past the command" ∧
  ibv_cmd_create_flow serve qp m ≠ UB "write past the command".
Proof.
  intros Hm. assert (Forall (λ b, 0 ≤ b) m) as Hpos by (revert Hm; apply Forall_impl; cbn; lia).
  split.
  - unfold ibv_exp_cmd_create_flow. destruct (Z.leb _ _); [|done]. by apply create_flow_fits.
  - intros E. unfold ibv_cmd_create_flow in E.
    apply rbind_UB in E as [E|(c & _ & E)]; [by apply int_at_reads_only in E|].
    destruct (negb _); [done|]. destruct (Z.leb _ _); [|done].
    revert E. apply create_flow_fits; [by apply Forall_drop|done].
Qed.

(** Twelve IPv6 specifications with extended filters. *)
Definition demo_ext : list Z := le_bytes 4 SPEC_IPV6_EXT ++ le_bytes 2 88 ++ zeros 2 ++ zeros 40 ++ zeros 40.
Definition demo_flow (n : nat) : list Z :=
  zeros 8 ++ [Z.of_nat n] ++ zeros 15 ++ concat (replicate n demo_ext).

Lemma flow_command_fits_witness :
  ibv_exp_cmd_create_flow (λ _, (0, 9)) 5 (demo_flow 3) ≠ UB "write past the command".
Proof.
  refine (proj1 (flow_command_fits (λ _, (0, 9)) 5 (demo_flow 3) _)).
  vm_compute. repeat constructor; discriminate.
Defined.

Lemma attr_at_Ok n width m e :
  flow_is_exp m = Ok e →
  Z.leb 0 (off S_ibv_exp_flow_attr n) && Z.leb (off S_ibv_exp_flow_attr n + width) 24 = true →
  ∃ v, attr_at n width m = Ok v.
Proof.
  intros He Hb. apply andb_true_iff in Hb as [Ho Hb]. rewrite Z.leb_le in Ho, Hb. unfold flow_is_exp in He. apply res_bind_Ok in He as (k & _ & He).
  change (sizeof S_ibv_exp_flow_attr) with 24 in He.
  destruct (Z.leb_spec 24 (lenZ m)); [|done]. unfold attr_at, int_at.
  rewrite bytes_at_Ok by lia. by eexists.
Qed.

(** The fixed-size request: a flow whose converted specifications are at most
    976 bytes is sent whole, with the attributes the application gave, and yields the
    router's handle; a longer one overruns the 1024-byte field of the request.
    Twelve IPv6 rules are enough. *)
Theorem create_flow_size_limit serve qp attr ib is_exp e n ks :
  flow_is_exp attr = Ok e → num_of_specs attr = Ok n →
  convert (Z.to_nat n) (n * (if e then sizeof S_ibv_exp_kern_spec else sizeof S_ibv_kern_spec)) ib is_exp
    = Ok (inr ks) →
  lenZ ks < 65536 →
  if Z.leb (lenZ ks) 976 then
    ∃ req, cmd_create_flow serve qp attr ib is_exp = Ok (inr (req, (serve req).2)) ∧
      fr_specs req = ks ∧ fr_size req = lenZ ks ∧ fr_written req = 48 + lenZ ks ∧ fr_exp req = e ∧
      fr_qp req = qp ∧ fr_num req = n ∧
      attr_at "type" 4 attr = Ok (fr_type req) ∧ attr_at "priority" 2 attr = Ok (fr_priority req) ∧
      attr_at "port" 1 attr = Ok (fr_port req) ∧ attr_at "flags" 4 attr = Ok (fr_flags req)
  else cmd_create_flow serve qp attr ib is_exp = UB "memcpy past req_body.cmd".
Proof.
  intros He Hn Hks Hlen. unfold cmd_create_flow. rewrite He, Hn. cbn [rbind].
  destruct (attr_at_Ok "type" 4 attr e He eq_refl) as (type & ->).
  destruct (attr_at_Ok "priority" 2 attr e He eq_refl) as (priority & ->).
  destruct (attr_at_Ok "port" 1 attr e He eq_refl) as (port & ->).
  destruct (attr_at_Ok "flags" 4 attr e He eq_refl) as (flags & ->).
  cbn [rbind]. rewrite Hks. cbn [rbind].
  change (sizeof S_ibv_create_flow) with 48. pose proof (lenZ_nonneg ks).
  unfold u16. rewrite Z.mod_small by lia. unfold FLOW_CMD_MAX.
  destruct (Z.ltb_spec 1024 (48 + lenZ ks)), (Z.leb_spec (lenZ ks) 976); try lia; [done|].
  eexists. by repeat split.
Qed.

Lemma create_flow_size_limit_witness :
  ibv_exp_cmd_create_flow (λ _, (0, 9)) 5 (demo_flow 12) = UB "memcpy past req_body.cmd".
Proof.
  assert (∃ ks, convert 12 (12 * 88) (dropZ 24 (demo_flow 12)) true = Ok (inr ks) ∧ lenZ ks = 1056) as (ks & Hks & Hlen).
  { eexists. split; [vm_compute; reflexivity|vm_compute; reflexivity]. }
  assert (Z.leb (sizeof S_ibv_exp_flow_attr) (lenZ (demo_flow 12)) = true) as Hb by (vm_compute; reflexivity).
  unfold ibv_exp_cmd_create_flow. rewrite Hb. change (sizeof S_ibv_exp_flow_attr) with 24.
  pose proof (create_flow_size_limit (λ _, (0, 9)) 5 (demo_flow 12) (dropZ 24 (demo_flow 12)) true true 12 ks) as Hl.
  rewrite Hlen in Hl. apply Hl; [vm_compute; reflexivity|vm_compute; reflexivity|exact Hks|lia].
Defined.

(** The older interface is classified by the wrong bytes: [flow_is_exp] skips
    the longer of the two attribute structures, so what it takes for the type of the
    first specification is bytes 8 to 11 of it, in an Ethernet rule the last four bytes
    of the destination address. *)
Theorem legacy_flow_misread m n ty :
  32 ≤ lenZ m → num_of_specs (dropZ 4 m) = Ok n → 0 < n →
  int_at 8 4 (dropZ (sizeof S_ibv_flow_attr) m) = Ok ty → exp_type ty = true →
  flow_is_exp (dropZ (off S_ibv_flow_attr "type") m) = Ok true.
Proof.
  intros Hlen Hn Hpos Hty He. change (off S_ibv_flow_attr "type") with 4.
  change (sizeof S_ibv_flow_attr) with 20 in Hty. unfold flow_is_exp. rewrite Hn. cbn [rbind].
  change (sizeof S_ibv_exp_flow_attr) with 24. rewrite lenZ_dropZ by lia.
  destruct (Z.leb_spec 24 (lenZ m - 4)); [|lia].
  destruct (Z.to_nat n) as [|k] eqn:Hk; [lia|]. cbn [any_exp].
  assert (dropZ 24 (dropZ 4 m) = dropZ 28 m) as -> by (unfold dropZ; by rewrite drop_drop).
  assert (int_at 0 4 (dropZ 28 m) = Ok ty) as ->; [|cbn [rbind]; by rewrite He].
  revert Hty. unfold int_at. rewrite !bytes_at_Ok by (rewrite ?lenZ_dropZ; lia).
  unfold dropZ. rewrite !drop_drop. done.
Qed.

(** A rule for the address 00:00:00:01:00:00, an ordinary Ethernet rule. *)
Definition demo_legacy : list Z :=
  zeros 12 ++ [1] ++ zeros 7 ++
  le_bytes 4 SPEC_ETH ++ le_bytes 2 38 ++ [0; 0; 0; 1; 0; 0] ++ zeros 10 ++ zeros 16.

Lemma legacy_flow_misread_witness :
  int_at 0 4 (dropZ (sizeof S_ibv_flow_attr) demo_legacy) = Ok SPEC_ETH ∧ exp_type SPEC_ETH = false ∧
  flow_is_exp (dropZ (off S_ibv_flow_attr "type") demo_legacy) = Ok true.
Proof.
  split; [reflexivity|]. split; [reflexivity|].
  apply (legacy_flow_misread demo_legacy 1 256); [vm_compute; discriminate|reflexivity|lia|reflexivity|reflexivity].
Defined.
