(* ===== verification/Attrs.v ===== *)
(** * Attributes: field-by-field copies between kernel and application structures

    [copy_query_dev_fields] and [ibv_cmd_query_qp] of [libibverbs/src/cmd.c] and
    [ibv_exp_cmd_query_device] of [cmd_exp.c].  A structure in memory is a function from
    offsets to bytes; an assignment [dst->f = src->g] loads the bytes of [g], and stores
    as many low bytes as [f] has.  The offsets and widths come from the layout of the
    structures, so a cast from one structure to another is the identity on memory. *)

From S2P Require Import Prelude Layout FfTypes.

(** ** Structures *)

Definition S_ibv_query_device_resp : cty := CStruct [
    ("fw_ver", CInt 8); ("node_guid", CInt 8); ("sys_image_guid", CInt 8);
    ("max_mr_size", CInt 8); ("page_size_cap", CInt 8); ("vendor_id", CInt 4);
    ("vendor_part_id", CInt 4); ("hw_ver", CInt 4); ("max_qp", CInt 4); ("max_qp_wr", CInt 4);
    ("device_cap_flags", CInt 4); ("max_sge", CInt 4); ("max_sge_rd", CInt 4);
    ("max_cq", CInt 4); ("max_cqe", CInt 4); ("max_mr", CInt 4); ("max_pd", CInt 4);
    ("max_qp_rd_atom", CInt 4); ("max_ee_rd_atom", CInt 4); ("max_res_rd_atom", CInt 4);
    ("max_qp_init_rd_atom", CInt 4); ("max_ee_init_rd_atom", CInt 4); ("atomic_cap", CInt 4);
    ("max_ee", CInt 4); ("max_rdd", CInt 4); ("max_mw", CInt 4); ("max_raw_ipv6_qp", CInt 4);
    ("max_raw_ethy_qp", CInt 4); ("max_mcast_grp", CInt 4); ("max_mcast_qp_attach", CInt 4);
    ("max_total_mcast_qp_attach", CInt 4); ("max_ah", CInt 4); ("max_fmr", CInt 4);
    ("max_map_per_fmr", CInt 4); ("max_srq", CInt 4); ("max_srq_wr", CInt 4);
    ("max_srq_sge", CInt 4); ("max_pkeys", CInt 2); ("local_ca_ack_delay", CInt 1);
    ("phys_port_cnt", CInt 1); ("reserved", CArr 4 (CInt 1)) ].

Definition S_ibv_exp_device_calc_cap : cty := CStruct [
    ("data_types", CInt 8); ("data_sizes", CInt 8); ("int_ops", CInt 8); ("uint_ops", CInt 8);
    ("fp_ops", CInt 8) ].

Definition S_ibv_exp_ext_atomics_params : cty := CStruct [
    ("log_atomic_arg_sizes", CInt 8); ("max_fa_bit_boundary", CInt 4);
    ("log_max_atomic_inline", CInt 4) ].

Definition S_ibv_exp_umr_caps : cty := CStruct [
    ("max_klm_list_size", CInt 4); ("max_send_wqe_inline_klms", CInt 4);
    ("max_umr_recursion_depth", CInt 4); ("max_umr_stride_dimension", CInt 4) ].

Definition S_ibv_exp_odp_caps : cty := CStruct [
    ("general_odp_caps", CInt 8);
    ("per_transport_caps", CStruct [("rc_odp_caps", CInt 4); ("uc_odp_caps", CInt 4); ("ud_odp_caps", CInt 4); ("dc_odp_caps", CInt 4); ("xrc_odp_caps", CInt 4); ("raw_eth_odp_caps", CInt 4)]) ].

Definition S_ibv_exp_rx_hash_caps : cty := CStruct [
    ("max_rwq_indirection_tables", CInt 4); ("max_rwq_indirection_table_size", CInt 4);
    ("supported_hash_functions", CInt 1); ("supported_packet_fields", CInt 8);
    ("supported_qps", CInt 4) ].

Definition S_ibv_exp_mp_rq_caps : cty := CStruct [
    ("supported_qps", CInt 4); ("allowed_shifts", CInt 4);
    ("min_single_wqe_log_num_of_strides", CInt 1); ("max_single_wqe_log_num_of_strides", CInt 1);
    ("min_single_stride_log_num_of_bytes", CInt 1);
    ("max_single_stride_log_num_of_bytes", CInt 1) ].

Definition S_ibv_exp_ec_caps : cty := CStruct [
    ("max_ec_data_vector_count", CInt 4); ("max_ec_calc_inflight_calcs", CInt 4) ].

Definition S_ibv_exp_masked_atomic_params : cty := CStruct [
    ("max_fa_bit_boundary", CInt 4); ("log_max_atomic_inline", CInt 4);
    ("masked_log_atomic_arg_sizes", CInt 8);
    ("masked_log_atomic_arg_sizes_network_endianness", CInt 8) ].

Definition S_ibv_exp_tso_caps : cty := CStruct [
    ("max_tso", CInt 4); ("supported_qpts", CInt 4) ].

Definition S_ibv_exp_packet_pacing_caps : cty := CStruct [
    ("qp_rate_limit_min", CInt 4); ("qp_rate_limit_max", CInt 4); ("supported_qpts", CInt 4);
    ("reserved", CInt 4) ].

Definition S_ibv_exp_device_attr : cty := CStruct [
    ("fw_ver", CArr 64 (CInt 1)); ("node_guid", CInt 8); ("sys_image_guid", CInt 8);
    ("max_mr_size", CInt 8); ("page_size_cap", CInt 8); ("vendor_id", CInt 4);
    ("vendor_part_id", CInt 4); ("hw_ver", CInt 4); ("max_qp", CInt 4); ("max_qp_wr", CInt 4);
    ("reserved", CInt 4); ("max_sge", CInt 4); ("max_sge_rd", CInt 4); ("max_cq", CInt 4);
    ("max_cqe", CInt 4); ("max_mr", CInt 4); ("max_pd", CInt 4); ("max_qp_rd_atom", CInt 4);
    ("max_ee_rd_atom", CInt 4); ("max_res_rd_atom", CInt 4); ("max_qp_init_rd_atom", CInt 4);
    ("max_ee_init_rd_atom", CInt 4); ("exp_atomic_cap", CInt 4); ("max_ee", CInt 4);
    ("max_rdd", CInt 4); ("max_mw", CInt 4); ("max_raw_ipv6_qp", CInt 4);
    ("max_raw_ethy_qp", CInt 4); ("max_mcast_grp", CInt 4); ("max_mcast_qp_attach", CInt 4);
    ("max_total_mcast_qp_attach", CInt 4); ("max_ah", CInt 4); ("max_fmr", CInt 4);
    ("max_map_per_fmr", CInt 4); ("max_srq", CInt 4); ("max_srq_wr", CInt 4);
    ("max_srq_sge", CInt 4); ("max_pkeys", CInt 2); ("local_ca_ack_delay", CInt 1);
    ("phys_port_cnt", CInt 1); ("comp_mask", CInt 4); ("calc_cap", S_ibv_exp_device_calc_cap);
    ("timestamp_mask", CInt 8); ("hca_core_clock", CInt 8); ("exp_device_cap_flags", CInt 8);
    ("max_dc_req_rd_atom", CInt 4); ("max_dc_res_rd_atom", CInt 4); ("inline_recv_sz", CInt 4);
    ("max_rss_tbl_sz", CInt 4); ("ext_atom", S_ibv_exp_ext_atomics_params);
    ("umr_caps", S_ibv_exp_umr_caps); ("odp_caps", S_ibv_exp_odp_caps); ("max_dct", CInt 4);
    ("max_ctx_res_domain", CInt 4); ("rx_hash_caps", S_ibv_exp_rx_hash_caps);
    ("max_wq_type_rq", CInt 4); ("max_device_ctx", CInt 4); ("mp_rq_caps", S_ibv_exp_mp_rq_caps);
    ("wq_vlan_offloads_cap", CInt 2); ("ec_caps", S_ibv_exp_ec_caps);
    ("masked_atomic", S_ibv_exp_masked_atomic_params); ("rx_pad_end_addr_align", CInt 4);
    ("tso_caps", S_ibv_exp_tso_caps); ("packet_pacing_caps", S_ibv_exp_packet_pacing_caps);
    ("ec_w_mask", CInt 4) ].

Definition S_ibv_qp_init_attr : cty := CStruct [
    ("qp_context", CPtr); ("send_cq", CPtr); ("recv_cq", CPtr); ("srq", CPtr); ("cap", S_ibv_qp_cap);
    ("qp_type", CInt 4); ("sq_sig_all", CInt 4); ("xrc_domain", CPtr) ].

(** ** Memory *)

Definition mem : Type := Z → Z.
Definition path : Type := list string.

(** Offset and width of a member, through nested structures. *)
Fixpoint locate (base : Z) (p : path) (t : cty) : option (Z * Z) :=
  match p with
  | [] => Some (base, sizeof t)
  | n :: p =>
      match t with
      | CStruct fs => '(o, t) ← find_member n (members 0 fs); locate (base + o) p t
      | _ => None
      end
  end.

Fixpoint load_bytes (o : Z) (n : nat) (m : mem) : list Z :=
  match n with O => [] | S n => m o :: load_bytes (o + 1) n m end.

Definition load (f : Z * Z) (m : mem) : Z := le_val (load_bytes f.1 (Z.to_nat f.2) m).

Definition store (f : Z * Z) (v : Z) (m : mem) : mem :=
  λ a, if Z.leb f.1 a && Z.ltb a (f.1 + f.2) then (v / 256 ^ (a - f.1)) mod 256 else m a.

(** A table of assignments [dst->d = src->s], executed in order. *)
Definition table : Type := list ((Z * Z) * (Z * Z)).

Definition resolve_table (dt st : cty) (l : list (path * path)) : option table :=
  mapM (λ '(d, s), d ← locate 0 d dt; s ← locate 0 s st; Some (d, s)) l.

Fixpoint run_table (tb : table) (src dst : mem) : mem :=
  match tb with
  | [] => dst
  | (d, s) :: tb => run_table tb src (store d (load s src) dst)
  end.

Definition assigns (dt st : cty) (l : list (path * path)) (src dst : mem) : mem :=
  match resolve_table dt st l with Some tb => run_table tb src dst | None => dst end.

(** Members of the same name. *)
Definition same (l : list string) : list (path * path) := (λ n, ([n], [n])) <$> l.

(** ** [copy_query_dev_fields] *)
Definition dev_fields : list (path * path) := same [
    "node_guid"; "sys_image_guid"; "max_mr_size"; "page_size_cap"; "vendor_id";
    "vendor_part_id"; "hw_ver"; "max_qp"; "max_qp_wr"; "device_cap_flags"; "max_sge";
    "max_sge_rd"; "max_cq"; "max_cqe"; "max_mr"; "max_pd"; "max_qp_rd_atom"; "max_ee_rd_atom";
    "max_res_rd_atom"; "max_qp_init_rd_atom"; "max_ee_init_rd_atom"; "atomic_cap"; "max_ee";
    "max_rdd"; "max_mw"; "max_raw_ipv6_qp"; "max_raw_ethy_qp"; "max_mcast_grp";
    "max_mcast_qp_attach"; "max_total_mcast_qp_attach"; "max_ah"; "max_fmr"; "max_map_per_fmr";
    "max_srq"; "max_srq_wr"; "max_srq_sge"; "max_pkeys"; "local_ca_ack_delay"; "phys_port_cnt" ].

(** The application's structure and the raw firmware version. *)
Definition copy_query_dev_fields (resp attr : mem) : mem * Z :=
  (assigns S_ibv_device_attr S_ibv_query_device_resp dev_fields resp attr,
   default 0 ((λ f, load f resp) <$> locate 0 ["fw_ver"] S_ibv_query_device_resp)).

(** ** [ibv_cmd_query_qp] *)
Definition qp_fields : list (path * path) := [
    (["qkey"], ["qkey"]); (["rq_psn"], ["rq_psn"]); (["sq_psn"], ["sq_psn"]);
    (["dest_qp_num"], ["dest_qp_num"]); (["qp_access_flags"], ["qp_access_flags"]);
    (["pkey_index"], ["pkey_index"]); (["alt_pkey_index"], ["alt_pkey_index"]);
    (["qp_state"], ["qp_state"]); (["cur_qp_state"], ["cur_qp_state"]);
    (["path_mtu"], ["path_mtu"]); (["path_mig_state"], ["path_mig_state"]);
    (["sq_draining"], ["sq_draining"]); (["max_rd_atomic"], ["max_rd_atomic"]);
    (["max_dest_rd_atomic"], ["max_dest_rd_atomic"]); (["min_rnr_timer"], ["min_rnr_timer"]);
    (["port_num"], ["port_num"]); (["timeout"], ["timeout"]); (["retry_cnt"], ["retry_cnt"]);
    (["rnr_retry"], ["rnr_retry"]); (["alt_port_num"], ["alt_port_num"]);
    (["alt_timeout"], ["alt_timeout"]); (["cap"; "max_send_wr"], ["max_send_wr"]);
    (["cap"; "max_recv_wr"], ["max_recv_wr"]); (["cap"; "max_send_sge"], ["max_send_sge"]);
    (["cap"; "max_recv_sge"], ["max_recv_sge"]); (["cap"; "max_inline_data"], ["max_inline_data"]);
    (["ah_attr"; "grh"; "dgid"], ["dest"; "dgid"]);
    (["ah_attr"; "grh"; "flow_label"], ["dest"; "flow_label"]);
    (["ah_attr"; "dlid"], ["dest"; "dlid"]);
    (["ah_attr"; "grh"; "sgid_index"], ["dest"; "sgid_index"]);
    (["ah_attr"; "grh"; "hop_limit"], ["dest"; "hop_limit"]);
    (["ah_attr"; "grh"; "traffic_class"], ["dest"; "traffic_class"]);
    (["ah_attr"; "sl"], ["dest"; "sl"]); (["ah_attr"; "src_path_bits"], ["dest"; "src_path_bits"]);
    (["ah_attr"; "static_rate"], ["dest"; "static_rate"]);
    (["ah_attr"; "is_global"], ["dest"; "is_global"]);
    (["ah_attr"; "port_num"], ["dest"; "port_num"]);
    (["alt_ah_attr"; "grh"; "dgid"], ["alt_dest"; "dgid"]);
    (["alt_ah_attr"; "grh"; "flow_label"], ["alt_dest"; "flow_label"]);
    (["alt_ah_attr"; "dlid"], ["alt_dest"; "dlid"]);
    (["alt_ah_attr"; "grh"; "sgid_index"], ["alt_dest"; "sgid_index"]);
    (["alt_ah_attr"; "grh"; "hop_limit"], ["alt_dest"; "hop_limit"]);
    (["alt_ah_attr"; "grh"; "traffic_class"], ["alt_dest"; "traffic_class"]);
    (["alt_ah_attr"; "sl"], ["alt_dest"; "sl"]);
    (["alt_ah_attr"; "src_path_bits"], ["alt_dest"; "src_path_bits"]);
    (["alt_ah_attr"; "static_rate"], ["alt_dest"; "static_rate"]);
    (["alt_ah_attr"; "is_global"], ["alt_dest"; "is_global"]);
    (["alt_ah_attr"; "port_num"], ["alt_dest"; "port_num"]) ].

Definition qp_init_fields : list (path * path) := [
    (["cap"; "max_send_wr"], ["max_send_wr"]); (["cap"; "max_recv_wr"], ["max_recv_wr"]);
    (["cap"; "max_send_sge"], ["max_send_sge"]); (["cap"; "max_recv_sge"], ["max_recv_sge"]);
    (["cap"; "max_inline_data"], ["max_inline_data"]); (["sq_sig_all"], ["sq_sig_all"]) ].

(** The members of [struct ibv_qp] that go into the initial attributes. *)
Definition qp_context_fields : list path := [["qp_context"]; ["send_cq"]; ["recv_cq"]; ["srq"]; ["qp_type"]].

Definition assign_values (t : cty) (ps : list path) (vs : list Z) (m : mem) : mem :=
  foldl (λ m '(p, v), match locate 0 p t with Some f => store f v m | None => m end) m (zip ps vs).

Definition QUERY_QP_CMD_MAX : Z := 100.

(** [router] answers the command of [cmd_size] bytes with the kernel's structure; [qp]
    holds the five members above.  The results are the two attribute structures and
    the new state of the queue pair; the error in the response is not looked at. *)
Definition ibv_cmd_query_qp (router : list Z → Z * mem) (cmd : list Z) (qp : list Z) (attr init_attr : mem) :
    res (mem * mem * Z) :=
  if Z.ltb QUERY_QP_CMD_MAX (lenZ cmd) then UB "memcpy past req_body.cmd"
  else
    let resp := (router cmd).2 in
    let attr := assigns S_ibv_qp_attr S_ibv_query_qp_resp qp_fields resp attr in
    let init_attr := assign_values S_ibv_qp_init_attr qp_context_fields qp init_attr in
    let init_attr := assigns S_ibv_qp_init_attr S_ibv_query_qp_resp qp_init_fields resp init_attr in
    Ok (attr, init_attr, default 0 ((λ f, load f attr) <$> locate 0 ["cur_qp_state"] S_ibv_qp_attr)).

(** ** [ibv_exp_cmd_query_device] *)
Definition IBV_EXP_DEVICE_ATTR_WITH_TIMESTAMP_MASK : Z := 1.
Definition IBV_EXP_DEVICE_ATTR_WITH_HCA_CORE_CLOCK : Z := 2.
Definition IBV_EXP_DEVICE_ATTR_EXP_CAP_FLAGS : Z := 3.
Definition IBV_EXP_DEVICE_DC_RD_REQ : Z := 4.
Definition IBV_EXP_DEVICE_DC_RD_RES : Z := 5.
Definition IBV_EXP_DEVICE_ATTR_MAX_DCT : Z := 11.
Definition IBV_EXP_DEVICE_ATTR_INLINE_RECV_SZ : Z := 6.
Definition IBV_EXP_DEVICE_ATTR_RSS_TBL_SZ : Z := 7.
Definition IBV_EXP_DEVICE_ATTR_EXT_ATOMIC_ARGS : Z := 8.
Definition IBV_EXP_DEVICE_ATTR_UMR : Z := 9.
Definition IBV_EXP_DEVICE_ATTR_ODP : Z := 10.
Definition IBV_EXP_DEVICE_ATTR_MAX_CTX_RES_DOMAIN : Z := 12.
Definition IBV_EXP_DEVICE_ATTR_MAX_WQ_TYPE_RQ : Z := 14.
Definition IBV_EXP_DEVICE_ATTR_RX_HASH : Z := 13.
Definition IBV_EXP_DEVICE_ATTR_MAX_DEVICE_CTX : Z := 15.
Definition IBV_EXP_DEVICE_ATTR_MP_RQ : Z := 16.
Definition IBV_EXP_DEVICE_ATTR_VLAN_OFFLOADS : Z := 17.
Definition IBV_EXP_DEVICE_ATTR_EC_CAPS : Z := 18.
Definition IBV_EXP_DEVICE_ATTR_MASKED_ATOMICS : Z := 19.
Definition IBV_EXP_DEVICE_ATTR_RX_PAD_END_ALIGN : Z := 20.
Definition IBV_EXP_DEVICE_ATTR_TSO_CAPS : Z := 21.
Definition IBV_EXP_DEVICE_ATTR_PACKET_PACING_CAPS : Z := 22.
Definition IBV_EXP_DEVICE_ATTR_EC_GF_BASE : Z := 23.

(** The blocks of the function, in order: a capability bit and the fields copied when
    it is both asked for and supported.  Two blocks do more. *)
Inductive block :=
  | Copy (bit : Z) (fields : list (path * path))
  | CapFlags
  | EcCaps.

Definition dev_blocks : list block := [
  Copy IBV_EXP_DEVICE_ATTR_WITH_TIMESTAMP_MASK [
    (["timestamp_mask"], ["timestamp_mask"]) ];
  Copy IBV_EXP_DEVICE_ATTR_WITH_HCA_CORE_CLOCK [
    (["hca_core_clock"], ["hca_core_clock"]) ];
  CapFlags;
  Copy IBV_EXP_DEVICE_DC_RD_REQ [
    (["max_dc_req_rd_atom"], ["dc_rd_req"]) ];
  Copy IBV_EXP_DEVICE_DC_RD_RES [
    (["max_dc_res_rd_atom"], ["dc_rd_res"]) ];
  Copy IBV_EXP_DEVICE_ATTR_MAX_DCT [
    (["max_dct"], ["max_dct"]) ];
  Copy IBV_EXP_DEVICE_ATTR_INLINE_RECV_SZ [
    (["inline_recv_sz"], ["inline_recv_sz"]) ];
  Copy IBV_EXP_DEVICE_ATTR_RSS_TBL_SZ [
    (["max_rss_tbl_sz"], ["max_rss_tbl_sz"]) ];
  Copy IBV_EXP_DEVICE_ATTR_EXT_ATOMIC_ARGS [
    (["ext_atom"; "log_atomic_arg_sizes"], ["log_atomic_arg_sizes"]);
    (["ext_atom"; "max_fa_bit_boundary"], ["max_fa_bit_boundary"]);
    (["ext_atom"; "log_max_atomic_inline"], ["log_max_atomic_inline"]) ];
  Copy IBV_EXP_DEVICE_ATTR_UMR [
    (["umr_caps"; "max_klm_list_size"], ["umr_caps"; "max_klm_list_size"]);
    (["umr_caps"; "max_send_wqe_inline_klms"], ["umr_caps"; "max_send_wqe_inline_klms"]);
    (["umr_caps"; "max_umr_recursion_depth"], ["umr_caps"; "max_umr_recursion_depth"]);
    (["umr_caps"; "max_umr_stride_dimension"], ["umr_caps"; "max_umr_stride_dimension"]) ];
  Copy IBV_EXP_DEVICE_ATTR_ODP [
    (["odp_caps"; "general_odp_caps"], ["odp_caps"; "general_odp_caps"]);
    (["odp_caps"; "per_transport_caps"; "rc_odp_caps"], ["odp_caps"; "per_transport_caps"; "rc_odp_caps"]);
    (["odp_caps"; "per_transport_caps"; "uc_odp_caps"], ["odp_caps"; "per_transport_caps"; "uc_odp_caps"]);
    (["odp_caps"; "per_transport_caps"; "ud_odp_caps"], ["odp_caps"; "per_transport_caps"; "ud_odp_caps"]);
    (["odp_caps"; "per_transport_caps"; "dc_odp_caps"], ["odp_caps"; "per_transport_caps"; "dc_odp_caps"]);
    (["odp_caps"; "per_transport_caps"; "xrc_odp_caps"], ["odp_caps"; "per_transport_caps"; "xrc_odp_caps"]);
    (["odp_caps"; "per_transport_caps"; "raw_eth_odp_caps"], ["odp_caps"; "per_transport_caps"; "raw_eth_odp_caps"]) ];
  Copy IBV_EXP_DEVICE_ATTR_MAX_CTX_RES_DOMAIN [
    (["max_ctx_res_domain"], ["max_ctx_res_domain"]) ];
  Copy IBV_EXP_DEVICE_ATTR_MAX_WQ_TYPE_RQ [
    (["max_wq_type_rq"], ["max_wq_type_rq"]) ];
  Copy IBV_EXP_DEVICE_ATTR_RX_HASH [
    (["rx_hash_caps"; "max_rwq_indirection_tables"], ["rx_hash"; "max_rwq_indirection_tables"]);
    (["rx_hash_caps"; "max_rwq_indirection_table_size"], ["rx_hash"; "max_rwq_indirection_table_size"]);
    (["rx_hash_caps"; "supported_hash_functions"], ["rx_hash"; "supported_hash_functions"]);
    (["rx_hash_caps"; "supported_packet_fields"], ["rx_hash"; "supported_packet_fields"]);
    (["rx_hash_caps"; "supported_qps"], ["rx_hash"; "supported_qps"]) ];
  Copy IBV_EXP_DEVICE_ATTR_MAX_DEVICE_CTX [
    (["max_device_ctx"], ["max_device_ctx"]) ];
  Copy IBV_EXP_DEVICE_ATTR_MP_RQ [
    (["mp_rq_caps"; "allowed_shifts"], ["mp_rq_caps"; "allowed_shifts"]);
    (["mp_rq_caps"; "supported_qps"], ["mp_rq_caps"; "supported_qps"]);
    (["mp_rq_caps"; "max_single_stride_log_num_of_bytes"], ["mp_rq_caps"; "max_single_stride_log_num_of_bytes"]);
    (["mp_rq_caps"; "min_single_stride_log_num_of_bytes"], ["mp_rq_caps"; "min_single_stride_log_num_of_bytes"]);
    (["mp_rq_caps"; "max_single_wqe_log_num_of_strides"], ["mp_rq_caps"; "max_single_wqe_log_num_of_strides"]);
    (["mp_rq_caps"; "min_single_wqe_log_num_of_strides"], ["mp_rq_caps"; "min_single_wqe_log_num_of_strides"]) ];
  Copy IBV_EXP_DEVICE_ATTR_VLAN_OFFLOADS [
    (["wq_vlan_offloads_cap"], ["wq_vlan_offloads_cap"]) ];
  EcCaps;
  Copy IBV_EXP_DEVICE_ATTR_MASKED_ATOMICS [

    (["masked_atomic"; "masked_log_atomic_arg_sizes"], ["masked_atomic_caps"; "masked_log_atomic_arg_sizes"]);
    (["masked_atomic"; "masked_log_atomic_arg_sizes_network_endianness"], ["masked_atomic_caps"; "masked_log_atomic_arg_sizes_network_endianness"]);
    (["masked_atomic"; "max_fa_bit_boundary"], ["max_fa_bit_boundary"]);
    (["masked_atomic"; "log_max_atomic_inline"], ["log_max_atomic_inline"]) ];
  Copy IBV_EXP_DEVICE_ATTR_RX_PAD_END_ALIGN [
    (["rx_pad_end_addr_align"], ["rx_pad_end_addr_align"]) ];
  Copy IBV_EXP_DEVICE_ATTR_TSO_CAPS [
    (["tso_caps"; "max_tso"], ["tso_caps"; "max_tso"]);
    (["tso_caps"; "supported_qpts"], ["tso_caps"; "supported_qpts"]) ];
  Copy IBV_EXP_DEVICE_ATTR_PACKET_PACING_CAPS [
    (["packet_pacing_caps"; "qp_rate_limit_min"], ["packet_pacing_caps"; "qp_rate_limit_min"]);
    (["packet_pacing_caps"; "qp_rate_limit_max"], ["packet_pacing_caps"; "qp_rate_limit_max"]);
    (["packet_pacing_caps"; "supported_qpts"], ["packet_pacing_caps"; "supported_qpts"]) ] ].

Abbreviation exp_attr := S_ibv_exp_device_attr.
Abbreviation exp_resp := S_ibv_exp_query_device_resp.

Definition get (t : cty) (p : path) (m : mem) : Z := default 0 ((λ f, load f m) <$> locate 0 p t).
Definition put (t : cty) (p : path) (v : Z) (m : mem) : mem :=
  match locate 0 p t with Some f => store f v m | None => m end.

(** [(device_attr->comp_mask & BIT) && (resp.comp_mask & BIT)] *)
Definition asked (bit : Z) (attr : mem) : bool := Z.testbit (get exp_attr ["comp_mask"] attr) bit.
Definition granted (bit : Z) (resp attr : mem) : bool :=
  asked bit attr && Z.testbit (get exp_resp ["comp_mask"] resp) bit.

Definition run_block (resp : mem) (b : block) (st : mem * Z) : mem * Z :=
  let '(attr, mask) := st in
  match b with
  | Copy bit fs =>
      if granted bit resp attr then (assigns exp_attr exp_resp fs resp attr, Z.lor mask (2 ^ bit)) else st
  | CapFlags =>
      if granted IBV_EXP_DEVICE_ATTR_EXP_CAP_FLAGS resp attr then
        let flags := u64 (s32 (get S_ibv_device_attr ["device_cap_flags"] attr)) in
        let flags2 := u64 (Z.shiftl (get exp_resp ["device_cap_flags2"] resp) 32) in
        (put exp_attr ["exp_device_cap_flags"] (Z.lor flags flags2) attr,
         Z.lor mask (2 ^ IBV_EXP_DEVICE_ATTR_EXP_CAP_FLAGS))
      else st
  | EcCaps =>
      if granted IBV_EXP_DEVICE_ATTR_EC_CAPS resp attr then
        let attr := assigns exp_attr exp_resp
                      [(["ec_caps"; "max_ec_calc_inflight_calcs"], ["ec_caps"; "max_ec_calc_inflight_calcs"]);
                       (["ec_caps"; "max_ec_data_vector_count"], ["ec_caps"; "max_ec_data_vector_count"])] resp attr in
        let mask := Z.lor mask (2 ^ IBV_EXP_DEVICE_ATTR_EC_CAPS) in
        if asked IBV_EXP_DEVICE_ATTR_EC_GF_BASE attr then
          (assigns exp_attr exp_resp [(["ec_w_mask"], ["ec_w_mask"])] resp attr,
           Z.lor mask (2 ^ IBV_EXP_DEVICE_ATTR_EC_GF_BASE))
        else (attr, mask)
      else st
  end.

Definition shift (n : Z) (m : mem) : mem := λ a, m (a + n).

(** The whole function: the router's answer [resp], the firmware string cleared, the
    basic fields through the cast, the blocks, and the mask of what was filled in. *)
Definition ibv_exp_cmd_query_device (resp attr : mem) : mem * Z :=
  let attr := put exp_attr ["fw_ver"] 0 attr in
  let '(attr, raw_fw_ver) := copy_query_dev_fields (shift 8 resp) attr in
  let '(attr, mask) := foldl (λ st b, run_block resp b st) (attr, 0) dev_blocks in
  (put exp_attr ["comp_mask"] mask attr, raw_fw_ver).

(** ** Loads and stores *)

Definition bytes (m : mem) : Prop := ∀ a, 0 ≤ m a < 256.

Lemma load_bytes_ext o n m m' :
  (∀ a, o ≤ a < o + Z.of_nat n → m a = m' a) → load_bytes o n m = load_bytes o n m'.
Proof.
  revert o. induction n as [|n IH]; intros o Hm; cbn [load_bytes]; [done|].
  rewrite (Hm o) by lia. f_equal. apply IH. intros a Ha. apply Hm. lia.
Qed.

Lemma load_store_ne f g v m :
  0 ≤ f.2 → f.1 + f.2 ≤ g.1 ∨ g.1 + g.2 ≤ f.1 → load f (store g v m) = load f m.
Proof.
  intros Hf Hd. unfold load. f_equal. apply load_bytes_ext. intros a Ha. unfold store.
  destruct (Z.leb_spec g.1 a), (Z.ltb_spec a (g.1 + g.2)); cbn; try done. lia.
Qed.

Lemma load_bytes_store o w v m k n :
  0 ≤ k → k + Z.of_nat n ≤ w → load_bytes (o + k) n (store (o, w) v m) = le_bytes n (v / 256 ^ k).
Proof.
  revert k. induction n as [|n IH]; intros k Hk Hn; cbn [load_bytes le_bytes]; [done|]. f_equal.
  - unfold store. cbn. destruct (Z.leb_spec o (o + k)), (Z.ltb_spec (o + k) (o + w)); try lia. cbn.
    do 3 f_equal. lia.
  - replace (o + k + 1) with (o + (k + 1)) by lia. rewrite IH by lia.
    rewrite Z.pow_add_r by lia. rewrite <- Z.div_div by lia. done.
Qed.

Lemma load_store_eq f v m : 0 ≤ f.2 → 0 ≤ v < 256 ^ f.2 → load f (store f v m) = v.
Proof.
  destruct f as [o w]. cbn. intros Hw Hv. unfold load. cbn.
  pose proof (load_bytes_store o w v m 0 (Z.to_nat w)) as E. rewrite Z.add_0_r, Z.pow_0_r, Z.div_1_r in E.
  rewrite E by lia. apply le_val_bytes. by rewrite Z2Nat.id.
Qed.

Lemma load_bytes_range o n m : bytes m → 0 ≤ le_val (load_bytes o n m) < 256 ^ Z.of_nat n.
Proof.
  intros Hm. revert o. induction n as [|n IH]; intros o; cbn [load_bytes le_val]; [cbn; lia|].
  specialize (IH (o + 1)). specialize (Hm o). rewrite Nat2Z.inj_succ, Z.pow_succ_r by lia. lia.
Qed.

Lemma load_range f m : bytes m → 0 ≤ f.2 → 0 ≤ load f m < 256 ^ f.2.
Proof.
  intros Hm Hw. pose proof (load_bytes_range f.1 (Z.to_nat f.2) m Hm) as Hr.
  by rewrite Z2Nat.id in Hr.
Qed.

(** ** Tables

    The destinations do not overlap and are at least as wide as their sources. *)
Definition apart (f g : Z * Z) : bool := Z.leb (f.1 + f.2) g.1 || Z.leb (g.1 + g.2) f.1.

Fixpoint ok_table (tb : table) : bool :=
  match tb with
  | [] => true
  | (d, s) :: tb =>
      Z.leb 0 s.2 && Z.leb s.2 d.2 && forallb (λ x, apart d x.1) tb && ok_table tb
  end.

Lemma apart_load f g v m : 0 ≤ f.2 → apart f g = true → load f (store g v m) = load f m.
Proof.
  intros Hf Ha. apply load_store_ne; [done|]. unfold apart in Ha.
  by rewrite orb_true_iff, !Z.leb_le in Ha.
Qed.

Lemma run_table_frame tb src dst f :
  0 ≤ f.2 → forallb (λ x, apart f x.1) tb = true → load f (run_table tb src dst) = load f dst.
Proof.
  revert dst. induction tb as [|[d s] tb IH]; intros dst Hf H; cbn [run_table forallb] in *; [done|].
  apply andb_true_iff in H as [H1 H2]. rewrite IH by done. by apply apart_load.
Qed.

Lemma run_table_exact tb src dst d s :
  ok_table tb = true → bytes src → (d, s) ∈ tb → load d (run_table tb src dst) = load s src.
Proof.
  intros Hok Hsrc. revert dst. induction tb as [|[d' s'] tb IH]; intros dst Hin; [set_solver|].
  cbn [ok_table run_table] in *. rewrite !andb_true_iff, !Z.leb_le in Hok. destruct Hok as [[[Hs Hd] Hap] Hok].
  apply elem_of_cons in Hin as [[= -> ->]|Hin]; [|by apply IH].
  rewrite run_table_frame by (done || lia). apply load_store_eq; [lia|].
  pose proof (load_range s' src Hsrc Hs) as [H0 H1]. split; [done|].
  eapply Z.lt_le_trans; [exact H1|]. apply Z.pow_le_mono_r; lia.
Qed.

(** Every assignment of a well-formed list delivers the source's value. *)
Definition ok_assigns (dt st : cty) (l : list (path * path)) : bool :=
  match resolve_table dt st l with Some tb => ok_table tb | None => false end.

Lemma resolve_table_elem dt st l tb d s :
  resolve_table dt st l = Some tb → (d, s) ∈ l →
  ∃ fd fs, locate 0 d dt = Some fd ∧ locate 0 s st = Some fs ∧ (fd, fs) ∈ tb.
Proof.
  unfold resolve_table. intros H. apply mapM_Some in H. induction H as [|[d' s'] y l tb Hy H IH]; intros Hin; [set_solver|].
  apply elem_of_cons in Hin as [[= -> ->]|Hin].
  - destruct (locate 0 d' dt) as [fd|]; [|done]. destruct (locate 0 s' st) as [fs|]; [|done].
    injection Hy as <-. exists fd, fs. do 2 (split; [done|]). set_solver.
  - destruct (IH Hin) as (fd & fs & ? & ? & ?). exists fd, fs. do 2 (split; [done|]). set_solver.
Qed.

Lemma assigns_exact dt st l src dst d s :
  ok_assigns dt st l = true → bytes src → (d, s) ∈ l →
  get dt d (assigns dt st l src dst) = get st s src.
Proof.
  unfold ok_assigns, assigns. destruct (resolve_table dt st l) as [tb|] eqn:E; [|done]. intros Hok Hsrc Hin.
  destruct (resolve_table_elem _ _ _ _ _ _ E Hin) as (fd & fs & Hd & Hs & Hel).
  unfold get. rewrite Hd, Hs. cbn. by apply run_table_exact.
Qed.

(** A member that no assignment writes keeps its value. *)
Definition untouched (f : Z * Z) (dt st : cty) (l : list (path * path)) : bool :=
  match resolve_table dt st l with Some tb => forallb (λ x, apart f x.1) tb | None => true end.

Lemma assigns_frame dt st l src dst f :
  0 ≤ f.2 → untouched f dt st l = true → load f (assigns dt st l src dst) = load f dst.
Proof.
  intros Hf. unfold untouched, assigns. destruct (resolve_table dt st l); [|done]. by apply run_table_frame.
Qed.

(** [copy_query_dev_fields] loses nothing: each of the 39 members of the
    application's structure gets exactly the value the kernel reported, and the raw
    firmware version is returned. *)
Theorem copy_query_dev_exact resp attr n :
  bytes resp → ([n], [n]) ∈ dev_fields →
  get S_ibv_device_attr [n] (copy_query_dev_fields resp attr).1 = get S_ibv_query_device_resp [n] resp ∧
  (copy_query_dev_fields resp attr).2 = get S_ibv_query_device_resp ["fw_ver"] resp.
Proof. intros Hb Hn. split; [|done]. by apply assigns_exact. Qed.

Lemma copy_query_dev_exact_witness :
  get S_ibv_device_attr ["max_qp"] (copy_query_dev_fields (λ a, a mod 256) (λ _, 0)).1 =
  get S_ibv_query_device_resp ["max_qp"] (λ a, a mod 256).
Proof.
  refine (proj1 (copy_query_dev_exact (λ a, a mod 256) (λ _, 0) "max_qp" _ _)).
  - intros a. apply Z.mod_pos_bound. lia.
  - apply list_elem_of_fmap. exists "max_qp"%string. split; [reflexivity|].
    apply list_elem_of_In. vm_compute. tauto.
Defined.

(** The leaves of a structure, to say that a table forgets none. *)
Fixpoint leaves (fuel : nat) (t : cty) : list path :=
  match fuel, t with
  | S fuel, CStruct fs => concat ((λ '(n, t), (cons n) <$> leaves fuel t) <$> fs)
  | _, _ => [[]]
  end.

(**  [ibv_cmd_query_qp]: every member of the attributes, except the flag
    [en_sqd_async_notify], gets exactly the value the kernel reported, without
    truncation; the capabilities and the signalling flag of the initial attributes
    too, and the queue pair's state follows. *)
Theorem query_qp_exact router cmd qp attr init :
  let resp := (router cmd).2 in
  lenZ cmd ≤ QUERY_QP_CMD_MAX → bytes resp →
  ∃ attr' init', ibv_cmd_query_qp router cmd qp attr init =
      Ok (attr', init', get S_ibv_query_qp_resp ["cur_qp_state"] resp) ∧
    (∀ d s, (d, s) ∈ qp_fields → get S_ibv_qp_attr d attr' = get S_ibv_query_qp_resp s resp) ∧
    (∀ d s, (d, s) ∈ qp_init_fields → get S_ibv_qp_init_attr d init' = get S_ibv_query_qp_resp s resp) ∧
    ∀ p, p ∈ leaves 4 S_ibv_qp_attr → p = ["en_sqd_async_notify"] ∨ p ∈ qp_fields.*1.
Proof.
  intros resp Hlen Hb. unfold ibv_cmd_query_qp. destruct (Z.ltb_spec QUERY_QP_CMD_MAX (lenZ cmd)); [lia|].
  fold resp. set (attr' := assigns S_ibv_qp_attr _ _ _ _).
  assert (∀ d s, (d, s) ∈ qp_fields → get S_ibv_qp_attr d attr' = get S_ibv_query_qp_resp s resp) as Ha
    by (intros d s Hds; by apply assigns_exact).
  eexists attr', _. split; [|split; [exact Ha|split]].
  - do 2 f_equal. apply (Ha ["cur_qp_state"] ["cur_qp_state"]). apply list_elem_of_In. vm_compute. tauto.
  - intros d s Hds. by apply assigns_exact.
  - assert (Forall (λ p, p = ["en_sqd_async_notify"%string] ∨ p ∈ qp_fields.*1) (leaves 4 S_ibv_qp_attr)) as HF
      by (apply (bool_decide_unpack _); vm_compute; exact I).
    intros p Hp. by eapply list.Forall_forall in HF.
Qed.

Lemma query_qp_exact_witness :
  ∃ attr' init', ibv_cmd_query_qp (λ _, (0, λ a, a mod 256)) [1; 2] [10; 20; 30; 40; 2] (λ _, 0) (λ _, 0) =
      Ok (attr', init', get S_ibv_query_qp_resp ["cur_qp_state"] (λ a, a mod 256)) ∧
    get S_ibv_qp_attr ["ah_attr"; "dlid"] attr' = get S_ibv_query_qp_resp ["dest"; "dlid"] (λ a, a mod 256).
Proof.
  destruct (query_qp_exact (λ _, (0, λ a, a mod 256)) [1; 2] [10; 20; 30; 40; 2] (λ _, 0) (λ _, 0))
    as (attr' & init' & E & Ha & _).
  - vm_compute. discriminate.
  - intros a. apply Z.mod_pos_bound. lia.
  - exists attr', init'. split; [exact E|]. apply Ha. apply list_elem_of_In. vm_compute. tauto.
Defined.

(** ** The experimental device query *)

Definition field (t : cty) (p : path) : Z * Z := default (0, 0) (locate 0 p t).

Definition ec_fields : list (path * path) :=
  [(["ec_caps"; "max_ec_calc_inflight_calcs"], ["ec_caps"; "max_ec_calc_inflight_calcs"]);
   (["ec_caps"; "max_ec_data_vector_count"], ["ec_caps"; "max_ec_data_vector_count"])].

(** The members a block may write, and the bits it may report. *)
Definition writes (l : list (path * path)) : list (Z * Z) := (λ x, field exp_attr x.1) <$> l.

Definition block_writes (b : block) : list (Z * Z) :=
  match b with
  | Copy _ fs => writes fs
  | CapFlags => [field exp_attr ["exp_device_cap_flags"]]
  | EcCaps => field exp_attr ["ec_w_mask"] :: writes ec_fields
  end.

Definition block_bits (resp attr : mem) (b : block) : Z :=
  match b with
  | Copy bit _ => if granted bit resp attr then 2 ^ bit else 0
  | CapFlags => if granted 3 resp attr then 2 ^ 3 else 0
  | EcCaps => if granted 18 resp attr then Z.lor (2 ^ 18) (if asked 23 attr then 2 ^ 23 else 0) else 0
  end.

Lemma resolve_writes l tb :
  resolve_table exp_attr exp_resp l = Some tb → tb.*1 = writes l.
Proof.
  unfold resolve_table. intros H. apply mapM_Some in H. induction H as [|[d s] y l tb Hy H IH]; [done|].
  cbn in Hy. unfold writes in *. cbn. unfold field at 1. destruct (locate 0 d exp_attr) as [fd|]; [|done].
  destruct (locate 0 s exp_resp); [|done]. injection Hy as <-. cbn. by rewrite IH.
Qed.

Lemma assigns_apart l src dst f :
  0 ≤ f.2 → forallb (apart f) (writes l) = true →
  load f (assigns exp_attr exp_resp l src dst) = load f dst.
Proof.
  intros Hf Ha. apply assigns_frame; [done|]. unfold untouched.
  destruct (resolve_table exp_attr exp_resp l) as [tb|] eqn:E; [|done].
  rewrite <- (resolve_writes _ _ E) in Ha. revert Ha. clear E. induction tb as [|x tb IH]; cbn; [done|].
  rewrite !andb_true_iff. tauto.
Qed.

Lemma run_block_apart resp b attr mask f :
  0 ≤ f.2 → forallb (apart f) (block_writes b) = true → load f (run_block resp b (attr, mask)).1 = load f attr.
Proof.
  intros Hf Ha. unfold run_block. destruct b as [bit fs| |]; cbn [block_writes forallb] in Ha.
  - destruct (granted bit resp attr); [by apply assigns_apart|done].
  - destruct (granted _ resp attr); [|done]. cbn [fst]. unfold put.
    change (locate 0 ["exp_device_cap_flags"] exp_attr) with (Some (field exp_attr ["exp_device_cap_flags"])).
    rewrite andb_true_r in Ha. by apply apart_load.
  - apply andb_true_iff in Ha as [Hw He]. destruct (granted _ resp attr); [|done].
    destruct (asked _ _); cbn [fst].
    + rewrite assigns_apart; [by apply assigns_apart|done|].
      apply andb_true_iff. split; [exact Hw|reflexivity].
    + by apply assigns_apart.
Qed.

Abbreviation cm := (field exp_attr ["comp_mask"]).

Lemma get_cm m : get exp_attr ["comp_mask"] m = load cm m.
Proof. reflexivity. Qed.

Lemma put_cm v m : put exp_attr ["comp_mask"] v m = store cm v m.
Proof. reflexivity. Qed.

Lemma asked_ext bit m m' : load cm m = load cm m' → asked bit m = asked bit m'.
Proof. intros E. unfold asked. by rewrite !get_cm, E. Qed.

Lemma run_block_mask resp b attr mask :
  forallb (apart cm) (block_writes b) = true →
  (run_block resp b (attr, mask)).2 = Z.lor mask (block_bits resp attr b).
Proof.
  intros Ha. unfold run_block, block_bits. destruct b as [bit fs| |].
  - destruct (granted bit resp attr); [done|]. by rewrite Z.lor_0_r.
  - unfold IBV_EXP_DEVICE_ATTR_EXP_CAP_FLAGS. destruct (granted 3 resp attr); [done|]. by rewrite Z.lor_0_r.
  - unfold IBV_EXP_DEVICE_ATTR_EC_CAPS, IBV_EXP_DEVICE_ATTR_EC_GF_BASE.
    destruct (granted 18 resp attr); [|by rewrite Z.lor_0_r].
    cbn [block_writes forallb] in Ha. apply andb_true_iff in Ha as [_ He].
    rewrite (asked_ext 23 _ attr) by (by apply assigns_apart).
    destruct (asked 23 attr); cbn [snd]; [by rewrite Z.lor_assoc|by rewrite Z.lor_0_r].
Qed.

(** All the blocks together: which bits are reported, and what is left alone. *)
Definition block_reports (b : block) : list Z :=
  match b with Copy bit _ => [bit] | CapFlags => [3] | EcCaps => [18; 23] end.

Definition reported (resp attr : mem) (i : Z) : bool :=
  if Z.eqb i IBV_EXP_DEVICE_ATTR_EC_GF_BASE
  then granted IBV_EXP_DEVICE_ATTR_EC_CAPS resp attr && asked IBV_EXP_DEVICE_ATTR_EC_GF_BASE attr
  else granted i resp attr.

Definition has (i : Z) (l : list Z) : bool := existsb (Z.eqb i) l.

Abbreviation run_blocks resp := (foldl (λ st b, run_block resp b st)).

Definition sane_block (b : block) : bool :=
  forallb (apart cm) (block_writes b) &&
  match b with
  | Copy bit fs => Z.leb 0 bit && negb (Z.eqb bit 23) && ok_assigns exp_attr exp_resp fs &&
                   forallb (λ f, Z.leb 0 f.2) (writes fs)
  | _ => true
  end.

Lemma pow2_testbit k i : 0 ≤ k → Z.testbit (2 ^ k) i = Z.eqb i k.
Proof. intros Hk. rewrite Z.pow2_bits_eqb by done. apply Z.eqb_sym. Qed.

Lemma block_bits_testbit resp attr b i :
  sane_block b = true → Z.testbit (block_bits resp attr b) i = has i (block_reports b) && reported resp attr i.
Proof.
  intros Hs. unfold sane_block in Hs. apply andb_true_iff in Hs as [_ Hs]. unfold reported, has.
  unfold IBV_EXP_DEVICE_ATTR_EC_GF_BASE, IBV_EXP_DEVICE_ATTR_EC_CAPS.
  destruct b as [bit fs| |]; cbn [block_bits block_reports existsb].
  - rewrite !andb_true_iff, negb_true_iff, Z.leb_le in Hs. destruct Hs as [[[Hb H23] _] _].
    destruct (Z.eqb_spec i bit) as [->|Hne]; rewrite ?H23.
    + destruct (granted bit resp attr); [by rewrite pow2_testbit, Z.eqb_refl|by rewrite Z.testbit_0_l].
    + destruct (granted bit resp attr); [|by rewrite Z.testbit_0_l].
      rewrite pow2_testbit by done. by rewrite (proj2 (Z.eqb_neq i bit) Hne).
  - destruct (Z.eqb_spec i 3) as [->|Hne].
    + by destruct (granted 3 resp attr).
    + destruct (granted 3 resp attr); [|by rewrite Z.testbit_0_l].
      rewrite pow2_testbit by lia. by rewrite (proj2 (Z.eqb_neq i 3) Hne).
  - destruct (granted 18 resp attr) eqn:Eg.
    + rewrite Z.lor_spec, pow2_testbit by lia.
      destruct (Z.eqb_spec i 18) as [->|H18]; [by cbn; rewrite Eg|]. cbn [orb].
      destruct (asked 23 attr); rewrite ?pow2_testbit, ?Z.testbit_0_l by lia;
        destruct (Z.eqb_spec i 23); done.
    + rewrite Z.testbit_0_l. destruct (Z.eqb_spec i 18) as [->|H18]; [by cbn; rewrite Eg|].
      destruct (Z.eqb_spec i 23); done.
Qed.

Lemma run_block_cm resp b st : sane_block b = true → load cm (run_block resp b st).1 = load cm st.1.
Proof.
  intros Hs. destruct st as [attr mask]. apply run_block_apart; [done|].
  unfold sane_block in Hs. by apply andb_true_iff in Hs as [? _].
Qed.

Lemma reported_ext resp m m' i : load cm m = load cm m' → reported resp m i = reported resp m' i.
Proof. intros E. unfold reported, granted. by rewrite !(asked_ext _ m m' E). Qed.

Lemma run_blocks_cm resp bs st :
  forallb sane_block bs = true → load cm (run_blocks resp st bs).1 = load cm st.1.
Proof.
  revert st. induction bs as [|b bs IH]; intros st Hs; cbn in *; [done|].
  apply andb_true_iff in Hs as [Hb Hs]. by rewrite IH, run_block_cm.
Qed.

Lemma run_blocks_mask resp bs st i :
  forallb sane_block bs = true →
  Z.testbit (run_blocks resp st bs).2 i =
  Z.testbit st.2 i || has i (concat (block_reports <$> bs)) && reported resp st.1 i.
Proof.
  revert st. induction bs as [|b bs IH]; intros [attr mask] Hs; cbn [foldl]; [by rewrite orb_false_r|].
  apply andb_true_iff in Hs as [Hb Hs]. rewrite IH by done.
  rewrite run_block_mask by (unfold sane_block in Hb; by apply andb_true_iff in Hb as [? _]).
  rewrite (reported_ext resp _ attr) by (by apply (run_block_cm resp b (attr, mask))).
  rewrite Z.lor_spec, block_bits_testbit by done. cbn [fmap list_fmap concat].
  unfold has. rewrite existsb_app. cbn [fst snd].
  destruct (Z.testbit mask i), (reported resp attr i), (existsb _ _), (existsb _ _); done.
Qed.

Lemma run_blocks_apart resp bs st f :
  0 ≤ f.2 → forallb (λ b, forallb (apart f) (block_writes b)) bs = true →
  load f (run_blocks resp st bs).1 = load f st.1.
Proof.
  intros Hf. revert st. induction bs as [|b bs IH]; intros [attr mask] H; cbn [foldl forallb] in *; [done|].
  apply andb_true_iff in H as [Hb H]. rewrite IH by done. by apply run_block_apart.
Qed.

(** No block writes a member another block writes, and none of them is a basic
    member, the firmware version or [comp_mask]. *)
Definition alone (f : Z * Z) (bs : list block) : bool :=
  apart f cm && forallb (λ b, forallb (apart f) (block_writes b)) bs &&
  apart f (field exp_attr ["fw_ver"]) &&
  untouched f S_ibv_device_attr S_ibv_query_device_resp dev_fields.

Fixpoint ok_order (pre bs : list block) : bool :=
  match bs with
  | [] => true
  | b :: bs =>
      match b with Copy _ fs => forallb (λ f, alone f (pre ++ bs)) (writes fs) | _ => true end &&
      ok_order (pre ++ [b]) bs
  end.

Lemma ok_order_split pre bs1 bit fs bs2 :
  ok_order pre (bs1 ++ Copy bit fs :: bs2) = true →
  forallb (λ f, alone f (pre ++ bs1 ++ bs2)) (writes fs) = true.
Proof.
  revert pre. induction bs1 as [|b bs1 IH]; intros pre H; cbn [ok_order app] in H;
    apply andb_true_iff in H as [H H']; [done|].
  apply IH in H'. by rewrite <- app_assoc in H'.
Qed.

Lemma writes_elem d s fs : (d, s) ∈ fs → field exp_attr d ∈ writes fs.
Proof. intros Hin. apply list_elem_of_fmap. by exists (d, s). Qed.

Lemma located l d s :
  ok_assigns exp_attr exp_resp l = true → (d, s) ∈ l → locate 0 d exp_attr = Some (field exp_attr d).
Proof.
  unfold ok_assigns. destruct (resolve_table _ _ l) as [tb|] eqn:E; [|done]. intros _ Hin.
  destruct (resolve_table_elem _ _ _ _ _ _ E Hin) as (fd & fs & Hd & _). unfold field. by rewrite Hd.
Qed.

(** The attributes when the blocks start. *)
Definition basics (resp attr : mem) : mem :=
  (copy_query_dev_fields (shift 8 resp) (put exp_attr ["fw_ver"] 0 attr)).1.

Lemma query_device_unfold resp attr :
  (ibv_exp_cmd_query_device resp attr).1 =
  put exp_attr ["comp_mask"] (run_blocks resp (basics resp attr, 0) dev_blocks).2
    (run_blocks resp (basics resp attr, 0) dev_blocks).1.
Proof.
  unfold ibv_exp_cmd_query_device, basics, copy_query_dev_fields. cbn [fst].
  by destruct (run_blocks resp _ dev_blocks).
Qed.

Lemma basics_apart resp attr f :
  0 ≤ f.2 → apart f (field exp_attr ["fw_ver"]) = true →
  untouched f S_ibv_device_attr S_ibv_query_device_resp dev_fields = true →
  load f (basics resp attr) = load f attr.
Proof.
  intros Hf Hw Hu. unfold basics, copy_query_dev_fields. cbn [fst]. rewrite assigns_frame by done.
  unfold put. change (locate 0 ["fw_ver"] exp_attr) with (Some (field exp_attr ["fw_ver"])).
  by apply apart_load.
Qed.

Lemma basics_cm resp attr : load cm (basics resp attr) = load cm attr.
Proof. by apply basics_apart. Qed.

Lemma dev_blocks_sane : forallb sane_block dev_blocks = true.
Proof. vm_compute. reflexivity. Qed.

Lemma dev_blocks_order : ok_order [] dev_blocks = true.
Proof. vm_compute. reflexivity. Qed.

Lemma dev_blocks_mask resp attr i :
  Z.testbit (run_blocks resp (basics resp attr, 0) dev_blocks).2 i =
  Z.leb 1 i && Z.leb i 23 && reported resp attr i.
Proof.
  rewrite run_blocks_mask by apply dev_blocks_sane. cbn [fst snd]. rewrite Z.testbit_0_l. cbn [orb].
  rewrite (reported_ext resp _ attr) by apply basics_cm. f_equal.
  set (l := concat _). vm_compute in l. unfold has, l. cbn [existsb].
  destruct (Z.leb_spec 1 i), (Z.leb_spec i 23); cbn [andb];
    repeat match goal with |- context [Z.eqb i ?k] => destruct (Z.eqb_spec i k); try lia; try done end.
Qed.

Lemma dev_blocks_mask_bound resp attr :
  0 ≤ (run_blocks resp (basics resp attr, 0) dev_blocks).2 < 256 ^ 4.
Proof.
  set (m := (run_blocks _ _ _).2). replace m with (m mod 2 ^ 32); [change (256 ^ 4) with (2 ^ 32); apply Z.mod_pos_bound; lia|].
  apply Z.bits_inj'. intros i Hi. destruct (Z.ltb_spec i 32).
  - by rewrite Z.mod_pow2_bits_low.
  - rewrite Z.mod_pow2_bits_high by lia. unfold m. rewrite dev_blocks_mask.
    by rewrite (proj2 (Z.leb_gt i 23)), andb_false_r by lia.
Qed.

Lemma copy_block_exact resp attr bit fs d s :
  bytes resp → Copy bit fs ∈ dev_blocks → (d, s) ∈ fs →
  get exp_attr d (ibv_exp_cmd_query_device resp attr).1 =
  if granted bit resp attr then get exp_resp s resp else get exp_attr d attr.
Proof.
  intros Hb Hin Hds. rewrite query_device_unfold. set (m0 := basics resp attr).
  pose proof dev_blocks_sane as Hsane. pose proof dev_blocks_order as Hord.
  apply list_elem_of_split in Hin as (bs1 & bs2 & E). rewrite E in *. apply ok_order_split in Hord.
  rewrite forallb_app in Hsane. apply andb_true_iff in Hsane as [Hs1 Hs2].
  apply andb_true_iff in Hs2 as [Hsb Hs2]. unfold sane_block in Hsb. rewrite !andb_true_iff in Hsb.
  destruct Hsb as (Hcm & (_ & Hok) & Hwd).
  pose proof (located _ _ _ Hok Hds) as Hloc. pose proof (writes_elem _ _ _ Hds) as Hw.
  rewrite forallb_forall in Hord, Hwd. apply list_elem_of_In in Hw.
  specialize (Hord _ Hw). specialize (Hwd _ Hw). cbn [app] in Hord. apply Z.leb_le in Hwd.
  unfold alone in Hord. rewrite !andb_true_iff, forallb_app, andb_true_iff in Hord.
  destruct Hord as [[[Hc [H1 H2]] Hf] Hu].
  assert (∀ m, get exp_attr d m = load (field exp_attr d) m) as Eg by (intros m; unfold get; by rewrite Hloc).
  rewrite !Eg, put_cm, apart_load by done.
  rewrite foldl_app. cbn [foldl]. rewrite run_blocks_apart by done.
  set (st := run_blocks resp (m0, 0) bs1).
  assert (load cm st.1 = load cm attr) as Ecm by (unfold st; rewrite run_blocks_cm by done; apply basics_cm).
  assert (load (field exp_attr d) st.1 = load (field exp_attr d) attr) as Ed
    by (unfold st; rewrite run_blocks_apart by done; by apply basics_apart).
  destruct st as [m mask]. cbn [fst] in *. unfold run_block.
  replace (granted bit resp m) with (granted bit resp attr) by (unfold granted; by rewrite (asked_ext bit m attr Ecm)).
  destruct (granted bit resp attr); cbn [fst].
  - rewrite <- Eg. by apply assigns_exact.
  - exact Ed.
Qed.

(**  The experimental device query fills in what the application asked for and the
    device supports, and says so: bit [i] of the returned mask is set exactly when it
    is one of the known capabilities, was asked for and is in the device's answer
    (the Galois-field bit is reported with the erasure-coding ones); each member of a
    reported capability has the device's value, and each member of one that is not
    reported keeps the value it had. *)
Theorem exp_query_device_exact resp attr :
  bytes resp →
  let attr' := (ibv_exp_cmd_query_device resp attr).1 in
  (∀ i, Z.testbit (get exp_attr ["comp_mask"] attr') i = Z.leb 1 i && Z.leb i 23 && reported resp attr i) ∧
  ∀ bit fs d s, Copy bit fs ∈ dev_blocks → (d, s) ∈ fs →
    get exp_attr d attr' = if granted bit resp attr then get exp_resp s resp else get exp_attr d attr.
Proof.
  intros Hb attr'. split.
  - intros i. rewrite get_cm. unfold attr'. rewrite query_device_unfold, put_cm, load_store_eq; [apply dev_blocks_mask|done|apply dev_blocks_mask_bound].
  - intros bit fs d s. by apply copy_block_exact.
Qed.

Lemma exp_query_device_exact_witness :
  Z.testbit (get exp_attr ["comp_mask"] (ibv_exp_cmd_query_device (λ _, 255) (λ _, 255)).1) 19 = true ∧
  get exp_attr ["masked_atomic"; "max_fa_bit_boundary"] (ibv_exp_cmd_query_device (λ _, 255) (λ _, 255)).1 =
  get exp_resp ["max_fa_bit_boundary"] (λ _, 255).
Proof.
  destruct (exp_query_device_exact (λ _, 255) (λ _, 255)) as [Hm Hf]; [intros a; lia|]. split.
  - rewrite Hm. vm_compute. reflexivity.
  - refine (eq_trans (Hf 19 _ _ _ _ _) _).
    + apply list_elem_of_In. do 18 right. left. reflexivity.
    + apply list_elem_of_In. right; right; left. reflexivity.
    + vm_compute. reflexivity.
Defined.
