(* ===== verification/Marshall.v ===== *)
(** * Conversion between the kernel's structures and the application's

    [libibverbs/src/marshall.c], used by the connection manager for queue-pair
    attributes and path records: tables of assignments in the sense of [Attrs]. *)

From S2P Require Import Prelude Layout FfTypes Attrs.

Definition S_ibv_sa_path_rec : cty := CStruct [
    ("dgid", U_ibv_gid); ("sgid", U_ibv_gid); ("dlid", CInt 2); ("slid", CInt 2);
    ("raw_traffic", CInt 4); ("flow_label", CInt 4); ("hop_limit", CInt 1); ("traffic_class", CInt 1);
    ("reversible", CInt 4); ("numb_path", CInt 1); ("pkey", CInt 2); ("sl", CInt 1);
    ("mtu_selector", CInt 1); ("mtu", CInt 1); ("rate_selector", CInt 1); ("rate", CInt 1);
    ("packet_life_time_selector", CInt 1); ("packet_life_time", CInt 1); ("preference", CInt 1) ].

(** ** Address handles and queue pairs *)
Definition ah_attr_fields : list (path * path) :=
  (λ p, (p, p)) <$> [["grh"; "dgid"]; ["grh"; "flow_label"]; ["grh"; "sgid_index"]; ["grh"; "hop_limit"];
                     ["grh"; "traffic_class"]; ["dlid"]; ["sl"]; ["src_path_bits"]; ["static_rate"];
                     ["is_global"]; ["port_num"]].

Definition ibv_copy_ah_attr_from_kern (src dst : mem) : mem :=
  assigns S_ibv_ah_attr S_ibv_kern_ah_attr ah_attr_fields src dst.

(** The same assignments on the member [n] of both structures. *)
Definition under (n : string) (l : list (path * path)) : list (path * path) :=
  (λ '(d, s), (n :: d, n :: s)) <$> l.

Definition qp_attr_fields : list (path * path) :=
  same ["cur_qp_state"; "path_mtu"; "path_mig_state"; "qkey"; "rq_psn"; "sq_psn"; "dest_qp_num"; "qp_access_flags"] ++
  ((λ n, (["cap"; n], [n])) <$> ["max_send_wr"; "max_recv_wr"; "max_send_sge"; "max_recv_sge"; "max_inline_data"]) ++
  under "ah_attr" ah_attr_fields ++ under "alt_ah_attr" ah_attr_fields ++
  same ["pkey_index"; "alt_pkey_index"; "en_sqd_async_notify"; "sq_draining"; "max_rd_atomic";
        "max_dest_rd_atomic"; "min_rnr_timer"; "port_num"; "timeout"; "retry_cnt"; "rnr_retry";
        "alt_port_num"; "alt_timeout"].

Definition ibv_copy_qp_attr_from_kern (src dst : mem) : mem :=
  assigns S_ibv_qp_attr S_ibv_kern_qp_attr qp_attr_fields src dst.

(** ** Path records *)
Definition path_rec_fields : list (path * path) :=
  same ["dgid"; "sgid"; "dlid"; "slid"; "raw_traffic"; "flow_label"; "hop_limit"; "traffic_class";
        "reversible"; "numb_path"; "pkey"; "sl"; "mtu_selector"; "mtu"; "rate_selector"; "rate";
        "packet_life_time"; "preference"; "packet_life_time_selector"].

Definition ibv_copy_path_rec_from_kern (src dst : mem) : mem :=
  assigns S_ibv_sa_path_rec S_ibv_kern_path_rec path_rec_fields src dst.

Definition ibv_copy_path_rec_to_kern (src dst : mem) : mem :=
  assigns S_ibv_kern_path_rec S_ibv_sa_path_rec path_rec_fields src dst.

(** ** Assignments that may narrow: the low bytes arrive *)

Lemma le_val_bytes_mod n z : le_val (le_bytes n z) = z mod 256 ^ Z.of_nat n.
Proof.
  revert z. induction n as [|n IH]; intros z; cbn [le_bytes le_val]; [by rewrite Z.mod_1_r|].
  rewrite IH, Nat2Z.inj_succ, Z.pow_succ_r by lia. rewrite Z.rem_mul_r by lia. lia.
Qed.

Lemma load_store_mod f v m : 0 ≤ f.2 → load f (store f v m) = v mod 256 ^ f.2.
Proof.
  destruct f as [o w]. cbn. intros Hw. unfold load. cbn.
  pose proof (load_bytes_store o w v m 0 (Z.to_nat w)) as E. rewrite Z.add_0_r, Z.pow_0_r, Z.div_1_r in E.
  rewrite E by lia. rewrite le_val_bytes_mod. by rewrite Z2Nat.id.
Qed.

Fixpoint apart_table (tb : table) : bool :=
  match tb with
  | [] => true
  | (d, s) :: tb => Z.leb 0 d.2 && forallb (λ x, apart d x.1) tb && apart_table tb
  end.

Lemma run_table_low tb src dst d s :
  apart_table tb = true → (d, s) ∈ tb → load d (run_table tb src dst) = load s src mod 256 ^ d.2.
Proof.
  intros Hok. revert dst. induction tb as [|[d' s'] tb IH]; intros dst Hin; [set_solver|].
  cbn [apart_table run_table] in *. rewrite !andb_true_iff, Z.leb_le in Hok. destruct Hok as [[Hd Hap] Hok].
  apply elem_of_cons in Hin as [[= -> ->]|Hin]; [|by apply IH].
  rewrite run_table_frame by done. by apply load_store_mod.
Qed.

Definition apart_assigns (dt st : cty) (l : list (path * path)) : bool :=
  match resolve_table dt st l with Some tb => apart_table tb | None => false end.

Lemma assigns_low dt st l src dst d s fd :
  apart_assigns dt st l = true → (d, s) ∈ l → locate 0 d dt = Some fd →
  get dt d (assigns dt st l src dst) = get st s src mod 256 ^ fd.2.
Proof.
  unfold apart_assigns, assigns. destruct (resolve_table dt st l) as [tb|] eqn:E; [|done]. intros Hok Hin Hfd.
  destruct (resolve_table_elem _ _ _ _ _ _ E Hin) as (fd' & fs & Hd & Hs & Hel).
  assert (fd' = fd) as -> by congruence. unfold get. rewrite Hd, Hs. cbn. by apply run_table_low.
Qed.

(** Every destination of a table exists. *)
Definition has_width (t : cty) (l : list (path * path)) : bool :=
  forallb (λ x, match locate 0 x.1 t with Some f => Z.leb 0 f.2 | None => false end) l.

Lemma has_width_elem t l x : has_width t l = true → x ∈ l → ∃ f, locate 0 x.1 t = Some f ∧ 0 ≤ f.2.
Proof.
  unfold has_width. rewrite forallb_forall. intros H Hx. apply list_elem_of_In, H in Hx.
  destruct (locate 0 x.1 t) as [f|]; [|done]. exists f. split; [done|]. by apply Z.leb_le.
Qed.

Lemma path_rec_widths : has_width S_ibv_sa_path_rec path_rec_fields = true.
Proof. vm_compute. reflexivity. Qed.


