(* ===== verification/Indexer.v ===== *)
(** * Index tables of the connection manager

    [librdmacm/src/indexer.c] and [indexer.h]: two-level tables of at most 65536
    pointers.  [struct indexer] hands out indices from a free list threaded through
    the unused cells; [struct index_map] associates a pointer with an index chosen by
    the caller, and is what [cma.c] keeps its identifiers in.  A cell is its 64 raw
    bits: the union of a pointer and a 32-bit link overlays the two. *)

From S2P Require Import Prelude.

Definition IDX_INDEX_BITS : Z := 16.
Definition IDX_ENTRY_BITS : Z := 10.
Definition IDX_ENTRY_SIZE : Z := Z.shiftl 1 IDX_ENTRY_BITS.
Definition IDX_ARRAY_SIZE : Z := Z.shiftl 1 (IDX_INDEX_BITS - IDX_ENTRY_BITS).
Definition IDX_MAX_INDEX : Z := Z.shiftl 1 IDX_INDEX_BITS - 1.

Definition idx_array_index (index : Z) : Z := Z.shiftr index IDX_ENTRY_BITS.
Definition idx_entry_index (index : Z) : Z := Z.land index (IDX_ENTRY_SIZE - 1).

(** ** The two levels

    The blocks that are allocated, by their number; a missing block is NULL. *)
Abbreviation blocks := (gmap Z (list Z)).

Definition block_at (a : blocks) (index : Z) : res (list Z) :=
  do* in_bounds "array" (idx_array_index index) IDX_ARRAY_SIZE;
  deref "entry" (a !! idx_array_index index).

Definition cell (a : blocks) (index : Z) : res Z :=
  let* entry := block_at a index in
  deref "entry[]" (entry !! Z.to_nat (idx_entry_index index)).

Definition set_cell (a : blocks) (index v : Z) : res blocks :=
  let* entry := block_at a index in
  Ok (<[idx_array_index index := <[Z.to_nat (idx_entry_index index) := v]> entry]> a).

(** [union idx_entry]: the link is the low half of the pointer. *)
Definition next_of (raw : Z) : Z := s32 raw.
Definition with_next (raw n : Z) : Z := raw - raw mod 2 ^ 32 + u32 n.

(** ** [struct indexer] *)
Record indexer := mkIndexer { idx_array : blocks; free_list : Z; idx_size : Z }.

Definition empty_indexer : indexer := mkIndexer ∅ 0 0.

(** The new block: each entry is linked to the next one, the last to the free list. *)
Definition linked_block (start_index free : Z) : list Z :=
  ((λ i, with_next 0 (start_index + i + 1)) <$> seqZ 0 (IDX_ENTRY_SIZE - 1)) ++ [with_next 0 free].

(** [alloc] tells whether [calloc] succeeds. *)
Definition idx_grow (alloc : bool) (idx : indexer) : Z * indexer :=
  if Z.leb IDX_ARRAY_SIZE (idx_size idx) then (-1, idx)
  else if negb alloc then (-1, mkIndexer (delete (idx_size idx) (idx_array idx)) (free_list idx) (idx_size idx))
  else
    let start_index := Z.shiftl (idx_size idx) IDX_ENTRY_BITS in
    let a := <[idx_size idx := linked_block start_index (free_list idx)]> (idx_array idx) in
    let start_index := if Z.eqb start_index 0 then start_index + 1 else start_index in
    (start_index, mkIndexer a start_index (idx_size idx + 1)).

Definition idx_insert (alloc : bool) (item : Z) (idx : indexer) : res (Z * indexer) :=
  let '(index, idx) := if Z.eqb (free_list idx) 0 then idx_grow alloc idx else (free_list idx, idx) in
  if Z.leb index 0 then Ok (index, idx)
  else
    let* raw := cell (idx_array idx) index in
    let* a := set_cell (idx_array idx) index item in
    Ok (index, mkIndexer a (next_of raw) (idx_size idx)).

Definition idx_remove (index : Z) (idx : indexer) : res (Z * indexer) :=
  let* item := cell (idx_array idx) index in
  let* a := set_cell (idx_array idx) index (with_next item (free_list idx)) in
  Ok (item, mkIndexer a index (idx_size idx)).

Definition idx_replace (index item : Z) (idx : indexer) : res indexer :=
  let* a := set_cell (idx_array idx) index item in
  Ok (mkIndexer a (free_list idx) (idx_size idx)).

Definition idx_at (index : Z) (idx : indexer) : res Z := cell (idx_array idx) index.

(** ** [struct index_map]; 0 is NULL *)
Abbreviation index_map := blocks.

Definition idm_grow (alloc : bool) (index : Z) (idm : index_map) : res (Z * index_map) :=
  do* in_bounds "array" (idx_array_index index) IDX_ARRAY_SIZE;
  if alloc
  then Ok (index, <[idx_array_index index := replicate (Z.to_nat IDX_ENTRY_SIZE) 0]> idm)
  else Ok (-1, delete (idx_array_index index) idm).

Definition idm_set (alloc : bool) (index item : Z) (idm : index_map) : res (Z * index_map) :=
  if Z.ltb IDX_MAX_INDEX index then Ok (-1, idm)
  else
    do* in_bounds "array" (idx_array_index index) IDX_ARRAY_SIZE;
    let* (r, idm) := (match idm !! idx_array_index index with
                      | Some _ => Ok (0, idm)
                      | None => idm_grow alloc index idm
                      end) in
    if Z.ltb r 0 then Ok (-1, idm)
    else let* idm := set_cell idm index item in Ok (index, idm).

Definition idm_clear (index : Z) (idm : index_map) : res (Z * index_map) :=
  let* item := cell idm index in
  let* idm := set_cell idm index 0 in
  Ok (item, idm).

Definition idm_at (index : Z) (idm : index_map) : res Z := cell idm index.

Definition idm_lookup (index : Z) (idm : index_map) : res Z :=
  if Z.leb index IDX_MAX_INDEX then
    do* in_bounds "array" (idx_array_index index) IDX_ARRAY_SIZE;
    match idm !! idx_array_index index with
    | Some _ => idm_at index idm
    | None => Ok 0
    end
  else Ok 0.

(** [cma.c]: the identifiers of the connection manager by their handle; the result
    of the insertion is not looked at. *)
Definition ucma_insert_id (alloc : bool) (handle id : Z) (idm : index_map) : res index_map :=
  let* (_, idm) := idm_set alloc (s32 handle) id idm in Ok idm.

Definition ucma_remove_id (handle : Z) (idm : index_map) : res index_map :=
  if Z.leb handle IDX_MAX_INDEX then let* (_, idm) := idm_clear (s32 handle) idm in Ok idm
  else Ok idm.

Definition ucma_lookup_id (handle : Z) (idm : index_map) : res Z := idm_lookup handle idm.

(** ** Cells *)

Lemma split_index i : 0 ≤ i < 65536 →
  0 ≤ idx_array_index i < 64 ∧ 0 ≤ idx_entry_index i < 1024 ∧ i = idx_array_index i * 1024 + idx_entry_index i.
Proof.
  intros Hi. unfold idx_array_index, idx_entry_index.
  change (IDX_ENTRY_SIZE - 1) with (Z.ones 10). rewrite Z.land_ones by lia.
  rewrite Z.shiftr_div_pow2 by (unfold IDX_ENTRY_BITS; lia).
  change (2 ^ IDX_ENTRY_BITS) with 1024. change (2 ^ 10) with 1024.
  pose proof (Z.div_mod i 1024). pose proof (Z.mod_pos_bound i 1024). lia.
Qed.

(** The blocks [0 .. n) are there, each of full length. *)
Definition full (a : blocks) (b : Z) : Prop := ∃ e, a !! b = Some e ∧ lenZ e = 1024.

(** The contents of a cell, in proofs. *)
Definition peek (a : blocks) (i : Z) : Z :=
  match a !! idx_array_index i with
  | Some e => default 0 (e !! Z.to_nat (idx_entry_index i))
  | None => 0
  end.

Lemma block_at_Ok a i e : 0 ≤ i < 65536 → a !! idx_array_index i = Some e → block_at a i = Ok e.
Proof.
  intros Hi He. unfold block_at. rewrite (proj2 (in_bounds_Ok _ _ _)).
  - cbn [rbind]. by rewrite He.
  - change IDX_ARRAY_SIZE with 64. apply split_index in Hi. tauto.
Qed.

Lemma cell_Ok a i : 0 ≤ i < 65536 → full a (idx_array_index i) → cell a i = Ok (peek a i).
Proof.
  intros Hi (e & He & Hlen). unfold cell. rewrite (block_at_Ok _ _ _ Hi He). cbn [rbind].
  unfold peek. rewrite He. destruct (split_index i Hi) as (_ & Hr & _). unfold lenZ in Hlen.
  destruct (lookup_lt_is_Some_2 e (Z.to_nat (idx_entry_index i))) as [v Hv]; [lia|]. by rewrite Hv.
Qed.

Lemma set_cell_Ok a i v : 0 ≤ i < 65536 → full a (idx_array_index i) →
  ∃ a', set_cell a i v = Ok a' ∧ (∀ b, full a b → full a' b) ∧ (∀ b, a !! b = None → a' !! b = None) ∧
    peek a' i = v ∧ ∀ j, 0 ≤ j < 65536 → j ≠ i → peek a' j = peek a j.
Proof.
  intros Hi (e & He & Hlen). unfold set_cell. rewrite (block_at_Ok _ _ _ Hi He). cbn [rbind].
  destruct (split_index i Hi) as (_ & Hr & Hsi). unfold lenZ in Hlen.
  eexists. split; [done|]. repeat split.
  - intros b (e' & He' & Hlen'). unfold full. destruct (decide (b = idx_array_index i)) as [->|Hne].
    + eexists. split; [apply lookup_insert_eq|]. unfold lenZ. by rewrite length_insert.
    + exists e'. by rewrite lookup_insert_ne by done.
  - intros b Hb. rewrite lookup_insert_ne; [done|]. intros <-. congruence.
  - unfold peek. rewrite lookup_insert_eq, list_lookup_insert_eq by lia. done.
  - intros j Hj Hne. unfold peek. destruct (split_index j Hj) as (_ & Hrj & Hsj).
    destruct (decide (idx_array_index j = idx_array_index i)) as [E|E].
    + rewrite E, lookup_insert_eq, He. rewrite list_lookup_insert_ne; [done|]. intros E'. apply Hne. lia.
    + by rewrite lookup_insert_ne by done.
Qed.

Lemma s32_id z : 0 ≤ z < 65537 → s32 z = z.
Proof.
  intros Hz. unfold s32, sint. rewrite Z.mod_small by lia. change (2 ^ (32 - 1)) with 2147483648.
  by rewrite (proj2 (Z.ltb_lt _ _)) by lia.
Qed.

Lemma next_with_next raw n : 0 ≤ n < 65537 → next_of (with_next raw n) = n.
Proof.
  intros Hn. unfold next_of, with_next, s32, sint. rewrite u32_id by lia.
  replace ((raw - raw mod 2 ^ 32 + n) mod 2 ^ 32) with n.
  - change (2 ^ (32 - 1)) with 2147483648. by rewrite (proj2 (Z.ltb_lt _ _)) by lia.
  - rewrite Z.add_comm. rewrite <- Z.add_mod_idemp_r by lia. rewrite Zminus_mod_idemp_r.
    rewrite Z.sub_diag, Z.mod_0_l, Z.add_0_r, Z.mod_small by lia. done.
Qed.

(** ** What the indexer promises

    The pointers stored so far, by index.  An insertion gives an index in
    [1 .. 65535] that is not in use, or fails when there is no memory or none is
    left. *)
Inductive idx_op := Insert (alloc : bool) (item : Z) | Remove (index : Z) | Replace (index item : Z) | At (index : Z).

Definition idx_exec (o : idx_op) (idx : indexer) : res (Z * indexer) :=
  match o with
  | Insert alloc item => idx_insert alloc item idx
  | Remove index => idx_remove index idx
  | Replace index item => let* idx := idx_replace index item idx in Ok (0, idx)
  | At index => let* item := idx_at index idx in Ok (item, idx)
  end.

(** The caller uses only indices it was given and has not removed. *)
Definition legal (m : gmap Z Z) (o : idx_op) : Prop :=
  match o with
  | Insert _ _ => True
  | Remove i | Replace i _ | At i => is_Some (m !! i)
  end.

Inductive idx_spec (m : gmap Z Z) : idx_op → Z → gmap Z Z → Prop :=
  | spec_insert alloc item i : m !! i = None → 1 ≤ i ≤ 65535 → idx_spec m (Insert alloc item) i (<[i := item]> m)
  | spec_fail alloc item :
      alloc = false ∨ (∀ i, 1 ≤ i ≤ 65535 → is_Some (m !! i)) → idx_spec m (Insert alloc item) (-1) m
  | spec_remove i item : m !! i = Some item → idx_spec m (Remove i) item (delete i m)
  | spec_replace i item : idx_spec m (Replace i item) 0 (<[i := item]> m)
  | spec_at i item : m !! i = Some item → idx_spec m (At i) item m.

(** The free list, cell after cell, down to 0. *)
Fixpoint chain (a : blocks) (from : Z) (l : list Z) : Prop :=
  match l with
  | [] => from = 0
  | i :: l => from = i ∧ chain a (next_of (peek a i)) l
  end.

Record idx_ok (m : gmap Z Z) (idx : indexer) (fl : list Z) : Prop := {
  ok_size : 0 ≤ idx_size idx ≤ 64;
  ok_full b : 0 ≤ b < idx_size idx → full (idx_array idx) b;
  ok_chain : chain (idx_array idx) (free_list idx) fl;
  ok_nodup : NoDup fl;
  ok_cover i : 1 ≤ i < idx_size idx * 1024 ↔ i ∈ fl ∨ is_Some (m !! i);
  ok_apart i : i ∈ fl → m !! i = None;
  ok_item i item : m !! i = Some item → peek (idx_array idx) i = item
}.

Lemma ok_bound m idx fl i : idx_ok m idx fl → i ∈ fl ∨ is_Some (m !! i) → 1 ≤ i ≤ 65535 ∧ full (idx_array idx) (idx_array_index i).
Proof.
  intros Hok Hi. apply (ok_cover _ _ _ Hok) in Hi as Hb. pose proof (ok_size _ _ _ Hok) as Hs.
  assert (1 ≤ i ≤ 65535) as Hr by lia. split; [done|]. apply (ok_full _ _ _ Hok).
  destruct (split_index i) as (? & ? & ?); lia.
Qed.

Lemma chain_ext a a' from l : (∀ i, i ∈ l → peek a' i = peek a i) → chain a from l → chain a' from l.
Proof.
  revert from. induction l as [|i l IH]; intros from He; cbn [chain]; [done|]. intros [-> Hc]. split; [done|].
  rewrite (He i) by set_solver. apply IH; [set_solver|done].
Qed.

(** Taking the first free cell. *)
Lemma take_free m idx i fl item :
  idx_ok m idx (i :: fl) →
  ∃ a, cell (idx_array idx) i = Ok (peek (idx_array idx) i) ∧ set_cell (idx_array idx) i item = Ok a ∧
    idx_ok (<[i := item]> m) (mkIndexer a (next_of (peek (idx_array idx) i)) (idx_size idx)) fl.
Proof.
  intros Hok. destruct (ok_bound _ _ _ i Hok) as [Hi Hf]; [left; set_solver|].
  destruct (set_cell_Ok (idx_array idx) i item) as (a & Ha & Hfull & _ & Hp & Hne); [lia|done|].
  exists a. split; [apply cell_Ok; [lia|done]|]. split; [done|].
  pose proof (ok_nodup _ _ _ Hok) as Hnd. apply list.NoDup_cons in Hnd as [Hni Hnd].
  pose proof (ok_chain _ _ _ Hok) as [_ Hc].
  split; cbn [idx_array free_list idx_size].
  - apply (ok_size _ _ _ Hok).
  - intros b Hb. apply Hfull, (ok_full _ _ _ Hok), Hb.
  - eapply chain_ext; [|exact Hc]. intros j Hj. apply Hne; [|set_solver].
    destruct (ok_bound _ _ _ j Hok) as [Hbj _]; [left; set_solver|]. lia.
  - done.
  - intros j. rewrite (ok_cover _ _ _ Hok j), elem_of_cons. destruct (decide (j = i)) as [->|Hji].
    + rewrite lookup_insert_eq. split; [intros _; right; by eexists|]. intros _. left. by left.
    + rewrite lookup_insert_ne by done. naive_solver.
  - intros j Hj. rewrite lookup_insert_ne by set_solver. apply (ok_apart _ _ _ Hok). set_solver.
  - intros j it. destruct (decide (j = i)) as [->|Hji].
    + rewrite lookup_insert_eq. intros [= <-]. done.
    + rewrite lookup_insert_ne by done. intros Hj. rewrite Hne; [by apply (ok_item _ _ _ Hok)| |done].
      destruct (ok_bound _ _ _ j Hok) as [Hbj _]; [right; by eexists|]. lia.
Qed.

(** A new block: its cells are linked in order. *)
Lemma linked_block_len s f : lenZ (linked_block s f) = 1024.
Proof. unfold linked_block. rewrite lenZ_app. unfold lenZ. rewrite length_fmap, length_seqZ. done. Qed.

Lemma linked_block_next s f k :
  0 ≤ s → s + 1024 ≤ 65536 → 0 ≤ f < 65536 → 0 ≤ k < 1024 →
  next_of (default 0 (linked_block s f !! Z.to_nat k)) = if Z.eqb k 1023 then f else s + k + 1.
Proof.
  intros Hs Hs' Hf Hk. unfold linked_block. destruct (Z.eqb_spec k 1023) as [->|Hne].
  - rewrite lookup_app_r by (rewrite length_fmap, length_seqZ; done).
    rewrite length_fmap, length_seqZ. change (IDX_ENTRY_SIZE - 1) with 1023. rewrite Nat.sub_diag. cbn.
    apply next_with_next. lia.
  - rewrite lookup_app_l by (rewrite length_fmap, length_seqZ; change (IDX_ENTRY_SIZE - 1) with 1023; lia).
    rewrite list_lookup_fmap, lookup_seqZ_lt by (change (IDX_ENTRY_SIZE - 1) with 1023; lia).
    cbn [fmap option_fmap option_map default from_option id]. rewrite next_with_next by lia. lia.
Qed.

(** The indices of the new block, from offset [k] on. *)
Definition fresh_from (s k : Z) : list Z := seqZ (s + k) (1024 - k).

Lemma fresh_chain a s f k :
  idx_array_index s * 1024 = s → 0 ≤ s → s + 1024 ≤ 65536 → 0 ≤ k < 1024 →
  a !! idx_array_index s = Some (linked_block s f) → f = 0 → chain a (s + k) (fresh_from s k).
Proof.
  intros Ha Hs Hs' Hk Hb Hf0. unfold fresh_from. remember (Z.to_nat (1024 - k)) as n eqn:En.
  revert k Hk En. induction n as [|n IH]; intros k Hk En; [lia|]. rewrite seqZ_cons by lia. cbn [chain]. split; [done|].
  assert (idx_array_index (s + k) = idx_array_index s ∧ idx_entry_index (s + k) = k) as [Ei Ee].
  { destruct (split_index (s + k)) as (? & ? & ?); [lia|]. lia. }
  assert (next_of (peek a (s + k)) = if Z.eqb k 1023 then f else s + k + 1) as ->.
  { unfold peek. rewrite Ei, Hb, Ee. apply linked_block_next; lia. }
  destruct (Z.eqb_spec k 1023) as [->|Hne].
  - cbn. done.
  - replace (Z.succ (s + k)) with (s + (k + 1)) by lia. replace (Z.pred (1024 - k)) with (1024 - (k + 1)) by lia.
    replace (s + k + 1) with (s + (k + 1)) by lia. apply IH; lia.
Qed.

Lemma shift_block n : 0 ≤ n < 64 → Z.shiftl n IDX_ENTRY_BITS = n * 1024 ∧ idx_array_index (n * 1024) = n.
Proof.
  intros Hn. split; [by rewrite Z.shiftl_mul_pow2|]. destruct (split_index (n * 1024)) as (? & ? & ?); lia.
Qed.

Lemma grow_ok m idx :
  idx_ok m idx [] → idx_size idx < 64 →
  ∃ i idx' fl, idx_grow true idx = (i, idx') ∧ 1 ≤ i ∧ idx_ok m idx' (i :: fl).
Proof.
  intros Hok Hlt. pose proof (ok_size _ _ _ Hok) as Hs. pose proof (ok_chain _ _ _ Hok) as Hc. cbn [chain] in Hc.
  unfold idx_grow. change IDX_ARRAY_SIZE with 64. rewrite (proj2 (Z.leb_gt _ _)) by done. cbn [negb].
  destruct (shift_block (idx_size idx)) as [-> Hai]; [lia|]. set (n := idx_size idx) in *.
  set (k := if Z.eqb (n * 1024) 0 then 1 else 0).
  assert ((if Z.eqb (n * 1024) 0 then n * 1024 + 1 else n * 1024) = n * 1024 + k) as ->
    by (unfold k; destruct (Z.eqb_spec (n * 1024) 0); lia).
  assert (0 ≤ k < 2) as Hk by (unfold k; destruct (Z.eqb _ _); lia).
  set (a := <[n := linked_block (n * 1024) (free_list idx)]> (idx_array idx)).
  eexists _, _, (fresh_from (n * 1024) (k + 1)). split; [done|].
  assert (1 ≤ n * 1024 + k) as Hpos by (unfold k; destruct (Z.eqb_spec (n * 1024) 0); lia).
  split; [done|].
  assert (n * 1024 + k :: fresh_from (n * 1024) (k + 1) = fresh_from (n * 1024) k) as ->.
  { unfold fresh_from. rewrite (seqZ_cons (n * 1024 + k)) by lia. do 2 f_equal; lia. }
  assert (∀ i, i ∈ fresh_from (n * 1024) k ↔ n * 1024 + k ≤ i < n * 1024 + 1024) as Hfr
    by (intros i; unfold fresh_from; rewrite elem_of_seqZ; lia).
  assert (∀ i, is_Some (m !! i) ↔ 1 ≤ i < n * 1024) as Hm
    by (intros i; pose proof (ok_cover _ _ _ Hok i); pose proof (not_elem_of_nil i); unfold n; tauto).
  split; cbn [idx_array free_list idx_size].
  - lia.
  - intros b Hb. destruct (decide (b = n)) as [->|Hbn].
    + exists (linked_block (n * 1024) (free_list idx)). split; [apply lookup_insert_eq|apply linked_block_len].
    + destruct (ok_full _ _ _ Hok b) as (e & He & Hl); [lia|]. exists e. split; [|done].
      unfold a. by rewrite lookup_insert_ne by done.
  - eapply (fresh_chain _ (n * 1024) (free_list idx)); try lia. rewrite Hai. apply lookup_insert_eq.
  - apply NoDup_seqZ.
  - intros i. rewrite Hfr, Hm. unfold k. destruct (Z.eqb_spec (n * 1024) 0); lia.
  - intros i Hi. apply Hfr in Hi. destruct (m !! i) eqn:E; [|done].
    assert (is_Some (m !! i)) as Hx by (by eexists). apply Hm in Hx. lia.
  - intros i item Hi. assert (1 ≤ i < n * 1024) as Hx by (apply Hm; by eexists).
    rewrite <- (ok_item _ _ _ Hok i item Hi). unfold peek, a.
    rewrite lookup_insert_ne; [done|]. destruct (split_index i) as (? & ? & ?); lia.
Qed.

Lemma insert_ok m idx fl alloc item :
  idx_ok m idx fl →
  ∃ r idx' m' fl', idx_insert alloc item idx = Ok (r, idx') ∧ idx_spec m (Insert alloc item) r m' ∧ idx_ok m' idx' fl'.
Proof.
  intros Hok. unfold idx_insert. pose proof (ok_chain _ _ _ Hok) as Hc.
  assert (∀ idx' i fl', idx_ok m idx' (i :: fl') → ∃ a, cell (idx_array idx') i = Ok (peek (idx_array idx') i) ∧
    set_cell (idx_array idx') i item = Ok a ∧ Z.leb i 0 = false ∧ idx_spec m (Insert alloc item) i (<[i := item]> m) ∧
    idx_ok (<[i := item]> m) (mkIndexer a (next_of (peek (idx_array idx') i)) (idx_size idx')) fl') as Htake.
  { intros idx' i fl' Hok'. destruct (take_free m idx' i fl' item Hok') as (a & H1 & H2 & H3). exists a.
    destruct (ok_bound _ _ _ i Hok') as [Hi _]; [left; set_solver|]. do 2 (split; [done|]).
    split; [by apply Z.leb_gt; lia|]. split; [|done]. constructor; [|done]. apply (ok_apart _ _ _ Hok'). set_solver. }
  destruct fl as [|i fl]; cbn [chain] in Hc.
  - rewrite Hc. cbn [Z.eqb]. destruct (Z.leb_spec 64 (idx_size idx)) as [Hfull|Hlt].
    + assert (idx_grow alloc idx = (-1, idx)) as ->.
      { unfold idx_grow. change IDX_ARRAY_SIZE with 64. by rewrite (proj2 (Z.leb_le _ _)). }
      eexists _, _, m, []. split; [done|]. split; [|done]. constructor. right. intros i Hi.
      pose proof (ok_size _ _ _ Hok). pose proof (ok_cover _ _ _ Hok i) as [Hcov _].
      destruct Hcov as [Hx|]; [lia| |done]. by apply elem_of_nil in Hx.
    + destruct alloc.
      * destruct (grow_ok m idx Hok Hlt) as (i & idx' & fl' & -> & Hi & Hok').
        destruct (Htake _ _ _ Hok') as (a & H1 & H2 & -> & Hsp & H3). rewrite H1. cbn [rbind]. rewrite H2.
        by eexists _, _, _, _.
      * unfold idx_grow. change IDX_ARRAY_SIZE with 64. rewrite (proj2 (Z.leb_gt _ _)) by done. cbn [negb Z.leb].
        eexists _, _, m, []. split; [done|]. split; [by constructor; left|].
        destruct Hok as [Hs Hf Hch Hnd Hcov Hap Hit]. split; cbn [idx_array free_list idx_size]; try done.
        -- intros b Hb. destruct (Hf b Hb) as (e & He & Hl). exists e. by rewrite lookup_delete_ne by lia.
        -- intros i it Hi. rewrite <- (Hit i it Hi). unfold peek. rewrite lookup_delete_ne; [done|].
           assert (1 ≤ i < idx_size idx * 1024) as Hx by (apply Hcov; right; by eexists).
           destruct (split_index i) as (? & ? & ?); lia.
  - destruct Hc as [-> _]. destruct (Htake _ _ _ Hok) as (a & H1 & H2 & H0 & Hsp & H3).
    rewrite (proj2 (Z.eqb_neq i 0)) by (apply Z.leb_gt in H0; lia). rewrite H0, H1. cbn [rbind]. rewrite H2.
    by eexists _, _, _, _.
Qed.

Lemma remove_ok m idx fl i item :
  idx_ok m idx fl → m !! i = Some item →
  ∃ idx', idx_remove i idx = Ok (item, idx') ∧ idx_ok (delete i m) idx' (i :: fl).
Proof.
  intros Hok Hi. destruct (ok_bound _ _ _ i Hok) as [Hb Hf]; [right; by eexists|].
  unfold idx_remove. rewrite cell_Ok by (done || lia). cbn [rbind]. rewrite (ok_item _ _ _ Hok i item Hi).
  destruct (set_cell_Ok (idx_array idx) i (with_next item (free_list idx))) as (a & -> & Hfull & _ & Hp & Hne); [lia|done|].
  cbn [rbind]. eexists. split; [done|].
  assert (i ∉ fl) as Hni by (intros Hx; apply (ok_apart _ _ _ Hok) in Hx; congruence).
  assert (0 ≤ free_list idx < 65537) as Hfl.
  { pose proof (ok_chain _ _ _ Hok) as Hc. destruct fl as [|j fl]; cbn [chain] in Hc; [lia|].
    destruct Hc as [-> _]. destruct (ok_bound _ _ _ j Hok) as [Hj _]; [left; set_solver|]. lia. }
  split; cbn [idx_array free_list idx_size chain].
  - apply (ok_size _ _ _ Hok).
  - intros b Hbb. apply Hfull, (ok_full _ _ _ Hok), Hbb.
  - split; [done|]. rewrite Hp, next_with_next by done. eapply chain_ext; [|apply (ok_chain _ _ _ Hok)].
    intros j Hj. apply Hne; [|set_solver]. destruct (ok_bound _ _ _ j Hok) as [Hbj _]; [by left|]. lia.
  - apply list.NoDup_cons. split; [done|apply (ok_nodup _ _ _ Hok)].
  - intros j. rewrite (ok_cover _ _ _ Hok j), elem_of_cons. destruct (decide (j = i)) as [->|Hji].
    + rewrite lookup_delete_eq, Hi. split; [tauto|]. intros _. right. by eexists.
    + rewrite lookup_delete_ne by done. tauto.
  - intros j [->|Hj]%elem_of_cons; [apply lookup_delete_eq|].
    destruct (decide (j = i)) as [->|Hji]; [apply lookup_delete_eq|].
    rewrite lookup_delete_ne by done. by apply (ok_apart _ _ _ Hok).
  - intros j it. destruct (decide (j = i)) as [->|Hji]; [by rewrite lookup_delete_eq|].
    rewrite lookup_delete_ne by done. intros Hj. rewrite Hne; [by apply (ok_item _ _ _ Hok)| |done].
    destruct (ok_bound _ _ _ j Hok) as [Hbj _]; [right; by eexists|]. lia.
Qed.

Lemma replace_ok m idx fl i item :
  idx_ok m idx fl → is_Some (m !! i) →
  ∃ idx', idx_replace i item idx = Ok idx' ∧ idx_ok (<[i := item]> m) idx' fl.
Proof.
  intros Hok [old Hi]. destruct (ok_bound _ _ _ i Hok) as [Hb Hf]; [right; by eexists|].
  unfold idx_replace.
  destruct (set_cell_Ok (idx_array idx) i item) as (a & -> & Hfull & _ & Hp & Hne); [lia|done|].
  cbn [rbind]. eexists. split; [done|].
  assert (i ∉ fl) as Hni by (intros Hx; apply (ok_apart _ _ _ Hok) in Hx; congruence).
  split; cbn [idx_array free_list idx_size].
  - apply (ok_size _ _ _ Hok).
  - intros b Hbb. apply Hfull, (ok_full _ _ _ Hok), Hbb.
  - eapply chain_ext; [|apply (ok_chain _ _ _ Hok)].
    intros j Hj. apply Hne; [|set_solver]. destruct (ok_bound _ _ _ j Hok) as [Hbj _]; [by left|]. lia.
  - apply (ok_nodup _ _ _ Hok).
  - intros j. rewrite (ok_cover _ _ _ Hok j). destruct (decide (j = i)) as [->|Hji].
    + rewrite lookup_insert_eq, Hi. split; (intros [?|?]; [by left|right; by eexists]).
    + by rewrite lookup_insert_ne by done.
  - intros j Hj. rewrite lookup_insert_ne by set_solver. by apply (ok_apart _ _ _ Hok).
  - intros j it. destruct (decide (j = i)) as [->|Hji]; [rewrite lookup_insert_eq; by intros [= <-]|].
    rewrite lookup_insert_ne by done. intros Hj. rewrite Hne; [by apply (ok_item _ _ _ Hok)| |done].
    destruct (ok_bound _ _ _ j Hok) as [Hbj _]; [right; by eexists|]. lia.
Qed.

(** C37.  The indexer implements its promise for every sequence of operations: there is
    a relation between the stored pointers and the indexer that holds of the empty
    indexer and that every legal operation preserves, with the result the promise
    allows and no access outside the tables. *)
Theorem indexer_refines :
  ∃ R : gmap Z Z → indexer → Prop,
    R ∅ empty_indexer ∧
    ∀ m idx o, R m idx → legal m o →
      ∃ r m' idx', idx_exec o idx = Ok (r, idx') ∧ idx_spec m o r m' ∧ R m' idx'.
Proof.
  exists (λ m idx, ∃ fl, idx_ok m idx fl). split.
  - exists []. split; cbn [idx_array free_list idx_size empty_indexer chain].
    + lia.
    + intros b Hb. lia.
    + done.
    + constructor.
    + intros i. rewrite lookup_empty, elem_of_nil, is_Some_alt. lia.
    + intros i _. apply lookup_empty.
    + intros i item. by rewrite lookup_empty.
  - intros m idx o [fl Hok] Hl. destruct o as [alloc item|i|i item|i]; cbn [idx_exec legal] in *.
    + destruct (insert_ok m idx fl alloc item Hok) as (r & idx' & m' & fl' & ? & ? & ?).
      exists r, m', idx'. eauto.
    + destruct Hl as [item Hi]. destruct (remove_ok m idx fl i item Hok Hi) as (idx' & ? & ?).
      exists item, (delete i m), idx'. split; [done|]. split; [by constructor|eauto].
    + destruct (replace_ok m idx fl i item Hok Hl) as (idx' & -> & ?).
      exists 0, (<[i := item]> m), idx'. split; [done|]. split; [constructor|eauto].
    + destruct Hl as [item Hi]. destruct (ok_bound _ _ _ i Hok) as [Hb Hf]; [right; by eexists|].
      exists item, m, idx. unfold idx_at. rewrite cell_Ok by (done || lia).
      rewrite (ok_item _ _ _ Hok i item Hi). split; [done|]. split; [by constructor|eauto].
Qed.

(** The relation of the index map. *)
Definition idm_ok (m : gmap Z Z) (idm : index_map) : Prop :=
  (∀ b e, idm !! b = Some e → lenZ e = 1024) ∧
  (∀ i, is_Some (m !! i) → 0 ≤ i ≤ 65535 ∧ is_Some (idm !! idx_array_index i)) ∧
  (∀ i, 0 ≤ i ≤ 65535 → peek idm i = default 0 (m !! i)).

Lemma idm_full m idm i : idm_ok m idm → is_Some (idm !! idx_array_index i) → full idm (idx_array_index i).
Proof. intros (Hl & _) [e He]. exists e. eauto. Qed.

Lemma idm_store m idm i item :
  idm_ok m idm → 0 ≤ i ≤ 65535 → is_Some (idm !! idx_array_index i) →
  ∃ idm', set_cell idm i item = Ok idm' ∧ idm_ok (<[i := item]> m) idm' ∧
          (item = 0 → idm_ok (delete i m) idm').
Proof.
  intros Hok Hi Hb. pose proof (idm_full _ _ _ Hok Hb) as Hf. destruct Hok as (Hl & Hm & Hp).
  destruct (set_cell_Ok idm i item) as (idm' & E & Hfull & Hnone & Hpi & Hne); [lia|done|].
  exists idm'. split; [done|].
  assert (∀ b e, idm' !! b = Some e → lenZ e = 1024) as Hl'.
  { intros b e He. destruct (idm !! b) as [e'|] eqn:E'; [|by rewrite (Hnone b E') in He].
    destruct (Hfull b) as (e'' & He'' & Hlen); [exists e'; eauto|]. congruence. }
  assert (∀ j, is_Some (idm !! idx_array_index j) → is_Some (idm' !! idx_array_index j)) as Hs.
  { intros j [e He]. destruct (Hfull (idx_array_index j)) as (e' & He' & _); [exists e; eauto|]. by eexists. }
  split; [split; [done|split]|intros ->; split; [done|split]].
  - intros j. destruct (decide (j = i)) as [->|Hj]; [intros _; split; [done|by apply Hs]|].
    rewrite lookup_insert_ne by done. intros Hx. destruct (Hm j Hx). split; [done|by apply Hs].
  - intros j Hj. destruct (decide (j = i)) as [->|Hji]; [by rewrite lookup_insert_eq, Hpi|].
    rewrite lookup_insert_ne by done. rewrite Hne by (done || lia). by apply Hp.
  - intros j. destruct (decide (j = i)) as [->|Hj]; [rewrite lookup_delete_eq; by intros [? ?]|].
    rewrite lookup_delete_ne by done. intros Hx. destruct (Hm j Hx). split; [done|by apply Hs].
  - intros j Hj. destruct (decide (j = i)) as [->|Hji]; [by rewrite lookup_delete_eq, Hpi|].
    rewrite lookup_delete_ne by done. rewrite Hne by (done || lia). by apply Hp.
Qed.

Lemma idm_new_block m idm i :
  idm_ok m idm → 0 ≤ i ≤ 65535 → idm !! idx_array_index i = None →
  idm_ok m (<[idx_array_index i := replicate (Z.to_nat IDX_ENTRY_SIZE) 0]> idm).
Proof.
  intros (Hl & Hm & Hp) Hi Hnone. split; [|split].
  - intros b e. destruct (decide (b = idx_array_index i)) as [->|Hb].
    + rewrite lookup_insert_eq. intros He. apply Some_inj in He as <-. unfold lenZ. by rewrite length_replicate.
    + rewrite lookup_insert_ne by done. apply Hl.
  - intros j Hj. destruct (Hm j Hj) as [? ?]. split; [done|]. by apply lookup_insert_is_Some'; right.
  - intros j Hj. rewrite <- (Hp j Hj). unfold peek. destruct (decide (idx_array_index j = idx_array_index i)) as [->|Hji].
    + rewrite lookup_insert_eq, Hnone. destruct (_ !! Z.to_nat _) as [v|] eqn:E; [|done].
      by apply lookup_replicate in E as [-> _].
    + by rewrite lookup_insert_ne by done.
Qed.

Lemma idm_bounds i : 0 ≤ i ≤ 65535 → in_bounds "array" (idx_array_index i) IDX_ARRAY_SIZE = Ok ().
Proof. intros Hi. apply in_bounds_Ok. change IDX_ARRAY_SIZE with 64. destruct (split_index i); lia. Qed.

Lemma idm_set_ok m idm alloc i item :
  idm_ok m idm → 0 ≤ i →
  ∃ r idm', idm_set alloc i item idm = Ok (r, idm') ∧
    (r = i ∧ i ≤ 65535 ∧ idm_ok (<[i := item]> m) idm' ∨
     r = -1 ∧ (65535 < i ∨ alloc = false) ∧ idm_ok m idm').
Proof.
  intros Hok Hi. unfold idm_set. change IDX_MAX_INDEX with 65535. destruct (Z.ltb_spec 65535 i) as [Hbig|Hle].
  { eexists _, _. split; [done|]. right. auto. }
  rewrite idm_bounds by lia. cbn [rbind].
  destruct (idm !! idx_array_index i) as [e|] eqn:E; cbn [rbind].
  - change (Z.ltb 0 0) with false. cbv iota.
    destruct (idm_store m idm i item Hok) as (idm' & -> & Hok' & _); [lia|by eexists|].
    cbn [rbind]. eexists _, _. split; [done|]. left. auto.
  - unfold idm_grow. rewrite idm_bounds by lia. cbn [rbind]. destruct alloc; cbn [rbind].
    + rewrite (proj2 (Z.ltb_ge i 0)) by done.
      pose proof (idm_new_block m idm i Hok ltac:(lia) E) as Hnew.
      destruct (idm_store m _ i item Hnew) as (idm' & -> & Hok' & _); [lia|rewrite lookup_insert_eq; by eexists|].
      cbn [rbind]. eexists _, _. split; [done|]. left. auto.
    + change (Z.ltb (-1) 0) with true. cbv iota. eexists _, _. split; [done|]. right.
      split; [done|]. split; [by right|]. by rewrite delete_id.
Qed.

Lemma idm_lookup_ok m idm i : idm_ok m idm → 0 ≤ i → idm_lookup i idm = Ok (default 0 (m !! i)).
Proof.
  intros Hok Hi. unfold idm_lookup, idm_at. change IDX_MAX_INDEX with 65535. destruct (Z.leb_spec i 65535) as [Hle|Hgt].
  - rewrite idm_bounds by lia. cbn [rbind]. pose proof Hok as (Hl & Hm & Hp).
    destruct (idm !! idx_array_index i) as [e|] eqn:E.
    + rewrite cell_Ok; [by rewrite Hp by lia|lia|]. apply (idm_full m); [done|by eexists].
    + rewrite <- (Hp i) by lia. unfold peek. by rewrite E.
  - destruct Hok as (_ & Hm & _). destruct (m !! i) as [v|] eqn:E; [|done].
    destruct (Hm i) as [? _]; [by eexists|]. lia.
Qed.

Lemma idm_clear_ok m idm i item : idm_ok m idm → m !! i = Some item →
  ∃ idm', idm_clear i idm = Ok (item, idm') ∧ idm_ok (delete i m) idm'.
Proof.
  intros Hok Hit. pose proof Hok as (Hl & Hm & Hp). destruct (Hm i) as [Hb Hs]; [by eexists|].
  unfold idm_clear. rewrite cell_Ok; [|lia|by apply (idm_full m)]. cbn [rbind].
  rewrite Hp by lia. rewrite Hit. destruct (idm_store m idm i 0 Hok) as (idm' & -> & _ & Hd); [lia|done|].
  cbn [rbind]. exists idm'. split; [done|]. by apply Hd.
Qed.

Lemma idm_empty : idm_ok ∅ ∅.
Proof. split; [done|]. split; [by intros i [? ?]|]. by intros i _. Qed.

(**  The index map is a finite map from indices to pointers: for every
    non-negative index a lookup returns what was last stored there, or NULL; a store
    succeeds unless the index is above 65535 or memory runs out, and then changes
    nothing; clearing a stored index returns its pointer and forgets it. *)
Theorem index_map_refines :
  ∃ R : gmap Z Z → index_map → Prop,
    R ∅ ∅ ∧
    ∀ m idm i, R m idm → 0 ≤ i →
      idm_lookup i idm = Ok (default 0 (m !! i)) ∧
      (∀ alloc item, ∃ r idm', idm_set alloc i item idm = Ok (r, idm') ∧
         (r = i ∧ i ≤ 65535 ∧ R (<[i := item]> m) idm' ∨ r = -1 ∧ (65535 < i ∨ alloc = false) ∧ R m idm')) ∧
      (∀ item, m !! i = Some item → ∃ idm', idm_clear i idm = Ok (item, idm') ∧ R (delete i m) idm').
Proof.
  exists idm_ok. split; [apply idm_empty|]. intros m idm i Hok Hi.
  split; [by apply idm_lookup_ok|]. split; [intros; by apply idm_set_ok|]. intros item Hit. by apply idm_clear_ok.
Qed.
