(* ===== verification/Events.v ===== *)
(** * Completion channels and events

    [libibverbs/src/verbs.c]: the functions that create and destroy completion
    channels and completion queues, wait for an event and acknowledge it, and the
    router's handlers for them.  The router returns events by queue handle; the
    library finds its own queue object in [cq_map].  The theorem says that it is
    always there and is the one the application made on that channel. *)

From S2P Require Import Prelude FfTypes WrQueue Completion Control.

(** ** The host's completion channels

    The handle of a channel object is its descriptor in the router.  An event names the
    queue and carries the counters of events completed so far; [None]: no event
    arrives. *)
Class HostEvents (H : Type) := {
  h_create_channel : H → option hobj * H;
  h_destroy_channel : hobj → H → Z * H;
  h_get_event : hobj → H → option (hobj * Z * Z * H);
  h_ack_events : hobj → Z → H → Z * Z * H
}.

Definition set_channels (m : gmap Z hobj) (r : ffr) : ffr :=
  mkFfr (pd_map r) (ah_map r) m (q_map r) (q_shm_map r) (q_shm_vec r) (tokenbucket r).

Section Handlers.
Context {H : Type} `{!HostVerbs H, !HostEvents H}.
Implicit Types w : world H.

(** ** The router's handlers *)
Definition handle_create_comp_channel w : res (option Z * world H) :=
  let '(o, host) := h_create_channel (w_host w) in
  let* o := deref "channel->fd" o in
  Ok (Some (o_handle o),
      mkWorld (set_channels (enter o (channel_map (w_ffr w))) (w_ffr w)) (w_fs w) host).

Definition handle_destroy_comp_channel (fd : Z) w : res (option Z * world H) :=
  let* channel := entry (channel_map (w_ffr w)) fd in
  match channel with
  | None => Ok (None, w)
  | Some o =>
      let '(ret, host) := h_destroy_channel o (w_host w) in
      Ok (Some ret, mkWorld (set_channels (delete fd (channel_map (w_ffr w))) (w_ffr w)) (w_fs w) host)
  end.

(** The queue's handle and its two counters. *)
Definition handle_get_cq_event (fd : Z) w : res (option (Z * Z * Z) * world H) :=
  let* channel := entry (channel_map (w_ffr w)) fd in
  match channel with
  | None => Ok (None, w)
  | Some o =>
      match h_get_event o (w_host w) with
      | None => Blocked
      | Some (cq, comp, async, host) => Ok (Some (o_handle cq, comp, async), with_host w host)
      end
  end.

Definition handle_ack_cq_event (cq_handle nevents : Z) w : res (option (Z * Z * Z) * world H) :=
  let* cq := entry (q_map (w_ffr w) CQ) cq_handle in
  match cq with
  | None => Ok (None, w)
  | Some o =>
      let '(comp, async, host) := h_ack_events o nevents (w_host w) in
      Ok (Some (o_handle o, comp, async), with_host w host)
  end.

(** The client waits for the answer. *)
Definition answered {R} (x : res (option R * world H)) : res (R * world H) :=
  let* (r, w) := x in
  match r with Some r => Ok (r, w) | None => Blocked end.

(** ** The library

    A completion queue as the application sees it, and the channels it holds with
    their reference counts; [channel] is the local descriptor. *)
Record cq_obj := mkCq {
  cq_channel : option Z; cq_context : Z; comp_events_completed : Z; async_events_completed : Z
}.

Record app := mkApp { a_verbs : verbs; cq_map : gmap Z cq_obj; a_channels : gmap Z Z }.

Definition set_v_channels (m : gmap Z Z) (v : verbs) : verbs :=
  mkVerbs (v_cid v) (v_shm v) (v_cq_ring v) (v_srq_ring v) (v_cq_srq v) m.

(** [mapped_fd] is the descriptor received with the response. *)
Definition ibv_create_comp_channel (mapped_fd : Z) (a : app) w : res (Z * app * world H) :=
  let* (fd, w) := answered (handle_create_comp_channel w) in
  do* in_bounds "comp_channel_map" mapped_fd MAP_SIZE;
  Ok (mapped_fd, mkApp (set_v_channels (<[mapped_fd := fd]> (v_channels (a_verbs a))) (a_verbs a))
                       (cq_map a) (<[mapped_fd := 0]> (a_channels a)), w).

(** [comp_channel_map[channel->fd]] *)
Definition router_fd (channel : Z) (a : app) : res Z :=
  do* in_bounds "comp_channel_map" channel MAP_SIZE;
  deref "comp_channel_map" (v_channels (a_verbs a) !! channel).

Definition ibv_destroy_comp_channel (channel : Z) (a : app) w : res (Z * app * world H) :=
  let* fd := router_fd channel a in
  let* (ret, w) := answered (handle_destroy_comp_channel fd w) in
  Ok (ret, mkApp (a_verbs a) (cq_map a) (delete channel (a_channels a)), w).

Definition ref_channel (channel : option Z) (d : Z) (m : gmap Z Z) : gmap Z Z :=
  match channel with
  | Some c => match m !! c with Some n => <[c := n + d]> m | None => m end
  | None => m
  end.

(** The provider's [create_cq] is [ibv_cmd_create_cq]; so for destruction. *)
Definition ibv_create_cq (cqe context : Z) (channel : option Z) (vec : Z) (a : app) w :
    res (Z * app * world H) :=
  let* (h, _, v, w) := ibv_cmd_create_cq cqe channel vec (a_verbs a) w in
  Ok (h, mkApp v (<[h := mkCq channel context 0 0]> (cq_map a)) (ref_channel channel 1 (a_channels a)), w).

Definition ibv_destroy_cq (h : Z) (a : app) w : res (Z * app * world H) :=
  let* cq := deref "cq" (cq_map a !! h) in
  let* (ret, w) := ibv_cmd_destroy_cq h (a_verbs a) w in
  Ok (ret, mkApp (a_verbs a) (delete h (cq_map a))
                 (if Z.eqb ret 0 then ref_channel (cq_channel cq) (-1) (a_channels a) else a_channels a), w).

(** The queue's handle and context. *)
Definition ibv_get_cq_event (channel : Z) (a : app) w : res (Z * Z * app * world H) :=
  let* fd := router_fd channel a in
  let* (h, comp, async, w) := answered (handle_get_cq_event fd w) in
  do* in_bounds "cq_map" h MAP_SIZE;
  let* cq := deref "cq_map[]" (cq_map a !! h) in
  Ok (h, cq_context cq,
      mkApp (a_verbs a) (<[h := mkCq (cq_channel cq) (cq_context cq) comp async]> (cq_map a)) (a_channels a), w).

Definition ibv_ack_cq_events (h nevents : Z) (a : app) w : res (app * world H) :=
  let* cq := deref "cq" (cq_map a !! h) in
  let* (_, comp, _, w) := answered (handle_ack_cq_event h nevents w) in
  Ok (mkApp (a_verbs a) (<[h := mkCq (cq_channel cq) (cq_context cq) comp (async_events_completed cq)]> (cq_map a))
            (a_channels a), w).

(** ** Any of these calls *)
Inductive ev_op :=
  | CreateChannel (mapped_fd : Z) | DestroyChannel (channel : Z)
  | CreateCQ (cqe context : Z) (channel : option Z) (vec : Z) | DestroyCQ (h : Z)
  | GetEvent (channel : Z) | AckEvents (h nevents : Z).

Definition ev_exec (b : ev_op) (a : app) w : res (Z * app * world H) :=
  match b with
  | CreateChannel fd => ibv_create_comp_channel fd a w
  | DestroyChannel c => ibv_destroy_comp_channel c a w
  | CreateCQ cqe ctx c vec => ibv_create_cq cqe ctx c vec a w
  | DestroyCQ h => ibv_destroy_cq h a w
  | GetEvent c => let* (h, _, a, w) := ibv_get_cq_event c a w in Ok (h, a, w)
  | AckEvents h n => let* (a, w) := ibv_ack_cq_events h n a w in Ok (0, a, w)
  end.

(** The application uses channels it holds, the kernel gives it descriptors that are
    not in use, and no destruction of a queue was refused. *)
Definition legal_op (b : ev_op) (a : app) (r : Z) : Prop :=
  match b with
  | CreateChannel fd => a_channels a !! fd = None
  | DestroyChannel c | GetEvent c => is_Some (a_channels a !! c)
  | CreateCQ _ _ (Some c) _ => is_Some (a_channels a !! c)
  | DestroyCQ _ => r = 0
  | _ => True
  end.
End Handlers.

(** ** What the code relies on in the host's library

    [h_on s x y]: the live queue with handle [x] was made on the channel with
    descriptor [y].  Events come from such queues; a new queue or channel has an
    identifier that is not in use; descriptors are below the size of the tables. *)
Class EventLaws (H : Type) `{!HostVerbs H, !HostEvents H} := {
  h_on : H → Z → Z → Prop;
  h_open : H → gset Z;
  elaw_event ch s cq comp async s' : h_get_event ch s = Some (cq, comp, async, s') →
    h_on s (o_handle cq) (o_handle ch) ∧ 0 ≤ o_handle cq < MAP_SIZE ∧
    (∀ x y, h_on s' x y → h_on s x y) ∧ h_open s ⊆ h_open s';
  elaw_ack cq n s r r' s' : h_ack_events cq n s = (r, r', s') →
    (∀ x y, h_on s' x y → h_on s x y) ∧ h_open s ⊆ h_open s';
  elaw_new_channel s r s' : h_create_channel s = (r, s') →
    (∀ x y, h_on s' x y → h_on s x y) ∧ h_open s ⊆ h_open s' ∧
    (∀ ch, r = Some ch → 0 ≤ o_handle ch < MAP_SIZE ∧ (o_handle ch ∉ h_open s) ∧ o_handle ch ∈ h_open s' ∧
                         ∀ x, ¬ h_on s' x (o_handle ch));
  elaw_del_channel ch s r s' : h_destroy_channel ch s = (r, s') →
    (∀ x y, h_on s' x y → h_on s x y) ∧ h_open s ⊆ {[o_handle ch]} ∪ h_open s';
  elaw_new_cq cqe c vec s o n s' : h_create_cq cqe c vec s = (Some (o, n), s') →
    (∀ x y, h_on s' x y → (h_on s x y ∧ x ≠ o_handle o) ∨ (x = o_handle o ∧ o_handle <$> c = Some y)) ∧
    h_open s ⊆ h_open s';
  elaw_del_cq o s s' : h_destroy CQ o s = (0, s') →
    (∀ x y, h_on s' x y → h_on s x y ∧ x ≠ o_handle o) ∧ h_open s ⊆ h_open s'
}.

Section Delivery.
Context {H : Type} `{!HostVerbs H, !HostEvents H, !EventLaws H}.
Implicit Types (w : world H) (a : app).

(** All clients and the router. *)
Record esys := mkESys { e_app : Z → app; e_world : world H }.

Definition set_app (c : Z) a (f : Z → app) : Z → app := λ j, if decide (j = c) then a else f j.

Inductive ev_step : esys → esys → Prop :=
  | ev_call c b s r a' w' :
      ev_exec b (e_app s c) (e_world s) = Ok (r, a', w') → legal_op b (e_app s c) r →
      ev_step s (mkESys (set_app c a' (e_app s)) w').

(** Client [c] holds a channel with local descriptor [fd], the router's [y]. *)
Definition holds (cs : Z → app) (c fd y : Z) : Prop :=
  is_Some (a_channels (cs c) !! fd) ∧ v_channels (a_verbs (cs c)) !! fd = Some y.

Abbreviation chans w := (channel_map (w_ffr w)).

Record ev_ok (cs : Z → app) (w : world H) : Prop := {
  (** a channel has one holder *)
  ev_unique c c' fd fd' y : holds cs c fd y → holds cs c' fd' y → c = c' ∧ fd = fd';
  (** a channel that is held is in the router's table and open *)
  ev_held c fd : is_Some (a_channels (cs c) !! fd) →
    ∃ y ch, v_channels (a_verbs (cs c)) !! fd = Some y ∧ chans w !! y = Some ch ∧ o_handle ch = y ∧
            y ∈ h_open (w_host w) ∧ 0 ≤ y < MAP_SIZE ∧ 0 ≤ fd < MAP_SIZE;
  (** a queue on a channel is known to the channel's holder *)
  ev_known x y : h_on (w_host w) x y → is_Some (chans w !! y) →
    ∃ c fd cq, holds cs c fd y ∧ cq_map (cs c) !! x = Some cq ∧ cq_channel cq = Some fd;
  ev_chan y ch : chans w !! y = Some ch → o_handle ch = y ∧ y ∈ h_open (w_host w);
  ev_cqs x o : q_map (w_ffr w) CQ !! x = Some o → o_handle o = x
}.

Lemma set_app_eq c a f : set_app c a f c = a.
Proof. unfold set_app. by rewrite decide_True. Qed.
Lemma set_app_ne c c' a f : c' ≠ c → set_app c a f c' = f c'.
Proof. intros. unfold set_app. by rewrite decide_False. Qed.

(** Steps that change neither the channels a client holds nor the router's. *)
Lemma ev_ok_frame cs w c a' w' :
  ev_ok cs w →
  (∀ fd, is_Some (a_channels a' !! fd) ↔ is_Some (a_channels (cs c) !! fd)) →
  v_channels (a_verbs a') = v_channels (a_verbs (cs c)) →
  chans w' = chans w → h_open (w_host w) ⊆ h_open (w_host w') →
  (∀ x o, q_map (w_ffr w') CQ !! x = Some o → o_handle o = x) →
  (∀ x y, h_on (w_host w') x y → is_Some (chans w !! y) →
     ∃ c0 fd cq, holds cs c0 fd y ∧ cq_map (set_app c a' cs c0) !! x = Some cq ∧ cq_channel cq = Some fd) →
  ev_ok (set_app c a' cs) w'.
Proof.
  intros Hok Hch Hv Hw Hop Hq Hk.
  assert (∀ c0 fd, is_Some (a_channels (set_app c a' cs c0) !! fd) ↔ is_Some (a_channels (cs c0) !! fd)) as Ha.
  { intros c0 fd. destruct (decide (c0 = c)) as [->|]; [rewrite set_app_eq; apply Hch|by rewrite set_app_ne]. }
  assert (∀ c0, v_channels (a_verbs (set_app c a' cs c0)) = v_channels (a_verbs (cs c0))) as Hvv.
  { intros c0. destruct (decide (c0 = c)) as [->|]; [by rewrite set_app_eq|by rewrite set_app_ne]. }
  assert (∀ c0 fd y, holds (set_app c a' cs) c0 fd y ↔ holds cs c0 fd y) as Hh
    by (intros; unfold holds; by rewrite Ha, Hvv).
  split.
  - intros c1 c2 fd fd' y. rewrite !Hh. apply (ev_unique _ _ Hok).
  - intros c0 fd Hx. apply Ha in Hx. destruct (ev_held _ _ Hok c0 fd Hx) as (y & ch & ? & ? & ? & ? & ?).
    exists y, ch. rewrite Hvv, Hw. repeat split; try done; [set_solver|lia..].
  - intros x y Hx. rewrite Hw. intros Hy. destruct (Hk x y Hx Hy) as (c0 & fd & cq & ? & ? & ?).
    exists c0, fd, cq. by rewrite Hh.
  - intros y ch. rewrite Hw. intros E. destruct (ev_chan _ _ Hok y ch E). split; [done|set_solver].
  - exact Hq.
Qed.

Lemma answered_Ok {R} (x : res (option R * world H)) r w : answered x = Ok (r, w) → x = Ok (Some r, w).
Proof.
  unfold answered. intros E. apply res_bind_Ok in E as ([[r'|] w1] & E & E'); [|done]. by injection E' as -> ->.
Qed.

Lemma entry_inv {A} (m : gmap Z A) h o : entry m h = Ok o → o = m !! h ∧ 0 ≤ h < MAP_SIZE.
Proof.
  unfold entry. intros E. apply res_bind_Ok in E as ([] & E & E'). apply in_bounds_Ok in E. by injection E' as <-.
Qed.

Lemma enter_lookup o (m : gmap Z hobj) x :
  o_handle o < MAP_SIZE → enter o m !! x = if decide (x = o_handle o) then Some o else m !! x.
Proof.
  intros Hb. unfold enter. rewrite (proj2 (Z.leb_gt _ _)) by done.
  case_decide; subst; [apply lookup_insert_eq|by rewrite lookup_insert_ne].
Qed.

(** What the creation and destruction of a queue do to the rest. *)
Lemma create_cq_inv cqe c vec v w h n v' w' :
  ibv_cmd_create_cq cqe c vec v w = Ok (h, n, v', w') →
  ∃ o ch m, h_create_cq cqe ch vec (w_host w) = (Some (o, m), w_host w') ∧ h = o_handle o ∧
    chans w' = chans w ∧ v_channels v' = v_channels v ∧
    (∀ x o', q_map (w_ffr w') CQ !! x = Some o' → x = o_handle o ∧ o' = o ∨ q_map (w_ffr w) CQ !! x = Some o') ∧
    match c with
    | Some fd => ∃ y, v_channels v !! fd = Some y ∧ (Z.ltb y 0 = false → chans w !! y = ch ∧ is_Some ch)
    | None => ch = None
    end.
Proof.
  intros E. unfold ibv_cmd_create_cq in E. run E. injection E as -> -> <- ->.
  apply call_Ok in Hx0. open_handle Hx0. run Hx0. destruct x0 as [ch|]; [|done].
  destruct (h_create_cq cqe ch vec (w_host w)) as [r host] eqn:Hc. run Hx0.
  injection Hx0 as -> <- -> ->. destruct r as [[o' m]|]; [|done]. injection Hx3 as -> ->.
  unfold register in Hx4. destruct (initCtrlShm _ _ _) as [[nm id] fs]. run Hx4. injection Hx4 as <- <-.
  unfold open_channel in Hx1. cbn [w_ffr w_fs w_host] in Hx1. destruct (shm_open _ _) as [id' fs'].
  run Hx1. injection Hx1 as <- <-. cbn.
  exists h0, ch, n. split; [done|]. split; [done|]. split; [done|]. split; [done|]. split.
  - intros y z. rewrite set_k_eq. unfold enter. destruct (Z.leb _ _); [by right|].
    intros [[<- <-]|[? ?]]%lookup_insert_Some; [by left|by right].
  - destruct c as [fd|].
    + apply res_bind_Ok in Hx as ([] & _ & Hx). unfold deref in Hx.
      destruct (v_channels v !! fd) as [y|] eqn:Ey; [|done]. injection Hx as ->. exists x. split; [done|].
      intros Hy. rewrite Hy in Hx2. run Hx2. apply entry_inv in Hx as [-> _].
      destruct (chans w !! x) as [z|]; [|done]. cbn in Hx2. injection Hx2 as <-. by split; [|eexists].
    + injection Hx as <-. cbn in Hx2. by injection Hx2 as <-.
Qed.

Lemma destroy_cq_inv h v w ret w' :
  ibv_cmd_destroy_cq h v w = Ok (ret, w') →
  ∃ o, q_map (w_ffr w) CQ !! h = Some o ∧ h_destroy CQ o (w_host w) = (ret, w_host w') ∧
    chans w' = chans w ∧ q_map (w_ffr w') CQ = delete h (q_map (w_ffr w) CQ).
Proof.
  intros E. unfold ibv_cmd_destroy_cq in E. apply call_Ok in E. cbn [handle] in E. unfold unregister in E. run E.
  apply entry_inv in Hx as [-> _]. destruct (q_map (w_ffr w) CQ !! h) as [o|] eqn:Ho; [|done].
  destruct (h_destroy CQ o (w_host w)) as [r host] eqn:Hd. injection E as -> <-.
  exists o. cbn. by rewrite set_k_eq.
Qed.

Lemma router_fd_inv c a y : router_fd c a = Ok y → v_channels (a_verbs a) !! c = Some y ∧ 0 ≤ c < MAP_SIZE.
Proof.
  unfold router_fd. intros E. apply res_bind_Ok in E as ([] & Hb & E). apply in_bounds_Ok in Hb.
  destruct (v_channels _ !! c); [|done]. by injection E as ->.
Qed.

(** ** Each call keeps the invariant *)

Lemma create_channel_keeps cs w c fd r a' w' :
  ev_ok cs w → ibv_create_comp_channel fd (cs c) w = Ok (r, a', w') → a_channels (cs c) !! fd = None →
  ev_ok (set_app c a' cs) w'.
Proof.
  intros Hok E Hnone. unfold ibv_create_comp_channel in E. run E. injection E as <- <- <-.
  destruct x. apply in_bounds_Ok in Hx0. apply answered_Ok in Hx. unfold handle_create_comp_channel in Hx.
  destruct (h_create_channel (w_host w)) as [[ch|] host] eqn:Hc; [|done]. cbn [deref rbind] in Hx. injection Hx as <- <-.
  destruct (elaw_new_channel _ _ _ Hc) as (Hon & Hop & Hnew).
  destruct (Hnew ch eq_refl) as (Hb & Hfresh & Hin & Hno).
  assert (∀ c0 fd0, is_Some (a_channels (cs c0) !! fd0) → v_channels (a_verbs (cs c0)) !! fd0 ≠ Some (o_handle ch)) as Hnh.
  { intros c0 fd0 Hx Hy. destruct (ev_held _ _ Hok c0 fd0 Hx) as (y & ? & Hv & _ & _ & ? & _).
    assert (y = o_handle ch) as -> by congruence. set_solver. }
  set (a' := mkApp _ _ _).
  assert (∀ c0 fd0 y, holds (set_app c a' cs) c0 fd0 y ↔
            (c0, fd0) = (c, fd) ∧ y = o_handle ch ∨ (c0, fd0) ≠ (c, fd) ∧ holds cs c0 fd0 y) as Hh.
  { intros c0 fd0 y. unfold holds. destruct (decide (c0 = c)) as [->|Hne].
    - rewrite set_app_eq. cbn. destruct (decide (fd0 = fd)) as [->|Hf].
      + rewrite !lookup_insert_eq. split.
        * intros [_ [= <-]]. by left.
        * intros [[_ ->]|[? _]]; [|done]. split; [by eexists|done].
      + rewrite !lookup_insert_ne by done. split; [intros ?; right; split; [congruence|done]|].
        intros [[[= ->] _]|[_ ?]]; done.
    - rewrite set_app_ne by done. split; [intros ?; right; split; [congruence|done]|].
      intros [[[= -> _] _]|[_ ?]]; done. }
  split; cbn [w_ffr w_host channel_map set_channels].
  - intros c1 c2 f1 f2 y [[[= -> ->] ->]|[Hn1 H1]]%Hh [[[= -> ->] Ey]|[Hn2 H2]]%Hh; [done| | |].
    + destruct H2 as [H2 H2']. by destruct (Hnh _ _ H2).
    + subst y. destruct H1 as [H1 H1']. by destruct (Hnh _ _ H1).
    + by apply (ev_unique _ _ Hok c1 c2 f1 f2 y).
  - intros c0 fd0 Hx. assert (∃ y, holds (set_app c a' cs) c0 fd0 y) as [y Hy].
    { destruct (decide ((c0, fd0) = (c, fd))) as [He|He]; [exists (o_handle ch); apply Hh; by left|].
      assert (is_Some (a_channels (cs c0) !! fd0)) as Hx'.
      { destruct (decide (c0 = c)) as [->|]; [|by rewrite set_app_ne in Hx].
        rewrite set_app_eq in Hx. cbn in Hx. by rewrite lookup_insert_ne in Hx by congruence. }
      destruct (ev_held _ _ Hok c0 fd0 Hx') as (y & ? & ? & _). exists y. apply Hh. right. done. }
    pose proof Hy as Hy'. destruct Hy as [_ Hv]. exists y.
    apply Hh in Hy' as [[[= -> ->] ->]|[_ [Hs Hv']]].
    + exists ch. rewrite enter_lookup by lia. rewrite decide_True by done. repeat split; try done; lia.
    + destruct (ev_held _ _ Hok c0 fd0 Hs) as (y' & ch' & Hv'' & Hch & ? & ? & ? & ?).
      assert (y' = y) as -> by congruence. exists ch'. rewrite enter_lookup by lia.
      rewrite decide_False; [repeat split; try done; [set_solver|lia..]|].
      intros ->. by destruct (Hnh _ _ Hs).
  - intros x y Hx. rewrite enter_lookup by lia. case_decide as Hd; [subst; by apply Hno in Hx|]. intros Hy.
    destruct (ev_known _ _ Hok x y (Hon _ _ Hx) Hy) as (c0 & fd0 & cq & Hhh & Hcq & Hcc).
    exists c0, fd0, cq. split; [|split; [|done]].
    + apply Hh. right. split; [|done]. intros [= -> ->]. destruct Hhh as [Hs _]. rewrite Hnone in Hs. by destruct Hs.
    + destruct (decide (c0 = c)) as [->|]; [by rewrite set_app_eq|by rewrite set_app_ne].
  - intros y ch'. rewrite enter_lookup by lia. case_decide as Hd; [intros [= <-]; by subst|].
    intros Hy. destruct (ev_chan _ _ Hok y ch' Hy). split; [done|set_solver].
  - apply (ev_cqs _ _ Hok).
Qed.

Lemma destroy_channel_keeps cs w c fd r a' w' :
  ev_ok cs w → ibv_destroy_comp_channel fd (cs c) w = Ok (r, a', w') → is_Some (a_channels (cs c) !! fd) →
  ev_ok (set_app c a' cs) w'.
Proof.
  intros Hok E Hfd. unfold ibv_destroy_comp_channel in E. run E. injection E as <- <- <-.
  apply router_fd_inv in Hx as [Hv Hb]. apply answered_Ok in Hx0. unfold handle_destroy_comp_channel in Hx0. run Hx0.
  apply entry_inv in Hx as [-> _]. destruct (chans w !! x) as [ch|] eqn:Hch; [|done].
  destruct (h_destroy_channel ch (w_host w)) as [r host] eqn:Hd. injection Hx0 as <- <-.
  destruct (elaw_del_channel _ _ _ _ Hd) as [Hon Hop]. destruct (ev_chan _ _ Hok x ch Hch) as [Hox _].
  set (a' := mkApp _ _ _).
  assert (∀ c0 fd0 y, holds (set_app c a' cs) c0 fd0 y ↔ (c0, fd0) ≠ (c, fd) ∧ holds cs c0 fd0 y) as Hh.
  { intros c0 fd0 y. unfold holds. destruct (decide (c0 = c)) as [->|Hne].
    - rewrite set_app_eq. cbn. destruct (decide (fd0 = fd)) as [->|Hf].
      + rewrite lookup_delete_eq. split; [by intros [[? ?] _]|tauto].
      + rewrite lookup_delete_ne by done. split; [intros ?; split; [congruence|done]|tauto].
    - rewrite set_app_ne by done. split; [intros ?; split; [congruence|done]|tauto]. }
  assert (∀ c0 fd0 y, holds (set_app c a' cs) c0 fd0 y → y ≠ x) as Hyx.
  { intros c0 fd0 y [Hn Hy]%Hh ->. apply Hn. by destruct (ev_unique _ _ Hok c0 c fd0 fd x Hy (conj Hfd Hv)) as [-> ->]. }
  split; cbn [w_ffr w_host channel_map set_channels].
  - intros c1 c2 f1 f2 y [_ H1]%Hh [_ H2]%Hh. by apply (ev_unique _ _ Hok c1 c2 f1 f2 y).
  - intros c0 fd0 Hs. assert (is_Some (a_channels (cs c0) !! fd0) ∧ (c0, fd0) ≠ (c, fd)) as [Hs' Hne].
    { destruct (decide (c0 = c)) as [->|]; [|rewrite set_app_ne in Hs by done; split; [done|congruence]].
      rewrite set_app_eq in Hs. cbn in Hs. apply lookup_delete_is_Some in Hs as [? ?]. split; [done|congruence]. }
    destruct (ev_held _ _ Hok c0 fd0 Hs') as (y & ch' & Hvy & Hcy & Ho & Hin & Hby).
    assert (holds (set_app c a' cs) c0 fd0 y) as Hhy by (apply Hh; done).
    pose proof (Hyx _ _ _ Hhy) as Hne'. exists y, ch'. split; [by destruct Hhy|].
    rewrite lookup_delete_ne by done. repeat split; try done; [set_solver|lia..].
  - intros x0 y Hx0 Hy. apply lookup_delete_is_Some in Hy as [Hne Hy].
    destruct (ev_known _ _ Hok x0 y (Hon _ _ Hx0) Hy) as (c0 & fd0 & cq & Hhh & Hcq & Hcc).
    exists c0, fd0, cq. split; [|split; [|done]].
    + apply Hh. split; [|done]. intros [= -> ->]. destruct Hhh as [_ Hv']. congruence.
    + destruct (decide (c0 = c)) as [->|]; [by rewrite set_app_eq|by rewrite set_app_ne].
  - intros y ch' [Hne Hy]%lookup_delete_Some. destruct (ev_chan _ _ Hok y ch' Hy). split; [done|set_solver].
  - apply (ev_cqs _ _ Hok).
Qed.

Lemma ref_channel_dom c d (m : gmap Z Z) fd : is_Some (ref_channel c d m !! fd) ↔ is_Some (m !! fd).
Proof.
  unfold ref_channel. destruct c as [c|]; [|done]. destruct (m !! c) as [n|] eqn:E; [|done].
  destruct (decide (fd = c)) as [->|]; [|by rewrite lookup_insert_ne].
  rewrite lookup_insert_eq, E. split; intros _; by eexists.
Qed.

Lemma create_cq_keeps cs w c cqe ctx ch vec r a' w' :
  ev_ok cs w → ibv_create_cq cqe ctx ch vec (cs c) w = Ok (r, a', w') →
  (∀ fd, ch = Some fd → is_Some (a_channels (cs c) !! fd)) → ev_ok (set_app c a' cs) w'.
Proof.
  intros Hok E Hl. unfold ibv_create_cq in E. run E. injection E as <- <- <-.
  apply create_cq_inv in Hx as (o & hch & m & Hc & -> & Hcw & Hv & Hq & Hch).
  destruct (elaw_new_cq _ _ _ _ _ _ _ Hc) as [Hon Hop].
  eapply ev_ok_frame; cbn; [exact Hok|intros fd; apply ref_channel_dom|done|done|done| |].
  - intros x o' [[-> ->]|Ho]%Hq; [done|by apply (ev_cqs _ _ Hok)].
  - intros x y [[Hx Hne]|[-> Hy]]%Hon Hs.
    + destruct (ev_known _ _ Hok x y Hx Hs) as (c0 & fd & cq & Hh & Hcq & Hcc).
      exists c0, fd, cq. split; [done|]. split; [|done].
      destruct (decide (c0 = c)) as [->|]; [|by rewrite set_app_ne].
      rewrite set_app_eq. cbn. by rewrite lookup_insert_ne.
    + destruct ch as [fd|]; [|by subst hch]. destruct Hch as (y' & Hy' & Hch).
      destruct (ev_held _ _ Hok c fd (Hl fd eq_refl)) as (y'' & ch' & Hv' & Hc' & Ho' & _ & Hb & _).
      assert (y'' = y') as -> by congruence. destruct Hch as [Hch _]; [apply Z.ltb_ge; lia|].
      rewrite <- Hch, Hc' in Hy. cbn in Hy. injection Hy as <-.
      exists c, fd, (mkCq (Some fd) ctx 0 0). rewrite set_app_eq. cbn. rewrite lookup_insert_eq, Ho'.
      split; [|done]. split; [by apply Hl|done].
Qed.

Lemma destroy_cq_keeps cs w c h a' w' :
  ev_ok cs w → ibv_destroy_cq h (cs c) w = Ok (0, a', w') → ev_ok (set_app c a' cs) w'.
Proof.
  intros Hok E. unfold ibv_destroy_cq in E. run E. injection E as -> <- <-.
  apply destroy_cq_inv in Hx0 as (o & Ho & Hd & Hcw & Hq). pose proof (ev_cqs _ _ Hok _ _ Ho) as Hh.
  destruct (elaw_del_cq _ _ _ Hd) as [Hon Hop].
  eapply ev_ok_frame; cbn; [exact Hok|intros fd; apply ref_channel_dom|done|done|done| |].
  - intros y o'. rewrite Hq. intros [_ Hy]%lookup_delete_Some. by apply (ev_cqs _ _ Hok).
  - intros y z [Hy Hne]%Hon Hs. destruct (ev_known _ _ Hok y z Hy Hs) as (c0 & fd & cq & Hhh & Hcq & Hcc).
    exists c0, fd, cq. split; [done|]. split; [|done].
    destruct (decide (c0 = c)) as [->|]; [|by rewrite set_app_ne].
    rewrite set_app_eq. cbn. rewrite lookup_delete_ne; [done|congruence].
Qed.

(** Updating the counters of a queue object. *)
Lemma update_cq_keeps cs w c h cq cq' w' :
  ev_ok cs w → cq_map (cs c) !! h = Some cq → cq_channel cq' = cq_channel cq →
  w_ffr w' = w_ffr w → (∀ x y, h_on (w_host w') x y → h_on (w_host w) x y) → h_open (w_host w) ⊆ h_open (w_host w') →
  ev_ok (set_app c (mkApp (a_verbs (cs c)) (<[h := cq']> (cq_map (cs c))) (a_channels (cs c))) cs) w'.
Proof.
  intros Hok Hcq Hcc Hr Hon Hop. eapply ev_ok_frame; cbn; [exact Hok|done|done|by rewrite Hr|done| |].
  - rewrite Hr. apply (ev_cqs _ _ Hok).
  - intros x y Hx Hs. destruct (ev_known _ _ Hok x y (Hon _ _ Hx) Hs) as (c0 & fd & cq0 & Hh & Hq & Hch).
    destruct (decide ((c0, x) = (c, h))) as [[= -> ->]|Hne].
    + exists c, fd, cq'. rewrite set_app_eq. cbn. rewrite lookup_insert_eq. split; [done|]. split; [done|]. congruence.
    + exists c0, fd, cq0. split; [done|]. split; [|done].
      destruct (decide (c0 = c)) as [->|]; [|by rewrite set_app_ne].
      rewrite set_app_eq. cbn. rewrite lookup_insert_ne; [done|congruence].
Qed.

Lemma ev_step_ok s s' : ev_ok (e_app s) (e_world s) → ev_step s s' → ev_ok (e_app s') (e_world s').
Proof.
  intros Hok Hs. destruct Hs as [c b s r a' w' E Hl]. cbn [e_app e_world].
  destruct b as [fd|fd|cqe ctx ch vec|h|fd|h n]; cbn [ev_exec legal_op] in *.
  - by eapply create_channel_keeps.
  - by eapply destroy_channel_keeps.
  - eapply create_cq_keeps; [done|exact E|]. by intros fd ->.
  - subst r. by eapply destroy_cq_keeps.
  - run E. injection E as <- <- <-. unfold ibv_get_cq_event in Hx. run Hx. injection Hx as <- _ <- <-.
    apply answered_Ok in Hx1. unfold handle_get_cq_event in Hx1.
    apply res_bind_Ok in Hx1 as ([o|] & _ & Hx1); [|done]. destruct (h_get_event o _) as [[[[q comp] async] host]|] eqn:Hg; [|done].
    injection Hx1 as <- <- <- <-. destruct (elaw_event _ _ _ _ _ _ Hg) as (_ & _ & Hon & Hop).
    unfold deref in Hx3. destruct (cq_map (e_app s c) !! o_handle q) as [cq|] eqn:Hcq; [|done].
    injection Hx3 as <-. by eapply update_cq_keeps.
  - run E. injection E as <- <- <-. unfold ibv_ack_cq_events in Hx. run Hx. injection Hx as <- <-.
    apply answered_Ok in Hx1. unfold handle_ack_cq_event in Hx1.
    apply res_bind_Ok in Hx1 as ([o|] & _ & Hx1); [|done]. destruct (h_ack_events o n _) as [[comp async] host] eqn:Hg.
    injection Hx1 as <- <- <- <-. destruct (elaw_ack _ _ _ _ _ _ Hg) as [Hon Hop].
    unfold deref in Hx0. destruct (cq_map (e_app s c) !! h) as [cq|] eqn:Hcq; [|done].
    injection Hx0 as <-. by eapply update_cq_keeps.
Qed.

(** Nobody holds a channel yet, and the router's tables are empty. *)
Definition ev_initial (s : esys) : Prop :=
  (∀ c, a_channels (e_app s c) = ∅) ∧ chans (e_world s) = ∅ ∧ q_map (w_ffr (e_world s)) CQ = ∅.

Lemma ev_reach_ok s0 s : ev_initial s0 → rtc ev_step s0 s → ev_ok (e_app s) (e_world s).
Proof.
  intros (Ha & Hc & Hq) Hr. assert (ev_ok (e_app s0) (e_world s0)) as H0.
  { split.
    - intros c c' fd fd' y [Hx _]. rewrite Ha, lookup_empty in Hx. by destruct Hx.
    - intros c fd Hx. rewrite Ha, lookup_empty in Hx. by destruct Hx.
    - intros x y _ Hx. rewrite Hc, lookup_empty in Hx. by destruct Hx.
    - intros y ch. by rewrite Hc, lookup_empty.
    - intros x o. by rewrite Hq, lookup_empty. }
  clear Ha Hc Hq. induction Hr; eauto using ev_step_ok.
Qed.


(** ** A refused destruction

    [cq_map] is cleared whatever the router answers. *)
Lemma refused_destroy_forgets h a w ret w' cq :
  cq_map a !! h = Some cq → ibv_cmd_destroy_cq h (a_verbs a) w = Ok (ret, w') →
  ∃ a', ibv_destroy_cq h a w = Ok (ret, a', w') ∧ cq_map a' !! h = None.
Proof.
  intros Hcq Hd. unfold ibv_destroy_cq. rewrite Hcq. cbn [deref rbind]. rewrite Hd. cbn [rbind].
  eexists. split; [done|]. cbn. apply lookup_delete_eq.
Qed.

(** The step as a function. *)
Definition ev_do (c : Z) (b : ev_op) (s : esys) : option esys :=
  match ev_exec b (e_app s c) (e_world s) with
  | Ok (r, a', w') => Some (mkESys (set_app c a' (e_app s)) w')
  | _ => None
  end.
End Delivery.

(** ** A host for the examples: queues with their channel, and open channels *)
Record ehost := mkEHost { eh_cqs : gmap Z (option Z); eh_open : gset Z }.

Definition ehandle (s : gset Z) : option Z := let n := top s in if Z.ltb n MAP_SIZE then Some n else None.

#[export] Instance event_host_verbs : HostVerbs ehost := {
  h_context _ := (3, 8); h_dev_attr _ := []; h_query_port _ _ := [];
  h_alloc_pd s := (None, s); h_dealloc_pd _ s := (0, s);
  h_create_cq cqe c _ s :=
    match ehandle (dom (eh_cqs s)) with
    | Some n => (Some (mkObj (1000 + n) n, cqe), mkEHost (<[n := o_handle <$> c]> (eh_cqs s)) (eh_open s))
    | None => (None, s)
    end;
  h_notify_cq _ _ s := (0, s); h_create_srq _ _ s := (None, s); h_modify_srq _ _ _ s := (0, s);
  h_create_qp _ _ s := (None, s); h_modify_qp _ _ _ s := (0, s);
  h_destroy _ o s := (0, mkEHost (delete (o_handle o) (eh_cqs s)) (eh_open s));
  h_create_ah _ _ s := (None, s); h_destroy_ah _ s := (0, s); h_rate_env _ _ := None
}.

(** Every queue of the channel has an event pending. *)
Definition on_channel (y : Z) (x : Z * option Z) : bool :=
  bool_decide (x.2 = Some y) && Z.leb 0 x.1 && Z.ltb x.1 MAP_SIZE.

#[export] Instance event_host : HostEvents ehost := {
  h_create_channel s :=
    match ehandle (eh_open s) with
    | Some n => (Some (mkObj (2000 + n) n), mkEHost (filter (λ x, x.2 ≠ Some n) (eh_cqs s)) ({[n]} ∪ eh_open s))
    | None => (None, s)
    end;
  h_destroy_channel ch s := (0, mkEHost (eh_cqs s) (eh_open s ∖ {[o_handle ch]}));
  h_get_event ch s :=
    match List.find (on_channel (o_handle ch)) (map_to_list (eh_cqs s)) with
    | Some (x, _) => Some (mkObj (1000 + x) x, 0, 0, s)
    | None => None
    end;
  h_ack_events cq n s := (n, 0, s)
}.

Lemma ehandle_inv s n : ehandle s = Some n → (n ∉ s) ∧ 0 ≤ n < MAP_SIZE.
Proof.
  unfold ehandle. destruct (Z.ltb_spec (top s) MAP_SIZE) as [Hlt|]; [|done]. intros [= <-].
  split; [apply top_fresh|]. split; [|done]. unfold top.
  assert (-1 ≤ foldr Z.max (-1) (elements s)); [|lia]. induction (elements s); cbn; lia.
Qed.

#[export, refine] Instance event_laws : EventLaws ehost := {
  h_on s x y := eh_cqs s !! x = Some (Some y);
  h_open := eh_open
}.
Proof.
  - intros ch s cq comp async s'. cbn. destruct (List.find _ _) as [[x c]|] eqn:E; [|done]. intros [= <- <- <- <-].
    apply find_some in E as [Hin Hon]. apply list_elem_of_In, elem_of_map_to_list in Hin.
    unfold on_channel in Hon. rewrite !andb_true_iff, bool_decide_eq_true, Z.leb_le, Z.ltb_lt in Hon.
    cbn in *. destruct Hon as [[-> ?] ?]. done.
  - intros cq n s r r' s'. cbn. by intros [= <- <- <-].
  - intros s r s'. cbn. destruct (ehandle (eh_open s)) as [n|] eqn:E; [|by intros [= <- <-]].
    apply ehandle_inv in E as [Hn Hb]. intros [= <- <-]. cbn. split; [|split; [set_solver|]].
    + intros x y [Hx _]%map_lookup_filter_Some. done.
    + intros ch [= <-]. cbn. repeat split; [lia|lia|done|set_solver|].
      intros x [_ Hx]%map_lookup_filter_Some. by apply Hx.
  - intros ch s r s'. cbn. intros [= <- <-]. cbn. split; [done|].
    intros x Hx. destruct (decide (x = o_handle ch)); set_solver.
  - intros cqe c vec s o n s'. cbn. destruct (ehandle (dom (eh_cqs s))) as [k|] eqn:E; [|done].
    apply ehandle_inv in E as [Hn _]. intros [= <- <- <-]. cbn. split; [|done].
    intros x y. destruct (decide (x = k)) as [->|Hne].
    + rewrite lookup_insert_eq. intros [= Hy]. by right.
    + rewrite lookup_insert_ne by done. by left.
  - intros o s s'. cbn. intros [= <-]. cbn. split; [|done]. by intros x y [? ?]%lookup_delete_Some.
Defined.

(** A client creates a channel and a queue on it; another one has a channel too. *)
Definition event_sys0 : esys (H := ehost) :=
  mkESys (λ c, mkApp (demo_verbs c) ∅ ∅)
         (mkWorld (mkFfr ∅ ∅ ∅ (λ _, ∅) (λ _, ∅) (λ _, []) ∅) (mkFs ∅ 0 ∅) (mkEHost ∅ ∅)).

Definition event_calls : list (Z * ev_op) :=
  [(2, CreateChannel 7); (1, CreateChannel 7); (1, CreateCQ 16 99 (Some 7) 0)].

Definition event_sys : esys (H := ehost) :=
  default event_sys0 (foldl (λ s '(c, b), s ≫= ev_do c b) (Some event_sys0) event_calls).

Lemma ev_do_step {H} `{!HostVerbs H, !HostEvents H} c b (s s' : esys (H := H)) :
  ev_do c b s = Some s' → (∀ r, legal_op b (e_app s c) r) → ev_step s s'.
Proof.
  unfold ev_do. intros E Hl. destruct (ev_exec b (e_app s c) (e_world s)) as [[[r a'] w']| | | |] eqn:Ex; try done.
  injection E as <-. by econstructor.
Qed.

Lemma event_sys_reached : rtc ev_step event_sys0 event_sys.
Proof.
  eapply rtc_l; [eapply (ev_do_step 2 (CreateChannel 7)); [reflexivity|by intros r]|].
  eapply rtc_l; [eapply (ev_do_step 1 (CreateChannel 7)); [reflexivity|by intros r]|].
  eapply rtc_l; [eapply (ev_do_step 1 (CreateCQ 16 99 (Some 7) 0)); [reflexivity|intros r; by eexists]|].
  reflexivity.
Qed.

