(* ===== verification/Cma.v ===== *)
(** * The connection manager: identifiers, devices and events

    [librdmacm/src/cma.c]: communication identifiers, the devices they are bound to,
    the channels they report on, and the delivery and acknowledgement of events.  The
    calls that set up a connection are in [CmaConn].

    The state of the library is the record [cma]: the heap blocks it allocates
    (identifiers, events, multicast groups), the table of identifiers by kernel
    handle, the array of devices, and the environment [K], that is the router with the
    kernel behind it, the verbs library and the allocator.  Calls run in a monad of
    state and outcomes.  [ucma_init] has already run; [errno] is not modelled. *)

From S2P Require Import Prelude Layout FfTypes Wire Indexer Attrs Marshall.

(** ** Data of the interface (rdma_cma.h, rdma_cma_abi.h) *)
Inductive rdma_cm_event_type :=
  | RDMA_CM_EVENT_ADDR_RESOLVED | RDMA_CM_EVENT_ADDR_ERROR | RDMA_CM_EVENT_ROUTE_RESOLVED
  | RDMA_CM_EVENT_ROUTE_ERROR | RDMA_CM_EVENT_CONNECT_REQUEST | RDMA_CM_EVENT_CONNECT_RESPONSE
  | RDMA_CM_EVENT_CONNECT_ERROR | RDMA_CM_EVENT_UNREACHABLE | RDMA_CM_EVENT_REJECTED
  | RDMA_CM_EVENT_ESTABLISHED | RDMA_CM_EVENT_DISCONNECTED | RDMA_CM_EVENT_DEVICE_REMOVAL
  | RDMA_CM_EVENT_MULTICAST_JOIN | RDMA_CM_EVENT_MULTICAST_ERROR | RDMA_CM_EVENT_ADDR_CHANGE
  | RDMA_CM_EVENT_TIMEWAIT_EXIT | RDMA_CM_EVENT_OTHER (code : Z).

#[export] Instance rdma_cm_event_type_eq_dec : EqDecision rdma_cm_event_type.
Proof. solve_decision. Defined.

Definition RDMA_PS_IPOIB : Z := 0x0002.
Definition RDMA_PS_TCP : Z := 0x0106.
Definition RDMA_PS_UDP : Z := 0x0111.
Definition RDMA_PS_IB : Z := 0x013F.
Definition RDMA_MAX_RESP_RES : Z := 0xFF.
Definition RDMA_MAX_INIT_DEPTH : Z := 0xFF.
Definition RDMA_MAX_PRIVATE_DATA : Z := 256.
Definition RDMA_UDP_QKEY : Z := 0x01234567.

Definition IBV_QPT_RC : Z := 2.
Definition IBV_QPT_UD : Z := 4.
Definition IBV_QPS_INIT : Z := 1.
Definition IBV_QPS_RTR : Z := 2.
Definition IBV_QPS_RTS : Z := 3.
Definition IBV_QPS_SQD : Z := 4.
Definition IBV_QPS_ERR : Z := 6.
Definition IBV_QP_STATE : Z := Z.shiftl 1 0.
Definition IBV_TRANSPORT_IB : Z := 0.
Definition IBV_TRANSPORT_IWARP : Z := 1.
Definition IBV_LINK_LAYER_UNSPECIFIED : Z := 0.
Definition IBV_LINK_LAYER_INFINIBAND : Z := 1.

(** What a [void *] that describes private data points to: nothing, bytes, or whatever
    the application passed as its context. *)
Inductive data_ptr := Null | Data (bytes : list Z) | Context (c : Z).

(** The parameters of a connection, as the kernel has them and as the application does. *)
Record ucma_abi_conn_param := mkAbiConn {
  ac_qp_num : Z; ac_private_data : list Z; ac_private_data_len : Z; ac_srq : Z;
  ac_responder_resources : Z; ac_initiator_depth : Z; ac_flow_control : Z;
  ac_retry_count : Z; ac_rnr_retry_count : Z; ac_valid : Z
}.

Record rdma_conn_param := mkConn {
  private_data : data_ptr; private_data_len : Z; cp_responder_resources : Z;
  cp_initiator_depth : Z; flow_control : Z; retry_count : Z; rnr_retry_count : Z;
  cp_srq : Z; cp_qp_num : Z
}.

Record ucma_abi_ud_param := mkAbiUd {
  au_qp_num : Z; au_qkey : Z; au_ah_attr : mem; au_private_data : list Z; au_private_data_len : Z
}.

Record rdma_ud_param := mkUd {
  ud_private_data : data_ptr; ud_private_data_len : Z; ud_ah_attr : mem;
  ud_qp_num : Z; ud_qkey : Z
}.

(** The two readings of the union are separate members. *)
Record ucma_abi_event_resp := mkEventResp {
  er_uid : Z; er_id : Z; er_event : rdma_cm_event_type; er_status : Z;
  er_conn : ucma_abi_conn_param; er_ud : ucma_abi_ud_param
}.

Record ucma_abi_query_addr_resp := mkQueryAddr {
  qa_node_guid : Z; qa_port_num : Z; qa_pkey : Z; qa_src_size : Z; qa_dst_size : Z;
  qa_src_addr : list Z; qa_dst_addr : list Z
}.

Record ucma_abi_query_route_resp := mkQueryRoute {
  qr_node_guid : Z; qr_ib_route : list mem; qr_src_addr : list Z; qr_dst_addr : list Z;
  qr_num_paths : Z; qr_port_num : Z
}.

Record ucma_abi_query_path_resp := mkQueryPath { qp_num_paths : Z; qp_path_data : list mem }.

(** ** Data of the library (cma.c, rdma_cma.h) *)
Record cma_device := mkDev {
  d_guid : Z; d_verbs : option Z; d_pd : option Z; d_xrcd : option Z; d_port : list Z; d_refcnt : Z;
  max_qpsize : Z; max_initiator_depth : Z; max_responder_resources : Z
}.

Record ibv_qp := mkQp { qp_ptr : Z; qp_num : Z; qp_srq : option Z; qp_pd : Z }.

(** The members of [ibv_qp_init_attr_ex] that the library looks at. *)
Record qp_attr := mkQpAttr {
  at_pd : option Z; at_send_cq : option Z; at_recv_cq : option Z; at_srq : option Z; at_xrcd : option Z;
  at_max_send_wr : Z; at_max_recv_wr : Z; at_qp_type : Z
}.

Record rdma_route := mkRoute {
  src_storage : list Z; dst_storage : list Z; sgid : list Z; dgid : list Z; pkey : Z; path_rec : option (list mem)
}.

(** A channel is its descriptor, its only member. *)
Record rdma_cm_id := mkCmId {
  id_verbs : option Z; id_channel : Z; id_context : Z; id_qp : option ibv_qp; id_route : rdma_route;
  id_ps : Z; id_port_num : Z; id_event : option Z; id_pd : option Z; id_qp_type : Z;
  id_send_cq_channel : option Z; id_send_cq : option Z; id_recv_cq_channel : option Z; id_recv_cq : option Z;
  id_srq : option Z
}.

(** [p_dev] is the index of [cma_dev]; [p_connect] holds [connect_len] bytes. *)
Record cma_id_private := mkPriv {
  p_id : rdma_cm_id; p_dev : option nat; p_connect : list Z; events_completed : Z; connect_error : bool;
  sync : bool; handle : Z; mc_list : list Z; p_initiator_depth : Z; p_responder_resources : Z;
  p_qp_init_attr : option qp_attr
}.

Record cma_multicast := mkMc {
  mc_id_priv : Z; mc_context : Z; mc_events_completed : Z; mc_handle : Z; mc_mgid : list Z; mc_mlid : Z;
  mc_addr : list Z
}.

Inductive event_param := NoParam | ConnParam (p : rdma_conn_param) | UdParam (p : rdma_ud_param).

Record cma_event := mkEvent {
  ev_id : option Z; ev_listen_id : option Z; ev_event : rdma_cm_event_type; ev_status : Z;
  ev_param : event_param; ev_id_priv : option Z; ev_mc : option Z
}.

(** After [memset(evt, 0, sizeof *evt)]. *)
Definition blank_event : cma_event := mkEvent None None RDMA_CM_EVENT_ADDR_RESOLVED 0 NoParam None None.

(** ** Assignments to members *)
Definition with_pub (f : rdma_cm_id → rdma_cm_id) (x : cma_id_private) : cma_id_private :=
  mkPriv (f (p_id x)) (p_dev x) (p_connect x) (events_completed x) (connect_error x) (sync x) (handle x)
         (mc_list x) (p_initiator_depth x) (p_responder_resources x) (p_qp_init_attr x).
Definition with_dev (d : option nat) (x : cma_id_private) : cma_id_private :=
  mkPriv (p_id x) d (p_connect x) (events_completed x) (connect_error x) (sync x) (handle x)
         (mc_list x) (p_initiator_depth x) (p_responder_resources x) (p_qp_init_attr x).
Definition with_connect (c : list Z) (x : cma_id_private) : cma_id_private :=
  mkPriv (p_id x) (p_dev x) c (events_completed x) (connect_error x) (sync x) (handle x)
         (mc_list x) (p_initiator_depth x) (p_responder_resources x) (p_qp_init_attr x).
Definition with_completed (n : Z) (x : cma_id_private) : cma_id_private :=
  mkPriv (p_id x) (p_dev x) (p_connect x) n (connect_error x) (sync x) (handle x)
         (mc_list x) (p_initiator_depth x) (p_responder_resources x) (p_qp_init_attr x).
Definition with_connect_error (b : bool) (x : cma_id_private) : cma_id_private :=
  mkPriv (p_id x) (p_dev x) (p_connect x) (events_completed x) b (sync x) (handle x)
         (mc_list x) (p_initiator_depth x) (p_responder_resources x) (p_qp_init_attr x).
Definition with_sync (b : bool) (x : cma_id_private) : cma_id_private :=
  mkPriv (p_id x) (p_dev x) (p_connect x) (events_completed x) (connect_error x) b (handle x)
         (mc_list x) (p_initiator_depth x) (p_responder_resources x) (p_qp_init_attr x).
Definition with_handle (h : Z) (x : cma_id_private) : cma_id_private :=
  mkPriv (p_id x) (p_dev x) (p_connect x) (events_completed x) (connect_error x) (sync x) h
         (mc_list x) (p_initiator_depth x) (p_responder_resources x) (p_qp_init_attr x).
Definition with_mc_list (l : list Z) (x : cma_id_private) : cma_id_private :=
  mkPriv (p_id x) (p_dev x) (p_connect x) (events_completed x) (connect_error x) (sync x) (handle x)
         l (p_initiator_depth x) (p_responder_resources x) (p_qp_init_attr x).
Definition with_depths (i r : Z) (x : cma_id_private) : cma_id_private :=
  mkPriv (p_id x) (p_dev x) (p_connect x) (events_completed x) (connect_error x) (sync x) (handle x)
         (mc_list x) i r (p_qp_init_attr x).
Definition with_init_attr (a : option qp_attr) (x : cma_id_private) : cma_id_private :=
  mkPriv (p_id x) (p_dev x) (p_connect x) (events_completed x) (connect_error x) (sync x) (handle x)
         (mc_list x) (p_initiator_depth x) (p_responder_resources x) a.

Definition with_verbs (v pd : option Z) (i : rdma_cm_id) : rdma_cm_id :=
  mkCmId v (id_channel i) (id_context i) (id_qp i) (id_route i) (id_ps i) (id_port_num i) (id_event i) pd
         (id_qp_type i) (id_send_cq_channel i) (id_send_cq i) (id_recv_cq_channel i) (id_recv_cq i) (id_srq i).
Definition with_channel (c : Z) (i : rdma_cm_id) : rdma_cm_id :=
  mkCmId (id_verbs i) c (id_context i) (id_qp i) (id_route i) (id_ps i) (id_port_num i) (id_event i) (id_pd i)
         (id_qp_type i) (id_send_cq_channel i) (id_send_cq i) (id_recv_cq_channel i) (id_recv_cq i) (id_srq i).
Definition with_qp (q : option ibv_qp) (pd : option Z) (i : rdma_cm_id) : rdma_cm_id :=
  mkCmId (id_verbs i) (id_channel i) (id_context i) q (id_route i) (id_ps i) (id_port_num i) (id_event i) pd
         (id_qp_type i) (id_send_cq_channel i) (id_send_cq i) (id_recv_cq_channel i) (id_recv_cq i) (id_srq i).
Definition with_route (r : rdma_route) (i : rdma_cm_id) : rdma_cm_id :=
  mkCmId (id_verbs i) (id_channel i) (id_context i) (id_qp i) r (id_ps i) (id_port_num i) (id_event i) (id_pd i)
         (id_qp_type i) (id_send_cq_channel i) (id_send_cq i) (id_recv_cq_channel i) (id_recv_cq i) (id_srq i).
Definition with_port (n : Z) (i : rdma_cm_id) : rdma_cm_id :=
  mkCmId (id_verbs i) (id_channel i) (id_context i) (id_qp i) (id_route i) (id_ps i) n (id_event i) (id_pd i)
         (id_qp_type i) (id_send_cq_channel i) (id_send_cq i) (id_recv_cq_channel i) (id_recv_cq i) (id_srq i).
Definition with_event (e : option Z) (i : rdma_cm_id) : rdma_cm_id :=
  mkCmId (id_verbs i) (id_channel i) (id_context i) (id_qp i) (id_route i) (id_ps i) (id_port_num i) e (id_pd i)
         (id_qp_type i) (id_send_cq_channel i) (id_send_cq i) (id_recv_cq_channel i) (id_recv_cq i) (id_srq i).
Definition with_cqs (sch scq rch rcq : option Z) (i : rdma_cm_id) : rdma_cm_id :=
  mkCmId (id_verbs i) (id_channel i) (id_context i) (id_qp i) (id_route i) (id_ps i) (id_port_num i) (id_event i)
         (id_pd i) (id_qp_type i) sch scq rch rcq (id_srq i).

Definition with_device (v pd : option Z) (port : list Z) (n : Z) (sizes : Z * Z * Z) (d : cma_device) : cma_device :=
  mkDev (d_guid d) v pd (d_xrcd d) port n sizes.1.1 sizes.1.2 sizes.2.
Definition dev_sizes (d : cma_device) : Z * Z * Z := (max_qpsize d, max_initiator_depth d, max_responder_resources d).
Definition with_refcnt (n : Z) (d : cma_device) : cma_device :=
  with_device (d_verbs d) (d_pd d) (d_port d) n (dev_sizes d) d.
Definition with_pd (pd : option Z) (d : cma_device) : cma_device :=
  with_device (d_verbs d) pd (d_port d) (d_refcnt d) (dev_sizes d) d.
Definition with_xrcd (x : option Z) (d : cma_device) : cma_device :=
  mkDev (d_guid d) (d_verbs d) (d_pd d) x (d_port d) (d_refcnt d) (max_qpsize d) (max_initiator_depth d)
        (max_responder_resources d).

(** ** The environment

    The requests to the router, by the descriptor of the channel at the router and the
    kernel's handle: the error it reports and the response, which holds whatever
    is left in the router's buffer when the kernel refused.  [None]: no event yet.
    Then the two multicast commands, which go to the kernel directly, the verbs
    library ([v_ib_route]: the path records the address resolver finds), and the
    allocator, which is told the addresses in use. *)
Class CmEnv (K : Type) := {
  r_create_channel : K → Z * Z * K;
  r_create_id : Z → Z → Z → Z → K → Z * Z * K;
  r_destroy_id : Z → Z → K → Z * Z * K;
  r_query_addr : Z → Z → K → Z * ucma_abi_query_addr_resp * K;
  r_query_gid : Z → Z → K → Z * (list Z * list Z) * K;
  r_query_path : Z → Z → K → Z * ucma_abi_query_path_resp * K;
  r_query_route : Z → Z → K → Z * ucma_abi_query_route_resp * K;
  r_init_qp_attr : Z → Z → Z → K → Z * mem * K;
  r_process_conn_resp : Z → Z → K → Z * K;
  r_migrate_id : Z → Z → Z → K → Z * Z * K;
  r_get_event : Z → K → option (Z * ucma_abi_event_resp * K);
  r_bind : Z → Z → list Z → K → Z * K;
  r_bind_ip : Z → Z → list Z → K → option (Z * K);
  r_resolve_addr : Z → Z → list Z → list Z → Z → K → Z * K;
  r_resolve_ip : Z → Z → list Z → list Z → Z → K → Z * K;
  r_resolve_route : Z → Z → Z → K → Z * K;
  r_connect : Z → Z → ucma_abi_conn_param → K → Z * K;
  r_accept : Z → Z → Z → ucma_abi_conn_param → K → Z * K;
  r_listen : Z → Z → Z → K → Z * K;
  r_disconnect : Z → Z → K → Z * K;
  r_set_option : Z → Z → Z → Z → Z → list Z → K → Z * K;
  k_join_mcast : Z → Z → Z → list Z → K → option (Z * K);
  k_leave_mcast : Z → Z → K → option (Z * K);
  v_open_device : Z → K → option Z * K;
  v_close_device : Z → K → K;
  v_query_device : Z → K → Z * mem * K;
  v_query_port : Z → Z → K → Z * Z * K;
  v_transport : Z → Z;
  v_alloc_pd : Z → K → option Z * K;
  v_dealloc_pd : Z → K → K;
  v_open_xrcd : Z → K → option Z * K;
  v_close_xrcd : Z → K → K;
  v_query_pkey : Z → Z → Z → K → Z * Z * K;
  v_modify_qp : Z → mem → Z → K → Z * K;
  v_attach_mcast : Z → list Z → Z → K → Z * K;
  v_detach_mcast : Z → list Z → Z → K → K;
  v_create_channel : Z → K → option Z * K;
  v_destroy_channel : Z → K → K;
  v_create_cq : Z → Z → Z → K → option Z * K;
  v_destroy_cq : Z → K → K;
  v_create_qp : Z → qp_attr → K → option ibv_qp * K;
  v_destroy_qp : Z → K → K;
  v_destroy_srq : Z → K → K;
  v_pd_context : Z → Z;
  v_ib_route : list Z → list Z → K → option (list Z) * K;
  e_malloc : gset Z → K → option Z * K;
  e_junk : K → mem
}.

(** ** State *)
Record cma (K : Type) := mkCma {
  c_ids : gmap Z cma_id_private; c_events : gmap Z cma_event; c_mcs : gmap Z cma_multicast;
  ucma_idm : index_map; cma_dev_array : list cma_device; event_channel_map : gmap Z Z; c_env : K
}.
Arguments mkCma {K}.
Arguments c_ids {K}.
Arguments c_events {K}.
Arguments c_mcs {K}.
Arguments ucma_idm {K}.
Arguments cma_dev_array {K}.
Arguments event_channel_map {K}.
Arguments c_env {K}.

Definition M (K A : Type) : Type := cma K → res (A * cma K).

#[export] Instance M_ret K : MRet (M K) := λ _ a s, Ok (a, s).
#[export] Instance M_bind K : MBind (M K) := λ _ _ f m s, let* (a, s) := m s in f a s.

Section Calls.
Context {K : Type} `{!CmEnv K} (af_ib_support : bool).
Implicit Types (s : cma K) (p : Z).

Definition live s : gset Z := dom (c_ids s) ∪ dom (c_events s) ∪ dom (c_mcs s).

Definition gets {A} (f : cma K → A) : M K A := λ s, Ok (f s, s).
Definition block {A} : M K A := λ _, Blocked.
Definition ub {A} (why : string) : M K A := λ _, UB why.
Definition lift {A} (r : res A) : M K A := λ s, let* a := r in Ok (a, s).
Definition env {A} (f : K → A * K) : M K A := λ s,
  let '(a, k) := f (c_env s) in
  Ok (a, mkCma (c_ids s) (c_events s) (c_mcs s) (ucma_idm s) (cma_dev_array s) (event_channel_map s) k).
Definition env_wait {A} (f : K → option (A * K)) : M K A := λ s,
  match f (c_env s) with
  | None => Blocked
  | Some x => env (λ _, x) s
  end.
Definition env_ (f : K → K) : M K () := env (λ k, ((), f k)).
Definition junk : M K mem := λ s, Ok (e_junk (c_env s), s).
Definition malloc : M K (option Z) := λ s, env (e_malloc (live s)) s.

Definition upd_ids f : M K () := λ s,
  Ok ((), mkCma (f (c_ids s)) (c_events s) (c_mcs s) (ucma_idm s) (cma_dev_array s) (event_channel_map s) (c_env s)).
Definition upd_events f : M K () := λ s,
  Ok ((), mkCma (c_ids s) (f (c_events s)) (c_mcs s) (ucma_idm s) (cma_dev_array s) (event_channel_map s) (c_env s)).
Definition upd_mcs f : M K () := λ s,
  Ok ((), mkCma (c_ids s) (c_events s) (f (c_mcs s)) (ucma_idm s) (cma_dev_array s) (event_channel_map s) (c_env s)).
Definition upd_idm f : M K () := λ s,
  Ok ((), mkCma (c_ids s) (c_events s) (c_mcs s) (f (ucma_idm s)) (cma_dev_array s) (event_channel_map s) (c_env s)).
Definition upd_devs f : M K () := λ s,
  Ok ((), mkCma (c_ids s) (c_events s) (c_mcs s) (ucma_idm s) (f (cma_dev_array s)) (event_channel_map s) (c_env s)).
Definition upd_chans f : M K () := λ s,
  Ok ((), mkCma (c_ids s) (c_events s) (c_mcs s) (ucma_idm s) (cma_dev_array s) (f (event_channel_map s)) (c_env s)).

(** Reading and updating heap blocks; a block that is not allocated is a dangling
    pointer. *)
Definition dangling : string := "use after free".
Definition get_id p : M K cma_id_private := λ s, lift (deref dangling (c_ids s !! p)) s.
Definition set_id p (f : cma_id_private → cma_id_private) : M K () :=
  x ← get_id p; upd_ids <[p := f x]>.
Definition get_event p : M K cma_event := λ s, lift (deref dangling (c_events s !! p)) s.
Definition set_event p (f : cma_event → cma_event) : M K () :=
  x ← get_event p; upd_events <[p := f x]>.
Definition get_mc p : M K cma_multicast := λ s, lift (deref dangling (c_mcs s !! p)) s.
Definition set_mc p (f : cma_multicast → cma_multicast) : M K () :=
  x ← get_mc p; upd_mcs <[p := f x]>.
Definition get_dev (i : nat) : M K cma_device := λ s, lift (deref "cma_dev" (cma_dev_array s !! i)) s.
Definition set_dev (i : nat) (f : cma_device → cma_device) : M K () :=
  x ← get_dev i; upd_devs <[i := f x]>.

(** ** Devices *)
Fixpoint query_ports (verbs : Z) (ports : list Z) : M K (list Z) :=
  match ports with
  | [] => mret []
  | i :: ports =>
      '(ret, ll) ← env (v_query_port verbs i);
      l ← query_ports verbs ports;
      mret ((if Z.eqb ret 0 then ll else IBV_LINK_LAYER_UNSPECIFIED) :: l)
  end.

(** Zero, or -1 with [errno] set. *)
Definition ucma_init_device (i : nat) : M K Z :=
  d ← get_dev i;
  match d_verbs d with
  | Some _ => mret 0
  | None =>
      verbs ← env (v_open_device (d_guid d));
      match verbs with
      | None => mret (-1)
      | Some v =>
          '(ret, attr) ← env (v_query_device v);
          port ← (if Z.eqb ret 0 then malloc else mret None);
          match port with
          | None => env_ (v_close_device v) ;; mret (-1)
          | Some _ =>
              ports ← query_ports v (seqZ 1 (get S_ibv_device_attr ["phys_port_cnt"] attr));
              set_dev i (λ d, with_device (Some v) (d_pd d) ports (d_refcnt d)
                                (get S_ibv_device_attr ["max_qp_wr"] attr,
                                 u8 (get S_ibv_device_attr ["max_qp_init_rd_atom"] attr),
                                 u8 (get S_ibv_device_attr ["max_qp_rd_atom"] attr)) d) ;;
              mret 0
          end
      end
  end.

(** The first device with this identifier. *)
Definition find_device (guid : Z) (devs : list cma_device) : option nat :=
  fst <$> list_find (λ d, d_guid d = guid) devs.

Definition ucma_get_device p (guid : Z) : M K Z :=
  o ← gets (λ s, find_device guid (cma_dev_array s));
  match o with
  | None => mret (-1)
  | Some i =>
      ret ← ucma_init_device i;
      if negb (Z.eqb ret 0) then mret ret
      else
        d ← get_dev i;
        set_dev i (with_refcnt (d_refcnt d + 1)) ;;
        ok ← (if Z.eqb (d_refcnt d) 0 then
                verbs ← lift (deref "cma_dev->verbs" (d_verbs d));
                pd ← env (v_alloc_pd verbs);
                set_dev i (with_pd pd) ;;
                match pd with
                | None => set_dev i (with_refcnt (d_refcnt d)) ;; mret false
                | Some _ => mret true
                end
              else mret true);
        if (ok : bool) then
          d ← get_dev i;
          set_id p (λ x, with_pub (with_verbs (d_verbs d) (d_pd d)) (with_dev (Some i) x)) ;;
          mret 0
        else mret (-1)
  end.

Definition ucma_put_device (i : nat) : M K () :=
  d ← get_dev i;
  set_dev i (with_refcnt (d_refcnt d - 1)) ;;
  if Z.eqb (d_refcnt d - 1) 0 then
    pd ← lift (deref "cma_dev->pd" (d_pd d));
    env_ (v_dealloc_pd pd) ;;
    match d_xrcd d with Some x => env_ (v_close_xrcd x) | None => mret () end
  else mret ().

Definition ucma_get_xrcd (i : nat) : M K (option Z) :=
  d ← get_dev i;
  match d_xrcd d with
  | Some x => mret (Some x)
  | None =>
      verbs ← lift (deref "cma_dev->verbs" (d_verbs d));
      x ← env (v_open_xrcd verbs);
      set_dev i (with_xrcd x) ;;
      mret x
  end.

(** ** Event channels

    The descriptor received with the response indexes [event_channel_map]. *)
Definition rdma_create_event_channel : M K (option Z) :=
  c ← malloc;
  match c with
  | None => mret None
  | Some _ =>
      '(mapped_fd, fd) ← env r_create_channel;
      lift (in_bounds "event_channel_map" mapped_fd MAP_SIZE) ;;
      upd_chans <[mapped_fd := fd]> ;;
      mret (Some mapped_fd)
  end.

(** [event_channel_map[channel->fd]], which is -1 where nothing was entered. *)
Definition router_channel (channel : Z) : M K Z :=
  lift (in_bounds "event_channel_map" channel MAP_SIZE) ;;
  gets (λ s, default (-1) (event_channel_map s !! channel)).

(** Room for a response: [request_router] writes the size that belongs to the request. *)
Definition rsp_fits (req : RDMA_FUNCTION_CALL) (room : Z) : res () :=
  match cm_shape req with
  | Some sh => if Z.leb (sh_rsp sh) room then Ok () else UB "write past rsp"
  | None => Ok ()
  end.

(** The request that is sent is CM_CREATE_EVENT_CHANNEL. *)
Definition rdma_destroy_event_channel (channel : Z) : M K () :=
  router_channel channel ;;
  lift (rsp_fits CM_CREATE_EVENT_CHANNEL (sizeof S_CM_DESTROY_EVENT_CHANNEL_RSP)) ;;
  '(mapped_fd, fd) ← env r_create_channel;
  lift (in_bounds "event_channel_map" mapped_fd MAP_SIZE) ;;
  upd_chans <[mapped_fd := fd]>.

(** ** Identifiers *)
Definition ucma_free_id p : M K () :=
  x ← get_id p;
  m ← gets ucma_idm;
  m ← lift (ucma_remove_id (handle x) m);
  upd_idm (λ _, m) ;;
  match p_dev x with Some i => ucma_put_device i | None => mret () end ;;
  (if sync x then rdma_destroy_event_channel (id_channel (p_id x)) else mret ()) ;;
  upd_ids (delete p).

(** A zeroed block with the members [ucma_alloc_id] assigns. *)
Definition new_id (channel context ps qp_type : Z) : cma_id_private :=
  mkPriv (mkCmId None channel context None (mkRoute (replicate 128 0) (replicate 128 0) (replicate 16 0) (replicate 16 0) 0 None)
                 ps 0 None None qp_type None None None None None)
         None [] 0 false false 0xFFFFFFFF [] 0 0 None.

(** Initialising the mutex and the condition variable does not fail. *)
Definition ucma_alloc_id (channel : option Z) (context ps qp_type : Z) : M K (option Z) :=
  p ← malloc;
  match p with
  | None => mret None
  | Some p =>
      upd_ids <[p := new_id 0 context ps qp_type]> ;;
      match channel with
      | None =>
          c ← rdma_create_event_channel;
          match c with
          | None => ucma_free_id p ;; mret None
          | Some c => set_id p (λ x, with_sync true (with_pub (with_channel c) x)) ;; mret (Some p)
          end
      | Some c => set_id p (with_pub (with_channel c)) ;; mret (Some p)
      end
  end.

(** [ucma_insert_id]: the handle is assigned and entered in the table. *)
Definition enter_id p (h : Z) : M K () :=
  set_id p (with_handle h) ;;
  a ← malloc;
  m ← gets ucma_idm;
  m ← lift (ucma_insert_id (bool_decide (is_Some a)) h p m);
  upd_idm (λ _, m).

(** The result is zero and the identifier, or an error. *)
Definition rdma_create_id2 (channel : option Z) (context ps qp_type : Z) : M K (Z * option Z) :=
  o ← ucma_alloc_id channel context ps qp_type;
  match o with
  | None => mret (-1, None)
  | Some p =>
      x ← get_id p;
      fd ← router_channel (id_channel (p_id x));
      '(_, h) ← env (r_create_id fd p ps qp_type);
      enter_id p h ;;
      mret (0, Some p)
  end.

Definition qp_type_of_ps (ps : Z) : Z :=
  if Z.eqb ps RDMA_PS_IPOIB || Z.eqb ps RDMA_PS_UDP then IBV_QPT_UD else IBV_QPT_RC.

Definition rdma_create_id (channel : option Z) (context ps : Z) : M K (Z * option Z) :=
  rdma_create_id2 channel context ps (qp_type_of_ps ps).

(** The number of events the kernel has reported, as an [int]. *)
Definition ucma_destroy_kern_id (channel h : Z) : M K Z :=
  fd ← router_channel channel;
  '(_, n) ← env (r_destroy_id fd h);
  mret (s32 n).

(** ** Acknowledging events *)
Definition ucma_complete_event p : M K () :=
  set_id p (λ x, with_completed (s32 (events_completed x + 1)) x).

Definition ucma_complete_mc_event (mc : Z) : M K () :=
  m ← get_mc mc;
  get_id (mc_id_priv m) ;;
  set_mc mc (λ m, mkMc (mc_id_priv m) (mc_context m) (s32 (mc_events_completed m + 1)) (mc_handle m) (mc_mgid m)
                       (mc_mlid m) (mc_addr m)) ;;
  ucma_complete_event (mc_id_priv m).

Definition rdma_ack_cm_event (e : Z) : M K () :=
  evt ← get_event e;
  match ev_mc evt with
  | Some mc => ucma_complete_mc_event mc
  | None => match ev_id_priv evt with Some p => ucma_complete_event p | None => ub "evt->id_priv" end
  end ;;
  upd_events (delete e).

Definition ack_own p : M K () :=
  x ← get_id p;
  match id_event (p_id x) with Some e => rdma_ack_cm_event e | None => mret () end.

(** The wait on the condition variable. *)
Definition wait_completed p (n : Z) : M K () :=
  x ← get_id p;
  if Z.ltb (events_completed x) n then block else mret ().

(** The same wait for a [__u32]: the comparison is unsigned. *)
Definition wait_reported p (n : Z) : M K () :=
  x ← get_id p;
  if Z.ltb (u32 (events_completed x)) n then block else mret ().

(** The part of [rdma_destroy_id] before the wait. *)
Definition destroy_begin p : M K Z :=
  x ← get_id p;
  ret ← ucma_destroy_kern_id (id_channel (p_id x)) (handle x);
  if Z.ltb ret 0 then mret ret else ack_own p ;; mret ret.

Definition rdma_destroy_id p : M K Z :=
  ret ← destroy_begin p;
  if Z.ltb ret 0 then mret ret
  else wait_completed p ret ;; ucma_free_id p ;; mret 0.

(** ** Queries *)
Definition memcpy (dst src : list Z) (n : Z) : res (list Z) :=
  if Z.leb n (lenZ dst) && Z.leb n (lenZ src) then Ok (takeZ n src ++ dropZ n dst) else UB "memcpy".

Definition set_route p (f : rdma_route → rdma_route) : M K () :=
  set_id p (with_pub (λ i, with_route (f (id_route i)) i)).

(** [if (!id_priv->cma_dev && resp.node_guid)] *)
Definition bind_device p (guid : Z) (bound : M K ()) : M K Z :=
  x ← get_id p;
  if bool_decide (p_dev x = None) && negb (Z.eqb guid 0) then
    ret ← ucma_get_device p guid;
    if negb (Z.eqb ret 0) then mret ret else bound ;; mret 0
  else mret 0.

Definition ucma_query_addr p : M K Z :=
  x ← get_id p;
  fd ← router_channel (id_channel (p_id x));
  '(_, r) ← env (r_query_addr fd (handle x));
  src ← lift (memcpy (src_storage (id_route (p_id x))) (qa_src_addr r) (qa_src_size r));
  dst ← lift (memcpy (dst_storage (id_route (p_id x))) (qa_dst_addr r) (qa_dst_size r));
  set_route p (λ t, mkRoute src dst (sgid t) (dgid t) (pkey t) (path_rec t)) ;;
  bind_device p (qa_node_guid r)
    (set_id p (with_pub (with_port (qa_port_num r))) ;;
     set_route p (λ t, mkRoute (src_storage t) (dst_storage t) (sgid t) (dgid t) (qa_pkey r) (path_rec t))).

Definition ucma_query_gid p : M K Z :=
  x ← get_id p;
  fd ← router_channel (id_channel (p_id x));
  '(_, (sg, dg)) ← env (r_query_gid fd (handle x));
  set_route p (λ t, mkRoute (src_storage t) (dst_storage t) sg dg (pkey t) (path_rec t)) ;;
  mret 0.

(** [ntohl] and [ntohs] *)
Definition swap16 (z : Z) : Z := Z.lor (Z.shiftl (Z.land z 0xFF) 8) (Z.land (Z.shiftr z 8) 0xFF).
Definition swap32 (z : Z) : Z :=
  Z.lor (Z.shiftl (swap16 (Z.land z 0xFFFF)) 16) (swap16 (Z.land (Z.shiftr z 16) 0xFFFF)).

(** The assignments of [ucma_convert_path], in order. *)
Definition convert_path_fields (d : mem) : list (string * Z) :=
  let path f := get S_ibv_path_data ["path"; f] d in
  let fl_hop := swap32 (path "flowlabel_hoplimit") in
  [("dgid", path "dgid"); ("sgid", path "sgid"); ("dlid", path "dlid"); ("slid", path "slid"); ("raw_traffic", 0);
   ("flow_label", swap32 (Z.shiftr fl_hop 8)); ("hop_limit", u8 fl_hop); ("traffic_class", path "tclass");
   ("reversible", Z.shiftr (path "reversible_numpath") 7); ("numb_path", 1); ("pkey", path "pkey");
   ("sl", Z.land (swap16 (path "qosclass_sl")) 0xF); ("mtu_selector", 2); ("mtu", Z.land (path "mtu") 0x1F);
   ("rate_selector", 2); ("rate", Z.land (path "rate") 0x1F); ("packet_life_time_selector", 2);
   ("packet_life_time", Z.land (path "packetlifetime") 0x1F);
   ("preference", u8 (get S_ibv_path_data ["flags"] d))].

Definition ucma_convert_path (path_data sa_path : mem) : mem :=
  foldl (λ m '(f, v), put S_ibv_sa_path_rec [f] v m) sa_path (convert_path_fields path_data).

(** The loop over [num_paths] elements of an array of the response. *)
Fixpoint convert_paths (conv : mem → mem) (data : list mem) (n : nat) {struct n} : res (list mem) :=
  match n with
  | O => Ok []
  | S n => match data with
           | [] => UB "read past path_data"
           | d :: data => let* l := convert_paths conv data n in Ok (conv d :: l)
           end
  end.

Definition store_paths p (n : Z) (conv : mem → mem → mem) (data : list mem) : M K Z :=
  if Z.eqb n 0 then mret 0
  else
    a ← malloc;
    match a with
    | None => set_route p (λ t, mkRoute (src_storage t) (dst_storage t) (sgid t) (dgid t) (pkey t) None) ;; mret (-1)
    | Some _ =>
        j ← junk;
        l ← lift (convert_paths (λ d, conv d j) data (Z.to_nat n));
        set_route p (λ t, mkRoute (src_storage t) (dst_storage t) (sgid t) (dgid t) (pkey t) (Some l)) ;;
        mret 0
    end.

Definition ucma_query_path p : M K Z :=
  x ← get_id p;
  fd ← router_channel (id_channel (p_id x));
  '(_, r) ← env (r_query_path fd (handle x));
  store_paths p (qp_num_paths r) ucma_convert_path (qp_path_data r).

Definition ucma_query_route p : M K Z :=
  x ← get_id p;
  fd ← router_channel (id_channel (p_id x));
  '(_, r) ← env (r_query_route fd (handle x));
  ret ← store_paths p (qr_num_paths r) ibv_copy_path_rec_from_kern (qr_ib_route r);
  if negb (Z.eqb ret 0) then mret ret
  else
    first ← lift (deref "ib_route[0]" (head (qr_ib_route r)));
    let gid f := le_bytes 16 (get S_ibv_kern_path_rec [f] first) in
    src ← lift (memcpy (src_storage (id_route (p_id x))) (qr_src_addr r) 28);
    dst ← lift (memcpy (dst_storage (id_route (p_id x))) (qr_dst_addr r) 28);
    set_route p (λ t, mkRoute src dst (gid "sgid") (gid "dgid") (u16 (get S_ibv_kern_path_rec ["pkey"] first)) (path_rec t)) ;;
    bind_device p (qr_node_guid r) (set_id p (with_pub (with_port (qr_port_num r)))).

(** ** Moving the queue pair *)
Definition ucma_is_ud_qp (qp_type : Z) : bool := Z.eqb qp_type IBV_QPT_UD.
Definition rdma_seterrno (ret : Z) : Z := if Z.eqb ret 0 then 0 else -1.

(** The attributes and their mask. *)
Definition rdma_init_qp_attr p (qp_attr : mem) : M K (mem * Z) :=
  x ← get_id p;
  fd ← router_channel (id_channel (p_id x));
  '(_, r) ← env (r_init_qp_attr fd (handle x) (get S_ibv_qp_attr ["qp_state"] qp_attr));
  mret (ibv_copy_qp_attr_from_kern r qp_attr, s32 (get S_ibv_kern_qp_attr ["qp_attr_mask"] r)).

Definition with_state (st : Z) (m : mem) : mem := put S_ibv_qp_attr ["qp_state"] st m.

(** [qp_attr_mask &= UINT_MAX ^ 0xe00000] *)
Definition mask_off_roce (mask : Z) : Z := s32 (Z.land (u32 mask) (Z.lxor (2 ^ 32 - 1) 0xe00000)).

Definition ucma_modify_qp_rtr p (resp_res : Z) : M K Z :=
  x ← get_id p;
  match id_qp (p_id x) with
  | None => mret (-1)
  | Some qp =>
      j ← junk;
      '(attr, mask) ← rdma_init_qp_attr p (with_state IBV_QPS_INIT j);
      ret ← env (v_modify_qp (qp_ptr qp) attr mask);
      if negb (Z.eqb ret 0) then mret (-1)
      else
        '(attr, mask) ← rdma_init_qp_attr p (with_state IBV_QPS_RTR attr);
        i ← lift (deref "cma_dev" (p_dev x));
        d ← get_dev i;
        lift (in_bounds "cma_dev->port" (id_port_num (p_id x) - 1) (lenZ (d_port d))) ;;
        link_layer ← lift (deref "cma_dev->port" (d_port d !! Z.to_nat (id_port_num (p_id x) - 1)));
        let mask := if Z.eqb link_layer IBV_LINK_LAYER_INFINIBAND then mask_off_roce mask else mask in
        let attr := if Z.eqb resp_res RDMA_MAX_RESP_RES then attr
                    else put S_ibv_qp_attr ["max_dest_rd_atomic"] resp_res attr in
        ret ← env (v_modify_qp (qp_ptr qp) attr mask);
        mret (rdma_seterrno ret)
  end.

Definition ucma_modify_qp_rts p (init_depth : Z) : M K Z :=
  x ← get_id p;
  j ← junk;
  '(attr, mask) ← rdma_init_qp_attr p (with_state IBV_QPS_RTS j);
  let attr := if Z.eqb init_depth RDMA_MAX_INIT_DEPTH then attr
              else put S_ibv_qp_attr ["max_rd_atomic"] init_depth attr in
  qp ← lift (deref "id->qp" (id_qp (p_id x)));
  ret ← env (v_modify_qp (qp_ptr qp) attr mask);
  mret (rdma_seterrno ret).

Definition modify_qp_state (st : Z) p : M K Z :=
  x ← get_id p;
  match id_qp (p_id x) with
  | None => mret 0
  | Some qp => j ← junk; ret ← env (v_modify_qp (qp_ptr qp) (with_state st j) IBV_QP_STATE); mret (rdma_seterrno ret)
  end.
Definition ucma_modify_qp_sqd : Z → M K Z := modify_qp_state IBV_QPS_SQD.
Definition ucma_modify_qp_err : Z → M K Z := modify_qp_state IBV_QPS_ERR.

(** ** Migration *)

(** The part before the wait: the number of events reported on the old channel. *)
Definition migrate_begin p (channel : option Z) : M K (Z + Z) :=
  x ← get_id p;
  if sync x && bool_decide (channel = None) then mret (inl (-1))
  else
    c ← match channel with Some c => mret (Some c) | None => rdma_create_event_channel end;
    match c with
    | None => mret (inl (-1))
    | Some c =>
        old ← router_channel (id_channel (p_id x));
        fd ← router_channel c;
        '(_, n) ← env (r_migrate_id fd (handle x) old);
        (if sync x then
           ack_own p ;; set_id p (with_pub (with_event None)) ;; rdma_destroy_event_channel (id_channel (p_id x))
         else mret ()) ;;
        set_id p (λ x, with_sync (bool_decide (channel = None)) (with_pub (with_channel c) x)) ;;
        mret (inr n)
    end.

Definition rdma_migrate_id p (channel : option Z) : M K Z :=
  r ← migrate_begin p channel;
  match r with
  | inl ret => mret ret
  | inr n => wait_reported p n ;; mret 0
  end.

(** ** Processing events *)
Definition has_transport p (t : Z) : M K bool :=
  x ← get_id p;
  v ← lift (deref "id->verbs" (id_verbs (p_id x)));
  mret (Z.eqb (v_transport v) t).

Definition set_status (e : Z) (st : Z) (failed : rdma_cm_event_type) : M K () :=
  set_event e (λ v, mkEvent (ev_id v) (ev_listen_id v) (if Z.eqb st 0 then ev_event v else failed) st
                            (ev_param v) (ev_id_priv v) (ev_mc v)).

Definition ucma_process_addr_resolved (e p : Z) : M K () :=
  st ← (if af_ib_support then
          st ← ucma_query_addr p;
          if negb (Z.eqb st 0) then mret st
          else
            ib ← has_transport p IBV_TRANSPORT_IB;
            if (ib : bool) then ucma_query_gid p else mret st
        else ucma_query_route p);
  set_status e st RDMA_CM_EVENT_ADDR_ERROR.

Definition ucma_process_route_resolved (e p : Z) : M K () :=
  ib ← has_transport p IBV_TRANSPORT_IB;
  if negb ib then mret ()
  else
    st ← (if af_ib_support then ucma_query_path p else ucma_query_route p);
    set_status e st RDMA_CM_EVENT_ROUTE_ERROR.

Definition ucma_query_req_info p : M K Z :=
  if negb af_ib_support then ucma_query_route p
  else
    ret ← ucma_query_addr p;
    if negb (Z.eqb ret 0) then mret ret
    else
      ret ← ucma_query_gid p;
      if negb (Z.eqb ret 0) then mret ret else ucma_query_path p.

(** [dst->private_data]: the first [len] bytes, NULL for none. *)
Definition event_private_data (data : list Z) (len : Z) : data_ptr :=
  if Z.eqb len 0 then Null else Data (takeZ len data).

Definition ucma_copy_conn_event (src : ucma_abi_conn_param) : event_param :=
  ConnParam (mkConn (event_private_data (ac_private_data src) (ac_private_data_len src)) (ac_private_data_len src)
    (ac_responder_resources src) (ac_initiator_depth src) (ac_flow_control src) (ac_retry_count src)
    (ac_rnr_retry_count src) (ac_srq src) (ac_qp_num src)).

(** The address attributes start from the zeroes of the [memset]. *)
Definition ucma_copy_ud_event (src : ucma_abi_ud_param) : rdma_ud_param :=
  mkUd (event_private_data (au_private_data src) (au_private_data_len src)) (au_private_data_len src)
    (ibv_copy_ah_attr_from_kern (au_ah_attr src) (λ _, 0)) (au_qp_num src) (au_qkey src).

Definition set_param (e : Z) (q : event_param) : M K () :=
  set_event e (λ v, mkEvent (ev_id v) (ev_listen_id v) (ev_event v) (ev_status v) q (ev_id_priv v) (ev_mc v)).

(** [param.conn.initiator_depth] and [param.conn.responder_resources]; at their place a
    datagram's parameters have padding, zero since the [memset]. *)
Definition param_depths (q : event_param) : Z * Z :=
  match q with
  | ConnParam c => (cp_initiator_depth c, cp_responder_resources c)
  | _ => (0, 0)
  end.

(** [lp] is the listening identifier, [evt->id_priv].  On success the event names the
    new identifier. *)
Definition ucma_process_conn_req (e lp h : Z) : M K Z :=
  l ← get_id lp;
  o ← ucma_alloc_id (Some (id_channel (p_id l))) (id_context (p_id l)) (id_ps (p_id l)) (id_qp_type (p_id l));
  match o with
  | None => ucma_destroy_kern_id (id_channel (p_id l)) h ;; ucma_complete_event lp ;; mret (-1)
  | Some p =>
      set_event e (λ v, mkEvent (Some p) (Some lp) (ev_event v) (ev_status v) (ev_param v) (ev_id_priv v) (ev_mc v)) ;;
      enter_id p h ;;
      v ← get_event e;
      set_id p (with_depths (param_depths (ev_param v)).1 (param_depths (ev_param v)).2) ;;
      l ← get_id lp;
      ret ← (if sync l then rdma_migrate_id p None else mret 0);
      ret ← (if Z.eqb ret 0 then ucma_query_req_info p else mret ret);
      if Z.eqb ret 0 then mret 0
      else rdma_destroy_id p ;; ucma_complete_event lp ;; mret ret
  end.

Definition ucma_process_conn_resp p : M K Z :=
  ret ← ucma_modify_qp_rtr p RDMA_MAX_RESP_RES;
  ret ← (if Z.eqb ret 0 then ucma_modify_qp_rts p RDMA_MAX_INIT_DEPTH else mret ret);
  if negb (Z.eqb ret 0) then ucma_modify_qp_err p ;; mret ret
  else
    x ← get_id p;
    fd ← router_channel (id_channel (p_id x));
    env (r_process_conn_resp fd (handle x)) ;;
    mret 0.

Definition ucma_process_join (mc : Z) (ud : rdma_ud_param) : M K Z :=
  let mgid := le_bytes 16 (get S_ibv_ah_attr ["grh"; "dgid"] (ud_ah_attr ud)) in
  let mlid := get S_ibv_ah_attr ["dlid"] (ud_ah_attr ud) in
  set_mc mc (λ m, mkMc (mc_id_priv m) (mc_context m) (mc_events_completed m) (mc_handle m) mgid mlid (mc_addr m)) ;;
  m ← get_mc mc;
  x ← get_id (mc_id_priv m);
  match id_qp (p_id x) with
  | None => mret 0
  | Some qp => ret ← env (v_attach_mcast (qp_ptr qp) mgid mlid); mret (rdma_seterrno ret)
  end.

(** [evt->id_priv], [evt->event.id], [event] and [status]. *)
Definition own (e : Z) (ev : rdma_cm_event_type) p (st : Z) : M K () :=
  set_event e (λ v, mkEvent (Some p) None ev st (ev_param v) (Some p) None).

(** The event belongs to a multicast group. *)
Definition own_mc (e mc p : Z) (q : event_param) : M K () :=
  set_event e (λ v, mkEvent (Some p) None (ev_event v) (ev_status v) q (Some p) (Some mc)).

Definition with_context (c : Z) (u : rdma_ud_param) : rdma_ud_param :=
  mkUd (Context c) (ud_private_data_len u) (ud_ah_attr u) (ud_qp_num u) (ud_qkey u).

(** The parameters by the type of the identifier. *)
Definition set_conn_or_ud (e p : Z) (r : ucma_abi_event_resp) : M K () :=
  x ← get_id p;
  set_param e (if ucma_is_ud_qp (id_qp_type (p_id x)) then UdParam (ucma_copy_ud_event (er_ud r))
               else ucma_copy_conn_event (er_conn r)).

Inductive next := Deliver | Retry.

(** A late event of an identifier whose connection failed is completed and dropped. *)
Definition unless_failed (p : Z) (m : M K ()) : M K next :=
  x ← get_id p;
  if connect_error x then ucma_complete_event p ;; mret Retry else m ;; mret Deliver.

(** The identifier an event is for: by [uid], or by the kernel's handle if that is 0. *)
Definition event_target (r : ucma_abi_event_resp) : M K (option Z) :=
  if negb (Z.eqb (er_uid r) 0) then mret (Some (er_uid r))
  else
    m ← gets ucma_idm;
    q ← lift (ucma_lookup_id (s32 (er_id r)) m);
    if Z.eqb q 0 then mret None
    else if bool_decide (er_event r = RDMA_CM_EVENT_ESTABLISHED) then mret (Some q)
    else ucma_complete_event q ;; mret None.

(** The body of the loop of [rdma_get_cm_event] after the request, for the event block
    [e]. *)
Definition process_event (e : Z) (r : ucma_abi_event_resp) : M K next :=
  o ← event_target r;
  match o with
  | None => mret Retry
  | Some p =>
    own e (er_event r) p (s32 (er_status r)) ;;
    match er_event r with
    | RDMA_CM_EVENT_ADDR_RESOLVED => ucma_process_addr_resolved e p ;; mret Deliver
    | RDMA_CM_EVENT_ROUTE_RESOLVED => ucma_process_route_resolved e p ;; mret Deliver
    | RDMA_CM_EVENT_CONNECT_REQUEST =>
        set_conn_or_ud e p r ;;
        ret ← ucma_process_conn_req e p (er_id r);
        mret (if Z.eqb ret 0 then Deliver else Retry)
    | RDMA_CM_EVENT_CONNECT_RESPONSE =>
        set_param e (ucma_copy_conn_event (er_conn r)) ;;
        st ← ucma_process_conn_resp p;
        (if Z.eqb st 0 then mret () else set_id p (with_connect_error true)) ;;
        set_event e (λ v, mkEvent (ev_id v) (ev_listen_id v)
                            (if Z.eqb st 0 then RDMA_CM_EVENT_ESTABLISHED else RDMA_CM_EVENT_CONNECT_ERROR)
                            st (ev_param v) (ev_id_priv v) (ev_mc v)) ;;
        mret Deliver
    | RDMA_CM_EVENT_ESTABLISHED => set_conn_or_ud e p r ;; mret Deliver
    | RDMA_CM_EVENT_REJECTED =>
        unless_failed p (set_param e (ucma_copy_conn_event (er_conn r)) ;; ucma_modify_qp_err p ;; mret ())
    | RDMA_CM_EVENT_DISCONNECTED => unless_failed p (set_param e (ucma_copy_conn_event (er_conn r)))
    | RDMA_CM_EVENT_MULTICAST_JOIN =>
        m ← get_mc p;
        let ud := with_context (mc_context m) (ucma_copy_ud_event (er_ud r)) in
        own_mc e p (mc_id_priv m) (UdParam ud) ;;
        st ← ucma_process_join p ud;
        set_status e st RDMA_CM_EVENT_MULTICAST_ERROR ;;
        mret Deliver
    | RDMA_CM_EVENT_MULTICAST_ERROR =>
        m ← get_mc p;
        own_mc e p (mc_id_priv m) (UdParam (mkUd (Context (mc_context m)) 0 (λ _, 0) 0 0)) ;;
        mret Deliver
    | _ => set_conn_or_ud e p r ;; mret Deliver
    end
  end.

(** The request for the next event on a channel; the error is not looked at. *)
Definition fetch_event (channel : Z) (e : Z) : M K ucma_abi_event_resp :=
  set_event e (λ _, blank_event) ;;
  fd ← router_channel channel;
  '(_, r) ← env_wait (r_get_event fd);
  mret r.

Fixpoint get_event_loop (fuel : nat) (channel e : Z) : M K () :=
  match fuel with
  | O => λ _, OutOfFuel : res (() * cma K)
  | S fuel =>
      r ← fetch_event channel e;
      n ← process_event e r;
      match n with Deliver => mret () | Retry => get_event_loop fuel channel e end
  end.

Definition new_event : M K (option Z) :=
  o ← malloc;
  match o with
  | None => mret None
  | Some e => upd_events <[e := blank_event]> ;; mret (Some e)
  end.

Definition rdma_get_cm_event (fuel : nat) (channel : Z) : M K (Z * option Z) :=
  o ← new_event;
  match o with
  | None => mret (-1, None)
  | Some e => get_event_loop fuel channel e ;; mret (0, Some e)
  end.

(** For an identifier of its own channel, wait for the result of the operation. *)
Definition ucma_complete (fuel : nat) p : M K Z :=
  x ← get_id p;
  if negb (sync x) then mret 0
  else
    ack_own p ;;
    set_id p (with_pub (with_event None)) ;;
    '(ret, o) ← rdma_get_cm_event fuel (id_channel (p_id x));
    match o with
    | None => mret ret
    | Some e =>
        set_id p (with_pub (with_event (Some e))) ;;
        v ← get_event e;
        mret (if Z.eqb (ev_status v) 0 then 0 else -1)
    end.
End Calls.
