(* ===== verification/CmaConn.v ===== *)
(** * The connection manager: setting up and closing connections

    [librdmacm/src/cma.c]: addresses and routes, queue pairs on an identifier,
    connecting, listening, accepting, disconnecting, and the endpoint calls built
    from them. *)

From S2P Require Import Prelude Layout FfTypes Wire Indexer Attrs Marshall Cma.

Definition AF_INET : Z := 2.
Definition AF_INET6 : Z := 10.
Definition AF_IB : Z := 27.
Definition IBV_QPT_XRC_RECV : Z := 10.
Definition RDMA_OPTION_IB : Z := 1.
Definition RDMA_OPTION_IB_PATH : Z := 1.
Definition IBV_QP_ACCESS_FLAGS : Z := Z.shiftl 1 3.
Definition IBV_QP_PKEY_INDEX : Z := Z.shiftl 1 4.
Definition IBV_QP_PORT : Z := Z.shiftl 1 5.
Definition IBV_QP_QKEY : Z := Z.shiftl 1 6.
Definition IBV_QP_SQ_PSN : Z := Z.shiftl 1 16.

(** An address is its bytes; [None] is a null pointer. *)
Definition sa_family (addr : list Z) : Z := le_val (takeZ 2 addr).

(** [ucma_copy_conn_param_to_kern]; the command was zeroed before. *)
Definition zero_conn_param : ucma_abi_conn_param := mkAbiConn 0 (replicate 256 0) 0 0 0 0 0 0 0 0.

(** [memcpy(buf + off, src, len)] into [private_data]. *)
Definition write_private (buf : list Z) (off : Z) (src : list Z) : res (list Z) :=
  if Z.leb (off + lenZ src) (lenZ buf) then Ok (takeZ off buf ++ src ++ dropZ (off + lenZ src) buf)
  else UB "write past private_data".

Definition ucma_copy_conn_param_to_kern (x : cma_id_private) (src : option rdma_conn_param) (qp_num srq : Z) :
    res ucma_abi_conn_param :=
  let d := zero_conn_param in
  let* (buf, len) :=
    (if Z.eqb (lenZ (p_connect x)) 0 then Ok (ac_private_data d, 0)
     else let* buf := write_private (ac_private_data d) 0 (p_connect x) in Ok (buf, u8 (lenZ (p_connect x)))) in
  match src with
  | Some c =>
      let* (buf, len) :=
        match private_data c with
        | Data bytes =>
            if Z.eqb (private_data_len c) 0 then Ok (buf, len)
            else
              do* (if Z.leb (private_data_len c) (lenZ bytes) then Ok () else UB "read past private_data");
              let* buf := write_private buf len (takeZ (private_data_len c) bytes) in
              Ok (buf, u8 (len + private_data_len c))
        | Context _ => if Z.eqb (private_data_len c) 0 then Ok (buf, len) else UB "private_data"
        | Null => Ok (buf, len)
        end in
      Ok (mkAbiConn qp_num buf len srq (p_responder_resources x) (p_initiator_depth x) (flow_control c)
                    (retry_count c) (rnr_retry_count c) 1)
  | None => Ok (mkAbiConn qp_num buf len srq (p_responder_resources x) (p_initiator_depth x) 0 7 7 1)
  end.

(** What the endpoint calls use of [struct rdma_addrinfo]. *)
Record rdma_addrinfo := mkAddrinfo {
  ai_passive : bool; ai_qp_type : Z; ai_port_space : Z; ai_src_addr : option (list Z); ai_src_len : Z;
  ai_dst_addr : list Z; ai_dst_len : Z; ai_route : list Z; ai_connect : list Z
}.

Section Calls.
Context {K : Type} `{!CmEnv K} (af_ib_support : bool) (abi_ver : Z) (fuel : nat).
Implicit Types (s : cma K) (p : Z).

Definition ucma_addrlen (addr : option (list Z)) : Z :=
  match addr with
  | None => 0
  | Some a =>
      if Z.eqb (sa_family a) AF_INET then 16
      else if Z.eqb (sa_family a) AF_INET6 then 28
      else if Z.eqb (sa_family a) AF_IB then (if af_ib_support then 48 else 0)
      else 0
  end.

(** The bytes copied from an address into the command's field of [room] bytes. *)
Definition copy_addr (addr : list Z) (len room : Z) : res (list Z) := memcpy (replicate (Z.to_nat room) 0) addr len.

(** ** Addresses and routes *)

(** A failure of the router's is reported as [rsp.ret_errno >= 0]. *)
Definition rdma_bind_addr2 p (addr : list Z) (addrlen : Z) : M K Z :=
  x ← get_id p;
  a ← lift (copy_addr addr addrlen 128);
  fd ← router_channel (id_channel (p_id x));
  e ← env (r_bind fd (handle x) a);
  if negb (Z.eqb e 0) then mret (Z.b2z (Z.leb 0 e))
  else
    ret ← ucma_query_addr p;
    if Z.eqb ret 0 then ucma_query_gid p else mret ret.

Definition rdma_bind_addr p (addr : list Z) : M K Z :=
  let addrlen := ucma_addrlen (Some addr) in
  if Z.eqb addrlen 0 then mret (-1)
  else if af_ib_support then rdma_bind_addr2 p addr addrlen
  else
    x ← get_id p;
    a ← lift (copy_addr addr addrlen 28);
    fd ← router_channel (id_channel (p_id x));
    e ← env_wait (r_bind_ip fd (handle x) a);
    if negb (Z.eqb e 0) then mret e else ucma_query_route p.

(** [memcpy(&id->route.addr.dst_addr, dst_addr, dst_len)] *)
Definition store_dst p (dst : list Z) (len : Z) : M K () :=
  x ← get_id p;
  d ← lift (memcpy (dst_storage (id_route (p_id x))) dst len);
  set_route p (λ t, mkRoute (src_storage t) d (sgid t) (dgid t) (pkey t) (path_rec t)).

Definition rdma_resolve_addr2 p (src : option (list Z)) (src_len : Z) (dst : list Z) (dst_len timeout_ms : Z) : M K Z :=
  x ← get_id p;
  a ← lift (match src with
            | Some a => if Z.eqb src_len 0 then Ok (replicate 128 0) else copy_addr a src_len 128
            | None => if Z.eqb src_len 0 then Ok (replicate 128 0) else UB "src_addr"
            end);
  b ← lift (copy_addr dst dst_len 128);
  fd ← router_channel (id_channel (p_id x));
  env (r_resolve_addr fd (handle x) a b timeout_ms) ;;
  store_dst p dst dst_len ;;
  ucma_complete af_ib_support fuel p.

Definition rdma_resolve_addr p (src : option (list Z)) (dst : list Z) (timeout_ms : Z) : M K Z :=
  let dst_len := ucma_addrlen (Some dst) in
  let src_len := ucma_addrlen src in
  if Z.eqb dst_len 0 then mret (-1)
  else if bool_decide (is_Some src) && Z.eqb src_len 0 then mret (-1)
  else if af_ib_support then rdma_resolve_addr2 p src src_len dst dst_len timeout_ms
  else
    x ← get_id p;
    a ← lift (match src with Some a => copy_addr a src_len 28 | None => Ok (replicate 28 0) end);
    b ← lift (copy_addr dst dst_len 28);
    fd ← router_channel (id_channel (p_id x));
    env (r_resolve_ip fd (handle x) a b timeout_ms) ;;
    store_dst p dst dst_len ;;
    ucma_complete af_ib_support fuel p.

(** The option is copied into a field of 100 bytes. *)
Definition rdma_set_option p (level optname : Z) (optval : list Z) : M K Z :=
  x ← get_id p;
  fd ← router_channel (id_channel (p_id x));
  v ← lift (memcpy (replicate 100 0) optval (lenZ optval));
  env (r_set_option fd (handle x) level optname (lenZ optval) v) ;;
  mret 0.

(** [rdma_getaddrinfo] finds the path records for the identifier's addresses. *)
Definition ucma_set_ib_route p : M K Z :=
  x ← get_id p;
  o ← env (v_ib_route (src_storage (id_route (p_id x))) (dst_storage (id_route (p_id x))));
  match o with
  | None => mret (-1)
  | Some route =>
      if Z.eqb (lenZ route) 0 then mret (-1) else rdma_set_option p RDMA_OPTION_IB RDMA_OPTION_IB_PATH route
  end.

Definition rdma_resolve_route p (timeout_ms : Z) : M K Z :=
  ib ← has_transport p IBV_TRANSPORT_IB;
  ret ← (if (ib : bool) then ucma_set_ib_route p else mret (-1));
  (if Z.eqb ret 0 then mret ()
   else
     x ← get_id p;
     fd ← router_channel (id_channel (p_id x));
     env (r_resolve_route fd (handle x) timeout_ms) ;;
     mret ()) ;;
  ucma_complete af_ib_support fuel p.

(** ** Queue pairs *)

(** The loop over the partition keys of a port; it ends at the first index the device
    does not have. *)
Fixpoint find_pkey_from (n : nat) (verbs port_num key i : Z) : M K (option Z) :=
  match n with
  | O => λ _, OutOfFuel : res (option Z * cma K)
  | S n =>
      '(ret, chk) ← env (v_query_pkey verbs port_num i);
      if negb (Z.eqb ret 0) then mret None
      else if Z.eqb key chk then mret (Some (u16 i))
      else find_pkey_from n verbs port_num key (i + 1)
  end.

Definition ucma_find_pkey (i : nat) (port_num key : Z) : M K (option Z) :=
  d ← get_dev i;
  verbs ← lift (deref "cma_dev->verbs" (d_verbs d));
  find_pkey_from fuel verbs port_num key 0.

Definition set_attr (f : string) (v : Z) (m : mem) : mem := put S_ibv_qp_attr [f] v m.

(** The start of [ucma_init_conn_qp3] and of [ucma_init_ud_qp3]: the attributes with the
    partition key's index. *)
Definition attr_with_pkey p : M K (option mem) :=
  x ← get_id p;
  i ← lift (deref "cma_dev" (p_dev x));
  k ← ucma_find_pkey i (id_port_num (p_id x)) (pkey (id_route (p_id x)));
  j ← junk;
  mret ((λ k, set_attr "qp_state" IBV_QPS_INIT (set_attr "port_num" (id_port_num (p_id x)) (set_attr "pkey_index" k j))) <$> k).

Definition ucma_init_conn_qp3 p (qp : ibv_qp) : M K Z :=
  o ← attr_with_pkey p;
  match o with
  | None => mret (-1)
  | Some attr =>
      ret ← env (v_modify_qp (qp_ptr qp) (set_attr "qp_access_flags" 0 attr)
                   (Z.lor (Z.lor (Z.lor IBV_QP_STATE IBV_QP_ACCESS_FLAGS) IBV_QP_PKEY_INDEX) IBV_QP_PORT));
      mret (rdma_seterrno ret)
  end.

Definition ucma_init_conn_qp p (qp : ibv_qp) : M K Z :=
  if Z.eqb abi_ver 3 then ucma_init_conn_qp3 p qp
  else
    j ← junk;
    '(attr, mask) ← rdma_init_qp_attr p (with_state IBV_QPS_INIT j);
    ret ← env (v_modify_qp (qp_ptr qp) attr mask);
    mret (rdma_seterrno ret).

(** The common end: to RTR and to RTS. *)
Definition ud_qp_to_rts (qp : ibv_qp) (attr : mem) : M K Z :=
  ret ← env (v_modify_qp (qp_ptr qp) (with_state IBV_QPS_RTR attr) IBV_QP_STATE);
  if negb (Z.eqb ret 0) then mret (-1)
  else
    ret ← env (v_modify_qp (qp_ptr qp) (set_attr "sq_psn" 0 (with_state IBV_QPS_RTS attr))
                 (Z.lor IBV_QP_STATE IBV_QP_SQ_PSN));
    mret (rdma_seterrno ret).

Definition ucma_init_ud_qp3 p (qp : ibv_qp) : M K Z :=
  o ← attr_with_pkey p;
  match o with
  | None => mret (-1)
  | Some attr =>
      let attr := set_attr "qkey" RDMA_UDP_QKEY attr in
      ret ← env (v_modify_qp (qp_ptr qp) attr
                   (Z.lor (Z.lor (Z.lor IBV_QP_STATE IBV_QP_QKEY) IBV_QP_PKEY_INDEX) IBV_QP_PORT));
      if negb (Z.eqb ret 0) then mret (-1) else ud_qp_to_rts qp attr
  end.

Definition ucma_init_ud_qp p (qp : ibv_qp) : M K Z :=
  if Z.eqb abi_ver 3 then ucma_init_ud_qp3 p qp
  else
    j ← junk;
    '(attr, mask) ← rdma_init_qp_attr p (with_state IBV_QPS_INIT j);
    ret ← env (v_modify_qp (qp_ptr qp) attr mask);
    if negb (Z.eqb ret 0) then mret (-1) else ud_qp_to_rts qp attr.

Definition set_cqs p (sch scq rch rcq : option Z) : M K () := set_id p (with_pub (with_cqs sch scq rch rcq)).

(** Destroys the receive side, and the send side if it is another object. *)
Definition destroy_pair (destroy : Z → K → K) (rcv snd : option Z) : M K (option Z) :=
  match rcv with
  | None => mret snd
  | Some r =>
      env_ (destroy r) ;;
      match snd with
      | Some q => if Z.eqb q r then mret snd else env_ (destroy q) ;; mret None
      | None => mret None
      end
  end.

Definition ucma_destroy_cqs p : M K () :=
  x ← get_id p;
  let i := p_id x in
  if Z.eqb (id_qp_type i) IBV_QPT_XRC_RECV && bool_decide (is_Some (id_srq i)) then mret ()
  else
    scq ← destroy_pair v_destroy_cq (id_recv_cq i) (id_send_cq i);
    sch ← destroy_pair v_destroy_channel (id_recv_cq_channel i) (id_send_cq_channel i);
    set_cqs p sch scq None None.

(** A channel and a queue of this size, for an identifier that had the queue [old]; the
    size 0 asks for none. *)
Definition create_cq_pair (verbs size : Z) (old : option Z) : M K (option Z * option Z * bool) :=
  if Z.eqb size 0 then mret (None, None, true)
  else
    ch ← env (v_create_channel verbs);
    match ch with
    | None => mret (None, old, false)
    | Some c => cq ← env (v_create_cq verbs size c); mret (Some c, cq, bool_decide (is_Some cq))
    end.

Definition ucma_create_cqs p (send_size recv_size : Z) : M K Z :=
  x ← get_id p;
  verbs ← lift (deref "id->verbs" (id_verbs (p_id x)));
  '(rch, rcq, ok) ← create_cq_pair verbs recv_size (id_recv_cq (p_id x));
  (if Z.eqb recv_size 0 then mret ()
   else set_cqs p (id_send_cq_channel (p_id x)) (id_send_cq (p_id x)) rch rcq) ;;
  if negb ok then ucma_destroy_cqs p ;; mret (-1)
  else
    x ← get_id p;
    '(sch, scq, ok) ← create_cq_pair verbs send_size (id_send_cq (p_id x));
    (if Z.eqb send_size 0 then mret ()
     else set_cqs p sch scq (id_recv_cq_channel (p_id x)) (id_recv_cq (p_id x))) ;;
    if negb ok then ucma_destroy_cqs p ;; mret (-1) else mret 0.

Definition differ (a b : option Z) : bool :=
  match a, b with Some x, Some y => negb (Z.eqb x y) | _, _ => false end.

Definition first_of (a b : option Z) : option Z := match a with Some _ => a | None => b end.

(** Zero or an error, and the attributes as the call leaves them. *)
Definition rdma_create_qp_ex p (a : qp_attr) : M K (Z * qp_attr) :=
  x ← get_id p;
  let i := p_id x in
  match id_qp i with
  | Some _ => mret (-1, a)
  | None =>
    if match at_pd a with Some pd => negb (bool_decide (id_verbs i = Some (v_pd_context pd))) | None => false end
    then mret (-1, a)
    else
      let a := mkQpAttr (first_of (at_pd a) (id_pd i)) (at_send_cq a) (at_recv_cq a) (at_srq a) (at_xrcd a)
                        (at_max_send_wr a) (at_max_recv_wr a) (at_qp_type a) in
      if differ (id_recv_cq i) (at_recv_cq a) || differ (id_send_cq i) (at_send_cq a) then mret (-1, a)
      else
        xrcd ← (if Z.eqb (id_qp_type i) IBV_QPT_XRC_RECV && bool_decide (at_xrcd a = None) then
                  d ← lift (deref "cma_dev" (p_dev x)); ucma_get_xrcd d
                else mret (at_xrcd a));
        if Z.eqb (id_qp_type i) IBV_QPT_XRC_RECV && bool_decide (xrcd = None) then mret (-1, a)
        else
          ret ← ucma_create_cqs p (if bool_decide (is_Some (at_send_cq a) ∨ is_Some (id_send_cq i)) then 0 else at_max_send_wr a)
                                  (if bool_decide (is_Some (at_recv_cq a) ∨ is_Some (id_recv_cq i)) then 0 else at_max_recv_wr a);
          if negb (Z.eqb ret 0) then mret (ret, a)
          else
            x ← get_id p;
            let i := p_id x in
            let a := mkQpAttr (at_pd a) (first_of (at_send_cq a) (id_send_cq i)) (first_of (at_recv_cq a) (id_recv_cq i))
                              (first_of (at_srq a) (id_srq i)) xrcd (at_max_send_wr a) (at_max_recv_wr a) (at_qp_type a) in
            verbs ← lift (deref "id->verbs" (id_verbs i));
            o ← env (v_create_qp verbs a);
            match o with
            | None => ucma_destroy_cqs p ;; mret (-1, a)
            | Some qp =>
                ret ← (if ucma_is_ud_qp (id_qp_type i) then ucma_init_ud_qp p qp else ucma_init_conn_qp p qp);
                if negb (Z.eqb ret 0) then env_ (v_destroy_qp (qp_ptr qp)) ;; ucma_destroy_cqs p ;; mret (ret, a)
                else set_id p (with_pub (with_qp (Some qp) (Some (qp_pd qp)))) ;; mret (0, a)
            end
  end.

Definition rdma_create_qp p (pd : option Z) (a : qp_attr) : M K (Z * qp_attr) :=
  x ← get_id p;
  rdma_create_qp_ex p (mkQpAttr (first_of pd (id_pd (p_id x))) (at_send_cq a) (at_recv_cq a) (at_srq a) None
                                (at_max_send_wr a) (at_max_recv_wr a) (at_qp_type a)).

Definition rdma_destroy_qp p : M K () :=
  x ← get_id p;
  qp ← lift (deref "id->qp" (id_qp (p_id x)));
  env_ (v_destroy_qp (qp_ptr qp)) ;;
  set_id p (with_pub (λ i, with_qp None (id_pd i) i)) ;;
  ucma_destroy_cqs p.

(** ** Connections *)
(** A limit of the identifier's device. *)
Definition dev_limit (x : cma_id_private) (f : cma_device → Z) : M K Z :=
  i ← lift (deref "cma_dev" (p_dev x)); d ← get_dev i; mret (f d).

Definition ucma_valid_param (x : cma_id_private) (param : option rdma_conn_param) : M K bool :=
  if negb (Z.eqb (id_ps (p_id x)) RDMA_PS_TCP) then mret true
  else
    match param with
    | None => mret (bool_decide (is_Some (id_qp (p_id x))))
    | Some c =>
        ok ← (if Z.eqb (cp_responder_resources c) RDMA_MAX_RESP_RES then mret true
              else m ← dev_limit x max_responder_resources; mret (Z.leb (cp_responder_resources c) m));
        if negb ok then mret false
        else if Z.eqb (cp_initiator_depth c) RDMA_MAX_INIT_DEPTH then mret true
        else m ← dev_limit x max_initiator_depth; mret (Z.leb (cp_initiator_depth c) m)
    end.

(** The queue pair's number and whether it has an SRQ, or what the parameters say. *)
Definition conn_qp (x : cma_id_private) (param : option rdma_conn_param) : Z * Z :=
  match id_qp (p_id x), param with
  | Some qp, _ => (qp_num qp, Z.b2z (bool_decide (is_Some (qp_srq qp))))
  | None, Some c => (cp_qp_num c, cp_srq c)
  | None, None => (0, 0)
  end.

Definition rdma_connect p (param : option rdma_conn_param) : M K Z :=
  x ← get_id p;
  ok ← ucma_valid_param x param;
  if negb ok then mret (-1)
  else
    depth ← match param with
            | Some c => if Z.eqb (cp_initiator_depth c) RDMA_MAX_INIT_DEPTH then dev_limit x max_initiator_depth
                        else mret (cp_initiator_depth c)
            | None => dev_limit x max_initiator_depth
            end;
    res ← match param with
          | Some c => if Z.eqb (cp_responder_resources c) RDMA_MAX_RESP_RES then dev_limit x max_responder_resources
                      else mret (cp_responder_resources c)
          | None => dev_limit x max_responder_resources
          end;
    set_id p (with_depths depth res) ;;
    x ← get_id p;
    prm ← lift (ucma_copy_conn_param_to_kern x param (conn_qp x param).1 (conn_qp x param).2);
    fd ← router_channel (id_channel (p_id x));
    env (r_connect fd (handle x) prm) ;;
    set_id p (with_connect []) ;;
    ucma_complete af_ib_support fuel p.

Definition rdma_listen p (backlog : Z) : M K Z :=
  x ← get_id p;
  fd ← router_channel (id_channel (p_id x));
  env (r_listen fd (handle x) backlog) ;;
  if af_ib_support then ucma_query_addr p else ucma_query_route p.

(** The new identifier and zero, or an error. *)
Definition rdma_get_request p : M K (Z * option Z) :=
  x ← get_id p;
  if negb (sync x) then mret (-1, None)
  else
    ack_own p ;;
    set_id p (with_pub (with_event None)) ;;
    '(ret, o) ← rdma_get_cm_event af_ib_support fuel (id_channel (p_id x));
    match o with
    | None => mret (ret, None)
    | Some e =>
        v ← get_event e;
        ret ← (if negb (Z.eqb (ev_status v) 0) then mret (-1)
               else if negb (bool_decide (ev_event v = RDMA_CM_EVENT_CONNECT_REQUEST)) then mret (-1)
               else
                 x ← get_id p;
                 match p_qp_init_attr x with
                 | None => mret 0
                 | Some a =>
                     q ← lift (deref "event->id" (ev_id v));
                     '(ret, _) ← rdma_create_qp q (id_pd (p_id x)) a;
                     mret ret
                 end);
        if negb (Z.eqb ret 0) then set_id p (with_pub (with_event (Some e))) ;; mret (ret, None)
        else
          q ← lift (deref "event->id" (ev_id v));
          set_id q (with_pub (with_event (Some e))) ;;
          mret (0, Some q)
    end.

(** The end of [rdma_accept]: the request and the wait for its result. *)
Definition send_accept p (param : option rdma_conn_param) : M K Z :=
  x ← get_id p;
  (if bool_decide (id_qp (p_id x) = None ∧ param = None) then ub "conn_param->qp_num" else mret ()) ;;
  prm ← lift (ucma_copy_conn_param_to_kern x param (conn_qp x param).1 (conn_qp x param).2);
  fd ← router_channel (id_channel (p_id x));
  env (r_accept fd (handle x) p prm) ;;
  if ucma_is_ud_qp (id_qp_type (p_id x)) then mret 0 else ucma_complete af_ib_support fuel p.

Definition rdma_accept p (param : option rdma_conn_param) : M K Z :=
  x ← get_id p;
  ok ← ucma_valid_param x param;
  if negb ok then mret (-1)
  else
    depth ← match param with
            | Some c => if Z.eqb (cp_initiator_depth c) RDMA_MAX_INIT_DEPTH
                        then m ← dev_limit x max_initiator_depth; mret (Z.min (p_initiator_depth x) m)
                        else mret (cp_initiator_depth c)
            | None => m ← dev_limit x max_initiator_depth; mret (Z.min (p_initiator_depth x) m)
            end;
    res ← match param with
          | Some c => if Z.eqb (cp_responder_resources c) RDMA_MAX_RESP_RES
                      then m ← dev_limit x max_responder_resources; mret (Z.min (p_responder_resources x) m)
                      else mret (cp_responder_resources c)
          | None => m ← dev_limit x max_responder_resources; mret (Z.min (p_responder_resources x) m)
          end;
    set_id p (with_depths depth res) ;;
    ret ← (if ucma_is_ud_qp (id_qp_type (p_id x)) then mret 0
           else
             ret ← ucma_modify_qp_rtr p res;
             if negb (Z.eqb ret 0) then mret ret else ucma_modify_qp_rts p depth);
    if negb (Z.eqb ret 0) then mret ret else send_accept p param.

Definition ucma_shutdown p : M K Z :=
  ib ← has_transport p IBV_TRANSPORT_IB;
  if (ib : bool) then ucma_modify_qp_err p
  else
    iw ← has_transport p IBV_TRANSPORT_IWARP;
    if (iw : bool) then ucma_modify_qp_sqd p else mret (-1).

Definition rdma_disconnect p : M K Z :=
  ret ← ucma_shutdown p;
  if negb (Z.eqb ret 0) then mret ret
  else
    x ← get_id p;
    fd ← router_channel (id_channel (p_id x));
    env (r_disconnect fd (handle x)) ;;
    ucma_complete af_ib_support fuel p.

(** ** Endpoints *)
Definition ucma_passive_ep p (r : rdma_addrinfo) (pd : option Z) (a : option qp_attr) : M K Z :=
  src ← lift (deref "ai_src_addr" (ai_src_addr r));
  ret ← (if af_ib_support then rdma_bind_addr2 p src (ai_src_len r) else rdma_bind_addr p src);
  if negb (Z.eqb ret 0) then mret ret
  else
    (if bool_decide (is_Some pd) then set_id p (with_pub (λ i, with_verbs (id_verbs i) pd i)) else mret ()) ;;
    match a with
    | None => mret 0
    | Some a =>
        m ← malloc;
        match m with
        | None => mret (-1)
        | Some _ =>
            set_id p (with_init_attr (Some (mkQpAttr (at_pd a) (at_send_cq a) (at_recv_cq a) (at_srq a) (at_xrcd a)
                                              (at_max_send_wr a) (at_max_recv_wr a) (ai_qp_type r)))) ;;
            mret 0
        end
    end.

Definition rdma_destroy_srq p : M K () :=
  x ← get_id p;
  srq ← lift (deref "id->srq" (id_srq (p_id x)));
  env_ (v_destroy_srq srq) ;;
  set_id p (with_pub (λ i, mkCmId (id_verbs i) (id_channel i) (id_context i) (id_qp i) (id_route i) (id_ps i) (id_port_num i)
                             (id_event i) (id_pd i) (id_qp_type i) (id_send_cq_channel i) (id_send_cq i)
                             (id_recv_cq_channel i) (id_recv_cq i) None)) ;;
  ucma_destroy_cqs p.

Definition rdma_destroy_ep p : M K () :=
  x ← get_id p;
  (if bool_decide (is_Some (id_qp (p_id x))) then rdma_destroy_qp p else mret ()) ;;
  (if bool_decide (is_Some (id_srq (p_id x))) then rdma_destroy_srq p else mret ()) ;;
  rdma_destroy_id p ;;
  mret ().

(** Zero and the identifier, or an error. *)
Definition rdma_create_ep (r : rdma_addrinfo) (pd : option Z) (a : option qp_attr) : M K (Z * option Z) :=
  '(ret, o) ← rdma_create_id2 None 0 (ai_port_space r) (ai_qp_type r);
  match o with
  | None => mret (ret, None)
  | Some p =>
      ret ← (if ai_passive r then ucma_passive_ep p r pd a
             else
               ret ← (if af_ib_support
                      then rdma_resolve_addr2 p (ai_src_addr r) (ai_src_len r) (ai_dst_addr r) (ai_dst_len r) 2000
                      else rdma_resolve_addr p (ai_src_addr r) (ai_dst_addr r) 2000);
               if negb (Z.eqb ret 0) then mret ret
               else
                 ret ← (if Z.eqb (lenZ (ai_route r)) 0 then rdma_resolve_route p 2000
                        else
                          ret ← rdma_set_option p RDMA_OPTION_IB RDMA_OPTION_IB_PATH (ai_route r);
                          if Z.eqb ret 0 then ucma_complete af_ib_support fuel p else mret ret);
                 if negb (Z.eqb ret 0) then mret ret
                 else
                   ret ← match a with
                         | None => mret 0
                         | Some a =>
                             '(ret, _) ← rdma_create_qp p pd (mkQpAttr (at_pd a) (at_send_cq a) (at_recv_cq a) (at_srq a)
                                            (at_xrcd a) (at_max_send_wr a) (at_max_recv_wr a) (ai_qp_type r));
                             mret ret
                         end;
                   if negb (Z.eqb ret 0) then mret ret
                   else if Z.eqb (lenZ (ai_connect r)) 0 then mret 0
                   else
                     m ← malloc;
                     match m with
                     | None => mret (-1)
                     | Some _ => set_id p (with_connect (ai_connect r)) ;; mret 0
                     end);
      if Z.eqb ret 0 then mret (0, Some p) else rdma_destroy_ep p ;; mret (ret, None)
  end.

(** ** Other queries *)
Fixpoint init_devices (n i : nat) : M K Z :=
  match n with
  | O => mret 0
  | S n => ret ← ucma_init_device i; if negb (Z.eqb ret 0) then mret ret else init_devices n (S i)
  end.

(** Devices that are already open make the calls do nothing. *)
Definition ucma_init_all : M K Z := n ← gets (λ s, length (cma_dev_array s)); init_devices n 0.

Definition ucma_max_qpsize p : M K Z :=
  x ← get_id p;
  match p_dev x with
  | Some i => d ← get_dev i; mret (max_qpsize d)
  | None =>
      ucma_init_all ;;
      gets (λ s, foldl (λ m d, if Z.eqb m 0 || Z.ltb (max_qpsize d) m then max_qpsize d else m) 0 (cma_dev_array s))
  end.
End Calls.

(** The port number, in network byte order. *)
Definition ucma_get_port (addr : list Z) : Z :=
  if Z.eqb (sa_family addr) AF_INET || Z.eqb (sa_family addr) AF_INET6 then le_val (takeZ 2 (dropZ 2 addr))
  else if Z.eqb (sa_family addr) AF_IB then le_val (takeZ 2 (dropZ 30 addr))
  else 0.
