(* ===== verification/CmaEvents.v ===== *)
(** * The connection manager: every event is accounted for

    Threads of an application create and destroy identifiers, fetch events, process
    them and acknowledge them, in any interleaving.  The kernel counts the events it
    has reported for an identifier, the library those that were acknowledged;
    [rdma_destroy_id] waits until the two agree.  The theorems say that the wait ends
    exactly when no event of the identifier is in the hands of any thread, and that
    no call ever touches a freed block. *)

From S2P Require Import Prelude FfTypes Wire Indexer Attrs Marshall Cma CmaConn.

(** ** What the code relies on in the kernel

    The kernel's record of an identifier: the pointer it gives back with events, and
    how many it has reported. *)
Record kctx := mkCtx { kc_uid : Z; kc_reported : Z }.

Definition is_mcast (e : rdma_cm_event_type) : bool :=
  bool_decide (e = RDMA_CM_EVENT_MULTICAST_JOIN ∨ e = RDMA_CM_EVENT_MULTICAST_ERROR).

(** [k_ids]: the identifiers by handle.  A new identifier, unless refused, has a handle not in use;
    events come from identifiers that exist and carry their pointer, which is not zero;
    a connection request comes with a new identifier without one, which acceptance
    provides; no multicast group is joined.  Memory suffices. *)
Class CmLaws (K : Type) `{!CmEnv K} := {
  k_ids : K → gmap Z kctx;
  law_reported k h c : k_ids k !! h = Some c → 0 ≤ kc_reported c < 2 ^ 31 ∧ 0 ≤ h < 2 ^ 31;
  law_create_id fd uid ps t k ret h k' : r_create_id fd uid ps t k = (ret, h, k') →
    k_ids k' = k_ids k ∨ k_ids k !! h = None ∧ k_ids k' = <[h := mkCtx uid 0]> (k_ids k);
  law_destroy_id fd h k ret n k' c : r_destroy_id fd h k = (ret, n, k') → k_ids k !! h = Some c →
    n = kc_reported c ∧ k_ids k' = delete h (k_ids k);
  law_get_event fd k ret r k' : r_get_event fd k = Some (ret, r, k') →
    ∃ h c, k_ids k !! h = Some c ∧ er_uid r = kc_uid c ∧ er_uid r ≠ 0 ∧ is_mcast (er_event r) = false ∧
      let ids := <[h := mkCtx (kc_uid c) (kc_reported c + 1)]> (k_ids k) in
      if decide (er_event r = RDMA_CM_EVENT_CONNECT_REQUEST)
      then k_ids k !! er_id r = None ∧ k_ids k' = <[er_id r := mkCtx 0 0]> ids
      else k_ids k' = ids;
  law_accept fd h uid prm k ret k' : r_accept fd h uid prm k = (ret, k') →
    k_ids k' = k_ids k ∨ ∃ c, k_ids k !! h = Some c ∧ k_ids k' = <[h := mkCtx uid (kc_reported c)]> (k_ids k);
  law_malloc l k : ∃ p k', e_malloc l k = (Some p, k') ∧ (p ∉ l) ∧ p ≠ 0 ∧ k_ids k' = k_ids k;
  law_create_channel k : k_ids (r_create_channel k).2 = k_ids k;
  law_query_addr fd h k : k_ids (r_query_addr fd h k).2 = k_ids k;
  law_query_gid fd h k : k_ids (r_query_gid fd h k).2 = k_ids k;
  law_query_path fd h k : k_ids (r_query_path fd h k).2 = k_ids k;
  law_query_route fd h k : k_ids (r_query_route fd h k).2 = k_ids k;
  law_init_qp_attr fd h st k : k_ids (r_init_qp_attr fd h st k).2 = k_ids k;
  law_process_conn_resp fd h k : k_ids (r_process_conn_resp fd h k).2 = k_ids k;
  law_migrate_id fd h old k : k_ids (r_migrate_id fd h old k).2 = k_ids k;
  law_open_device g k : k_ids (v_open_device g k).2 = k_ids k;
  law_close_device v k : k_ids (v_close_device v k) = k_ids k;
  law_query_device v k : k_ids (v_query_device v k).2 = k_ids k;
  law_query_port v i k : k_ids (v_query_port v i k).2 = k_ids k;
  law_alloc_pd v k : k_ids (v_alloc_pd v k).2 = k_ids k;
  law_dealloc_pd v k : k_ids (v_dealloc_pd v k) = k_ids k;
  law_close_xrcd v k : k_ids (v_close_xrcd v k) = k_ids k;
  law_modify_qp q a mask k : k_ids (v_modify_qp q a mask k).2 = k_ids k;
  law_attach_mcast q g l k : k_ids (v_attach_mcast q g l k).2 = k_ids k;
  law_bind fd h a k : k_ids (r_bind fd h a k).2 = k_ids k;
  law_bind_ip fd h a k e k' : r_bind_ip fd h a k = Some (e, k') → k_ids k' = k_ids k;
  law_resolve_addr fd h a b t k : k_ids (r_resolve_addr fd h a b t k).2 = k_ids k;
  law_resolve_ip fd h a b t k : k_ids (r_resolve_ip fd h a b t k).2 = k_ids k;
  law_resolve_route fd h t k : k_ids (r_resolve_route fd h t k).2 = k_ids k;
  law_connect fd h c k : k_ids (r_connect fd h c k).2 = k_ids k;
  law_listen fd h n k : k_ids (r_listen fd h n k).2 = k_ids k;
  law_disconnect fd h k : k_ids (r_disconnect fd h k).2 = k_ids k;
  law_set_option fd h l n len v k : k_ids (r_set_option fd h l n len v k).2 = k_ids k;
  law_open_xrcd v k : k_ids (v_open_xrcd v k).2 = k_ids k;
  law_query_pkey v n i k : k_ids (v_query_pkey v n i k).2 = k_ids k;
  law_create_cchannel v k : k_ids (v_create_channel v k).2 = k_ids k;
  law_destroy_cchannel c k : k_ids (v_destroy_channel c k) = k_ids k;
  law_create_cq v n c k : k_ids (v_create_cq v n c k).2 = k_ids k;
  law_destroy_cq c k : k_ids (v_destroy_cq c k) = k_ids k;
  law_create_qp v a k : k_ids (v_create_qp v a k).2 = k_ids k;
  law_destroy_qp q k : k_ids (v_destroy_qp q k) = k_ids k;
  law_ib_route a b k : k_ids (v_ib_route a b k).2 = k_ids k
}.

Create HintDb cm_laws.
#[export] Hint Resolve law_create_channel law_query_addr law_query_gid law_query_path law_query_route
  law_init_qp_attr law_process_conn_resp law_migrate_id law_open_device law_close_device law_query_device
  law_query_port law_alloc_pd law_dealloc_pd law_close_xrcd law_modify_qp law_attach_mcast
  law_bind law_resolve_addr law_resolve_ip law_resolve_route law_connect law_listen law_disconnect law_set_option
  law_open_xrcd law_query_pkey law_create_cchannel law_destroy_cchannel law_create_cq law_destroy_cq law_create_qp
  law_destroy_qp law_ib_route : cm_laws.

(** ** Calls that leave the accounts alone *)
Record account := mkAcct { a_handle : Z; a_completed : Z; a_sync : bool; a_event : option Z }.
Definition acct (x : cma_id_private) : account :=
  mkAcct (handle x) (events_completed x) (sync x) (id_event (p_id x)).

(** The identifier and the group an event block refers to. *)
Definition tag (v : cma_event) : option Z * option Z := (ev_id_priv v, ev_mc v).

(** The books of the library and of the kernel. *)
Record book := mkBook {
  b_ids : gmap Z account; b_events : gmap Z (option Z * option Z); b_idm : index_map; b_k : gmap Z kctx
}.

Section Calm.
Context {K : Type} `{!CmEnv K, !CmLaws K}.
Implicit Types (s : cma K) (p e : Z) (ps es : gset Z).

Definition view s : book := mkBook (acct <$> c_ids s) (tag <$> c_events s) (ucma_idm s) (k_ids (c_env s)).

Definition quiet s s' : Prop := view s' = view s.

#[export] Instance quiet_preorder : PreOrder quiet.
Proof. split; [done|]. intros s s' s'' ??. unfold quiet in *. congruence. Qed.

(** The outcome is not a dangling pointer, and a result satisfies [Q]. *)
Definition fine {A} (Q : A → cma K → Prop) (r : res (A * cma K)) : Prop :=
  match r with Ok (a, s) => Q a s | UB why => why ≠ dangling | _ => True end.

(** Given the blocks [ps] and [es], the call touches no freed block and is quiet. *)
Definition calm {A} ps es (m : M K A) : Prop :=
  ∀ s, ps ⊆ dom (c_ids s) → es ⊆ dom (c_events s) → fine (λ _ s', quiet s s') (m s).

Lemma fine_bind {A B} (m : M K A) (f : A → M K B) (Q : A → cma K → Prop) (R : B → cma K → Prop) s :
  fine Q (m s) → (∀ a s', Q a s' → fine R (f a s')) → fine R ((m ≫= f) s).
Proof.
  unfold mbind, M_bind. destruct (m s) as [[a s']| | | |]; cbn; try done. intros HQ Hf. by apply Hf.
Qed.

Lemma fine_mono {A} (Q R : A → cma K → Prop) r : (∀ a s, Q a s → R a s) → fine Q r → fine R r.
Proof. destruct r as [[a s]| | | |]; cbn; auto. Qed.

Lemma quiet_ids s s' : quiet s s' → dom (c_ids s') = dom (c_ids s).
Proof. intros [= H _ _ _]. by rewrite <- !(dom_fmap_L acct), H. Qed.

Lemma quiet_events s s' : quiet s s' → dom (c_events s') = dom (c_events s).
Proof. intros [= _ H _ _]. by rewrite <- !(dom_fmap_L tag), H. Qed.

Lemma calm_bind {A B} ps es (m : M K A) (f : A → M K B) :
  calm ps es m → (∀ a, calm ps es (f a)) → calm ps es (m ≫= f).
Proof.
  intros Hm Hf s Hp He. eapply fine_bind; [by apply Hm|]. intros a s' Hq.
  eapply fine_mono; [|apply Hf].
  - cbn. intros _ s'' Hq'. by trans s'.
  - by rewrite (quiet_ids _ _ Hq).
  - by rewrite (quiet_events _ _ Hq).
Qed.

Lemma calm_ret {A} ps es (a : A) : calm ps es (mret a).
Proof. intros s _ _. by split. Qed.

Lemma calm_gets {A} ps es (f : cma K → A) : calm ps es (gets f).
Proof. intros s _ _. by split. Qed.

Lemma calm_junk ps es : calm ps es junk.
Proof. intros s _ _. by split. Qed.

Lemma calm_lift {A} ps es (r : res A) : r ≠ UB dangling → calm ps es (lift r).
Proof. intros Hr s _ _. unfold lift. destruct r; cbn; try done. congruence. Qed.

Lemma calm_ub {A} ps es w : w ≠ dangling → calm ps es (ub w : M K A).
Proof. by intros Hw s _ _. Qed.

Lemma calm_block {A} ps es : calm ps es (block : M K A).
Proof. by intros s _ _. Qed.

Lemma calm_env {A} ps es (f : K → A * K) : (∀ k, k_ids (f k).2 = k_ids k) → calm ps es (env f).
Proof.
  intros Hf s _ _. unfold env. specialize (Hf (c_env s)). destruct (f (c_env s)) as [a k].
  cbn. unfold quiet, view. cbn in *. by rewrite Hf.
Qed.

Lemma calm_env_ ps es (f : K → K) : (∀ k, k_ids (f k) = k_ids k) → calm ps es (env_ f).
Proof. intros Hf. by apply calm_env. Qed.

Lemma calm_env_wait {A} ps es (f : K → option (A * K)) :
  (∀ k a k', f k = Some (a, k') → k_ids k' = k_ids k) → calm ps es (env_wait f).
Proof.
  intros Hf s _ _. unfold env_wait, env. destruct (f (c_env s)) as [[a k]|] eqn:E; [|done].
  cbn. unfold quiet, view. cbn. by rewrite (Hf _ _ _ E).
Qed.

Lemma calm_malloc ps es : calm ps es malloc.
Proof.
  intros s _ _. unfold malloc, env. destruct (law_malloc (live s) (c_env s)) as (q & k & -> & _ & _ & Hk).
  cbn. unfold quiet, view. cbn. by rewrite Hk.
Qed.

Lemma calm_get_id ps es p : p ∈ ps → calm ps es (get_id p).
Proof.
  intros Hp s Hs _. unfold get_id, lift. assert (p ∈ dom (c_ids s)) as [x Hx]%elem_of_dom by (by apply Hs). rewrite Hx. by split.
Qed.

Lemma calm_get_event ps es e : e ∈ es → calm ps es (get_event e).
Proof.
  intros He s _ Hs. unfold get_event, lift. assert (e ∈ dom (c_events s)) as [x Hx]%elem_of_dom by (by apply Hs). rewrite Hx. by split.
Qed.

Lemma calm_set_id ps es p f : p ∈ ps → (∀ x, acct (f x) = acct x) → calm ps es (set_id p f).
Proof.
  intros Hp Hf s Hs _. assert (p ∈ dom (c_ids s)) as [x Hx]%elem_of_dom by (by apply Hs).
  unfold set_id, mbind, M_bind, get_id, lift. rewrite Hx. cbn. unfold quiet, view. cbn. f_equal.
  rewrite fmap_insert, Hf. apply insert_id. by rewrite lookup_fmap, Hx.
Qed.

Lemma calm_set_event ps es e f : e ∈ es → (∀ x, tag (f x) = tag x) → calm ps es (set_event e f).
Proof.
  intros He Hf s _ Hs. assert (e ∈ dom (c_events s)) as [x Hx]%elem_of_dom by (by apply Hs).
  unfold set_event, mbind, M_bind, get_event, lift. rewrite Hx. cbn. unfold quiet, view. cbn. f_equal.
  rewrite fmap_insert, Hf. apply insert_id. by rewrite lookup_fmap, Hx.
Qed.

Lemma calm_get_dev ps es i : calm ps es (get_dev i).
Proof. intros s _ _. unfold get_dev, lift. by destruct (_ !! i). Qed.

Lemma calm_set_dev ps es i f : calm ps es (set_dev i f).
Proof. apply calm_bind; [apply calm_get_dev|]. intros x s _ _. by split. Qed.

Lemma calm_upd_chans ps es f : calm ps es (upd_chans f).
Proof. intros s _ _. by split. Qed.
End Calm.

#[global] Arguments view {K CmEnv0 CmLaws0} s : simpl never.

Create HintDb calm.
#[export] Hint Resolve calm_ret calm_gets calm_junk calm_block calm_malloc calm_get_dev calm_set_dev
  calm_upd_chans : calm.

(** Splits a call into its steps. *)
Ltac calm_step :=
  match goal with
  | |- calm _ _ (mbind _ _) => apply calm_bind; [|intros ?]
  | |- calm _ _ (match ?x with _ => _ end) => destruct x
  | |- calm _ _ (get_id _) => apply calm_get_id; set_solver
  | |- calm _ _ (get_event _) => apply calm_get_event; set_solver
  | |- calm _ _ (set_id _ _) => apply calm_set_id; [set_solver|done]
  | |- calm _ _ (set_event _ _) => apply calm_set_event; [set_solver|done]
  | |- calm _ _ (env_ _) => apply calm_env_; intros; auto with cm_laws
  | |- calm _ _ (env _) => apply calm_env; intros; auto with cm_laws
  | |- calm _ _ (env_wait _) => apply calm_env_wait; intros *; apply law_bind_ip
  | |- calm _ _ (ub _) => by apply calm_ub
  | |- calm _ _ _ => solve [eauto with calm]
  end.
Ltac calm_tac := repeat calm_step.

Section CalmCalls.
Context {K : Type} `{!CmEnv K, !CmLaws K} (af_ib_support : bool).
Implicit Types (s : cma K) (p e : Z) (ps es : gset Z).

Lemma in_bounds_clean w i n : w ≠ dangling → in_bounds w i n ≠ UB dangling.
Proof. unfold in_bounds. by destruct (_ && _); [|congruence]. Qed.

Lemma deref_clean {A} w (o : option A) : w ≠ dangling → deref w o ≠ UB dangling.
Proof. destruct o; cbn; congruence. Qed.

Lemma memcpy_clean d l n : memcpy d l n ≠ UB dangling.
Proof. unfold memcpy. by destruct (_ && _). Qed.

Lemma rsp_fits_clean req n : rsp_fits req n ≠ UB dangling.
Proof. unfold rsp_fits. destruct (cm_shape req); [|done]. by destruct (Z.leb _ _). Qed.

Lemma convert_paths_clean conv l n : convert_paths conv l n ≠ UB dangling.
Proof.
  revert l. induction n as [|n IH]; intros l; cbn; [done|]. destruct l as [|d l]; [done|].
  specialize (IH l). destruct (convert_paths conv l n); cbn; congruence.
Qed.

Hint Resolve in_bounds_clean deref_clean memcpy_clean rsp_fits_clean convert_paths_clean : calm.
Hint Extern 2 (calm _ _ (lift _)) => apply calm_lift; solve [auto with calm] : calm.
Hint Extern 1 (_ ≠ dangling) => discriminate : calm.

Lemma calm_router_channel ps es c : calm ps es (router_channel c).
Proof. unfold router_channel. calm_tac. Qed.
Hint Resolve calm_router_channel : calm.

Lemma calm_create_event_channel ps es : calm ps es rdma_create_event_channel.
Proof. unfold rdma_create_event_channel. calm_tac. Qed.

Lemma calm_destroy_event_channel ps es c : calm ps es (rdma_destroy_event_channel c).
Proof. unfold rdma_destroy_event_channel. calm_tac. Qed.

Lemma calm_query_ports ps es v l : calm ps es (query_ports v l).
Proof. induction l; cbn [query_ports]; calm_tac. Qed.
Hint Resolve calm_create_event_channel calm_destroy_event_channel calm_query_ports : calm.

Lemma calm_init_device ps es i : calm ps es (ucma_init_device i).
Proof. unfold ucma_init_device. calm_tac. Qed.
Hint Resolve calm_init_device : calm.

Lemma calm_get_device ps es p g : p ∈ ps → calm ps es (ucma_get_device p g).
Proof. intros Hp. unfold ucma_get_device. calm_tac. Qed.

Lemma calm_put_device ps es i : calm ps es (ucma_put_device i).
Proof. unfold ucma_put_device. calm_tac. Qed.

Lemma calm_set_route ps es p f : p ∈ ps → calm ps es (set_route p f).
Proof. intros Hp. unfold set_route. calm_tac. Qed.
Hint Resolve calm_get_device calm_put_device calm_set_route : calm.

Lemma calm_bind_device ps es p g m : p ∈ ps → calm ps es m → calm ps es (bind_device p g m).
Proof. intros Hp Hm. unfold bind_device. calm_tac. Qed.

Lemma calm_query_addr ps es p : p ∈ ps → calm ps es (ucma_query_addr p).
Proof. intros Hp. unfold ucma_query_addr. calm_tac. apply calm_bind_device; [done|]. calm_tac. Qed.

Lemma calm_query_gid ps es p : p ∈ ps → calm ps es (ucma_query_gid p).
Proof. intros Hp. unfold ucma_query_gid. calm_tac. Qed.

Lemma calm_store_paths ps es p n conv l : p ∈ ps → calm ps es (store_paths p n conv l).
Proof. intros Hp. unfold store_paths. calm_tac. Qed.
Hint Resolve calm_query_addr calm_query_gid calm_store_paths : calm.

Lemma calm_query_path ps es p : p ∈ ps → calm ps es (ucma_query_path p).
Proof. intros Hp. unfold ucma_query_path. calm_tac. Qed.

Lemma calm_query_route ps es p : p ∈ ps → calm ps es (ucma_query_route p).
Proof. intros Hp. unfold ucma_query_route. calm_tac. apply calm_bind_device; [done|]. calm_tac. Qed.
Hint Resolve calm_query_path calm_query_route : calm.

Lemma calm_query_req_info ps es p : p ∈ ps → calm ps es (ucma_query_req_info af_ib_support p).
Proof. intros Hp. unfold ucma_query_req_info. calm_tac. Qed.

Lemma calm_init_qp_attr ps es p a : p ∈ ps → calm ps es (rdma_init_qp_attr p a).
Proof. intros Hp. unfold rdma_init_qp_attr. calm_tac. Qed.
Hint Resolve calm_init_qp_attr : calm.

Lemma calm_modify_qp_rtr ps es p n : p ∈ ps → calm ps es (ucma_modify_qp_rtr p n).
Proof. intros Hp. unfold ucma_modify_qp_rtr. calm_tac. Qed.

Lemma calm_modify_qp_rts ps es p n : p ∈ ps → calm ps es (ucma_modify_qp_rts p n).
Proof. intros Hp. unfold ucma_modify_qp_rts. calm_tac. Qed.

Lemma calm_modify_qp_state ps es st p : p ∈ ps → calm ps es (modify_qp_state st p).
Proof. intros Hp. unfold modify_qp_state. calm_tac. Qed.

Lemma calm_has_transport ps es p t : p ∈ ps → calm ps es (has_transport p t).
Proof. intros Hp. unfold has_transport. calm_tac. Qed.

Lemma calm_set_status ps es e st f : e ∈ es → calm ps es (set_status e st f).
Proof. intros He. unfold set_status. calm_tac. Qed.

Lemma calm_set_param ps es e q : e ∈ es → calm ps es (set_param e q).
Proof. intros He. unfold set_param. calm_tac. Qed.
Hint Resolve calm_modify_qp_rtr calm_modify_qp_rts calm_modify_qp_state calm_has_transport calm_set_status
  calm_set_param : calm.

Lemma calm_set_conn_or_ud ps es e p r : p ∈ ps → e ∈ es → calm ps es (set_conn_or_ud e p r).
Proof. intros Hp He. unfold set_conn_or_ud. calm_tac. Qed.

Lemma calm_addr_resolved ps es e p : p ∈ ps → e ∈ es → calm ps es (ucma_process_addr_resolved af_ib_support e p).
Proof. intros Hp He. unfold ucma_process_addr_resolved. calm_tac. Qed.

Lemma calm_route_resolved ps es e p : p ∈ ps → e ∈ es → calm ps es (ucma_process_route_resolved af_ib_support e p).
Proof. intros Hp He. unfold ucma_process_route_resolved. calm_tac. Qed.

Lemma calm_process_conn_resp ps es p : p ∈ ps → calm ps es (ucma_process_conn_resp p).
Proof.
  intros Hp. unfold ucma_process_conn_resp, ucma_modify_qp_err. calm_tac.
Qed.
End CalmCalls.

#[export] Hint Resolve in_bounds_clean deref_clean memcpy_clean : calm.
#[export] Hint Extern 2 (calm _ _ (lift _)) => apply calm_lift; solve [auto with calm] : calm.
#[export] Hint Extern 1 (_ ≠ dangling) => discriminate : calm.
#[export] Hint Resolve calm_router_channel calm_create_event_channel calm_get_device calm_put_device calm_set_route
  calm_query_addr calm_query_gid calm_query_route calm_init_qp_attr calm_modify_qp_rtr calm_modify_qp_rts
  calm_query_req_info calm_modify_qp_state calm_has_transport calm_set_status calm_set_param calm_set_conn_or_ud
  calm_addr_resolved calm_route_resolved calm_process_conn_resp calm_destroy_event_channel : calm.

(** ** The accounts

    [F]: the responses threads have received and not processed yet, by event block.
    [D]: the identifiers in [rdma_destroy_id], with the count they wait for. *)
Abbreviation fetched := (gmap Z ucma_abi_event_resp).

Definition owner (F : fetched) (e : Z) (t : option Z * option Z) : option Z :=
  match F !! e with Some r => Some (er_uid r) | None => t.1 end.

(** Events of [p] in the hands of the application. *)
Definition outstanding (F : fetched) (evs : gmap Z (option Z * option Z)) (p : Z) : Z :=
  count (λ e t, bool_decide (owner F e t = Some p)) evs.

Definition conn_req (r : ucma_abi_event_resp) : Prop := er_event r = RDMA_CM_EVENT_CONNECT_REQUEST.

Record acc_ok (b : book) (F : fetched) (D : gmap Z Z) : Prop := {
  (** the kernel has reported what was acknowledged and what is outstanding *)
  ok_live p x : b_ids b !! p = Some x → D !! p = None →
    ∃ c, b_k b !! a_handle x = Some c ∧ (kc_uid c = p ∨ kc_uid c = 0) ∧
         kc_reported c = a_completed x + outstanding F (b_events b) p;
  ok_dying p n : D !! p = Some n →
    ∃ x, b_ids b !! p = Some x ∧ n = a_completed x + outstanding F (b_events b) p ∧ n < 2 ^ 31;
  ok_inj p q x y : b_ids b !! p = Some x → b_ids b !! q = Some y → D !! p = None → D !! q = None →
    a_handle x = a_handle y → p = q;
  (** the kernel's pointers are good *)
  ok_uid h c : b_k b !! h = Some c → kc_uid c ≠ 0 →
    ∃ x, b_ids b !! kc_uid c = Some x ∧ D !! kc_uid c = None ∧ a_handle x = h;
  ok_fetched e r : F !! e = Some r →
    is_Some (b_events b !! e) ∧ is_Some (b_ids b !! er_uid r) ∧ er_uid r ≠ 0 ∧ is_mcast (er_event r) = false;
  (** the identifier of a connection request is nobody's yet *)
  ok_req e r : F !! e = Some r → conn_req r →
    b_k b !! er_id r = Some (mkCtx 0 0) ∧
    (∀ p x, b_ids b !! p = Some x → D !! p = None → a_handle x ≠ er_id r) ∧
    (∀ e' r', F !! e' = Some r' → conn_req r' → er_id r' = er_id r → e' = e);
  ok_event e t p : b_events b !! e = Some t → F !! e = None → t.1 = Some p → is_Some (b_ids b !! p);
  ok_mc e t : b_events b !! e = Some t → t.2 = None;
  ok_plain p x : b_ids b !! p = Some x →
    a_sync x = false ∧ a_event x = None ∧ 0 ≤ a_completed x ∧ 0 ≤ a_handle x < 2 ^ 31 ∧ p ≠ 0;
  ok_range h c : b_k b !! h = Some c → 0 ≤ kc_reported c < 2 ^ 31 ∧ 0 ≤ h < 2 ^ 31;
  (** every handle has its place in the table *)
  ok_table : ∃ m, idm_ok m (b_idm b) ∧
    ∀ p x, b_ids b !! p = Some x → a_handle x ≤ 65535 → is_Some (m !! a_handle x)
}.

Section Outstanding.
Implicit Types (F : fetched) (evs : gmap Z (option Z * option Z)) (p e : Z).

Lemma outstanding_nonneg F evs p : 0 ≤ outstanding F evs p.
Proof. apply count_nonneg. Qed.

(** Two states of affairs that differ in the block [e] only. *)
Lemma outstanding_off F F' evs evs' e p :
  (∀ j, j ≠ e → F' !! j = F !! j) → (∀ j, j ≠ e → evs' !! j = evs !! j) →
  outstanding F' evs' p =
  outstanding F evs p - contrib (λ e t, bool_decide (owner F e t = Some p)) evs e
                      + contrib (λ e t, bool_decide (owner F' e t = Some p)) evs' e.
Proof. intros HF Hev. apply count_off; [done|]. intros j t Hj _. unfold owner. by rewrite HF. Qed.

Ltac off F evs e :=
  lazymatch goal with |- outstanding ?F' ?evs' ?p = _ =>
    rewrite (outstanding_off F F' evs evs' e p)
      by (intros ??; first [reflexivity|rewrite lookup_insert_ne by congruence; reflexivity
                           |rewrite lookup_delete_ne by congruence; reflexivity])
  end;
  unfold contrib, owner; rewrite ?lookup_insert_eq, ?lookup_delete_eq.

Lemma outstanding_own F evs e r t mc p : F !! e = Some r → evs !! e = Some t →
  outstanding (delete e F) (<[e := (Some (er_uid r), mc)]> evs) p = outstanding F evs p.
Proof. intros HF Ht. off F evs e. rewrite HF, Ht. cbn. lia. Qed.

Lemma outstanding_fetch F evs e r t mc p : F !! e = None → evs !! e = Some t → t.1 = None →
  outstanding (<[e := r]> F) (<[e := (None, mc)]> evs) p = outstanding F evs p + Z.b2z (bool_decide (er_uid r = p)).
Proof.
  intros HF Ht Hn. off F evs e. rewrite HF, Ht, Hn. cbn. repeat case_bool_decide; simplify_eq; cbn; lia.
Qed.

Lemma outstanding_ack F evs e q mc p : F !! e = None → evs !! e = Some (Some q, mc) →
  outstanding F (delete e evs) p = outstanding F evs p - Z.b2z (bool_decide (q = p)).
Proof. intros HF Ht. off F evs e. rewrite HF, Ht. cbn. repeat case_bool_decide; simplify_eq; cbn; lia. Qed.

Lemma outstanding_blank F evs e q mc p : F !! e = None → evs !! e = Some (Some q, mc) →
  outstanding F (<[e := (None, None)]> evs) p = outstanding F evs p - Z.b2z (bool_decide (q = p)).
Proof. intros HF Ht. off F evs e. rewrite HF, Ht. cbn. repeat case_bool_decide; simplify_eq; cbn; lia. Qed.

Lemma outstanding_new F evs e p : F !! e = None → evs !! e = None →
  outstanding F (<[e := (None, None)]> evs) p = outstanding F evs p.
Proof. intros HF Ht. off F evs e. rewrite HF, Ht. cbn. case_bool_decide; simplify_eq; cbn; lia. Qed.

(** Nothing refers to a block that does not exist. *)
Lemma outstanding_fresh b F D p : acc_ok b F D → b_ids b !! p = None → outstanding F (b_events b) p = 0.
Proof.
  intros Hok Hp. apply count_zero. intros e t Ht. apply bool_decide_eq_false. unfold owner.
  destruct (F !! e) as [r|] eqn:HF.
  - intros [= <-]. destruct (ok_fetched _ _ _ Hok e r HF) as (_ & [x Hx] & _). congruence.
  - intros Hq. destruct (ok_event _ _ _ Hok e t p Ht HF Hq). congruence.
Qed.

Lemma outstanding_pos F evs e t p : evs !! e = Some t → owner F e t = Some p → 0 < outstanding F evs p.
Proof. intros He Ho. eapply count_pos; [done|]. by apply bool_decide_eq_true. Qed.
End Outstanding.

(** ** Movements in the books *)
Definition set_ids (f : gmap Z account → gmap Z account) (b : book) : book :=
  mkBook (f (b_ids b)) (b_events b) (b_idm b) (b_k b).
Definition set_events (f : gmap Z (option Z * option Z) → gmap Z (option Z * option Z)) (b : book) : book :=
  mkBook (b_ids b) (f (b_events b)) (b_idm b) (b_k b).
Definition set_idm (m : index_map) (b : book) : book := mkBook (b_ids b) (b_events b) m (b_k b).
Definition set_k (f : gmap Z kctx → gmap Z kctx) (b : book) : book :=
  mkBook (b_ids b) (b_events b) (b_idm b) (f (b_k b)).

Definition completed_one (x : account) : account :=
  mkAcct (a_handle x) (s32 (a_completed x + 1)) (a_sync x) (a_event x).

Section Movements.
Implicit Types (b : book) (F : fetched) (D : gmap Z Z) (p e h : Z).

Lemma s32_small z : 0 ≤ z < 2 ^ 31 → s32 z = z.
Proof.
  intros Hz. unfold s32, sint. rewrite Z.mod_small by lia. destruct (Z.ltb_spec z (2 ^ (32 - 1))); lia.
Qed.

(** The thread takes over the event it fetched. *)
Lemma move_own b F D e r :
  acc_ok b F D → F !! e = Some r →
  acc_ok (set_events <[e := (Some (er_uid r), None)]> b) (delete e F) D.
Proof.
  intros Hok HF. destruct (ok_fetched _ _ _ Hok e r HF) as ([t Ht] & Hu & _).
  assert (∀ p, outstanding (delete e F) (<[e := (Some (er_uid r), None)]> (b_events b)) p = outstanding F (b_events b) p)
    as Ho by (intros p; by eapply outstanding_own).
  split; cbn; intros *; rewrite ?Ho.
  - apply (ok_live _ _ _ Hok).
  - apply (ok_dying _ _ _ Hok).
  - apply (ok_inj _ _ _ Hok).
  - apply (ok_uid _ _ _ Hok).
  - intros [Hne HF']%lookup_delete_Some. rewrite lookup_insert_ne by done. by apply (ok_fetched _ _ _ Hok).
  - intros [Hne HF']%lookup_delete_Some Hc. destruct (ok_req _ _ _ Hok _ _ HF' Hc) as (Hk & Hn & Hi).
    do 2 (split; [done|]). intros e' r' [_ HF'']%lookup_delete_Some. by apply Hi.
  - destruct (decide (e0 = e)) as [->|Hne].
    + rewrite lookup_insert_eq. intros [= <-] _ [= <-]. done.
    + rewrite lookup_insert_ne, lookup_delete_ne by done. apply (ok_event _ _ _ Hok).
  - destruct (decide (e0 = e)) as [->|Hne]; [rewrite lookup_insert_eq; by intros [= <-]|].
    rewrite lookup_insert_ne by done. apply (ok_mc _ _ _ Hok).
  - apply (ok_plain _ _ _ Hok).
  - apply (ok_range _ _ _ Hok).
  - apply (ok_table _ _ _ Hok).
Qed.

(** A kernel identifier that belongs to no block. *)
Definition free_handle b F D h : Prop :=
  (b_k b !! h = None ∨ b_k b !! h = Some (mkCtx 0 0)) ∧ 0 ≤ h < 2 ^ 31 ∧
  (∀ p x, b_ids b !! p = Some x → D !! p = None → a_handle x ≠ h) ∧
  (∀ e r, F !! e = Some r → conn_req r → er_id r ≠ h).

Lemma move_add b F D p h u idm :
  acc_ok b F D → free_handle b F D h → b_ids b !! p = None → p ≠ 0 → u = p ∨ u = 0 →
  (∃ m, idm_ok m idm ∧ ∀ q x, <[p := mkAcct h 0 false None]> (b_ids b) !! q = Some x → a_handle x ≤ 65535 → is_Some (m !! a_handle x)) →
  acc_ok (mkBook (<[p := mkAcct h 0 false None]> (b_ids b)) (b_events b) idm (<[h := mkCtx u 0]> (b_k b))) F D.
Proof.
  intros Hok (Hk & Hh & Hlive & Hreq) Hp Hp0 Hu Htab.
  assert (D !! p = None) as HDp.
  { destruct (D !! p) as [n|] eqn:E; [|done]. destruct (ok_dying _ _ _ Hok p n E) as (x & Hx & _). congruence. }
  split; cbn.
  - intros q x. destruct (decide (q = p)) as [->|Hne].
    + rewrite lookup_insert_eq. intros [= <-] _. exists (mkCtx u 0). cbn. rewrite lookup_insert_eq.
      split; [done|]. split; [naive_solver|]. by rewrite (outstanding_fresh b F D).
    + rewrite lookup_insert_ne by done. intros Hx HD. rewrite lookup_insert_ne by (intros Heq; by apply (Hlive q x Hx HD)).
      by apply (ok_live _ _ _ Hok).
  - intros q n HD. destruct (ok_dying _ _ _ Hok q n HD) as (x & Hx & ?). exists x.
    rewrite lookup_insert_ne by congruence. done.
  - intros q1 q2 x y. rewrite !lookup_insert_Some.
    intros [[<- <-]|[? Hx]] [[<- <-]|[? Hy]] HD1 HD2; cbn; intros Heq; [done| | |].
    + exfalso. by apply (Hlive q2 y Hy HD2).
    + exfalso. by apply (Hlive q1 x Hx HD1).
    + by eapply (ok_inj _ _ _ Hok).
  - intros h' c. rewrite lookup_insert_Some. intros [[<- <-]|[Hne Hc]] Hc0; cbn in *.
    + exists (mkAcct h 0 false None). assert (u = p) as -> by (destruct Hu; congruence). by rewrite lookup_insert_eq.
    + destruct (ok_uid _ _ _ Hok h' c Hc Hc0) as (x & Hx & ?). exists x. rewrite lookup_insert_ne by congruence. done.
  - intros e r HF. destruct (ok_fetched _ _ _ Hok e r HF) as (? & [x Hx] & ?). split; [done|].
    split; [|done]. rewrite lookup_insert_ne by congruence. by exists x.
  - intros e r HF Hc. destruct (ok_req _ _ _ Hok e r HF Hc) as (Hkr & Hl & Hi).
    split; [|split; [|done]].
    + rewrite lookup_insert_ne; [done|]. intros Heq. by apply (Hreq e r HF Hc).
    + intros q x. rewrite lookup_insert_Some. intros [[<- <-]|[_ Hx]] HD; [cbn; intros Heq; by apply (Hreq e r HF Hc)|by eapply Hl].
  - intros e t q Ht HF Hq. destruct (ok_event _ _ _ Hok e t q Ht HF Hq) as [x Hx].
    rewrite lookup_insert_ne by congruence. by exists x.
  - apply (ok_mc _ _ _ Hok).
  - intros q x. rewrite lookup_insert_Some. intros [[<- <-]|[_ Hx]]; [cbn; repeat split; lia |].
    by apply (ok_plain _ _ _ Hok).
  - intros h' c. rewrite lookup_insert_Some. intros [[<- <-]|[_ Hc]]; [cbn; lia|]. by apply (ok_range _ _ _ Hok).
  - exact Htab.
Qed.

(** An event leaves the hands of the application: its block is freed or reused. *)
Lemma move_complete b F D e p x evs :
  acc_ok b F D → F !! e = None → b_events b !! e = Some (Some p, None) → b_ids b !! p = Some x →
  evs = delete e (b_events b) ∨ evs = <[e := (None, None)]> (b_events b) →
  acc_ok (mkBook (<[p := completed_one x]> (b_ids b)) evs (b_idm b) (b_k b)) F D.
Proof.
  intros Hok HF He Hx Hevs.
  assert (∀ q, outstanding F evs q = outstanding F (b_events b) q - Z.b2z (bool_decide (p = q))) as Ho.
  { intros q. destruct Hevs as [-> | ->]; [by eapply outstanding_ack|by eapply outstanding_blank]. }
  assert (∀ j t, evs !! j = Some t → b_events b !! j = Some t ∨ t = (None, None)) as Hsub.
  { intros j t. destruct Hevs as [-> | ->]; [intros [_ ?]%lookup_delete_Some; by left|].
    rewrite lookup_insert_Some. naive_solver. }
  assert (∀ j, j ≠ e → evs !! j = b_events b !! j) as Hoff.
  { intros j Hj. destruct Hevs as [-> | ->]; [by rewrite lookup_delete_ne|by rewrite lookup_insert_ne]. }
  assert (0 < outstanding F (b_events b) p) as Hpos.
  { apply (outstanding_pos _ _ e (Some p, None)); [done|]. unfold owner. by rewrite HF. }
  assert (s32 (a_completed x + 1) = a_completed x + 1) as Hs.
  { destruct (ok_plain _ _ _ Hok p x Hx) as (_ & _ & Hc & _). apply s32_small. split; [lia|].
    destruct (D !! p) as [n|] eqn:HD.
    - destruct (ok_dying _ _ _ Hok p n HD) as (x' & Hx' & -> & ?). simplify_eq. lia.
    - destruct (ok_live _ _ _ Hok p x Hx HD) as (c & Hc' & _ & Hr). destruct (ok_range _ _ _ Hok _ _ Hc'). lia. }
  split; cbn.
  - intros q y. rewrite lookup_insert_Some. intros [[<- <-]|[Hne Hy]] HD; rewrite Ho.
    + destruct (ok_live _ _ _ Hok p x Hx HD) as (c & ? & ? & ?). exists c. cbn. rewrite bool_decide_true by done.
      rewrite Hs. cbn. split; [done|]. split; [done|]. lia.
    + destruct (ok_live _ _ _ Hok q y Hy HD) as (c & ? & ? & ?). exists c. rewrite bool_decide_false by done.
      cbn. split; [done|]. split; [done|]. lia.
  - intros q n HD. destruct (ok_dying _ _ _ Hok q n HD) as (y & Hy & ? & ?). rewrite Ho.
    destruct (decide (q = p)) as [->|Hne].
    + assert (y = x) as -> by congruence. exists (completed_one x). rewrite lookup_insert_eq. cbn.
      rewrite bool_decide_true, Hs by done. cbn. split; [done|]. lia.
    + exists y. rewrite lookup_insert_ne by done. rewrite bool_decide_false by done. cbn. split; [done|]. lia.
  - intros q1 q2 y1 y2. rewrite !lookup_insert_Some.
    intros [[<- <-]|[? H1]] [[<- <-]|[? H2]] HD1 HD2; cbn; intros Heq; [done|..]; by eapply (ok_inj _ _ _ Hok).
  - intros h c Hc Hc0. destruct (ok_uid _ _ _ Hok h c Hc Hc0) as (y & Hy & ? & ?).
    destruct (decide (kc_uid c = p)) as [Heq|Hne].
    + exists (completed_one x). rewrite Heq, lookup_insert_eq in *. assert (y = x) as -> by congruence. done.
    + exists y. by rewrite lookup_insert_ne.
  - intros j r HF'. assert (j ≠ e) by congruence. destruct (ok_fetched _ _ _ Hok j r HF') as (? & ? & ?).
    rewrite Hoff by done. split; [done|]. split; [|done]. by apply lookup_insert_is_Some'; right.
  - intros j r HF' Hc. destruct (ok_req _ _ _ Hok j r HF' Hc) as (? & Hl & ?). split; [done|]. split; [|done].
    intros q y. rewrite lookup_insert_Some. intros [[<- <-]|[_ Hy]] HD; [cbn; by eapply Hl|by eapply Hl].
  - intros j t q Ht HF' Hq. destruct (Hsub j t Ht) as [Ht'| ->]; [|done].
    apply lookup_insert_is_Some'. right. by eapply (ok_event _ _ _ Hok).
  - intros j t Ht. destruct (Hsub j t Ht) as [Ht'| ->]; [|done]. by eapply (ok_mc _ _ _ Hok).
  - intros q y. rewrite lookup_insert_Some. intros [[<- <-]|[_ Hy]]; [|by apply (ok_plain _ _ _ Hok)].
    destruct (ok_plain _ _ _ Hok p x Hx) as (H1 & H2 & H3 & H4 & H5). cbn. rewrite Hs. repeat split; try done; lia.
  - apply (ok_range _ _ _ Hok).
  - destruct (ok_table _ _ _ Hok) as (m & Hm & Ht). exists m. split; [done|].
    intros q y. rewrite lookup_insert_Some. intros [[<- <-]|[_ Hy]]; [cbn; by apply (Ht p)|by apply (Ht q)].
Qed.

(** The kernel forgets the identifier and says how many events it has reported. *)
Lemma move_destroy b F D p x c :
  acc_ok b F D → b_ids b !! p = Some x → D !! p = None → b_k b !! a_handle x = Some c →
  acc_ok (set_k (delete (a_handle x)) b) F (<[p := kc_reported c]> D).
Proof.
  intros Hok Hx HD Hc.
  assert (∀ q, <[p := kc_reported c]> D !! q = None → q ≠ p ∧ D !! q = None) as HD'.
  { intros q [? Hpq]%lookup_insert_None. done. }
  assert (∀ q y, b_ids b !! q = Some y → q ≠ p → D !! q = None → a_handle y ≠ a_handle x) as Hne.
  { intros q y Hy Hqp Hq Heq. by apply Hqp, (ok_inj _ _ _ Hok q p y x). }
  split; cbn.
  - intros q y Hy Hq. destruct (HD' q Hq) as [Hqp HDq].
    rewrite lookup_delete_ne by (intros Heq; by apply (Hne q y)). by apply (ok_live _ _ _ Hok).
  - intros q n. rewrite lookup_insert_Some. intros [[<- <-]|[_ Hq]]; [|by apply (ok_dying _ _ _ Hok)].
    destruct (ok_live _ _ _ Hok p x Hx HD) as (c' & Hc' & _ & ?). exists x. simplify_eq.
    split; [done|]. split; [done|]. by apply (ok_range _ _ _ Hok (a_handle x)).
  - intros q1 q2 y1 y2 H1 H2 Hq1 Hq2. destruct (HD' q1 Hq1), (HD' q2 Hq2). by apply (ok_inj _ _ _ Hok).
  - intros h c' [Hh Hc']%lookup_delete_Some Hu. destruct (ok_uid _ _ _ Hok h c' Hc' Hu) as (y & Hy & Hq & Hhy).
    exists y. split; [done|]. split; [|done]. apply lookup_insert_None. split; [done|]. intros ->. congruence.
  - apply (ok_fetched _ _ _ Hok).
  - intros e r HF Hr. destruct (ok_req _ _ _ Hok e r HF Hr) as (Hk & Hl & Hi). split; [|split; [|done]].
    + rewrite lookup_delete_ne; [done|]. by eapply Hl.
    + intros q y Hy Hq. destruct (HD' q Hq). by eapply Hl.
  - apply (ok_event _ _ _ Hok).
  - apply (ok_mc _ _ _ Hok).
  - apply (ok_plain _ _ _ Hok).
  - intros h c' [_ Hc']%lookup_delete_Some. by apply (ok_range _ _ _ Hok).
  - apply (ok_table _ _ _ Hok).
Qed.

(** Once its events are acknowledged, the block is freed. *)
Lemma move_free b F D p n x idm :
  acc_ok b F D → D !! p = Some n → b_ids b !! p = Some x → n ≤ a_completed x →
  (∃ m, idm_ok m idm ∧ ∀ q y, delete p (b_ids b) !! q = Some y → a_handle y ≤ 65535 → is_Some (m !! a_handle y)) →
  acc_ok (mkBook (delete p (b_ids b)) (b_events b) idm (b_k b)) F (delete p D).
Proof.
  intros Hok HD Hx Hn Htab.
  assert (outstanding F (b_events b) p = 0) as H0.
  { destruct (ok_dying _ _ _ Hok p n HD) as (x' & Hx' & ? & _). simplify_eq.
    pose proof (outstanding_nonneg F (b_events b) p). lia. }
  assert (∀ e t, b_events b !! e = Some t → owner F e t ≠ Some p) as Hno.
  { intros e t Ht Ho. apply (outstanding_pos F (b_events b) e t p) in Ho; [lia|done]. }
  assert (∀ q, delete p D !! q = None → q = p ∨ D !! q = None) as HD'.
  { intros q. rewrite lookup_delete_None. naive_solver. }
  split; cbn.
  - intros q y [Hqp Hy]%lookup_delete_Some Hq. destruct (HD' q Hq); [done|]. by apply (ok_live _ _ _ Hok).
  - intros q m [Hqp Hq]%lookup_delete_Some. destruct (ok_dying _ _ _ Hok q m Hq) as (y & ? & ?).
    exists y. by rewrite lookup_delete_ne.
  - intros q1 q2 y1 y2 [? H1]%lookup_delete_Some [? H2]%lookup_delete_Some Hq1 Hq2.
    destruct (HD' q1 Hq1), (HD' q2 Hq2); try done. by apply (ok_inj _ _ _ Hok).
  - intros h c Hc Hu. destruct (ok_uid _ _ _ Hok h c Hc Hu) as (y & Hy & Hq & ?). exists y.
    assert (kc_uid c ≠ p) by congruence. rewrite !lookup_delete_ne by done. done.
  - intros e r HF. destruct (ok_fetched _ _ _ Hok e r HF) as ([t Ht] & ? & ?).
    split; [by exists t|]. split; [|done]. rewrite lookup_delete_ne; [done|]. intros ->.
    apply (Hno e t Ht). unfold owner. by rewrite HF.
  - intros e r HF Hr. destruct (ok_req _ _ _ Hok e r HF Hr) as (Hk & Hl & Hi). split; [done|]. split; [|done].
    intros q y [? Hy]%lookup_delete_Some Hq. destruct (HD' q Hq); [done|]. by eapply Hl.
  - intros e t q Ht HF Hq. rewrite lookup_delete_ne; [by eapply (ok_event _ _ _ Hok)|].
    intros ->. apply (Hno e t Ht). unfold owner. by rewrite HF.
  - apply (ok_mc _ _ _ Hok).
  - intros q y [_ Hy]%lookup_delete_Some. by apply (ok_plain _ _ _ Hok).
  - apply (ok_range _ _ _ Hok).
  - exact Htab.
Qed.

(** The kernel after it reported [r] for the identifier [h]. *)
Definition reported_one (k : gmap Z kctx) (r : ucma_abi_event_resp) (h : Z) (c : kctx) : gmap Z kctx :=
  let k := <[h := mkCtx (kc_uid c) (kc_reported c + 1)]> k in
  if decide (conn_req r) then <[er_id r := mkCtx 0 0]> k else k.

Lemma move_fetch b F D e r t h c :
  acc_ok b F D → F !! e = None → b_events b !! e = Some t → t.1 = None →
  b_k b !! h = Some c → er_uid r = kc_uid c → er_uid r ≠ 0 → is_mcast (er_event r) = false →
  (conn_req r → b_k b !! er_id r = None) →
  (∀ h' c', reported_one (b_k b) r h c !! h' = Some c' → 0 ≤ kc_reported c' < 2 ^ 31 ∧ 0 ≤ h' < 2 ^ 31) →
  acc_ok (mkBook (b_ids b) (<[e := (None, None)]> (b_events b)) (b_idm b) (reported_one (b_k b) r h c)) (<[e := r]> F) D.
Proof.
  intros Hok HF Ht Ht0 Hc Hu Hu0 Hmc Hnew Hrange. set (k' := reported_one (b_k b) r h c) in *.
  destruct (ok_uid _ _ _ Hok h c Hc) as (x & Hx & HDx & Hhx); [congruence|]. rewrite <- Hu in Hx, HDx.
  assert (∀ q, outstanding (<[e := r]> F) (<[e := (None, None)]> (b_events b)) q =
               outstanding F (b_events b) q + Z.b2z (bool_decide (er_uid r = q))) as Ho
    by (intros q; by eapply outstanding_fetch).
  assert (k' !! h = Some (mkCtx (er_uid r) (kc_reported c + 1))) as Hkh.
  { unfold k', reported_one. rewrite Hu. destruct (decide (conn_req r)) as [Hr|]; [|by rewrite lookup_insert_eq].
    rewrite lookup_insert_ne, lookup_insert_eq; [done|]. intros Heq. specialize (Hnew Hr). congruence. }
  assert (∀ h' c', h' ≠ h → b_k b !! h' = Some c' → k' !! h' = Some c') as Hkne.
  { intros h' c' Hne Hc'. unfold k', reported_one. destruct (decide (conn_req r)) as [Hr|]; [|by rewrite lookup_insert_ne].
    rewrite !lookup_insert_ne; [done|done|]. intros Heq. specialize (Hnew Hr). congruence. }
  assert (∀ h' c', k' !! h' = Some c' → kc_uid c' ≠ 0 → ∃ c0, b_k b !! h' = Some c0 ∧ kc_uid c0 = kc_uid c') as Hkback.
  { intros h' c' Hc' Hn. destruct (decide (h' = h)) as [->|Hne]; [exists c; by simplify_eq|].
    unfold k', reported_one in Hc'. destruct (decide (conn_req r)) as [Hr|].
    - rewrite lookup_insert_Some in Hc'. destruct Hc' as [[<- <-]|[_ Hc']]; [done|].
      rewrite lookup_insert_ne in Hc' by done. by exists c'.
    - rewrite lookup_insert_ne in Hc' by done. by exists c'. }
  assert (∀ q y, b_ids b !! q = Some y → D !! q = None → q ≠ er_uid r → a_handle y ≠ h) as Hhne.
  { intros q y Hy Hq Hne Heq. apply Hne. apply (ok_inj _ _ _ Hok q (er_uid r) y x); congruence. }
  split; cbn.
  - intros q y Hy Hq. rewrite Ho. destruct (ok_live _ _ _ Hok q y Hy Hq) as (c' & Hc' & Hu' & Hr').
    destruct (decide (q = er_uid r)) as [->|Hne].
    + assert (y = x) as -> by congruence. exists (mkCtx (er_uid r) (kc_reported c + 1)). rewrite Hhx, Hkh.
      rewrite bool_decide_true by done. cbn. split; [done|]. split; [by left|]. rewrite Hhx in Hc'. simplify_eq. lia.
    + exists c'. rewrite bool_decide_false by done. cbn. rewrite Z.add_0_r. split; [|done].
      by apply Hkne; [by apply (Hhne q)|].
  - intros q n Hq. rewrite Ho. destruct (ok_dying _ _ _ Hok q n Hq) as (y & Hy & ? & ?). exists y.
    rewrite bool_decide_false by congruence. cbn. rewrite Z.add_0_r. done.
  - apply (ok_inj _ _ _ Hok).
  - intros h' c' Hc' Hn. destruct (Hkback h' c' Hc' Hn) as (c0 & Hc0 & Heq). rewrite <- Heq in Hn |- *.
    by apply (ok_uid _ _ _ Hok h' c0).
  - intros j r'. rewrite lookup_insert_Some. intros [[<- <-]|[Hj HF']].
    + rewrite lookup_insert_eq. split; [done|]. split; [by exists x|done].
    + rewrite lookup_insert_ne by done. by apply (ok_fetched _ _ _ Hok).
  - intros j r'. rewrite lookup_insert_Some. intros [[<- <-]|[Hj HF']] Hr.
    + split; [unfold k', reported_one; rewrite decide_True by done; by rewrite lookup_insert_eq|]. split.
      * intros q y Hy Hq Heq. destruct (ok_live _ _ _ Hok q y Hy Hq) as (c' & Hc' & _). rewrite Heq, Hnew in Hc'; done.
      * intros j r'. rewrite lookup_insert_Some. intros [[<- <-]|[Hj HF']] Hr' Heq; [done|].
        destruct (ok_req _ _ _ Hok j r' HF' Hr') as (Hk & _). rewrite Heq, Hnew in Hk; done.
    + destruct (ok_req _ _ _ Hok j r' HF' Hr) as (Hk & Hl & Hi). split; [|split; [done|]].
      * apply Hkne; [|done]. intros Heq. rewrite Heq, Hc in Hk. by simplify_eq.
      * intros j' r''. rewrite lookup_insert_Some. intros [[<- <-]|[? HF'']] Hr'' Heq; [|by eapply Hi].
        rewrite <- Heq, Hnew in Hk; done.
  - intros j t' q Ht' [HF' Hj]%lookup_insert_None Hq. rewrite lookup_insert_ne in Ht' by done. by eapply (ok_event _ _ _ Hok).
  - intros j t'. rewrite lookup_insert_Some. intros [[<- <-]|[? Ht']]; [done|]. by eapply (ok_mc _ _ _ Hok).
  - apply (ok_plain _ _ _ Hok).
  - exact Hrange.
  - apply (ok_table _ _ _ Hok).
Qed.

(** A block for the next event. *)
Lemma move_new b F D e :
  acc_ok b F D → b_events b !! e = None → acc_ok (set_events <[e := (None, None)]> b) F D.
Proof.
  intros Hok He.
  assert (F !! e = None) as HF.
  { destruct (F !! e) as [r|] eqn:HF; [|done]. destruct (ok_fetched _ _ _ Hok e r HF) as ([t Ht] & _). congruence. }
  assert (∀ p, outstanding F (<[e := (None, None)]> (b_events b)) p = outstanding F (b_events b) p)
    as Ho by (intros p; by apply outstanding_new).
  split; cbn; intros *; rewrite ?Ho.
  - apply (ok_live _ _ _ Hok).
  - apply (ok_dying _ _ _ Hok).
  - apply (ok_inj _ _ _ Hok).
  - apply (ok_uid _ _ _ Hok).
  - intros HF'. destruct (ok_fetched _ _ _ Hok _ _ HF') as ([t Ht] & ? & ?).
    rewrite lookup_insert_ne by congruence. split; [by exists t|done].
  - apply (ok_req _ _ _ Hok).
  - rewrite lookup_insert_Some. intros [[<- <-]|[_ Ht]]; [done|]. by apply (ok_event _ _ _ Hok).
  - rewrite lookup_insert_Some. intros [[<- <-]|[_ Ht]]; [done|]. by apply (ok_mc _ _ _ Hok e0).
  - apply (ok_plain _ _ _ Hok).
  - apply (ok_range _ _ _ Hok).
  - apply (ok_table _ _ _ Hok).
Qed.
End Movements.

(** ** The table of handles *)
Lemma table_enter m idm h p :
  idm_ok m idm → 0 ≤ h < 2 ^ 31 →
  ∃ m' idm', ucma_insert_id true h p idm = Ok idm' ∧ idm_ok m' idm' ∧
    (∀ i, is_Some (m !! i) → is_Some (m' !! i)) ∧ (h ≤ 65535 → is_Some (m' !! h)).
Proof.
  intros Hok Hh. unfold ucma_insert_id. rewrite s32_small by done.
  destruct (idm_set_ok m idm true h p Hok) as (r & idm' & -> & Hr); [lia|]. cbn.
  destruct Hr as [(-> & Hle & Hok')|(-> & Hbig & Hok')].
  - exists (<[h := p]> m), idm'. do 2 (split; [done|]). split; [|intros _; by rewrite lookup_insert_eq].
    intros i Hi. by apply lookup_insert_is_Some'; right.
  - exists m, idm'. do 2 (split; [done|]). split; [done|]. destruct Hbig; [lia|done].
Qed.

Lemma table_remove m idm h :
  idm_ok m idm → 0 ≤ h < 2 ^ 31 → (h ≤ 65535 → is_Some (m !! h)) →
  ∃ m' idm', ucma_remove_id h idm = Ok idm' ∧ idm_ok m' idm' ∧ ∀ i, is_Some (m !! i) → is_Some (m' !! i).
Proof.
  intros Hok Hh Hm. unfold ucma_remove_id. change IDX_MAX_INDEX with 65535.
  destruct (Z.leb_spec h 65535) as [Hle|]; [|by exists m, idm].
  destruct (Hok) as (_ & Hb & _). destruct (Hb h (Hm Hle)) as [_ Hblk].
  rewrite s32_small by done. unfold idm_clear. rewrite cell_Ok; [|lia|by apply (idm_full m)]. cbn [rbind].
  destruct (idm_store m idm h 0 Hok) as (idm' & -> & Hok' & _); [lia|done|]. cbn.
  exists (<[h := 0]> m), idm'. do 2 (split; [done|]). intros i Hi. by apply lookup_insert_is_Some'; right.
Qed.

(** ** Calls that move the books *)
Section Noisy.
Context {K : Type} `{!CmEnv K, !CmLaws K} (af_ib_support : bool).
Implicit Types (s : cma K) (b : book) (F : fetched) (D : gmap Z Z) (p e : Z).

Lemma view_ids s p : b_ids (view s) !! p = acct <$> c_ids s !! p.
Proof. apply lookup_fmap. Qed.

Lemma view_events s e : b_events (view s) !! e = tag <$> c_events s !! e.
Proof. apply lookup_fmap. Qed.

Lemma view_id_Some s p a : b_ids (view s) !! p = Some a → ∃ x, c_ids s !! p = Some x ∧ a = acct x.
Proof. rewrite view_ids, fmap_Some. naive_solver. Qed.

Lemma view_event_Some s e t : b_events (view s) !! e = Some t → ∃ v, c_events s !! e = Some v ∧ t = tag v.
Proof. rewrite view_events, fmap_Some. naive_solver. Qed.

Lemma set_id_fine p f s x :
  c_ids s !! p = Some x →
  fine (λ _ s', view s' = set_ids <[p := acct (f x)]> (view s)) (set_id p f s).
Proof.
  intros Hx. unfold set_id, mbind, M_bind, get_id, lift. rewrite Hx. cbn. unfold view, set_ids. cbn.
  by rewrite fmap_insert.
Qed.

Lemma complete_event_fine p s x :
  b_ids (view s) !! p = Some x →
  fine (λ _ s', view s' = set_ids <[p := completed_one x]> (view s)) (ucma_complete_event p s).
Proof. intros (y & Hy & ->)%view_id_Some. unfold ucma_complete_event.
  by apply (set_id_fine p (λ x, with_completed (s32 (events_completed x + 1)) x)).
Qed.

Lemma set_event_fine e f s v :
  c_events s !! e = Some v →
  fine (λ _ s', view s' = set_events <[e := tag (f v)]> (view s)) (set_event e f s).
Proof.
  intros Hv. unfold set_event, mbind, M_bind, get_event, lift. rewrite Hv. cbn. unfold view, set_events. cbn.
  by rewrite fmap_insert.
Qed.

Lemma calm_use {A} (m : M K A) ps es s :
  calm ps es m → (∀ p, p ∈ ps → is_Some (b_ids (view s) !! p)) → (∀ e, e ∈ es → is_Some (b_events (view s) !! e)) →
  fine (λ _ s', view s' = view s) (m s).
Proof.
  intros Hm Hp He. apply Hm; intros i Hi; apply elem_of_dom.
  - specialize (Hp i Hi). rewrite view_ids in Hp. by apply fmap_is_Some in Hp.
  - specialize (He i Hi). rewrite view_events in He. by apply fmap_is_Some in He.
Qed.

(** The common case: one identifier and one event block. *)
Lemma calm_use1 {A} (m : M K A) p e s :
  calm {[p]} {[e]} m → is_Some (b_ids (view s) !! p) → is_Some (b_events (view s) !! e) →
  fine (λ _ s', view s' = view s) (m s).
Proof. intros Hm ??. apply (calm_use m {[p]} {[e]}); [done|set_solver..]. Qed.

Lemma calm_use_id {A} (m : M K A) p s :
  calm {[p]} ∅ m → is_Some (b_ids (view s) !! p) → fine (λ _ s', view s' = view s) (m s).
Proof. intros Hm ?. apply (calm_use m {[p]} ∅); [done|set_solver..]. Qed.

Lemma alloc_fine c context ps t s :
  fine (λ o s', ∃ p, o = Some p ∧ p ≠ 0 ∧ b_ids (view s) !! p = None ∧ b_events (view s) !! p = None ∧
                     view s' = set_ids <[p := mkAcct 0xFFFFFFFF 0 false None]> (view s))
       (ucma_alloc_id (Some c) context ps t s).
Proof.
  unfold ucma_alloc_id. destruct (law_malloc (live s) (c_env s)) as (p & k & Hm & Hp & Hp0 & Hk).
  apply (fine_bind _ _ (λ o s', o = Some p ∧ view s' = view s)).
  { unfold malloc, env. rewrite Hm. cbn. split; [done|]. unfold view. cbn. by rewrite Hk. }
  intros o s1 [-> Hv1]. cbn [fine]. unfold live in Hp. apply not_elem_of_union in Hp as [[Hp He]%not_elem_of_union _].
  apply (fine_bind _ _ (λ _ s', view s' = set_ids <[p := mkAcct 0xFFFFFFFF 0 false None]> (view s) ∧
                                c_ids s' !! p = Some (new_id 0 context ps t))).
  { cbn. split; [|by rewrite lookup_insert_eq]. rewrite <- Hv1. unfold view, set_ids. cbn. by rewrite fmap_insert. }
  intros _ s2 [Hv2 Hx2].
  eapply fine_bind; [by apply (set_id_fine p)|]. cbn. intros _ s3 Hv3. exists p. split; [done|]. split; [done|].
  rewrite view_ids, view_events. apply not_elem_of_dom in Hp as ->, He as ->. do 2 (split; [done|]).
  rewrite Hv3, Hv2. unfold set_ids, acct. cbn. by rewrite insert_insert_eq.
Qed.

(** The handle of a new block is entered. *)
Lemma enter_fine p h s x :
  b_ids (view s) !! p = Some x → 0 ≤ h < 2 ^ 31 → (∃ m, idm_ok m (b_idm (view s))) →
  fine (λ _ s', ∃ idm, view s' = set_idm idm (set_ids <[p := mkAcct h (a_completed x) (a_sync x) (a_event x)]> (view s)) ∧
                  ∀ m, idm_ok m (b_idm (view s)) → ∃ m', idm_ok m' idm ∧
                    (∀ i, is_Some (m !! i) → is_Some (m' !! i)) ∧ (h ≤ 65535 → is_Some (m' !! h)))
       (enter_id p h s).
Proof.
  intros (y & Hy & ->)%view_id_Some Hh [m Hm]. unfold enter_id.
  eapply fine_bind; [by apply (set_id_fine p)|]. cbn. intros _ s1 Hv1.
  apply (fine_bind _ _ (λ o s', is_Some o ∧ view s' = view s1)).
  { unfold malloc, env. destruct (law_malloc (live s1) (c_env s1)) as (q & k & -> & _ & _ & Hk). cbn.
    split; [done|]. unfold view. cbn. by rewrite Hk. }
  intros o s2 [Ho Hv2]. unfold mbind, M_bind, gets, lift. cbn. rewrite bool_decide_true by done.
  assert (ucma_idm s2 = b_idm (view s)) as Hidm by (change (ucma_idm s2) with (b_idm (view s2)); by rewrite Hv2, Hv1).
  destruct (table_enter m (b_idm (view s)) h p Hm Hh) as (m' & idm' & E & _). rewrite Hidm, E. cbn.
  exists idm'. split; [|intros m0 Hm0; destruct (table_enter m0 _ h p Hm0 Hh) as (m1 & idm1 & E1 & ?); rewrite E1 in E;
                        injection E as ->; by exists m1].
  change (set_ids _ (view s)) with (set_ids <[p := acct (with_handle h y)]> (view s)).
  by rewrite <- Hv1, <- Hv2.
Qed.

Lemma acc_enter b F D p h u idm :
  acc_ok b F D → free_handle b F D h → b_ids b !! p = None → p ≠ 0 → u = p ∨ u = 0 →
  (∀ m, idm_ok m (b_idm b) → ∃ m', idm_ok m' idm ∧
     (∀ i, is_Some (m !! i) → is_Some (m' !! i)) ∧ (h ≤ 65535 → is_Some (m' !! h))) →
  acc_ok (mkBook (<[p := mkAcct h 0 false None]> (b_ids b)) (b_events b) idm (<[h := mkCtx u 0]> (b_k b))) F D.
Proof.
  intros Hok Hh Hp Hp0 Hu Htab. apply move_add; try done.
  destruct (ok_table _ _ _ Hok) as (m & Hm & Hin). destruct (Htab m Hm) as (m' & Hm' & Hmono & Hnew).
  exists m'. split; [done|]. intros q x. rewrite lookup_insert_Some.
  intros [[<- <-]|[_ Hx]]; [exact Hnew|]. intros. by eapply Hmono, Hin.
Qed.

Lemma free_handle_fresh b F D h :
  acc_ok b F D → b_k b !! h = None → 0 ≤ h < 2 ^ 31 → free_handle b F D h.
Proof.
  intros Hok Hk Hh. split; [by left|]. split; [done|]. split.
  - intros p x Hx HD <-. destruct (ok_live _ _ _ Hok p x Hx HD) as (c & Hc & _). congruence.
  - intros e r HF Hr <-. destruct (ok_req _ _ _ Hok e r HF Hr) as (Hc & _). congruence.
Qed.

Lemma insert_id_clean a h p idm : ucma_insert_id a h p idm ≠ UB dangling.
Proof.
  unfold ucma_insert_id, idm_set, idm_grow, set_cell, block_at, in_bounds, deref.
  repeat (first [done|case_match|progress cbn]).
Qed.

(** Entering leaves the kernel alone, whatever the handle. *)
Lemma enter_any p h s :
  is_Some (b_ids (view s) !! p) → fine (λ _ s', b_k (view s') = b_k (view s)) (enter_id p h s).
Proof.
  intros [a (y & Hy & ->)%view_id_Some]. unfold enter_id.
  eapply fine_bind; [by apply (set_id_fine p)|]. cbv beta. intros _ s1 Hv1.
  eapply fine_bind; [apply (calm_use _ ∅ ∅); [apply calm_malloc|set_solver..]|]. cbv beta. intros o s2 Hv2.
  unfold mbind, M_bind, gets, lift. cbn. pose proof (insert_id_clean (bool_decide (is_Some o)) h p (ucma_idm s2)) as Hc.
  destruct (ucma_insert_id _ _ _ _) as [idm| | | |]; cbn; try done; [|congruence].
  change (b_k (view s2) = b_k (view s)). by rewrite Hv2, Hv1.
Qed.

(** The kernel granted the identifier a call returned. *)
Definition granted s s' (r : Z * option Z) : Prop :=
  ∀ p, r.2 = Some p → ∃ y, c_ids s' !! p = Some y ∧ k_ids (c_env s) !! handle y = None ∧
                           is_Some (k_ids (c_env s') !! handle y).

Lemma create_keeps c context ps t s F D :
  acc_ok (view s) F D → fine (λ r s', granted s s' r → acc_ok (view s') F D) (rdma_create_id2 (Some c) context ps t s).
Proof.
  intros Hok. unfold rdma_create_id2. eapply fine_bind; [apply alloc_fine|].
  intros o s1 (p & -> & Hp0 & Hp & _ & Hv1). cbv beta iota.
  assert (b_ids (view s1) !! p = Some (mkAcct 0xFFFFFFFF 0 false None)) as Hx1
    by (rewrite Hv1; cbn; by rewrite lookup_insert_eq).
  eapply fine_bind; [apply (calm_use_id _ p); [apply calm_get_id; set_solver|by eexists]|].
  cbv beta. intros x s2 Hv2.
  eapply fine_bind; [apply (calm_use_id _ p); [auto with calm|rewrite Hv2; by eexists]|].
  cbv beta. intros fd s3 Hv3. rewrite Hv2 in Hv3.
  apply (fine_bind _ _ (λ a s', view s' = view s3 ∨
                                 b_k (view s3) !! a.2 = None ∧ 0 ≤ a.2 < 2 ^ 31 ∧
                                 view s' = set_k <[a.2 := mkCtx p 0]> (view s3))).
  { unfold env. destruct (r_create_id fd p ps t (c_env s3)) as [[ret h] k'] eqn:E. cbn.
    destruct (law_create_id _ _ _ _ _ _ _ _ E) as [Hk'|[Hn Hk']].
    - left. unfold view. cbn. by rewrite Hk'.
    - right. split; [done|]. split.
      + destruct (law_reported k' h (mkCtx p 0)) as [_ ?]; [by rewrite Hk', lookup_insert_eq|done].
      + unfold view, set_k. cbn. by rewrite Hk'. }
  intros [ret h] s4 [Hv4|(Hn & Hh & Hv4)]; cbn [snd fst] in *.
  { eapply fine_bind; [apply (enter_any p h s4); rewrite Hv4, Hv3; by eexists|]. cbv beta. intros _ s5 Hk5. cbn.
    intros Hg. destruct (Hg p eq_refl) as (y & _ & Hnone & Hsome). rewrite Hv4, Hv3, Hv1 in Hk5. cbn in Hk5.
    change (k_ids (c_env s5)) with (b_k (view s5)) in Hsome. rewrite Hk5 in Hsome.
    change (b_k (view s)) with (k_ids (c_env s)) in Hsome. rewrite Hnone in Hsome. by destruct Hsome. }
  rewrite Hv3, Hv1 in Hn, Hv4.
  eapply fine_bind; [apply (enter_fine p h s4 (mkAcct 0xFFFFFFFF 0 false None))|].
  - rewrite Hv4. cbn. by rewrite lookup_insert_eq.
  - done.
  - rewrite Hv4. destruct (ok_table _ _ _ Hok) as (m & Hm & _). by exists m.
  - intros _ s5 (idm & Hv5 & Htab). rewrite Hv4 in Hv5, Htab. cbn. intros _. rewrite Hv5. unfold set_idm, set_ids, set_k. cbn.
    rewrite insert_insert_eq. apply acc_enter; try done; [|by left]. by apply free_handle_fresh.
Qed.

Lemma get_id_fine p s x : c_ids s !! p = Some x → fine (λ y s', y = x ∧ s' = s) (get_id p s).
Proof. intros Hx. unfold get_id, lift. by rewrite Hx. Qed.

Lemma destroy_kern_fine c h s k0 :
  b_k (view s) !! h = Some k0 → 0 ≤ kc_reported k0 < 2 ^ 31 →
  fine (λ n s', n = kc_reported k0 ∧ view s' = set_k (delete h) (view s)) (ucma_destroy_kern_id c h s).
Proof.
  intros Hc Hr. unfold ucma_destroy_kern_id.
  eapply fine_bind; [apply (calm_use _ ∅ ∅); [auto with calm|set_solver..]|]. cbv beta. intros fd s2 Hv2.
  apply (fine_bind _ _ (λ a s', a.2 = kc_reported k0 ∧ view s' = set_k (delete h) (view s))).
  { unfold env. destruct (r_destroy_id fd h (c_env s2)) as [[ret n] k'] eqn:E. cbn.
    rewrite <- Hv2 in Hc. destruct (law_destroy_id _ _ _ _ _ _ _ E Hc) as [-> Hk]. split; [done|].
    rewrite <- Hv2. unfold view, set_k. cbn. by rewrite Hk. }
  intros [ret n] s3 [Hn Hv3]. cbn in Hn |- *. subst n. by rewrite s32_small.
Qed.

Lemma ack_own_quiet p s x : c_ids s !! p = Some x → id_event (p_id x) = None → ack_own p s = Ok ((), s).
Proof.
  intros Hx He. unfold ack_own, mbind, M_bind, get_id, lift. rewrite Hx. cbn. by rewrite He.
Qed.

Lemma destroy_begin_keeps p s F D x :
  acc_ok (view s) F D → b_ids (view s) !! p = Some x → D !! p = None →
  fine (λ n s', 0 ≤ n ∧ b_ids (view s') = b_ids (view s) ∧ b_events (view s') = b_events (view s) ∧
                acc_ok (view s') F (<[p := n]> D)) (destroy_begin p s).
Proof.
  intros Hok Ha HD. destruct (ok_live _ _ _ Hok p x Ha HD) as (c & Hc & _ & _).
  destruct (ok_range _ _ _ Hok _ _ Hc) as [Hr _]. destruct (ok_plain _ _ _ Hok p x Ha) as (_ & Hev & _).
  destruct (view_id_Some _ _ _ Ha) as (y & Hy & ->). unfold destroy_begin.
  eapply fine_bind; [by apply get_id_fine|]. intros ? ? [-> ->].
  eapply fine_bind; [by apply (destroy_kern_fine _ (a_handle (acct y)))|]. cbv beta. intros n s2 [-> Hv2].
  destruct (Z.ltb_spec (kc_reported c) 0) as [|_]; [lia|].
  assert (b_ids (view s2) !! p = Some (acct y)) as Ha2 by (by rewrite Hv2).
  destruct (view_id_Some _ _ _ Ha2) as (y2 & Hy2 & Hacc). unfold mbind, M_bind. rewrite (ack_own_quiet p s2 y2); [|done|].
  - cbn. split; [lia|]. rewrite Hv2. do 2 (split; [done|]). by apply move_destroy.
  - change (id_event (p_id y2)) with (a_event (acct y2)). by rewrite <- Hacc.
Qed.

Lemma free_keeps p n s F D x :
  acc_ok (view s) F D → D !! p = Some n → b_ids (view s) !! p = Some x → n ≤ a_completed x →
  fine (λ _ s', b_events (view s') = b_events (view s) ∧ acc_ok (view s') F (delete p D)) (ucma_free_id p s).
Proof.
  intros Hok HD Ha Hn. destruct (ok_plain _ _ _ Hok p x Ha) as (Hs & _ & _ & Hh & _).
  destruct (view_id_Some _ _ _ Ha) as (y & Hy & ->). unfold ucma_free_id.
  eapply fine_bind; [by apply get_id_fine|]. intros ? ? [-> ->].
  destruct (ok_table _ _ _ Hok) as (m & Hm & Hin).
  destruct (table_remove m (ucma_idm s) (handle y) Hm) as (m' & idm' & E & Hm' & Hmono); [done|by apply (Hin p (acct y))|].
  apply (fine_bind _ _ (λ m s', m = ucma_idm s ∧ s' = s)); [done|]. intros ? ? [-> ->].
  apply (fine_bind _ _ (λ m s', m = idm' ∧ s' = s)); [unfold lift; by rewrite E|]. intros ? ? [-> ->].
  apply (fine_bind _ _ (λ _ s', view s' = set_idm idm' (view s))); [done|]. intros _ s1 Hv1.
  apply (fine_bind _ _ (λ _ s', view s' = view s1)).
  { apply (calm_use _ ∅ ∅); [|set_solver..]. destruct (p_dev y); auto with calm. }
  intros _ s2 Hv2. apply (fine_bind _ _ (λ _ s', s' = s2)).
  { by change (sync y) with (a_sync (acct y)); rewrite Hs. }
  intros _ ? ->. cbn.
  assert (view (mkCma (delete p (c_ids s2)) (c_events s2) (c_mcs s2) (ucma_idm s2) (cma_dev_array s2)
                 (event_channel_map s2) (c_env s2)) = set_ids (delete p) (view s2)) as ->
    by (unfold view, set_ids; cbn; by rewrite fmap_delete).
  rewrite Hv2, Hv1. split; [done|]. apply (move_free (view s) F D p n (acct y)); try done.
  exists m'. split; [done|]. intros q z [_ Hz]%lookup_delete_Some Hle. by eapply Hmono, Hin.
Qed.

Lemma ack_ok e p s F D :
  acc_ok (view s) F D → F !! e = None → b_events (view s) !! e = Some (Some p, None) →
  ∃ s', rdma_ack_cm_event e s = Ok ((), s') ∧ acc_ok (view s') F D.
Proof.
  intros Hok HF He. destruct (ok_event _ _ _ Hok e _ p He HF eq_refl) as [x Hx].
  destruct (view_event_Some _ _ _ He) as (v & Hv & Htag). injection Htag as Hp Hmc.
  destruct (view_id_Some _ _ _ Hx) as (y & Hy & ->).
  unfold rdma_ack_cm_event, mbind, M_bind, get_event, lift. rewrite Hv. cbn. rewrite <- Hmc, <- Hp.
  unfold ucma_complete_event, set_id, mbind, M_bind, get_id, lift. rewrite Hy. cbn. eexists. split; [done|].
  pose proof (move_complete _ F D e p (acct y) _ Hok HF He Hx (or_introl eq_refl)) as Hm.
  unfold view in *. cbn in *. by rewrite fmap_insert, fmap_delete.
Qed.

Lemma fetch_keeps channel e s F D t :
  acc_ok (view s) F D → F !! e = None → b_events (view s) !! e = Some t → t.1 = None →
  fine (λ r s', acc_ok (view s') (<[e := r]> F) D) (fetch_event channel e s).
Proof.
  intros Hok HF He Ht. destruct (view_event_Some _ _ _ He) as (v & Hv & Htag). unfold fetch_event.
  eapply fine_bind; [by apply set_event_fine|]. cbv beta. intros _ s1 Hv1.
  eapply fine_bind; [apply (calm_use _ ∅ ∅); [auto with calm|set_solver..]|]. cbv beta. intros fd s2 Hv2.
  rewrite Hv1 in Hv2. unfold mbind, M_bind, env_wait, env.
  destruct (r_get_event fd (c_env s2)) as [[[ret r] k']|] eqn:E; [|done]. cbn.
  destruct (law_get_event _ _ _ _ _ E) as (h & c & Hc & Hu & Hu0 & Hmc & Hk).
  assert (k_ids k' = reported_one (k_ids (c_env s2)) r h c ∧ (conn_req r → k_ids (c_env s2) !! er_id r = None)) as [Hk' Hn].
  { unfold reported_one, conn_req. destruct (decide _) as [Hr|Hr]; [|done]. destruct Hk as [? ->]. done. }
  change (k_ids (c_env s2)) with (b_k (view s2)) in *. rewrite Hv2 in Hc, Hk', Hn. cbn in Hc, Hk', Hn.
  pose proof (move_fetch (view s) F D e r t h c Hok HF He Ht Hc Hu Hu0 Hmc Hn) as Hmove.
  rewrite <- Hk' in Hmove. specialize (Hmove (law_reported k')).
  assert (view (mkCma (c_ids s2) (c_events s2) (c_mcs s2) (ucma_idm s2) (cma_dev_array s2) (event_channel_map s2) k') =
          set_k (λ _, k_ids k') (view s2)) as -> by done.
  rewrite Hv2. exact Hmove.
Qed.

Lemma wait_fine p n s x :
  b_ids (view s) !! p = Some x → fine (λ _ s', s' = s ∧ n ≤ a_completed x) (wait_completed p n s).
Proof.
  intros (y & Hy & ->)%view_id_Some. unfold wait_completed, mbind, M_bind, get_id, lift. rewrite Hy. cbn.
  destruct (Z.ltb_spec (events_completed y) n); [done|]. cbn. split; [done|lia].
Qed.

Lemma destroy_keeps p s F D x :
  acc_ok (view s) F D → b_ids (view s) !! p = Some x → D !! p = None →
  fine (λ _ s', b_events (view s') = b_events (view s) ∧ acc_ok (view s') F D) (rdma_destroy_id p s).
Proof.
  intros Hok Hx HD. unfold rdma_destroy_id.
  eapply fine_bind; [by eapply destroy_begin_keeps|]. intros n s1 (Hn & Hi1 & He1 & Hok1).
  destruct (Z.ltb_spec n 0); [lia|].
  eapply fine_bind; [apply (wait_fine p n s1 x); by rewrite Hi1|]. intros _ ? [-> Hle].
  eapply fine_bind; [eapply (free_keeps p n s1 _ _ x); try done; [by rewrite lookup_insert_eq|by rewrite Hi1]|].
  intros _ s2 [He2 Hok2]. cbn. rewrite delete_insert_id in Hok2 by done. split; [congruence|done].
Qed.

(** The event block [e] holds a connection request for [lp]; the kernel's handle of the
    new identifier is [h]. *)
Lemma conn_req_keeps e lp h s F D :
  acc_ok (view s) F D → F !! e = None → b_events (view s) !! e = Some (Some lp, None) →
  free_handle (view s) F D h → b_k (view s) !! h = Some (mkCtx 0 0) →
  fine (λ ret s', b_events (view s') = b_events (view s) ∧
                  if Z.eqb ret 0 then acc_ok (view s') F D
                  else acc_ok (set_events <[e := (None, None)]> (view s')) F D)
       (ucma_process_conn_req af_ib_support e lp h s).
Proof.
  intros Hok HF He Hh Hk. destruct (ok_event _ _ _ Hok e _ lp He HF eq_refl) as [al Hal].
  destruct (ok_plain _ _ _ Hok lp al Hal) as (Hsync & _). destruct (view_id_Some _ _ _ Hal) as (l & Hl & ->).
  unfold ucma_process_conn_req. eapply fine_bind; [by apply get_id_fine|]. intros ? ? [-> ->].
  eapply fine_bind; [apply alloc_fine|]. intros o s1 (p & -> & Hp0 & Hp & _ & Hv1). cbv beta iota.
  eapply fine_bind; [apply (calm_use _ ∅ {[e]}); [apply calm_set_event; [set_solver|done]|set_solver|]|].
  { intros ? ->%elem_of_singleton. rewrite Hv1. cbn. by eexists. }
  cbv beta. intros _ s2 Hv2. rewrite Hv1 in Hv2.
  eapply fine_bind; [apply (enter_fine p h s2 (mkAcct 0xFFFFFFFF 0 false None))|].
  { rewrite Hv2. cbn. by rewrite lookup_insert_eq. }
  { apply Hh. }
  { rewrite Hv2. destruct (ok_table _ _ _ Hok) as (m & Hm & _). by exists m. }
  intros _ s3 (idm & Hv3 & Htab). rewrite Hv2 in Hv3, Htab. unfold set_idm, set_ids in Hv3. cbn in Hv3, Htab.
  rewrite insert_insert_eq in Hv3.
  assert (acc_ok (view s3) F D) as Hok3.
  { rewrite Hv3, <- (insert_id (b_k (view s)) h (mkCtx 0 0) Hk). apply acc_enter; try done. by right. }
  assert (b_events (view s3) = b_events (view s)) as He3 by (by rewrite Hv3).
  assert (b_ids (view s3) !! p = Some (mkAcct h 0 false None)) as Hp3 by (rewrite Hv3; cbn; by rewrite lookup_insert_eq).
  assert (b_ids (view s3) !! lp = Some (acct l)) as Hl3
    by (rewrite Hv3; cbn; rewrite lookup_insert_ne; congruence).
  clear Hv3 Htab Hv2 Hv1.
  assert (D !! p = None) as HDp.
  { destruct (D !! p) as [n|] eqn:E; [|done]. destruct (ok_dying _ _ _ Hok p n E) as (x & Hx & _). congruence. }
  eapply fine_bind; [apply (calm_use _ ∅ {[e]}); [apply calm_get_event; set_solver|set_solver|]|].
  { intros ? ->%elem_of_singleton. rewrite He3. by eexists. }
  cbv beta. intros v s4 Hv4.
  eapply fine_bind; [apply (calm_use_id _ p); [apply calm_set_id; [set_solver|done]|rewrite Hv4; by eexists]|].
  cbv beta. intros _ s5 Hv5. rewrite Hv4 in Hv5.
  assert (b_ids (view s5) !! lp = Some (acct l)) as (l5 & Hl5 & Hacc)%view_id_Some by (by rewrite Hv5).
  eapply fine_bind; [by apply get_id_fine|]. intros ? ? [-> ->].
  assert (sync l5 = false) as -> by (change (sync l5) with (a_sync (acct l5)); by rewrite <- Hacc).
  apply (fine_bind _ _ (λ r s', r = 0 ∧ s' = s5)); [done|]. intros ? ? [-> ->].
  eapply fine_bind; [apply (calm_use_id _ p); [apply calm_query_req_info; set_solver|rewrite Hv5; by eexists]|].
  cbv beta. intros ret s6 Hv6. rewrite Hv5 in Hv6. destruct (Z.eqb_spec ret 0) as [->|Hret].
  { cbn. rewrite Hv6. done. }
  eapply fine_bind; [eapply (destroy_keeps p s6 F D); rewrite ?Hv6; done|]. cbv beta. intros _ s7 [He7 Hok7].
  rewrite Hv6, He3 in He7.
  destruct (ok_event _ _ _ Hok7 e (Some lp, None) lp) as [a7 Ha7]; [by rewrite He7|done..|].
  eapply fine_bind; [by apply complete_event_fine|]. cbv beta. intros _ s8 Hv8. cbn.
  destruct (Z.eqb_spec ret 0); [done|]. rewrite Hv8. cbn. split; [done|].
  eapply (move_complete (view s7) F D e lp); try done; [by rewrite He7|by right].
Qed.

(** The books after an iteration of the loop: the event is delivered, or its block is
    to be used again. *)
Definition handed e (r : ucma_abi_event_resp) F D (n : next) (s' : cma K) : Prop :=
  match n with
  | Deliver => b_events (view s') !! e = Some (Some (er_uid r), None) ∧ acc_ok (view s') (delete e F) D
  | Retry => acc_ok (set_events <[e := (None, None)]> (view s')) (delete e F) D
  end.

(** After [own], with the books [b1]. *)
Section Owned.
Context (e : Z) (r : ucma_abi_event_resp) (F : fetched) (D : gmap Z Z) (b1 : book).
Context (Hok1 : acc_ok b1 (delete e F) D) (He1 : b_events b1 !! e = Some (Some (er_uid r), None)).

Lemma owned_live : is_Some (b_ids b1 !! er_uid r).
Proof. by apply (ok_event _ _ _ Hok1 e (Some (er_uid r), None)); [|apply lookup_delete_eq|]. Qed.

Lemma owned_calm {A} (m : M K A) s :
  view s = b1 → calm {[er_uid r]} {[e]} m → fine (λ _ s', view s' = b1) (m s).
Proof.
  intros Hv Hm. apply (fine_mono (λ _ s', view s' = view s)); [intros; congruence|].
  apply (calm_use1 m (er_uid r) e); [done|rewrite Hv; apply owned_live|rewrite Hv; by eexists].
Qed.

Lemma owned_deliver (m : M K ()) s :
  view s = b1 → calm {[er_uid r]} {[e]} m → fine (handed e r F D) ((m ;; mret Deliver) s).
Proof. intros Hv Hm. eapply fine_bind; [by apply owned_calm|]. cbv beta. intros _ s2 Hv2. cbn. by rewrite Hv2. Qed.

Lemma owned_unless (m : M K ()) s :
  view s = b1 → calm {[er_uid r]} {[e]} m → fine (handed e r F D) (unless_failed (er_uid r) m s).
Proof.
  intros Hv Hm. destruct owned_live as [a1 Ha1]. rewrite <- Hv in Ha1.
  destruct (view_id_Some _ _ _ Ha1) as (y & Hy & ->). unfold unless_failed.
  eapply fine_bind; [by apply get_id_fine|]. intros ? ? [-> ->]. destruct (connect_error y); [|by apply owned_deliver].
  eapply fine_bind; [by apply complete_event_fine|]. cbv beta. intros _ s2 Hv2. cbn. rewrite Hv2, Hv.
  eapply (move_complete b1 _ D e (er_uid r)); try done; [apply lookup_delete_eq|by rewrite <- Hv|by right].
Qed.

Lemma owned_request s :
  view s = b1 → free_handle b1 (delete e F) D (er_id r) → b_k b1 !! er_id r = Some (mkCtx 0 0) →
  fine (handed e r F D) ((ret ← ucma_process_conn_req af_ib_support e (er_uid r) (er_id r);
                          mret (if Z.eqb ret 0 then Deliver else Retry)) s).
Proof.
  intros Hv Hfree Hk.
  eapply fine_bind; [apply (conn_req_keeps e (er_uid r) (er_id r) s (delete e F) D); rewrite ?Hv; try done; apply lookup_delete_eq|].
  cbv beta. intros ret s3 [He3 Hok3]. rewrite Hv in He3. cbn. destruct (Z.eqb ret 0); [|done].
  cbn. by rewrite He3.
Qed.
End Owned.

Lemma process_keeps e r s F D :
  acc_ok (view s) F D → F !! e = Some r → fine (handed e r F D) (process_event af_ib_support e r s).
Proof.
  intros Hok HF. destruct (ok_fetched _ _ _ Hok e r HF) as ([t Ht] & [x Hx] & Hu0 & Hmc).
  pose proof (move_own _ _ _ e r Hok HF) as Hok1.
  unfold process_event. apply (fine_bind _ _ (λ o s', o = Some (er_uid r) ∧ s' = s)).
  { unfold event_target. by destruct (Z.eqb_spec (er_uid r) 0). }
  intros ? ? [-> ->]. destruct (view_event_Some _ _ _ Ht) as (v & Hv & ->).
  eapply fine_bind; [by apply set_event_fine|]. cbv beta. intros _ s1 Hv1. unfold tag in Hv1. cbn in Hv1.
  rewrite <- Hv1 in Hok1.
  assert (b_events (view s1) !! e = Some (Some (er_uid r), None)) as He1 by (rewrite Hv1; cbn; by rewrite lookup_insert_eq).
  pose proof (owned_deliver e r F D (view s1) Hok1 He1) as Hdel.
  pose proof (owned_unless e r F D (view s1) Hok1 He1) as Hunless.
  pose proof (λ A m s, owned_calm (A := A) e r F D (view s1) Hok1 He1 m s) as Hcalm.
  destruct (er_event r) eqn:Hev; try discriminate Hmc; try (apply Hdel; auto with calm set_solver).
  - destruct (ok_req _ _ _ Hok e r HF Hev) as (Hk & Hl & Hi).
    eapply fine_bind; [apply Hcalm; auto with calm set_solver|]. cbv beta. intros _ s2 Hv2.
    apply (owned_request e r F D (view s1)); try done; [|by rewrite Hv1].
    rewrite Hv1. split; [by right|]. split; [by apply (ok_range _ _ _ Hok _ _ Hk)|]. split; [done|].
    intros e' r' [Hne HF']%lookup_delete_Some Hr' Heq. by apply Hne, eq_sym, (Hi e' r').
  - eapply fine_bind; [apply Hcalm; auto with calm set_solver|]. cbv beta. intros _ s2 Hv2.
    eapply fine_bind; [apply Hcalm; [done|auto with calm set_solver]|]. cbv beta. intros st s3 Hv3.
    eapply fine_bind; [apply Hcalm; [done|calm_tac]|]. cbv beta. intros _ s4 Hv4.
    apply Hdel; [done|calm_tac].
  - apply Hunless; [done|]. unfold ucma_modify_qp_err. calm_tac; auto with calm set_solver.
  - apply Hunless; auto with calm set_solver.
Qed.
End Noisy.

(** ** The calls of [CmaConn] *)
Section CalmConn.
Context {K : Type} `{!CmEnv K, !CmLaws K} (af_ib_support : bool) (abi_ver : Z) (fuel : nat).
Implicit Types (s : cma K) (p e : Z) (ps es : gset Z).

Lemma copy_addr_clean a n m : copy_addr a n m ≠ UB dangling.
Proof. apply memcpy_clean. Qed.
Hint Resolve copy_addr_clean : calm.

Lemma calm_bind_addr2 ps es p a n : p ∈ ps → calm ps es (rdma_bind_addr2 p a n).
Proof. intros Hp. unfold rdma_bind_addr2. calm_tac. Qed.
Hint Resolve calm_bind_addr2 : calm.

Lemma calm_bind_addr ps es p a : p ∈ ps → calm ps es (rdma_bind_addr af_ib_support p a).
Proof. intros Hp. unfold rdma_bind_addr. calm_tac. Qed.

Lemma calm_store_dst ps es p a n : p ∈ ps → calm ps es (store_dst p a n).
Proof. intros Hp. unfold store_dst. calm_tac. Qed.

Lemma calm_set_option ps es p l n v : p ∈ ps → calm ps es (rdma_set_option p l n v).
Proof. intros Hp. unfold rdma_set_option. calm_tac. Qed.
Hint Resolve calm_bind_addr calm_store_dst calm_set_option : calm.

Lemma calm_set_ib_route ps es p : p ∈ ps → calm ps es (ucma_set_ib_route p).
Proof. intros Hp. unfold ucma_set_ib_route. calm_tac. Qed.

Lemma calm_find_pkey ps es n v port key i : calm ps es (find_pkey_from n v port key i).
Proof. revert i. induction n; intros i; cbn [find_pkey_from]; calm_tac. by intros s _ _. Qed.
Hint Resolve calm_find_pkey : calm.

Lemma calm_attr_with_pkey ps es p : p ∈ ps → calm ps es (attr_with_pkey fuel p).
Proof. intros Hp. unfold attr_with_pkey, ucma_find_pkey. calm_tac. Qed.

Lemma calm_ud_qp_to_rts ps es qp a : calm ps es (ud_qp_to_rts qp a).
Proof. unfold ud_qp_to_rts. calm_tac. Qed.
Hint Resolve calm_set_ib_route calm_attr_with_pkey calm_ud_qp_to_rts : calm.

Lemma calm_init_conn_qp ps es p qp : p ∈ ps → calm ps es (ucma_init_conn_qp abi_ver fuel p qp).
Proof. intros Hp. unfold ucma_init_conn_qp, ucma_init_conn_qp3. calm_tac. Qed.

Lemma calm_init_ud_qp ps es p qp : p ∈ ps → calm ps es (ucma_init_ud_qp abi_ver fuel p qp).
Proof. intros Hp. unfold ucma_init_ud_qp, ucma_init_ud_qp3. calm_tac. Qed.

Lemma calm_destroy_cqs ps es p : p ∈ ps → calm ps es (ucma_destroy_cqs p).
Proof. intros Hp. unfold ucma_destroy_cqs, destroy_pair, set_cqs. calm_tac. Qed.
Hint Resolve calm_init_conn_qp calm_init_ud_qp calm_destroy_cqs : calm.

Lemma calm_create_cqs ps es p n m : p ∈ ps → calm ps es (ucma_create_cqs p n m).
Proof. intros Hp. unfold ucma_create_cqs, create_cq_pair, set_cqs. calm_tac. Qed.

Lemma calm_get_xrcd ps es i : calm ps es (ucma_get_xrcd i).
Proof. unfold ucma_get_xrcd. calm_tac. Qed.
Hint Resolve calm_create_cqs calm_get_xrcd : calm.

Lemma calm_create_qp ps es p pd a : p ∈ ps → calm ps es (rdma_create_qp abi_ver fuel p pd a).
Proof. intros Hp. unfold rdma_create_qp, rdma_create_qp_ex. calm_tac. Qed.

Lemma calm_destroy_qp ps es p : p ∈ ps → calm ps es (rdma_destroy_qp p).
Proof. intros Hp. unfold rdma_destroy_qp. calm_tac. Qed.

Lemma calm_listen ps es p n : p ∈ ps → calm ps es (rdma_listen af_ib_support p n).
Proof. intros Hp. unfold rdma_listen. calm_tac. Qed.

Lemma calm_dev_limit ps es x f : calm ps es (dev_limit x f).
Proof. unfold dev_limit. calm_tac. Qed.
Hint Resolve calm_dev_limit : calm.

Lemma calm_valid_param ps es x c : calm ps es (ucma_valid_param x c).
Proof. unfold ucma_valid_param. calm_tac. Qed.

Lemma calm_shutdown ps es p : p ∈ ps → calm ps es (ucma_shutdown p).
Proof. intros Hp. unfold ucma_shutdown, ucma_modify_qp_err, ucma_modify_qp_sqd. calm_tac. Qed.
End CalmConn.
