(* ===== verification/CmaDemo.v ===== *)
(** * The connection manager: a kernel to run it against

    A small kernel that satisfies [CmLaws]: a table of identifiers and the events it will
    report, in order.  Requests that would break a law are refused.  Everything else
    succeeds and does nothing. *)

From S2P Require Import Prelude Layout FfTypes Wire Indexer Attrs Marshall Cma CmaConn CmaEvents.

(** An event to report: the identifier, the event, and the handle of the new identifier
    that comes with a connection request. *)
Record planned := mkPlan { pl_handle : Z; pl_event : rdma_cm_event_type; pl_new : Z }.

Record kernel := mkKernel { kn_ids : gmap Z kctx; kn_next : Z; kn_plan : list planned }.

Definition entry_ok (h : Z) (c : kctx) : Prop := 0 ≤ kc_reported c < 2 ^ 31 ∧ 0 ≤ h < 2 ^ 31.
#[export] Instance entry_ok_dec h c : Decision (entry_ok h c).
Proof. unfold entry_ok. apply _. Defined.

Definition ids_ok (m : gmap Z kctx) : Prop := map_Forall entry_ok m.
#[export] Instance ids_ok_dec m : Decision (ids_ok m).
Proof. unfold ids_ok. apply _. Defined.

Definition kernel_ids (k : kernel) : gmap Z kctx := if decide (ids_ok (kn_ids k)) then kn_ids k else ∅.

Definition create_entry (uid : Z) (k : kernel) : Z * Z * kernel :=
  let h := kn_next k in
  let m := <[h := mkCtx uid 0]> (kn_ids k) in
  if bool_decide (ids_ok (kn_ids k) ∧ ids_ok m ∧ kn_ids k !! h = None)
  then (0, h, mkKernel m (h + 1) (kn_plan k))
  else (-1, 0, k).

Definition destroy_entry (h : Z) (k : kernel) : Z * Z * kernel :=
  match kernel_ids k !! h with
  | Some c => (0, kc_reported c, mkKernel (delete h (kn_ids k)) (kn_next k) (kn_plan k))
  | None => (-1, 0, k)
  end.

Definition accept_entry (h uid : Z) (k : kernel) : Z * kernel :=
  match kernel_ids k !! h with
  | Some c => (0, mkKernel (<[h := mkCtx uid (kc_reported c)]> (kn_ids k)) (kn_next k) (kn_plan k))
  | None => (-1, k)
  end.

Definition no_conn : ucma_abi_conn_param := mkAbiConn 0 (replicate 256 0) 0 0 0 0 0 0 0 0.
Definition no_ud : ucma_abi_ud_param := mkAbiUd 0 0 (λ _, 0) (replicate 256 0) 0.

(** The next event, once its identifier exists. *)
Definition report (k : kernel) : option (Z * ucma_abi_event_resp * kernel) :=
  match kn_plan k with
  | [] => None
  | p :: plan =>
      match kernel_ids k !! pl_handle p with
      | None => None
      | Some c =>
          let m := <[pl_handle p := mkCtx (kc_uid c) (kc_reported c + 1)]> (kn_ids k) in
          let req := bool_decide (pl_event p = RDMA_CM_EVENT_CONNECT_REQUEST) in
          let m' := if req then <[pl_new p := mkCtx 0 0]> m else m in
          if bool_decide (kc_uid c ≠ 0 ∧ is_mcast (pl_event p) = false ∧ ids_ok m' ∧
                          (req = true → kn_ids k !! pl_new p = None))
          then Some (0, mkEventResp (kc_uid c) (pl_new p) (pl_event p) 0 no_conn no_ud,
                     mkKernel m' (kn_next k) plan)
          else None
      end
  end.

Definition an_address : list Z := replicate 128 0.
Definition a_guid : Z := 7.

#[export] Instance kernel_env : CmEnv kernel := {|
  r_create_channel k := (3, 30, k);
  r_create_id fd uid ps t := create_entry uid;
  r_destroy_id fd := destroy_entry;
  r_query_addr fd h k := (0, mkQueryAddr a_guid 1 0 16 16 an_address an_address, k);
  r_query_gid fd h k := (0, (replicate 16 0, replicate 16 0), k);
  r_query_path fd h k := (0, mkQueryPath 0 [], k);
  r_query_route fd h k := (0, mkQueryRoute a_guid [λ _, 0; λ _, 0] an_address an_address 0 1, k);
  r_init_qp_attr fd h st k := (0, λ _, 0, k);
  r_process_conn_resp fd h k := (0, k);
  r_migrate_id fd h old k := (0, 0, k);
  r_get_event fd := report;
  r_bind fd h a k := (0, k);
  r_bind_ip fd h a k := Some (0, k);
  r_resolve_addr fd h a b t k := (0, k);
  r_resolve_ip fd h a b t k := (0, k);
  r_resolve_route fd h t k := (0, k);
  r_connect fd h c k := (0, k);
  r_accept fd h uid prm := accept_entry h uid;
  r_listen fd h n k := (0, k);
  r_disconnect fd h k := (0, k);
  r_set_option fd h l n len v k := (0, k);
  k_join_mcast fd h uid a k := None;
  k_leave_mcast fd h k := None;
  v_open_device g k := (Some 100, k);
  v_close_device v k := k;
  v_query_device v k := (0, λ _, 1, k);
  v_query_port v i k := (0, IBV_LINK_LAYER_INFINIBAND, k);
  v_transport v := IBV_TRANSPORT_IB;
  v_alloc_pd v k := (Some 200, k);
  v_dealloc_pd v k := k;
  v_open_xrcd v k := (Some 300, k);
  v_close_xrcd v k := k;
  v_query_pkey v n i k := (0, 65535, k);
  v_modify_qp q a mask k := (0, k);
  v_attach_mcast q g l k := (0, k);
  v_detach_mcast q g l k := k;
  v_create_channel v k := (Some 400, k);
  v_destroy_channel c k := k;
  v_create_cq v n c k := (Some 500, k);
  v_destroy_cq c k := k;
  v_create_qp v a k := (Some (mkQp 600 6 (at_srq a) 200), k);
  v_destroy_qp q k := k;
  v_destroy_srq q k := k;
  v_pd_context pd := 100;
  v_ib_route a b k := (None, k);
  e_malloc l k := (Some (fresh ({[0]} ∪ l)), k);
  e_junk k := λ _, 0
|}.

Lemma kernel_ids_Some k h c :
  kernel_ids k !! h = Some c → ids_ok (kn_ids k) ∧ kn_ids k !! h = Some c ∧ kernel_ids k = kn_ids k.
Proof. unfold kernel_ids. case_decide; [done|]. by rewrite lookup_empty. Qed.

Lemma kernel_ids_ok m n p : ids_ok m → kernel_ids (mkKernel m n p) = m.
Proof. intros H. unfold kernel_ids. cbn. by rewrite decide_True. Qed.

#[local] Obligation Tactic := try done; try (by intros * [= _ <-]).
#[export] Program Instance kernel_laws : CmLaws kernel := {| k_ids := kernel_ids |}.
Next Obligation. intros k h c (H & Hc & _)%kernel_ids_Some. by apply (H h c Hc). Qed.
Next Obligation.
  cbn. intros _ uid _ _ k ret h k'. unfold create_entry. case_bool_decide as H; intros [= _ <- <-]; [|by left].
  destruct H as (H1 & H2 & H3). right. rewrite kernel_ids_ok by done. unfold kernel_ids.
  by rewrite decide_True by done.
Qed.
Next Obligation.
  cbn. intros _ h k ret n k' c. unfold destroy_entry. intros E H. rewrite H in E. injection E as <- <- <-.
  destruct (kernel_ids_Some _ _ _ H) as (Hk & _ & Heq). rewrite kernel_ids_ok; [by rewrite Heq|].
  by apply map_Forall_delete.
Qed.
Next Obligation.
  cbn. intros _ k ret r k'. unfold report. destruct (kn_plan k) as [|p plan]; [done|].
  destruct (kernel_ids k !! pl_handle p) as [c|] eqn:Hc; [|done]. case_bool_decide as H; [|done].
  destruct H as (Hu & Hm & Hok & Hnew). intros [= <- <- <-]. exists (pl_handle p), c. cbn.
  destruct (kernel_ids_Some _ _ _ Hc) as (_ & _ & Heq). do 4 (split; [done|]).
  rewrite kernel_ids_ok by done. rewrite Heq. case_decide as Hreq.
  - rewrite bool_decide_eq_true_2 in * by done. split; [by apply Hnew|done].
  - by rewrite bool_decide_eq_false_2 by done.
Qed.
Next Obligation.
  cbn. intros _ h uid _ k ret k'. unfold accept_entry. destruct (kernel_ids k !! h) as [c|] eqn:Hc; intros [= _ <-]; [|by left].
  destruct (kernel_ids_Some _ _ _ Hc) as (Hk & Hh & Heq). right. exists c. split; [done|].
  rewrite kernel_ids_ok; [by rewrite Heq|]. apply map_Forall_insert_2; [by apply (Hk h c Hh)|done].
Qed.
Next Obligation.
  cbn. intros l k. eexists _, k. split; [done|]. pose proof (is_fresh (C := gset Z) ({[0]} ∪ l)). set_solver.
Qed.
