(* ===== verification/CmaSystem.v ===== *)
(** * The connection manager as threads use it

    The step relation interleaves the calls of any number of threads.  Calls that
    wait for other threads, [rdma_get_cm_event] and [rdma_destroy_id], are split where
    they wait; the others run at once.  Identifiers report on channels the application
    made ([sync] is 0). *)

From S2P Require Import Prelude FfTypes Wire Indexer Attrs Marshall Cma CmaConn CmaEvents CmaDemo.

(** ** Calls on one identifier *)
Inductive cm_call :=
  | Bind (addr : list Z) | ResolveAddr (src : option (list Z)) (dst : list Z) (timeout_ms : Z)
  | ResolveRoute (timeout_ms : Z) | SetOption (level optname : Z) (optval : list Z)
  | CreateQp (pd : option Z) (a : qp_attr) | DestroyQp | Connect (param : option rdma_conn_param)
  | Listen (backlog : Z) | GetRequest | Disconnect | Migrate (channel : Z).

Section Calls.
Context {K : Type} `{!CmEnv K, !CmLaws K} (af_ib_support : bool) (abi_ver : Z) (fuel : nat).

(** [Migrate] stops where [rdma_migrate_id] starts to wait. *)
Definition exec_call (c : cm_call) (p : Z) : M K () :=
  match c with
  | Bind addr => rdma_bind_addr af_ib_support p addr ;; mret ()
  | ResolveAddr src dst t => rdma_resolve_addr af_ib_support fuel p src dst t ;; mret ()
  | ResolveRoute t => rdma_resolve_route af_ib_support fuel p t ;; mret ()
  | SetOption l n v => rdma_set_option p l n v ;; mret ()
  | CreateQp pd a => rdma_create_qp abi_ver fuel p pd a ;; mret ()
  | DestroyQp => rdma_destroy_qp p
  | Connect prm => rdma_connect af_ib_support fuel p prm ;; mret ()
  | Listen n => rdma_listen af_ib_support p n ;; mret ()
  | GetRequest => rdma_get_request af_ib_support abi_ver fuel p ;; mret ()
  | Disconnect => rdma_disconnect af_ib_support fuel p ;; mret ()
  | Migrate c => migrate_begin p (Some c) ;; mret ()
  end.

(** [s_fetched]: responses received by a thread in [rdma_get_cm_event] and not processed
    yet, by event block.  [s_dying]: identifiers in [rdma_destroy_id], with the
    number of events it waits for. *)
Record sys := mkSys { s_cma : cma K; s_fetched : fetched; s_dying : gmap Z Z }.

Inductive cm_step : sys → sys → Prop :=
  | step_create channel context ps t r s s' F D :
      rdma_create_id2 (Some channel) context ps t s = Ok (r, s') → granted s s' r →
      cm_step (mkSys s F D) (mkSys s' F D)
  | step_call c p s s' F D :
      is_Some (c_ids s !! p) → D !! p = None → exec_call c p s = Ok ((), s') →
      cm_step (mkSys s F D) (mkSys s' F D)
  | step_accept param p r s s' F D :
      is_Some (c_ids s !! p) → D !! p = None → rdma_accept af_ib_support fuel p param s = Ok (r, s') →
      cm_step (mkSys s F D) (mkSys s' F D)
  (** a thread enters [rdma_get_cm_event] *)
  | step_wait e s s' F D :
      new_event s = Ok (Some e, s') → cm_step (mkSys s F D) (mkSys s' F D)
  (** a response arrives in an event block that waits for one *)
  | step_fetch channel e v r s s' F D :
      c_events s !! e = Some v → ev_id_priv v = None → F !! e = None → fetch_event channel e s = Ok (r, s') →
      cm_step (mkSys s F D) (mkSys s' (<[e := r]> F) D)
  | step_deliver e r s s' F D :
      F !! e = Some r → process_event af_ib_support e r s = Ok (Deliver, s') →
      cm_step (mkSys s F D) (mkSys s' (delete e F) D)
  (** the loop starts again, with the [memset] *)
  | step_retry e r s s' s'' F D :
      F !! e = Some r → process_event af_ib_support e r s = Ok (Retry, s') →
      set_event e (λ _, blank_event) s' = Ok ((), s'') →
      cm_step (mkSys s F D) (mkSys s'' (delete e F) D)
  | step_ack e v p s s' F D :
      c_events s !! e = Some v → ev_id_priv v = Some p → F !! e = None → rdma_ack_cm_event e s = Ok ((), s') →
      cm_step (mkSys s F D) (mkSys s' F D)
  (** [rdma_destroy_id] up to its wait, and from there *)
  | step_destroy p n s s' F D :
      is_Some (c_ids s !! p) → D !! p = None → destroy_begin p s = Ok (n, s') →
      cm_step (mkSys s F D) (mkSys s' F (<[p := n]> D))
  | step_free p n s s' F D :
      D !! p = Some n → (wait_completed p n ;; ucma_free_id p) s = Ok ((), s') →
      cm_step (mkSys s F D) (mkSys s' F (delete p D)).

(** The library before any identifier was made. *)
Definition cm_initial (x : sys) : Prop :=
  c_ids (s_cma x) = ∅ ∧ c_events (s_cma x) = ∅ ∧ ucma_idm (s_cma x) = ∅ ∧ k_ids (c_env (s_cma x)) = ∅ ∧
  s_fetched x = ∅ ∧ s_dying x = ∅.
End Calls.

(** ** Calls on an identifier that reports on a shared channel *)
Section Tame.
Context {K : Type} `{!CmEnv K, !CmLaws K} (af_ib_support : bool) (abi_ver : Z) (fuel : nat).
Implicit Types (s : cma K) (p : Z).

Definition plain s : Prop := ∀ q x, b_ids (view s) !! q = Some x → a_sync x = false.

Definition tame {A} p (m : M K A) : Prop :=
  ∀ s, plain s → is_Some (b_ids (view s) !! p) → fine (λ _ s', view s' = view s) (m s).

Lemma tame_calm {A} p (m : M K A) : calm {[p]} ∅ m → tame p m.
Proof. intros Hm s _ Hp. by apply (calm_use_id m p). Qed.

Lemma tame_bind {A B} p (m : M K A) (f : A → M K B) : tame p m → (∀ a, tame p (f a)) → tame p (m ≫= f).
Proof.
  intros Hm Hf s Hs Hp. eapply fine_bind; [by apply Hm|]. cbv beta. intros a s' Hv.
  eapply fine_mono; [|apply (Hf a s')].
  - cbv beta. intros. congruence.
  - unfold plain. by rewrite Hv.
  - by rewrite Hv.
Qed.

Lemma tame_complete p : tame p (ucma_complete af_ib_support fuel p).
Proof.
  intros s Hs [a Ha]. destruct (view_id_Some _ _ _ Ha) as (y & Hy & ->). unfold ucma_complete.
  eapply fine_bind; [by apply get_id_fine|]. intros ? ? [-> ->].
  change (sync y) with (a_sync (acct y)). by rewrite (Hs p _ Ha).
Qed.

(** Assignments that are harmless when [sync] is 0. *)
Lemma tame_set_id p f : (∀ x, sync x = false → acct (f x) = acct x) → tame p (set_id p f).
Proof.
  intros Hf s Hs [a Ha]. destruct (view_id_Some _ _ _ Ha) as (y & Hy & ->).
  eapply fine_mono; [|by apply (set_id_fine p)]. cbv beta. intros _ s' ->.
  rewrite Hf by apply (Hs p _ Ha). unfold set_ids. rewrite insert_id by done. by destruct (view s).
Qed.

Lemma copy_conn_param_clean x c n q : ucma_copy_conn_param_to_kern x c n q ≠ UB dangling.
Proof.
  unfold ucma_copy_conn_param_to_kern, write_private.
  repeat (first [done|case_match|progress cbn]).
Qed.
End Tame.

#[export] Hint Resolve copy_conn_param_clean copy_addr_clean calm_bind_addr calm_set_option calm_create_qp calm_destroy_qp
  calm_listen calm_dev_limit calm_valid_param calm_shutdown calm_store_dst calm_set_ib_route : calm.

Ltac tame_step :=
  match goal with
  | |- tame _ (mbind _ _) => apply tame_bind; [|intros ?]
  | |- tame _ (match ?x with _ => _ end) => destruct x
  | |- tame _ (ucma_complete _ _ _) => apply tame_complete
  | |- tame _ _ => apply tame_calm; solve [calm_tac | auto with calm set_solver]
  end.
Ltac tame_tac := repeat tame_step.

Section TameCalls.
Context {K : Type} `{!CmEnv K, !CmLaws K} (af_ib_support : bool) (abi_ver : Z) (fuel : nat).
Implicit Types (s : cma K) (p : Z).

Lemma tame_migrate p c : tame p (migrate_begin p (Some c)).
Proof.
  intros s Hs [a Ha]. destruct (view_id_Some _ _ _ Ha) as (y & Hy & ->). unfold migrate_begin.
  eapply fine_bind; [by apply get_id_fine|]. intros ? ? [-> ->].
  assert (sync y = false) as Hsync by apply (Hs p _ Ha). rewrite Hsync. cbn [andb].
  enough (tame p (old ← router_channel (id_channel (p_id y)); fd ← router_channel c;
     '(_, n) ← env (r_migrate_id fd (handle y) old); mret () ;;
      set_id p (λ x, with_sync false (with_pub (with_channel c) x)) ;; mret (inr n : Z + Z))) as Ht
    by (apply Ht; [done|by eexists]).
  tame_tac. apply tame_set_id. intros x Hx. unfold acct, with_sync. cbn. by rewrite Hx.
Qed.

Lemma tame_get_request p : tame p (rdma_get_request af_ib_support abi_ver fuel p).
Proof.
  intros s Hs [a Ha]. destruct (view_id_Some _ _ _ Ha) as (y & Hy & ->). unfold rdma_get_request.
  eapply fine_bind; [by apply get_id_fine|]. intros ? ? [-> ->].
  by assert (sync y = false) as -> by apply (Hs p _ Ha).
Qed.

Lemma tame_exec c p : tame p (exec_call af_ib_support abi_ver fuel c p).
Proof.
  destruct c; cbn [exec_call];
    unfold rdma_resolve_addr, rdma_resolve_addr2, rdma_resolve_route, rdma_connect, rdma_disconnect;
    try (apply tame_bind; [apply tame_migrate || apply tame_get_request|intros ?]); tame_tac;
    (apply tame_calm, calm_lift; repeat case_match; auto with calm; done).
Qed.

Lemma acc_plain s F D : acc_ok (view s) F D → plain s.
Proof. intros Hok q x Hx. by apply (ok_plain _ _ _ Hok q x Hx). Qed.

(** Acceptance gives the kernel the pointer of an identifier. *)
Lemma move_accept b F D p x c :
  acc_ok b F D → b_ids b !! p = Some x → D !! p = None → b_k b !! a_handle x = Some c →
  (∀ e r, F !! e = Some r → conn_req r → er_id r ≠ a_handle x) →
  acc_ok (set_k <[a_handle x := mkCtx p (kc_reported c)]> b) F D.
Proof.
  intros Hok Hx HD Hc Hreq. destruct (ok_plain _ _ _ Hok p x Hx) as (_ & _ & _ & _ & Hp0). split; cbn.
  - intros q y Hy Hq. destruct (ok_live _ _ _ Hok q y Hy Hq) as (c' & Hc' & Hu & Hr).
    destruct (decide (a_handle y = a_handle x)) as [Heq|Hne].
    + assert (q = p) as -> by (by eapply (ok_inj _ _ _ Hok)). assert (y = x) as -> by congruence.
      rewrite Hc in Hc'. injection Hc' as <-. exists (mkCtx p (kc_reported c)). rewrite lookup_insert_eq. auto.
    + exists c'. by rewrite lookup_insert_ne.
  - apply (ok_dying _ _ _ Hok).
  - apply (ok_inj _ _ _ Hok).
  - intros h c'. rewrite lookup_insert_Some. intros [[<- <-]|[_ Hc']] Hu; [by exists x|by apply (ok_uid _ _ _ Hok)].
  - apply (ok_fetched _ _ _ Hok).
  - intros e r HF Hr. destruct (ok_req _ _ _ Hok e r HF Hr) as (Hk & Hl & Hi). split; [|done].
    rewrite lookup_insert_ne; [done|]. intros Heq. by apply (Hreq e r HF Hr).
  - apply (ok_event _ _ _ Hok).
  - apply (ok_mc _ _ _ Hok).
  - apply (ok_plain _ _ _ Hok).
  - intros h c'. rewrite lookup_insert_Some. intros [[<- <-]|[_ Hc']]; [cbn; by apply (ok_range _ _ _ Hok)|].
    by apply (ok_range _ _ _ Hok).
  - apply (ok_table _ _ _ Hok).
Qed.

(** Calls after which the accounts are in order. *)
Definition safe {A} p (m : M K A) : Prop :=
  ∀ s F D, acc_ok (view s) F D → is_Some (b_ids (view s) !! p) → D !! p = None →
    fine (λ _ s', acc_ok (view s') F D) (m s).

Lemma safe_tame {A} p (m : M K A) : tame p m → safe p m.
Proof.
  intros Hm s F D Hok Hp _. eapply fine_mono; [|by apply Hm; [eapply acc_plain|]]. cbv beta. by intros _ s' ->.
Qed.

Lemma safe_bind {A B} p (m : M K A) (f : A → M K B) : tame p m → (∀ a, safe p (f a)) → safe p (m ≫= f).
Proof.
  intros Hm Hf s F D Hok Hp HD. eapply fine_bind; [by apply Hm; [eapply acc_plain|]|].
  cbv beta. intros a s' Hv. apply Hf; by rewrite ?Hv.
Qed.

Lemma safe_send_accept p prm : safe p (send_accept af_ib_support fuel p prm).
Proof.
  intros s F D Hok [a Ha] HD. destruct (view_id_Some _ _ _ Ha) as (y & Hy & ->). unfold send_accept.
  eapply fine_bind; [by apply get_id_fine|]. intros ? ? [-> ->].
  assert (is_Some (b_ids (view s) !! p)) as Hp by (by eexists).
  do 3 (eapply fine_bind; [apply (calm_use_id _ p); [calm_tac; auto with calm set_solver|rewrite ?Hv; done]|];
        cbv beta; intros ? ? Hv'; try rewrite Hv in Hv'; try clear Hv; rename Hv' into Hv).
  apply (fine_bind _ _ (λ _ s', acc_ok (view s') F D ∧ b_ids (view s') = b_ids (view s))).
  { unfold env. destruct (r_accept _ _ _ _ _) as [ret k'] eqn:E. cbn.
    assert (∀ k, k_ids k' = k → acc_ok (set_k (λ _, k) (view s)) F D →
              acc_ok (view (mkCma (c_ids s'1) (c_events s'1) (c_mcs s'1) (ucma_idm s'1) (cma_dev_array s'1)
                              (event_channel_map s'1) k')) F D ∧ acct <$> c_ids s'1 = acct <$> c_ids s) as Hdone.
    { intros k <- Hok'. injection Hv as H1 H2 H3 H4. split; [|done]. unfold view. cbn. by rewrite H1, H2, H3. }
    change (k_ids (c_env s'1)) with (b_k (view s'1)) in *.
    destruct (law_accept _ _ _ _ _ _ _ E) as [Hk|(c & Hc & Hk)]; apply (Hdone _ Hk); clear Hdone;
      change (k_ids (c_env s'1)) with (b_k (view s'1)) in *; rewrite Hv in *.
    - unfold set_k. by destruct (view s).
    - apply (move_accept (view s) F D p (acct y)); try done. intros e r HF Hr Heq.
      destruct (ok_req _ _ _ Hok e r HF Hr) as (_ & Hl & _). by apply (Hl p (acct y) Ha HD). }
  intros _ s4 [Hok4 Hi4]. case_match.
  - done.
  - eapply safe_tame; [apply tame_complete|done|by rewrite Hi4|done].
Qed.

Lemma safe_accept p prm : safe p (rdma_accept af_ib_support fuel p prm).
Proof.
  unfold rdma_accept.
  repeat first [apply safe_send_accept | apply safe_bind; [solve [tame_tac]|intros ?] | apply safe_tame; solve [tame_tac] | case_match].
Qed.
End TameCalls.

(** ** Every reachable state *)
Section Reachable.
Context {K : Type} `{!CmEnv K, !CmLaws K} (af_ib_support : bool) (abi_ver : Z) (fuel : nat).
Implicit Types (s : cma K) (p e : Z) (F : fetched) (D : gmap Z Z) (x : sys (K := K)).

Abbreviation step := (cm_step (K := K) af_ib_support abi_ver fuel).

Lemma fine_Ok {A} (Q : A → cma K → Prop) (m : M K A) s a s' : fine Q (m s) → m s = Ok (a, s') → Q a s'.
Proof. intros Hf Hm. by rewrite Hm in Hf. Qed.

Lemma live_view s p : is_Some (c_ids s !! p) → is_Some (b_ids (view s) !! p).
Proof. rewrite view_ids. by intros [y ->]. Qed.

Lemma new_event_keeps s e s' F D : acc_ok (view s) F D → new_event s = Ok (Some e, s') → acc_ok (view s') F D.
Proof.
  intros Hok. unfold new_event, mbind, M_bind, malloc, env.
  destruct (law_malloc (live s) (c_env s)) as (q & k & -> & Hq & _ & Hk). cbn. intros [= <- <-].
  unfold live in Hq. apply not_elem_of_union in Hq as [[_ Hq%not_elem_of_dom]%not_elem_of_union _].
  pose proof (move_new (view s) F D q Hok) as Hm. unfold view, set_events in *. cbn in *.
  rewrite fmap_insert, Hk. apply Hm. by rewrite lookup_fmap, Hq.
Qed.

Lemma step_keeps x x' :
  step x x' → acc_ok (view (s_cma x)) (s_fetched x) (s_dying x) → acc_ok (view (s_cma x')) (s_fetched x') (s_dying x').
Proof.
  intros Hstep Hok. destruct Hstep; cbn in *.
  - exact (fine_Ok _ _ _ _ _ (create_keeps channel context ps t s F D Hok) H H0).
  - exact (fine_Ok _ _ _ _ _ (safe_tame p _ (tame_exec _ _ _ c p) s F D Hok (live_view _ _ H) H0) H1).
  - exact (fine_Ok _ _ _ _ _ (safe_accept _ _ p param s F D Hok (live_view _ _ H) H0) H1).
  - by eapply new_event_keeps.
  - refine (fine_Ok (λ r s', acc_ok (view s') (<[e := r]> F) D) (fetch_event channel e) s r s' _ _); [|done].
    apply (fetch_keeps _ e s F D (tag v)); try done. by rewrite view_events, H.
  - by destruct (fine_Ok _ _ _ _ _ (process_keeps af_ib_support e r s F D Hok H) H0).
  - pose proof (fine_Ok _ _ _ _ _ (process_keeps af_ib_support e r s F D Hok H) H0) as Hr. cbn in Hr.
    unfold set_event, mbind, M_bind, get_event, lift in H1. destruct (c_events s' !! e); [|done]. cbn in H1.
    injection H1 as <-. unfold view, set_events in *. cbn in *. by rewrite fmap_insert.
  - destruct (ack_ok e p s F D Hok) as (s2 & Hs2 & Hok2); [done| |congruence].
    rewrite view_events, H. cbn. unfold tag. f_equal. f_equal; [done|].
    apply (ok_mc _ _ _ Hok e (tag v)). by rewrite view_events, H.
  - apply live_view in H as [a Ha]. by destruct (fine_Ok _ _ _ _ _ (destroy_begin_keeps p s F D a Hok Ha H0) H1) as (_ & _ & _ & ?).
  - destruct (ok_dying _ _ _ Hok p n H) as (a & Ha & _).
    refine (fine_Ok (λ _ s', acc_ok (view s') F (delete p D)) _ s () s' _ H0).
    eapply fine_bind; [by apply (wait_fine p n s a)|]. intros _ ? [-> Hle].
    eapply fine_mono; [|by eapply free_keeps]. cbv beta. by intros _ s2 [_ ?].
Qed.

Lemma initial_ok x : cm_initial x → acc_ok (view (s_cma x)) (s_fetched x) (s_dying x).
Proof.
  intros (Hi & He & Ht & Hk & HF & HD). unfold view. rewrite Hi, He, Ht, Hk, HF, HD.
  split; cbn; try (intros *; by rewrite ?fmap_empty, ?lookup_empty).
  exists ∅. split; [|intros *; by rewrite fmap_empty, lookup_empty].
  split; [done|]. split; [by intros i [? ?]|]. intros i _. done.
Qed.

Lemma reachable_ok x0 x :
  cm_initial x0 → rtc step x0 x → acc_ok (view (s_cma x)) (s_fetched x) (s_dying x).
Proof. intros H0%initial_ok Hr. induction Hr; eauto using step_keeps. Qed.

(** The identifier whose event the block [e] holds, processed or not. *)
Definition event_of F e (v : cma_event) : option Z :=
  match F !! e with Some r => Some (er_uid r) | None => ev_id_priv v end.

End Reachable.

(** ** Running a schedule *)
Inductive action :=
  | ACreate (channel context ps t : Z) | ACall (c : cm_call) (p : Z) | AAccept (param : option rdma_conn_param) (p : Z)
  | AWait | AFetch (channel e : Z) | ADeliver (e : Z) | AAck (e : Z) | ADestroy (p : Z) | AFree (p : Z).

Section Run.
Context {K : Type} `{!CmEnv K, !CmLaws K} (af_ib_support : bool) (abi_ver : Z) (fuel : nat).

#[export] Instance granted_dec (s s' : cma K) r : Decision (granted s s' r).
Proof.
  refine (match r.2 as o return r.2 = o → Decision (granted s s' r) with
  | None => λ E, left _
  | Some p => λ E,
      match c_ids s' !! p as o return c_ids s' !! p = o → Decision (granted s s' r) with
      | None => λ Hy, right _
      | Some y => λ Hy, cast_if (decide (k_ids (c_env s) !! handle y = None ∧ is_Some (k_ids (c_env s') !! handle y)))
      end eq_refl
  end eq_refl).
  - intros q Hq. assert (q = p) as -> by congruence. by exists y.
  - intros H. destruct (H p E) as (y' & Hy' & ?). assert (y' = y) as -> by congruence. done.
  - intros H. destruct (H p E) as (y' & Hy' & ?). congruence.
  - intros p Hp. congruence.
Defined.

Definition act (a : action) (x : sys (K := K)) : option sys :=
  let '(mkSys s F D) := x in
  match a with
  | ACreate channel context ps t =>
      match rdma_create_id2 (Some channel) context ps t s with
      | Ok (r, s') => if decide (granted s s' r) then Some (mkSys s' F D) else None
      | _ => None
      end
  | ACall c p =>
      match c_ids s !! p, D !! p, exec_call af_ib_support abi_ver fuel c p s with
      | Some _, None, Ok (tt, s') => Some (mkSys s' F D)
      | _, _, _ => None
      end
  | AAccept param p =>
      match c_ids s !! p, D !! p, rdma_accept af_ib_support fuel p param s with
      | Some _, None, Ok (_, s') => Some (mkSys s' F D)
      | _, _, _ => None
      end
  | AWait => match new_event s with Ok (Some _, s') => Some (mkSys s' F D) | _ => None end
  | AFetch channel e =>
      match c_events s !! e, F !! e, fetch_event channel e s with
      | Some v, None, Ok (r, s') => if decide (ev_id_priv v = None) then Some (mkSys s' (<[e := r]> F) D) else None
      | _, _, _ => None
      end
  | ADeliver e =>
      match F !! e with
      | Some r =>
          match process_event af_ib_support e r s with
          | Ok (Deliver, s') => Some (mkSys s' (delete e F) D)
          | Ok (Retry, s') =>
              match set_event e (λ _, blank_event) s' with
              | Ok (tt, s'') => Some (mkSys s'' (delete e F) D)
              | _ => None
              end
          | _ => None
          end
      | None => None
      end
  | AAck e =>
      match c_events s !! e, F !! e, rdma_ack_cm_event e s with
      | Some v, None, Ok (tt, s') => if decide (is_Some (ev_id_priv v)) then Some (mkSys s' F D) else None
      | _, _, _ => None
      end
  | ADestroy p =>
      match c_ids s !! p, D !! p, destroy_begin p s with
      | Some _, None, Ok (n, s') => Some (mkSys s' F (<[p := n]> D))
      | _, _, _ => None
      end
  | AFree p =>
      match D !! p with
      | Some n =>
          match (wait_completed p n ;; ucma_free_id p) s with
          | Ok (tt, s') => Some (mkSys s' F (delete p D))
          | _ => None
          end
      | None => None
      end
  end.

Fixpoint run (l : list action) (x : sys (K := K)) : option sys :=
  match l with
  | [] => Some x
  | a :: l => match act a x with Some x => run l x | None => None end
  end.

Lemma act_step a x x' : act a x = Some x' → cm_step af_ib_support abi_ver fuel x x'.
Proof.
  destruct x as [s F D], a; cbn -[mbind mret]; intros H; repeat case_match; simplify_eq; try done;
    try (by econstructor; eauto).
  match goal with H : is_Some _ |- _ => destruct H end. by eapply step_ack.
Qed.

Lemma run_reaches l x x' : run l x = Some x' → rtc (cm_step af_ib_support abi_ver fuel) x x'.
Proof.
  revert x. induction l as [|a l IH]; intros x; cbn; [by intros [= ->]|].
  destruct (act a x) as [y|] eqn:E; [|done]. intros H. eapply rtc_l; [by eapply act_step|by apply IH].
Qed.
End Run.

(** One device; an identifier whose address is resolved, and which is destroyed while the
    event is in the application's hands. *)
Definition start : sys (K := kernel) :=
  mkSys (mkCma ∅ ∅ ∅ ∅ [mkDev a_guid None None None [] 0 0 0 0] ∅
               (mkKernel ∅ 0 [mkPlan 0 RDMA_CM_EVENT_ADDR_RESOLVED 0])) ∅ ∅.

Lemma start_initial : cm_initial start.
Proof. repeat split. Qed.

Definition an_inet : list Z := [2; 0; 0; 0; 10; 0; 0; 1] ++ replicate 8 0.

Definition until_destroy : list action :=
  [ACreate 3 0 RDMA_PS_TCP IBV_QPT_RC; ACall (ResolveAddr None an_inet 100) 1; AWait; AFetch 3 2; ADeliver 2; ADestroy 1].

Definition reached (l : list action) : sys := default start (run false 5 10 l start).

Lemma reached_rtc l : bool_decide (is_Some (run false 5 10 l start)) = true → rtc (cm_step false 5 10) start (reached l).
Proof. intros [x Hx]%bool_decide_eq_true. unfold reached. rewrite Hx. by eapply run_reaches. Qed.

