(* ===== verification/CmaDevices.v ===== *)
(** * The connection manager: devices and their references

    An identifier that is bound to a device holds a reference to it; the device's
    protection domain lives as long as there is one.  Together with the accounts of
    events this gives that [rdma_destroy_id] returns. *)

From S2P Require Import Prelude FfTypes Wire Indexer Attrs Marshall Cma CmaConn CmaEvents CmaDemo CmaSystem.

Definition bound_to (i : nat) (p : Z) (x : cma_id_private) : bool := bool_decide (p_dev x = Some i).

(** [ids] are bound to devices of [devs], which count them. *)
Record refs_ok (ids : gmap Z cma_id_private) (devs : list cma_device) : Prop := {
  r_bound p x i : ids !! p = Some x → p_dev x = Some i → is_Some (devs !! i);
  r_count i d : devs !! i = Some d → d_refcnt d = count (bound_to i) ids;
  r_pd i d : devs !! i = Some d → 0 < d_refcnt d → is_Some (d_pd d)
}.

Section Keeps.
Context {K : Type} `{!CmEnv K}.
Implicit Types (s : cma K) (p e : Z).

Definition dev_ok s : Prop := refs_ok (c_ids s) (cma_dev_array s).

Definition kept {A} (m : M K A) : Prop := ∀ s a s', dev_ok s → m s = Ok (a, s') → dev_ok s'.

(** Calls that touch neither. *)
Definition aside {A} (m : M K A) : Prop :=
  ∀ s a s', m s = Ok (a, s') → c_ids s' = c_ids s ∧ cma_dev_array s' = cma_dev_array s.

Lemma bind_Ok {A B} (m : M K A) (f : A → M K B) s b s' :
  (m ≫= f) s = Ok (b, s') ↔ ∃ a s1, m s = Ok (a, s1) ∧ f a s1 = Ok (b, s').
Proof.
  unfold mbind, M_bind. rewrite res_bind_Ok. split.
  - intros ([a s1] & ? & ?). by exists a, s1.
  - intros (a & s1 & ? & ?). by exists (a, s1).
Qed.

Lemma kept_bind {A B} (m : M K A) (f : A → M K B) : kept m → (∀ a, kept (f a)) → kept (m ≫= f).
Proof. intros Hm Hf s b s' Hs (a & s1 & H1 & H2)%bind_Ok. eapply Hf; [|done]. by eapply Hm. Qed.

Lemma kept_aside {A} (m : M K A) : aside m → kept m.
Proof. intros Hm s a s' Hs Hr. destruct (Hm _ _ _ Hr) as [Hi Hd]. unfold dev_ok. by rewrite Hi, Hd. Qed.

Lemma kept_blocked {A} (m : M K A) : (∀ s a, m s ≠ Ok a) → kept m.
Proof. intros Hm s a s' _ Hr. by apply Hm in Hr. Qed.

Lemma aside_ret {A} (a : A) : aside (mret a).
Proof. by intros s a' s' [= _ <-]. Qed.
Lemma aside_gets {A} (f : cma K → A) : aside (gets f).
Proof. by intros s a' s' [= _ <-]. Qed.
Lemma aside_junk : aside junk.
Proof. by intros s a' s' [= _ <-]. Qed.
Lemma aside_lift {A} (r : res A) : aside (lift r).
Proof. intros s a s'. unfold lift. destruct r; cbn; try done. by intros [= _ <-]. Qed.
Lemma aside_env {A} (f : K → A * K) : aside (env f).
Proof. intros s a s'. unfold env. destruct (f (c_env s)). by intros [= _ <-]. Qed.
Lemma aside_env_ (f : K → K) : aside (env_ f).
Proof. apply aside_env. Qed.
Lemma aside_env_wait {A} (f : K → option (A * K)) : aside (env_wait f).
Proof. intros s a s'. unfold env_wait. destruct (f (c_env s)); [|done]. apply aside_env. Qed.
Lemma aside_malloc : aside malloc.
Proof. intros s a s'. apply aside_env. Qed.
Lemma aside_upd_events f : aside (upd_events f).
Proof. by intros s a s' [= _ <-]. Qed.
Lemma aside_upd_idm f : aside (upd_idm f).
Proof. by intros s a s' [= _ <-]. Qed.
Lemma aside_upd_chans f : aside (upd_chans f).
Proof. by intros s a s' [= _ <-]. Qed.
Lemma aside_upd_mcs f : aside (upd_mcs f).
Proof. by intros s a s' [= _ <-]. Qed.
Lemma aside_get_id p : aside (get_id p).
Proof. intros s a s'. apply aside_lift. Qed.
Lemma aside_get_event p : aside (get_event p).
Proof. intros s a s'. apply aside_lift. Qed.
Lemma aside_get_mc p : aside (get_mc p).
Proof. intros s a s'. apply aside_lift. Qed.
Lemma aside_get_dev i : aside (get_dev i).
Proof. intros s a s'. apply aside_lift. Qed.

Lemma kept_set_event e f : kept (set_event e f).
Proof. apply kept_bind; [apply kept_aside, aside_get_event|]. intros. apply kept_aside, aside_upd_events. Qed.
Lemma kept_set_mc e f : kept (set_mc e f).
Proof. apply kept_bind; [apply kept_aside, aside_get_mc|]. intros. apply kept_aside, aside_upd_mcs. Qed.

Lemma get_id_inv p s x s' : get_id p s = Ok (x, s') → s' = s ∧ c_ids s !! p = Some x.
Proof. unfold get_id, lift. destruct (c_ids s !! p); cbn; [|done]. by intros [= <- <-]. Qed.

Lemma get_dev_inv i s d s' : get_dev i s = Ok (d, s') → s' = s ∧ cma_dev_array s !! i = Some d.
Proof. unfold get_dev, lift. destruct (cma_dev_array s !! i); cbn; [|done]. by intros [= <- <-]. Qed.

Lemma set_id_inv p f s s' :
  set_id p f s = Ok ((), s') →
  ∃ x, c_ids s !! p = Some x ∧ c_ids s' = <[p := f x]> (c_ids s) ∧ cma_dev_array s' = cma_dev_array s.
Proof.
  unfold set_id. rewrite bind_Ok. intros (x & s1 & [-> Hx]%get_id_inv & [= <-]). by exists x.
Qed.

Lemma set_dev_inv i f s s' :
  set_dev i f s = Ok ((), s') →
  ∃ d, cma_dev_array s !! i = Some d ∧ cma_dev_array s' = <[i := f d]> (cma_dev_array s) ∧ c_ids s' = c_ids s.
Proof.
  unfold set_dev. rewrite bind_Ok. intros (x & s1 & [-> Hx]%get_dev_inv & [= <-]). by exists x.
Qed.

(** An identifier changes without changing its device. *)
Lemma refs_update ids devs p x y :
  refs_ok ids devs → ids !! p = Some x → p_dev y = p_dev x → refs_ok (<[p := y]> ids) devs.
Proof.
  intros [Hb Hc Hp] Hx Hy. split.
  - intros q z i. rewrite lookup_insert_Some. intros [[<- <-]|[_ Hz]]; [rewrite Hy|]; by eapply Hb.
  - intros i d Hd. rewrite (Hc i d Hd). symmetry.
    rewrite (count_off (bound_to i) (bound_to i) ids _ p) by (intros; rewrite ?lookup_insert_ne by done; done).
    unfold contrib. rewrite lookup_insert_eq, Hx. unfold bound_to. rewrite Hy. lia.
  - exact Hp.
Qed.

Lemma kept_set_id p f : (∀ x, p_dev (f x) = p_dev x) → kept (set_id p f).
Proof.
  intros Hf s a s' Hs Hr. destruct a. apply set_id_inv in Hr as (x & Hx & Hi & Hd). unfold dev_ok. rewrite Hi, Hd.
  by eapply refs_update.
Qed.

(** A device changes without its count and its protection domain. *)
Lemma kept_set_dev i f : (∀ d, d_refcnt (f d) = d_refcnt d ∧ d_pd (f d) = d_pd d) → kept (set_dev i f).
Proof.
  intros Hf s a s' Hs Hr. destruct a. apply set_dev_inv in Hr as (d & Hd & Hds & Hi). unfold dev_ok. rewrite Hi, Hds.
  destruct Hs as [Hb Hc Hp]. pose proof (lookup_lt_Some _ _ _ Hd) as Hlt. destruct (Hf d) as [Hr Hpd]. split.
  - intros p x j Hx Hj. apply lookup_lt_is_Some. rewrite length_insert. apply lookup_lt_is_Some. by eapply Hb.
  - intros j d'. rewrite list_lookup_insert_Some. intros [(<- & <- & _)|[_ Hd']]; [rewrite Hr|]; by eapply Hc.
  - intros j d'. rewrite list_lookup_insert_Some. intros [(<- & <- & _)|[_ Hd']]; [rewrite Hr, Hpd|]; by eapply Hp.
Qed.
End Keeps.

#[export] Hint Resolve aside_ret aside_gets aside_junk aside_lift aside_env aside_env_ aside_env_wait aside_malloc
  aside_upd_events aside_upd_idm aside_upd_chans aside_upd_mcs aside_get_id aside_get_event aside_get_mc aside_get_dev
  : calm.

(** ** References come and go *)
Section References.
Implicit Types (ids : gmap Z cma_id_private) (devs : list cma_device).

Lemma count_swap ids ids' p i :
  (∀ q, q ≠ p → ids' !! q = ids !! q) →
  count (bound_to i) ids' = count (bound_to i) ids - contrib (bound_to i) ids p + contrib (bound_to i) ids' p.
Proof. intros H. by apply count_off. Qed.

Lemma refs_set_dev ids ids' devs i d d' :
  refs_ok ids devs → devs !! i = Some d →
  (∀ q x j, ids' !! q = Some x → p_dev x = Some j → j = i ∨ ∃ y, ids !! q = Some y ∧ p_dev y = Some j) →
  d_refcnt d' = count (bound_to i) ids' → (0 < d_refcnt d' → is_Some (d_pd d')) →
  (∀ j, j ≠ i → count (bound_to j) ids' = count (bound_to j) ids) →
  refs_ok ids' (<[i := d']> devs).
Proof.
  intros [Hb Hc Hp] Hd Hids Hr Hpd Hj. pose proof (lookup_lt_Some _ _ _ Hd) as Hlt. split.
  - intros q x j Hx Hxj. apply lookup_lt_is_Some. rewrite length_insert.
    destruct (Hids q x j Hx Hxj) as [->|(y & Hy & Hyj)]; [done|]. apply lookup_lt_is_Some. by eapply Hb.
  - intros j e. rewrite list_lookup_insert_Some. intros [(<- & <- & _)|[Hne He]]; [done|].
    rewrite Hj by done. by eapply Hc.
  - intros j e. rewrite list_lookup_insert_Some. intros [(<- & <- & _)|[_ He]]; [done|]. by eapply Hp.
Qed.

Lemma refs_bind ids devs p x y i d d' :
  refs_ok ids devs → ids !! p = Some x → p_dev x = None → p_dev y = Some i → devs !! i = Some d →
  d_refcnt d' = d_refcnt d + 1 → is_Some (d_pd d') → refs_ok (<[p := y]> ids) (<[i := d']> devs).
Proof.
  intros Hok Hx Hn Hy Hd Hr Hpd.
  assert (∀ j, count (bound_to j) (<[p := y]> ids) = count (bound_to j) ids + Z.b2z (bool_decide (i = j))) as Hcount.
  { intros j. rewrite (count_swap ids _ p) by (intros; by rewrite lookup_insert_ne).
    unfold contrib. rewrite lookup_insert_eq, Hx. unfold bound_to. rewrite Hn, Hy.
    repeat case_bool_decide; simplify_eq; cbn; lia. }
  eapply refs_set_dev; try done.
  - intros q z j. rewrite lookup_insert_Some. intros [[<- <-]|[_ Hz]] Hj; [left; congruence|right; by exists z].
  - rewrite Hr, Hcount, (r_count _ _ Hok i d Hd), bool_decide_true; done.
  - intros j Hj. rewrite Hcount, bool_decide_false by congruence. cbn. lia.
Qed.

Lemma refs_unbind ids devs p x i d d' :
  refs_ok ids devs → ids !! p = Some x → p_dev x = Some i → devs !! i = Some d →
  d_refcnt d' = d_refcnt d - 1 → d_pd d' = d_pd d → refs_ok (delete p ids) (<[i := d']> devs).
Proof.
  intros Hok Hx Hi Hd Hr Hpd.
  assert (∀ j, count (bound_to j) (delete p ids) = count (bound_to j) ids - Z.b2z (bool_decide (i = j))) as Hcount.
  { intros j. rewrite (count_swap ids _ p) by (intros; by rewrite lookup_delete_ne).
    unfold contrib. rewrite lookup_delete_eq, Hx. unfold bound_to. rewrite Hi.
    repeat case_bool_decide; simplify_eq; cbn; lia. }
  eapply refs_set_dev; try done.
  - intros q z j [_ Hz]%lookup_delete_Some Hj. right. by exists z.
  - rewrite Hr, Hcount, (r_count _ _ Hok i d Hd), bool_decide_true; done.
  - rewrite Hr, Hpd. intros. eapply (r_pd _ _ Hok); [done|lia].
  - intros j Hj. rewrite Hcount, bool_decide_false by congruence. cbn. lia.
Qed.

Lemma refs_drop ids devs p x : refs_ok ids devs → ids !! p = Some x → p_dev x = None → refs_ok (delete p ids) devs.
Proof.
  intros [Hb Hc Hp] Hx Hn. split; [|intros i d Hd|done].
  - intros q y i [_ Hy]%lookup_delete_Some. by eapply Hb.
  - rewrite (Hc i d Hd). symmetry. rewrite (count_swap ids _ p) by (intros; by rewrite lookup_delete_ne).
    unfold contrib. rewrite lookup_delete_eq, Hx. unfold bound_to. rewrite Hn, bool_decide_false by done. cbn. lia.
Qed.

Lemma refs_add ids devs p y : refs_ok ids devs → ids !! p = None → p_dev y = None → refs_ok (<[p := y]> ids) devs.
Proof.
  intros [Hb Hc Hp] Hx Hn. split; [|intros i d Hd|done].
  - intros q z i. rewrite lookup_insert_Some. intros [[<- <-]|[_ Hz]]; [congruence|by eapply Hb].
  - rewrite (Hc i d Hd), count_insert by done. unfold bound_to. rewrite Hn, bool_decide_false by done. cbn. lia.
Qed.
End References.

(** Splits a call into its steps. *)
Ltac kept_step :=
  match goal with
  | |- kept (mbind _ _) => apply kept_bind; [|intros ?]
  | |- kept (match ?x with _ => _ end) => destruct x
  | |- kept (set_id _ _) => apply kept_set_id; done
  | |- kept (set_event _ _) => apply kept_set_event
  | |- kept (set_mc _ _) => apply kept_set_mc
  | |- kept (set_dev _ _) => apply kept_set_dev; done
  | |- kept (ub _) => by apply kept_blocked
  | |- kept block => by apply kept_blocked
  | |- kept _ => solve [auto with calm]
  | |- kept _ => solve [apply kept_aside; auto with calm]
  end.
Ltac kept_tac := repeat kept_step.

Section KeptCalls.
Context {K : Type} `{!CmEnv K, !CmLaws K} (af_ib_support : bool) (abi_ver : Z) (fuel : nat).
Implicit Types (s : cma K) (p e : Z).

Lemma kept_query_ports v l : kept (query_ports v l).
Proof. induction l; cbn [query_ports]; kept_tac. Qed.
Hint Resolve kept_query_ports : calm.

Lemma kept_init_device i : kept (ucma_init_device i).
Proof. unfold ucma_init_device. kept_tac. Qed.

Lemma query_ports_ids v l s a s' : query_ports v l s = Ok (a, s') → c_ids s' = c_ids s.
Proof.
  revert s a. induction l as [|i l IH]; intros s a; cbn [query_ports]; [by intros [= _ <-]|].
  rewrite bind_Ok. intros ([r ll] & s1 & H1 & (l' & s2 & H2 & [= _ <-])%bind_Ok).
  apply aside_env in H1 as [<- _]. by apply IH in H2.
Qed.

Lemma init_device_ids i s a s' : ucma_init_device i s = Ok (a, s') → c_ids s' = c_ids s.
Proof.
  unfold ucma_init_device. rewrite bind_Ok. intros (d & s1 & [-> _]%get_dev_inv & H).
  destruct (d_verbs d); [by injection H as _ <-|]. apply bind_Ok in H as (o & s2 & H2 & H).
  apply aside_env in H2 as [E2 _]. destruct o as [v|]; [|by injection H as _ <-].
  apply bind_Ok in H as ([r attr] & s3 & H3 & H). apply aside_env in H3 as [E3 _].
  apply bind_Ok in H as (port & s4 & H4 & H).
  assert (c_ids s4 = c_ids s3) as E4.
  { destruct (Z.eqb r 0); [by apply aside_malloc in H4 as [? _]|by injection H4 as _ <-]. }
  destruct port; apply bind_Ok in H as (x & s5 & H5 & H).
  - apply query_ports_ids in H5. apply bind_Ok in H as ([] & s6 & H6 & [= _ <-]).
    apply set_dev_inv in H6 as (d' & _ & _ & E6). congruence.
  - apply aside_env_ in H5 as [E5 _]. injection H as _ <-. congruence.
Qed.
Hint Resolve kept_init_device : calm.

Lemma get_device_kept p x g s ret s' :
  dev_ok s → c_ids s !! p = Some x → p_dev x = None → ucma_get_device p g s = Ok (ret, s') → dev_ok s'.
Proof.
  intros Hs Hx Hn. unfold ucma_get_device. rewrite bind_Ok. intros (o & s1 & [= <- <-] & H).
  destruct (find_device _ _) as [i|]; [|by injection H as _ <-].
  apply bind_Ok in H as (r & s2 & H2 & H). pose proof (kept_init_device i _ _ _ Hs H2) as Hs2.
  apply init_device_ids in H2. rewrite <- H2 in Hx. clear H2 Hs s.
  destruct (Z.eqb r 0); cbn [negb] in H; [|by injection H as _ <-].
  apply bind_Ok in H as (d & s3 & [-> Hd]%get_dev_inv & H).
  apply bind_Ok in H as ([] & s4 & (d4 & Hd4 & Hds4 & Hi4)%set_dev_inv & H). rewrite Hd in Hd4. injection Hd4 as <-.
  pose proof (lookup_lt_Some _ _ _ Hd) as Hlt.
  apply bind_Ok in H as (ok & s5 & H5 & H).
  assert (c_ids s5 = c_ids s2 ∧ ∃ d5, cma_dev_array s5 = <[i := d5]> (cma_dev_array s2) ∧
            (if ok then d_refcnt d5 = d_refcnt d + 1 ∧ is_Some (d_pd d5)
             else d_refcnt d5 = d_refcnt d ∧ d_refcnt d = 0)) as (Hi5 & d5 & Hds5 & Hcase).
  { destruct (Z.eqb_spec (d_refcnt d) 0) as [H0|H0].
    - apply bind_Ok in H5 as (v & s6 & H6 & H5). apply aside_lift in H6 as [Hi6 Hds6].
      apply bind_Ok in H5 as (pd & s7 & H7 & H5). apply aside_env in H7 as [Hi7 Hds7].
      apply bind_Ok in H5 as ([] & s8 & (d8 & Hd8 & Hds8 & Hi8)%set_dev_inv & H5).
      rewrite Hds7, Hds6, Hds4 in Hd8, Hds8. rewrite list_lookup_insert_eq in Hd8 by done. injection Hd8 as <-.
      rewrite list_insert_insert_eq in Hds8.
      destruct pd as [pd|].
      + injection H5 as <- <-. split; [congruence|]. exists (with_pd (Some pd) (with_refcnt (d_refcnt d + 1) d)). done.
      + apply bind_Ok in H5 as ([] & s9 & (d9 & Hd9 & Hds9 & Hi9)%set_dev_inv & [= <- <-]).
        rewrite Hds8 in Hd9, Hds9. rewrite list_lookup_insert_eq in Hd9 by done. injection Hd9 as <-.
        rewrite list_insert_insert_eq in Hds9. split; [congruence|]. eexists. split; [exact Hds9|]. done.
    - injection H5 as <- <-. split; [done|]. exists (with_refcnt (d_refcnt d + 1) d). split; [done|]. split; [done|].
      apply (r_pd _ _ Hs2 i d Hd). rewrite (r_count _ _ Hs2 i d Hd) in *. pose proof (count_nonneg (bound_to i) (c_ids s2)). lia. }
  destruct ok.
  - apply bind_Ok in H as (d6 & s6 & [-> Hd6]%get_dev_inv & H).
    apply bind_Ok in H as ([] & s7 & (y & Hy & Hi7 & Hds7)%set_id_inv & [= _ <-]).
    unfold dev_ok. rewrite Hi7, Hds7, Hds5, Hi5. rewrite Hi5, Hx in Hy. injection Hy as <-.
    destruct Hcase. by eapply (refs_bind _ _ p x _ i d).
  - injection H as _ <-. unfold dev_ok. rewrite Hi5, Hds5. destruct Hcase as [Hr H0].
    eapply (refs_set_dev (c_ids s2)); try done.
    + intros q z j Hz Hj. right. by exists z.
    + rewrite Hr. by apply (r_count _ _ Hs2).
    + lia.
Qed.

Lemma kept_bind_device p g m : kept m → kept (bind_device p g m).
Proof.
  intros Hm s a s' Hs. unfold bind_device. rewrite bind_Ok. intros (x & s1 & [-> Hx]%get_id_inv & H).
  destruct (bool_decide (p_dev x = None)) eqn:E; [|by injection H as _ <-].
  apply bool_decide_eq_true in E. destruct (Z.eqb g 0); [by injection H as _ <-|]. cbn in H.
  apply bind_Ok in H as (ret & s2 & H2 & H). pose proof (get_device_kept p x g s ret s2 Hs Hx E H2) as Hs2.
  destruct (Z.eqb ret 0); cbn in H; [|by injection H as _ <-]. apply bind_Ok in H as ([] & s3 & H3 & [= _ <-]).
  by eapply Hm.
Qed.

Lemma put_device_spec i s d :
  cma_dev_array s !! i = Some d → (d_refcnt d = 1 → is_Some (d_pd d)) →
  ∃ s', ucma_put_device i s = Ok ((), s') ∧ c_ids s' = c_ids s ∧
        cma_dev_array s' = <[i := with_refcnt (d_refcnt d - 1) d]> (cma_dev_array s).
Proof.
  intros Hd Hpd. unfold ucma_put_device, set_dev, mbind, M_bind, get_dev, lift. rewrite Hd. cbn. rewrite Hd. cbn.
  destruct (Z.eqb_spec (d_refcnt d - 1) 0) as [H1|]; [|by eexists].
  destruct Hpd as [pd ->]; [lia|]. cbn. unfold env_, env. destruct (d_xrcd d); by eexists.
Qed.

(** [ucma_free_id] of an identifier on a shared channel, given that the table accepts
    the removal. *)
Lemma free_id_spec p s x m :
  dev_ok s → c_ids s !! p = Some x → sync x = false → ucma_remove_id (handle x) (ucma_idm s) = Ok m →
  ∃ s', ucma_free_id p s = Ok ((), s') ∧ dev_ok s' ∧ c_ids s' = delete p (c_ids s).
Proof.
  intros Hs Hx Hsync Hm. unfold ucma_free_id, mbind, M_bind, get_id, lift. rewrite Hx. cbn. rewrite Hm. cbn.
  unfold upd_idm. destruct (p_dev x) as [i|] eqn:Hi.
  - destruct (r_bound _ _ Hs p x i Hx Hi) as [d Hd].
    destruct (put_device_spec i (mkCma (c_ids s) (c_events s) (c_mcs s) m (cma_dev_array s) (event_channel_map s) (c_env s)) d)
      as (s1 & -> & Hi1 & Hd1); [done|intros; eapply (r_pd _ _ Hs); [done|lia]|].
    cbn. rewrite Hsync. cbn. eexists. split; [done|]. unfold dev_ok. cbn. rewrite Hi1, Hd1. cbn. split; [|done].
    by eapply (refs_unbind _ _ p x i d).
  - cbn. rewrite Hsync. cbn. eexists. split; [done|]. unfold dev_ok. cbn. split; [|done]. by eapply refs_drop.
Qed.

Lemma kept_free_id p : kept (ucma_free_id p).
Proof.
  intros s [] s' Hs H. pose proof H as H'. unfold ucma_free_id in H. apply bind_Ok in H as (x & s1 & [-> Hx]%get_id_inv & H).
  apply bind_Ok in H as (m0 & s2 & [= <- <-] & H). apply bind_Ok in H as (m & s3 & H3 & H).
  assert (ucma_remove_id (handle x) (ucma_idm s) = Ok m ∧ s3 = s) as [Hm ->].
  { unfold lift in H3. destruct (ucma_remove_id _ _); cbn in H3; try done. by injection H3 as <- <-. }
  destruct (sync x) eqn:Hsync; [exfalso|].
  - apply bind_Ok in H as ([] & s4 & _ & H). apply bind_Ok in H as ([] & s5 & _ & H). apply bind_Ok in H as ([] & s6 & H6 & _).
    unfold rdma_destroy_event_channel in H6. apply bind_Ok in H6 as (r & s7 & _ & H6).
    by apply bind_Ok in H6 as ([] & s8 & [=] & _).
  - destruct (free_id_spec p s x m Hs Hx Hsync Hm) as (s'' & Hf & Hok & _). congruence.
Qed.

Lemma kept_alloc_id c context ps t : kept (ucma_alloc_id c context ps t).
Proof.
  intros s o s' Hs. unfold ucma_alloc_id. rewrite bind_Ok. intros (q & s1 & H1 & H).
  assert (c_ids s1 = c_ids s ∧ cma_dev_array s1 = cma_dev_array s) as [Hi1 Hd1] by (by eapply aside_malloc).
  destruct q as [p|]; [|injection H as _ <-; unfold dev_ok; by rewrite Hi1, Hd1].
  apply bind_Ok in H as ([] & s2 & [= <-] & H).
  assert (c_ids s !! p = None) as Hp.
  { unfold malloc, env in H1. destruct (law_malloc (live s) (c_env s)) as (p' & k & E & Hp & _). rewrite E in H1.
    injection H1 as -> _. unfold live in Hp. apply not_elem_of_dom. set_solver. }
  assert (dev_ok (mkCma (<[p := new_id 0 context ps t]> (c_ids s1)) (c_events s1) (c_mcs s1) (ucma_idm s1) (cma_dev_array s1)
                        (event_channel_map s1) (c_env s1))) as Hs2.
  { unfold dev_ok. cbn. rewrite Hi1, Hd1. by apply refs_add. }
  revert Hs2 H. generalize (mkCma (<[p := new_id 0 context ps t]> (c_ids s1)) (c_events s1) (c_mcs s1) (ucma_idm s1)
                                  (cma_dev_array s1) (event_channel_map s1) (c_env s1)). intros s2 Hs2 H.
  enough (kept (match c with
      | None => c ← rdma_create_event_channel;
          match c with
          | None => ucma_free_id p ;; mret None
          | Some c => set_id p (λ x, with_sync true (with_pub (with_channel c) x)) ;; mret (Some p)
          end
      | Some c => set_id p (with_pub (with_channel c)) ;; mret (Some p)
      end)) as Hk by (by eapply Hk).
  unfold rdma_create_event_channel. pose proof (kept_free_id p). kept_tac.
Qed.
Hint Resolve kept_bind_device kept_free_id kept_alloc_id : calm.

Lemma kept_router_channel c : kept (K := K) (router_channel c).
Proof. unfold router_channel. kept_tac. Qed.
Lemma kept_create_event_channel : kept (K := K) rdma_create_event_channel.
Proof. unfold rdma_create_event_channel. kept_tac. Qed.
Lemma kept_destroy_event_channel c : kept (K := K) (rdma_destroy_event_channel c).
Proof. pose proof kept_router_channel. unfold rdma_destroy_event_channel. kept_tac. Qed.
Lemma kept_complete_event p : kept (K := K) (ucma_complete_event p).
Proof. unfold ucma_complete_event. kept_tac. Qed.
Hint Resolve kept_router_channel kept_create_event_channel kept_destroy_event_channel kept_complete_event : calm.

Lemma kept_ack e : kept (K := K) (rdma_ack_cm_event e).
Proof. unfold rdma_ack_cm_event, ucma_complete_mc_event. kept_tac. Qed.
Hint Resolve kept_ack : calm.

Lemma kept_ack_own p : kept (K := K) (ack_own p).
Proof. unfold ack_own. kept_tac. Qed.
Hint Resolve kept_ack_own : calm.

Lemma kept_destroy_begin p : kept (K := K) (destroy_begin p).
Proof. unfold destroy_begin, ucma_destroy_kern_id. kept_tac. Qed.
Hint Resolve kept_destroy_begin : calm.

Lemma kept_destroy_id p : kept (K := K) (rdma_destroy_id p).
Proof. unfold rdma_destroy_id, wait_completed. kept_tac. Qed.

Lemma kept_enter_id p h : kept (K := K) (enter_id p h).
Proof. unfold enter_id. kept_tac. Qed.
Hint Resolve kept_destroy_id kept_enter_id : calm.

Lemma kept_create_id2 c context ps t : kept (K := K) (rdma_create_id2 c context ps t).
Proof. unfold rdma_create_id2. kept_tac. Qed.

Lemma kept_store_paths p n conv l : kept (K := K) (store_paths p n conv l).
Proof. unfold store_paths, set_route. kept_tac. Qed.
Lemma kept_query_addr p : kept (K := K) (ucma_query_addr p).
Proof. unfold ucma_query_addr, set_route. kept_tac. apply kept_bind_device. kept_tac. Qed.
Lemma kept_query_gid p : kept (K := K) (ucma_query_gid p).
Proof. unfold ucma_query_gid, set_route. kept_tac. Qed.
Hint Resolve kept_store_paths kept_query_addr kept_query_gid : calm.

Lemma kept_query_path p : kept (K := K) (ucma_query_path p).
Proof. unfold ucma_query_path. kept_tac. Qed.
Lemma kept_query_route p : kept (K := K) (ucma_query_route p).
Proof. unfold ucma_query_route, set_route. kept_tac. apply kept_bind_device. kept_tac. Qed.
Hint Resolve kept_query_path kept_query_route : calm.

Lemma kept_query_req_info p : kept (K := K) (ucma_query_req_info af_ib_support p).
Proof. unfold ucma_query_req_info. kept_tac. Qed.
Lemma kept_init_qp_attr p a : kept (K := K) (rdma_init_qp_attr p a).
Proof. unfold rdma_init_qp_attr. kept_tac. Qed.
Hint Resolve kept_query_req_info kept_init_qp_attr : calm.

Lemma kept_modify_qp_rtr p n : kept (K := K) (ucma_modify_qp_rtr p n).
Proof. unfold ucma_modify_qp_rtr. kept_tac. Qed.
Lemma kept_modify_qp_rts p n : kept (K := K) (ucma_modify_qp_rts p n).
Proof. unfold ucma_modify_qp_rts. kept_tac. Qed.
Lemma kept_modify_qp_state st p : kept (K := K) (modify_qp_state st p).
Proof. unfold modify_qp_state. kept_tac. Qed.
Lemma kept_has_transport p t : kept (K := K) (has_transport p t).
Proof. unfold has_transport. kept_tac. Qed.
Lemma kept_migrate_begin p c : kept (K := K) (migrate_begin p c).
Proof. unfold migrate_begin. kept_tac. Qed.
Hint Resolve kept_modify_qp_rtr kept_modify_qp_rts kept_modify_qp_state kept_has_transport kept_migrate_begin : calm.

Lemma kept_migrate p c : kept (K := K) (rdma_migrate_id p c).
Proof. unfold rdma_migrate_id, wait_reported. kept_tac. Qed.
Hint Resolve kept_migrate : calm.

Lemma kept_conn_req e p h : kept (K := K) (ucma_process_conn_req af_ib_support e p h).
Proof. unfold ucma_process_conn_req, ucma_destroy_kern_id. kept_tac. Qed.
Lemma kept_conn_resp p : kept (K := K) (ucma_process_conn_resp p).
Proof. unfold ucma_process_conn_resp, ucma_modify_qp_err. kept_tac. Qed.
Lemma kept_join mc u : kept (K := K) (ucma_process_join mc u).
Proof. unfold ucma_process_join. kept_tac. Qed.
Hint Resolve kept_conn_req kept_conn_resp kept_join : calm.

Lemma kept_process e r : kept (K := K) (process_event af_ib_support e r).
Proof.
  unfold process_event, event_target, own, own_mc, set_conn_or_ud, set_param, unless_failed, ucma_process_addr_resolved,
    ucma_process_route_resolved, set_status, ucma_modify_qp_err. kept_tac.
Qed.
Lemma kept_fetch c e : kept (K := K) (fetch_event c e).
Proof. unfold fetch_event. kept_tac. Qed.
Lemma kept_new_event : kept (K := K) new_event.
Proof. unfold new_event. kept_tac. Qed.
Hint Resolve kept_process kept_fetch kept_new_event : calm.

Lemma kept_get_cm_event c : kept (K := K) (rdma_get_cm_event af_ib_support fuel c).
Proof.
  unfold rdma_get_cm_event. kept_tac. enough (∀ n e, kept (get_event_loop af_ib_support n c e)) as H by apply H.
  intros n e. induction n; cbn [get_event_loop]; kept_tac. by apply kept_blocked.
Qed.
Hint Resolve kept_get_cm_event : calm.

Lemma kept_complete p : kept (K := K) (ucma_complete af_ib_support fuel p).
Proof. unfold ucma_complete. kept_tac. Qed.
Hint Resolve kept_complete : calm.
End KeptCalls.

#[export] Hint Resolve kept_init_device kept_free_id kept_alloc_id kept_router_channel kept_create_event_channel
  kept_destroy_event_channel kept_ack kept_ack_own kept_destroy_begin kept_destroy_id kept_query_addr kept_query_gid
  kept_query_path kept_query_route kept_init_qp_attr kept_modify_qp_rtr kept_modify_qp_rts kept_modify_qp_state
  kept_has_transport kept_migrate_begin kept_get_cm_event kept_complete : calm.

Section KeptConn.
Context {K : Type} `{!CmEnv K, !CmLaws K} (af_ib_support : bool) (abi_ver : Z) (fuel : nat).
Implicit Types (s : cma K) (p e : Z).

Lemma kept_bind_addr2 p a n : kept (K := K) (rdma_bind_addr2 p a n).
Proof. unfold rdma_bind_addr2. kept_tac. Qed.
Lemma kept_set_option p l n v : kept (K := K) (rdma_set_option p l n v).
Proof. unfold rdma_set_option. kept_tac. Qed.
Lemma kept_store_dst p a n : kept (K := K) (store_dst p a n).
Proof. unfold store_dst, set_route. kept_tac. Qed.
Hint Resolve kept_bind_addr2 kept_set_option kept_store_dst : calm.

Lemma kept_find_pkey n v port key i : kept (K := K) (find_pkey_from n v port key i).
Proof. revert i. induction n; intros i; cbn [find_pkey_from]; kept_tac. by apply kept_blocked. Qed.
Lemma kept_ud_qp_to_rts qp a : kept (K := K) (ud_qp_to_rts qp a).
Proof. unfold ud_qp_to_rts. kept_tac. Qed.
Hint Resolve kept_find_pkey kept_ud_qp_to_rts : calm.

Lemma kept_init_conn_qp p qp : kept (K := K) (ucma_init_conn_qp abi_ver fuel p qp).
Proof. unfold ucma_init_conn_qp, ucma_init_conn_qp3, attr_with_pkey, ucma_find_pkey. kept_tac. Qed.
Lemma kept_init_ud_qp p qp : kept (K := K) (ucma_init_ud_qp abi_ver fuel p qp).
Proof. unfold ucma_init_ud_qp, ucma_init_ud_qp3, attr_with_pkey, ucma_find_pkey. kept_tac. Qed.
Lemma kept_destroy_cqs p : kept (K := K) (ucma_destroy_cqs p).
Proof. unfold ucma_destroy_cqs, destroy_pair, set_cqs. kept_tac. Qed.
Hint Resolve kept_init_conn_qp kept_init_ud_qp kept_destroy_cqs : calm.

Lemma kept_create_cqs p n m : kept (K := K) (ucma_create_cqs p n m).
Proof. unfold ucma_create_cqs, create_cq_pair, set_cqs. kept_tac. Qed.
Lemma kept_get_xrcd i : kept (K := K) (ucma_get_xrcd i).
Proof. unfold ucma_get_xrcd. kept_tac. Qed.
Hint Resolve kept_create_cqs kept_get_xrcd : calm.

Lemma kept_create_qp p pd a : kept (K := K) (rdma_create_qp abi_ver fuel p pd a).
Proof. unfold rdma_create_qp, rdma_create_qp_ex. kept_tac. Qed.
Lemma kept_valid_param x c : kept (K := K) (ucma_valid_param x c).
Proof. unfold ucma_valid_param, dev_limit. kept_tac. Qed.
Hint Resolve kept_create_qp kept_valid_param : calm.

Lemma kept_exec c p : kept (K := K) (exec_call af_ib_support abi_ver fuel c p).
Proof.
  destruct c; cbn [exec_call];
    unfold rdma_bind_addr, rdma_resolve_addr, rdma_resolve_addr2, rdma_resolve_route, ucma_set_ib_route, rdma_destroy_qp,
      rdma_connect, rdma_listen, rdma_get_request, rdma_disconnect, ucma_shutdown, ucma_modify_qp_err, ucma_modify_qp_sqd,
      dev_limit; kept_tac.
Qed.

Lemma kept_accept p prm : kept (K := K) (rdma_accept af_ib_support fuel p prm).
Proof. unfold rdma_accept, send_accept, dev_limit. kept_tac. Qed.

Lemma kept_wait p n : kept (K := K) (wait_completed p n).
Proof. unfold wait_completed. kept_tac. Qed.
End KeptConn.

(** ** Every reachable state *)
Section Devices.
Context {K : Type} `{!CmEnv K, !CmLaws K} (af_ib_support : bool) (abi_ver : Z) (fuel : nat).
Implicit Types (s : cma K) (p e : Z) (x : sys (K := K)).

Abbreviation step := (cm_step (K := K) af_ib_support abi_ver fuel).

Lemma step_dev x x' : step x x' → dev_ok (s_cma x) → dev_ok (s_cma x').
Proof.
  intros [] Hs; cbn in *.
  - by eapply kept_create_id2.
  - by eapply kept_exec.
  - by eapply kept_accept.
  - by eapply kept_new_event.
  - by eapply kept_fetch.
  - by eapply kept_process.
  - eapply kept_set_event; [|done]. by eapply kept_process.
  - by eapply kept_ack.
  - by eapply kept_destroy_begin.
  - eapply kept_bind; [apply kept_wait|intros; apply kept_free_id|done..].
Qed.

(** No device is in use. *)
Definition devs_idle s : Prop := ∀ i d, cma_dev_array s !! i = Some d → d_refcnt d = 0.

Lemma initial_dev x : cm_initial x → devs_idle (s_cma x) → dev_ok (s_cma x).
Proof.
  intros (Hi & _) Hd. unfold dev_ok. rewrite Hi. split.
  - intros p y i. by rewrite lookup_empty.
  - intros i d H. by rewrite count_empty, (Hd i d H).
  - intros i d H. rewrite (Hd i d H). lia.
Qed.

Lemma reachable_dev x0 x : cm_initial x0 → devs_idle (s_cma x0) → rtc step x0 x → dev_ok (s_cma x).
Proof. intros H0 Hd Hr. pose proof (initial_dev x0 H0 Hd) as Hs. clear H0 Hd. induction Hr; eauto using step_dev. Qed.

(** C14.  Devices are counted.  In every reachable state a device's reference count is the
    number of identifiers bound to it, every identifier's device exists, and a device
    with references has its protection domain. *)
Theorem devices_counted x0 x i d :
  cm_initial x0 → devs_idle (s_cma x0) → rtc step x0 x → cma_dev_array (s_cma x) !! i = Some d →
  d_refcnt d = count (λ _ y, bool_decide (p_dev y = Some i)) (c_ids (s_cma x)) ∧
  (0 < d_refcnt d → is_Some (d_pd d)) ∧
  ∀ p y j, c_ids (s_cma x) !! p = Some y → p_dev y = Some j → is_Some (cma_dev_array (s_cma x) !! j).
Proof.
  intros H0 Hd0 Hr Hd. pose proof (reachable_dev x0 x H0 Hd0 Hr) as Hok.
  split; [by apply (r_count _ _ Hok)|]. split; [by apply (r_pd _ _ Hok i)|]. apply (r_bound _ _ Hok).
Qed.

Lemma no_events F s p :
  (∀ e v, c_events s !! e = Some v → event_of F e v ≠ Some p) → outstanding F (b_events (view s)) p = 0.
Proof.
  intros Hno. apply count_zero. intros e t Ht. destruct (view_event_Some _ _ _ Ht) as (v & Hv & ->).
  apply bool_decide_eq_false. by apply (Hno e v).
Qed.

Lemma destroy_begin_Ok p s y c :
  c_ids s !! p = Some y → 0 ≤ id_channel (p_id y) < MAP_SIZE → k_ids (c_env s) !! handle y = Some c →
  0 ≤ kc_reported c < 2 ^ 31 → id_event (p_id y) = None →
  ∃ s', destroy_begin p s = Ok (kc_reported c, s') ∧ c_ids s' = c_ids s ∧
        cma_dev_array s' = cma_dev_array s ∧ ucma_idm s' = ucma_idm s.
Proof.
  intros Hy Hch Hc Hr He. unfold destroy_begin, mbind, M_bind, get_id, lift. rewrite Hy. cbn.
  unfold ucma_destroy_kern_id, router_channel, mbind, M_bind, lift, gets, env.
  rewrite (proj2 (in_bounds_Ok _ _ _) Hch). cbn.
  destruct (r_destroy_id _ (handle y) (c_env s)) as [[ret n] k'] eqn:E. cbn.
  destruct (law_destroy_id _ _ _ _ _ _ _ E Hc) as [-> _]. rewrite s32_small by done.
  destruct (Z.ltb_spec (kc_reported c) 0); [lia|]. cbn. erewrite ack_own_quiet by done. cbn. by eexists.
Qed.

(** The end of [rdma_destroy_id] once nothing is outstanding. *)
Lemma finish_Ok p n s y :
  dev_ok s → c_ids s !! p = Some y → n ≤ events_completed y → sync y = false →
  (∃ m, idm_ok m (ucma_idm s) ∧ (handle y ≤ 65535 → is_Some (m !! handle y))) → 0 ≤ handle y < 2 ^ 31 →
  ∃ s', (wait_completed p n ;; ucma_free_id p) s = Ok ((), s') ∧ c_ids s' = delete p (c_ids s).
Proof.
  intros Hs Hy Hn Hsync (m & Hm & Hin) Hh. destruct (table_remove m (ucma_idm s) (handle y) Hm Hh Hin) as (m' & idm' & E & _).
  destruct (free_id_spec p s y idm' Hs Hy Hsync E) as (s' & Hf & _ & Hi). exists s'. split; [|done].
  unfold wait_completed, mbind, M_bind, get_id, lift. rewrite Hy. cbn.
  by destruct (Z.ltb_spec (events_completed y) n); [lia|].
Qed.

End Devices.

Lemma start_idle : devs_idle (s_cma start).
Proof. by intros [|[|i]] d; intros [= <-]. Qed.

(** The identifier holds the device. *)
Lemma devices_counted_witness :
  let x := reached until_destroy in
  ∃ d, cma_dev_array (s_cma x) !! 0%nat = Some d ∧ d_refcnt d = 1 ∧
       count (λ _ y, bool_decide (p_dev y = Some 0%nat)) (c_ids (s_cma x)) = 1 ∧ is_Some (d_pd d).
Proof.
  intros x. assert (rtc (cm_step false 5 10) start x) as Hr by (apply reached_rtc; by vm_compute).
  assert ((d_refcnt <$> cma_dev_array (s_cma x) !! 0%nat) = Some 1) as Hd by (by vm_compute). clearbody x.
  destruct (cma_dev_array (s_cma x) !! 0%nat) as [d|] eqn:E; [|done]. injection Hd as Hd. exists d.
  destruct (devices_counted false 5 10 start x 0 d start_initial start_idle Hr E) as (Hc & Hpd & _).
  split; [done|]. split; [done|]. split; [by rewrite <- Hc|]. apply Hpd. lia.
Defined.

