(* ===== verification/CmaCalls.v ===== *)
(** * The connection manager: what the calls do

    Start-up, private channels, connection parameters and path records, call by call. *)

From S2P Require Import Prelude Layout FfTypes Wire Indexer Attrs Marshall Cma CmaConn CmaEvents CmaDemo CmaSystem CmaDevices.

(** ** Start-up *)

(** [struct sockaddr_ib] with the family and the service, in network order, of the probe. *)
Definition sib_probe : list Z :=
  [AF_IB; 0] ++ replicate 22 0 ++ [0; 0; 0; 0; 1; 6; 0; 0] ++ [255; 255; 255; 255; 255; 255; 0; 0] ++ replicate 8 0.

Section Init.
Context {K : Type} `{!CmEnv K}.
Implicit Types (s : cma K) (p : Z).

(** The new value of [af_ib_support]. *)
Definition ucma_set_af_ib_support (af_ib_support : bool) : M K bool :=
  '(ret, o) ← rdma_create_id None 0 RDMA_PS_IB;
  if negb (Z.eqb ret 0) then mret af_ib_support
  else
    p ← lift (deref "id" o);
    ret ← rdma_bind_addr true p sib_probe;
    rdma_destroy_id p ;;
    mret (Z.eqb ret 0).

Definition new_device (guid : Z) : cma_device := mkDev guid None None None [] 0 0 0 0.

(** [abi_ret] is what [check_abi_version] returned, [dev_list] what [ibv_get_device_list] did.
    The library is initialised when [cma_dev_cnt], the length of the array, is not 0. *)
Definition ucma_init (abi_ret : Z) (dev_list : option (list Z)) (af_ib_support : bool) : M K (Z * bool) :=
  n ← gets (λ s, lenZ (cma_dev_array s));
  if negb (Z.eqb n 0) then mret (0, af_ib_support)
  else if negb (Z.eqb abi_ret 0) then mret (abi_ret, af_ib_support)
  else
    match dev_list with
    | None => mret (-1, af_ib_support)
    | Some guids =>
        if Z.eqb (lenZ guids) 0 then mret (-1, af_ib_support)
        else
          a ← malloc;
          match a with
          | None => mret (-1, af_ib_support)
          | Some _ =>
              upd_devs (λ _, new_device <$> guids) ;;
              b ← ucma_set_af_ib_support af_ib_support;
              mret (0, b)
          end
    end.

(** ** Private channels *)
Lemma destroy_channel_overflows channel s :
  0 ≤ channel < MAP_SIZE → rdma_destroy_event_channel channel s = UB "write past rsp".
Proof.
  intros Hc. unfold rdma_destroy_event_channel, router_channel, mbind, M_bind, lift, gets.
  by rewrite (proj2 (in_bounds_Ok _ _ _) Hc).
Qed.

Lemma destroy_channel_stops channel s a : rdma_destroy_event_channel channel s ≠ Ok a.
Proof.
  unfold rdma_destroy_event_channel, router_channel, mbind, M_bind, lift, gets, in_bounds. by destruct (_ && _).
Qed.

Lemma free_sync_stops p s x a : c_ids s !! p = Some x → sync x = true → ucma_free_id p s ≠ Ok a.
Proof.
  intros Hx Hs. destruct a as [u s']. unfold ucma_free_id. rewrite bind_Ok.
  intros (x' & s1 & Hg & H). unfold get_id, lift in Hg. rewrite Hx in Hg. injection Hg as <- <-.
  apply bind_Ok in H as (m & s2 & _ & H). apply bind_Ok in H as (m' & s3 & _ & H).
  apply bind_Ok in H as (u1 & s4 & _ & H). apply bind_Ok in H as (u2 & s5 & _ & H).
  apply bind_Ok in H as (u3 & s6 & H & _). rewrite Hs in H.
  by apply destroy_channel_stops in H.
Qed.

Definition syncs s : gmap Z bool := sync <$> c_ids s.

Lemma complete_syncs p s u s' : ucma_complete_event p s = Ok (u, s') → syncs s' = syncs s.
Proof.
  unfold ucma_complete_event, set_id. rewrite bind_Ok. intros (x & s1 & Hg & [= <- <-]).
  unfold get_id, lift in Hg. destruct (c_ids s !! p) as [y|] eqn:Hy; [|done]. injection Hg as <- <-.
  unfold syncs. cbn. rewrite fmap_insert. apply insert_id. by rewrite lookup_fmap, Hy.
Qed.

Lemma ack_syncs e s u s' : rdma_ack_cm_event e s = Ok (u, s') → syncs s' = syncs s.
Proof.
  unfold rdma_ack_cm_event. rewrite bind_Ok. intros (v & s1 & Hg & H).
  unfold get_event, lift in Hg. destruct (c_events s !! e) as [y|]; [|done]. injection Hg as <- <-.
  apply bind_Ok in H as (u1 & s2 & H & [= _ <-]). change (syncs s2 = syncs s). destruct (ev_mc y) as [mc|].
  - unfold ucma_complete_mc_event in H. apply bind_Ok in H as (m & s3 & Hm & H).
    unfold get_mc, lift in Hm. destruct (c_mcs s !! mc) as [m'|] eqn:Hmc; [|done]. injection Hm as <- <-.
    apply bind_Ok in H as (x & s4 & Hx & H). unfold get_id, lift in Hx.
    destruct (c_ids s !! mc_id_priv m'); [|done]. injection Hx as <- <-.
    apply bind_Ok in H as (u2 & s5 & Hset & H). apply complete_syncs in H. rewrite H.
    unfold set_mc in Hset. apply bind_Ok in Hset as (m2 & s6 & Hm2 & [= _ <-]).
    unfold get_mc, lift in Hm2. rewrite Hmc in Hm2. by injection Hm2 as <- <-.
  - destruct (ev_id_priv y) as [p|]; [|done]. by eapply complete_syncs.
Qed.

Lemma destroy_begin_syncs p s n s' : destroy_begin p s = Ok (n, s') → syncs s' = syncs s.
Proof.
  unfold destroy_begin. rewrite bind_Ok. intros (x & s1 & Hg & H). unfold get_id, lift in Hg.
  destruct (c_ids s !! p) as [y|] eqn:Hy; [|done]. injection Hg as <- <-.
  apply bind_Ok in H as (r & s2 & Hk & H).
  assert (c_ids s2 = c_ids s) as Hi.
  { unfold ucma_destroy_kern_id, router_channel in Hk. rewrite !bind_Ok in Hk. destruct Hk as (fd & s3 & Hr & Hk).
    apply bind_Ok in Hr as (u & s4 & Hr & [= _ <-]). apply aside_lift in Hr as [Hr _].
    apply bind_Ok in Hk as ([a b] & s5 & He & [= _ <-]). apply aside_env in He as [He _]. congruence. }
  assert (syncs s2 = syncs s) as <- by (unfold syncs; by rewrite Hi).
  destruct (Z.ltb r 0); [by injection H as _ <-|]. apply bind_Ok in H as (u & s3 & Ha & [= _ <-]).
  unfold ack_own in Ha. apply bind_Ok in Ha as (z & s4 & Hz & Ha). unfold get_id, lift in Hz.
  destruct (c_ids s2 !! p) as [w|]; [|done]. injection Hz as <- <-.
  destruct (id_event (p_id w)) as [e|]; [by eapply ack_syncs|by injection Ha as _ <-].
Qed.

(** [rdma_destroy_id] of an identifier with a channel of its own. *)
Lemma destroy_sync_fails p s r s' : syncs s !! p = Some true → rdma_destroy_id p s = Ok (r, s') → r < 0.
Proof.
  intros Hp. unfold rdma_destroy_id. rewrite bind_Ok. intros (n & s1 & Hb & H).
  apply destroy_begin_syncs in Hb. rewrite <- Hb in Hp. destruct (Z.ltb_spec n 0); [by injection H as <- _|].
  apply bind_Ok in H as (u & s2 & Hw & H). apply bind_Ok in H as (u2 & s3 & Hf & _).
  assert (s2 = s1) as ->.
  { unfold wait_completed in Hw. apply bind_Ok in Hw as (x & s4 & Hx & Hw). unfold get_id, lift in Hx.
    destruct (c_ids s1 !! p); [|done]. injection Hx as <- <-. destruct (Z.ltb _ _); [done|]. by injection Hw as _ <-. }
  unfold syncs in Hp. rewrite lookup_fmap, fmap_Some in Hp. destruct Hp as (x & Hx & Hs).
  by apply (free_sync_stops p s1 x (u2, s3)) in Hf.
Qed.

(** [rdma_create_id] without a channel. *)
Lemma enter_id_syncs p h s u s' : enter_id p h s = Ok (u, s') → syncs s' = syncs s.
Proof.
  unfold enter_id. rewrite bind_Ok. intros (u1 & s1 & Hset & H).
  assert (syncs s1 = syncs s) as <-.
  { unfold set_id in Hset. apply bind_Ok in Hset as (x & s2 & Hg & [= _ <-]).
    unfold get_id, lift in Hg. destruct (c_ids s !! p) as [y|] eqn:Hy; [|done]. injection Hg as <- <-.
    unfold syncs. cbn. rewrite fmap_insert. apply insert_id. by rewrite lookup_fmap, Hy. }
  apply bind_Ok in H as (a & s2 & Ha & H). apply aside_malloc in Ha as [Ha _].
  apply bind_Ok in H as (m & s3 & [= _ <-] & H).
  apply bind_Ok in H as (m' & s4 & Hm & [= _ <-]). apply aside_lift in Hm as [Hm _].
  unfold syncs. cbn. by rewrite Hm, Ha.
Qed.
End Init.

Section Probe.
Context {K : Type} `{!CmEnv K, !CmLaws K}.
Implicit Types (s : cma K) (p : Z).

Lemma malloc_Some s : ∃ p s', malloc s = Ok (Some p, s') ∧ c_ids s' = c_ids s.
Proof.
  unfold malloc, env. destruct (law_malloc (live s) (c_env s)) as (p & k & -> & _). by eexists _, _.
Qed.

Lemma create_private context ps s r s' :
  rdma_create_id None context ps s = Ok (r, s') → ∃ p, r = (0, Some p) ∧ syncs s' !! p = Some true.
Proof.
  unfold rdma_create_id, rdma_create_id2. rewrite bind_Ok. intros (o & s1 & Ha & H).
  assert (∃ p, o = Some p ∧ syncs s1 !! p = Some true) as (p & -> & Hp).
  { unfold ucma_alloc_id in Ha. apply bind_Ok in Ha as (o' & s2 & Hm & Ha).
    destruct (malloc_Some s) as (p & s2' & Hm' & _). rewrite Hm' in Hm. injection Hm as <- <-.
    apply bind_Ok in Ha as (u & s3 & _ & Ha). apply bind_Ok in Ha as (c & s4 & Hc & Ha).
    assert (is_Some c) as [c' ->].
    { unfold rdma_create_event_channel in Hc. apply bind_Ok in Hc as (o2 & s5 & Hm & Hc).
      destruct (malloc_Some s3) as (p2 & s5' & Hm2 & _). rewrite Hm2 in Hm. injection Hm as <- <-.
      apply bind_Ok in Hc as ([a b] & s6 & _ & Hc). apply bind_Ok in Hc as (u2 & s7 & _ & Hc).
      apply bind_Ok in Hc as (u3 & s8 & _ & [= <- _]). by eexists. }
    apply bind_Ok in Ha as (u2 & s5 & Hs & [= <- <-]). exists p. split; [done|].
    unfold set_id in Hs. apply bind_Ok in Hs as (x & s6 & _ & [= _ <-]).
    unfold syncs. cbn. by rewrite lookup_fmap, lookup_insert_eq. }
  apply bind_Ok in H as (x & s2 & Hg & H). unfold get_id, lift in Hg.
  destruct (c_ids s1 !! p) as [y|]; [|done]. injection Hg as <- <-.
  apply bind_Ok in H as (fd & s2 & Hr & H).
  assert (c_ids s2 = c_ids s1) as H12.
  { unfold router_channel in Hr. apply bind_Ok in Hr as (u & s4 & Hr & [= _ <-]).
    by apply aside_lift in Hr as [Hr _]. }
  apply bind_Ok in H as ([a h] & s3 & He & H). apply aside_env in He as [He _].
  apply bind_Ok in H as (u & s4 & Hen & [= <- <-]). apply enter_id_syncs in Hen. exists p.
  split; [done|]. rewrite Hen. unfold syncs. rewrite He, H12. exact Hp.
Qed.

(** The probe needs an identifier with a channel of its own. *)
Lemma probe_fails b s r s' :
  (∀ fd h k, 0 ≤ (r_destroy_id fd h k).1.2 < 2 ^ 31) → ucma_set_af_ib_support b s ≠ Ok (r, s').
Proof.
  intros Hn. unfold ucma_set_af_ib_support. rewrite bind_Ok. intros ([ret o] & s1 & Hc & H).
  destruct (create_private _ _ _ _ _ Hc) as (p & [= -> ->] & Hp). cbn [negb Z.eqb] in H.
  apply bind_Ok in H as (q & s2 & Hd & H). injection Hd as <- <-.
  apply bind_Ok in H as (r1 & s2 & Hb & H). apply bind_Ok in H as (r2 & s3 & Hd & _).
  assert (b_ids (view s1) !! p = b_ids (view s2) !! p) as Hv.
  { unfold syncs in Hp. rewrite lookup_fmap, fmap_Some in Hp. destruct Hp as (x & Hx & _).
    pose proof (calm_use_id (rdma_bind_addr true p sib_probe) p s1 (calm_bind_addr true {[p]} ∅ p sib_probe (elem_of_singleton_2 _ _ eq_refl))) as Hf.
    rewrite Hb in Hf. cbn in Hf. rewrite Hf; [done|]. by rewrite view_ids, Hx. }
  assert (syncs s2 !! p = Some true) as Hp2.
  { unfold syncs in *. rewrite lookup_fmap in *. rewrite !view_ids in Hv.
    destruct (c_ids s1 !! p) as [x|]; [|done]. destruct (c_ids s2 !! p) as [y|]; [|done]. cbn in *.
    injection Hv as _ _ Hv _. congruence. }
  pose proof (destroy_sync_fails _ _ _ _ Hp2 Hd) as Hneg.
  unfold rdma_destroy_id in Hd. apply bind_Ok in Hd as (n & s4 & Hb4 & H4).
  assert (0 ≤ n).
  { unfold destroy_begin in Hb4. apply bind_Ok in Hb4 as (x & s5 & _ & Hb4).
    apply bind_Ok in Hb4 as (r6 & s6 & Hk & Hb4).
    unfold ucma_destroy_kern_id in Hk. apply bind_Ok in Hk as (fd & s7 & _ & Hk).
    apply bind_Ok in Hk as ([e m] & s8 & He & [= <- _]). unfold env in He.
    specialize (Hn fd (handle x) (c_env s7)). destruct (r_destroy_id _ _ _) as [[e' m'] k']. injection He as <- <- _.
    cbn in Hn. rewrite s32_small in Hb4 by done. destruct (Z.ltb_spec m' 0); [lia|].
    apply bind_Ok in Hb4 as (u & s9 & _ & [= <- _]). lia. }
  destruct (Z.ltb_spec n 0); [lia|]. apply bind_Ok in H4 as (u & s5 & _ & H4).
  apply bind_Ok in H4 as (u2 & s6 & _ & [= <- _]). lia.
Qed.

(** Closing an event channel overruns the stack, and start-up does it.
    [rdma_destroy_event_channel] sends the request that creates a channel, whose
    response is larger than the variable it is received in.  So an identifier with a
    channel of its own is never destroyed; and as the probe for AF_IB makes one, the
    first [ucma_init] never succeeds. *)
Theorem private_channels_overflow :
  (∀ channel s, 0 ≤ channel < MAP_SIZE → rdma_destroy_event_channel channel s = UB "write past rsp") ∧
  (∀ p x s r s', c_ids s !! p = Some x → sync x = true → rdma_destroy_id p s = Ok (r, s') → r < 0) ∧
  ((∀ fd h (k : K), 0 ≤ (r_destroy_id fd h k).1.2 < 2 ^ 31) → ∀ abi_ret dev_list b s r s',
     cma_dev_array s = [] → ucma_init abi_ret dev_list b s = Ok (r, s') → r.1 ≠ 0).
Proof.
  split; [by apply destroy_channel_overflows|]. split.
  - intros p x s r s' Hx Hs. apply destroy_sync_fails. unfold syncs. by rewrite lookup_fmap, Hx, <- Hs.
  - intros Hn abi dl b s r s' Hs. unfold ucma_init. rewrite bind_Ok. intros (n & s1 & [= <- <-] & H).
    rewrite Hs in H. cbn [negb Z.eqb lenZ length] in H. change (negb (Z.eqb (lenZ []) 0)) with false in H. cbv iota in H.
    destruct (Z.eqb_spec abi 0); [|by injection H as <- _]. destruct dl as [gs|]; [|by injection H as <- _]. cbn [negb] in H.
    destruct (Z.eqb (lenZ gs) 0); [by injection H as <- _|].
    apply bind_Ok in H as (a & s2 & _ & H). destruct a; [|by injection H as <- _].
    apply bind_Ok in H as (u & s3 & _ & H). apply bind_Ok in H as (b' & s4 & Hp & _).
    by apply probe_fails in Hp.
Qed.
End Probe.

(** The start-up of a library with one device, against the small kernel. *)
Lemma private_channels_overflow_witness :
  let s := mkCma ∅ ∅ ∅ ∅ [] ∅ (mkKernel ∅ 0 []) in
  ucma_init 0 (Some [a_guid]) false s = UB "write past rsp" ∧
  ∀ r s', ucma_init 0 (Some [a_guid]) false s = Ok (r, s') → r.1 ≠ 0.
Proof.
  intros s. split; [by vm_compute|]. intros r s'.
  destruct (private_channels_overflow (K := kernel)) as (_ & _ & H). apply H; [|done].
  intros fd h k. cbn. unfold destroy_entry. destruct (kernel_ids k !! h) as [c|] eqn:Hc; cbn; [|lia].
  destruct (kernel_ids_Some _ _ _ Hc) as (Hok & Hh & _). by apply (Hok h c Hh).
Defined.

(** ** Connection parameters *)
Lemma write_private_fits a k src :
  lenZ src ≤ Z.of_nat k →
  write_private (a ++ replicate k 0) (lenZ a) src = Ok ((a ++ src) ++ replicate (k - length src) 0).
Proof.
  intros Hfit. unfold write_private. rewrite lenZ_app. unfold lenZ at 4. rewrite length_replicate.
  destruct (Z.leb_spec (lenZ a + lenZ src) (lenZ a + Z.of_nat k)); [|lia]. f_equal.
  rewrite takeZ_app_exact by done. rewrite <- (app_assoc a src). do 2 f_equal. unfold dropZ, lenZ.
  rewrite <- Nat2Z.inj_add, Nat2Z.id, drop_app_ge by lia. rewrite drop_replicate. f_equal. lia.
Qed.

Lemma write_private_over a k src :
  Z.of_nat k < lenZ src → write_private (a ++ replicate k 0) (lenZ a) src = UB "write past private_data".
Proof.
  intros Hover. unfold write_private. rewrite lenZ_app. unfold lenZ at 4. rewrite length_replicate.
  by destruct (Z.leb_spec (lenZ a + lenZ src) (lenZ a + Z.of_nat k)); [lia|].
Qed.

(** The command after the library's own data was copied. *)
Lemma connect_written x :
  lenZ (p_connect x) < 256 →
  (if Z.eqb (lenZ (p_connect x)) 0 then Ok (ac_private_data zero_conn_param, 0)
   else let* buf := write_private (ac_private_data zero_conn_param) 0 (p_connect x) in Ok (buf, u8 (lenZ (p_connect x)))) =
  Ok (p_connect x ++ replicate (256 - length (p_connect x)) 0, lenZ (p_connect x)).
Proof.
  intros Hn. destruct (Z.eqb_spec (lenZ (p_connect x)) 0) as [H0|H0].
  - destruct (p_connect x); [done|]. rewrite lenZ_cons in H0. pose proof (lenZ_nonneg l). lia.
  - change (write_private (ac_private_data zero_conn_param) 0) with (write_private ([] ++ replicate 256 0) (lenZ (@nil Z))).
    rewrite write_private_fits by lia. cbn [rbind app]. unfold u8. rewrite Z.mod_small; [done|].
    pose proof (lenZ_nonneg (p_connect x)). lia.
Qed.

Definition accepted_as (d : data_ptr) (n : Z) (x : cma_id_private) (c : rdma_conn_param) (qp srq : Z) : event_param :=
  ConnParam (mkConn d n (p_responder_resources x) (p_initiator_depth x) (flow_control c) (retry_count c)
                    (rnr_retry_count c) srq qp).

(**  Private data reaches the peer.  Parameters that arrive as they were sent give the
    peer's event the data of the address lookup followed by the application's, when
    together they have less than 256 bytes.  With exactly 256 the 8-bit length
    wraps and the peer sees none; with more the copy runs over the end of the command. *)
Theorem private_data_delivered x c bytes qp srq :
  private_data c = Data bytes → 0 < private_data_len c < 256 → private_data_len c ≤ lenZ bytes →
  lenZ (p_connect x) < 256 →
  let n := lenZ (p_connect x) + private_data_len c in
  match ucma_copy_conn_param_to_kern x (Some c) qp srq with
  | Ok prm => n ≤ 256 ∧ ucma_copy_conn_event prm =
      (if Z.ltb n 256 then accepted_as (Data (p_connect x ++ takeZ (private_data_len c) bytes)) n x c qp srq
       else accepted_as Null 0 x c qp srq)
  | UB why => 256 < n ∧ why = "write past private_data"
  | _ => False
  end.
Proof.
  intros Hd Hlen Hb Hn n. unfold ucma_copy_conn_param_to_kern. rewrite connect_written by done. cbn [rbind].
  rewrite Hd. destruct (Z.eqb_spec (private_data_len c) 0); [lia|]. destruct (Z.leb_spec (private_data_len c) (lenZ bytes)); [|lia].
  pose proof (lenZ_takeZ (private_data_len c) bytes) as Ht. set (src := takeZ (private_data_len c) bytes) in *.
  pose proof (lenZ_nonneg (p_connect x)). cbn [rbind]. destruct (Z.leb_spec n 256).
  - rewrite write_private_fits by (unfold n, lenZ in *; lia). cbn [rbind]. split; [done|]. unfold ucma_copy_conn_event, accepted_as. cbn.
    fold n. destruct (Z.ltb_spec n 256).
    + unfold u8; rewrite Z.mod_small by (unfold n; lia). unfold event_private_data. destruct (Z.eqb_spec n 0); [unfold n in *; lia|].
      rewrite takeZ_app_exact; [done|]. rewrite lenZ_app. unfold n. lia.
    + assert (n = 256) as -> by lia. done.
  - rewrite write_private_over by (unfold n, lenZ in *; lia). done.
Qed.

Definition some_param (data : list Z) : rdma_conn_param := mkConn (Data data) (lenZ data) 1 1 0 7 7 0 5.

Lemma private_data_delivered_witness :
  let x := with_connect (replicate 100 1) (new_id 3 0 RDMA_PS_TCP IBV_QPT_RC) in
  (∃ prm, ucma_copy_conn_param_to_kern x (Some (some_param [7; 8])) 5 0 = Ok prm ∧
     ucma_copy_conn_event prm = accepted_as (Data (replicate 100 1 ++ [7; 8])) 102 x (some_param [7; 8]) 5 0) ∧
  ucma_copy_conn_param_to_kern x (Some (some_param (replicate 200 2))) 5 0 = UB "write past private_data".
Proof.
  intros x. split.
  - pose proof (private_data_delivered x (some_param [7; 8]) [7; 8] 5 0 eq_refl ltac:(by vm_compute) ltac:(by vm_compute) ltac:(by vm_compute)) as H.
    destruct (ucma_copy_conn_param_to_kern _ _ _ _) as [prm| | | |]; try done; [|by destruct H]. exists prm. split; [done|]. by destruct H.
  - pose proof (private_data_delivered x (some_param (replicate 200 2)) (replicate 200 2) 5 0 eq_refl ltac:(by vm_compute) ltac:(by vm_compute) ltac:(by vm_compute)) as H.
    destruct (ucma_copy_conn_param_to_kern _ _ _ _) as [prm| | | |]; try done; [by destruct H|]. by destruct H as [_ ->].
Defined.
