(* ===== verification/CmaMulticast.v ===== *)
(** * The connection manager: multicast groups, rejecting, notifying and shared receive queues

    [librdmacm/src/cma.c]: the calls that still write their command to the channel's descriptor themselves ([rdma_reject],
    [rdma_notify], [rdma_join_multicast], [rdma_leave_multicast]), [rdma_create_srq] and [rdma_create_qp_exp]. *)

From S2P Require Import Prelude Layout FfTypes Wire Indexer Attrs Marshall Cma CmaConn CmaEvents CmaDemo.

(** The commands, by the members the library sets. *)
Inductive cm_write :=
  | REJECT (id : Z) (private_data : list Z) (private_data_len : Z)
  | NOTIFY (id event : Z)
  | JOIN_MCAST (id uid : Z) (addr : list Z) (addr_size : Z)
  | JOIN_IP_MCAST (id uid : Z) (addr : list Z)
  | LEAVE_MCAST (id : Z).

(** The members of [ibv_srq_init_attr_ex] that the library looks at. *)
Record srq_attr := mkSrqAttr { sr_mask : Z; sr_type : Z; sr_pd : option Z; sr_xrcd : option Z; sr_cq : option Z; sr_max_wr : Z }.
Definition IBV_SRQT_BASIC : Z := 0.
Definition IBV_SRQT_XRC : Z := 1.
Definition IBV_SRQ_INIT_ATTR_TYPE : Z := 1.
Definition IBV_SRQ_INIT_ATTR_PD : Z := 2.
Definition IBV_SRQ_INIT_ATTR_XRCD : Z := 4.
Definition IBV_SRQ_INIT_ATTR_CQ : Z := 8.

(** [k_write fd cmd]: nothing if the whole command could not be written, else the first word of the kernel's response. *)
Class CmWrite (K : Type) := {
  k_write : Z → cm_write → K → option Z * K;
  v_create_srq : Z → srq_attr → K → option Z * K;
  v_create_qp_exp : Z → qp_attr → K → option ibv_qp * K
}.

(** Takes the first pointer to [mc] out of the list; the loop has no other end. *)
Fixpoint unlink (mc : Z) (l : list Z) : res (list Z) :=
  match l with
  | [] => UB "mc_list"
  | q :: l => if Z.eqb q mc then Ok l else let* l' := unlink mc l in Ok (q :: l')
  end.

(** [!memcmp(&mc->addr, addr, addrlen)] *)
Definition same_addr (addr : list Z) (len : Z) (m : cma_multicast) : bool := bool_decide (takeZ len (mc_addr m) = takeZ len addr).

Section Multicast.
Context {K : Type} `{!CmEnv K, !CmWrite K} (af_ib_support : bool) (fuel : nat).
Implicit Types (s : cma K) (p : Z).

Definition written (o : option Z) : Z := match o with Some _ => 0 | None => -1 end.

Definition rdma_reject p (private_data : option (list Z)) (private_data_len : Z) : M K Z :=
  x ← get_id p;
  '(buf, n) ← lift (match private_data with
                    | Some d => if Z.eqb private_data_len 0 then Ok (replicate 256 0, 0)
                                else let* b := memcpy (replicate 256 0) d private_data_len in Ok (b, private_data_len)
                    | None => Ok (replicate 256 0, 0)
                    end);
  o ← env (k_write (id_channel (p_id x)) (REJECT (handle x) buf n));
  mret (written o).

Definition rdma_notify p (event : Z) : M K Z :=
  x ← get_id p;
  o ← env (k_write (id_channel (p_id x)) (NOTIFY (handle x) event));
  mret (written o).

(** The command of [rdma_join_multicast2]. *)
Definition join_cmd (x : cma_id_private) (mc : Z) (addr : list Z) (addrlen : Z) : res cm_write :=
  if af_ib_support
  then let* a := copy_addr addr addrlen 128 in Ok (JOIN_MCAST (handle x) mc a addrlen)
  else let* a := copy_addr addr addrlen 28 in Ok (JOIN_IP_MCAST (handle x) mc a).

Definition rdma_join_multicast2 p (addr : list Z) (addrlen context : Z) : M K Z :=
  o ← malloc;
  match o with
  | None => mret (-1)
  | Some mc =>
      a ← lift (copy_addr addr addrlen 128);
      upd_mcs <[mc := mkMc p context 0 0 (replicate 16 0) 0 a]> ;;
      set_id p (λ x, with_mc_list (mc :: mc_list x) x) ;;
      x ← get_id p;
      cmd ← lift (join_cmd x mc addr addrlen);
      r ← env (k_write (id_channel (p_id x)) cmd);
      match r with
      | Some h =>
          set_mc mc (λ m, mkMc (mc_id_priv m) (mc_context m) (mc_events_completed m) h (mc_mgid m) (mc_mlid m) (mc_addr m)) ;;
          ucma_complete af_ib_support fuel p
      | None =>
          x ← get_id p;
          l ← lift (unlink mc (mc_list x));
          set_id p (with_mc_list l) ;;
          upd_mcs (delete mc) ;;
          mret (-1)
      end
  end.

Definition rdma_join_multicast p (addr : list Z) (context : Z) : M K Z :=
  let addrlen := ucma_addrlen af_ib_support (Some addr) in
  if Z.eqb addrlen 0 then mret (-1) else rdma_join_multicast2 p addr addrlen context.

(** The first group with the address, and the list without it. *)
Fixpoint find_mc (addr : list Z) (len : Z) (l : list Z) : M K (option (Z * list Z)) :=
  match l with
  | [] => mret None
  | q :: l =>
      m ← get_mc q;
      if same_addr addr len m then mret (Some (q, l))
      else o ← find_mc addr len l; mret (match o with Some (r, l') => Some (r, q :: l') | None => None end)
  end.

(** The group [mc] has been found; [l] are the others.  A write that fails frees the group all the same. *)
Definition leave_rest p (x : cma_id_private) (mc : Z) (l : list Z) : M K Z :=
  set_id p (with_mc_list l) ;;
  m ← get_mc mc;
  match id_qp (p_id x) with Some qp => env_ (v_detach_mcast (qp_ptr qp) (mc_mgid m) (mc_mlid m)) | None => mret () end ;;
  r ← env (k_write (id_channel (p_id x)) (LEAVE_MCAST (mc_handle m)));
  match r with
  | None => upd_mcs (delete mc) ;; mret (-1)
  | Some reported =>
      m ← get_mc mc;
      if Z.ltb (u32 (mc_events_completed m)) reported then block else upd_mcs (delete mc) ;; mret 0
  end.

Definition rdma_leave_multicast p (addr : list Z) : M K Z :=
  let addrlen := ucma_addrlen af_ib_support (Some addr) in
  if Z.eqb addrlen 0 then mret (-1)
  else
    x ← get_id p;
    o ← find_mc addr addrlen (mc_list x);
    match o with
    | None => mret (-1)
    | Some (mc, l) => leave_rest p x mc l
    end.

(** ** Shared receive queues *)
Definition has_bit (mask bit : Z) : bool := negb (Z.eqb (Z.land mask bit) 0).

(** Zero or an error, and the attributes as the call leaves them. *)
Definition srq_xrc p (a : srq_attr) : M K (Z * srq_attr) :=
  x ← get_id p;
  xrcd ← (if has_bit (sr_mask a) IBV_SRQ_INIT_ATTR_XRCD && bool_decide (is_Some (sr_xrcd a)) then mret (sr_xrcd a)
          else d ← lift (deref "cma_dev" (p_dev x)); ucma_get_xrcd d);
  let a := mkSrqAttr (sr_mask a) (sr_type a) (sr_pd a) xrcd (sr_cq a) (sr_max_wr a) in
  if bool_decide (xrcd = None) then mret (-1, a)
  else
    let fin (cq : option Z) := mkSrqAttr (Z.lor (sr_mask a) (Z.lor IBV_SRQ_INIT_ATTR_XRCD IBV_SRQ_INIT_ATTR_CQ)) (sr_type a) (sr_pd a) xrcd cq (sr_max_wr a) in
    if has_bit (sr_mask a) IBV_SRQ_INIT_ATTR_CQ && bool_decide (is_Some (sr_cq a)) then mret (0, fin (sr_cq a))
    else
      ret ← ucma_create_cqs p 0 (sr_max_wr a);
      if negb (Z.eqb ret 0) then mret (ret, a) else x ← get_id p; mret (0, fin (id_recv_cq (p_id x))).

Definition with_srq (srq pd : option Z) (i : rdma_cm_id) : rdma_cm_id :=
  mkCmId (id_verbs i) (id_channel i) (id_context i) (id_qp i) (id_route i) (id_ps i) (id_port_num i) (id_event i) pd (id_qp_type i)
         (id_send_cq_channel i) (id_send_cq i) (id_recv_cq_channel i) (id_recv_cq i) srq.

Definition rdma_create_srq_ex p (a : srq_attr) : M K (Z * srq_attr) :=
  x ← get_id p;
  if negb (has_bit (sr_mask a) IBV_SRQ_INIT_ATTR_TYPE) then mret (-1, a)
  else
    let a := if has_bit (sr_mask a) IBV_SRQ_INIT_ATTR_PD && bool_decide (is_Some (sr_pd a)) then a
             else mkSrqAttr (Z.lor (sr_mask a) IBV_SRQ_INIT_ATTR_PD) (sr_type a) (id_pd (p_id x)) (sr_xrcd a) (sr_cq a) (sr_max_wr a) in
    '(ret, a) ← (if Z.eqb (sr_type a) IBV_SRQT_XRC then srq_xrc p a else mret (0, a));
    if negb (Z.eqb ret 0) then mret (ret, a)
    else
      verbs ← lift (deref "id->verbs" (id_verbs (p_id x)));
      o ← env (v_create_srq verbs a);
      match o with
      | None => ucma_destroy_cqs p ;; mret (-1, a)
      | Some srq => set_id p (λ x, with_pub (λ i, with_srq (Some srq) (first_of (id_pd i) (sr_pd a)) i) x) ;; mret (0, a)
      end.

Definition rdma_create_srq p (pd : option Z) (max_wr : Z) : M K (Z * srq_attr) :=
  x ← get_id p;
  rdma_create_srq_ex p
    (mkSrqAttr (Z.lor IBV_SRQ_INIT_ATTR_TYPE IBV_SRQ_INIT_ATTR_PD)
       (if Z.eqb (id_qp_type (p_id x)) IBV_QPT_XRC_RECV then IBV_SRQT_XRC else IBV_SRQT_BASIC) pd None None max_wr).

(** [rdma_create_qp_exp]: [rdma_create_qp_ex] with the experimental verb. *)
Definition rdma_create_qp_exp (abi_ver : Z) p (a : qp_attr) : M K (Z * qp_attr) :=
  x ← get_id p;
  let i := p_id x in
  match id_qp i with
  | Some _ => mret (-1, a)
  | None =>
    if match at_pd a with Some pd => negb (bool_decide (id_verbs i = Some (v_pd_context pd))) | None => false end
    then mret (-1, a)
    else
      let a := mkQpAttr (first_of (at_pd a) (id_pd i)) (at_send_cq a) (at_recv_cq a) (at_srq a) (at_xrcd a)
                        (at_max_send_wr a) (at_max_recv_wr a) (at_qp_type a) in
      if differ (id_recv_cq i) (at_recv_cq a) || differ (id_send_cq i) (at_send_cq a) then mret (-1, a)
      else
        xrcd ← (if Z.eqb (id_qp_type i) IBV_QPT_XRC_RECV && bool_decide (at_xrcd a = None) then
                  d ← lift (deref "cma_dev" (p_dev x)); ucma_get_xrcd d
                else mret (at_xrcd a));
        if Z.eqb (id_qp_type i) IBV_QPT_XRC_RECV && bool_decide (xrcd = None) then mret (-1, a)
        else
          ret ← ucma_create_cqs p (if bool_decide (is_Some (at_send_cq a) ∨ is_Some (id_send_cq i)) then 0 else at_max_send_wr a)
                                  (if bool_decide (is_Some (at_recv_cq a) ∨ is_Some (id_recv_cq i)) then 0 else at_max_recv_wr a);
          if negb (Z.eqb ret 0) then mret (ret, a)
          else
            x ← get_id p;
            let i := p_id x in
            let a := mkQpAttr (at_pd a) (first_of (at_send_cq a) (id_send_cq i)) (first_of (at_recv_cq a) (id_recv_cq i))
                              (first_of (at_srq a) (id_srq i)) xrcd (at_max_send_wr a) (at_max_recv_wr a) (at_qp_type a) in
            verbs ← lift (deref "id->verbs" (id_verbs i));
            o ← env (v_create_qp_exp verbs a);
            match o with
            | None => ucma_destroy_cqs p ;; mret (-1, a)
            | Some qp =>
                ret ← (if ucma_is_ud_qp (id_qp_type i) then ucma_init_ud_qp abi_ver fuel p qp else ucma_init_conn_qp abi_ver fuel p qp);
                if negb (Z.eqb ret 0) then env_ (v_destroy_qp (qp_ptr qp)) ;; ucma_destroy_cqs p ;; mret (ret, a)
                else set_id p (with_pub (with_qp (Some qp) (Some (qp_pd qp)))) ;; mret (0, a)
            end
  end.
End Multicast.

(** ** Joining and leaving *)
Section Groups.
Context {K : Type} `{!CmEnv K, !CmWrite K} (af_ib_support : bool) (fuel : nat).
Implicit Types (s : cma K) (p : Z).

(** The allocator gives blocks that are not in use. *)
Context (Hmalloc : ∀ l k q k', e_malloc l k = (Some q, k') → q ∉ l).

(** The groups of an identifier are blocks of its own. *)
Definition groups_ok s p (x : cma_id_private) : Prop :=
  c_ids s !! p = Some x ∧ Forall (λ q, ∃ m, c_mcs s !! q = Some m ∧ mc_id_priv m = p) (mc_list x).

Lemma find_mc_run addr len s : ∀ l, Forall (λ q, is_Some (c_mcs s !! q)) l → ∃ o, find_mc addr len l s = Ok (o, s) ∧
  match o with
  | None => ∀ q m, q ∈ l → c_mcs s !! q = Some m → same_addr addr len m = false
  | Some (mc, l') => ∃ before after m, l = before ++ mc :: after ∧ l' = before ++ after ∧ c_mcs s !! mc = Some m ∧ same_addr addr len m = true ∧
      ∀ q m, q ∈ before → c_mcs s !! q = Some m → same_addr addr len m = false
  end.
Proof.
  induction l as [|q l IH]; intros Hl; cbn [find_mc]; [eexists; split; [reflexivity|]; intros q m Hq; by apply elem_of_nil in Hq|].
  apply list.Forall_cons in Hl as [[m Hq] Hl]. unfold mbind, M_bind, get_mc, lift. rewrite Hq. cbn [deref rbind].
  destruct (same_addr addr len m) eqn:Em.
  - eexists. split; [reflexivity|]. exists [], l, m. split_and!; try done. intros q' m' Hq'. by apply elem_of_nil in Hq'.
  - destruct (IH Hl) as (o & -> & Ho). cbn [rbind]. eexists. split; [reflexivity|]. destruct o as [[mc l']|].
    + destruct Ho as (before & after & m' & -> & -> & Hmc & Hs & Hb). exists (q :: before), after, m'. split_and!; try done.
      intros q' m'' [->|Hin]%elem_of_cons Hm''; [congruence|eauto].
    + intros q' m' [->|Hin]%elem_of_cons Hm'; [congruence|eauto].
Qed.

Lemma copy_fits addr len room : 0 ≤ len ≤ lenZ addr → len ≤ room → ∃ a, copy_addr addr len room = Ok a ∧ takeZ len a = takeZ len addr.
Proof.
  intros Hl Hr. unfold copy_addr, memcpy. assert (lenZ (replicate (Z.to_nat room) 0) = room) as -> by (unfold lenZ; rewrite length_replicate; lia).
  destruct (Z.leb_spec len room); [|lia]. destruct (Z.leb_spec len (lenZ addr)); [|lia]. eexists. split; [reflexivity|].
  unfold takeZ. rewrite take_app_le, take_take; [by f_equal; lia|]. unfold lenZ in *. rewrite length_take. lia.
Qed.

(** What the address family leaves for the length. *)
Lemma addrlen_range addr : let n := ucma_addrlen af_ib_support (Some addr) in 0 ≤ n ≤ 48 ∧ (af_ib_support = false → n ≤ 28).
Proof. cbn. repeat case_match; split; lia || done. Qed.

Lemma with_own_list x l : with_mc_list (mc_list x) (with_mc_list l x) = x.
Proof. by destruct x. Qed.

(** Runs the code on a state given by its members. *)
Ltac cma_go :=
  unfold set_id, set_mc, env_, mbind, M_bind, get_id, upd_ids, get_mc, upd_mcs, env, lift, mret, M_ret;
  cbn [deref rbind c_ids c_events c_mcs ucma_idm cma_dev_array event_channel_map c_env].

Lemma group_joined s p x addr context : groups_ok s p x → sync x = false → let n := ucma_addrlen af_ib_support (Some addr) in 0 < n ≤ lenZ addr →
  ∃ ret s1, rdma_join_multicast af_ib_support fuel p addr context s = Ok (ret, s1) ∧
    (ret = -1 ∧ c_ids s1 = c_ids s ∧ c_mcs s1 = c_mcs s ∨
     ret = 0 ∧ ∃ mc m, c_mcs s !! mc = None ∧ c_ids s1 = <[p := with_mc_list (mc :: mc_list x) x]> (c_ids s) ∧ c_mcs s1 = <[mc := m]> (c_mcs s) ∧
       mc_id_priv m = p ∧ mc_context m = context ∧ mc_events_completed m = 0 ∧ same_addr addr n m = true).
Proof.
  intros [Hx _] Hsy n Hn. destruct (addrlen_range addr) as [Hr1 Hr2]. fold n in Hr1, Hr2. unfold rdma_join_multicast. fold n. destruct (Z.eqb_spec n 0); [lia|].
  destruct (copy_fits addr n 128) as (a & Ea & Ha); [lia|lia|]. unfold rdma_join_multicast2, malloc. unfold mbind at 1, M_bind at 1, env at 1.
  destruct (e_malloc (live s) (c_env s)) as [[mc|] k] eqn:Em; [|eexists _, _; split; [reflexivity|]; by left]. cbn [rbind].
  apply Hmalloc in Em. assert (c_mcs s !! mc = None) as Hmc by (apply not_elem_of_dom; intros Hin; apply Em; unfold live; set_solver).
  assert (∃ c, join_cmd af_ib_support (with_mc_list (mc :: mc_list x) x) mc addr n = Ok c) as [c Ec].
  { unfold join_cmd. destruct af_ib_support; [rewrite Ea; by eexists|]. destruct (copy_fits addr n 28) as (a' & -> & _); [lia|auto|]. by eexists. }
  clear Em. destruct s as [ids evs mcs idm devs chans k0]. cbn [c_ids c_mcs c_events ucma_idm cma_dev_array event_channel_map] in *.
  cma_go. rewrite Ea. cma_go. rewrite Hx. cma_go. rewrite lookup_insert_eq. cma_go. rewrite Ec. cma_go.
  destruct (k_write (id_channel (p_id (with_mc_list (mc :: mc_list x) x))) c k) as [[h|] k2]; cma_go.
  - rewrite lookup_insert_eq. cma_go. unfold ucma_complete. cma_go. rewrite lookup_insert_eq. cma_go. change (sync (with_mc_list (mc :: mc_list x) x)) with (sync x). rewrite Hsy.
    eexists _, _. split; [reflexivity|]. right. split; [done|]. cbn [c_ids c_mcs]. rewrite insert_insert_eq. eexists mc, _. split_and!; try done.
    unfold same_addr. cbn. by apply bool_decide_eq_true.
  - rewrite lookup_insert_eq. cbn [deref rbind mc_list with_mc_list unlink]. rewrite Z.eqb_refl. cma_go. rewrite lookup_insert_eq. cma_go.
    eexists _, _. split; [reflexivity|]. left. cbn [c_ids c_mcs]. rewrite with_own_list, insert_insert_eq, insert_id, delete_insert_id by done. done.
Qed.

(** The group is found, the kernel told, and the block freed once the reported events are acknowledged. *)
Lemma leave_run s p x addr : groups_ok s p x → let n := ucma_addrlen af_ib_support (Some addr) in n ≠ 0 →
  (rdma_leave_multicast af_ib_support p addr s = Ok (-1, s) ∧ ∀ q m, q ∈ mc_list x → c_mcs s !! q = Some m → same_addr addr n m = false) ∨
  ∃ before mc m after k o k1 s1, mc_list x = before ++ mc :: after ∧ c_mcs s !! mc = Some m ∧ same_addr addr n m = true ∧
    (∀ q m, q ∈ before → c_mcs s !! q = Some m → same_addr addr n m = false) ∧
    k_write (id_channel (p_id x)) (LEAVE_MCAST (mc_handle m)) k = (o, k1) ∧
    c_ids s1 = <[p := with_mc_list (before ++ after) x]> (c_ids s) ∧ c_mcs s1 = delete mc (c_mcs s) ∧
    rdma_leave_multicast af_ib_support p addr s =
      match o with
      | None => Ok (-1, s1)
      | Some reported => if Z.ltb (u32 (mc_events_completed m)) reported then Blocked else Ok (0, s1)
      end.
Proof.
  intros [Hx Hg] n Hn. destruct (find_mc_run addr n s (mc_list x)) as (o & Eo & Ho).
  { eapply list.Forall_impl; [exact Hg|]. intros q (m & Hm & _). by eexists. }
  assert (rdma_leave_multicast af_ib_support p addr s = match o with None => Ok (-1, s) | Some (mc, l) => leave_rest p x mc l s end) as El.
  { unfold rdma_leave_multicast. fold n. destruct (Z.eqb_spec n 0); [done|]. unfold mbind at 1, M_bind at 1, get_id, lift. rewrite Hx. cbn [deref rbind].
    unfold mbind at 1, M_bind at 1. rewrite Eo. cbn [rbind]. destruct o as [[mc l]|]; done. }
  rewrite El. destruct o as [[mc l]|]; [right|by left]. clear El Eo Hg. destruct Ho as (before & after & m & Hl & -> & Hm & Hs & Hb).
  destruct s as [ids evs mcs idm devs chans k0]. cbn [c_ids c_mcs] in *. set (k := match id_qp (p_id x) with Some qp => v_detach_mcast (qp_ptr qp) (mc_mgid m) (mc_mlid m) k0 | None => k0 end).
  destruct (k_write (id_channel (p_id x)) (LEAVE_MCAST (mc_handle m)) k) as [r k1] eqn:Ek.
  exists before, mc, m, after, k, r, k1, (mkCma (<[p := with_mc_list (before ++ after) x]> ids) evs (delete mc mcs) idm devs chans k1). split_and!; try done.
  unfold leave_rest. cma_go. rewrite Hx. cma_go. rewrite Hm. cma_go. subst k. destruct (id_qp (p_id x)) as [qp|]; cma_go; rewrite Ek; cma_go; destruct r; cma_go; try done;
    rewrite Hm; cma_go; by destruct (Z.ltb _ _).
Qed.


(** ** A failure that takes more with it

    Whatever queue was asked for: if it cannot be created, the completion queues of the identifier are destroyed, also those its queue
    pair works with. *)
Lemma srq_failure_destroys_cqs s p x a verbs rcq k1 : c_ids s !! p = Some x → id_verbs (p_id x) = Some verbs → id_recv_cq (p_id x) = Some rcq → id_recv_cq_channel (p_id x) = None →
  id_send_cq (p_id x) = Some rcq → id_srq (p_id x) = None → sr_mask a = Z.lor IBV_SRQ_INIT_ATTR_TYPE IBV_SRQ_INIT_ATTR_PD → sr_type a = IBV_SRQT_BASIC → is_Some (sr_pd a) →
  v_create_srq verbs a (c_env s) = (None, k1) →
  ∃ s1, rdma_create_srq_ex p a s = Ok ((-1, a), s1) ∧ c_env s1 = v_destroy_cq rcq k1 ∧
    c_ids s1 = <[p := with_pub (with_cqs (id_send_cq_channel (p_id x)) (Some rcq) None None) x]> (c_ids s).
Proof.
  intros Hx Hv Hr Hc Hsd Hsrq Hmask Hty [pd Hpd] Ek. destruct s as [ids evs mcs idm devs chans k0]. cbn [c_ids c_env] in *.
  unfold rdma_create_srq_ex. cma_go. rewrite Hx. cma_go. rewrite Hmask, Hpd, Hty. rewrite bool_decide_true by (by eexists). cma_go. cbn [has_bit].
  change (has_bit _ IBV_SRQ_INIT_ATTR_TYPE) with true. change (has_bit _ IBV_SRQ_INIT_ATTR_PD) with true. cbn [negb andb]. rewrite Hty. cma_go. cbn [negb Z.eqb IBV_SRQT_XRC IBV_SRQT_BASIC]. cma_go.
  cbv beta iota. rewrite Hv. cma_go. cbn [Z.eqb negb]. cma_go. rewrite Ek. cma_go. unfold ucma_destroy_cqs, set_cqs. cma_go. rewrite Hx. cma_go. rewrite Hsrq, Hr, Hsd, Hc. rewrite bool_decide_false by (by intros [? ?]).
  rewrite andb_false_r. unfold destroy_pair. cma_go. rewrite Z.eqb_refl. cma_go. rewrite Hx. cma_go. by eexists.
Qed.
End Groups.

#[export] Instance kernel_write : CmWrite kernel := {|
  k_write fd c k := (Some (match c with LEAVE_MCAST _ => 0 | _ => 9 end), k);
  v_create_srq v a k := (None, k);
  v_create_qp_exp v a k := (None, k)
|}.
Lemma kernel_malloc l (k : kernel) q k' : e_malloc l k = (Some q, k') → q ∉ l.
Proof. intros [= <- _]. intros Hin. apply (is_fresh ({[0]} ∪ l)). set_solver. Qed.

Definition group_addr : list Z := 2 :: replicate 15 0.
Definition group_id : cma_id_private :=
  mkPriv (mkCmId None 3 0 None (mkRoute [] [] [] [] 0 None) 0 0 None None 0 None None None None None) None [] 0 false false 4 [] 0 0 None.
Definition group_state : cma kernel := mkCma {[10 := group_id]} ∅ ∅ ∅ [] ∅ (mkKernel ∅ 1 []).

