(* ===== verification/Vip.v ===== *)
(** * Addresses: virtual and host

    [ffrouter.cpp]: the router's map from the containers' addresses to those of the
    hosts, kept as text, its application to the addresses in requests ([map_vip],
    [get_in_addr]), and the choice of the host's own address at start-up.  Text is
    a list of character codes; an IPv4 address is four bytes. *)

From S2P Require Import Prelude Cma CmaConn.

(** ** Dotted-decimal text *)
Definition chars (s : string) : list Z := (λ c, Z.of_N (Ascii.N_of_ascii c)) <$> String.list_ascii_of_string s.

Definition dot : Z := 46.
Definition digit (d : Z) : Z := 48 + d.

(** [%u] of an octet *)
Definition octet_text (n : Z) : list Z :=
  if Z.ltb n 10 then [digit n]
  else if Z.ltb n 100 then [digit (n / 10); digit (n mod 10)]
  else [digit (n / 100); digit (n / 10 mod 10); digit (n mod 10)].

Fixpoint join_dots (l : list (list Z)) : list Z :=
  match l with
  | [] => []
  | [x] => x
  | x :: l => x ++ dot :: join_dots l
  end.

Definition inet_ntop (addr : list Z) : list Z := join_dots (octet_text <$> addr).

(** [inet_pton]: the octets before the current one, the current one if a digit of it
    was seen. *)
Record pton := mkPton { pt_done : list Z; pt_cur : option Z }.

Definition pton_char (st : pton) (ch : Z) : option pton :=
  if Z.leb 48 ch && Z.leb ch 57 then
    match pt_cur st with
    | Some n => if Z.eqb n 0 || Z.ltb 255 (n * 10 + (ch - 48)) then None else Some (mkPton (pt_done st) (Some (n * 10 + (ch - 48))))
    | None => if Z.leb 4 (lenZ (pt_done st)) then None else Some (mkPton (pt_done st) (Some (ch - 48)))
    end
  else if Z.eqb ch dot then
    match pt_cur st with
    | Some n => if Z.leb 4 (lenZ (pt_done st) + 1) then None else Some (mkPton (pt_done st ++ [n]) None)
    | None => None
    end
  else None.

Fixpoint pton_chars (st : pton) (l : list Z) : option pton :=
  match l with
  | [] => Some st
  | ch :: l => match pton_char st ch with Some st => pton_chars st l | None => None end
  end.

Definition inet_pton (text : list Z) : option (list Z) :=
  match pton_chars (mkPton [] None) text with
  | Some (mkPton d (Some n)) => if Z.eqb (lenZ d) 3 then Some (d ++ [n]) else None
  | _ => None
  end.

(** ** The map of addresses *)
Abbreviation vip_text := (gmap (list Z) (list Z)).

(** Filled in by the constructor. *)
Definition vip_map : vip_text :=
  list_to_map ((λ x, (chars x.1, chars x.2)) <$> [
    ("10.47.0.4", "192.168.2.13"); ("10.47.0.6", "192.168.2.13"); ("10.47.0.7", "192.168.2.13");
    ("10.47.0.8", "192.168.2.13"); ("10.44.0.3", "192.168.2.15"); ("10.44.0.4", "192.168.2.15");
    ("10.44.0.6", "192.168.2.15")]%string).

(** The four bytes at [addr], before and after. *)
Definition map_vip (m : vip_text) (addr : list Z) : list Z :=
  match m !! inet_ntop addr with
  | Some dip => default addr (inet_pton dip)
  | None => addr
  end.

(** ** Printing and parsing *)
Definition octet (n : Z) : Prop := 0 ≤ n < 256.
Definition ipv4 (a : list Z) : Prop := length a = 4%nat ∧ Forall octet a.

Lemma pton_chars_app st l k :
  pton_chars st (l ++ k) = match pton_chars st l with Some st => pton_chars st k | None => None end.
Proof. revert st. induction l as [|ch l IH]; intros st; cbn; [done|]. by destruct (pton_char st ch). Qed.

Lemma pton_digit d n : 0 ≤ n < 10 →
  pton_char (mkPton d None) (digit n) = if Z.leb 4 (lenZ d) then None else Some (mkPton d (Some n)).
Proof.
  intros Hn. unfold pton_char, digit. destruct (Z.leb_spec 48 (48 + n)); [|lia]. destruct (Z.leb_spec (48 + n) 57); [|lia].
  cbn. by replace (48 + n - 48) with n by lia.
Qed.

Lemma pton_more d n c : 0 < n → 0 ≤ c < 10 → n * 10 + c < 256 →
  pton_char (mkPton d (Some n)) (digit c) = Some (mkPton d (Some (n * 10 + c))).
Proof.
  intros Hn Hc Hs. unfold pton_char, digit. destruct (Z.leb_spec 48 (48 + c)); [|lia]. destruct (Z.leb_spec (48 + c) 57); [|lia].
  cbn. replace (48 + c - 48) with c by lia. destruct (Z.eqb_spec n 0); [lia|]. by destruct (Z.ltb_spec 255 (n * 10 + c)); [lia|].
Qed.

Lemma pton_octet d n : octet n → lenZ d < 4 → pton_chars (mkPton d None) (octet_text n) = Some (mkPton d (Some n)).
Proof.
  unfold octet, octet_text. intros Hn Hd. destruct (Z.ltb_spec n 10); [|destruct (Z.ltb_spec n 100)]; cbn [pton_chars].
  - rewrite pton_digit by lia. by destruct (Z.leb_spec 4 (lenZ d)); [lia|].
  - pose proof (Z.div_mod n 10). pose proof (Z.mod_pos_bound n 10). rewrite pton_digit by lia.
    destruct (Z.leb_spec 4 (lenZ d)); [lia|]. rewrite pton_more by lia. do 3 f_equal. lia.
  - assert (n / 10 / 10 = n / 100) as Hq by (by rewrite Z.div_div).
    pose proof (Z.div_mod n 10). pose proof (Z.mod_pos_bound n 10). pose proof (Z.div_mod (n / 10) 10).
    pose proof (Z.mod_pos_bound (n / 10) 10). rewrite pton_digit by lia.
    destruct (Z.leb_spec 4 (lenZ d)); [lia|]. rewrite !pton_more by lia. do 3 f_equal. lia.
Qed.

Lemma pton_dot d n : lenZ d < 3 → pton_char (mkPton d (Some n)) dot = Some (mkPton (d ++ [n]) None).
Proof. intros Hd. unfold pton_char. cbn. by destruct (Z.leb_spec 4 (lenZ d + 1)); [lia|]. Qed.

Lemma pton_ntop a : ipv4 a → inet_pton (inet_ntop a) = Some a.
Proof.
  intros [Hl Ha]. destruct a as [|a [|b [|c [|d [|]]]]]; try done. rewrite !list.Forall_cons in Ha.
  destruct Ha as (Ha & Hb & Hc & Hd & _). unfold inet_pton.
  change (inet_ntop [a; b; c; d]) with (octet_text a ++ dot :: octet_text b ++ dot :: octet_text c ++ dot :: octet_text d).
  do 3 (rewrite pton_chars_app, pton_octet by done; cbn [pton_chars]; rewrite pton_dot by done; cbn [app]).
  by rewrite pton_octet.
Qed.

Lemma ntop_inj a b : ipv4 a → ipv4 b → inet_ntop a = inet_ntop b → a = b.
Proof. intros Ha Hb E. apply pton_ntop in Ha, Hb. congruence. Qed.

(** ** The map as a substitution *)
Definition text_of (l : list (list Z * list Z)) : vip_text :=
  list_to_map ((λ x, (inet_ntop x.1, inet_ntop x.2)) <$> l).

Definition vip_table : list (list Z * list Z) := [
  ([10; 47; 0; 4], [192; 168; 2; 13]); ([10; 47; 0; 6], [192; 168; 2; 13]); ([10; 47; 0; 7], [192; 168; 2; 13]);
  ([10; 47; 0; 8], [192; 168; 2; 13]); ([10; 44; 0; 3], [192; 168; 2; 15]); ([10; 44; 0; 4], [192; 168; 2; 15]);
  ([10; 44; 0; 6], [192; 168; 2; 15])].

Lemma text_of_lookup l a :
  Forall (λ x, ipv4 x.1 ∧ ipv4 x.2) l → ipv4 a → text_of l !! inet_ntop a = inet_ntop <$> (list_to_map l : vip_text) !! a.
Proof.
  intros Hl Ha. unfold text_of. induction Hl as [|[k v] l [Hk _] Hl IH]; [done|].
  rewrite fmap_cons. cbn [fst snd] in *. rewrite !list_to_map_cons.
  destruct (decide (a = k)) as [->|Hne]; [by rewrite !lookup_insert_eq|].
  rewrite !lookup_insert_ne; [done|done|]. intros E. by apply Hne, (ntop_inj a k).
Qed.

(** The map the router starts with replaces exactly the addresses of the table. *)
Lemma map_vip_text l a :
  Forall (λ x, ipv4 x.1 ∧ ipv4 x.2) l → ipv4 a → map_vip (text_of l) a = default a ((list_to_map l : vip_text) !! a).
Proof.
  intros Hl Ha. unfold map_vip. rewrite text_of_lookup by done.
  destruct ((list_to_map l : vip_text) !! a) as [b|] eqn:Hb; [|done]. cbn. rewrite pton_ntop; [done|].
  apply elem_of_list_to_map_2 in Hb. rewrite list.Forall_forall in Hl. by apply Hl in Hb as [_ Hb].
Qed.

Lemma vip_map_text : vip_map = text_of vip_table.
Proof. done. Qed.

Lemma vip_table_ok : Forall (λ x, ipv4 x.1 ∧ ipv4 x.2) vip_table.
Proof. repeat constructor; vm_compute; done. Qed.

(** What the table makes of an address. *)
Definition translate (l : list (list Z * list Z)) (a : list Z) : list Z := default a ((list_to_map l : vip_text) !! a).

Lemma translate_ipv4 l a : Forall (λ x, ipv4 x.1 ∧ ipv4 x.2) l → ipv4 a → ipv4 (translate l a).
Proof.
  intros Hl Ha. unfold translate. destruct ((list_to_map l : vip_text) !! a) as [b|] eqn:Hb; [|done].
  apply elem_of_list_to_map_2 in Hb. rewrite list.Forall_forall in Hl. by apply Hl in Hb as [_ Hb].
Qed.

(** ** The host's address

    An address as the sockets interface has it, [s_addr]: the integer whose bytes in
    memory are the address. *)
Definition prefix_ip (a b c d : Z) : Z :=
  swap32 (u32 (Z.lor (Z.lor (Z.lor (Z.shiftl a 24) (Z.shiftl b 16)) (Z.shiftl c 8)) d)).
Definition prefix_mask (bits : Z) : Z := swap32 (Z.land (Z.shiftl 0xFFFFFFFF (32 - bits)) 0xFFFFFFFF).

(** The first interface of the family whose address has the prefix. *)
Fixpoint find_ifa (ip mask : Z) (ifs : list (option (Z * Z))) : option Z :=
  match ifs with
  | [] => None
  | Some (family, s_addr) :: ifs =>
      if Z.eqb family AF_INET && Z.eqb (Z.land s_addr mask) (Z.land ip mask) then Some s_addr else find_ifa ip mask ifs
  | None :: ifs => find_ifa ip mask ifs
  end.

(** [prefix]: what [sscanf] read from HOST_IP_PREFIX; [host]: [inet_addr] of HOST_IP. *)
Definition choose_host_ip (prefix : option (Z * Z * Z * Z * Z)) (host : option Z) (ifs : list (option (Z * Z))) : Z :=
  let from_prefix :=
    match prefix with
    | Some (a, b, c, d, bits) =>
        let '(ip, mask) := if Z.leb bits 32 then (prefix_ip a b c d, prefix_mask bits) else (0, 0) in
        if negb (Z.eqb ip 0) || negb (Z.eqb mask 0) then default 0 (find_ifa ip mask ifs) else 0
    | None => 0
    end in
  default from_prefix host.

(** Bit [i] of an address in the other byte order. *)
Definition rev_bit (i : Z) : Z :=
  if Z.ltb i 8 then i + 24 else if Z.ltb i 16 then i + 8 else if Z.ltb i 24 then i - 8 else i - 24.

Lemma rev_bit_spec i : 0 ≤ i < 32 → 0 ≤ rev_bit i < 32 ∧ rev_bit (rev_bit i) = i.
Proof. intros Hi. unfold rev_bit. repeat (case_match; rewrite ?Z.ltb_lt, ?Z.ltb_ge in *; try lia). Qed.

Lemma byte_testbit z i : Z.testbit (Z.land z 255) i = Z.testbit z i && (Z.leb 0 i && Z.ltb i 8).
Proof.
  rewrite Z.land_spec. f_equal. change 255 with (Z.ones 8). destruct (Z.leb_spec 0 i); cbn.
  - by rewrite Z.testbit_ones_nonneg by lia.
  - by apply Z.testbit_neg_r.
Qed.

Lemma half_testbit z i : Z.testbit (Z.land z 65535) i = Z.testbit z i && (Z.leb 0 i && Z.ltb i 16).
Proof.
  rewrite Z.land_spec. f_equal. change 65535 with (Z.ones 16). destruct (Z.leb_spec 0 i); cbn.
  - by rewrite Z.testbit_ones_nonneg by lia.
  - by apply Z.testbit_neg_r.
Qed.

Ltac bit_cases :=
  repeat match goal with
  | |- context [Z.leb ?a ?b] => destruct (Z.leb_spec a b); try lia
  | |- context [Z.ltb ?a ?b] => destruct (Z.ltb_spec a b); try lia
  end; rewrite ?andb_true_r, ?andb_false_r, ?orb_false_r, ?orb_false_l; try done.

Lemma swap16_testbit z i : 0 ≤ i →
  Z.testbit (swap16 z) i = if Z.ltb i 8 then Z.testbit z (i + 8) else Z.ltb i 16 && Z.testbit z (i - 8).
Proof.
  intros Hi. unfold swap16. rewrite Z.lor_spec, Z.shiftl_spec, !byte_testbit, Z.shiftr_spec by done.
  bit_cases.
Qed.

Lemma swap32_testbit z i : 0 ≤ i → Z.testbit (swap32 z) i = Z.ltb i 32 && Z.testbit z (rev_bit i).
Proof.
  intros Hi. unfold swap32, rev_bit. rewrite Z.lor_spec, Z.shiftl_spec by done.
  destruct (Z.ltb_spec i 16).
  - rewrite (Z.testbit_neg_r _ (i - 16)) by lia. rewrite orb_false_l, swap16_testbit, !half_testbit by done.
    bit_cases; cbn [andb]; rewrite Z.shiftr_spec by lia; f_equal; lia.
  - rewrite !swap16_testbit by lia. rewrite !half_testbit. bit_cases; cbn [andb orb]; rewrite ?orb_false_r; f_equal; lia.
Qed.

Lemma swap32_high z i : 32 ≤ i → Z.testbit (swap32 z) i = false.
Proof. intros Hi. rewrite swap32_testbit by lia. by destruct (Z.ltb_spec i 32); [lia|]. Qed.

Lemma u32_high z i : 0 ≤ z < 2 ^ 32 → 32 ≤ i → Z.testbit z i = false.
Proof. intros Hz Hi. rewrite <- (Z.mod_small z (2 ^ 32)) by done. by rewrite Z.mod_pow2_bits_high by lia. Qed.

Lemma mask_testbit bits i : 0 ≤ bits ≤ 32 → 0 ≤ i →
  Z.testbit (Z.land (Z.shiftl 0xFFFFFFFF (32 - bits)) 0xFFFFFFFF) i = Z.leb (32 - bits) i && Z.ltb i 32.
Proof.
  intros Hb Hi. rewrite Z.land_spec, Z.shiftl_spec by done. change 0xFFFFFFFF with (Z.ones 32).
  rewrite (Z.testbit_ones_nonneg 32 i) by lia. destruct (Z.leb_spec (32 - bits) i).
  - rewrite Z.testbit_ones_nonneg by lia. bit_cases.
  - by rewrite Z.testbit_neg_r by lia.
Qed.

(** The comparison in memory order is the comparison of the leading bits. *)
Lemma masked_prefix s p bits :
  0 ≤ s < 2 ^ 32 → 0 ≤ p < 2 ^ 32 → 0 ≤ bits ≤ 32 →
  (Z.land s (prefix_mask bits) = Z.land (swap32 p) (prefix_mask bits) ↔
   Z.shiftr (swap32 s) (32 - bits) = Z.shiftr p (32 - bits)).
Proof.
  intros Hs Hp Hb. unfold prefix_mask. split; intros E; apply Z.bits_inj'; intros i Hi.
  - rewrite !Z.shiftr_spec by lia. destruct (Z.ltb_spec (i + (32 - bits)) 32) as [Hlt|Hge].
    + destruct (rev_bit_spec (i + (32 - bits))) as [Hr Hrr]; [lia|].
      apply (f_equal (λ z, Z.testbit z (rev_bit (i + (32 - bits))))) in E.
      rewrite !Z.land_spec, !swap32_testbit, Hrr, mask_testbit in E by lia.
      rewrite swap32_testbit by lia. revert E. bit_cases.
    + by rewrite swap32_high, u32_high by lia.
  - rewrite !Z.land_spec. destruct (Z.ltb_spec i 32) as [Hlt|Hge].
    + destruct (rev_bit_spec i) as [Hr Hrr]; [lia|].
      rewrite !swap32_testbit, mask_testbit by lia. destruct (Z.leb_spec (32 - bits) (rev_bit i)).
      * apply (f_equal (λ z, Z.testbit z (rev_bit i - (32 - bits)))) in E. rewrite !Z.shiftr_spec in E by lia.
        replace (rev_bit i - (32 - bits) + (32 - bits)) with (rev_bit i) in E by lia.
        rewrite swap32_testbit, Hrr in E by lia. revert E. bit_cases.
      * by rewrite !andb_false_r.
    + by rewrite (u32_high s), (swap32_high p).
Qed.

(** An interface's address has the leading [bits] bits of [p]. *)
Definition in_prefix (p bits : Z) (x : option (Z * Z)) : bool :=
  match x with
  | Some (family, s_addr) =>
      Z.eqb family AF_INET && Z.eqb (Z.shiftr (swap32 s_addr) (32 - bits)) (Z.shiftr p (32 - bits))
  | None => false
  end.

Definition addr_of (x : option (Z * Z)) : Z := default 0 (snd <$> x).

Lemma find_ifa_first p bits ifs :
  Forall (λ x, 0 ≤ addr_of x < 2 ^ 32) ifs → 0 ≤ p < 2 ^ 32 → 0 ≤ bits ≤ 32 →
  default 0 (find_ifa (swap32 p) (prefix_mask bits) ifs) = addr_of (default None (List.find (in_prefix p bits) ifs)).
Proof.
  intros Hifs Hp Hb. induction Hifs as [|[[f s]|] ifs Hx Hifs IH]; [done| |done]. cbn [find_ifa List.find in_prefix].
  pose proof (masked_prefix s p bits Hx Hp Hb) as Hm.
  destruct (Z.eqb_spec f AF_INET); cbn [andb]; [|done].
  destruct (Z.eqb_spec (Z.land s (prefix_mask bits)) (Z.land (swap32 p) (prefix_mask bits)));
    destruct (Z.eqb_spec (Z.shiftr (swap32 s) (32 - bits)) (Z.shiftr p (32 - bits))); try done; tauto.
Qed.

Lemma swap32_zero z : 0 ≤ z < 2 ^ 32 → swap32 z = 0 ↔ z = 0.
Proof.
  intros Hz. split; [|by intros ->]. intros E. apply Z.bits_inj'. intros i Hi. rewrite Z.bits_0.
  destruct (Z.ltb_spec i 32); [|by apply u32_high]. destruct (rev_bit_spec i) as [Hr Hrr]; [lia|].
  apply (f_equal (λ z, Z.testbit z (rev_bit i))) in E. rewrite swap32_testbit, Hrr, Z.bits_0 in E by lia. revert E. bit_cases.
Qed.

Definition dotted (a b c d : Z) : Z := ((a * 256 + b) * 256 + c) * 256 + d.

Lemma dotted_lor a b c d : octet a → octet b → octet c → octet d →
  u32 (Z.lor (Z.lor (Z.lor (Z.shiftl a 24) (Z.shiftl b 16)) (Z.shiftl c 8)) d) = dotted a b c d ∧
  0 ≤ dotted a b c d < 2 ^ 32.
Proof.
  unfold octet, dotted. intros Ha Hb Hc Hd. split; [|lia].
  assert (∀ x y n, 0 ≤ n → 0 ≤ y < 2 ^ n → Z.lor (Z.shiftl x n) y = x * 2 ^ n + y) as Hor.
  { intros x y n Hn Hy. rewrite <- Z.shiftl_mul_pow2 by done. rewrite <- Z.lxor_lor, <- Z.add_nocarry_lxor; try done;
      apply Z.bits_inj'; intros i Hi; rewrite Z.land_spec, Z.shiftl_spec, Z.bits_0 by done;
      (destruct (Z.ltb_spec i n); [by rewrite Z.testbit_neg_r by lia|]);
      rewrite <- (Z.mod_small y (2 ^ n)) by done; rewrite Z.mod_pow2_bits_high by lia; apply andb_false_r. }
  change 24 with (8 + 16) at 1. rewrite <- Z.shiftl_shiftl by lia. rewrite <- Z.shiftl_lor.
  rewrite (Hor a b 8) by lia. change 16 with (8 + 8). rewrite <- Z.shiftl_shiftl by lia. rewrite <- Z.shiftl_lor.
  rewrite (Hor _ c 8) by lia. rewrite (Hor _ d 8) by lia. apply Z.mod_small. lia.
Qed.

Lemma prefix_mask_zero bits : 0 ≤ bits ≤ 32 → prefix_mask bits = 0 → bits = 0.
Proof.
  intros Hb E. destruct (decide (bits = 0)) as [|Hne]; [done|]. unfold prefix_mask in E.
  apply (f_equal (λ z, Z.testbit z (rev_bit 31))) in E. rewrite swap32_testbit, mask_testbit in E by done.
  change (rev_bit (rev_bit 31)) with 31 in E. destruct (Z.leb_spec (32 - bits) 31); [done|lia].
Qed.

(** HOST_IP_PREFIX selects by leading bits.  With a prefix [a.b.c.d/bits] and no
    HOST_IP the router's address is that of the first IPv4 interface whose leading
    [bits] bits are those of [a.b.c.d], or 0 if there is none; HOST_IP overrides it. *)
Theorem host_ip_by_prefix a b c d bits ifs :
  octet a → octet b → octet c → octet d → 0 ≤ bits ≤ 32 → (dotted a b c d ≠ 0 ∨ bits ≠ 0) →
  Forall (λ x, 0 ≤ addr_of x < 2 ^ 32) ifs →
  choose_host_ip (Some (a, b, c, d, bits)) None ifs =
    addr_of (default None (List.find (in_prefix (dotted a b c d) bits) ifs)) ∧
  ∀ prefix h, choose_host_ip prefix (Some h) ifs = h.
Proof.
  intros Ha Hb Hc Hd Hbits Hne Hifs. split; [|done]. unfold choose_host_ip. cbn [default from_option id].
  destruct (Z.leb_spec bits 32); [|lia]. unfold prefix_ip. destruct (dotted_lor a b c d Ha Hb Hc Hd) as [-> Hp].
  assert (negb (Z.eqb (swap32 (dotted a b c d)) 0) || negb (Z.eqb (prefix_mask bits) 0) = true) as ->.
  { apply orb_true_iff. rewrite !negb_true_iff, !Z.eqb_neq, swap32_zero by done.
    destruct Hne as [?|Hne]; [by left|]. right. intros E. by apply Hne, prefix_mask_zero. }
  by apply find_ifa_first.
Qed.

Lemma host_ip_by_prefix_witness :
  choose_host_ip (Some (192, 168, 2, 0, 24)) None
    [None; Some (10, 0); Some (2, swap32 (dotted 127 0 0 1)); Some (2, swap32 (dotted 192 168 2 13))] =
  swap32 (dotted 192 168 2 13).
Proof.
  destruct (host_ip_by_prefix 192 168 2 0 24
    [None; Some (10, 0); Some (2, swap32 (dotted 127 0 0 1)); Some (2, swap32 (dotted 192 168 2 13))]) as [-> _];
    try (unfold octet; lia); [|by vm_compute].
  repeat constructor; by vm_compute.
Defined.
