(* ===== verification/CmRouter.v ===== *)
(** * The router's side of the connection manager

    The CM cases of [HandleRequest] (ffrouter.cpp) and the functions of the router's
    copy of librdmacm that they call: each takes the command the client's library
    built, makes one of its own for the kernel and writes it to the event channel. *)

From S2P Require Import Prelude Layout FfTypes Wire Attrs Cma CmaConn Vip.

(** ** Commands of the kernel interface (rdma_cma_abi.h) *)
Definition UCMA_CMD_CREATE_ID : Z := 0.
Definition UCMA_CMD_DESTROY_ID : Z := 1.
Definition UCMA_CMD_BIND_IP : Z := 2.
Definition UCMA_CMD_RESOLVE_IP : Z := 3.
Definition UCMA_CMD_RESOLVE_ROUTE : Z := 4.
Definition UCMA_CMD_QUERY_ROUTE : Z := 5.
Definition UCMA_CMD_CONNECT : Z := 6.
Definition UCMA_CMD_LISTEN : Z := 7.
Definition UCMA_CMD_ACCEPT : Z := 8.
Definition UCMA_CMD_DISCONNECT : Z := 10.
Definition UCMA_CMD_INIT_QP_ATTR : Z := 11.
Definition UCMA_CMD_GET_EVENT : Z := 12.
Definition UCMA_CMD_SET_OPTION : Z := 14.
Definition UCMA_CMD_MIGRATE_ID : Z := 18.
Definition UCMA_CMD_QUERY : Z := 19.
Definition UCMA_CMD_BIND : Z := 20.
Definition UCMA_CMD_RESOLVE_ADDR : Z := 21.

(** The kernel: opening and closing event channels, and [write] of a command of the given
    size with the buffer its response goes to; [None] while it sleeps. *)
Class CmKernel (K : Type) := {
  cm_open : K → option Z * K;
  cm_close : Z → K → K;
  cm_write : Z → Z → mem → mem → K → option (Z * mem * K)
}.

(** ** Memory *)
Definition in_span (f : Z * Z) (a : Z) : bool := Z.leb f.1 a && Z.ltb a (f.1 + f.2).
Definition copy_span (f : Z * Z) (src dst : mem) : mem := λ a, if in_span f a then src a else dst a.

(** [memcpy(dst + off, src, n)] *)
Definition blit (off n : Z) (src dst : mem) : mem := λ a, if in_span (off, n) a then src (a - off) else dst a.

(** [cmd.f = cmd_inp->f] for each of the members. *)
Definition copy_fields (t : cty) (fs : list string) (src dst : mem) : mem :=
  foldl (λ m n, copy_span (field t [n]) src m) dst fs.

(** [CMA_INIT_CMD], [CMA_INIT_CMD_RESP] *)
Definition init_cmd (t : cty) (op : Z) : mem :=
  store (field t ["in"]) (sizeof t - 8) (store (field t ["cmd"]) op (λ _, 0)).
Definition init_cmd_resp (t : cty) (op ptr n : Z) : mem :=
  store (field t ["response"]) ptr (store (field t ["out"]) n (init_cmd t op)).

(** ** Addresses *)
Definition family_at (off : Z) (m : mem) : Z := le_val (load_bytes off 2 m).

(** The address inside a [sockaddr] at [off]. *)
Definition get_in_addr (off : Z) (m : mem) : Z := if Z.eqb (family_at off m) AF_INET then off + 4 else off + 8.

(** [map_vip] on the four bytes at [off]. *)
Definition map_at (vm : vip_text) (off : Z) (m : mem) : mem :=
  blit off 4 (λ a, nth (Z.to_nat a) (map_vip vm (load_bytes off 4 m)) 0) m.

(** Where a member of the command is in the request. *)
Definition addr_off (req_t cmd_t : cty) (n : string) : Z := (field req_t ["cmd"]).1 + (field cmd_t [n]).1.

(** The request after the handler has mapped the addresses in it. *)
Definition mapped (vm : vip_text) (f : RDMA_FUNCTION_CALL) (req : mem) : mem :=
  let sock off req := map_at vm (get_in_addr off req) req in
  match f with
  | CM_BIND_IP => map_at vm (addr_off S_CM_BIND_IP_REQ S_ucma_abi_bind_ip "addr" + 4) req
  | CM_BIND => sock (addr_off S_CM_BIND_REQ S_ucma_abi_bind "addr") req
  | CM_RESOLVE_IP =>
      sock (addr_off S_CM_RESOLVE_IP_REQ S_ucma_abi_resolve_ip "dst_addr")
        (sock (addr_off S_CM_RESOLVE_IP_REQ S_ucma_abi_resolve_ip "src_addr") req)
  | CM_RESOLVE_ADDR =>
      sock (addr_off S_CM_RESOLVE_ADDR_REQ S_ucma_abi_resolve_addr "dst_addr")
        (sock (addr_off S_CM_RESOLVE_ADDR_REQ S_ucma_abi_resolve_addr "src_addr") req)
  | _ => req
  end%string.

(** ** Commands the router builds

    [ptr] is the address of the local variable for the response, [opt] that of the
    option in the request. *)
Section Commands.
Context (af_ib_support : bool) (ptr opt : Z).
Implicit Types src : mem.

Definition create_id_cmd src : mem :=
  copy_fields S_ucma_abi_create_id ["uid"; "ps"; "qp_type"]%string src
    (init_cmd_resp S_ucma_abi_create_id UCMA_CMD_CREATE_ID ptr (sizeof S_ucma_abi_create_id_resp)).
Definition destroy_id_cmd src : mem :=
  copy_fields S_ucma_abi_destroy_id ["id"]%string src
    (init_cmd_resp S_ucma_abi_destroy_id UCMA_CMD_DESTROY_ID ptr (sizeof S_ucma_abi_destroy_id_resp)).
Definition query_cmd (n : Z) src : mem :=
  copy_fields S_ucma_abi_query ["id"; "option"]%string src (init_cmd_resp S_ucma_abi_query UCMA_CMD_QUERY ptr n).
Definition query_path_size : Z := sizeof S_ucma_abi_query_path_resp + sizeof S_ibv_path_data * 6.
Definition query_route_cmd src : mem :=
  copy_fields S_ucma_abi_query ["id"]%string src
    (init_cmd_resp S_ucma_abi_query UCMA_CMD_QUERY_ROUTE ptr (sizeof S_ucma_abi_query_route_resp)).

(** The size comes from the request and is not checked against [sizeof cmd.addr]. *)
Definition bind_cmd src : res mem :=
  let n := get S_ucma_abi_bind ["addr_size"] src in
  let addr := field S_ucma_abi_bind ["addr"] in
  if Z.leb n addr.2 then
    Ok (copy_span (addr.1, n) src (copy_fields S_ucma_abi_bind ["id"; "addr_size"]%string src (init_cmd S_ucma_abi_bind UCMA_CMD_BIND)))
  else UB "write past cmd.addr".

Definition addrlen_at (off : Z) src : Z :=
  if Z.eqb (family_at off src) AF_INET then 16
  else if Z.eqb (family_at off src) AF_INET6 then 28
  else if Z.eqb (family_at off src) AF_IB then (if af_ib_support then 48 else 0)
  else 0.

(** [None]: EINVAL. *)
Definition bind_ip_cmd src : res (option mem) :=
  let addr := field S_ucma_abi_bind_ip ["addr"] in
  let n := addrlen_at addr.1 src in
  if Z.eqb n 0 then Ok None
  else if Z.leb n addr.2 then
    Ok (Some (copy_span (addr.1, n) src (copy_fields S_ucma_abi_bind_ip ["id"]%string src (init_cmd S_ucma_abi_bind_ip UCMA_CMD_BIND_IP))))
  else UB "write past cmd.addr".

Definition resolve_addr_cmd src : mem :=
  copy_fields S_ucma_abi_resolve_addr ["id"; "src_addr"; "dst_addr"; "src_size"; "dst_size"; "timeout_ms"]%string src
    (init_cmd S_ucma_abi_resolve_addr UCMA_CMD_RESOLVE_ADDR).
Definition resolve_ip_cmd src : mem :=
  copy_fields S_ucma_abi_resolve_ip ["id"; "src_addr"; "dst_addr"; "timeout_ms"]%string src
    (init_cmd S_ucma_abi_resolve_ip UCMA_CMD_RESOLVE_IP).
Definition resolve_route_cmd src : mem :=
  copy_fields S_ucma_abi_resolve_route ["id"; "timeout_ms"]%string src
    (init_cmd S_ucma_abi_resolve_route UCMA_CMD_RESOLVE_ROUTE).
Definition init_qp_attr_cmd src : mem :=
  copy_fields S_ucma_abi_init_qp_attr ["id"; "qp_state"]%string src
    (init_cmd_resp S_ucma_abi_init_qp_attr UCMA_CMD_INIT_QP_ATTR ptr (sizeof S_ibv_kern_qp_attr)).
Definition connect_cmd src : mem :=
  copy_fields S_ucma_abi_connect ["id"; "conn_param"]%string src (init_cmd S_ucma_abi_connect UCMA_CMD_CONNECT).
Definition listen_cmd src : mem :=
  copy_fields S_ucma_abi_listen ["id"; "backlog"]%string src (init_cmd S_ucma_abi_listen UCMA_CMD_LISTEN).
Definition accept_cmd src : mem :=
  copy_fields S_ucma_abi_accept ["id"; "uid"; "conn_param"]%string src (init_cmd S_ucma_abi_accept UCMA_CMD_ACCEPT).
Definition process_conn_resp_cmd src : mem :=
  copy_fields S_ucma_abi_accept ["id"]%string src (init_cmd S_ucma_abi_accept UCMA_CMD_ACCEPT).
Definition disconnect_cmd src : mem :=
  copy_fields S_ucma_abi_disconnect ["id"]%string src (init_cmd S_ucma_abi_disconnect UCMA_CMD_DISCONNECT).
Definition get_event_cmd : mem :=
  init_cmd_resp S_ucma_abi_get_event UCMA_CMD_GET_EVENT ptr (sizeof S_ucma_abi_event_resp).
Definition set_option_cmd src : mem :=
  copy_fields S_ucma_abi_set_option ["level"; "optname"; "optlen"]%string src
    (store (field S_ucma_abi_set_option ["optval"]) opt
       (copy_fields S_ucma_abi_set_option ["id"]%string src (init_cmd S_ucma_abi_set_option UCMA_CMD_SET_OPTION))).
Definition migrate_id_cmd src : mem :=
  copy_fields S_ucma_abi_migrate_id ["id"; "fd"]%string src
    (init_cmd_resp S_ucma_abi_migrate_id UCMA_CMD_MIGRATE_ID ptr (sizeof S_ucma_abi_migrate_resp)).
End Commands.

(** ** The functions the handlers call

    [channel] is the descriptor in the request; [cr_rsp] the buffer of responses, which
    the requests of a connection share. *)
Record cm_router (K : Type) := mkCr { cr_channels : gmap Z Z; cr_rsp : mem; cr_k : K }.
Arguments mkCr {K}.
Arguments cr_channels {K}.
Arguments cr_rsp {K}.
Arguments cr_k {K}.

Section Handlers.
Context {K : Type} `{!CmKernel K} (vm : vip_text) (af_ib_support : bool) (ptr opt : Z) (uninit : mem) (init_ret : Z).
Implicit Types (st : cm_router K) (cmd src : mem).

(** The [write] and, when it took the whole command, the copy of [out.2] bytes of the response
    to offset [out.1] of the buffer.  Any failure is -1. *)
Definition ucm_write (channel : Z) (t : cty) (cmd : mem) (out : Z * Z) st : res (Z * cm_router K) :=
  match cm_write channel (sizeof t) cmd uninit (cr_k st) with
  | None => Blocked
  | Some (ret, resp, k) =>
      if Z.eqb ret (sizeof t)
      then Ok (0, mkCr (cr_channels st) (blit out.1 out.2 resp (cr_rsp st)) k)
      else Ok (-1, mkCr (cr_channels st) (cr_rsp st) k)
  end.

(** Where the response is in the buffer, and its size. *)
Definition resp_at (rsp_t : cty) : Z * Z := field rsp_t ["resp"].
Definition no_resp : Z * Z := (0, 0).

Definition rdma_create_id_resp channel src := ucm_write channel S_ucma_abi_create_id (create_id_cmd ptr src) (resp_at S_CM_CREATE_ID_RSP).
Definition ucma_destroy_kern_id_resp channel src :=
  ucm_write channel S_ucma_abi_destroy_id (destroy_id_cmd ptr src) (resp_at S_CM_DESTROY_ID_RSP).
Definition ucma_query_addr_resp channel src :=
  ucm_write channel S_ucma_abi_query (query_cmd ptr (sizeof S_ucma_abi_query_addr_resp) src) (resp_at S_CM_UCMA_QUERY_ADDR_RSP).
Definition ucma_query_gid_resp channel src :=
  ucm_write channel S_ucma_abi_query (query_cmd ptr (sizeof S_ucma_abi_query_addr_resp) src) (resp_at S_CM_UCMA_QUERY_GID_RSP).
Definition ucma_query_path_resp channel src :=
  ucm_write channel S_ucma_abi_query (query_cmd ptr query_path_size src) ((resp_at S_CM_UCMA_QUERY_PATH_RSP).1, query_path_size).
Definition ucma_query_route_resp channel src :=
  ucm_write channel S_ucma_abi_query (query_route_cmd ptr src) (resp_at S_CM_QUERY_ROUTE_RSP).
Definition rdma_bind_resp channel src st := let* cmd := bind_cmd src in ucm_write channel S_ucma_abi_bind cmd no_resp st.
Definition rdma_bind_addr_resp channel src st :=
  let* o := bind_ip_cmd af_ib_support src in
  match o with
  | None => Ok (-1, st)
  | Some cmd => ucm_write channel S_ucma_abi_bind_ip cmd no_resp st
  end.
Definition rdma_resolve_addr2_resp channel src := ucm_write channel S_ucma_abi_resolve_addr (resolve_addr_cmd src) no_resp.
Definition rdma_resolve_addr_resp channel src := ucm_write channel S_ucma_abi_resolve_ip (resolve_ip_cmd src) no_resp.
Definition rdma_resolve_route_resp channel src := ucm_write channel S_ucma_abi_resolve_route (resolve_route_cmd src) no_resp.
Definition rdma_init_qp_attr_resp channel src :=
  ucm_write channel S_ucma_abi_init_qp_attr (init_qp_attr_cmd ptr src) (resp_at S_CM_INIT_QP_ATTR_RSP).
Definition rdma_connect_resp channel src := ucm_write channel S_ucma_abi_connect (connect_cmd src) no_resp.
Definition rdma_listen_resp channel src := ucm_write channel S_ucma_abi_listen (listen_cmd src) no_resp.
Definition rdma_accept_resp channel src := ucm_write channel S_ucma_abi_accept (accept_cmd src) no_resp.
Definition ucma_process_conn_resp_resp channel src := ucm_write channel S_ucma_abi_accept (process_conn_resp_cmd src) no_resp.
Definition rdma_disconnect_resp channel src := ucm_write channel S_ucma_abi_disconnect (disconnect_cmd src) no_resp.
Definition rdma_get_cm_event_resp channel st : res (Z * cm_router K) :=
  if negb (Z.eqb init_ret 0) then Ok (init_ret, st)
  else ucm_write channel S_ucma_abi_get_event (get_event_cmd ptr) (resp_at S_CM_GET_EVENT_RSP) st.
Definition rdma_set_option_resp channel src := ucm_write channel S_ucma_abi_set_option (set_option_cmd opt src) no_resp.
Definition rdma_migrate_id_resp channel src :=
  ucm_write channel S_ucma_abi_migrate_id (migrate_id_cmd ptr src) (resp_at S_CM_MIGRATE_ID_RSP).

(** ** The cases of [HandleRequest]

    [Reply]: a descriptor passed to the client, if any, then [size] bytes of the buffer.
    [NoReply]: [goto end]. *)
Inductive answer := Reply (fd : option Z) (size : Z) | NoReply.

(** [rsp->ret_errno = ...], the first member of each response. *)
Definition answered (size : Z) (r : res (Z * cm_router K)) : res (answer * cm_router K) :=
  let* (e, st) := r in
  Ok (Reply None size, mkCr (cr_channels st) (store (0, 4) (u32 e) (cr_rsp st)) (cr_k st)).

Definition handle_create_event_channel st : res (answer * cm_router K) :=
  let '(o, k) := cm_open (cr_k st) in
  let* fd := deref "event_channel" o in
  let channels := if Z.leb MAP_SIZE fd then cr_channels st else <[fd := fd]> (cr_channels st) in
  Ok (Reply (Some fd) (sizeof S_CM_CREATE_EVENT_CHANNEL_RSP),
      mkCr channels (store (field S_CM_CREATE_EVENT_CHANNEL_RSP ["ec"]) (u32 fd) (cr_rsp st)) k).

Definition handle_destroy_event_channel (req : mem) st : res (answer * cm_router K) :=
  let fd := s32 (load (0, 4) req) in
  do* in_bounds "event_channel_map" fd MAP_SIZE;
  match cr_channels st !! fd with
  | None => Ok (NoReply, st)
  | Some channel =>
      Ok (Reply None (sizeof S_CM_DESTROY_EVENT_CHANNEL_RSP),
          mkCr (delete fd (cr_channels st)) (store (0, 4) 0 (cr_rsp st)) (cm_close channel (cr_k st)))
  end.

(** The descriptor of the channel, the first member of the other requests, and the command. *)
Definition handle_cm (f : RDMA_FUNCTION_CALL) (req : mem) st : res (answer * cm_router K) :=
  let channel := s32 (load (0, 4) req) in
  let cmd t := shift (field t ["cmd"]).1 (mapped vm f req) in
  match f with
  | CM_CREATE_EVENT_CHANNEL => handle_create_event_channel st
  | CM_DESTROY_EVENT_CHANNEL => handle_destroy_event_channel req st
  | CM_CREATE_ID => answered (sizeof S_CM_CREATE_ID_RSP) (rdma_create_id_resp channel (cmd S_CM_CREATE_ID_REQ) st)
  | CM_BIND_IP => answered 0 (rdma_bind_addr_resp channel (cmd S_CM_BIND_IP_REQ) st)
  | CM_BIND => answered (sizeof S_CM_BIND_RSP) (rdma_bind_resp channel (cmd S_CM_BIND_REQ) st)
  | CM_GET_EVENT => answered (sizeof S_CM_GET_EVENT_RSP) (rdma_get_cm_event_resp channel st)
  | CM_QUERY_ROUTE => answered (sizeof S_CM_QUERY_ROUTE_RSP) (ucma_query_route_resp channel (cmd S_CM_QUERY_ROUTE_REQ) st)
  | CM_LISTEN => answered (sizeof S_CM_LISTEN_RSP) (rdma_listen_resp channel (cmd S_CM_LISTEN_REQ) st)
  | CM_RESOLVE_IP => answered (sizeof S_CM_RESOLVE_IP_RSP) (rdma_resolve_addr_resp channel (cmd S_CM_RESOLVE_IP_REQ) st)
  | CM_RESOLVE_ADDR => answered (sizeof S_CM_RESOLVE_IP_RSP) (rdma_resolve_addr2_resp channel (cmd S_CM_RESOLVE_ADDR_REQ) st)
  | CM_UCMA_QUERY_ADDR =>
      answered (sizeof S_CM_UCMA_QUERY_ADDR_RSP) (ucma_query_addr_resp channel (cmd S_CM_UCMA_QUERY_ADDR_REQ) st)
  | CM_UCMA_QUERY_GID =>
      answered (sizeof S_CM_UCMA_QUERY_GID_RSP) (ucma_query_gid_resp channel (cmd S_CM_UCMA_QUERY_GID_REQ) st)
  | CM_UCMA_PROCESS_CONN_RESP =>
      answered (sizeof S_CM_UCMA_PROCESS_CONN_RESP_RSP)
        (ucma_process_conn_resp_resp channel (cmd S_CM_UCMA_PROCESS_CONN_RESP_REQ) st)
  | CM_DESTROY_ID => answered (sizeof S_CM_DESTROY_ID_RSP) (ucma_destroy_kern_id_resp channel (cmd S_CM_DESTROY_ID_REQ) st)
  | CM_RESOLVE_ROUTE =>
      answered (sizeof S_CM_RESOLVE_ROUTE_RSP) (rdma_resolve_route_resp channel (cmd S_CM_RESOLVE_ROUTE_REQ) st)
  | CM_UCMA_QUERY_PATH =>
      answered (sizeof S_CM_UCMA_QUERY_PATH_RSP) (ucma_query_path_resp channel (cmd S_CM_UCMA_QUERY_PATH_REQ) st)
  | CM_INIT_QP_ATTR => answered (sizeof S_CM_INIT_QP_ATTR_RSP) (rdma_init_qp_attr_resp channel (cmd S_CM_INIT_QP_ATTR_REQ) st)
  | CM_CONNECT => answered (sizeof S_CM_CONNECT_RSP) (rdma_connect_resp channel (cmd S_CM_CONNECT_REQ) st)
  | CM_ACCEPT => answered (sizeof S_CM_ACCEPT_RSP) (rdma_accept_resp channel (cmd S_CM_ACCEPT_REQ) st)
  | CM_SET_OPTION => answered (sizeof S_CM_SET_OPTION_RSP) (rdma_set_option_resp channel (cmd S_CM_SET_OPTION_REQ) st)
  | CM_MIGRATE_ID => answered (sizeof S_CM_MIGRATE_ID_RSP) (rdma_migrate_id_resp channel (cmd S_CM_MIGRATE_ID_REQ) st)
  | CM_DISCONNECT => answered (sizeof S_CM_DISCONNECT_RSP) (rdma_disconnect_resp channel (cmd S_CM_DISCONNECT_REQ) st)
  | _ => UB "not a connection manager request"
  end.
End Handlers.

(** ** What the client's library puts into a command

    [sp_set]: the members it assigns, besides the header; [sp_out]: the size of the
    response; [sp_ptr]: a pointer, which means nothing in the router; [sp_resp]: where
    the library expects the response. *)
Record cm_spec := mkSpec {
  sp_req : cty; sp_cmd : cty; sp_op : Z; sp_set : list string; sp_out : option Z; sp_ptr : option string;
  sp_resp : Z * Z
}.

Definition plain (r t : cty) (op : Z) (set : list string) : option cm_spec := Some (mkSpec r t op set None None (0, 0)).
Definition asking (r t : cty) (op : Z) (set : list string) (n : Z) (rsp : cty) : option cm_spec :=
  Some (mkSpec r t op set (Some n) (Some "response"%string) ((field rsp ["resp"]).1, n)).

Definition client_command (f : RDMA_FUNCTION_CALL) : option cm_spec :=
  match f with
  | CM_CREATE_ID => asking S_CM_CREATE_ID_REQ S_ucma_abi_create_id UCMA_CMD_CREATE_ID ["uid"; "ps"; "qp_type"] (sizeof S_ucma_abi_create_id_resp) S_CM_CREATE_ID_RSP
  | CM_DESTROY_ID => asking S_CM_DESTROY_ID_REQ S_ucma_abi_destroy_id UCMA_CMD_DESTROY_ID ["id"] (sizeof S_ucma_abi_destroy_id_resp) S_CM_DESTROY_ID_RSP
  | CM_UCMA_QUERY_ADDR =>
      asking S_CM_UCMA_QUERY_ADDR_REQ S_ucma_abi_query UCMA_CMD_QUERY ["id"; "option"] (sizeof S_ucma_abi_query_addr_resp) S_CM_UCMA_QUERY_ADDR_RSP
  | CM_UCMA_QUERY_GID =>
      asking S_CM_UCMA_QUERY_GID_REQ S_ucma_abi_query UCMA_CMD_QUERY ["id"; "option"] (sizeof S_ucma_abi_query_addr_resp) S_CM_UCMA_QUERY_GID_RSP
  | CM_UCMA_QUERY_PATH => asking S_CM_UCMA_QUERY_PATH_REQ S_ucma_abi_query UCMA_CMD_QUERY ["id"; "option"] query_path_size S_CM_UCMA_QUERY_PATH_RSP
  | CM_QUERY_ROUTE => asking S_CM_QUERY_ROUTE_REQ S_ucma_abi_query UCMA_CMD_QUERY_ROUTE ["id"] (sizeof S_ucma_abi_query_route_resp) S_CM_QUERY_ROUTE_RSP
  | CM_BIND => plain S_CM_BIND_REQ S_ucma_abi_bind UCMA_CMD_BIND ["id"; "addr_size"; "addr"]
  | CM_BIND_IP => plain S_CM_BIND_IP_REQ S_ucma_abi_bind_ip UCMA_CMD_BIND_IP ["id"; "addr"]
  | CM_RESOLVE_ADDR =>
      plain S_CM_RESOLVE_ADDR_REQ S_ucma_abi_resolve_addr UCMA_CMD_RESOLVE_ADDR
        ["id"; "src_size"; "src_addr"; "dst_addr"; "dst_size"; "timeout_ms"]
  | CM_RESOLVE_IP =>
      plain S_CM_RESOLVE_IP_REQ S_ucma_abi_resolve_ip UCMA_CMD_RESOLVE_IP ["id"; "src_addr"; "dst_addr"; "timeout_ms"]
  | CM_RESOLVE_ROUTE => plain S_CM_RESOLVE_ROUTE_REQ S_ucma_abi_resolve_route UCMA_CMD_RESOLVE_ROUTE ["id"; "timeout_ms"]
  | CM_INIT_QP_ATTR =>
      asking S_CM_INIT_QP_ATTR_REQ S_ucma_abi_init_qp_attr UCMA_CMD_INIT_QP_ATTR ["id"; "qp_state"] (sizeof S_ibv_kern_qp_attr) S_CM_INIT_QP_ATTR_RSP
  | CM_CONNECT => plain S_CM_CONNECT_REQ S_ucma_abi_connect UCMA_CMD_CONNECT ["id"; "conn_param"]
  | CM_LISTEN => plain S_CM_LISTEN_REQ S_ucma_abi_listen UCMA_CMD_LISTEN ["id"; "backlog"]
  | CM_ACCEPT => plain S_CM_ACCEPT_REQ S_ucma_abi_accept UCMA_CMD_ACCEPT ["id"; "uid"; "conn_param"]
  | CM_UCMA_PROCESS_CONN_RESP => plain S_CM_UCMA_PROCESS_CONN_RESP_REQ S_ucma_abi_accept UCMA_CMD_ACCEPT ["id"]
  | CM_DISCONNECT => plain S_CM_DISCONNECT_REQ S_ucma_abi_disconnect UCMA_CMD_DISCONNECT ["id"]
  | CM_GET_EVENT => asking S_CM_GET_EVENT_REQ S_ucma_abi_get_event UCMA_CMD_GET_EVENT [] (sizeof S_ucma_abi_event_resp) S_CM_GET_EVENT_RSP
  | CM_SET_OPTION =>
      Some (mkSpec S_CM_SET_OPTION_REQ S_ucma_abi_set_option UCMA_CMD_SET_OPTION ["id"; "level"; "optname"; "optlen"] None (Some "optval") (0, 0))
  | CM_MIGRATE_ID => asking S_CM_MIGRATE_ID_REQ S_ucma_abi_migrate_id UCMA_CMD_MIGRATE_ID ["id"; "fd"] (sizeof S_ucma_abi_migrate_resp) S_CM_MIGRATE_ID_RSP
  | _ => None
  end%string.

(** The bytes of [v] in the member [n]. *)
Definition bytes_of (t : cty) (n : string) (v : Z) (a : Z) : Z := (v / 256 ^ (a - (field t [n]).1)) mod 256.

(** The command the kernel should get for the client's command [src]: the client's members, the
    pointer and the size of the response where there are any, the header, and zeroes. *)
Definition expected (sp : cm_spec) (ptr : Z) (src : mem) : mem := λ a,
  let at_ n := in_span (field (sp_cmd sp) [n]) a in
  if existsb at_ (sp_set sp) then src a
  else if default false (at_ <$> sp_ptr sp) then bytes_of (sp_cmd sp) (default "" (sp_ptr sp)) ptr a
  else if bool_decide (is_Some (sp_out sp)) && at_ "out" then bytes_of (sp_cmd sp) "out" (default 0 (sp_out sp)) a
  else if at_ "in" then bytes_of (sp_cmd sp) "in" (sizeof (sp_cmd sp) - 8) a
  else if at_ "cmd" then bytes_of (sp_cmd sp) "cmd" (sp_op sp) a
  else 0.

Lemma copy_fields_spec t fs src dst a :
  copy_fields t fs src dst a = if existsb (λ n, in_span (field t [n]) a) fs then src a else dst a.
Proof.
  unfold copy_fields. revert dst. induction fs as [|n fs IH]; intros dst; cbn [foldl existsb]; [done|].
  rewrite IH. unfold copy_span. by destruct (existsb _ fs), (in_span (field t [n]) a).
Qed.

Lemma store_spec f v m a : store f v m a = if in_span f a then (v / 256 ^ (a - f.1)) mod 256 else m a.
Proof. done. Qed.

(** An address in a command of [bind] fits, and its unused part is zero. *)
Definition addr_fits (t : cty) (n : Z) (src : mem) : Prop :=
  0 < n ≤ (field t ["addr"]).2 ∧
  ∀ a, (field t ["addr"]).1 + n ≤ a < (field t ["addr"]).1 + (field t ["addr"]).2 → src a = 0.

Definition addr_ok (af_ib_support : bool) (f : RDMA_FUNCTION_CALL) (src : mem) : Prop :=
  match f with
  | CM_BIND => addr_fits S_ucma_abi_bind (get S_ucma_abi_bind ["addr_size"] src) src
  | CM_BIND_IP =>
      addr_fits S_ucma_abi_bind_ip (addrlen_at af_ib_support (field S_ucma_abi_bind_ip ["addr"]).1 src) src
  | _ => True
  end.

Lemma span_apart f g a : in_span f a = true → apart f g = true → in_span g a = false.
Proof. unfold apart, in_span. rewrite orb_true_iff, andb_true_iff, andb_false_iff, !Z.leb_le, !Z.ltb_lt, Z.leb_gt, Z.ltb_ge. lia. Qed.

(** Copying the used part of an address whose rest is zero copies all of it. *)
Lemma addr_copied t n fs src dst a :
  addr_fits t n src → (∀ a, in_span (field t ["addr"]) a = true → copy_fields t fs src dst a = 0) →
  copy_span ((field t ["addr"]).1, n) src (copy_fields t fs src dst) a =
  copy_fields t (fs ++ ["addr"%string]) src dst a.
Proof.
  intros [Hn Hz] Hd. rewrite (copy_fields_spec t (fs ++ _)). rewrite existsb_app. cbn [existsb]. rewrite orb_false_r.
  unfold copy_span. destruct (in_span (_, n) a) eqn:E1; destruct (in_span (field t ["addr"]) a) eqn:E2.
  - by rewrite orb_true_r.
  - unfold in_span in *. cbn [fst snd] in E1. rewrite andb_true_iff in E1. rewrite andb_false_iff in E2. lia.
  - rewrite orb_true_r, Hd by done. symmetry. apply Hz. unfold in_span in *. cbn [fst snd] in E1.
    rewrite andb_true_iff in E2. rewrite andb_false_iff in E1. lia.
  - by rewrite orb_false_r, copy_fields_spec.
Qed.

Section Theorems.
Context {K : Type} `{!CmKernel K} (vm : vip_text) (af_ib_support : bool) (ptr opt : Z) (uninit : mem).
Implicit Types (st : cm_router K).

Abbreviation handle := (handle_cm (K := K) vm af_ib_support ptr opt uninit 0).

(** The write of a command on behalf of a request. *)
Definition forwards (f : RDMA_FUNCTION_CALL) (req : mem) st (t : cty) (cmd : mem) (out : Z * Z) : Prop :=
  ∃ size, handle f req st = answered size (ucm_write uninit (s32 (load (0, 4) req)) t cmd out st).

Lemma bind_forwarded req st src :
  src = shift (field S_CM_BIND_REQ ["cmd"]).1 (mapped vm CM_BIND req) → addr_ok af_ib_support CM_BIND src →
  ∃ cmd, forwards CM_BIND req st S_ucma_abi_bind cmd (0, 0) ∧
    ∀ a, cmd a = copy_fields S_ucma_abi_bind ["id"; "addr_size"; "addr"]%string src (init_cmd S_ucma_abi_bind UCMA_CMD_BIND) a.
Proof.
  intros Hsrc Hok. eexists. split.
  - exists (sizeof S_CM_BIND_RSP). cbn [handle_cm]. rewrite <- Hsrc. unfold rdma_bind_resp, bind_cmd.
    destruct Hok as [Hn _]. destruct (Z.leb_spec (get S_ucma_abi_bind ["addr_size"%string] src) (field S_ucma_abi_bind ["addr"%string]).2); [|lia].
    cbn [rbind]. reflexivity.
  - intros a. apply (addr_copied S_ucma_abi_bind _ ["id"; "addr_size"]%string); [done|]. clear.
    intros a Ha. rewrite copy_fields_spec. unfold init_cmd. rewrite !store_spec. cbn [existsb].
    by rewrite !(span_apart _ _ a Ha) by reflexivity.
Qed.

Lemma bind_ip_forwarded req st src :
  src = shift (field S_CM_BIND_IP_REQ ["cmd"]).1 (mapped vm CM_BIND_IP req) → addr_ok af_ib_support CM_BIND_IP src →
  ∃ cmd, forwards CM_BIND_IP req st S_ucma_abi_bind_ip cmd (0, 0) ∧
    ∀ a, cmd a = copy_fields S_ucma_abi_bind_ip ["id"; "addr"]%string src (init_cmd S_ucma_abi_bind_ip UCMA_CMD_BIND_IP) a.
Proof.
  intros Hsrc Hok. eexists. split.
  - exists 0. cbn [handle_cm]. rewrite <- Hsrc. unfold rdma_bind_addr_resp, bind_ip_cmd.
    destruct Hok as [Hn _]. set (n := addrlen_at _ _ _) in *. destruct (Z.eqb_spec n 0); [lia|].
    destruct (Z.leb_spec n (field S_ucma_abi_bind_ip ["addr"%string]).2); [|lia]. cbn [rbind]. reflexivity.
  - intros a. apply (addr_copied S_ucma_abi_bind_ip _ ["id"]%string); [done|]. clear.
    intros a Ha. rewrite copy_fields_spec. unfold init_cmd. rewrite !store_spec. cbn [existsb].
    by rewrite !(span_apart _ _ a Ha) by reflexivity.
Qed.

Lemma all_forwarded f sp req st :
  client_command f = Some sp →
  let src := shift (field (sp_req sp) ["cmd"]).1 (mapped vm f req) in
  addr_ok af_ib_support f src →
  ∃ cmd, forwards f req st (sp_cmd sp) cmd (sp_resp sp) ∧
    ∀ a, cmd a = expected sp (if decide (f = CM_SET_OPTION) then opt else ptr) src a.
Proof.
  intros Hsp src Hok. destruct f; try discriminate Hsp; apply (inj Some) in Hsp as <-; cbn [sp_req sp_cmd sp_resp] in *;
    try (eexists; split; [eexists; reflexivity|intros a; etransitivity; [apply copy_fields_spec|reflexivity]]).
  - destruct (bind_ip_forwarded req st src eq_refl Hok) as (cmd & Hf & Hc). exists cmd. split; [done|].
    intros a. rewrite Hc, copy_fields_spec. reflexivity.
  - destruct (bind_forwarded req st src eq_refl Hok) as (cmd & Hf & Hc). exists cmd. split; [done|].
    intros a. rewrite Hc, copy_fields_spec. reflexivity.
  - eexists. split; [eexists; reflexivity|]. reflexivity.
  - eexists. split; [eexists; reflexivity|]. intros a.
    etransitivity; [apply copy_fields_spec|]. unfold expected. cbn [sp_set sp_cmd existsb].
    destruct (in_span (field S_ucma_abi_resolve_addr ["src_size"%string]) a), (in_span (field S_ucma_abi_resolve_addr ["dst_size"%string]) a),
      (in_span (field S_ucma_abi_resolve_addr ["src_addr"%string]) a), (in_span (field S_ucma_abi_resolve_addr ["dst_addr"%string]) a);
      rewrite ?orb_true_r, ?orb_true_l, ?orb_false_r; reflexivity.
  - eexists. split; [eexists; reflexivity|]. intros a.
    etransitivity; [apply copy_fields_spec|]. rewrite store_spec, copy_fields_spec. unfold expected. cbn [sp_set sp_cmd existsb].
    destruct (in_span (field S_ucma_abi_set_option ["id"%string]) a) eqn:Hid; [|reflexivity].
    rewrite (span_apart _ (field S_ucma_abi_set_option ["optval"%string]) a Hid) by reflexivity. cbn [orb]. by destruct (_ || _).
Qed.

(** The response lies behind [ret_errno]. *)
Lemma resp_behind f sp : client_command f = Some sp → (sp_resp sp).2 = 0 ∨ 4 ≤ (sp_resp sp).1.
Proof.
  intros Hsp. destruct f; try discriminate Hsp; apply (inj Some) in Hsp as <-;
    first [left; reflexivity | right; vm_compute; discriminate].
Qed.

Definition ret_errno (st : cm_router K) : Z := s32 (load (0, 4) (cr_rsp st)).

Lemma ret_errno_stored chans rsp k e : - 2 ^ 31 ≤ e < 2 ^ 31 → ret_errno (mkCr chans (store (0, 4) (u32 e) rsp) k) = e.
Proof.
  intros He. unfold ret_errno. cbn [cr_rsp]. rewrite load_store_eq; cbn [snd]; [|lia|apply u32_range].
  by apply s32_u32.
Qed.


(** ** Addresses in the commands *)
Lemma nth_load_bytes off n m i : (i < n)%nat → nth i (load_bytes off n m) 0 = m (off + Z.of_nat i).
Proof.
  revert off i. induction n as [|n IH]; intros off [|i] Hi; cbn [load_bytes nth]; try lia; [by rewrite Z.add_0_r|].
  rewrite IH by lia. f_equal. lia.
Qed.

Lemma map_at_frame off m a : in_span (off, 4) a = false → map_at vm off m a = m a.
Proof. intros Ha. unfold map_at, blit. by rewrite Ha. Qed.

Lemma map_at_bytes off m : length (map_vip vm (load_bytes off 4 m)) = 4%nat →
  load_bytes off 4 (map_at vm off m) = map_vip vm (load_bytes off 4 m).
Proof.
  set (l := map_vip _ _). intros Hl. assert (∀ i, 0 ≤ i < 4 → map_at vm off m (off + i) = nth (Z.to_nat i) l 0) as Hm.
  { intros i Hi. unfold map_at, blit, in_span. cbn [fst snd]. fold l.
    destruct (Z.leb_spec off (off + i)); [|lia]. destruct (Z.ltb_spec (off + i) (off + 4)); [|lia]. cbn [andb].
    do 2 f_equal. lia. }
  destruct l as [|w [|x [|y [|z [|]]]]]; try done. cbn [load_bytes].
  pose proof (Hm 0) as H0. rewrite Z.add_0_r in H0.
  replace (off + 1 + 1) with (off + 2) by lia. replace (off + 2 + 1) with (off + 3) by lia.
  by rewrite H0, !Hm by lia.
Qed.
End Theorems.

(** ** Translation of addresses

    Where requests have socket addresses. *)
Definition addr_places (f : RDMA_FUNCTION_CALL) : list Z :=
  match f with
  | CM_BIND_IP => [addr_off S_CM_BIND_IP_REQ S_ucma_abi_bind_ip "addr"]
  | CM_BIND => [addr_off S_CM_BIND_REQ S_ucma_abi_bind "addr"]
  | CM_RESOLVE_IP => [addr_off S_CM_RESOLVE_IP_REQ S_ucma_abi_resolve_ip "src_addr"; addr_off S_CM_RESOLVE_IP_REQ S_ucma_abi_resolve_ip "dst_addr"]
  | CM_RESOLVE_ADDR =>
      [addr_off S_CM_RESOLVE_ADDR_REQ S_ucma_abi_resolve_addr "src_addr"; addr_off S_CM_RESOLVE_ADDR_REQ S_ucma_abi_resolve_addr "dst_addr"]
  | _ => []
  end%string.

(** An IPv4 socket address at [off]. *)
Definition inet_at (req : mem) (off : Z) : Prop := family_at off req = AF_INET ∧ ipv4 (load_bytes (off + 4) 4 req).

Lemma translated_at l off m :
  Forall (λ x, ipv4 x.1 ∧ ipv4 x.2) l → ipv4 (load_bytes off 4 m) →
  load_bytes off 4 (map_at (text_of l) off m) = translate l (load_bytes off 4 m).
Proof.
  intros Hl Ha. rewrite map_at_bytes; rewrite map_vip_text by done; [done|]. by destruct (translate_ipv4 l _ Hl Ha).
Qed.

Lemma sock_at l off m : inet_at m off → map_at l (get_in_addr off m) m = map_at l (off + 4) m.
Proof. intros [Hf _]. unfold get_in_addr. by rewrite Hf. Qed.

Lemma load_bytes_map_ne vm off off' n m :
  off' + Z.of_nat n ≤ off ∨ off + 4 ≤ off' → load_bytes off' n (map_at vm off m) = load_bytes off' n m.
Proof.
  intros Hd. apply load_bytes_ext. intros a Ha. apply map_at_frame. unfold in_span. cbn [fst snd].
  apply andb_false_iff. rewrite Z.leb_gt, Z.ltb_ge. lia.
Qed.

(** One address after the other. *)
Lemma two_translated l s d req :
  Forall (λ x, ipv4 x.1 ∧ ipv4 x.2) l → s + 8 ≤ d → inet_at req s → inet_at req d →
  let m := map_at (text_of l) (get_in_addr d (map_at (text_of l) (get_in_addr s req) req)) (map_at (text_of l) (get_in_addr s req) req) in
  load_bytes (s + 4) 4 m = translate l (load_bytes (s + 4) 4 req) ∧
  load_bytes (d + 4) 4 m = translate l (load_bytes (d + 4) 4 req) ∧
  ∀ a, in_span (s + 4, 4) a = false → in_span (d + 4, 4) a = false → m a = req a.
Proof.
  intros Hl Hsd Hs Hd. cbv zeta. rewrite (sock_at _ s) by done. set (m1 := map_at _ (s + 4) req).
  assert (inet_at m1 d) as Hd1.
  { destruct Hd as [Hf Hi]. unfold inet_at, family_at, m1. rewrite !load_bytes_map_ne by lia. done. }
  rewrite (sock_at _ d) by done. split; [|split].
  - rewrite load_bytes_map_ne by lia. apply translated_at; [done|apply Hs].
  - rewrite translated_at; [|done|apply Hd1]. unfold m1. by rewrite load_bytes_map_ne by lia.
  - intros a H1 H2. rewrite map_at_frame by done. by apply map_at_frame.
Qed.

(** C32.  Addresses are translated, and nothing else.  In the requests that bind or
    resolve IPv4 addresses, each address that has an entry in the router's table is replaced by
    that entry's, each other is left, although the table is kept as text and
    addresses are printed and parsed on the way; no other byte of the request changes. *)
Theorem addresses_translated f req :
  addr_places f ≠ [] → (∀ off, off ∈ addr_places f → inet_at req off) →
  (∀ off, off ∈ addr_places f →
     load_bytes (off + 4) 4 (mapped vip_map f req) = translate vip_table (load_bytes (off + 4) 4 req)) ∧
  (∀ a, (∀ off, off ∈ addr_places f → in_span (off + 4, 4) a = false) → mapped vip_map f req a = req a).
Proof.
  intros Hf Hin. pose proof vip_table_ok as Hl. rewrite vip_map_text.
  destruct f; try (by destruct Hf); cbn [addr_places mapped] in *; clear Hf.
  - pose proof (Hin _ (list_elem_of_here _ _)) as [_ Hi]. split.
    + intros off ->%list_elem_of_singleton. by apply translated_at.
    + intros a Ha. apply map_at_frame. apply Ha. set_solver.
  - pose proof (Hin _ (list_elem_of_here _ _)) as Hi. rewrite sock_at by done. destruct Hi as [_ Hi]. split.
    + intros off ->%list_elem_of_singleton. by apply translated_at.
    + intros a Ha. apply map_at_frame. apply Ha. set_solver.
  - pose proof (Hin _ (list_elem_of_here _ _)) as Hs. pose proof (Hin _ (list_elem_of_further _ _ _ (list_elem_of_here _ _))) as Hd.
    pose proof (λ H, two_translated vip_table _ _ req Hl H Hs Hd) as Ht.
    destruct Ht as (H1 & H2 & H3); [by vm_compute|]. split.
    + intros off [-> | ->%list_elem_of_singleton]%elem_of_cons; done.
    + intros a Ha. apply H3; apply Ha; set_solver.
  - pose proof (Hin _ (list_elem_of_here _ _)) as Hs. pose proof (Hin _ (list_elem_of_further _ _ _ (list_elem_of_here _ _))) as Hd.
    pose proof (λ H, two_translated vip_table _ _ req Hl H Hs Hd) as Ht.
    destruct Ht as (H1 & H2 & H3); [by vm_compute|]. split.
    + intros off [-> | ->%list_elem_of_singleton]%elem_of_cons; done.
    + intros a Ha. apply H3; apply Ha; set_solver.
Qed.

(** ** An example: a kernel that takes every command and keeps its first byte *)
#[export] Instance taking : CmKernel (list Z) := {|
  cm_open k := (Some (lenZ k), k);
  cm_close _ k := k;
  cm_write fd n cmd b k := Some (n, (λ a, a + 1), cmd 0 :: k)
|}.

(** A request of zeroes, but for two IPv4 addresses in CM_RESOLVE_IP. *)
Definition resolve_req : mem :=
  let s := addr_off S_CM_RESOLVE_IP_REQ S_ucma_abi_resolve_ip "src_addr" in
  let d := addr_off S_CM_RESOLVE_IP_REQ S_ucma_abi_resolve_ip "dst_addr" in
  store (s, 2) AF_INET (store (s + 4, 4) (le_val [10; 47; 0; 4])
    (store (d, 2) AF_INET (store (d + 4, 4) (le_val [10; 44; 0; 5]) (λ _, 0)))).

Lemma resolve_req_inet off : off ∈ addr_places CM_RESOLVE_IP → inet_at resolve_req off.
Proof. intros [-> | ->%list_elem_of_singleton]%elem_of_cons; repeat split; vm_compute; repeat constructor; done. Qed.

Lemma addresses_translated_witness :
  load_bytes (addr_off S_CM_RESOLVE_IP_REQ S_ucma_abi_resolve_ip "src_addr" + 4) 4 (mapped vip_map CM_RESOLVE_IP resolve_req) = [192; 168; 2; 13] ∧
  load_bytes (addr_off S_CM_RESOLVE_IP_REQ S_ucma_abi_resolve_ip "dst_addr" + 4) 4 (mapped vip_map CM_RESOLVE_IP resolve_req) = [10; 44; 0; 5].
Proof.
  destruct (addresses_translated CM_RESOLVE_IP resolve_req) as [H _]; [done|apply resolve_req_inet|].
  rewrite !H by (vm_compute; set_solver). by vm_compute.
Defined.

