(* ===== verification/Sockets.v ===== *)
(** * Sockets on the host

    The SOCKET cases of [HandleRequest] (ffrouter.cpp): the router makes, binds,
    connects and accepts sockets on the host for a container, which passes and
    receives them as descriptors.  Each request has a connection of its own, which is
    closed after it.  A descriptor is an entry of the router's table that refers to
    an open file; the file's status flags are shared with the container. *)

From S2P Require Import Prelude Layout FfTypes Wire Attrs CmaConn Transport.

Definition O_NONBLOCK : Z := 0x800.

(** The system: the socket calls give an error number, 0 for success; [sk_accept] is told the
    flags the file has meanwhile and those asked for, [None] means that it sleeps;
    [sk_recv]: the result of [recvmsg] and the control message, whose descriptor is
    for the file; [sk_write]: the bytes written; [sk_fd] and [sk_file] choose new
    descriptors and files, given those in use. *)
Class SockEnv (K : Type) := {
  sk_socket : Z → Z → Z → K → Z * K;
  sk_bind : Z → Z → Z → Z → K → Z * K;
  sk_accept : Z → Z → option Z → K → option (Z * K);
  sk_connect : Z → list Z → Z → K → Z * K;
  sk_recv : Z → K → Z * option (cmsghdr * Z) * K;
  sk_write : Z → K → Z * K;
  sk_fd : gset Z → Z;
  sk_file : gset Z → Z
}.

Record host (K : Type) := mkHost { h_fds : gmap Z Z; h_flags : gmap Z Z; h_passed : list Z; h_k : K }.
Arguments mkHost {K}.
Arguments h_fds {K}.
Arguments h_flags {K}.
Arguments h_passed {K}.
Arguments h_k {K}.

Section Handlers.
Context {K : Type} `{!SockEnv K} (host_ip : Z).
Implicit Types (s : host K).

Definition with_k s (k : K) : host K := mkHost (h_fds s) (h_flags s) (h_passed s) k.
Definition set_flags (file v : Z) s : host K := mkHost (h_fds s) (<[file := v]> (h_flags s)) (h_passed s) (h_k s).
Definition flags_of (file : Z) s : Z := default 0 (h_flags s !! file).

(** A new descriptor for [file]. *)
Definition open_fd (file : Z) s : Z * host K :=
  let fd := sk_fd (dom (h_fds s)) in (fd, mkHost (<[fd := file]> (h_fds s)) (h_flags s) (h_passed s) (h_k s)).
Definition close_fd (fd : Z) s : host K := mkHost (delete fd (h_fds s)) (h_flags s) (h_passed s) (h_k s).

(** A new file with the given status flags. *)
Definition new_socket (flags : Z) s : Z * host K :=
  let file := sk_file (dom (h_flags s)) in open_fd file (set_flags file flags s).

(** [send_fd]: the client gets a descriptor of its own for the file. *)
Definition pass_fd (fd : Z) s : host K :=
  match h_fds s !! fd with
  | Some file => mkHost (h_fds s) (h_flags s) (h_passed s ++ [file]) (h_k s)
  | None => s
  end.

(** The router's [recv_fd]: the descriptor and its file, or -1. *)
Definition receive_fd (client_sock : Z) s : (Z * Z) * host K :=
  let '(size, msg, k) := sk_recv client_sock (h_k s) in
  let s := with_k s k in
  if Z.ltb size 0 then ((-1, 0), s)
  else
    match msg with
    | Some (c, file) =>
        if Z.eqb (cmsg_len c) CMSG_LEN_int then
          if negb (Z.eqb (cmsg_level c) SOL_SOCKET) then ((-1, 0), s)
          else if negb (Z.eqb (cmsg_type c) SCM_RIGHTS) then ((-1, 0), s)
          else let '(fd, s) := open_fd file s in ((fd, file), s)
        else ((-1, 0), s)
    | None => ((-1, 0), s)
    end.

(** How a case leaves the [switch]: with [rsp->ret] and [host_fd], or by [goto kill]. *)
Inductive left := Answer (ret host_fd : Z) | Killed.

Definition handle_socket_socket (type protocol : Z) s : left * host K :=
  let '(errno, k) := sk_socket AF_INET type protocol (h_k s) in
  let s := with_k s k in
  if negb (Z.eqb errno 0) then (Answer (- errno) (-1), s)
  else let '(fd, s) := new_socket 0 s in (Answer fd (-1), s).

Definition handle_socket_bind (client_sock : Z) s : left * host K :=
  let '((host_fd, file), s) := receive_fd client_sock s in
  if Z.ltb host_fd 0 then (Killed, s)
  else
    let '(errno, k) := sk_bind file AF_INET host_ip 0 (h_k s) in
    (Answer (- errno) host_fd, with_k s k).

(** Both accept requests: with the flags of [accept4] or without. *)
Definition handle_socket_accept (client_sock : Z) (flags : option Z) s : res (left * host K) :=
  let '((host_fd, file), s) := receive_fd client_sock s in
  if Z.ltb host_fd 0 then Ok (Killed, s)
  else
    let original_flags := flags_of file s in
    let s := set_flags file (Z.land original_flags (Z.lnot O_NONBLOCK)) s in
    match sk_accept file (flags_of file s) flags (h_k s) with
    | None => Blocked
    | Some (errno, k) =>
        let s := with_k s k in
        let '(ret, s) := if negb (Z.eqb errno 0) then (- errno, s)
                         else new_socket (Z.land (default 0 flags) O_NONBLOCK) s in
        Ok (Answer ret host_fd, set_flags file original_flags s)
    end.

Definition handle_socket_connect (client_sock : Z) (addr : list Z) (addrlen : Z) s : left * host K :=
  let '((host_fd, file), s) := receive_fd client_sock s in
  if Z.ltb host_fd 0 then (Killed, s)
  else
    let '(errno, k) := sk_connect file addr addrlen (h_k s) in
    (Answer (- errno) host_fd, with_k s k).

Inductive socket_req :=
  | SocketSocket (domain type protocol : Z) | SocketBind | SocketAccept | SocketAccept4 (flags : Z)
  | SocketConnect (addr : list Z) (addrlen : Z).

(** Does the response carry a descriptor? *)
Definition gives_fd (r : socket_req) : bool :=
  match r with SocketSocket _ _ _ | SocketAccept | SocketAccept4 _ => true | _ => false end.

Definition switch (client_sock : Z) (r : socket_req) s : res (left * host K) :=
  match r with
  | SocketSocket _ type protocol => Ok (handle_socket_socket type protocol s)
  | SocketBind => Ok (handle_socket_bind client_sock s)
  | SocketAccept => handle_socket_accept client_sock None s
  | SocketAccept4 flags => handle_socket_accept client_sock (Some flags) s
  | SocketConnect addr len => Ok (handle_socket_connect client_sock addr len s)
  end.

(** The end of the loop's body: the response, the descriptor, the [break] of the socket
    requests, and [kill].  The second result: was the response written? *)
Definition handle_socket (client_sock : Z) (r : socket_req) s : res (bool * host K) :=
  let* (l, s) := switch client_sock r s in
  match l with
  | Killed => Ok (false, close_fd client_sock s)
  | Answer ret host_fd =>
      let '(n, k) := sk_write 4 (h_k s) in
      let s := with_k s k in
      if Z.ltb n 4 then Ok (false, close_fd client_sock s)
      else
        let s := if gives_fd r && Z.leb 0 ret then close_fd ret (pass_fd ret s) else s in
        let s := if Z.leb 0 host_fd then close_fd host_fd s else s in
        Ok (true, close_fd client_sock s)
  end.
End Handlers.

(** ** Balance of descriptors *)
Class SockLaws (K : Type) `{!SockEnv K} := {
  law_fd X : (sk_fd X ∉ X) ∧ 0 ≤ sk_fd X;
  law_file X : sk_file X ∉ X;
  law_errno f ty p k : 0 ≤ (sk_socket f ty p k).1;
  law_accept_errno f fl o k e k' : sk_accept f fl o k = Some (e, k') → 0 ≤ e
}.

Section Balance.
Context {K : Type} `{!SockEnv K, !SockLaws K} (host_ip : Z).
Implicit Types (s : host K) (m : gmap Z Z).

(** Existing files keep their flags. *)
Definition flags_kept s s' : Prop := ∀ g v, h_flags s !! g = Some v → h_flags s' !! g = Some v.

Lemma fresh_fd m : m !! sk_fd (dom m) = None ∧ 0 ≤ sk_fd (dom m).
Proof. destruct (law_fd (dom m)) as [H ?]. by rewrite not_elem_of_dom in H. Qed.

Lemma new_socket_spec flags s :
  ∃ fd file s', new_socket flags s = (fd, s') ∧ h_fds s !! fd = None ∧ 0 ≤ fd ∧ h_flags s !! file = None ∧
    h_fds s' = <[fd := file]> (h_fds s) ∧ h_flags s' = <[file := flags]> (h_flags s) ∧ h_passed s' = h_passed s ∧ h_k s' = h_k s.
Proof.
  unfold new_socket, open_fd. cbn. destruct (fresh_fd (h_fds s)) as [Hfd ?].
  pose proof (law_file (dom (h_flags s))) as Hf. rewrite not_elem_of_dom in Hf. eexists _, _, _. by repeat (split; [done|]).
Qed.

(** What the [switch] leaves: at most the received and the new descriptor, and the flags as they were. *)
Lemma receive_spec c s :
  ∃ fd file s', receive_fd c s = ((fd, file), s') ∧ h_flags s' = h_flags s ∧ h_passed s' = h_passed s ∧
    (fd < 0 ∧ h_fds s' = h_fds s ∨ 0 ≤ fd ∧ h_fds s !! fd = None ∧ h_fds s' = <[fd := file]> (h_fds s)).
Proof.
  unfold receive_fd. destruct (sk_recv c (h_k s)) as [[size msg] k].
  assert (∃ fd file s', ((-1, 0), with_k s k) = ((fd, file), s') ∧ h_flags s' = h_flags s ∧ h_passed s' = h_passed s ∧
    (fd < 0 ∧ h_fds s' = h_fds s ∨ 0 ≤ fd ∧ h_fds s !! fd = None ∧ h_fds s' = <[fd := file]> (h_fds s))) as Hnone.
  { eexists _, _, _. repeat (split; [done|]). by left. }
  destruct (Z.ltb size 0); [done|]. destruct msg as [[c' file]|]; [|done].
  destruct (Z.eqb _ _); [|done]. destruct (negb _); [done|]. destruct (negb _); [done|].
  unfold open_fd. destruct (fresh_fd (h_fds s)) as [Hfd ?]. eexists _, _, _. repeat (split; [done|]). by right.
Qed.

(** The descriptor received from the client is in the table [m]. *)
Definition received s (fd : Z) m : Prop :=
  fd < 0 ∧ m = h_fds s ∨ 0 ≤ fd ∧ h_fds s !! fd = None ∧ ∃ file, m = <[fd := file]> (h_fds s).

(** The [switch] leaves the received descriptor and, where the response gives one, the new one. *)
Definition switched (r : socket_req) s (l : left) s' : Prop :=
  flags_kept s s' ∧ h_passed s' = h_passed s ∧
  match l with
  | Killed => h_fds s' = h_fds s
  | Answer ret fd =>
      ∃ m, received s fd m ∧
        if gives_fd r && Z.leb 0 ret
        then m !! ret = None ∧ ∃ new, h_flags s !! new = None ∧ h_fds s' = <[ret := new]> m
        else h_fds s' = m
  end.

Lemma flags_kept_insert s s' file v :
  h_flags s !! file = None → h_flags s' = <[file := v]> (h_flags s) → flags_kept s s'.
Proof. intros Hn E g w Hg. rewrite E, lookup_insert_ne by congruence. done. Qed.

Lemma switch_accept c flags s l s' r :
  gives_fd r = true → handle_socket_accept c flags s = Ok (l, s') → switched r s l s'.
Proof.
  intros Hr. unfold handle_socket_accept. destruct (receive_spec c s) as (fd & file & s1 & -> & Hf1 & Hp1 & Hfd).
  destruct (Z.ltb_spec fd 0).
  { intros [= <- <-]. split; [|split; [done|]]; [intros g v; by rewrite Hf1|]. destruct Hfd as [[_ ->]|[? _]]; [done|lia]. }
  destruct Hfd as [[? _]|(_ & Hnew & Hm)]; [lia|]. set (s2 := set_flags file _ s1).
  destruct (sk_accept _ _ _ _) as [[errno k]|] eqn:Eacc; [|done]. apply law_accept_errno in Eacc.
  assert (received s fd (h_fds s1)) as Hrec by (right; eauto).
  destruct (Z.eqb_spec errno 0) as [->|He]; cbn [negb].
  - destruct (new_socket_spec (Z.land (default 0 flags) O_NONBLOCK) (with_k s2 k)) as (ret & new & s3 & -> & Hr3 & Hr0 & Hn3 & Hm3 & Hf3 & Hp3 & _).
    intros [= <- <-]. cbn in *. assert (h_flags s !! new = None) as Hns.
    { apply lookup_insert_None in Hn3 as [Hn3 _]. by rewrite <- Hf1. }
    split; [|split; [cbn; by rewrite Hp3|]].
    + intros g v Hg. cbn. rewrite Hf3. destruct (decide (g = file)) as [->|Hne].
      * rewrite lookup_insert_eq. unfold flags_of. by rewrite Hf1, Hg.
      * rewrite lookup_insert_ne by done. rewrite lookup_insert_ne by congruence. by rewrite lookup_insert_ne, Hf1 by done.
    + exists (h_fds s1). split; [done|]. rewrite Hr. destruct (Z.leb_spec 0 ret); [|lia]. cbn. eauto.
  - intros [= <- <-]. split; [|split; [done|]].
    + intros g v Hg. cbn. destruct (decide (g = file)) as [->|Hne].
      * rewrite lookup_insert_eq. unfold flags_of. by rewrite Hf1, Hg.
      * by rewrite !lookup_insert_ne, Hf1 by done.
    + exists (h_fds s1). split; [done|]. rewrite Hr. by destruct (Z.leb_spec 0 (- errno)); [lia|].
Qed.

(** Bind and connect: a result and no new descriptor. *)
Lemma switch_call c (call : Z → K → Z * K) s l s' r :
  gives_fd r = false →
  (let '((fd, file), s1) := receive_fd c s in
   if Z.ltb fd 0 then (Killed, s1) else let '(errno, k) := call file (h_k s1) in (Answer (- errno) fd, with_k s1 k)) = (l, s') →
  switched r s l s'.
Proof.
  intros Hr. destruct (receive_spec c s) as (fd & file & s1 & -> & Hf1 & Hp1 & Hfd). destruct (Z.ltb_spec fd 0).
  - intros [= <- <-]. split; [|split; [done|]]; [intros g v; by rewrite Hf1|]. destruct Hfd as [[_ ->]|[? _]]; [done|lia].
  - destruct (call file (h_k s1)) as [errno k]. intros [= <- <-]. split; [|split; [done|]]; [intros g v; cbn; by rewrite Hf1|].
    exists (h_fds s1). rewrite Hr. split; [|done]. destruct Hfd as [[? _]|(? & ? & ?)]; [lia|right; eauto].
Qed.

Lemma switch_spec c r s l s' : switch host_ip c r s = Ok (l, s') → switched r s l s'.
Proof.
  destruct r; cbn [switch].
  - intros [= H]. revert H. unfold handle_socket_socket. pose proof (law_errno AF_INET type protocol (h_k s)) as He.
    destruct (sk_socket _ _ _ _) as [errno k]. cbn in He. destruct (Z.eqb_spec errno 0) as [->|Hne]; cbn [negb].
    + destruct (new_socket_spec 0 (with_k s k)) as (ret & new & s3 & -> & Hr3 & Hr0 & Hn3 & Hm3 & Hf3 & Hp3 & _).
      intros [= <- <-]. split; [by eapply flags_kept_insert|]. split; [done|]. exists (h_fds s). split; [left; split; [lia|done]|].
      cbn [gives_fd]. destruct (Z.leb_spec 0 ret); [|lia]. cbn. eauto.
    + intros [= <- <-]. split; [by intros g v|]. split; [done|]. exists (h_fds s). split; [left; split; [lia|done]|].
      cbn [gives_fd]. by destruct (Z.leb_spec 0 (- errno)); [lia|].
  - intros [= H]. by apply (switch_call c (λ file, sk_bind file AF_INET host_ip 0) s l s' SocketBind eq_refl H).
  - by apply switch_accept.
  - by apply switch_accept.
  - intros [= H]. by apply (switch_call c (λ file, sk_connect file addr addrlen) s l s' (SocketConnect addr addrlen) eq_refl H).
Qed.

(** C35.  Socket requests are balanced.  When the response was written, the router's
    table of descriptors is what it was, less the connection; the client has received
    at most one file, a new one, and exactly when the response gives one and the call
    succeeded; and every file has the status flags it had, also after an accept that
    made it blocking meanwhile.  When the response could not be written, the
    descriptors the case opened stay open. *)
Theorem sockets_balanced c r s b s' :
  handle_socket host_ip c r s = Ok (b, s') →
  flags_kept s s' ∧
  (b = true → h_fds s' = delete c (h_fds s) ∧
     ∃ l, h_passed s' = h_passed s ++ l ∧
       ∀ ret fd s1, switch host_ip c r s = Ok (Answer ret fd, s1) →
         if gives_fd r && Z.leb 0 ret then ∃ new, l = [new] ∧ h_flags s !! new = None else l = []) ∧
  (b = false → h_passed s' = h_passed s ∧
     ∀ l s1, switch host_ip c r s = Ok (l, s1) → h_fds s' = delete c (h_fds s1)).
Proof.
  unfold handle_socket. destruct (switch host_ip c r s) as [[l s1]| | | |] eqn:Esw; try done. cbn [rbind].
  pose proof (switch_spec _ _ _ _ _ Esw) as (Hfl & Hp & Hl). destruct l as [ret fd|].
  2:{ intros [= <- <-]. split; [done|]. split; [done|]. intros _. split; [done|]. by intros l s2 [= <- <-]. }
  destruct (sk_write 4 (h_k s1)) as [n k]. destruct (Z.ltb n 4).
  { intros [= <- <-]. split; [done|]. split; [done|]. intros _. split; [done|]. by intros l s2 [= <- <-]. }
  destruct Hl as (m & Hm & Hl). intros [= <- <-]. split.
  { intros g v Hg%Hfl. unfold pass_fd. repeat case_match; done. }
  split; [|done]. intros _.
  assert (∀ x : gmap Z Z, x = m → delete c (if Z.leb 0 fd then delete fd x else x) = delete c (h_fds s)) as Hclose.
  { intros x ->. destruct Hm as [[Hfd ->]|(Hfd & Hn & file & ->)]; destruct (Z.leb_spec 0 fd); try lia; [done|].
    by rewrite delete_insert_id. }
  destruct (gives_fd r && Z.leb 0 ret) eqn:Eg.
  - destruct Hl as (Hret & new & Hnew & Hm1). unfold pass_fd. cbn [h_fds with_k]. rewrite Hm1, lookup_insert_eq.
    split.
    + rewrite <- (Hclose m eq_refl). destruct (Z.leb 0 fd); cbn; by rewrite delete_insert_id.
    + exists [new]. split; [destruct (Z.leb 0 fd); cbn; by rewrite Hp|]. intros ret' fd' s2 [= <- <- <-]. rewrite Eg. eauto.
  - split; [rewrite <- (Hclose _ Hl); by destruct (Z.leb 0 fd)|]. exists []. rewrite app_nil_r.
    split; [by destruct (Z.leb 0 fd)|]. intros ret' fd' s2 [= <- <- <-]. by rewrite Eg.
Qed.
End Balance.

(** A system in which every call succeeds; the number is what [write] returns. *)
#[export] Program Instance willing : SockEnv Z := {|
  sk_socket f t p k := (0, k);
  sk_bind file f ip port k := (0, k);
  sk_accept file fl o k := Some (0, k);
  sk_connect file a l k := (0, k);
  sk_recv c k := (2, Some (mkCmsg CMSG_LEN_int SOL_SOCKET SCM_RIGHTS 0, 70), k);
  sk_write n k := (k, k);
  sk_fd X := Z.of_N (fresh (set_map Z.to_N X : gset N));
  sk_file X := fresh X
|}.

#[export] Program Instance willing_laws : SockLaws Z.
Next Obligation.
  intros X. cbn. split; [|lia]. intros HX. apply (is_fresh (set_map Z.to_N X : gset N)), elem_of_map.
  eexists. split; [|exact HX]. by rewrite N2Z.id.
Qed.
Next Obligation. intros X. cbn. apply is_fresh. Qed.
Next Obligation. done. Qed.
Next Obligation. intros f fl o k e k' H. cbn in H. by injection H as <- _. Qed.

(** An accept on a socket that does not block: only the connection's descriptor goes; if the
    response is lost, two stay open. *)
Lemma sockets_balanced_witness :
  let s n := mkHost {[5 := 50]} {[70 := O_NONBLOCK]} [] n in
  (∃ s', handle_socket 0 5 SocketAccept (s 4) = Ok (true, s') ∧ h_fds s' = ∅ ∧ h_flags s' !! 70 = Some O_NONBLOCK) ∧
  (∃ s', handle_socket 0 5 SocketAccept (s (-1)) = Ok (false, s') ∧ size (h_fds s') = 2%nat).
Proof.
  intros s. split.
  - destruct (handle_socket 0 5 SocketAccept (s 4)) as [[b s']| | | |] eqn:E; try (by vm_compute in E).
    destruct (sockets_balanced 0 5 SocketAccept (s 4) b s' E) as (Hf & Ht & _).
    assert (b = true) as -> by (vm_compute in E; by injection E as <- _). exists s'. split; [done|].
    destruct (Ht eq_refl) as [-> _]. split; [by vm_compute|]. by apply Hf.
  - destruct (handle_socket 0 5 SocketAccept (s (-1))) as [[b s']| | | |] eqn:E; try (by vm_compute in E).
    assert (b = false) as -> by (vm_compute in E; by injection E as <- _). exists s'. split; [done|].
    vm_compute in E. by injection E as <-.
Defined.
