(* ===== verification/Mapping.v ===== *)
(** * Shared-memory pieces and the routers' tables of memory keys

    [ffrouter.cpp]: the pieces of shared memory behind memory regions ([addShmPiece]),
    the IBV_REG_MR, IBV_DEREG_MR and IBV_REG_MR_MAPPING cases of [HandleRequest], and
    the UDP server through which the routers tell each other what a memory key
    means.  What the client does with a region is in [MemReg]. *)

From S2P Require Import Prelude FfTypes Wire MemReg Request DataPath Vip.

(** ** Names *)

(** A number as [<<] prints it. *)
Fixpoint dec (fuel : nat) (n : Z) : list Z :=
  match fuel with
  | O => []
  | S fuel => if Z.ltb n 10 then [digit n] else dec fuel (n / 10) ++ [digit (n mod 10)]
  end.
Definition decimal (n : Z) : list Z := if Z.ltb n 0 then 45 :: dec 20 (- n) else dec 20 n.

Definition piece_name (client_id mem_size count : Z) : list Z :=
  chars "client-" ++ decimal client_id ++ chars "-memsize-" ++ decimal mem_size ++ chars "-index-" ++ decimal count.
#[global] Arguments piece_name : simpl never.

(** ** Pieces

    [pc_ptr]: where it is mapped, if [open] succeeded. *)
Record piece := mkPiece { pc_name : list Z; pc_size : Z; pc_ptr : option Z }.

Record mr := mkMr { mr_handle : Z; mr_lkey : Z; mr_rkey : Z }.

(** The members of [FreeFlowRouter] about memory. *)
Record tables := mkTables {
  shm_pool : gmap Z (list piece); shm_map : gmap (list Z) (option piece); shmr_map : gmap Z piece; mr_map : gmap Z mr;
  lkey_ptr : gmap Z Z; rkey_mr_shm : gmap Z mr_shm
}.

Definition set_pool p t := mkTables p (shm_map t) (shmr_map t) (mr_map t) (lkey_ptr t) (rkey_mr_shm t).
Definition set_shm_map m t := mkTables (shm_pool t) m (shmr_map t) (mr_map t) (lkey_ptr t) (rkey_mr_shm t).
Definition set_mrs s m t := mkTables (shm_pool t) (shm_map t) s m (lkey_ptr t) (rkey_mr_shm t).
Definition set_lkeys l t := mkTables (shm_pool t) (shm_map t) (shmr_map t) (mr_map t) l (rkey_mr_shm t).
Definition set_rkeys r t := mkTables (shm_pool t) (shm_map t) (shmr_map t) (mr_map t) (lkey_ptr t) r.

Definition usable (p : piece) : option piece := match pc_ptr p with Some _ => Some p | None => None end.

(** [ptr]: the address [open] maps the piece at. *)
Definition addShmPiece (client_id mem_size : Z) (ptr : option Z) (t : tables) : option piece * tables :=
  let v := default [] (shm_pool t !! client_id) in
  let sp := mkPiece (piece_name client_id mem_size (lenZ v)) mem_size ptr in
  (usable sp, set_pool (<[client_id := v ++ [sp]]> (shm_pool t)) t).

Definition addShmPiece_named (shm_name : list Z) (mem_size : Z) (ptr : option Z) (t : tables) : option piece * tables :=
  match shm_map t !! shm_name with
  | Some sp => (sp, t)
  | None =>
      let sp := usable (mkPiece shm_name mem_size ptr) in
      (sp, set_shm_map (<[shm_name := sp]> (shm_map t)) t)
  end.

(** ** Registration

    [None]: [goto end], after which no response is written.  [pd_ok]: the protection domain
    is known; [reg]: what [ibv_reg_mr] returns. *)
Record reg_mr_req := mkRegReq { rq_pd_handle : Z; rq_mem_size : Z; rq_shm_name : list Z }.
Record reg_mr_rsp := mkRsp { rs_handle : Z; rs_lkey : Z; rs_rkey : Z; rs_shm_name : list Z }.

Definition handle_reg_mr (client_id : Z) (q : reg_mr_req) (ptr : option Z) (pd_ok : bool) (reg : option mr) (t : tables) :
    option reg_mr_rsp * tables :=
  let '(sp, t) := if Z.eqb (lenZ (rq_shm_name q)) 0 then addShmPiece client_id (rq_mem_size q) ptr t
                  else addShmPiece_named (rq_shm_name q) (rq_mem_size q) ptr t in
  match sp with
  | None => (None, t)
  | Some sp =>
      if negb pd_ok then (None, t)
      else
        match reg with
        | None => (None, t)
        | Some m =>
            let t := if Z.leb MAP_SIZE (mr_handle m) then t
                     else set_mrs (<[mr_handle m := sp]> (shmr_map t)) (<[mr_handle m := m]> (mr_map t)) t in
            (Some (mkRsp (mr_handle m) (mr_lkey m) (mr_rkey m) (pc_name sp)),
             set_lkeys (<[mr_lkey m := default 0 (pc_ptr sp)]> (lkey_ptr t)) t)
        end
  end.

(** [ret]: what [ibv_dereg_mr] returns.  The piece loses its name; the response is [ret]. *)
Definition handle_dereg_mr (handle ret : Z) (t : tables) : res (Z * list Z * tables) :=
  do* in_bounds "shmr_map" handle MAP_SIZE;
  let* m := deref "mr" (mr_map t !! handle) in
  let* sp := deref "sp" (shmr_map t !! handle) in
  Ok (ret, pc_name sp, set_mrs (delete handle (shmr_map t)) (delete handle (mr_map t)) t).

(** ** Key mappings between routers

    The routers by address; [HOST_LIST]. *)
Abbreviation net := (gmap (list Z) tables).
Definition HOST_LIST : list (list Z) := [[192; 168; 2; 13]; [192; 168; 2; 15]].

(** The UDP server of a router, on a datagram with a mapping. *)
Definition udp_server (p : mapping_req) (t : tables) : tables :=
  set_rkeys (<[map_key p := mkMrShm (map_mr p) (map_shm p)]> (rkey_mr_shm t)) t.

(** What happens to the datagram for one host: no socket, no local port, or sent; then
    whether the datagram arrives and whether [recvfrom] returns, with an answer or an
    error; the loop goes on after either. *)
Inductive udp := NoSocket | NoPort | Sent (arrives answered : bool).

(** The loop's state: the sockets left open, the routers.  [NoSocket] leaves
    [HandleRequest] by [return], without an answer. *)
Fixpoint send_mappings (p : mapping_req) (hosts : list (list Z)) (us : list udp) (leaked : nat) (n : net) :
    res (bool * nat * net) :=
  match hosts, us with
  | h :: hosts, u :: us =>
      match u with
      | NoSocket => Ok (false, leaked, n)
      | NoPort => send_mappings p hosts us (S leaked) n
      | Sent arrives answered =>
          let n := if arrives then alter (udp_server p) h n else n in
          if (answered : bool) then send_mappings p hosts us leaked n else Blocked
      end
  | _, _ => Ok (true, leaked, n)
  end.

(** [lkey_ptr[key]] of the router [me], which makes an entry when there is none. *)
Definition handle_reg_mr_mapping (me : list Z) (p : mapping_req) (us : list udp) (n : net) : res (bool * nat * net) :=
  let* t := deref "ffr" (n !! me) in
  let ptr := default 0 (lkey_ptr t !! map_key p) in
  let n := <[me := set_lkeys (<[map_key p := ptr]> (lkey_ptr t)) t]> n in
  send_mappings (mkMappingReq (map_key p) (map_mr p) ptr) HOST_LIST us 0 n.

(** ** Names determine client, size and number *)
Definition undec (l : list Z) : Z := foldl (λ a c, a * 10 + (c - 48)) 0 l.

Lemma undec_dec fuel n : 0 ≤ n < 10 ^ Z.of_nat fuel → undec (dec fuel n) = n.
Proof.
  unfold undec. revert n. induction fuel as [|fuel IH]; intros n Hn; cbn [dec]; [cbn in Hn; cbn; lia|].
  destruct (Z.ltb_spec n 10); [cbn; unfold digit; lia|]. rewrite foldl_snoc, IH.
  - unfold digit. pose proof (Z.div_mod n 10). lia.
  - rewrite Nat2Z.inj_succ, Z.pow_succ_r in Hn by lia. split; [apply Z.div_pos; lia|]. apply Z.div_lt_upper_bound; lia.
Qed.

Lemma dec_digits fuel n : 0 ≤ n → Forall (λ c, 48 ≤ c ≤ 57) (dec fuel n).
Proof.
  revert n. induction fuel as [|fuel IH]; intros n Hn; cbn [dec]; [constructor|].
  destruct (Z.ltb_spec n 10); [by repeat constructor; unfold digit; lia|]. apply Forall_app. split.
  - apply IH. apply Z.div_pos; lia.
  - repeat constructor; unfold digit; pose proof (Z.mod_pos_bound n 10); lia.
Qed.

Definition int (n : Z) : Prop := - 2 ^ 31 ≤ n < 2 ^ 31.

Lemma decimal_inj n k : int n → int k → decimal n = decimal k → n = k.
Proof.
  unfold int, decimal. intros Hn Hk E.
  assert (∀ a b, 0 ≤ a → 0 ≤ b → a < 10 ^ 20 → b < 10 ^ 20 → dec 20 a = dec 20 b → a = b) as Hinj.
  { intros a b ???? Hab. rewrite <- (undec_dec 20 a), <- (undec_dec 20 b), Hab by (change (10 ^ Z.of_nat 20) with (10 ^ 20); lia). done. }
  assert (∀ a l, 0 ≤ a → 45 :: l = dec 20 a → False) as Hsign.
  { intros a l Ha Hl. pose proof (dec_digits 20 a Ha) as Hd. rewrite <- Hl in Hd. apply list.Forall_cons in Hd as [Hd _]. lia. }
  destruct (Z.ltb_spec n 0), (Z.ltb_spec k 0).
  - injection E as E. apply Hinj in E; lia.
  - destruct (Hsign k (dec 20 (- n))); [lia|done].
  - destruct (Hsign n (dec 20 (- k))); [lia|done].
  - apply Hinj in E; lia.
Qed.

(** Text up to a letter that numbers do not have. *)
Definition numeral (l : list Z) : Prop := Forall (λ c, c ≤ 57) l.

Lemma decimal_numeral n : numeral (decimal n).
Proof.
  unfold decimal, numeral. destruct (Z.ltb_spec n 0); [constructor; [lia|]|]; (eapply list.Forall_impl; [apply dec_digits; lia|cbn; lia]).
Qed.

Lemma numeral_split a b c x y : numeral a → numeral b → 57 < c → a ++ c :: x = b ++ c :: y → a = b ∧ x = y.
Proof.
  intros Ha Hb Hc. revert b Hb. induction Ha as [|u a Hu Ha IH]; intros b Hb E.
  - destruct Hb as [|v b Hv Hb]; [by injection E as ->|]. injection E as -> _. lia.
  - destruct Hb as [|v b Hv Hb]; [injection E as -> _; lia|]. injection E as -> E.
    apply IH in E as [-> ->]; done.
Qed.

Lemma piece_name_inj c m i c' m' i' :
  int c → int m → int i → int c' → int m' → int i' → piece_name c m i = piece_name c' m' i' → c = c' ∧ m = m' ∧ i = i'.
Proof.
  intros Hc Hm Hi Hc' Hm' Hi' E. unfold piece_name in E. apply app_inv_head in E.
  assert (∀ l, numeral l → numeral (l ++ [45])) as Hdash by (intros l Hl; apply Forall_app; repeat constructor; [done|lia]).
  change (chars "-memsize-") with ([45] ++ 109 :: chars "emsize-") in E. change (chars "-index-") with ([45] ++ 105 :: chars "ndex-") in E.
  rewrite <- !app_assoc in E. cbn [app] in E.
  assert (∀ a x, a ++ 45 :: x = (a ++ [45]) ++ x) as Hmove by (intros; by rewrite <- app_assoc).
  rewrite (Hmove (decimal c)), (Hmove (decimal c')) in E.
  apply numeral_split in E as [E1 E]; [|apply Hdash, decimal_numeral..|lia]. apply app_inv_head in E.
  rewrite (Hmove (decimal m)), (Hmove (decimal m')) in E.
  apply numeral_split in E as [E2 E]; [|apply Hdash, decimal_numeral..|lia]. apply app_inv_head in E.
  apply app_inv_tail in E1, E2. by apply decimal_inj in E1, E2, E.
Qed.

(** ** Pieces are private *)

(** The requests of any clients and the datagrams of other routers, in any order. *)
Inductive mem_step : tables → tables → Prop :=
  | step_reg c q ptr pd_ok reg t r t' : int c → int (rq_mem_size q) →
      handle_reg_mr c q ptr pd_ok reg t = (r, t') → mem_step t t'
  | step_dereg h ret t r t' : handle_dereg_mr h ret t = Ok (r, t') → mem_step t t'
  | step_lkey k v t : mem_step t (set_lkeys (<[k := v]> (lkey_ptr t)) t)
  | step_udp p t : mem_step t (udp_server p t).

Definition no_tables : tables := mkTables ∅ ∅ ∅ ∅ ∅ ∅.

(** The [i]-th piece of a client's pool has the name for that number. *)
Definition pool_ok (t : tables) : Prop :=
  ∀ c l, shm_pool t !! c = Some l → int c ∧
    ∀ i p, l !! i = Some p → int (pc_size p) ∧ pc_name p = piece_name c (pc_size p) (Z.of_nat i).

Lemma add_piece_ok c m ptr t : int c → int m → pool_ok t → pool_ok (addShmPiece c m ptr t).2.
Proof.
  intros Hc Hm Hok c' l. cbn. rewrite lookup_insert_Some. intros [[<- <-]|[_ Hl]]; [|by apply (Hok c')].
  split; [done|]. intros i p [Hi|[Hi Hp]]%lookup_app_Some.
  - destruct (shm_pool t !! c) as [v|] eqn:Hv; [|done]. by apply (Hok c v Hv).
  - apply list_lookup_singleton_Some in Hp as [Hz <-]. cbn [pc_size pc_name]. split; [done|]. f_equal. unfold lenZ. lia.
Qed.

Lemma step_pool t t' : mem_step t t' → pool_ok t → pool_ok t'.
Proof.
  intros [c q ptr pd_ok reg t1 r t2 Hc Hm H|h ret t1 r t2 H|k v t1|p t1] Hok; try done.
  - unfold handle_reg_mr in H.
    destruct (if Z.eqb _ _ then _ else _) as [sp t3] eqn:E.
    assert (pool_ok t3) as Hok3.
    { destruct (Z.eqb _ _); [|].
      - replace t3 with (addShmPiece c (rq_mem_size q) ptr t1).2 by (by rewrite E). by apply add_piece_ok.
      - unfold addShmPiece_named in E. destruct (shm_map t1 !! _); injection E as _ <-; done. }
    repeat case_match; injection H as _ <-; done.
  - unfold handle_dereg_mr in H. destruct (in_bounds _ _ _); try done. cbn in H.
    destruct (mr_map t1 !! h); [|done]. destruct (shmr_map t1 !! h); [|done]. by injection H as _ <-.
Qed.



(** ** Every router learns the mapping *)
Lemma send_all (p : mapping_req) (hosts : list (list Z)) (us : list udp) (leaked : nat) (n : net) :
  us = replicate (length hosts) (Sent true true) →
  send_mappings p hosts us leaked n = Ok (true, leaked, foldl (λ n h, alter (udp_server p) h n) n hosts).
Proof. intros ->. revert n. induction hosts as [|h hosts IH]; intros n; [done|]. cbn. apply IH. Qed.

Lemma told (p : mapping_req) (hosts : list (list Z)) (n : net) (h : list Z) (t : tables) :
  n !! h = Some t →
  ∃ t', foldl (λ n h, alter (udp_server p) h n) n hosts !! h = Some t' ∧ lkey_ptr t' = lkey_ptr t ∧
    ((h ∈ hosts → rkey_mr_shm t' !! map_key p = Some (mkMrShm (map_mr p) (map_shm p))) ∧
     ∀ k, k ≠ map_key p ∨ (h ∉ hosts) → rkey_mr_shm t' !! k = rkey_mr_shm t !! k).
Proof.
  intros Hn. induction hosts as [|h' hosts IH] using rev_ind.
  { exists t. split; [done|]. split; [done|]. split; [|done]. by intros ?%not_elem_of_nil. }
  rewrite foldl_snoc. destruct IH as (t1 & H1 & Hl & Hin & Hout). destruct (decide (h' = h)) as [->|Hne].
  - rewrite lookup_alter_eq, H1. exists (udp_server p t1). split; [done|]. split; [done|]. split.
    + intros _. apply lookup_insert_eq.
    + intros k [Hk|Hk]; [|exfalso; apply Hk; set_solver]. cbn. rewrite lookup_insert_ne by done. apply Hout. by left.
  - rewrite lookup_alter_ne by done. exists t1. split; [done|]. split; [done|]. split.
    + intros [?|?%list_elem_of_singleton]%elem_of_app; [by apply Hin|congruence].
    + intros k [Hk|Hk]; apply Hout; [by left|right; set_solver].
Qed.

(** A lost answer: the handler waits for ever. *)
Lemma lost_answer_blocks p hosts us us' leaked n a :
  (length us < length hosts)%nat → Forall (λ u, u = NoPort ∨ ∃ a, u = Sent a true) us →
  send_mappings p hosts (us ++ Sent a false :: us') leaked n = Blocked.
Proof.
  revert hosts leaked n. induction us as [|u us IH]; intros [|h hosts] leaked n Hlen Hus; cbn in Hlen; try lia; [done|].
  apply list.Forall_cons in Hus as [[->|[a' ->]] Hus]; cbn; apply IH; done || lia.
Qed.

(** C34.  Remote addresses are translated on every host.  When the client of the router
    [me] announces a region and each datagram and its answer arrive, every router of
    the list knows the region: a read or write request of any of them to an address of the
    region, under its key, is redirected to the same offset in the piece of shared
    memory as the registering router maps it; other keys keep their meaning, and
    no socket stays open.  When an answer is lost, the request waits for ever. *)
Theorem mapping_distributed (me : list Z) (p : mapping_req) (n : net) (t : tables) (ptr : Z) :
  n !! me = Some t → lkey_ptr t !! map_key p = Some ptr → (∀ h, h ∈ HOST_LIST → is_Some (n !! h)) →
  (∃ n', handle_reg_mr_mapping me p (replicate 2 (Sent true true)) n = Ok (true, 0%nat, n') ∧
    ∀ h t0, h ∈ HOST_LIST → n !! h = Some t0 → ∃ t', n' !! h = Some t' ∧
      (∀ k, k ≠ map_key p → rkey_mr_shm t' !! k = rkey_mr_shm t0 !! k) ∧
      ∀ w y i, is_rdma (sw_opcode w) = true → sw_w1 w = map_key p → sw_w0 w = map_mr p + i → 0 ≤ ptr + i < 2 ^ 64 →
        ∃ y', remap_remote (λ _, rkey_mr_shm t') w y = Ok (set_w0 (ptr + i) w, y')) ∧
  ∀ us us' a, (length us < 2)%nat → Forall (λ u, u = NoPort ∨ ∃ a, u = Sent a true) us →
    handle_reg_mr_mapping me p (us ++ Sent a false :: us') n = Blocked.
Proof.
  intros Hme Hptr Hhosts. unfold handle_reg_mr_mapping. rewrite Hme. cbn [deref rbind]. rewrite Hptr. cbn [default from_option id].
  split; [|intros us us' a Hlen Hus; by apply lost_answer_blocks]. eexists. split; [by apply send_all|].
  intros h t0 Hh Ht0. set (t1 := set_lkeys _ t).
  assert (∃ t2, <[me := t1]> n !! h = Some t2 ∧ rkey_mr_shm t2 = rkey_mr_shm t0) as (t2 & Ht2 & Hr2).
  { destruct (decide (h = me)) as [->|Hne].
    - exists t1. rewrite lookup_insert_eq. split; [done|]. unfold t1. cbn. by rewrite Hme in Ht0; injection Ht0 as <-.
    - exists t0. by rewrite lookup_insert_ne. }
  destruct (told (mkMappingReq (map_key p) (map_mr p) ptr) HOST_LIST _ h t2 Ht2) as (t' & Ht' & _ & Hin & Hout).
  exists t'. split; [done|]. split; [intros k Hk; rewrite Hout, Hr2 by (by left); done|].
  intros w y i Hop Hkey Haddr Hrange. specialize (Hin Hh). cbn in Hin. unfold remap_remote. rewrite Hop, Hkey.
  cbn [find_rkey]. rewrite Hin. cbn [rbind ms_shm ms_mr]. eexists. rewrite Haddr. do 3 f_equal.
  replace (ptr + (map_mr p + i) - map_mr p) with (ptr + i) by lia. by apply u64_id.
Qed.

(** Both hosts, and a region at 5000 in the application and at 9000 in the first router. *)
Definition two_hosts : net :=
  {[ [192; 168; 2; 13] := set_lkeys {[7 := 9000]} no_tables; [192; 168; 2; 15] := no_tables ]}.

Lemma mapping_distributed_witness :
  ∃ n', handle_reg_mr_mapping [192; 168; 2; 13] (mkMappingReq 7 5000 0) (replicate 2 (Sent true true)) two_hosts = Ok (true, 0%nat, n') ∧
    ∃ t', n' !! [192; 168; 2; 15] = Some t' ∧
      ∃ y', remap_remote (λ _, rkey_mr_shm t') (mkSendWr 1 None None 0 IBV_WR_RDMA_READ 5016 7 []) (mkSendSt 0 0 0) =
        Ok (mkSendWr 1 None None 0 IBV_WR_RDMA_READ 9016 7 [], y').
Proof.
  destruct (mapping_distributed [192; 168; 2; 13] (mkMappingReq 7 5000 0) two_hosts (set_lkeys {[7 := 9000]} no_tables) 9000)
    as [(n' & Hh & Ht) _]; [by vm_compute|by vm_compute| |].
  - intros h [-> | ->%list_elem_of_singleton]%elem_of_cons; by vm_compute; eexists.
  - exists n'. split; [done|]. destruct (Ht [192; 168; 2; 15] no_tables) as (t' & Ht' & _ & Hw); [set_solver|by vm_compute|].
    exists t'. split; [done|]. by apply (Hw (mkSendWr 1 None None 0 IBV_WR_RDMA_READ 5016 7 []) (mkSendSt 0 0 0) 16).
Defined.
