(* ===== verification/RateLimit.v ===== *)
(** * The rate limiter of a queue pair

    [tokenbucket.h]: [consume], by threads that share a bucket.  Times are in units
    of 1/5 ns.  A call loads the shared time once and then tries to advance it with
    compare-and-exchange; between these accesses other threads run. *)

From S2P Require Import Prelude Control.

Record bucket := mkBucket { time_ : Z; timePerToken_ : Z; timePerBurst_ : Z }.

Definition new_bucket (rate burstSize : Z) : res bucket :=
  let* (tpt, tpb) := TokenBucket rate burstSize in Ok (mkBucket 0 tpt tpb).

(** A call in its loop: [now], [timeNeeded], [oldTime] and [newTime]. *)
Record attempt := mkAttempt { at_now : Z; at_need : Z; at_old : Z; at_new : Z }.

(** From the start of [consume] to its loop.  [now] is the reading of the clock. *)
Definition consume_begin (now tokens : Z) (b : bucket) : attempt :=
  let timeNeeded := u64 (tokens * timePerToken_ b) in
  let minTime := u64 (now - timePerBurst_ b) in
  let oldTime := time_ b in
  mkAttempt now timeNeeded oldTime (if Z.ltb oldTime minTime then minTime else oldTime).

Inductive outcome := Done (granted : bool) | Again (a : attempt).

(** One turn of the loop; [spurious]: the weak exchange fails although the values agree. *)
Definition consume_turn (spurious : bool) (a : attempt) (b : bucket) : outcome * bucket :=
  let newTime := u64 (at_new a + at_need a) in
  if Z.ltb (at_now a) newTime then (Done false, b)
  else if Z.eqb (time_ b) (at_old a) && negb spurious
       then (Done true, mkBucket newTime (timePerToken_ b) (timePerBurst_ b))
       else (Again (mkAttempt (at_now a) (at_need a) (time_ b) (time_ b)), b).

(** A call that is not disturbed. *)
Definition consume (now tokens : Z) (b : bucket) : bool * bucket :=
  match consume_turn false (consume_begin now tokens b) b with
  | (Done g, b) => (g, b)
  | (Again _, b) => (false, b)
  end.

(** [while (!(tb->consume(length))) usleep(...)]: [clock] gives the time at each turn. *)
Fixpoint wait_consume (fuel : nat) (clock : nat → Z) (i : nat) (length : Z) (b : bucket) : res bucket :=
  match fuel with
  | O => OutOfFuel
  | S fuel =>
      match consume (clock i) length b with
      | (true, b) => Ok b
      | (false, b) => wait_consume fuel clock (S i) length b
      end
  end.

(** ** One thread *)
Section Sequential.
Context (tpt tpb : Z) (Htpb : 0 ≤ tpb) (Htpt : 0 ≤ tpt).

(** Sensible values: nothing wraps. *)
Definition sane (now tokens : Z) : Prop := tpb ≤ now < 2 ^ 62 ∧ 0 ≤ tokens ∧ tokens * tpt < 2 ^ 62.

(** A call succeeds exactly when the tokens fit between the bucket's time, but at most a burst before now, and now. *)
Lemma consume_spec now tokens t :
  sane now tokens → 0 ≤ t ≤ now →
  consume now tokens (mkBucket t tpt tpb) =
  (let from := Z.max (now - tpb) t in
   if Z.leb (from + tokens * tpt) now then (true, mkBucket (from + tokens * tpt) tpt tpb) else (false, mkBucket t tpt tpb)).
Proof.
  intros (Hn & Ht & Hneed) Hb. unfold consume, consume_turn, consume_begin. cbn.
  assert (0 ≤ tokens * tpt) by (apply Z.mul_nonneg_nonneg; lia).
  rewrite (u64_id (tokens * tpt)), (u64_id (now - tpb)) by lia.
  replace (if Z.ltb t (now - tpb) then now - tpb else t) with (Z.max (now - tpb) t)
    by (destruct (Z.ltb_spec t (now - tpb)); lia).
  rewrite u64_id by lia. rewrite Z.eqb_refl. cbn.
  destruct (Z.ltb_spec now (Z.max (now - tpb) t + tokens * tpt)), (Z.leb_spec (Z.max (now - tpb) t + tokens * tpt) now); lia || done.
Qed.

(** The time the granted requests of a list of calls take, and the bucket after them. *)
Fixpoint serve (reqs : list (Z * Z)) (b : bucket) : Z * bucket :=
  match reqs with
  | [] => (0, b)
  | (now, tokens) :: reqs =>
      let '(g, b) := consume now tokens b in
      let '(sum, b) := serve reqs b in
      ((if g then tokens * tpt else 0) + sum, b)
  end.

Inductive clocked : Z → list (Z * Z) → Z → Prop :=
  | clocked_nil t : clocked t [] t
  | clocked_cons t now tokens reqs t' : t ≤ now → sane now tokens → clocked now reqs t' → clocked t ((now, tokens) :: reqs) t'.

Lemma clocked_le t reqs t' : clocked t reqs t' → t ≤ t'.
Proof. induction 1; lia. Qed.

Lemma serve_bound t0 reqs t1 t :
  clocked t0 reqs t1 → 0 ≤ t ≤ t0 →
  let '(sum, b) := serve reqs (mkBucket t tpt tpb) in
  ∃ t', b = mkBucket t' tpt tpb ∧ 0 ≤ t' ∧ t + sum ≤ t' ∧ (t' = t ∧ sum = 0 ∨ t0 - tpb + sum ≤ t' ≤ t1).
Proof.
  intros Hc. revert t. induction Hc as [t0|t0 now tokens reqs t1 Hle Hs Hc IH]; intros t Ht; cbn [serve].
  { exists t. repeat split; lia. }
  rewrite consume_spec by (done || lia). cbv zeta. destruct (Z.leb_spec (Z.max (now - tpb) t + tokens * tpt) now) as [Hfit|Hfit].
  - specialize (IH (Z.max (now - tpb) t + tokens * tpt)). pose proof (clocked_le _ _ _ Hc).
    assert (0 ≤ tokens * tpt) by (destruct Hs as (_ & ? & _); apply Z.mul_nonneg_nonneg; lia).
    destruct (serve reqs _) as [sum b]. destruct IH as (t' & -> & Hpos & Hge & Hcase); [lia|].
    exists t'. split; [done|]. destruct Hcase as [[-> ->]|?]; lia.
  - specialize (IH t). destruct (serve reqs _) as [sum b]. destruct IH as (t' & -> & Hpos & Hge & Hcase); [lia|].
    exists t'. split; [done|]. destruct Hcase as [[-> ->]|?]; lia.
Qed.
End Sequential.

(** ** Several threads

    [lm_log]: the time and the need of the calls that were granted, the last first. *)
Record limiter := mkLim { lm_bucket : bucket; lm_calls : gmap nat attempt; lm_log : list (Z * Z) }.

Inductive lim_step : limiter → limiter → Prop :=
  | lim_begin i now tokens b calls log :
      calls !! i = None → sane (timePerToken_ b) (timePerBurst_ b) now tokens →
      lim_step (mkLim b calls log) (mkLim b (<[i := consume_begin now tokens b]> calls) log)
  | lim_again i spurious a a' b b' calls log :
      calls !! i = Some a → consume_turn spurious a b = (Again a', b') →
      lim_step (mkLim b calls log) (mkLim b' (<[i := a']> calls) log)
  | lim_done i spurious a g b b' calls log :
      calls !! i = Some a → consume_turn spurious a b = (Done g, b') →
      lim_step (mkLim b calls log)
               (mkLim b' (delete i calls) (if (g : bool) then (at_now a, at_need a) :: log else log)).

Definition granted_time (log : list (Z * Z)) : Z := foldr (λ x s, x.2 + s) 0 log.

Definition attempt_ok (a : attempt) : Prop := 0 ≤ at_old a ≤ at_new a ∧ at_new a < 2 ^ 62 ∧ 0 ≤ at_need a < 2 ^ 62 ∧ at_now a < 2 ^ 62.

(** [t0]: the bucket's time at the start. *)
Record lim_ok (t0 : Z) (s : limiter) : Prop := {
  lim_time : 0 ≤ time_ (lm_bucket s) < 2 ^ 62;
  lim_rates : 0 ≤ timePerToken_ (lm_bucket s) ∧ 0 ≤ timePerBurst_ (lm_bucket s);
  lim_sum : t0 + granted_time (lm_log s) ≤ time_ (lm_bucket s);
  lim_calls : map_Forall (λ _ a, attempt_ok a) (lm_calls s)
}.

Lemma consume_begin_ok now tokens b :
  0 ≤ time_ b < 2 ^ 62 → 0 ≤ timePerToken_ b → 0 ≤ timePerBurst_ b →
  sane (timePerToken_ b) (timePerBurst_ b) now tokens → attempt_ok (consume_begin now tokens b).
Proof.
  intros Ht Htpt Htpb (Hn & Htok & Hneed). assert (0 ≤ tokens * timePerToken_ b) by (apply Z.mul_nonneg_nonneg; lia).
  unfold attempt_ok, consume_begin. cbn. rewrite !u64_id by lia. destruct (Z.ltb_spec (time_ b) (now - timePerBurst_ b)); lia.
Qed.

Lemma lim_step_ok t0 s s' : lim_step s s' → lim_ok t0 s → lim_ok t0 s'.
Proof.
  intros [i now tokens b calls log Hi Hs|i sp a a' b b' calls log Hi Ht|i sp a g b b' calls log Hi Ht] [H1 H2 H3 H4]; cbn in *.
  - split; try done. cbn. apply map_Forall_insert_2; [|done]. apply consume_begin_ok; try done; apply H2.
  - destruct (H4 i a Hi) as (Ho & Hn & Hneed & Hnow). unfold consume_turn in Ht.
    destruct (Z.ltb _ _); [done|]. destruct (_ && _); [done|]. injection Ht as <- <-. split; try done. cbn.
    apply map_Forall_insert_2; [|done]. unfold attempt_ok. cbn. lia.
  - destruct (H4 i a Hi) as (Ho & Hn & Hneed & Hnow). unfold consume_turn in Ht. rewrite u64_id in Ht by lia.
    destruct (Z.ltb_spec (at_now a) (at_new a + at_need a)).
    { injection Ht as <- <-. split; try done. cbn. by apply map_Forall_delete. }
    destruct (Z.eqb_spec (time_ b) (at_old a)) as [Heq|]; cbn in Ht; [|done]. destruct sp; [done|]. injection Ht as <- <-.
    split; cbn; try done; [lia|lia|by apply map_Forall_delete].
Qed.

Lemma lim_reach t0 s s' : rtc lim_step s s' → lim_ok t0 s → lim_ok t0 s'.
Proof. induction 1; eauto using lim_step_ok. Qed.

(** Two calls at time 1000 that get the burst of 10 each: the first loses the exchange to a
    call that started at 20, and goes on from the bucket's time. *)
Lemma contention :
  rtc lim_step (mkLim (mkBucket 0 1 10) ∅ []) (mkLim (mkBucket 1000 1 10) ∅ [(1000, 10); (1000, 10); (20, 10)]).
Proof.
  eapply rtc_l; [apply (lim_begin 0 20 10); [done|by vm_compute]|].
  eapply rtc_l; [apply (lim_begin 1 1000 10); [done|by vm_compute]|].
  eapply rtc_l; [eapply (lim_done 0 false); [done|by vm_compute]|].
  eapply rtc_l; [eapply (lim_again 1 false); [done|by vm_compute]|].
  eapply rtc_l; [eapply (lim_done 1 false); [done|by vm_compute]|].
  eapply rtc_l; [apply (lim_begin 2 1000 10); [done|by vm_compute]|].
  eapply rtc_l; [eapply (lim_done 2 false); [done|by vm_compute]|].
  by vm_compute.
Qed.

(**  What the limiter limits.  Calls one after another: between two readings of the
    clock, what is granted takes at most the time between them and one burst.  Calls
    of any number of threads in any interleaving: all that was granted since the bucket had time
    [t0] takes at most the time since.  The burst does not bound contending
    calls: two of them can get it at the same time. *)
Theorem rate_limited tpt tpb :
  0 ≤ tpt → 0 ≤ tpb →
  (∀ t0 reqs t1 t, clocked tpt tpb t0 reqs t1 → 0 ≤ t ≤ t0 → (serve tpt reqs (mkBucket t tpt tpb)).1 ≤ t1 - t0 + tpb) ∧
  (∀ t0 s, 0 ≤ t0 < 2 ^ 62 → rtc lim_step (mkLim (mkBucket t0 tpt tpb) ∅ []) s →
     granted_time (lm_log s) ≤ time_ (lm_bucket s) - t0) ∧
  (∃ s, rtc lim_step (mkLim (mkBucket 0 1 10) ∅ []) s ∧
     granted_time (filter (λ x, x.1 = 1000) (lm_log s)) = 20).
Proof.
  intros Htpt Htpb. split; [|split].
  - intros t0 reqs t1 t Hc Ht. pose proof (clocked_le _ _ _ _ _ Hc). pose proof (serve_bound tpt tpb Htpb Htpt t0 reqs t1 t Hc Ht) as Hb.
    destruct (serve tpt reqs _) as [sum b]. destruct Hb as (t' & _ & _ & _ & [[_ ->]|Hb]); cbn; lia.
  - intros t0 s Ht0 Hr. assert (lim_ok t0 s) as Hok; [|pose proof (lim_sum _ _ Hok); lia].
    eapply lim_reach; [exact Hr|]. split; cbn; try done; lia.
  - eexists. split; [apply contention|]. by vm_compute.
Qed.

Lemma rate_limited_witness :
  (serve 1 [(100, 10); (100, 1); (105, 5)] (mkBucket 0 1 10)).1 = 15 ∧
  (serve 1 [(100, 10); (100, 1); (105, 5)] (mkBucket 0 1 10)).1 ≤ 105 - 100 + 10.
Proof.
  split; [by vm_compute|]. destruct (rate_limited 1 10) as [H _]; [lia..|]. apply (H 100); [|lia].
  repeat (constructor; [lia|by vm_compute|]). constructor.
Defined.

(** ** Waiting for tokens *)
Lemma wait_refused fuel clock i length b tpt tpb t :
  0 ≤ tpb → 0 ≤ tpt → b = mkBucket t tpt tpb → (∀ j, sane tpt tpb (clock j) length ∧ 0 ≤ t ≤ clock j) → tpb < length * tpt →
  wait_consume fuel clock i length b = OutOfFuel.
Proof.
  intros Htpb Htpt -> Hc Hbig. revert i. induction fuel as [|fuel IH]; intros i; [done|]. cbn [wait_consume].
  destruct (Hc i) as [Hs Ht]. rewrite consume_spec by done. cbv zeta.
  destruct (Z.leb_spec (Z.max (clock i - tpb) t + length * tpt) (clock i)); [lia|]. apply IH.
Qed.

Lemma wait_served fuel clock i length tpt tpb t n :
  0 ≤ tpb → 0 ≤ tpt → (∀ j, sane tpt tpb (clock j) length ∧ 0 ≤ t ≤ clock j) → length * tpt ≤ tpb →
  (i ≤ n < i + fuel)%nat → t + length * tpt ≤ clock n →
  ∃ t', wait_consume fuel clock i length (mkBucket t tpt tpb) = Ok (mkBucket t' tpt tpb).
Proof.
  intros Htpb Htpt Hc Hsmall Hn Hlate. revert i Hn. induction fuel as [|fuel IH]; intros i Hn; [lia|]. cbn [wait_consume].
  destruct (Hc i) as [Hs Ht]. rewrite consume_spec by done. cbv zeta.
  destruct (Z.leb_spec (Z.max (clock i - tpb) t + length * tpt) (clock i)); [by eexists|].
  apply IH. destruct (decide (i = n)) as [->|]; lia.
Qed.


