(* ===== verification/Rsocket.v ===== *)
(** * rsocket: byte streams over RDMA writes

    [librdmacm/src/rsocket.c], the part for SOCK_STREAM: messages and credits, the
    completion queue, sending and receiving.  A socket writes data directly into its peer's
    receive buffer; the peer tells it where by writing entries of [target_sgl], and
    how many messages it may send by the sequence number in the immediate data.

    The members of [struct rsocket] are grouped: those fixed when the endpoint is
    set up ([rs_cfg]), those of sending ([rs_tx]) and of receiving ([rs_rx]).  The
    lengths in [ssgl] are set just before each use and are not kept.  Memory the peer
    can write is bytes at addresses.  The device and the connection manager are the
    class [RsEnv].  The locks are left out: a socket is driven by one thread at a time. *)

From S2P Require Import Prelude Layout FfTypes Attrs Request Cma.

Definition RS_OLAP_START_SIZE : Z := 2048.
Definition RS_MAX_TRANSFER : Z := 65536.
Definition RS_SNDLOWAT : Z := 2048.
Definition RS_QP_MIN_SIZE : Z := 16.
Definition RS_QP_MAX_SIZE : Z := 0xFFFE.
Definition RS_QP_CTRL_SIZE : Z := 4.
Definition RS_CONN_RETRIES : Z := 6.
Definition RS_SGL_SIZE : Z := 2.
Definition RS_MAX_CTRL_MSG : Z := 16.
Definition RS_MSG_SIZE : Z := 4.

(** ** Immediate data and work request identifiers *)
Definition RS_OP_DATA : Z := 0.
Definition RS_OP_WRITE : Z := 2.
Definition RS_OP_SGL : Z := 4.
Definition RS_OP_IOMAP_SGL : Z := 6.
Definition RS_OP_CTRL : Z := 7.
Definition rs_msg_set (op data : Z) : Z := u32 (Z.lor (Z.shiftl op 29) (u32 data)).
Definition rs_msg_op (imm_data : Z) : Z := Z.shiftr imm_data 29.
Definition rs_msg_data (imm_data : Z) : Z := Z.land imm_data 0x1FFFFFFF.

Definition RS_WR_ID_FLAG_RECV : Z := Z.shiftl 1 63.
Definition RS_WR_ID_FLAG_MSG_SEND : Z := Z.shiftl 1 62.
Definition rs_send_wr_id (data : Z) : Z := data.
Definition rs_recv_wr_id (data : Z) : Z := Z.lor RS_WR_ID_FLAG_RECV data.
Definition rs_wr_is_recv (wr_id : Z) : bool := Z.testbit wr_id 63.
Definition rs_wr_is_msg_send (wr_id : Z) : bool := Z.testbit wr_id 62.
Definition rs_wr_data (wr_id : Z) : Z := u32 wr_id.

Definition RS_CTRL_DISCONNECT : Z := 0.
Definition RS_CTRL_KEEPALIVE : Z := 1.
Definition RS_CTRL_SHUTDOWN : Z := 2.

(** ** States and options *)
Definition rs_init : Z := 0.
Definition rs_bound : Z := 0x0001.
Definition rs_listening : Z := 0x0002.
Definition rs_opening : Z := 0x0004.
Definition rs_resolving_addr : Z := Z.lor rs_opening 0x0010.
Definition rs_resolving_route : Z := Z.lor rs_opening 0x0020.
Definition rs_connecting : Z := Z.lor rs_opening 0x0040.
Definition rs_accepting : Z := Z.lor rs_opening 0x0080.
Definition rs_connected : Z := 0x0100.
Definition rs_writable : Z := 0x0200.
Definition rs_readable : Z := 0x0400.
Definition rs_connect_rdwr : Z := Z.lor rs_connected (Z.lor rs_readable rs_writable).
Definition rs_connect_error : Z := 0x0800.
Definition rs_disconnected : Z := 0x1000.
Definition rs_error : Z := 0x2000.

Definition RS_OPT_SWAP_SGL : Z := 1.
Definition RS_OPT_MSG_SEND : Z := 2.
Definition RS_OPT_SVC_ACTIVE : Z := 4.

(** [x & flag] as a condition. *)
Definition has (x flag : Z) : bool := negb (Z.eqb (Z.land x flag) 0).

Definition O_NONBLOCK : Z := 0x800.
Definition MSG_PEEK : Z := 2.
Definition MSG_DONTWAIT : Z := 0x40.
Definition MSG_WAITALL : Z := 0x100.
Definition EAGAIN : Z := 11.
Definition EWOULDBLOCK : Z := EAGAIN.
Definition EINTR : Z := 4.
Definition EIO : Z := 5.
Definition EINVAL : Z := 22.
Definition ECONNRESET : Z := 104.
Definition ETIMEDOUT : Z := 110.
Definition EINPROGRESS : Z := 115.
Definition ENOTSUP : Z := 95.
Definition ENOMEM : Z := 12.

(** ** Data *)
Definition S_rs_sge : cty := CStruct [("addr", CInt 8); ("key", CInt 4); ("length", CInt 4)].
Definition S_rs_iomap : cty := CStruct [("offset", CInt 8); ("sge", S_rs_sge)].

Record rs_sge := mkRsSge { sg_addr : Z; sg_key : Z; sg_length : Z }.
Record rs_msg := mkMsg { msg_op : Z; msg_data : Z }.
Record rs_iomap_mr := mkIomr { im_offset : Z; im_addr : Z; im_length : Z; im_rkey : Z; im_index : Z }.

(** [target_sgl] is the address of the array; [smr] and the keys are those of the regions. *)
Record rs_cfg := mkCfg {
  sbuf_size : Z; rbuf_size : Z; sq_size : Z; rq_size : Z; sq_inline : Z; sbuf : Z; rbuf : Z; target_sgl : Z;
  smr_lkey : Z; rmr_lkey : Z; rmr_rkey : Z; target_rkey : Z; target_iomap_size : Z; remote_sgl : rs_sge; remote_iomap : rs_sge
}.

(** [ssgl_addr] is [ssgl[0].addr]. *)
Record rs_tx := mkTx {
  sseq_no : Z; sseq_comp : Z; sqe_avail : Z; sbuf_bytes_avail : Z; ssgl_addr : Z; target_sge : Z
}.

Record rs_rx := mkRx {
  rseq_no : Z; rseq_comp : Z; rbuf_bytes_avail : Z; rbuf_free_offset : Z; rbuf_offset : Z; rbuf_msg_index : Z;
  remote_sge : Z; rmsg_head : Z; rmsg_tail : Z; rmsg : list rs_msg
}.

Record rsocket := mkRs {
  cfg : rs_cfg; tx : rs_tx; rx : rs_rx; ctrl_seqno : Z; ctrl_max_seqno : Z; opts : Z; fd_flags : Z; state : Z; rs_err : Z;
  cq_armed : bool; unack_cqe : Z; retries : Z; optval : option (list Z);
  iomap_queue : list rs_iomap_mr; iomap_list : list rs_iomap_mr; iomap_pending : bool
}.

Definition set_cfg f r := mkRs (f (cfg r)) (tx r) (rx r) (ctrl_seqno r) (ctrl_max_seqno r) (opts r) (fd_flags r) (state r) (rs_err r)
  (cq_armed r) (unack_cqe r) (retries r) (optval r) (iomap_queue r) (iomap_list r) (iomap_pending r).
Definition set_tx f r := mkRs (cfg r) (f (tx r)) (rx r) (ctrl_seqno r) (ctrl_max_seqno r) (opts r) (fd_flags r) (state r) (rs_err r)
  (cq_armed r) (unack_cqe r) (retries r) (optval r) (iomap_queue r) (iomap_list r) (iomap_pending r).
Definition set_rx f r := mkRs (cfg r) (tx r) (f (rx r)) (ctrl_seqno r) (ctrl_max_seqno r) (opts r) (fd_flags r) (state r) (rs_err r)
  (cq_armed r) (unack_cqe r) (retries r) (optval r) (iomap_queue r) (iomap_list r) (iomap_pending r).
Definition set_ctrl s m r := mkRs (cfg r) (tx r) (rx r) s m (opts r) (fd_flags r) (state r) (rs_err r)
  (cq_armed r) (unack_cqe r) (retries r) (optval r) (iomap_queue r) (iomap_list r) (iomap_pending r).
Definition set_opts o r := mkRs (cfg r) (tx r) (rx r) (ctrl_seqno r) (ctrl_max_seqno r) o (fd_flags r) (state r) (rs_err r)
  (cq_armed r) (unack_cqe r) (retries r) (optval r) (iomap_queue r) (iomap_list r) (iomap_pending r).
Definition set_state s e r := mkRs (cfg r) (tx r) (rx r) (ctrl_seqno r) (ctrl_max_seqno r) (opts r) (fd_flags r) s e
  (cq_armed r) (unack_cqe r) (retries r) (optval r) (iomap_queue r) (iomap_list r) (iomap_pending r).
Definition set_cq a u r := mkRs (cfg r) (tx r) (rx r) (ctrl_seqno r) (ctrl_max_seqno r) (opts r) (fd_flags r) (state r) (rs_err r)
  a u (retries r) (optval r) (iomap_queue r) (iomap_list r) (iomap_pending r).
Definition set_conn n o r := mkRs (cfg r) (tx r) (rx r) (ctrl_seqno r) (ctrl_max_seqno r) (opts r) (fd_flags r) (state r) (rs_err r)
  (cq_armed r) (unack_cqe r) n o (iomap_queue r) (iomap_list r) (iomap_pending r).
Definition set_iomaps q l p r := mkRs (cfg r) (tx r) (rx r) (ctrl_seqno r) (ctrl_max_seqno r) (opts r) (fd_flags r) (state r) (rs_err r)
  (cq_armed r) (unack_cqe r) (retries r) (optval r) q l p.

(** ** Work requests and completions *)
Inductive payload := Gather (sgl : list ibv_sge) | Inline (data : list Z).
Inductive wr_opcode := IBV_WR_RDMA_WRITE | IBV_WR_RDMA_WRITE_WITH_IMM | IBV_WR_SEND.

(** Members the code leaves uninitialised are 0. *)
Record rs_wr := mkRsWr { w_id : Z; w_data : payload; w_op : wr_opcode; w_imm : Z; w_raddr : Z; w_rkey : Z }.
Record rs_recv_wr := mkRecv { v_id : Z; v_sge : option ibv_sge }.

(** [c_imm]: the immediate data, if IBV_WC_WITH_IMM is set. *)
Record rs_wc := mkRsWc { c_id : Z; c_ok : bool; c_imm : option Z }.

(** The calls give an error number, 0 for success.  A poll gives what [ibv_poll_cq] returns, the
    completion and the memory with what the peer has written meanwhile; so do the
    calls that wait, which give [None] while they sleep. *)
Class RsEnv (K : Type) := {
  d_post_send : rs_wr → mem → K → Z * K;
  d_post_recv : rs_recv_wr → K → Z * K;
  d_poll_cq : mem → K → Z * rs_wc * mem * K;
  d_req_notify : K → K;
  d_get_event : mem → K → option (Z * mem * K);
  d_ack_events : Z → K → K;
  d_time : K → Z * K
}.

(** A socket with its memory, the thread's [errno] and the environment. *)
Record ep (K : Type) := mkEp { e_rs : rsocket; e_mem : mem; e_errno : Z; e_k : K }.
Arguments mkEp {K}.
Arguments e_rs {K}.
Arguments e_mem {K}.
Arguments e_errno {K}.
Arguments e_k {K}.

Definition R (K A : Type) : Type := ep K → res (A * ep K).
#[export] Instance R_ret K : MRet (R K) := λ _ a s, Ok (a, s).
#[export] Instance R_bind K : MBind (R K) := λ _ _ f m s, let* (a, s) := m s in f a s.

(** ** Memory *)

(** [memcpy(a, bs, lenZ bs)] *)
Definition poke (a : Z) (bs : list Z) (m : mem) : mem :=
  λ x, if Z.leb a x && Z.ltb x (a + lenZ bs) then nth (Z.to_nat (x - a)) bs 0 else m x.
Definition peek (a n : Z) (m : mem) : list Z := load_bytes a (Z.to_nat n) m.

(** A [struct rs_sge] at an address. *)
Definition at_sge (a : Z) (f : string) : Z * Z := let '(o, w) := field S_rs_sge [f] in (a + o, w).
Definition load_sge (a : Z) (m : mem) : rs_sge :=
  mkRsSge (load (at_sge a "addr") m) (load (at_sge a "key") m) (load (at_sge a "length") m).
Definition store_sge (a : Z) (g : rs_sge) (m : mem) : mem :=
  store (at_sge a "length") (sg_length g) (store (at_sge a "key") (sg_key g) (store (at_sge a "addr") (sg_addr g) m)).

Section Socket.
Context {K : Type} `{!RsEnv K}.
Implicit Types (s : ep K) (r : rsocket).

Definition gets {A} (f : ep K → A) : R K A := λ s, Ok (f s, s).
Definition rs_get {A} (f : rsocket → A) : R K A := gets (λ s, f (e_rs s)).
Definition rs_set (f : rsocket → rsocket) : R K () := λ s, Ok ((), mkEp (f (e_rs s)) (e_mem s) (e_errno s) (e_k s)).
Definition mem_set (f : mem → mem) : R K () := λ s, Ok ((), mkEp (e_rs s) (f (e_mem s)) (e_errno s) (e_k s)).
Definition dev {A} (f : K → A * K) : R K A := λ s, let '(a, k) := f (e_k s) in Ok (a, mkEp (e_rs s) (e_mem s) (e_errno s) k).
Definition dev_ (f : K → K) : R K () := dev (λ k, ((), f k)).
Definition lift {A} (x : res A) : R K A := λ s, let* a := x in Ok (a, s).

(** [ERR(e)] *)
Definition ERR (e : Z) : R K Z := λ s, Ok (-1, mkEp (e_rs s) (e_mem s) e (e_k s)).

(** [rdma_seterrno] *)
Definition seterrno (e : Z) : R K Z := if Z.eqb e 0 then mret 0 else ERR e.

(** ** Posting *)
Definition msg_send r : bool := has (opts r) RS_OPT_MSG_SEND.

Definition post_send (w : rs_wr) : R K Z :=
  m ← gets e_mem; e ← dev (d_post_send w m); seterrno e.

Definition rs_post_recv : R K Z :=
  r ← rs_get id;
  w ← (if negb (msg_send r) then mret (mkRecv (rs_recv_wr_id 0) None)
       else
         let i := rbuf_msg_index (rx r) in
         rs_set (set_rx (λ x, mkRx (rseq_no x) (rseq_comp x) (rbuf_bytes_avail x) (rbuf_free_offset x) (rbuf_offset x)
                                   (if Z.eqb (i + 1) (rq_size (cfg r)) then 0 else i + 1)
                                   (remote_sge x) (rmsg_head x) (rmsg_tail x) (rmsg x))) ;;
         mret (mkRecv (rs_recv_wr_id i)
                 (Some (mkSge (rbuf (cfg r) + rbuf_size (cfg r) + i * RS_MSG_SIZE) RS_MSG_SIZE (rmr_lkey (cfg r))))));
  e ← dev (d_post_recv w);
  seterrno e.

Definition rs_get_ctrl_buf r : Z :=
  sbuf (cfg r) + sbuf_size (cfg r) + RS_MAX_CTRL_MSG * Z.land (ctrl_seqno r) (RS_QP_CTRL_SIZE - 1).

Definition rs_post_msg (msg : Z) : R K Z :=
  r ← rs_get id;
  post_send (if negb (msg_send r)
             then mkRsWr (rs_send_wr_id msg) (Gather []) IBV_WR_RDMA_WRITE_WITH_IMM (swap32 msg) 0 0
             else mkRsWr (rs_send_wr_id msg) (Inline (le_bytes 4 msg)) IBV_WR_SEND 0 0 0).

Definition rs_post_write (d : payload) (wr_data addr rkey : Z) : R K Z :=
  post_send (mkRsWr (rs_send_wr_id wr_data) d IBV_WR_RDMA_WRITE 0 addr rkey).

Definition rs_post_write_msg (d : payload) (msg addr rkey : Z) : R K Z :=
  r ← rs_get id;
  if negb (msg_send r)
  then post_send (mkRsWr (rs_send_wr_id msg) d IBV_WR_RDMA_WRITE_WITH_IMM (swap32 msg) addr rkey)
  else
    ret ← rs_post_write d msg addr rkey;
    if negb (Z.eqb ret 0) then mret ret
    else post_send (mkRsWr (Z.lor (rs_send_wr_id (rs_msg_set (rs_msg_op msg) 0)) RS_WR_ID_FLAG_MSG_SEND)
                           (Inline (le_bytes 4 msg)) IBV_WR_SEND 0 0 0).

(** The counters at the start of [rs_write_data], [rs_write_iomap] and [rs_write_direct]. *)
Definition take_send (seq wqes length : Z) r : rsocket :=
  set_tx (λ t, mkTx (u16 (sseq_no t + seq)) (sseq_comp t) (sqe_avail t - wqes) (sbuf_bytes_avail t - length) (ssgl_addr t)
                    (target_sge t)) r.
Definition set_target_sge (i : Z) r : rsocket :=
  set_tx (λ t, mkTx (sseq_no t) (sseq_comp t) (sqe_avail t) (sbuf_bytes_avail t) (ssgl_addr t) i) r.
Definition set_ssgl_addr (a : Z) r : rsocket :=
  set_tx (λ t, mkTx (sseq_no t) (sseq_comp t) (sqe_avail t) (sbuf_bytes_avail t) a (target_sge t)) r.

(** [&rs->target_sgl[rs->target_sge]] *)
Definition cur_sge r : Z := target_sgl (cfg r) + target_sge (tx r) * sizeof S_rs_sge.

Definition rs_write_data (d : payload) (length : Z) : R K Z :=
  rs_set (λ r, take_send 1 (if msg_send r then 2 else 1) length r) ;;
  r ← rs_get id;
  g ← gets (λ s, load_sge (cur_sge r) (e_mem s));
  mem_set (λ m, store (at_sge (cur_sge r) "length") (u32 (sg_length g - length))
                  (store (at_sge (cur_sge r) "addr") (u64 (sg_addr g + length)) m)) ;;
  n ← gets (λ s, sg_length (load_sge (cur_sge r) (e_mem s)));
  (if Z.eqb n 0
   then rs_set (set_target_sge (if Z.eqb (target_sge (tx r) + 1) RS_SGL_SIZE then 0 else target_sge (tx r) + 1))
   else mret ()) ;;
  rs_post_write_msg d (rs_msg_set RS_OP_DATA length) (sg_addr g) (sg_key g).

Definition rs_write_direct (iom : Z * rs_sge) (offset : Z) (d : payload) (length : Z) : R K Z :=
  rs_set (take_send 0 1 length) ;;
  rs_post_write d (rs_msg_set RS_OP_WRITE length) (u64 (sg_addr iom.2 + offset - iom.1)) (sg_key iom.2).

Definition rs_write_iomap (iomr : rs_iomap_mr) (d : payload) : R K Z :=
  rs_set (λ r, take_send 1 (if msg_send r then 2 else 1) (sizeof S_rs_iomap) r) ;;
  r ← rs_get id;
  rs_post_write_msg d (rs_msg_set RS_OP_IOMAP_SGL (im_index iomr))
    (sg_addr (remote_iomap (cfg r)) + im_index iomr * sizeof S_rs_iomap) (sg_key (remote_iomap (cfg r))).

Definition rs_sbuf_left r : Z := u32 (sbuf (cfg r) + sbuf_size (cfg r) - ssgl_addr (tx r)).

(** ** Credits *)
Definition swap64 (z : Z) : Z := Z.lor (Z.shiftl (swap32 (Z.land z 0xFFFFFFFF)) 32) (swap32 (Z.land (Z.shiftr z 32) 0xFFFFFFFF)).
Definition half r : Z := Z.shiftr (rbuf_size (cfg r)) 1.

(** [rbuf_bytes_avail >= rbuf_size >> 1]: the comparison is unsigned. *)
Definition half_free r : bool := Z.leb (half r) (u32 (rbuf_bytes_avail (rx r))).

(** The next free half of the receive buffer, as the peer reads it. *)
Definition free_half r : rs_sge :=
  let a := rbuf (cfg r) + rbuf_free_offset (rx r) in
  if negb (has (opts r) RS_OPT_SWAP_SGL) then mkRsSge a (rmr_rkey (cfg r)) (half r)
  else mkRsSge (swap64 a) (swap32 (rmr_rkey (cfg r))) (swap32 (half r)).

Definition set_rseq_comp (v : Z) r : rsocket :=
  set_rx (λ x, mkRx (rseq_no x) v (rbuf_bytes_avail x) (rbuf_free_offset x) (rbuf_offset x) (rbuf_msg_index x)
                    (remote_sge x) (rmsg_head x) (rmsg_tail x) (rmsg x)) r.

(** The half is given away. *)
Definition give_half r : rsocket :=
  set_rx (λ x, mkRx (rseq_no x) (rseq_comp x) (rbuf_bytes_avail x - half r)
                    (if Z.leb (rbuf_size (cfg r)) (rbuf_free_offset x + half r) then 0 else rbuf_free_offset x + half r)
                    (rbuf_offset x) (rbuf_msg_index x)
                    (if Z.eqb (remote_sge x + 1) (sg_length (remote_sgl (cfg r))) then 0 else remote_sge x + 1)
                    (rmsg_head x) (rmsg_tail x) (rmsg x)) r.

Definition rs_send_credits : R K () :=
  rs_set (λ r, set_ctrl (u32 (ctrl_seqno r + 1)) (ctrl_max_seqno r) r) ;;
  rs_set (λ r, set_rseq_comp (u16 (rseq_no (rx r) + Z.shiftr (rq_size (cfg r)) 1)) r) ;;
  r ← rs_get id;
  let credit := rs_msg_set RS_OP_SGL (rseq_no (rx r) + rq_size (cfg r)) in
  if half_free r then
    (if msg_send r then rs_set (λ r, set_ctrl (u32 (ctrl_seqno r + 1)) (ctrl_max_seqno r) r) else mret ()) ;;
    r ← rs_get id;
    mem_set (store_sge (rs_get_ctrl_buf r) (free_half r)) ;;
    rs_post_write_msg (Gather [mkSge (rs_get_ctrl_buf r) (sizeof S_rs_sge) (smr_lkey (cfg r))]) credit
      (sg_addr (remote_sgl (cfg r)) + remote_sge (rx r) * sizeof S_rs_sge) (sg_key (remote_sgl (cfg r))) ;;
    rs_set give_half
  else rs_post_msg credit ;; mret ().

Definition rs_ctrl_avail r : bool := negb (Z.eqb (ctrl_seqno r) (ctrl_max_seqno r)).
Definition rs_2ctrl_avail r : bool := Z.ltb (s32 (ctrl_seqno r + 1 - ctrl_max_seqno r)) 0.

(** [(short) ((short) rseq_no - (short) rseq_comp) >= 0] *)
Definition seq_due r : bool := Z.leb 0 (sint 16 (sint 16 (rseq_no (rx r)) - sint 16 (rseq_comp (rx r)))).

Definition rs_give_credits r : bool :=
  (half_free r || seq_due r) && (if negb (msg_send r) then rs_ctrl_avail r else rs_2ctrl_avail r) &&
  has (state r) rs_connected.

Definition rs_update_credits : R K () :=
  r ← rs_get id; if rs_give_credits r then rs_send_credits else mret ().

(** ** The completion queue *)
Definition set_sseq_comp (v : Z) r : rsocket :=
  set_tx (λ t, mkTx (sseq_no t) v (sqe_avail t) (sbuf_bytes_avail t) (ssgl_addr t) (target_sge t)) r.
Definition back_send (length : Z) r : rsocket :=
  set_tx (λ t, mkTx (sseq_no t) (sseq_comp t) (sqe_avail t + 1) (sbuf_bytes_avail t + length) (ssgl_addr t) (target_sge t)) r.

(** The next index of the ring [rmsg], which has one entry more than the receive queue. *)
Definition next_msg r (i : Z) : Z := if Z.eqb (i + 1) (rq_size (cfg r) + 1) then 0 else i + 1.
Definition push_msg (g : rs_msg) r : rsocket :=
  set_rx (λ x, mkRx (rseq_no x) (rseq_comp x) (rbuf_bytes_avail x) (rbuf_free_offset x) (rbuf_offset x) (rbuf_msg_index x)
                    (remote_sge x) (rmsg_head x) (next_msg r (rmsg_tail x)) (<[Z.to_nat (rmsg_tail x) := g]> (rmsg x))) r.

(** A message of the peer.  The result: does [rs_poll_cq] return at once? *)
Definition receive_msg (msg : Z) : R K bool :=
  r ← rs_get id;
  let op := rs_msg_op msg in
  if Z.eqb op RS_OP_SGL then rs_set (set_sseq_comp (u16 (rs_msg_data msg))) ;; mret false
  else if Z.eqb op RS_OP_IOMAP_SGL then mret false
  else if Z.eqb op RS_OP_CTRL then
    if Z.eqb (rs_msg_data msg) RS_CTRL_DISCONNECT then rs_set (set_state rs_disconnected (rs_err r)) ;; mret true
    else if Z.eqb (rs_msg_data msg) RS_CTRL_SHUTDOWN then
      if has (state r) rs_writable
      then rs_set (set_state (Z.land (state r) (Z.lnot rs_readable)) (rs_err r)) ;; mret false
      else rs_set (set_state rs_disconnected (rs_err r)) ;; mret true
    else mret false
  else if Z.eqb op RS_OP_WRITE then mret false
  else
    lift (in_bounds "rmsg" (rmsg_tail (rx r)) (lenZ (rmsg (rx r)))) ;;
    rs_set (push_msg (mkMsg op (rs_msg_data msg))) ;; mret false.

(** The completion of a work request of our own. *)
Definition complete_send (wr_id : Z) (ok : bool) : R K () :=
  let data := rs_wr_data wr_id in
  let op := rs_msg_op data in
  (if Z.eqb op RS_OP_SGL then rs_set (λ r, set_ctrl (ctrl_seqno r) (u32 (ctrl_max_seqno r + 1)) r)
   else if Z.eqb op RS_OP_CTRL then
     rs_set (λ r, set_ctrl (ctrl_seqno r) (u32 (ctrl_max_seqno r + 1)) r) ;;
     (if Z.eqb (rs_msg_data data) RS_CTRL_DISCONNECT then rs_set (λ r, set_state rs_disconnected (rs_err r) r) else mret ())
   else if Z.eqb op RS_OP_IOMAP_SGL then
     rs_set (back_send (if rs_wr_is_msg_send wr_id then 0 else sizeof S_rs_iomap))
   else rs_set (back_send (rs_msg_data data))) ;;
  r ← rs_get id;
  if negb ok && has (state r) rs_connected then rs_set (set_state rs_error EIO) else mret ().

(** The message of a receive completion. *)
Definition wc_msg (c : rs_wc) r (m : mem) : Z :=
  match c_imm c with
  | Some i => swap32 i
  | None => load (rbuf (cfg r) + rbuf_size (cfg r) + RS_MSG_SIZE * rs_wr_data (c_id c), 4) m
  end.

Definition poll_cq : R K (Z * rs_wc) := λ s,
  let '(n, c, m, k) := d_poll_cq (e_mem s) (e_k s) in Ok ((n, c), mkEp (e_rs s) m (e_errno s) k).

(** The loop over the completions: [None] is the early return, otherwise the last result of
    [ibv_poll_cq] and the number of receives. *)
Fixpoint drain_cq (fuel : nat) (rcnt : Z) : R K (option (Z * Z)) :=
  match fuel with
  | O => λ _, OutOfFuel
  | S fuel =>
      '(ret, c) ← poll_cq;
      if negb (Z.ltb 0 ret) then mret (Some (ret, rcnt))
      else if rs_wr_is_recv (c_id c) then
        if negb (c_ok c) then drain_cq fuel rcnt
        else
          msg ← gets (λ s, wc_msg c (e_rs s) (e_mem s));
          stop ← receive_msg msg;
          if (stop : bool) then mret None else drain_cq fuel (rcnt + 1)
      else complete_send (c_id c) (c_ok c) ;; drain_cq fuel rcnt
  end.

(** [while (!ret && rcnt--) ret = rs_post_recv(rs)] *)
Fixpoint repost (n : nat) : R K Z :=
  match n with
  | O => mret 0
  | S n => ret ← rs_post_recv; if Z.eqb ret 0 then repost n else mret ret
  end.

Definition rs_poll_cq (fuel : nat) : R K Z :=
  o ← drain_cq fuel 0;
  match o with
  | None => mret 0
  | Some (ret, rcnt) =>
      r ← rs_get id;
      if has (state r) rs_connected then
        ret ← (if Z.eqb ret 0 then repost (Z.to_nat rcnt) else mret ret);
        (if negb (Z.eqb ret 0) then e ← gets e_errno; rs_set (set_state rs_error e) else mret ()) ;;
        mret ret
      else mret ret
  end.

Definition rs_get_cq_event : R K Z := λ s,
  let r := e_rs s in
  if negb (cq_armed r) then Ok (0, s)
  else
    match d_get_event (e_mem s) (e_k s) with
    | None => Blocked
    | Some (e, m, k) =>
        if Z.eqb e 0 then
          let n := unack_cqe r + 1 in
          if Z.leb (sq_size (cfg r) + rq_size (cfg r)) n
          then Ok (0, mkEp (set_cq false 0 r) m (e_errno s) (d_ack_events n k))
          else Ok (0, mkEp (set_cq false n r) m (e_errno s) k)
        else if Z.eqb e EAGAIN || Z.eqb e EINTR then Ok (-1, mkEp r m e k)
        else Ok (-1, mkEp (set_state rs_error (rs_err r) r) m e k)
    end.

(** Tests see the socket and its memory. *)
Definition cond := rsocket → mem → bool.
Definition check (t : cond) : R K bool := gets (λ s, t (e_rs s) (e_mem s)).

(** Each turn of the loop polls; [fuel] bounds the turns and the completions of one poll. *)
Fixpoint process_turns (fuel : nat) (nonblock : bool) (test : cond) (n : nat) : R K Z :=
  match n with
  | O => λ _, OutOfFuel
  | S n =>
      rs_update_credits ;;
      ret ← rs_poll_cq fuel;
      ok ← check test;
      if (ok : bool) then mret 0
      else if negb (Z.eqb ret 0) then mret ret
      else if nonblock then ERR EWOULDBLOCK
      else
        armed ← rs_get cq_armed;
        if negb armed
        then dev_ d_req_notify ;; rs_set (λ r, set_cq true (unack_cqe r) r) ;; process_turns fuel nonblock test n
        else
          rs_update_credits ;;
          ret ← rs_get_cq_event;
          if Z.eqb ret 0 then process_turns fuel nonblock test n else mret ret
  end.

Definition rs_process_cq (fuel : nat) (nonblock : bool) (test : cond) : R K Z :=
  ret ← process_turns fuel nonblock test fuel; rs_update_credits ;; mret ret.

(** [poll_time] is [None] before the first reading of the clock. *)
Fixpoint comp_turns (fuel : nat) (polling_time : Z) (nonblock : bool) (test : cond) (start : option Z) (n : nat) : R K Z :=
  match n with
  | O => λ _, OutOfFuel
  | S n =>
      ret ← rs_process_cq fuel true test;
      errno ← gets e_errno;
      if Z.eqb ret 0 || nonblock || negb (Z.eqb errno EWOULDBLOCK) then mret ret
      else
        t0 ← match start with Some t => mret t | None => dev d_time end;
        t1 ← dev d_time;
        let poll_time := u32 (t1 - t0 + 1) in
        if Z.leb poll_time polling_time
        then comp_turns fuel polling_time nonblock test (if Z.eqb poll_time 0 then None else Some t0) n
        else rs_process_cq fuel false test
  end.
Definition rs_get_comp (fuel : nat) (polling_time : Z) (nonblock : bool) (test : cond) : R K Z :=
  comp_turns fuel polling_time nonblock test None fuel.

(** ** Tests *)
Definition rs_nonblocking r (flags : Z) : bool := has (fd_flags r) O_NONBLOCK || has flags MSG_DONTWAIT.

(** [sbuf_bytes_avail >= RS_SNDLOWAT] is a signed comparison. *)
Definition rs_can_send : cond := λ r m,
  (if negb (msg_send r) then negb (Z.eqb (sqe_avail (tx r)) 0) else Z.leb 2 (sqe_avail (tx r))) &&
  Z.leb RS_SNDLOWAT (sbuf_bytes_avail (tx r)) && negb (Z.eqb (sseq_no (tx r)) (sseq_comp (tx r))) &&
  negb (Z.eqb (sg_length (load_sge (cur_sge r) m)) 0).
Definition rs_conn_can_send : cond := λ r m, rs_can_send r m || negb (has (state r) rs_writable).
Definition rs_conn_can_send_ctrl : cond := λ r m, rs_ctrl_avail r || negb (has (state r) rs_connected).
Definition rs_have_rdata : cond := λ r m, negb (Z.eqb (rmsg_head (rx r)) (rmsg_tail (rx r))).
Definition rs_conn_have_rdata : cond := λ r m, rs_have_rdata r m || negb (has (state r) rs_readable).
Definition rs_conn_all_sends_done : cond := λ r m,
  Z.eqb (s32 (s32 (ctrl_max_seqno r) - s32 (ctrl_seqno r)) + sqe_avail (tx r)) (sq_size (cfg r)) || negb (has (state r) rs_connected).

(** ** Sending: what [rsend] does with one chunk *)

(** How much of [left] bytes goes into the next message, and the next [olen]. *)
Definition chunk_size r (m : mem) (olen left : Z) : Z * Z :=
  let '(n, olen) := if Z.ltb olen left then (olen, if Z.ltb olen RS_MAX_TRANSFER then u32 (Z.shiftl olen 1) else olen)
                    else (left, olen) in
  let n := if Z.ltb (u32 (sbuf_bytes_avail (tx r))) n then u32 (sbuf_bytes_avail (tx r)) else n in
  let room := sg_length (load_sge (cur_sge r) m) in
  ((if Z.ltb room n then room else n), olen).

(** The bytes are copied to the send buffer, in two parts at its end, and written from
    there by [write]. *)
Definition place (bs : list Z) (write : payload → R K Z) : R K Z :=
  r ← rs_get id;
  let a := ssgl_addr (tx r) in
  let left := rs_sbuf_left r in
  let lkey := smr_lkey (cfg r) in
  if Z.leb (lenZ bs) left then
    mem_set (poke a bs) ;;
    ret ← write (Gather [mkSge a (lenZ bs) lkey]);
    rs_set (set_ssgl_addr (if Z.ltb (lenZ bs) left then u64 (a + lenZ bs) else sbuf (cfg r))) ;;
    mret ret
  else
    mem_set (λ m, poke (sbuf (cfg r)) (dropZ left bs) (poke a (takeZ left bs) m)) ;;
    ret ← write (Gather [mkSge a left lkey; mkSge (sbuf (cfg r)) (lenZ bs - left) lkey]);
    rs_set (set_ssgl_addr (sbuf (cfg r) + (lenZ bs - left))) ;;
    mret ret.

(** The rest of the loop's body in [rsend], after the wait: the result, the bytes taken
    and the next [olen]. *)
Definition send_chunk (buf : list Z) (olen : Z) : R K (Z * Z * Z) :=
  '(n, olen) ← gets (λ s, chunk_size (e_rs s) (e_mem s) olen (lenZ buf));
  ret ← place (takeZ n buf) (λ d, rs_write_data d n);
  mret (ret, n, olen).

(** ** Receiving: what [rrecv] does with one message *)

(** [rsize] bytes from the ring at [off]: the bytes and the next offset. *)
Definition read_ring r (m : mem) (off rsize : Z) : list Z * Z :=
  let end_size := u32 (rbuf_size (cfg r) - off) in
  if Z.ltb end_size rsize
  then (peek (rbuf (cfg r) + off) end_size m ++ peek (rbuf (cfg r)) (rsize - end_size) m, rsize - end_size)
  else (peek (rbuf (cfg r) + off) rsize m, off + rsize).

(** A message is used up, or in part. *)
Definition take_msg (left : Z) (g : rs_msg) (x : rs_rx) r : Z * rs_rx :=
  if Z.ltb left (msg_data g)
  then (left, mkRx (rseq_no x) (rseq_comp x) (rbuf_bytes_avail x) (rbuf_free_offset x) (rbuf_offset x) (rbuf_msg_index x)
                   (remote_sge x) (rmsg_head x) (rmsg_tail x)
                   (<[Z.to_nat (rmsg_head x) := mkMsg (msg_op g) (msg_data g - left)]> (rmsg x)))
  else (msg_data g, mkRx (u16 (rseq_no x + 1)) (rseq_comp x) (rbuf_bytes_avail x) (rbuf_free_offset x) (rbuf_offset x)
                         (rbuf_msg_index x) (remote_sge x) (next_msg r (rmsg_head x)) (rmsg_tail x) (rmsg x)).

(** The bytes handed to the application, at most [left]. *)
Definition recv_chunk (left : Z) : R K (list Z) :=
  r ← rs_get id;
  g ← lift (deref "rmsg" (rmsg (rx r) !! Z.to_nat (rmsg_head (rx r))));
  let '(rsize, x) := take_msg left g (rx r) r in
  '(bs, off) ← gets (λ s, read_ring r (e_mem s) (rbuf_offset x) rsize);
  rs_set (set_rx (λ _, mkRx (rseq_no x) (rseq_comp x) (rbuf_bytes_avail x + rsize) (rbuf_free_offset x) off (rbuf_msg_index x)
                            (remote_sge x) (rmsg_head x) (rmsg_tail x) (rmsg x))) ;;
  mret bs.

(** [rs_peek]: the same without using anything up. *)
Fixpoint peek_msgs r (m : mem) (fuel : nat) (head off left : Z) : res (list Z) :=
  if Z.eqb left 0 || Z.eqb head (rmsg_tail (rx r)) then Ok []
  else
    match fuel with
    | O => OutOfFuel
    | S fuel =>
        let* g := deref "rmsg" (rmsg (rx r) !! Z.to_nat head) in
        let '(rsize, head) := if Z.ltb left (msg_data g) then (left, head) else (msg_data g, next_msg r head) in
        let '(bs, off) := read_ring r m off rsize in
        let* l := peek_msgs r m fuel head off (left - rsize) in
        Ok (bs ++ l)
    end.
Definition rs_peek (fuel : nat) (len : Z) : R K (list Z) := λ s,
  let* l := peek_msgs (e_rs s) (e_mem s) fuel (rmsg_head (rx (e_rs s))) (rbuf_offset (rx (e_rs s))) len in Ok (l, s).

(** [tcp_svc_send_keepalive] *)
Definition tcp_svc_send_keepalive : R K () :=
  r ← rs_get id;
  if rs_ctrl_avail r && has (state r) rs_connected then
    rs_set (λ r, set_ctrl (u32 (ctrl_seqno r + 1)) (ctrl_max_seqno r) r) ;;
    rs_post_write (Gather []) (rs_msg_set RS_OP_CTRL RS_CTRL_KEEPALIVE) 0 0 ;; mret ()
  else mret ().

(** ** Closing: the parts of [rshutdown] around the wait for a control slot *)
Inductive shut_how := SHUT_RD | SHUT_WR | SHUT_RDWR.

(** The new state and the control message to send; none when only reading ends. *)
Definition shutdown_state (how : shut_how) r : Z * option Z :=
  match how with
  | SHUT_RDWR => (Z.land (state r) (Z.lnot (Z.lor rs_readable rs_writable)), Some RS_CTRL_DISCONNECT)
  | SHUT_WR =>
      let st := Z.land (state r) (Z.lnot rs_writable) in
      (st, Some (if has st rs_readable then RS_CTRL_SHUTDOWN else RS_CTRL_DISCONNECT))
  | SHUT_RD =>
      let st := Z.land (state r) (Z.lnot rs_readable) in
      (st, if has st rs_writable then None else Some RS_CTRL_DISCONNECT)
  end.

Definition send_ctrl (ctrl : Z) : R K Z :=
  r ← rs_get id;
  if has (state r) rs_connected && rs_ctrl_avail r then
    rs_set (λ r, set_ctrl (u32 (ctrl_seqno r + 1)) (ctrl_max_seqno r) r) ;;
    rs_post_msg (rs_msg_set RS_OP_CTRL ctrl)
  else mret 0.
End Socket.
