(* ===== verification/RsNet.v ===== *)
(** * Two connected rsockets

    The reliable connection between two sockets: each side's send queue is executed in
    order, an RDMA write reads the sender's memory when it is executed and writes the
    peer's, immediate data uses up a posted receive and makes a completion; send
    completions follow in order.  A work request stays in the send queue's count until its
    completion has been polled.  The steps of the two sockets are the pieces of code between
    which other threads, the peer and the device can act. *)

From S2P Require Import Prelude Layout FfTypes Attrs Request Cma Rsocket.

(** ** A queue pair *)

(** [q_send]: posted; [q_done]: executed; [q_mrs]: the regions the peer may write, by key. *)
Record rc := mkRc {
  q_send : list rs_wr; q_done : list rs_wr; q_recv : list rs_recv_wr; q_cq : list rs_wc;
  q_max_send : Z; q_max_recv : Z; q_mrs : gmap Z (Z * Z)
}.

Definition with_send l k := mkRc l (q_done k) (q_recv k) (q_cq k) (q_max_send k) (q_max_recv k) (q_mrs k).
Definition with_done l k := mkRc (q_send k) l (q_recv k) (q_cq k) (q_max_send k) (q_max_recv k) (q_mrs k).
Definition with_recv l k := mkRc (q_send k) (q_done k) l (q_cq k) (q_max_send k) (q_max_recv k) (q_mrs k).
Definition with_cq l k := mkRc (q_send k) (q_done k) (q_recv k) l (q_max_send k) (q_max_recv k) (q_mrs k).

Definition is_recv (c : rs_wc) : bool := rs_wr_is_recv (c_id c).
Definition sends_used k : Z := lenZ (q_send k) + lenZ (q_done k) + lenZ (filter (λ c, is_recv c = false) (q_cq k)).
Definition recvs_used k : Z := lenZ (q_recv k) + lenZ (filter (λ c, is_recv c = true) (q_cq k)).

#[export] Instance rc_env : RsEnv rc := {
  d_post_send w m k := if Z.ltb (sends_used k) (q_max_send k) then (0, with_send (q_send k ++ [w]) k) else (ENOMEM, k);
  d_post_recv w k := if Z.ltb (recvs_used k) (q_max_recv k) then (0, with_recv (q_recv k ++ [w]) k) else (ENOMEM, k);
  d_poll_cq m k := match q_cq k with
                   | [] => (0, mkRsWc 0 false None, m, k)
                   | c :: l => (1, c, m, with_cq l k)
                   end;
  d_req_notify k := k;
  d_get_event m k := if decide (q_cq k = []) then None else Some (0, m, k);
  d_ack_events n k := k;
  d_time k := (0, k)
}.

(** The bytes a work request sends. *)
Definition wr_bytes (w : rs_wr) (m : mem) : list Z :=
  match w_data w with
  | Gather sgl => concat ((λ g, peek (sge_addr g) (sge_len g) m) <$> sgl)
  | Inline l => l
  end.

(** May the peer write [n] bytes at [a] under the key?  Writing nothing is not checked. *)
Definition permitted (mrs : gmap Z (Z * Z)) (key a n : Z) : bool :=
  Z.eqb n 0 ||
  match mrs !! key with
  | Some (base, len) => Z.leb base a && Z.leb (a + n) (base + len)
  | None => false
  end.

(** Executing the first work request of [a]; [None] when there is none, when the peer has no
    receive posted for it, or when it may not write there. *)
Definition deliver (a b : ep rc) : option (ep rc * ep rc) :=
  match q_send (e_k a) with
  | [] => None
  | w :: l =>
      let ka := with_done (q_done (e_k a) ++ [w]) (with_send l (e_k a)) in
      let a' := mkEp (e_rs a) (e_mem a) (e_errno a) ka in
      let bs := wr_bytes w (e_mem a) in
      let write m := poke (w_raddr w) bs m in
      match w_op w, q_recv (e_k b) with
      | IBV_WR_RDMA_WRITE, _ =>
          if permitted (q_mrs (e_k b)) (w_rkey w) (w_raddr w) (lenZ bs)
          then Some (a', mkEp (e_rs b) (write (e_mem b)) (e_errno b) (e_k b)) else None
      | IBV_WR_RDMA_WRITE_WITH_IMM, v :: l =>
          if permitted (q_mrs (e_k b)) (w_rkey w) (w_raddr w) (lenZ bs)
          then Some (a', mkEp (e_rs b) (write (e_mem b)) (e_errno b)
                           (with_cq (q_cq (e_k b) ++ [mkRsWc (v_id v) true (Some (w_imm w))]) (with_recv l (e_k b))))
          else None
      | IBV_WR_SEND, mkRecv i (Some g) :: l =>
          if Z.leb (lenZ bs) (sge_len g)
          then Some (a', mkEp (e_rs b) (poke (sge_addr g) bs (e_mem b)) (e_errno b)
                           (with_cq (q_cq (e_k b) ++ [mkRsWc i true None]) (with_recv l (e_k b))))
          else None
      | _, _ => None
      end
  end.

(** The completion of the first executed work request. *)
Definition complete (a : ep rc) : option (ep rc) :=
  match q_done (e_k a) with
  | [] => None
  | w :: l => Some (mkEp (e_rs a) (e_mem a) (e_errno a)
                      (with_cq (q_cq (e_k a) ++ [mkRsWc (w_id w) true None]) (with_done l (e_k a))))
  end.

(** ** The two sockets, with what their applications have sent and received *)
Record net := mkNet { n_ep : bool → ep rc; n_sent : bool → list Z; n_got : bool → list Z }.

Definition upd {A} (f : bool → A) (x : bool) (v : A) : bool → A := λ y, if Bool.eqb x y then v else f y.
Definition on_ep (x : bool) (e : ep rc) (N : net) : net := mkNet (upd (n_ep N) x e) (n_sent N) (n_got N).

Lemma upd_eq {A} (f : bool → A) x v : upd f x v x = v.
Proof. unfold upd. by rewrite Bool.eqb_reflx. Qed.
Lemma upd_ne {A} (f : bool → A) x v : upd f x v (negb x) = f (negb x).
Proof. by destruct x. Qed.

(** Steps that send nothing: reading, giving credits, polling, and those of the device. *)
Inductive idle_step : net → net → Prop :=
  | net_recv N x left bs e :
      0 < left → rs_have_rdata (e_rs (n_ep N x)) (e_mem (n_ep N x)) = true → recv_chunk left (n_ep N x) = Ok (bs, e) →
      idle_step N (mkNet (upd (n_ep N) x e) (n_sent N) (upd (n_got N) x (n_got N x ++ bs)))
  | net_credits N x e : rs_update_credits (n_ep N x) = Ok ((), e) → idle_step N (on_ep x e N)
  | net_poll N x fuel ret e : rs_poll_cq fuel (n_ep N x) = Ok (ret, e) → idle_step N (on_ep x e N)
  | net_deliver N x a b : deliver (n_ep N x) (n_ep N (negb x)) = Some (a, b) → idle_step N (on_ep (negb x) b (on_ep x a N))
  | net_complete N x a : complete (n_ep N x) = Some a → idle_step N (on_ep x a N).

(** Steps while neither side closes the connection; [net_arm] is about the event flags and [errno]. *)
Inductive open_step : net → net → Prop :=
  | net_idle N N' : idle_step N N' → open_step N N'
  | net_send N x buf olen n o e :
      buf ≠ [] → 0 < olen ≤ RS_MAX_TRANSFER → rs_can_send (e_rs (n_ep N x)) (e_mem (n_ep N x)) = true →
      send_chunk buf olen (n_ep N x) = Ok ((0, n, o), e) →
      open_step N (mkNet (upd (n_ep N) x e) (upd (n_sent N) x (n_sent N x ++ takeZ n buf)) (n_got N))
  | net_keepalive N x e : tcp_svc_send_keepalive (n_ep N x) = Ok ((), e) → open_step N (on_ep x e N)
  | net_arm N x a u err :
      open_step N (on_ep x (mkEp (set_cq a u (e_rs (n_ep N x))) (e_mem (n_ep N x)) err (e_k (n_ep N x))) N).

(** All steps: also the two parts of [rshutdown]. *)
Inductive net_step : net → net → Prop :=
  | net_open N N' : open_step N N' → net_step N N'
  | net_shut N x how :
      has (state (e_rs (n_ep N x))) rs_connected = true →
      net_step N (on_ep x (mkEp (set_state (shutdown_state how (e_rs (n_ep N x))).1 (rs_err (e_rs (n_ep N x))) (e_rs (n_ep N x)))
                                (e_mem (n_ep N x)) (e_errno (n_ep N x)) (e_k (n_ep N x))) N)
  | net_ctrl N x d ret e :
      d = RS_CTRL_SHUTDOWN ∨ d = RS_CTRL_DISCONNECT → send_ctrl d (n_ep N x) = Ok (ret, e) → net_step N (on_ep x e N).
