(* ===== verification/RsItems.v ===== *)
(** * rsocket: messages, memory and the abstract view of a connection

    What the proof about two connected sockets ([RsStream]) needs of the data: encoding
    of messages, copies in memory, rings, and the items that stand for
    work requests, completions and unread messages. *)

From S2P Require Import Prelude Layout FfTypes Attrs Request Cma Vip Rsocket RsNet.

(** ** Messages *)
Lemma testbit_small d n i : 0 ≤ d < 2 ^ n → 0 ≤ n ≤ i → Z.testbit d i = false.
Proof. intros Hd Hi. rewrite <- (Z.mod_small d (2 ^ n)) by done. by apply Z.mod_pow2_bits_high. Qed.

Lemma msg_op_set op d : 0 ≤ op < 8 → 0 ≤ d < 2 ^ 29 → rs_msg_op (rs_msg_set op d) = op.
Proof.
  intros Ho Hd. unfold rs_msg_op, rs_msg_set, u32. rewrite (Z.mod_small d) by lia.
  apply Z.bits_inj'. intros i Hi. rewrite Z.shiftr_spec by done.
  destruct (Z.ltb_spec (i + 29) 32).
  - rewrite Z.mod_pow2_bits_low, Z.lor_spec, Z.shiftl_spec, (testbit_small d 29), orb_false_r by lia. f_equal. lia.
  - rewrite Z.mod_pow2_bits_high by lia. symmetry. apply (testbit_small op 3); lia.
Qed.

Lemma msg_data_set op d : 0 ≤ op < 8 → 0 ≤ d < 2 ^ 29 → rs_msg_data (rs_msg_set op d) = d.
Proof.
  intros Ho Hd. unfold rs_msg_data, rs_msg_set, u32. rewrite (Z.mod_small d) by lia.
  change 0x1FFFFFFF with (Z.ones 29). rewrite Z.land_ones by lia.
  apply Z.bits_inj'. intros i Hi. destruct (Z.ltb_spec i 29).
  - rewrite Z.mod_pow2_bits_low, Z.mod_pow2_bits_low, Z.lor_spec, Z.shiftl_spec_low by lia. done.
  - rewrite Z.mod_pow2_bits_high by lia. symmetry. by apply (testbit_small d 29).
Qed.

Lemma msg_set_range op d : 0 ≤ rs_msg_set op d < 2 ^ 32.
Proof. apply u32_range. Qed.

Lemma swap32_range z : 0 ≤ swap32 z < 2 ^ 32.
Proof.
  assert (0 ≤ swap32 z) as H0.
  { unfold swap32, swap16. repeat first [rewrite Z.lor_nonneg; split | rewrite Z.shiftl_nonneg | rewrite Z.land_nonneg; right; lia]. }
  split; [done|]. destruct (decide (swap32 z = 0)) as [->|]; [lia|]. apply Z.log2_lt_pow2; [lia|].
  destruct (Z.ltb_spec (Z.log2 (swap32 z)) 32) as [|Hl]; [done|].
  pose proof (swap32_high z (Z.log2 (swap32 z)) Hl) as E. rewrite Z.bit_log2 in E; [done|lia].
Qed.

Lemma swap32_involutive z : 0 ≤ z < 2 ^ 32 → swap32 (swap32 z) = z.
Proof.
  intros Hz. apply Z.bits_inj'. intros i Hi. rewrite swap32_testbit by done. destruct (Z.ltb_spec i 32) as [Hl|Hl]; cbn [andb].
  - destruct (rev_bit_spec i) as [Hr E]; [lia|]. rewrite swap32_testbit by lia. rewrite E.
    by destruct (Z.ltb_spec (rev_bit i) 32); [|lia].
  - symmetry. by apply (testbit_small z 32).
Qed.

Lemma swap16_involutive z : 0 ≤ z < 2 ^ 16 → swap16 (swap16 z) = z.
Proof.
  intros Hz. apply Z.bits_inj'. intros i Hi. rewrite swap16_testbit by done.
  destruct (Z.ltb_spec i 8); [|destruct (Z.ltb_spec i 16); cbn [andb]].
  - rewrite swap16_testbit by lia. destruct (Z.ltb_spec (i + 8) 8); [lia|]. destruct (Z.ltb_spec (i + 8) 16); [|lia]. cbn [andb]. f_equal. lia.
  - rewrite swap16_testbit by lia. destruct (Z.ltb_spec (i - 8) 8); [|lia]. f_equal. lia.
  - symmetry. by apply (testbit_small z 16).
Qed.

Lemma swap16_range z : 0 ≤ swap16 z < 2 ^ 16.
Proof.
  assert (swap16 z = swap16 z mod 2 ^ 16) as ->; [|by apply Z.mod_pos_bound].
  apply Z.bits_inj'. intros i Hi. destruct (Z.ltb_spec i 16); [by rewrite Z.mod_pow2_bits_low by lia|].
  rewrite Z.mod_pow2_bits_high by lia. rewrite swap16_testbit by lia. destruct (Z.ltb_spec i 8); [lia|]. by destruct (Z.ltb_spec i 16); [lia|].
Qed.

Lemma swap64_testbit z i : 0 ≤ i → Z.testbit (swap64 z) i =
  if Z.ltb i 32 then Z.testbit z (rev_bit i + 32) else Z.ltb i 64 && Z.testbit z (rev_bit (i - 32)).
Proof.
  intros Hi. unfold swap64. change 0xFFFFFFFF with (Z.ones 32). rewrite Z.lor_spec, Z.shiftl_spec by done.
  destruct (Z.ltb_spec i 32).
  - rewrite (Z.testbit_neg_r _ (i - 32)) by lia. rewrite swap32_testbit by done. destruct (Z.ltb_spec i 32); [|lia]. cbn [andb orb].
    destruct (rev_bit_spec i) as [Hr _]; [lia|]. rewrite Z.land_spec, Z.shiftr_spec, Z.testbit_ones_nonneg by lia.
    destruct (Z.ltb_spec (rev_bit i) 32); [|lia]. by rewrite andb_true_r.
  - rewrite !swap32_testbit by lia. destruct (Z.ltb_spec i 32); [lia|]. cbn [andb]. rewrite orb_false_r.
    destruct (Z.ltb_spec (i - 32) 32), (Z.ltb_spec i 64); try lia; try done. cbn [andb].
    destruct (rev_bit_spec (i - 32)) as [Hr _]; [lia|]. rewrite Z.land_spec, Z.testbit_ones_nonneg by lia.
    destruct (Z.ltb_spec (rev_bit (i - 32)) 32); [|lia]. by rewrite andb_true_r.
Qed.

Lemma swap64_involutive z : 0 ≤ z < 2 ^ 64 → swap64 (swap64 z) = z.
Proof.
  intros Hz. apply Z.bits_inj'. intros i Hi. rewrite swap64_testbit by done.
  destruct (Z.ltb_spec i 32); [|destruct (Z.ltb_spec i 64); cbn [andb]].
  - destruct (rev_bit_spec i) as [Hr E]; [lia|]. rewrite swap64_testbit by lia.
    destruct (Z.ltb_spec (rev_bit i + 32) 32); [lia|]. destruct (Z.ltb_spec (rev_bit i + 32) 64); [|lia]. cbn [andb].
    replace (rev_bit i + 32 - 32) with (rev_bit i) by lia. by rewrite E.
  - destruct (rev_bit_spec (i - 32)) as [Hr E]; [lia|]. rewrite swap64_testbit by lia.
    destruct (Z.ltb_spec (rev_bit (i - 32)) 32); [|lia]. rewrite E. f_equal. lia.
  - symmetry. by apply (testbit_small z 64).
Qed.

(** ** Memory *)
Definition same_on (a n : Z) (m m' : mem) : Prop := ∀ i, a ≤ i < a + n → m i = m' i.

Lemma same_on_refl a n m : same_on a n m m.
Proof. done. Qed.
Lemma same_on_sub a n b k m m' : same_on a n m m' → a ≤ b → b + k ≤ a + n → same_on b k m m'.
Proof. intros H ?? i ?. apply H. lia. Qed.
Lemma same_on_trans a n m1 m2 m3 : same_on a n m1 m2 → same_on a n m2 m3 → same_on a n m1 m3.
Proof. intros H1 H2 i Hi. rewrite H1, H2; done. Qed.

Lemma poke_in a bs m i : a ≤ i < a + lenZ bs → poke a bs m i = nth (Z.to_nat (i - a)) bs 0.
Proof. intros Hi. unfold poke. by destruct (Z.leb_spec a i), (Z.ltb_spec i (a + lenZ bs)); try lia. Qed.
Lemma poke_out a bs m i : i < a ∨ a + lenZ bs ≤ i → poke a bs m i = m i.
Proof. intros Hi. unfold poke. destruct (Z.leb_spec a i), (Z.ltb_spec i (a + lenZ bs)); try done; lia. Qed.
Lemma same_on_poke a n b bs m : b + lenZ bs ≤ a ∨ a + n ≤ b → same_on a n (poke b bs m) m.
Proof. intros Hd i Hi. apply poke_out. lia. Qed.
Lemma same_on_store a n f v m : 0 ≤ f.2 → f.1 + f.2 ≤ a ∨ a + n ≤ f.1 → same_on a n (store f v m) m.
Proof. intros Hf Hd i Hi. unfold store. destruct (Z.leb_spec f.1 i), (Z.ltb_spec i (f.1 + f.2)); try done; lia. Qed.

Lemma lenZ_peek a n m : 0 ≤ n → lenZ (peek a n m) = n.
Proof.
  intros Hn. unfold peek, lenZ. assert (∀ k a, length (load_bytes a k m) = k) as ->; [|lia].
  intros k. induction k as [|k IH]; intros b; cbn; [done|by rewrite IH].
Qed.

Lemma lookup_load_bytes a k m i : (i < k)%nat → load_bytes a k m !! i = Some (m (a + Z.of_nat i)).
Proof.
  revert a i. induction k as [|k IH]; intros a i Hi; [lia|]. destruct i as [|i]; cbn [load_bytes].
  - cbn. do 2 f_equal. lia.
  - rewrite lookup_cons, IH by lia. do 2 f_equal. lia.
Qed.
Lemma lookup_peek a n m i : 0 ≤ i < n → peek a n m !! Z.to_nat i = Some (m (a + i)).
Proof. intros Hi. unfold peek. rewrite lookup_load_bytes by lia. do 2 f_equal. lia. Qed.

Lemma peek_same a n m m' : same_on a n m m' → 0 ≤ n → peek a n m = peek a n m'.
Proof. intros H Hn. unfold peek. apply load_bytes_ext. intros i Hi. apply H. lia. Qed.

Lemma load_same f m m' : same_on f.1 f.2 m m' → 0 ≤ f.2 → load f m = load f m'.
Proof. intros H Hn. unfold load. f_equal. by apply peek_same. Qed.

Lemma lenZ_snoc {A} (l : list A) x : lenZ (l ++ [x]) = lenZ l + 1.
Proof. rewrite lenZ_app. done. Qed.
Lemma lenZ_nil {A} : lenZ (@nil A) = 0.
Proof. done. Qed.

Lemma lookup_app_lZ {A} (l k : list A) i : 0 ≤ i < lenZ l → (l ++ k) !! Z.to_nat i = l !! Z.to_nat i.
Proof. unfold lenZ. intros Hi. apply lookup_app_l. lia. Qed.
Lemma lookup_app_rZ {A} (l k : list A) i : lenZ l ≤ i → (l ++ k) !! Z.to_nat i = k !! Z.to_nat (i - lenZ l).
Proof. unfold lenZ. intros Hi. rewrite lookup_app_r by lia. f_equal. lia. Qed.
Lemma nth_Z (l : list Z) i : 0 ≤ i < lenZ l → l !! Z.to_nat i = Some (nth (Z.to_nat i) l 0).
Proof.
  unfold lenZ. intros Hi. rewrite nth_lookup. destruct (l !! Z.to_nat i) eqn:E; [done|]. apply lookup_ge_None in E. lia.
Qed.

(** Two lists with the same bytes at each place. *)
Lemma list_eqZ (l k : list Z) : lenZ l = lenZ k → (∀ i, 0 ≤ i < lenZ l → l !! Z.to_nat i = k !! Z.to_nat i) → l = k.
Proof.
  unfold lenZ. intros Hl H. apply list_eq. intros i. destruct (decide (i < length l)%nat) as [Hi|Hi].
  - specialize (H (Z.of_nat i)). rewrite Nat2Z.id in H. apply H. lia.
  - rewrite !lookup_ge_None_2 by lia. done.
Qed.

(** ** Entries of a scatter list in memory *)
Lemma sge_layout : field S_rs_sge ["addr"] = (0, 8) ∧ field S_rs_sge ["key"] = (8, 4) ∧
  field S_rs_sge ["length"] = (12, 4) ∧ sizeof S_rs_sge = 16 ∧ sizeof S_rs_iomap = 24.
Proof. by vm_compute. Qed.
Lemma at_addr a : at_sge a "addr" = (a + 0, 8).
Proof. unfold at_sge. by rewrite (proj1 sge_layout). Qed.
Lemma at_key a : at_sge a "key" = (a + 8, 4).
Proof. unfold at_sge. by rewrite (proj1 (proj2 sge_layout)). Qed.
Lemma at_length a : at_sge a "length" = (a + 12, 4).
Proof. unfold at_sge. by rewrite (proj1 (proj2 (proj2 sge_layout))). Qed.
Lemma sizeof_sge : sizeof S_rs_sge = 16.
Proof. done. Qed.

Definition sge_fits (g : rs_sge) : Prop := 0 ≤ sg_addr g < 2 ^ 64 ∧ 0 ≤ sg_key g < 2 ^ 32 ∧ 0 ≤ sg_length g < 2 ^ 32.

Lemma load_store_sge a g m : sge_fits g → load_sge a (store_sge a g m) = g.
Proof.
  intros (Ha & Hk & Hl). destruct g as [ga gk gl]. cbn in *. unfold load_sge, store_sge. rewrite at_addr, at_key, at_length. cbn.
  rewrite (load_store_eq (a + 12, 4)) by (cbn; lia).
  rewrite (load_store_ne (a + 8, 4) (a + 12, 4)) by (cbn; lia). rewrite (load_store_eq (a + 8, 4)) by (cbn; lia).
  rewrite (load_store_ne (a + 0, 8) (a + 12, 4)), (load_store_ne (a + 0, 8) (a + 8, 4)), (load_store_eq (a + 0, 8)) by (cbn; lia). done.
Qed.

Lemma load_sge_same a m m' : same_on a 16 m m' → load_sge a m = load_sge a m'.
Proof.
  intros H. unfold load_sge. rewrite at_addr, at_key, at_length.
  rewrite !(load_same _ m m'); try done; cbn; try lia; (eapply same_on_sub; [done|lia..]).
Qed.

Lemma same_on_store_sge b n a g m : a + 16 ≤ b ∨ b + n ≤ a → same_on b n (store_sge a g m) m.
Proof.
  intros Hd. unfold store_sge. rewrite at_addr, at_key, at_length.
  eapply same_on_trans; [apply same_on_store; cbn; lia|]. eapply same_on_trans; apply same_on_store; cbn; lia.
Qed.

(** Moving an entry's bytes moves the entry. *)
Lemma load_bytes_shift a b n m m' :
  (∀ i, 0 ≤ i < Z.of_nat n → m' (b + i) = m (a + i)) → load_bytes b n m' = load_bytes a n m.
Proof.
  intros H. apply list_eq. intros i. destruct (decide (i < n)%nat) as [Hi|Hi].
  - rewrite !lookup_load_bytes by done. f_equal. apply H. lia.
  - assert (∀ c m, length (load_bytes c n m) = n) as Hl.
    { intros c m0. clear. revert c. induction n as [|n IH]; intros c; cbn; [done|by rewrite IH]. }
    rewrite !lookup_ge_None_2; [done|rewrite Hl; lia..].
Qed.

Lemma load_sge_shift a b m m' : (∀ i, 0 ≤ i < 16 → m' (b + i) = m (a + i)) → load_sge b m' = load_sge a m.
Proof.
  intros H. unfold load_sge. rewrite !at_addr, !at_key, !at_length. unfold load. cbn [fst snd].
  f_equal; f_equal; apply load_bytes_shift; intros i Hi; rewrite <- !Z.add_assoc; apply H; lia.
Qed.

Lemma load_sge_poke a b m m' : load_sge b (poke b (peek a 16 m) m') = load_sge a m.
Proof.
  apply load_sge_shift. intros i Hi. rewrite poke_in by (rewrite lenZ_peek; lia).
  replace (b + i - b) with i by lia. by rewrite nth_lookup, lookup_peek.
Qed.

(** ** A ring of messages *)
Record ring_is (n : Z) (l : list rs_msg) (head tail : Z) (ms : list rs_msg) : Prop := {
  ring_len : lenZ l = n;
  ring_head : 0 ≤ head < n;
  ring_room : lenZ ms < n;
  ring_tail : tail = (head + lenZ ms) mod n;
  ring_at i g : ms !! i = Some g → l !! Z.to_nat ((head + Z.of_nat i) mod n) = Some g
}.

Lemma ring_empty n l head tail ms : ring_is n l head tail ms → (head = tail ↔ ms = []).
Proof.
  intros [Hl Hh Hr -> Ha]. split.
  - intros E. destruct ms as [|g ms]; [done|]. rewrite lenZ_cons in *. pose proof (lenZ_nonneg ms). exfalso.
    rewrite <- (Z.mod_small head n) in E at 1 by lia.
    assert (head + (1 + lenZ ms) = head); [|lia]. apply (mod_small_inj n); lia.
  - intros ->. rewrite lenZ_nil, Z.add_0_r. symmetry. by apply Z.mod_small.
Qed.

Lemma ring_next n i : 0 ≤ i < n → (if Z.eqb (i + 1) n then 0 else i + 1) = (i + 1) mod n.
Proof.
  intros Hi. destruct (Z.eqb_spec (i + 1) n) as [->|]; [by rewrite Z.mod_same by lia|]. symmetry. apply Z.mod_small. lia.
Qed.

Lemma ring_push n l head tail ms g : ring_is n l head tail ms → lenZ ms + 1 < n →
  0 ≤ tail < n ∧ ring_is n (<[Z.to_nat tail := g]> l) head ((tail + 1) mod n) (ms ++ [g]).
Proof.
  intros [Hl Hh Hr -> Ha] Hn. pose proof (lenZ_nonneg ms). pose proof (Z.mod_pos_bound (head + lenZ ms) n).
  split; [lia|]. constructor; try done.
  - unfold lenZ in *. by rewrite length_insert.
  - rewrite lenZ_snoc. lia.
  - rewrite lenZ_snoc, Z.add_mod_idemp_l by lia. f_equal. lia.
  - intros i h Hi. apply lookup_snoc_Some in Hi as [[Hi Hg]|[-> <-]].
    + pose proof (Z.mod_pos_bound (head + Z.of_nat i) n).
      rewrite list_lookup_insert_ne; [by apply Ha|]. intros E. apply Z2Nat.inj in E; [|lia..].
      apply (f_equal (λ z, z - 0)) in E. rewrite !Z.sub_0_r in E. unfold lenZ in *.
      assert (head + Z.of_nat (length ms) = head + Z.of_nat i); [|lia]. apply (mod_small_inj n); lia.
    + fold (lenZ ms). apply list_lookup_insert_eq. unfold lenZ in *. lia.
Qed.

Lemma ring_pop n l head tail g ms : ring_is n l head tail (g :: ms) →
  l !! Z.to_nat head = Some g ∧ ring_is n l ((head + 1) mod n) tail ms.
Proof.
  intros [Hl Hh Hr -> Ha]. rewrite lenZ_cons in *. split.
  - specialize (Ha 0%nat g eq_refl). by rewrite Z.add_0_r, Z.mod_small in Ha.
  - pose proof (lenZ_nonneg ms). constructor; [done| |lia| |].
    + apply Z.mod_pos_bound. lia.
    + rewrite Z.add_mod_idemp_l by lia. f_equal. lia.
    + intros i h Hi. rewrite Z.add_mod_idemp_l by lia. rewrite <- (Ha (S i) h Hi). do 3 f_equal. lia.
Qed.

Lemma ring_set n l head tail g g' ms : ring_is n l head tail (g :: ms) →
  ring_is n (<[Z.to_nat head := g']> l) head tail (g' :: ms).
Proof.
  intros [Hl Hh Hr -> Ha]. constructor; try done.
  - unfold lenZ in *. by rewrite length_insert.
  - intros [|i] h Hi; cbn in Hi.
    + injection Hi as ->. rewrite Z.add_0_r, Z.mod_small by done. apply list_lookup_insert_eq. unfold lenZ in *. lia.
    + rewrite list_lookup_insert_ne; [by apply Ha|]. intros E. rewrite lenZ_cons in Hr.
      pose proof (Z.mod_pos_bound (head + Z.of_nat (S i)) n). apply lookup_lt_Some in Hi. apply Z2Nat.inj in E; [|lia..].
      rewrite <- (Z.mod_small head n) in E at 1 by lia.
      assert (head + Z.of_nat (S i) = head); [|lia]. apply (mod_small_inj n); [lia|by symmetry|unfold lenZ in *; lia].
Qed.

(** ** Consecutive pieces of a stream *)
Fixpoint tiles (lo : Z) (l : list (Z * Z)) (hi : Z) : Prop :=
  match l with
  | [] => lo = hi
  | (p, n) :: l => p = lo ∧ 0 < n ∧ tiles (lo + n) l hi
  end.

Definition total (l : list (Z * Z)) : Z := foldr (λ x a, x.2 + a) 0 l.

Lemma tiles_total lo l hi : tiles lo l hi → hi = lo + total l ∧ lenZ l ≤ total l.
Proof.
  revert lo. induction l as [|[p n] l IH]; intros lo H; cbn in *; [unfold lenZ; cbn; lia|].
  destruct H as (-> & Hn & H). apply IH in H as [-> H]. rewrite lenZ_cons. fold (total l). lia.
Qed.
Lemma tiles_app lo l k hi : tiles lo (l ++ k) hi ↔ ∃ mid, tiles lo l mid ∧ tiles mid k hi.
Proof.
  revert lo. induction l as [|[p n] l IH]; intros lo; cbn; [naive_solver|]. rewrite IH. naive_solver.
Qed.
Lemma tiles_snoc lo l hi n : tiles lo l hi → 0 < n → tiles lo (l ++ [(hi, n)]) (hi + n).
Proof. intros H Hn. apply tiles_app. exists hi. by cbn. Qed.
Lemma tiles_le lo l hi : tiles lo l hi → lo ≤ hi.
Proof. intros H. apply tiles_total in H as [-> H]. pose proof (lenZ_nonneg l). lia. Qed.
Lemma total_app l k : total (l ++ k) = total l + total k.
Proof. unfold total in *. induction l as [|x l IH]; cbn; [done|]. rewrite IH. lia. Qed.

(** ** Credits never decrease *)
Fixpoint climbs (lo : Z) (l : list Z) (hi : Z) : Prop :=
  match l with
  | [] => lo ≤ hi
  | c :: l => lo ≤ c ∧ climbs c l hi
  end.

Lemma climbs_weaken lo l hi hi' : climbs lo l hi → hi ≤ hi' → climbs lo l hi'.
Proof. revert lo. induction l as [|c l IH]; intros lo; cbn; [lia|]. naive_solver. Qed.
Lemma climbs_snoc lo l hi : climbs lo l hi → climbs lo (l ++ [hi]) hi.
Proof. revert lo. induction l as [|c l IH]; intros lo; cbn; [lia|]. naive_solver. Qed.
Lemma climbs_le lo l hi : climbs lo l hi → lo ≤ hi.
Proof. revert lo. induction l as [|c l IH]; intros lo; cbn; [done|]. intros [? ?%IH]. lia. Qed.

(** ** Items

    A piece of the stream at [p] of [n] bytes; credits for the messages up to [c], perhaps with
    a half of the receive buffer, by number; a keepalive; a control message.  All but data
    carry the number of their control slot. *)
Inductive item := IData (p n : Z) | ICred (c : Z) (half : option Z) (q : Z) | IKeep (q : Z) | ICtl (d q : Z).

Definition data_of (i : item) : option (Z * Z) := match i with IData p n => Some (p, n) | _ => None end.
Definition cred_of (i : item) : option Z := match i with ICred c _ _ => Some c | _ => None end.
Definition half_of (i : item) : option Z := match i with ICred _ h _ => h | _ => None end.
Definition slot_of (i : item) : option Z := match i with IData _ _ => None | ICred _ _ q | IKeep q | ICtl _ q => Some q end.
Abbreviation datas := (omap data_of).
Abbreviation creds := (omap cred_of).
Abbreviation halves := (omap half_of).
Abbreviation slots := (omap slot_of).

(** Completions of one's own items and of the peer's. *)
Inductive comp := CSent (i : item) | CRecv (i : item).
Definition sent_of (k : comp) : option item := match k with CSent i => Some i | _ => None end.
Definition recv_of (k : comp) : option item := match k with CRecv i => Some i | _ => None end.
Abbreviation csent := (omap sent_of).
Abbreviation crecv := (omap recv_of).

Definition hsize (c : rs_cfg) : Z := rbuf_size c / 2.
Definition ctrl_slot (c : rs_cfg) (q : Z) : Z := sbuf c + sbuf_size c + 16 * (q mod 4).

(** The place of [n] bytes at [p] in the send buffer. *)
Definition ring_sgl (c : rs_cfg) (p n : Z) : list ibv_sge :=
  let a := p mod sbuf_size c in
  let left := sbuf_size c - a in
  if Z.leb n left then [mkSge (sbuf c + a) n (smr_lkey c)]
  else [mkSge (sbuf c + a) left (smr_lkey c); mkSge (sbuf c) (n - left) (smr_lkey c)].

(** The half [j] of the receive buffer. *)
Definition half_sge (c : rs_cfg) (j : Z) : rs_sge := mkRsSge (rbuf c + (j mod 2) * hsize c) (rmr_rkey c) (hsize c).

Definition item_msg (c : rs_cfg) (i : item) : Z :=
  match i with
  | IData _ n => rs_msg_set RS_OP_DATA n
  | ICred k _ _ => rs_msg_set RS_OP_SGL (u16 (k - rq_size c) + rq_size c)
  | IKeep _ => rs_msg_set RS_OP_CTRL RS_CTRL_KEEPALIVE
  | ICtl d _ => rs_msg_set RS_OP_CTRL d
  end.

Definition wr_of (c d : rs_cfg) (i : item) : rs_wr :=
  let msg := item_msg c i in
  match i with
  | IData p n => mkRsWr msg (Gather (ring_sgl c p n)) IBV_WR_RDMA_WRITE_WITH_IMM (swap32 msg)
                        (rbuf d + p mod rbuf_size d) (rmr_rkey d)
  | ICred _ (Some j) q => mkRsWr msg (Gather [mkSge (ctrl_slot c q) 16 (smr_lkey c)]) IBV_WR_RDMA_WRITE_WITH_IMM
                                 (swap32 msg) (target_sgl d + (j mod 2) * 16) (target_rkey d)
  | IKeep _ => mkRsWr msg (Gather []) IBV_WR_RDMA_WRITE 0 0 0
  | ICred _ None _ | ICtl _ _ => mkRsWr msg (Gather []) IBV_WR_RDMA_WRITE_WITH_IMM (swap32 msg) 0 0
  end.

Definition wc_of (c d : rs_cfg) (k : comp) : rs_wc :=
  match k with
  | CSent i => mkRsWc (item_msg c i) true None
  | CRecv i => mkRsWc (rs_recv_wr_id 0) true (Some (swap32 (item_msg d i)))
  end.

Definition item_ok (i : item) : Prop :=
  match i with
  | IData _ n => 0 < n < 2 ^ 29
  | ICtl d _ => d = RS_CTRL_SHUTDOWN ∨ d = RS_CTRL_DISCONNECT
  | _ => True
  end.

Definition item_op (i : item) : Z :=
  match i with IData _ _ => RS_OP_DATA | ICred _ _ _ => RS_OP_SGL | _ => RS_OP_CTRL end.
Definition item_data (c : rs_cfg) (i : item) : Z :=
  match i with
  | IData _ n => n
  | ICred k _ _ => u16 (k - rq_size c) + rq_size c
  | IKeep _ => RS_CTRL_KEEPALIVE
  | ICtl d _ => d
  end.

(** What is asked of the configuration of a socket. *)
Record cfg_ok (c : rs_cfg) : Prop := {
  ok_sbuf : RS_SNDLOWAT ≤ sbuf_size c < 2 ^ 31;
  ok_rbuf : 0 < rbuf_size c < 2 ^ 31 ∧ rbuf_size c mod 2 = 0;
  ok_sq : RS_QP_MIN_SIZE ≤ sq_size c ≤ RS_QP_MAX_SIZE;
  ok_rq : RS_QP_MIN_SIZE ≤ rq_size c ≤ RS_QP_MAX_SIZE;
  ok_addr : 0 ≤ sbuf c ∧ 0 ≤ target_sgl c ∧ 0 ≤ rbuf c ∧ sbuf c + sbuf_size c + 64 < 2 ^ 64 ∧ rbuf c + rbuf_size c < 2 ^ 64;
  ok_sbuf_target : sbuf c + sbuf_size c + 64 ≤ target_sgl c ∨ target_sgl c + 32 ≤ sbuf c;
  ok_sbuf_rbuf : sbuf c + sbuf_size c + 64 ≤ rbuf c ∨ rbuf c + rbuf_size c ≤ sbuf c;
  ok_target_rbuf : target_sgl c + 32 ≤ rbuf c ∨ rbuf c + rbuf_size c ≤ target_sgl c;
  ok_key : 0 ≤ rmr_rkey c < 2 ^ 32;
  ok_inline : sq_inline c = 0
}.

Section Items.
Context (c d : rs_cfg) (Hc : cfg_ok c) (Hd : cfg_ok d).

Lemma hsize_double : rbuf_size c = 2 * hsize c ∧ 0 < hsize c.
Proof. destruct (ok_rbuf c Hc) as [Hr Hm]. unfold hsize. pose proof (Z.div_mod (rbuf_size c) 2). lia. Qed.

Lemma item_data_range i : item_ok i → 0 ≤ item_data c i < 2 ^ 29 ∧ 0 ≤ item_op i < 8.
Proof.
  pose proof (ok_rq c Hc) as Hq. unfold RS_QP_MIN_SIZE, RS_QP_MAX_SIZE in Hq.
  unfold item_data, item_op, item_ok, RS_OP_DATA, RS_OP_SGL, RS_OP_CTRL, RS_CTRL_KEEPALIVE, RS_CTRL_SHUTDOWN, RS_CTRL_DISCONNECT.
  destruct i as [p n|k h q|q|e q]; intros H; try lia. pose proof (u16_range (k - rq_size c)). lia.
Qed.
Lemma item_msg_eq i : item_msg c i = rs_msg_set (item_op i) (item_data c i).
Proof. by destruct i. Qed.
Lemma item_msg_op i : item_ok i → rs_msg_op (item_msg c i) = item_op i.
Proof. intros H%item_data_range. rewrite item_msg_eq. apply msg_op_set; lia. Qed.
Lemma item_msg_data i : item_ok i → rs_msg_data (item_msg c i) = item_data c i.
Proof. intros H%item_data_range. rewrite item_msg_eq. apply msg_data_set; lia. Qed.
Lemma item_msg_range i : 0 ≤ item_msg c i < 2 ^ 32.
Proof. rewrite item_msg_eq. apply msg_set_range. Qed.
Lemma item_msg_not_recv i : rs_wr_is_recv (item_msg c i) = false.
Proof. unfold rs_wr_is_recv. apply (testbit_small _ 32); [apply item_msg_range|lia]. Qed.

Lemma is_recv_wc k : is_recv (wc_of c d k) = match k with CSent _ => false | CRecv _ => true end.
Proof. destruct k as [i|i]; cbn; [apply item_msg_not_recv|done]. Qed.

Lemma filter_sent l : lenZ (filter (λ w, is_recv w = false) (wc_of c d <$> l)) = lenZ (csent l).
Proof.
  induction l as [|k l IH]; [done|]. cbn [fmap list_fmap omap list_omap]. rewrite filter_cons, is_recv_wc.
  destruct k as [i|i]; cbn [sent_of]; [rewrite decide_True by done; rewrite !lenZ_cons, IH; done|by rewrite decide_False].
Qed.
Lemma filter_recv l : lenZ (filter (λ w, is_recv w = true) (wc_of c d <$> l)) = lenZ (crecv l).
Proof.
  induction l as [|k l IH]; [done|]. cbn [fmap list_fmap omap list_omap]. rewrite filter_cons, is_recv_wc.
  destruct k as [i|i]; cbn [recv_of]; [by rewrite decide_False|rewrite decide_True by done; rewrite !lenZ_cons, IH; done].
Qed.

Lemma ctrl_slot_range q : sbuf c + sbuf_size c ≤ ctrl_slot c q ∧ ctrl_slot c q + 16 ≤ sbuf c + sbuf_size c + 64.
Proof. unfold ctrl_slot. pose proof (Z.mod_pos_bound q 4). lia. Qed.
End Items.
