(* ===== verification/RsStream.v ===== *)
(** * Two connected rsockets are a pair of byte streams

    The invariant of [RsNet]'s system.  Every work request and completion is described by an
    abstract item; bytes are numbered by their position in the stream.  The byte
    numbered [i] waits in the sender's buffer at [i] modulo its size, and in the
    receiver's at [i] modulo that size.  The halves of the receive buffer are numbered in
    the order in which they are given to the sender. *)

From S2P Require Import Prelude Layout FfTypes Attrs Request Cma Rsocket RsNet RsItems.

#[local] Arguments load_sge : simpl never.
#[local] Arguments store_sge : simpl never.
#[local] Arguments poke : simpl never.
#[local] Arguments peek : simpl never.
#[local] Arguments rs_msg_set : simpl never.

(** ** The invariant *)

(** One side's items: posted, executed, completed; and its last control slot. *)
Record side := mkSide { g_send : list item; g_done : list item; g_cq : list comp; g_ctl : Z }.
Definition outs (g : side) : list item := csent (g_cq g) ++ g_done g ++ g_send g.

#[local] Arguments outs : simpl never.

(** No message that closes the connection is under way. *)
Definition plain (i : item) : Prop := match i with ICtl _ _ => False | _ => True end.
Definition comp_item (k : comp) : item := match k with CSent i | CRecv i => i end.
Definition calm (g : side) : Prop := Forall plain (g_send g) ∧ Forall plain (g_done g) ∧ Forall plain (comp_item <$> g_cq g).

(** The accounts of a socket's queues.  [rcnt] receives were polled and not yet reposted. *)
Record side_ok (c d : rs_cfg) (e : ep rc) (g : side) (rcnt : Z) : Prop := {
  s_cfg : cfg (e_rs e) = c;
  s_opts : msg_send (e_rs e) = false ∧ has (opts (e_rs e)) RS_OPT_SWAP_SGL = false;
  s_send : q_send (e_k e) = wr_of c d <$> g_send g;
  s_done : q_done (e_k e) = wr_of c d <$> g_done g;
  s_cq : q_cq (e_k e) = wc_of c d <$> g_cq g;
  s_max : q_max_send (e_k e) = sq_size c ∧ q_max_recv (e_k e) = rq_size c;
  s_mrs : (∃ n, q_mrs (e_k e) !! rmr_rkey c = Some (rbuf c, n) ∧ rbuf_size c ≤ n) ∧
          (∃ n, q_mrs (e_k e) !! target_rkey c = Some (target_sgl c, n) ∧ 32 ≤ n);
  s_recv : Forall (λ v, v_id v = rs_recv_wr_id 0) (q_recv (e_k e));
  s_rcnt : lenZ (q_recv (e_k e)) + lenZ (crecv (g_cq g)) + rcnt ≤ rq_size c;
  s_rall : has (state (e_rs e)) rs_connected = true → lenZ (q_recv (e_k e)) + lenZ (crecv (g_cq g)) + rcnt = rq_size c;
  s_items : Forall item_ok (outs g) ∧ Forall item_ok (crecv (g_cq g));
  s_sqe : sqe_avail (tx (e_rs e)) = sq_size c - 4 - lenZ (datas (outs g)) ∧ 0 ≤ sqe_avail (tx (e_rs e));
  s_bytes : sbuf_bytes_avail (tx (e_rs e)) = sbuf_size c - total (datas (outs g)) ∧ 0 ≤ sbuf_bytes_avail (tx (e_rs e));
  s_slots : slots (outs g) = seqZ (g_ctl g + 1 - lenZ (slots (outs g))) (lenZ (slots (outs g))) ∧ lenZ (slots (outs g)) ≤ 4;
  s_seq : ctrl_seqno (e_rs e) = u32 (g_ctl g) ∧ ctrl_max_seqno (e_rs e) = u32 (g_ctl g + 4 - lenZ (slots (outs g)));
  s_halves k j q : ICred k (Some j) q ∈ g_send g → load_sge (ctrl_slot c q) (e_mem e) = half_sge c j
}.

(** One direction: messages sent [f_s] and used up [f_r], the sender's credit [f_c]; halves
    given away [f_g] and known to the sender [f_d]; bytes written to the receiver [f_e];
    the lengths of the unread messages. *)
Record flow := mkFlow { f_s : Z; f_r : Z; f_c : Z; f_g : Z; f_d : Z; f_e : Z; f_m : list Z }.

Definition sum (l : list Z) : Z := foldr Z.add 0 l.

Lemma sum_nonneg l : Forall (λ n, 0 < n) l → 0 ≤ sum l.
Proof. induction 1; cbn in *; [done|]. unfold sum in *. lia. Qed.

(** What is left of half [j] when [w] bytes were sent. *)
Definition room (h w d j : Z) : Z := if Z.ltb j d then (if Z.eqb j (w / h) then (j + 1) * h - w else h) else 0.

Record entry_is (c d : rs_cfg) (m : mem) (w fd j : Z) : Prop := {
  en_length : sg_length (load_sge (target_sgl c + (j mod 2) * 16) m) = room (hsize d) w fd j;
  en_place : j < fd → sg_key (load_sge (target_sgl c + (j mod 2) * 16) m) = rmr_rkey d ∧
    sg_addr (load_sge (target_sgl c + (j mod 2) * 16) m) = rbuf d + (j mod 2) * hsize d + (hsize d - room (hsize d) w fd j)
}.

(** From a sender with configuration [c], [t], memory [m], posted items [snd] and unpolled items of
    the peer [arr], to a receiver with [d], [x], [m'], [snd'] and [arr']: [sent] was sent and
    [got] received. *)
Record flow_ok (c d : rs_cfg) (t : rs_tx) (m : mem) (snd arr : list item) (x : rs_rx) (m' : mem) (snd' arr' : list item)
    (sent got : list Z) (f : flow) : Prop := {
  fl_prefix : got `prefix_of` sent;
  fl_ring : ring_is (rq_size d + 1) (rmsg x) (rmsg_head x) (rmsg_tail x) (mkMsg RS_OP_DATA <$> f_m f);
  fl_pos : Forall (λ n, 0 < n) (f_m f);
  fl_arr : tiles (lenZ got + sum (f_m f)) (datas arr') (f_e f);
  fl_snd : tiles (f_e f) (datas snd) (lenZ sent);
  fl_in_half p n : (p, n) ∈ datas snd → p / hsize d = (p + n - 1) / hsize d;
  fl_rmem i : lenZ got ≤ i < f_e f → sent !! Z.to_nat i = Some (m' (rbuf d + i mod rbuf_size d));
  fl_smem i : f_e f ≤ i < lenZ sent → sent !! Z.to_nat i = Some (m (sbuf c + i mod sbuf_size c));
  fl_ssgl : ssgl_addr t = sbuf c + lenZ sent mod sbuf_size c;
  fl_sseq : sseq_no t = u16 (f_s f) ∧ rseq_no x = u16 (f_r f);
  fl_count : f_s f - f_r f = lenZ (f_m f) + lenZ (datas arr') + lenZ (datas snd);
  fl_credit : sseq_comp t = u16 (f_c f) ∧ f_s f ≤ f_c f;
  fl_climbs : climbs (f_c f) (creds arr ++ creds snd') (f_r f + rq_size d);
  fl_due : rseq_comp x = u16 (last (creds arr ++ creds snd') (f_c f) - rq_size d + rq_size d / 2);
  fl_avail : rbuf_bytes_avail x = lenZ got + 2 * hsize d - f_g f * hsize d ∧ 0 ≤ rbuf_bytes_avail x;
  fl_free : rbuf_free_offset x = (f_g f mod 2) * hsize d ∧ remote_sge x = f_g f mod 2;
  fl_off : 0 ≤ rbuf_offset x ≤ rbuf_size d ∧ rbuf_offset x mod rbuf_size d = lenZ got mod rbuf_size d;
  fl_halves : halves snd' = seqZ (f_d f) (f_g f - f_d f) ∧ f_d f ≤ f_g f;
  fl_known : lenZ sent ≤ f_d f * hsize d;
  fl_target : target_sge t = (lenZ sent / hsize d) mod 2;
  fl_entries j : lenZ sent / hsize d ≤ j ≤ lenZ sent / hsize d + 1 → entry_is c d m (lenZ sent) (f_d f) j
}.

(** ** Memory that is not involved *)
Lemma flow_frame c d t m m1 snd arr x m' m1' snd' arr' sent got f :
  cfg_ok c → cfg_ok d → same_on (sbuf c) (sbuf_size c) m1 m → same_on (target_sgl c) 32 m1 m →
  same_on (rbuf d) (rbuf_size d) m1' m' →
  flow_ok c d t m snd arr x m' snd' arr' sent got f → flow_ok c d t m1 snd arr x m1' snd' arr' sent got f.
Proof.
  intros Hc Hd H1 H2 H3 []. pose proof (ok_sbuf c Hc) as Hs. pose proof (ok_rbuf d Hd) as Hr. unfold RS_SNDLOWAT in Hs.
  constructor; try done.
  - intros i Hi. rewrite fl_rmem0 by done. f_equal. symmetry. apply H3. pose proof (Z.mod_pos_bound i (rbuf_size d)). lia.
  - intros i Hi. rewrite fl_smem0 by done. f_equal. symmetry. apply H1. pose proof (Z.mod_pos_bound i (sbuf_size c)). lia.
  - intros j Hj. destruct (fl_entries0 j Hj) as [E1 E2]. pose proof (Z.mod_pos_bound j 2).
    assert (load_sge (target_sgl c + (j mod 2) * 16) m1 = load_sge (target_sgl c + (j mod 2) * 16) m) as E.
    { apply load_sge_same. eapply same_on_sub; [done|lia..]. }
    constructor; by rewrite E.
Qed.

(** ** Posting *)

(** Running a computation step by step. *)
Ltac rs_unfold :=
  unfold mbind, R_bind, mret, R_ret, rs_set, rs_get, gets, mem_set, dev, dev_, lift, ERR, seterrno, id;
  cbn [rbind e_rs e_mem e_errno e_k].

Lemma split_items (l : list item) : lenZ l = lenZ (datas l) + lenZ (slots l).
Proof. induction l as [|i l IH]; [done|]. destruct i; cbn; rewrite !lenZ_cons; lia. Qed.

Lemma sends_used_eq c d e g n : side_ok c d e g n → sends_used (e_k e) = lenZ (datas (outs g)) + lenZ (slots (outs g)).
Proof.
  intros []. unfold sends_used. rewrite s_send0, s_done0, s_cq0, filter_sent, <- split_items. unfold outs, lenZ.
  rewrite !length_fmap, !length_app. lia.
Qed.

Lemma post_send_ok w (e : ep rc) : sends_used (e_k e) < q_max_send (e_k e) →
  post_send w e = Ok (0, mkEp (e_rs e) (e_mem e) (e_errno e) (with_send (q_send (e_k e) ++ [w]) (e_k e))).
Proof.
  intros H. unfold post_send. rs_unfold. cbn. by destruct (Z.ltb_spec (sends_used (e_k e)) (q_max_send (e_k e))); [|lia].
Qed.

(** The entry after [n] bytes of it were used. *)
Definition use_entry (a n : Z) (m : mem) : mem :=
  store (at_sge a "length") (u32 (sg_length (load_sge a m) - n)) (store (at_sge a "addr") (u64 (sg_addr (load_sge a m) + n)) m).

Lemma use_entry_load a n m : 0 ≤ n ≤ sg_length (load_sge a m) → 0 ≤ sg_length (load_sge a m) < 2 ^ 32 →
  0 ≤ sg_addr (load_sge a m) → sg_addr (load_sge a m) + n < 2 ^ 64 →
  load_sge a (use_entry a n m) =
    mkRsSge (sg_addr (load_sge a m) + n) (sg_key (load_sge a m)) (sg_length (load_sge a m) - n).
Proof.
  intros Hn Hl Ha Hs. unfold use_entry. rewrite u32_id, u64_id by lia. generalize dependent (sg_length (load_sge a m)).
  generalize dependent (sg_addr (load_sge a m)). intros ad ? ? l ? ?.
  unfold load_sge. rewrite at_addr, at_key, at_length. cbn [sg_key].
  rewrite (load_store_eq (a + 12, 4)) by (cbn; lia).
  rewrite (load_store_ne (a + 8, 4) (a + 12, 4)), (load_store_ne (a + 8, 4) (a + 0, 8)) by (cbn; lia).
  rewrite (load_store_ne (a + 0, 8) (a + 12, 4)), (load_store_eq (a + 0, 8)) by (cbn; lia). done.
Qed.

Lemma use_entry_same b k a n m : a + 16 ≤ b ∨ b + k ≤ a → same_on b k (use_entry a n m) m.
Proof.
  intros H. unfold use_entry. rewrite at_addr, at_length. eapply same_on_trans; apply same_on_store; cbn; lia.
Qed.

Definition next_sge (i : Z) : Z := if Z.eqb (i + 1) RS_SGL_SIZE then 0 else i + 1.

Lemma write_data_run pl n (e : ep rc) :
  let r := e_rs e in let a := cur_sge r in let g := load_sge a (e_mem e) in
  msg_send r = false → sends_used (e_k e) < q_max_send (e_k e) →
  rs_write_data pl n e =
    Ok (0, mkEp (set_target_sge (if Z.eqb (sg_length (load_sge a (use_entry a n (e_mem e)))) 0 then next_sge (target_sge (tx r))
                                 else target_sge (tx r)) (take_send 1 1 n r))
             (use_entry a n (e_mem e)) (e_errno e)
             (with_send (q_send (e_k e) ++ [mkRsWr (rs_msg_set RS_OP_DATA n) pl IBV_WR_RDMA_WRITE_WITH_IMM
                                              (swap32 (rs_msg_set RS_OP_DATA n)) (sg_addr g) (sg_key g)]) (e_k e))).
Proof.
  intros r a g Hm Hu. destruct e as [r0 m er k]. cbn in r. subst r a g. unfold rs_write_data.
  rs_unfold. cbn in Hm, Hu. rewrite Hm.
  unfold cur_sge. cbn [take_send set_tx cfg tx target_sge]. fold (cur_sge r0). fold (use_entry (cur_sge r0) n m).
  destruct (Z.eqb (sg_length (load_sge (cur_sge r0) (use_entry (cur_sge r0) n m))) 0) eqn:E; cbn [rbind].
  - unfold rs_post_write_msg. rs_unfold.
    replace (msg_send _) with false by (symmetry; exact Hm). cbn [negb]. rewrite post_send_ok by done. done.
  - unfold rs_post_write_msg. rs_unfold.
    replace (msg_send _) with false by (symmetry; exact Hm). cbn [negb]. rewrite post_send_ok by done. done.
Qed.

(** ** A ring of bytes *)
Lemma mod_double w h : 0 < h → w mod (2 * h) = (w / h) mod 2 * h + w mod h.
Proof. intros Hh. rewrite (Z.mul_comm 2 h), Z.rem_mul_r by lia. lia. Qed.

(** [bs] at position [w] of the ring of [sz] bytes at [b]. *)
Definition ring_put (b sz w : Z) (bs : list Z) (m : mem) : mem :=
  let left := sz - w mod sz in
  if Z.leb (lenZ bs) left then poke (b + w mod sz) bs m
  else poke b (dropZ left bs) (poke (b + w mod sz) (takeZ left bs) m).

Lemma mod_step w sz i : 0 < sz → 0 ≤ i < sz → (w + i) mod sz = if Z.ltb (w mod sz + i) sz then w mod sz + i else w mod sz + i - sz.
Proof.
  intros Hs Hi. pose proof (Z.mod_pos_bound w sz Hs). rewrite <- Z.add_mod_idemp_l by lia.
  destruct (Z.ltb_spec (w mod sz + i) sz); [apply Z.mod_small; lia|].
  rewrite <- (Z.mod_small (w mod sz + i - sz) sz) by lia. replace (w mod sz + i) with (w mod sz + i - sz + 1 * sz) at 1 by lia.
  by rewrite Z.mod_add by lia.
Qed.

Lemma ring_put_in b sz w bs m i : 0 < sz → lenZ bs ≤ sz → 0 ≤ i < lenZ bs →
  ring_put b sz w bs m (b + (w + i) mod sz) = nth (Z.to_nat i) bs 0.
Proof.
  intros Hs Hn Hi. pose proof (Z.mod_pos_bound w sz Hs). rewrite mod_step by lia. unfold ring_put.
  destruct (Z.leb_spec (lenZ bs) (sz - w mod sz)).
  - destruct (Z.ltb_spec (w mod sz + i) sz); [|lia]. rewrite poke_in by lia. f_equal. lia.
  - destruct (Z.ltb_spec (w mod sz + i) sz).
    + rewrite poke_out by (rewrite lenZ_dropZ by lia; lia).
      rewrite poke_in by (rewrite lenZ_takeZ by lia; lia). unfold takeZ. rewrite !nth_lookup, lookup_take_lt by lia. do 2 f_equal. lia.
    + rewrite poke_in by (rewrite lenZ_dropZ by lia; lia). unfold dropZ. rewrite !nth_lookup, lookup_drop. do 2 f_equal. lia.
Qed.

Lemma ring_put_out b sz w bs m i : 0 < sz → lenZ bs ≤ sz → w + lenZ bs - sz ≤ i < w →
  ring_put b sz w bs m (b + i mod sz) = m (b + i mod sz).
Proof.
  intros Hs Hn Hi. pose proof (Z.mod_pos_bound w sz Hs). pose proof (lenZ_nonneg bs).
  assert (i mod sz = (w + (i - w + sz)) mod sz) as -> by (rewrite <- (Z.mod_add i 1 sz) by lia; f_equal; lia).
  rewrite mod_step by lia. unfold ring_put. destruct (Z.leb_spec (lenZ bs) (sz - w mod sz)).
  - apply poke_out. destruct (Z.ltb_spec (w mod sz + (i - w + sz)) sz); lia.
  - rewrite poke_out by (rewrite lenZ_dropZ by lia; destruct (Z.ltb_spec (w mod sz + (i - w + sz)) sz); lia).
    apply poke_out. rewrite lenZ_takeZ by lia. destruct (Z.ltb_spec (w mod sz + (i - w + sz)) sz); lia.
Qed.

Lemma ring_put_same b sz w bs m a n : 0 < sz → lenZ bs ≤ sz → a + n ≤ b ∨ b + sz ≤ a → same_on a n (ring_put b sz w bs m) m.
Proof.
  intros Hs Hn Hd. pose proof (Z.mod_pos_bound w sz Hs). unfold ring_put. destruct (Z.leb_spec (lenZ bs) (sz - w mod sz)).
  - apply same_on_poke. lia.
  - eapply same_on_trans; apply same_on_poke; rewrite ?lenZ_dropZ, ?lenZ_takeZ by lia; lia.
Qed.

Lemma place_run c bs w write (e : ep rc) :
  cfg (e_rs e) = c → cfg_ok c → ssgl_addr (tx (e_rs e)) = sbuf c + w mod sbuf_size c → 0 < lenZ bs ≤ sbuf_size c →
  (∀ d m, ∃ ret r' m' er' k', write d (mkEp (e_rs e) m (e_errno e) (e_k e)) = Ok (ret, mkEp r' m' er' k') ∧ cfg r' = c) →
  ∃ ret r' m' er' k',
    write (Gather (ring_sgl c w (lenZ bs))) (mkEp (e_rs e) (ring_put (sbuf c) (sbuf_size c) w bs (e_mem e)) (e_errno e) (e_k e)) =
      Ok (ret, mkEp r' m' er' k') ∧
    place bs write e = Ok (ret, mkEp (set_ssgl_addr (sbuf c + (w + lenZ bs) mod sbuf_size c) r') m' er' k').
Proof.
  intros Hcfg Hc Hs Hn Hw. destruct (ok_sbuf c Hc) as [Hlo Hhi]. unfold RS_SNDLOWAT in Hlo.
  destruct (ok_addr c Hc) as (? & ? & ? & ? & ?).
  pose proof (Z.mod_pos_bound w (sbuf_size c)) as Hb.
  assert (rs_sbuf_left (e_rs e) = sbuf_size c - w mod sbuf_size c) as Hl.
  { unfold rs_sbuf_left. rewrite Hcfg, Hs, u32_id; lia. }
  unfold place. rs_unfold. rewrite Hl, Hcfg, Hs. unfold ring_sgl, ring_put.
  destruct (Z.leb_spec (lenZ bs) (sbuf_size c - w mod sbuf_size c)).
  - edestruct Hw as (ret & r' & m' & er' & k' & E & Hr). exists ret, r', m', er', k'. split; [exact E|]. rewrite E. cbn [rbind e_rs e_mem e_errno e_k].
    do 4 f_equal. destruct (Z.ltb_spec (lenZ bs) (sbuf_size c - w mod sbuf_size c)).
    + rewrite u64_id by lia. rewrite <- Z.add_mod_idemp_l, (Z.mod_small (w mod sbuf_size c + _)) by lia. lia.
    + rewrite <- Z.add_mod_idemp_l by lia. replace (w mod sbuf_size c + lenZ bs) with (sbuf_size c) by lia. rewrite Z.mod_same by lia. lia.
  - edestruct Hw as (ret & r' & m' & er' & k' & E & Hr). exists ret, r', m', er', k'. split; [exact E|]. rewrite E. cbn [rbind e_rs e_mem e_errno e_k].
    do 4 f_equal. rewrite <- Z.add_mod_idemp_l by lia.
    replace (w mod sbuf_size c + lenZ bs) with (lenZ bs - (sbuf_size c - w mod sbuf_size c) + 1 * sbuf_size c) by lia.
    rewrite Z.mod_add, (Z.mod_small (lenZ bs - _)) by lia. lia.
Qed.

(** ** Sending *)
Lemma total_nonneg l : Forall item_ok l → 0 ≤ total (datas l).
Proof. induction 1 as [|i l Hi _ IH]; [done|]. destruct i; cbn in *; unfold total in *; lia. Qed.

Lemma chunk_size_ok r m olen left :
  0 < left → 0 < olen ≤ RS_MAX_TRANSFER → 0 < sbuf_bytes_avail (tx r) < 2 ^ 32 → 0 < sg_length (load_sge (cur_sge r) m) →
  ∃ n o, chunk_size r m olen left = (n, o) ∧ 0 < n ≤ RS_MAX_TRANSFER ∧ n ≤ left ∧ n ≤ sbuf_bytes_avail (tx r) ∧
    n ≤ sg_length (load_sge (cur_sge r) m).
Proof.
  intros Hl Ho Ha Hr. unfold chunk_size. rewrite (u32_id (sbuf_bytes_avail (tx r))) by lia.
  destruct (Z.ltb_spec olen left).
  - eexists _, _. split; [reflexivity|]. repeat case_match; rewrite ?Z.ltb_lt, ?Z.ltb_ge in *; lia.
  - eexists _, _. split; [reflexivity|]. repeat case_match; rewrite ?Z.ltb_lt, ?Z.ltb_ge in *; lia.
Qed.

Lemma div_same w n h : 0 < h → 0 < n → w + n ≤ (w / h + 1) * h → w / h = (w + n - 1) / h.
Proof.
  intros Hh Hn Hle. pose proof (Z.div_mod w h). pose proof (Z.mod_pos_bound w h). apply Z.div_unique with (w + n - 1 - h * (w / h)); nia.
Qed.

Lemma div_step w n h : 0 < h → 0 < n → w + n ≤ (w / h + 1) * h →
  (w + n) / h = if Z.eqb (w + n) ((w / h + 1) * h) then w / h + 1 else w / h.
Proof.
  intros Hh Hn Hle. pose proof (Z.div_mod w h). pose proof (Z.mod_pos_bound w h). destruct (Z.eqb_spec (w + n) ((w / h + 1) * h)) as [->|].
  - by rewrite Z.div_mul by lia.
  - symmetry. apply Z.div_unique with (w + n - h * (w / h)); nia.
Qed.

Lemma next_sge_mod j : next_sge (j mod 2) = (j + 1) mod 2.
Proof.
  unfold next_sge, RS_SGL_SIZE. pose proof (Z.mod_pos_bound j 2). rewrite <- (Z.add_mod_idemp_l j) by lia.
  destruct (Z.eqb_spec (j mod 2 + 1) 2) as [->|]; [done|]. rewrite (Z.mod_small (_ + _)) by lia. done.
Qed.

(** The socket after a chunk of [n] bytes at [w]. *)
Definition sent_tx (c d : rs_cfg) (w n : Z) (t : rs_tx) : rs_tx :=
  mkTx (u16 (sseq_no t + 1)) (sseq_comp t) (sqe_avail t - 1) (sbuf_bytes_avail t - n) (sbuf c + (w + n) mod sbuf_size c)
       ((w + n) / hsize d mod 2).
Definition sent_mem (c : rs_cfg) (w i : Z) (bs : list Z) (m : mem) : mem :=
  use_entry (target_sgl c + i * 16) (lenZ bs) (ring_put (sbuf c) (sbuf_size c) w bs m).

Lemma send_chunk_run c d e g rcnt arr x m' snd' arr' sent got f buf olen :
  cfg_ok c → cfg_ok d → side_ok c d e g rcnt →
  flow_ok c d (tx (e_rs e)) (e_mem e) (g_send g) arr x m' snd' arr' sent got f →
  buf ≠ [] → 0 < olen ≤ RS_MAX_TRANSFER → rs_can_send (e_rs e) (e_mem e) = true →
  let w := lenZ sent in
  ∃ n o, 0 < n ≤ RS_MAX_TRANSFER ∧ n ≤ lenZ buf ∧ n ≤ sbuf_bytes_avail (tx (e_rs e)) ∧ w + n ≤ (w / hsize d + 1) * hsize d ∧
    w / hsize d < f_d f ∧ 1 ≤ sqe_avail (tx (e_rs e)) ∧ f_s f ≠ f_c f ∧
    send_chunk buf olen e = Ok ((0, n, o),
      mkEp (set_tx (sent_tx c d w n) (e_rs e)) (sent_mem c w (w / hsize d mod 2) (takeZ n buf) (e_mem e)) (e_errno e)
           (with_send (q_send (e_k e) ++ [wr_of c d (IData w n)]) (e_k e))).
Proof.
  intros Hc Hd Hs Hf Hbuf Ho Hcan. cbv zeta. pose proof (sends_used_eq _ _ _ _ _ Hs) as Hu. pose proof (lenZ_nonneg sent) as Hw.
  destruct Hs, Hf. set (w := lenZ sent) in *.
  destruct (hsize_double d Hd) as [Hrb Hh]. destruct (ok_sbuf c Hc) as [Hlo Hhi]. unfold RS_SNDLOWAT in Hlo.
  destruct (ok_addr d Hd) as (_ & _ & Hrb0 & _ & Hrb1). destruct (ok_rbuf d Hd) as [Hrsz _]. destruct s_opts0 as [Hms _].
  unfold rs_can_send in Hcan. rewrite Hms in Hcan. cbn [negb] in Hcan. rewrite !andb_true_iff, !negb_true_iff in Hcan.
  destruct Hcan as [[[Hq Hb] Hsq] Hl]. apply Z.eqb_neq in Hq, Hsq, Hl. apply Z.leb_le in Hb. unfold RS_SNDLOWAT in Hb.
  set (h := hsize d) in *. set (r := e_rs e) in *.
  assert (cur_sge r = target_sgl c + (w / h mod 2) * 16) as Hcur by (unfold cur_sge; by rewrite s_cfg0, fl_target0, sizeof_sge).
  pose proof (Z.div_mod w h) as Hdm. pose proof (Z.mod_pos_bound w h Hh) as Hmb.
  destruct (fl_entries0 (w / h)) as [El Ep]; [lia|]. fold h in El, Ep. unfold room in El, Ep. rewrite Z.eqb_refl in El, Ep.
  destruct (Z.ltb_spec (w / h) (f_d f)) as [Hd1|Hd1]; [|by rewrite Hcur in Hl].
  specialize (Ep Hd1) as [Ek Ea]. rewrite <- Hcur in El, Ek, Ea.
  pose proof (total_nonneg _ (proj1 s_items0)) as Ht.
  destruct (chunk_size_ok r (e_mem e) olen (lenZ buf)) as (n & o & En & Hn & Hnb & Hna & Hnr); [|done|lia|nia|].
  { destruct buf; [done|]. rewrite lenZ_cons. pose proof (lenZ_nonneg buf). lia. }
  assert (lenZ (takeZ n buf) = n) as Hlen by (apply lenZ_takeZ; lia).
  assert (w + n ≤ (w / h + 1) * h) as Hwn by lia.
  assert (0 < sg_length (load_sge (cur_sge r) (e_mem e)) ≤ h) as Hlh by (rewrite El; nia).
  assert (0 ≤ sg_addr (load_sge (cur_sge r) (e_mem e)) ∧ sg_addr (load_sge (cur_sge r) (e_mem e)) + n < 2 ^ 64) as Hah.
  { rewrite Ea, <- El. pose proof (Z.mod_pos_bound (w / h) 2). nia. }
  exists n, o. repeat split_and!; try done; try lia.
  { intros E. apply Hsq. by rewrite (proj1 fl_sseq0), (proj1 fl_credit0), E. }
  unfold send_chunk. rs_unfold. fold r. rewrite En. cbn [rbind].
  (* where the entry is does not change *)
  assert (∀ m, same_on (target_sgl c) 32 m (e_mem e) → load_sge (cur_sge r) m = load_sge (cur_sge r) (e_mem e)) as Hsame.
  { intros m Hm. apply load_sge_same. rewrite Hcur. pose proof (Z.mod_pos_bound (w / h) 2). eapply same_on_sub; [done|lia..]. }
  set (bs := takeZ n buf) in *.
  set (m1 := ring_put (sbuf c) (sbuf_size c) w bs (e_mem e)).
  assert (load_sge (cur_sge r) m1 = load_sge (cur_sge r) (e_mem e)) as Hm1.
  { apply Hsame. apply ring_put_same; [lia..|]. pose proof (ok_sbuf_target c Hc). lia. }
  assert (sends_used (e_k e) < q_max_send (e_k e)) as Hus by (rewrite (proj1 s_max0); lia).
  destruct (place_run c bs w (λ d, rs_write_data d n) e) as (ret & r' & m2 & er' & k' & Ew & Epl); [done..|lia| |].
  { intros pl m. eexists _, _, _, _, _. split; [apply write_data_run; done|]. by cbn. }
  rewrite Epl. rewrite write_data_run in Ew by done. cbn [e_rs e_mem e_errno e_k] in Ew. fold r m1 in Ew. injection Ew as <- <- <- <- <-.
  cbn [rbind]. rewrite Hlen. do 3 f_equal.
  - unfold set_ssgl_addr, set_target_sge, take_send, set_tx, sent_tx.
    cbn [tx sseq_no sseq_comp sqe_avail sbuf_bytes_avail ssgl_addr target_sge]. f_equal. f_equal.
    change (load (at_sge (cur_sge r) "length") (use_entry (cur_sge r) n m1)) with (sg_length (load_sge (cur_sge r) (use_entry (cur_sge r) n m1))).
    rewrite use_entry_load by (rewrite Hm1; lia). cbn [sg_length]. fold h. rewrite Hm1, El, fl_target0, div_step by lia.
    destruct (Z.eqb_spec (w + n) ((w / h + 1) * h)); destruct (Z.eqb_spec ((w / h + 1) * h - w - n) 0); try lia; try done.
    by rewrite next_sge_mod.
  - unfold sent_mem. rewrite Hlen. fold m1. by rewrite Hcur.
  - unfold wr_of. cbn [item_msg]. change (load (at_sge (cur_sge r) "addr") m1) with (sg_addr (load_sge (cur_sge r) m1)).
    change (load (at_sge (cur_sge r) "key") m1) with (sg_key (load_sge (cur_sge r) m1)). rewrite Hm1, Ea, Ek. rewrite Hrb, mod_double by lia. fold h.
    replace (rbuf d + (w / h) mod 2 * h + (h - ((w / h + 1) * h - w))) with (rbuf d + ((w / h) mod 2 * h + w mod h)) by nia. done.
Qed.

(** Posting one more item. *)
Definition add_item (i : item) (q : Z) (g : side) : side := mkSide (g_send g ++ [i]) (g_done g) (g_cq g) q.

Lemma outs_add i q g : outs (add_item i q g) = outs g ++ [i].
Proof. unfold outs, add_item. cbn. by rewrite <- !app_assoc. Qed.

Lemma calm_add i q g : plain i → calm g → calm (add_item i q g).
Proof. intros Hi (H1 & H2 & H3). split_and!; try done. cbn. apply Forall_app. split; [done|]. by repeat constructor. Qed.

Lemma use_entry_other c i j n m : 0 ≤ i < 2 → 0 ≤ j < 2 → i ≠ j →
  load_sge (target_sgl c + j * 16) (use_entry (target_sgl c + i * 16) n m) = load_sge (target_sgl c + j * 16) m.
Proof. intros Hi Hj Hne. apply load_sge_same, use_entry_same. lia. Qed.

Lemma entries_sent c d m m1 w n fd j :
  cfg_ok d → 0 < n → w + n ≤ (w / hsize d + 1) * hsize d → w / hsize d < fd ≤ w / hsize d + 2 →
  (∀ j, w / hsize d ≤ j ≤ w / hsize d + 1 → entry_is c d m w fd j) →
  (∀ k, load_sge (target_sgl c + (k mod 2) * 16) m1 =
        let g := load_sge (target_sgl c + (k mod 2) * 16) m in
        if decide (k mod 2 = w / hsize d mod 2) then mkRsSge (sg_addr g + n) (sg_key g) (sg_length g - n) else g) →
  (w + n) / hsize d ≤ j ≤ (w + n) / hsize d + 1 → entry_is c d m1 (w + n) fd j.
Proof.
  intros Hd Hn Hwn Hfd Hent Hm1 Hj. destruct (hsize_double d Hd) as [_ Hh]. set (h := hsize d) in *.
  rewrite div_step in Hj by lia. set (c0 := w / h) in *.
  assert (∀ a b, (a = b ∨ a = b + 2) → a mod 2 = b mod 2) as Hpar.
  { intros a b [-> | ->]; [done|]. rewrite <- (Z.mod_add b 1 2) by lia. f_equal. }
  assert ((c0 + 1) mod 2 ≠ c0 mod 2) as Hodd by (pose proof (Z.div_mod c0 2); pose proof (Z.div_mod (c0 + 1) 2); pose proof (Z.mod_pos_bound c0 2); pose proof (Z.mod_pos_bound (c0 + 1) 2); lia).
  destruct (Hent c0) as [El0 Ep0]; [lia|]. destruct (Hent (c0 + 1)) as [El1 Ep1]; [lia|]. fold h c0 in El0, Ep0, El1, Ep1.
  unfold room in El0, Ep0, El1, Ep1. fold c0 in El0, Ep0, El1, Ep1. rewrite Z.eqb_refl in El0, Ep0.
  destruct (Z.ltb_spec c0 fd); [|lia]. destruct (Z.eqb_spec (c0 + 1) c0); [lia|]. destruct (Ep0 ltac:(lia)) as [Ek0 Ea0].
  constructor; rewrite Hm1; cbv zeta; fold h c0; unfold room; rewrite div_step by lia; fold c0.
  - destruct (Z.eqb_spec (w + n) ((c0 + 1) * h)).
    + assert (j = c0 + 1 ∨ j = c0 + 2) as [-> | ->] by lia.
      * rewrite decide_False by done. rewrite El1, Z.eqb_refl. destruct (Z.ltb_spec (c0 + 1) fd); lia.
      * rewrite decide_True by (apply Hpar; lia). cbn [sg_length]. rewrite (Hpar (c0 + 2) c0), El0 by lia.
        destruct (Z.ltb_spec (c0 + 2) fd); lia.
    + assert (j = c0 ∨ j = c0 + 1) as [-> | ->] by lia.
      * rewrite decide_True by done. cbn [sg_length]. rewrite El0, Z.eqb_refl. destruct (Z.ltb_spec c0 fd); lia.
      * rewrite decide_False by done. rewrite El1. destruct (Z.eqb_spec (c0 + 1) c0); [lia|]. done.
  - intros Hjd. destruct (Z.ltb_spec j fd); [|lia]. destruct (Z.eqb_spec (w + n) ((c0 + 1) * h)).
    + assert (j = c0 + 1) as -> by lia. rewrite decide_False by done. rewrite Z.eqb_refl. destruct (Ep1 Hjd) as [-> ->].
      destruct (Z.ltb_spec (c0 + 1) fd); [|lia]. split; [done|lia].
    + assert (j = c0 ∨ j = c0 + 1) as [-> | ->] by lia.
      * rewrite decide_True by done. cbn [sg_key sg_addr]. rewrite Ek0, Ea0, Z.eqb_refl. split; [done|lia].
      * rewrite decide_False by done. destruct (Ep1 Hjd) as [-> ->]. destruct (Z.ltb_spec (c0 + 1) fd); [|lia].
        destruct (Z.eqb_spec (c0 + 1) c0); [lia|]. done.
Qed.

Section Send.
Context (c d : rs_cfg) (Hc : cfg_ok c) (Hd : cfg_ok d) (e : ep rc) (g : side) (rcnt : Z) (sent buf : list Z) (n : Z).
Let w := lenZ sent.
Let h := hsize d.
Context (Hs : side_ok c d e g rcnt) (Hn : 0 < n ≤ RS_MAX_TRANSFER) (Hnb : n ≤ lenZ buf)
  (Hna : n ≤ sbuf_bytes_avail (tx (e_rs e))) (Hq : 1 ≤ sqe_avail (tx (e_rs e))).
Let bs := takeZ n buf.
Let m1 := sent_mem c w (w / h mod 2) bs (e_mem e).
Let e1 := mkEp (set_tx (sent_tx c d w n) (e_rs e)) m1 (e_errno e) (with_send (q_send (e_k e) ++ [wr_of c d (IData w n)]) (e_k e)).

Lemma sent_len : lenZ bs = n.
Proof. apply lenZ_takeZ. lia. Qed.

Lemma sent_fits : n ≤ sbuf_size c.
Proof. destruct Hs. pose proof (total_nonneg _ (proj1 s_items0)). lia. Qed.

Lemma sent_same a k : a + k ≤ sbuf c ∨ sbuf c + sbuf_size c ≤ a → a + k ≤ target_sgl c ∨ target_sgl c + 32 ≤ a →
  same_on a k m1 (e_mem e).
Proof.
  intros H1 H2. pose proof (ok_sbuf c Hc) as Hsb. pose proof sent_fits. pose proof sent_len. unfold RS_SNDLOWAT in Hsb.
  pose proof (Z.mod_pos_bound (w / h) 2). unfold m1, sent_mem.
  eapply same_on_trans; [apply use_entry_same|apply ring_put_same]; lia.
Qed.

Lemma side_sent : side_ok c d e1 (add_item (IData w n) (g_ctl g) g) rcnt.
Proof.
  pose proof (ok_sbuf_target c Hc). pose proof (ok_sbuf c Hc) as Hsb. unfold RS_SNDLOWAT in Hsb. destruct Hs. unfold e1. constructor; rewrite ?outs_add; cbn; try done.
  - by rewrite s_send0, fmap_app.
  - destruct s_items0. split; [apply Forall_app; split; [done|]|done]. repeat constructor; cbn; unfold RS_MAX_TRANSFER in Hn; lia.
  - rewrite omap_app, lenZ_app. cbn. unfold lenZ at 2. cbn. lia.
  - rewrite omap_app, total_app. cbn. lia.
  - rewrite omap_app. cbn. by rewrite app_nil_r.
  - rewrite omap_app. cbn. by rewrite app_nil_r.
  - intros k j q Hin. apply elem_of_app in Hin as [Hin|Hin]; [|apply list_elem_of_singleton in Hin; done].
    rewrite <- (s_halves0 k j q Hin). apply load_sge_same. pose proof (ctrl_slot_range c q). apply sent_same; lia.
Qed.

Lemma flow_sent arr x m' snd' arr' got f :
  flow_ok c d (tx (e_rs e)) (e_mem e) (g_send g) arr x m' snd' arr' sent got f →
  w + n ≤ (w / h + 1) * h → w / h < f_d f → f_s f ≠ f_c f →
  flow_ok c d (sent_tx c d w n (tx (e_rs e))) m1 (g_send g ++ [IData w n]) arr x m' snd' arr' (sent ++ bs) got
    (mkFlow (f_s f + 1) (f_r f) (f_c f) (f_g f) (f_d f) (f_e f) (f_m f)).
Proof.
  intros Hf Hwn Hwd Hsc. destruct (hsize_double d Hd) as [Hrb Hh]. fold h in Hrb, Hh. pose proof (lenZ_nonneg sent) as Hw. fold w in Hw.
  pose proof sent_len as Hbs. pose proof sent_fits as Hfit. pose proof (ok_sbuf c Hc) as Hsb. unfold RS_SNDLOWAT in Hsb.
  destruct Hf. destruct (tiles_total _ _ _ fl_snd0) as [Htot _].
  assert (total (datas (g_send g)) + n ≤ sbuf_size c) as Hin.
  { destruct Hs. unfold outs in s_bytes0. rewrite !omap_app, !total_app in s_bytes0. destruct s_items0 as [Hi _]. unfold outs in Hi.
    apply Forall_app in Hi as [Hi1 [Hi2 _]%Forall_app]. pose proof (total_nonneg _ Hi1). pose proof (total_nonneg _ Hi2). lia. }
  assert (f_e f ≤ w) as Hew by (by eapply tiles_le).
  pose proof (tiles_le _ _ _ fl_arr0) as Hfe. pose proof (sum_nonneg _ fl_pos0). pose proof (lenZ_nonneg got).
  assert (lenZ (sent ++ bs) = w + n) as Hl by (rewrite lenZ_app, Hbs; done).
  constructor; cbn [f_s f_r f_c f_g f_d f_e f_m sent_tx ssgl_addr sseq_no sseq_comp target_sge]; rewrite ?Hl; try done.
  - by apply prefix_app_r.
  - rewrite omap_app. cbn. by apply tiles_snoc; [|lia].
  - intros p k Hp. rewrite omap_app in Hp. apply elem_of_app in Hp as [Hp|Hp]; [by apply fl_in_half0|].
    cbn in Hp. apply list_elem_of_singleton in Hp as [= -> ->]. fold h. apply div_same; lia.
  - intros i Hi. pose proof (lenZ_nonneg got). rewrite lookup_app_lZ by (fold w; lia). by apply fl_rmem0.
  - intros i Hi. unfold m1, sent_mem. rewrite Hbs. pose proof (ok_sbuf_target c Hc). pose proof (Z.mod_pos_bound (w / h) 2).
    pose proof (Z.mod_pos_bound i (sbuf_size c)). rewrite (use_entry_same (sbuf c) (sbuf_size c)) by lia.
    destruct (Z.ltb_spec i w).
    + rewrite lookup_app_lZ by (fold w; lia). rewrite ring_put_out by lia. apply fl_smem0. fold w. lia.
    + rewrite lookup_app_rZ by (fold w; lia). fold w. replace (sbuf c + i mod sbuf_size c) with (sbuf c + (w + (i - w)) mod sbuf_size c) by (do 2 f_equal; lia).
      rewrite ring_put_in by lia. apply nth_Z. lia.
  - split; [|apply fl_sseq0]. by rewrite (proj1 fl_sseq0), u16_add_l.
  - rewrite omap_app. cbn. rewrite lenZ_snoc. lia.
  - destruct fl_credit0. split; [done|lia].
  - fold h. nia.
  - fold h. intros j Hj. destruct fl_avail0 as [Hav Hav0]. fold h in Hav.
    assert (lenZ got ≤ w) as Hgw by (unfold w, lenZ; apply prefix_length in fl_prefix0; lia).
    assert (f_d f ≤ w / h + 2) as Hd2.
    { destruct fl_halves0 as [_ Hdg]. pose proof (Z.div_mod w h). pose proof (Z.mod_pos_bound w h). nia. }
    apply entries_sent with (e_mem e); try done; try (fold h; lia). intros k. unfold m1, sent_mem. rewrite Hbs.
    assert (load_sge (target_sgl c + (k mod 2) * 16) (ring_put (sbuf c) (sbuf_size c) w bs (e_mem e)) =
            load_sge (target_sgl c + (k mod 2) * 16) (e_mem e)) as Hput.
    { apply load_sge_same, ring_put_same; [lia..|]. pose proof (ok_sbuf_target c Hc). pose proof (Z.mod_pos_bound k 2). lia. }
    pose proof (Z.mod_pos_bound (w / h) 2) as Hm1. pose proof (Z.mod_pos_bound k 2) as Hm2. fold h. case_decide as Hk.
    + rewrite Hk in Hput |- *. destruct (fl_entries0 (w / h)) as [El Ep]; [fold w h; lia|]. destruct (Ep Hwd) as [_ Ea]. fold w h in El, Ea.
      unfold room in El, Ea. rewrite Z.eqb_refl in El, Ea. destruct (Z.ltb_spec (w / h) (f_d f)); [|lia].
      destruct (ok_addr d Hd) as (_ & _ & ? & _ & ?). destruct (ok_rbuf d Hd) as [? _].
      assert ((w / h + 1) * h - w ≤ h) as HL by (clear -Hh; pose proof (Z.div_mod w h); pose proof (Z.mod_pos_bound w h); nia).
      assert (0 ≤ (w / h) mod 2 * h ≤ h) as HP by (clear -Hm1 Hh; nia).
      rewrite use_entry_load; rewrite Hput; rewrite ?El, ?Ea; try done; lia.
    + rewrite use_entry_other by lia. done.
Qed.
End Send.

(** ** Receiving *)
Lemma read_ring_ok r m off k w :
  cfg_ok (cfg r) → 0 ≤ off ≤ rbuf_size (cfg r) → off mod rbuf_size (cfg r) = w mod rbuf_size (cfg r) → 0 ≤ k ≤ rbuf_size (cfg r) →
  ∃ bs off', read_ring r m off k = (bs, off') ∧ lenZ bs = k ∧
    (∀ i, 0 ≤ i < k → bs !! Z.to_nat i = Some (m (rbuf (cfg r) + (w + i) mod rbuf_size (cfg r)))) ∧
    0 ≤ off' ≤ rbuf_size (cfg r) ∧ off' mod rbuf_size (cfg r) = (w + k) mod rbuf_size (cfg r).
Proof.
  intros Hc Ho Hm Hk. destruct (ok_rbuf _ Hc) as [Hr _]. set (sz := rbuf_size (cfg r)) in *. set (b := rbuf (cfg r)) in *.
  assert (∀ i, 0 ≤ i ≤ sz → (w + i) mod sz = (off + i) mod sz) as Hw.
  { intros i Hi. rewrite <- (Z.add_mod_idemp_l w), <- (Z.add_mod_idemp_l off), Hm by lia. done. }
  unfold read_ring. fold sz b. rewrite u32_id by lia. destruct (Z.ltb_spec (sz - off) k).
  - eexists _, _. split; [reflexivity|]. rewrite lenZ_app, !lenZ_peek by lia. split; [lia|]. split; [|split; [lia|]].
    + intros i Hi. rewrite Hw by lia. destruct (Z.ltb_spec i (sz - off)).
      * rewrite lookup_app_lZ by (rewrite lenZ_peek; lia). rewrite lookup_peek by lia. rewrite Z.mod_small by lia. do 2 f_equal. lia.
      * rewrite lookup_app_rZ by (rewrite lenZ_peek; lia). rewrite lenZ_peek, lookup_peek by lia. do 2 f_equal.
        replace (off + i) with (i - (sz - off) + 1 * sz) by lia. rewrite Z.mod_add, Z.mod_small by lia. done.
    + rewrite Hw by lia. replace (off + k) with (k - (sz - off) + 1 * sz) by lia. by rewrite Z.mod_add by lia.
  - eexists _, _. split; [reflexivity|]. rewrite lenZ_peek by lia. split; [done|]. split; [|split; [lia|]].
    + intros i Hi. rewrite Hw by lia. rewrite lookup_peek by lia. rewrite Z.mod_small by lia. do 2 f_equal. lia.
    + by rewrite Hw by lia.
Qed.

Lemma prefix_more (l k bs : list Z) :
  l `prefix_of` k → lenZ l + lenZ bs ≤ lenZ k → (∀ i, 0 ≤ i < lenZ bs → bs !! Z.to_nat i = k !! Z.to_nat (lenZ l + i)) →
  l ++ bs `prefix_of` k.
Proof.
  intros [t ->] Hl Hb. apply prefix_app. rewrite lenZ_app in Hl. exists (dropZ (lenZ bs) t). rewrite <- (takeZ_dropZ (lenZ bs) t) at 1. f_equal.
  pose proof (lenZ_nonneg bs). apply list_eqZ; rewrite lenZ_takeZ by lia; [done|]. intros i Hi. rewrite Hb, lookup_app_rZ by lia.
  unfold takeZ. rewrite lookup_take_lt by lia. do 2 f_equal. lia.
Qed.

Lemma recv_chunk_run c d t m snd arr snd' arr' sent got f (e : ep rc) left :
  cfg_ok d → cfg (e_rs e) = d → 0 < left → rs_have_rdata (e_rs e) (e_mem e) = true →
  flow_ok c d t m snd arr (rx (e_rs e)) (e_mem e) snd' arr' sent got f →
  ∃ bs x f', recv_chunk left e = Ok (bs, mkEp (set_rx (λ _, x) (e_rs e)) (e_mem e) (e_errno e) (e_k e)) ∧
    0 < lenZ bs ≤ left ∧ flow_ok c d t m snd arr x (e_mem e) snd' arr' sent (got ++ bs) f' ∧
    sum (f_m f') + lenZ bs = sum (f_m f).
Proof.
  intros Hd Hcfg Hleft Hdata Hf. destruct (hsize_double d Hd) as [Hrb Hh]. destruct Hf.
  unfold rs_have_rdata in Hdata. apply negb_true_iff, Z.eqb_neq in Hdata. set (r := e_rs e) in *. set (x := rx r) in *.
  destruct (f_m f) as [|n0 ms] eqn:Em.
  { exfalso. apply Hdata. by apply (ring_empty _ _ _ _ _ fl_ring0). }
  apply list.Forall_cons in fl_pos0 as [Hn0 Hms]. cbn [fmap list_fmap] in fl_ring0.
  destruct (ring_pop _ _ _ _ _ _ fl_ring0) as [Hat Hpop]. pose proof (ring_set _ _ _ _ _ (mkMsg RS_OP_DATA (n0 - left)) _ fl_ring0) as Hset.
  pose proof (ring_head _ _ _ _ _ fl_ring0) as Hhd.
  set (k := if Z.ltb left n0 then left else n0).
  assert (0 < k ≤ left ∧ k ≤ n0) as Hk by (unfold k; destruct (Z.ltb_spec left n0); lia).
  pose proof (tiles_le _ _ _ fl_arr0) as Hfe. pose proof (tiles_le _ _ _ fl_snd0) as Hew. pose proof (sum_nonneg _ Hms) as Hsum.
  change (sum (n0 :: ms)) with (n0 + sum ms) in *. pose proof (lenZ_nonneg got) as Hg0.
  assert (k ≤ rbuf_size d) as Hkr. { destruct fl_avail0, fl_halves0. rewrite Hrb. nia. }
  destruct (read_ring_ok r (e_mem e) (rbuf_offset x) k (lenZ got)) as (bs & off & Er & Hbs & Hat' & Hoff & Hoffm); rewrite ?Hcfg; try done; try apply fl_off0; try lia.
  rewrite Hcfg in *.
  assert (got ++ bs `prefix_of` sent) as Hpre.
  { apply prefix_more; [done|lia|]. intros i Hi. rewrite Hat', (fl_rmem0 (lenZ got + i)) by lia. done. }
  exists bs. unfold recv_chunk. rs_unfold. fold r x. rewrite Hat. cbn [deref rbind]. unfold take_msg. cbn [msg_data msg_op]. fold x.
  assert (rbuf_bytes_avail x + k = lenZ (got ++ bs) + 2 * hsize d - f_g f * hsize d ∧ 0 ≤ rbuf_bytes_avail x + k) as Hav.
  { rewrite lenZ_app, Hbs. lia. }
  assert (lenZ (got ++ bs) = lenZ got + k) as Hgl by (rewrite lenZ_app; lia).
  unfold k in *. clear k. destruct (Z.ltb_spec left n0).
  - eexists _, (mkFlow (f_s f) (f_r f) (f_c f) (f_g f) (f_d f) (f_e f) ((n0 - left) :: ms)). cbn [rbuf_offset]. rewrite Er. cbn [rbind e_rs e_mem].
    split; [done|]. split; [lia|]. split; [|cbn [f_m]; change (sum ((n0 - left) :: ms)) with (n0 - left + sum ms); lia].
    constructor; cbn [f_s f_r f_c f_g f_d f_e f_m rmsg rmsg_head rmsg_tail rseq_no rseq_comp rbuf_bytes_avail rbuf_free_offset remote_sge rbuf_offset]; try done.
    + constructor; [lia|done].
    + change (sum ((n0 - left) :: ms)) with (n0 - left + sum ms). rewrite Hgl. by replace (lenZ got + left + (n0 - left + sum ms)) with (lenZ got + (n0 + sum ms)) by lia.
    + intros i Hi. apply fl_rmem0. lia.
    + split; [done|]. by rewrite Hgl.
  - eexists _, (mkFlow (f_s f) (f_r f + 1) (f_c f) (f_g f) (f_d f) (f_e f) ms). cbn [rbuf_offset]. rewrite Er. cbn [rbind e_rs e_mem].
    split; [done|]. split; [lia|]. split; [|cbn [f_m]; lia].
    constructor; cbn [f_s f_r f_c f_g f_d f_e f_m rmsg rmsg_head rmsg_tail rseq_no rseq_comp rbuf_bytes_avail rbuf_free_offset remote_sge rbuf_offset]; try done.
    + unfold next_msg. rewrite Hcfg, ring_next by done. done.
    + rewrite Hgl. by replace (lenZ got + n0 + sum ms) with (lenZ got + (n0 + sum ms)) by lia.
    + intros i Hi. apply fl_rmem0. lia.
    + split; [apply fl_sseq0|]. by rewrite (proj2 fl_sseq0), u16_add_l.
    + rewrite lenZ_cons in fl_count0. lia.
    + eapply climbs_weaken; [done|lia].
    + split; [done|]. by rewrite Hgl.
Qed.

(** ** Control messages *)
Lemma ctrl_room c d e g rcnt : side_ok c d e g rcnt → rs_ctrl_avail (e_rs e) = true → lenZ (slots (outs g)) < 4.
Proof.
  intros [] Ha. unfold rs_ctrl_avail in Ha. apply negb_true_iff, Z.eqb_neq in Ha. destruct s_seq0 as [E1 E2], s_slots0 as [_ Hn].
  destruct (Z.ltb_spec (lenZ (slots (outs g))) 4); [done|]. exfalso. apply Ha. rewrite E1, E2. f_equal. lia.
Qed.

Lemma side_post c d e g rcnt i r' m1 er :
  side_ok c d e g rcnt → slot_of i = Some (g_ctl g + 1) → item_ok i → lenZ (slots (outs g)) < 4 →
  cfg r' = c → opts r' = opts (e_rs e) → state r' = state (e_rs e) → tx r' = tx (e_rs e) →
  ctrl_seqno r' = u32 (ctrl_seqno (e_rs e) + 1) → ctrl_max_seqno r' = ctrl_max_seqno (e_rs e) →
  (∀ q, q mod 4 ≠ (g_ctl g + 1) mod 4 → same_on (ctrl_slot c q) 16 m1 (e_mem e)) →
  (∀ k j, i = ICred k (Some j) (g_ctl g + 1) → load_sge (ctrl_slot c (g_ctl g + 1)) m1 = half_sge c j) →
  side_ok c d (mkEp r' m1 er (with_send (q_send (e_k e) ++ [wr_of c d i]) (e_k e))) (add_item i (g_ctl g + 1) g) rcnt.
Proof.
  intros [] Hi Hok Hn Hcfg Hop Hst Htx Hsq Hmx Hm Hnew.
  assert (data_of i = None) as Hdi by (by destruct i).
  assert (datas [i] = []) as Hd1 by (cbn; by rewrite Hdi). assert (slots [i] = [g_ctl g + 1]) as Hs1 by (cbn; by rewrite Hi).
  constructor; rewrite ?outs_add, ?omap_app, ?Hd1, ?Hs1, ?app_nil_r, ?lenZ_snoc; cbn [e_rs e_mem e_k with_send add_item g_send g_done g_cq g_ctl q_send q_done q_cq q_max_send q_max_recv q_mrs q_recv];
    rewrite ?Htx, ?Hst; try done.
  - destruct s_opts0. unfold msg_send in *. by rewrite Hop.
  - by rewrite s_send0, fmap_app.
  - destruct s_items0. split; [|done]. apply Forall_app. split; [done|]. by repeat constructor.
  - split; [|lia]. destruct s_slots0 as [E _]. rewrite E at 1.
    set (n := lenZ (slots (outs g))) in *. assert (0 ≤ n) by apply lenZ_nonneg.
    rewrite (seqZ_app _ n 1) by lia. f_equal; [f_equal; lia|]. rewrite seqZ_cons by lia. cbn. by replace (g_ctl g + 1 + 1 - (n + 1) + n) with (g_ctl g + 1) by lia.
  - destruct s_seq0 as [E1 E2]. rewrite Hsq, E1, u32_add_l, Hmx, E2. split; [done|]. f_equal. lia.
  - intros k j q Hin. apply elem_of_app in Hin as [Hin|Hin].
    + rewrite <- (s_halves0 k j q Hin). apply load_sge_same, Hm. destruct s_slots0 as [E _].
      assert (q ∈ slots (outs g)) as Hq.
      { apply list_elem_of_omap. exists (ICred k (Some j) q). split; [|done]. unfold outs. rewrite !elem_of_app. auto. }
      rewrite E in Hq. apply elem_of_seqZ in Hq. set (n := lenZ (slots (outs g))) in *.
      intros Heq. assert (g_ctl g + 1 = q); [|lia]. apply (mod_small_inj 4); lia.
    + apply list_elem_of_singleton in Hin as <-. cbn in Hi. injection Hi as ->. by eapply Hnew.
Qed.

Lemma post_ctl_ok c d e g rcnt : side_ok c d e g rcnt → lenZ (slots (outs g)) < 4 → sends_used (e_k e) < q_max_send (e_k e).
Proof. intros Hs Hn. rewrite (sends_used_eq _ _ _ _ _ Hs). destruct Hs. lia. Qed.

Lemma same_slots c a q g m : (q mod 4 ≠ a mod 4) → same_on (ctrl_slot c q) 16 (store_sge (ctrl_slot c a) g m) m.
Proof. intros H. apply same_on_store_sge. unfold ctrl_slot. lia. Qed.

Lemma land_3 z : Z.land (u32 z) 3 = z mod 4.
Proof.
  change 3 with (Z.ones 2). rewrite Z.land_ones by lia. unfold u32. change (2 ^ 32) with (2 ^ 2 * 2 ^ 30). change (2 ^ 2) with 4.
  rewrite Z.rem_mul_r by lia. rewrite Z.mul_comm, Z.mod_add by lia. by rewrite Z.mod_mod.
Qed.

(** ** Credits *)
Definition credit_rx (h : bool) r : rs_rx :=
  let r1 := set_rseq_comp (u16 (rseq_no (rx r) + Z.shiftr (rq_size (cfg r)) 1)) r in
  rx (if h then give_half r1 else r1).

Lemma half_eq r : half r = hsize (cfg r).
Proof. unfold half, hsize. by rewrite Z.shiftr_div_pow2. Qed.

Lemma post_msg_run msg (e : ep rc) : msg_send (e_rs e) = false → sends_used (e_k e) < q_max_send (e_k e) →
  rs_post_msg msg e = Ok (0, mkEp (e_rs e) (e_mem e) (e_errno e)
    (with_send (q_send (e_k e) ++ [mkRsWr msg (Gather []) IBV_WR_RDMA_WRITE_WITH_IMM (swap32 msg) 0 0]) (e_k e))).
Proof. intros Hm Hu. unfold rs_post_msg. rs_unfold. rewrite Hm. cbn [negb]. by rewrite post_send_ok. Qed.

Lemma post_write_msg_run pl msg a key (e : ep rc) : msg_send (e_rs e) = false → sends_used (e_k e) < q_max_send (e_k e) →
  rs_post_write_msg pl msg a key e = Ok (0, mkEp (e_rs e) (e_mem e) (e_errno e)
    (with_send (q_send (e_k e) ++ [mkRsWr msg pl IBV_WR_RDMA_WRITE_WITH_IMM (swap32 msg) a key]) (e_k e))).
Proof. intros Hm Hu. unfold rs_post_write_msg. rs_unfold. rewrite Hm. cbn [negb]. by rewrite post_send_ok. Qed.

Lemma send_credits_run c d e g rcnt t m snd arr arr' sent got f :
  cfg_ok d → remote_sgl d = mkRsSge (target_sgl c) (target_rkey c) 2 → side_ok d c e g rcnt →
  flow_ok c d t m snd arr (rx (e_rs e)) (e_mem e) (g_send g) arr' sent got f →
  lenZ (slots (outs g)) < 4 →
  let hf := half_free (e_rs e) in
  let i := ICred (f_r f + rq_size d) (if hf then Some (f_g f) else None) (g_ctl g + 1) in
  let r1 := set_rx (λ _, credit_rx hf (e_rs e)) (set_ctrl (u32 (ctrl_seqno (e_rs e) + 1)) (ctrl_max_seqno (e_rs e)) (e_rs e)) in
  let m1 := if hf then store_sge (ctrl_slot d (g_ctl g + 1)) (half_sge d (f_g f)) (e_mem e) else e_mem e in
  rs_send_credits e = Ok ((), mkEp r1 m1 (e_errno e) (with_send (q_send (e_k e) ++ [wr_of d c i]) (e_k e))).
Proof.
  intros Hd Hrem Hs Hf Hn. cbv zeta. pose proof (post_ctl_ok _ _ _ _ _ Hs Hn) as Hu. destruct Hs, Hf.
  destruct e as [r m0 er k]. cbn [e_rs e_mem e_errno e_k] in *. destruct s_opts0 as [Hms Hsw]. destruct fl_free0 as [Hfo Hrs].
  destruct fl_sseq0 as [_ Hrseq]. destruct s_seq0 as [Hcs _].
  unfold rs_send_credits. rs_unfold.
  set (r2 := set_rseq_comp _ _).
  assert (cfg r2 = d ∧ opts r2 = opts r ∧ rx r2 = credit_rx false r ∧ ctrl_seqno r2 = u32 (g_ctl g + 1)) as (Hc2 & Ho2 & Hx2 & Hs2).
  { unfold r2. cbn. rewrite s_cfg0, Hcs, u32_add_l. done. }
  assert (half_free r2 = half_free r) as Hhf by done. assert (msg_send r2 = false) as Hms2 by (unfold msg_send; by rewrite Ho2).
  assert (rs_get_ctrl_buf r2 = ctrl_slot d (g_ctl g + 1)) as Hbuf.
  { unfold rs_get_ctrl_buf, ctrl_slot, RS_MAX_CTRL_MSG, RS_QP_CTRL_SIZE. rewrite Hc2, Hs2, land_3. done. }
  assert (free_half r2 = half_sge d (f_g f)) as Hfh.
  { unfold free_half. rewrite Ho2, Hsw, half_eq, Hc2, Hx2. cbn [negb]. unfold half_sge. by rewrite <- Hfo. }
  assert (rs_msg_set RS_OP_SGL (rseq_no (rx r2) + rq_size (cfg r2)) = rs_msg_set RS_OP_SGL (u16 (f_r f + rq_size d - rq_size d) + rq_size d)) as Hmsg.
  { rewrite Hc2, Hx2. cbn. rewrite Hrseq. by replace (f_r f + rq_size d - rq_size d) with (f_r f) by lia. }
  rewrite Hhf, Hmsg. destruct (half_free r) eqn:Eh; cbn [rbind].
  - rewrite Hms2. cbn [rbind e_rs e_mem e_errno e_k]. rewrite Hbuf, Hfh, Hc2, Hrem, Hx2. rewrite post_write_msg_run by done.
    cbn [rbind e_rs e_mem e_errno e_k sg_addr sg_key]. unfold wr_of, item_msg. do 3 f_equal. cbn. rewrite Hrs. done.
  - rewrite post_msg_run by done. cbn [rbind]. done.
Qed.
