(* ===== verification/RsSteps.v ===== *)
(** * Two connected rsockets: every step keeps the invariant

    The invariant of [RsStream], seen from one side, and what each step of that side does to it. *)

From S2P Require Import Prelude Layout FfTypes Attrs Request Cma Rsocket RsNet RsItems RsStream.

#[local] Arguments load_sge : simpl never.
#[local] Arguments store_sge : simpl never.
#[local] Arguments poke : simpl never.
#[local] Arguments peek : simpl never.
#[local] Arguments rs_msg_set : simpl never.
#[local] Arguments outs : simpl never.

(** A side with [e], [g] that has sent [s] and got [o], and its peer with [e'], [g'], [s'], [o']. *)
Record pair_ok (c d : rs_cfg) (e e' : ep rc) (g g' : side) (s s' o o' : list Z) (f f' : flow) (rcnt : Z) : Prop := {
  p_side : side_ok c d e g rcnt;
  p_peer : side_ok d c e' g' 0;
  p_out : flow_ok c d (tx (e_rs e)) (e_mem e) (g_send g) (crecv (g_cq g)) (rx (e_rs e')) (e_mem e') (g_send g') (crecv (g_cq g')) s o' f;
  p_in : flow_ok d c (tx (e_rs e')) (e_mem e') (g_send g') (crecv (g_cq g')) (rx (e_rs e)) (e_mem e) (g_send g) (crecv (g_cq g)) s' o f'
}.

(** Two configurations that know each other. *)
Record pair_cfg (c d : rs_cfg) : Prop := {
  pc_own : cfg_ok c;
  pc_peer : cfg_ok d;
  pc_remote : remote_sgl c = mkRsSge (target_sgl d) (target_rkey d) 2;
  pc_remote' : remote_sgl d = mkRsSge (target_sgl c) (target_rkey c) 2
}.

Lemma pair_cfg_sym c d : pair_cfg c d → pair_cfg d c.
Proof. intros []. by constructor. Qed.
Lemma pair_sym c d e e' g g' s s' o o' f f' : pair_ok c d e e' g g' s s' o o' f f' 0 → pair_ok d c e' e g' g s' s o' o f' f 0.
Proof. intros []. by constructor. Qed.

(** Only the data and the credits in the queues matter. *)
Lemma flow_items c d t m snd snd1 arr arr1 x m' snd' snd1' arr' arr1' sent got f :
  datas snd1 = datas snd → creds arr1 = creds arr → creds snd1' = creds snd' → halves snd1' = halves snd' → datas arr1' = datas arr' →
  flow_ok c d t m snd arr x m' snd' arr' sent got f → flow_ok c d t m snd1 arr1 x m' snd1' arr1' sent got f.
Proof.
  intros E1 E2 E3 E4 E5 []. constructor; rewrite ?E1, ?E2, ?E3, ?E4, ?E5; done.
Qed.

(** The bytes in flight fit the halves that were given away. *)
Lemma flow_window c d t m snd arr x m' snd' arr' sent got f :
  cfg_ok d → flow_ok c d t m snd arr x m' snd' arr' sent got f →
  lenZ got ≤ lenZ sent ∧ lenZ got ≤ f_e f ≤ lenZ sent ∧ lenZ sent ≤ lenZ got + 2 * hsize d ∧ f_g f ≤ lenZ sent / hsize d + 2 ∧
  lenZ sent / hsize d ≤ f_d f ∧ rbuf_bytes_avail x ≤ 2 * hsize d.
Proof.
  intros Hd []. destruct (hsize_double d Hd) as [_ Hh]. pose proof (tiles_le _ _ _ fl_arr). pose proof (tiles_le _ _ _ fl_snd).
  pose proof (sum_nonneg _ fl_pos). destruct fl_avail as [E1 E2], fl_halves as [_ E3]. set (h := hsize d) in *. set (w := lenZ sent) in *.
  assert (f_d f * h ≤ f_g f * h) by (clear -E3 Hh; nia). pose proof (Z.div_mod w h). pose proof (Z.mod_pos_bound w h).
  split_and!; try lia; clear -E1 E2 fl_known Hh H H0 H1 H2 H3 H4; nia.
Qed.

(** ** Giving credits *)
Lemma flow_credits c d t m snd arr r m' snd' arr' sent got f q :
  cfg_ok d → cfg r = d → sg_length (remote_sgl d) = 2 → flow_ok c d t m snd arr (rx r) m' snd' arr' sent got f →
  let hf := half_free r in
  flow_ok c d t m snd arr (credit_rx hf r) m' (snd' ++ [ICred (f_r f + rq_size d) (if hf then Some (f_g f) else None) q]) arr' sent got
    (mkFlow (f_s f) (f_r f) (f_c f) (if hf then f_g f + 1 else f_g f) (f_d f) (f_e f) (f_m f)).
Proof.
  intros Hd Hr Hlen Hf hf. pose proof (flow_window _ _ _ _ _ _ _ _ _ _ _ _ _ Hd Hf) as Hw. destruct Hf. destruct (hsize_double d Hd) as [Hrb Hh].
  assert (Hshr : Z.shiftr (rq_size d) 1 = rq_size d / 2) by (by rewrite Z.shiftr_div_pow2).
  assert (rseq_no (credit_rx hf r) = rseq_no (rx r) ∧ rseq_comp (credit_rx hf r) = u16 (rseq_no (rx r) + rq_size d / 2) ∧
          rbuf_offset (credit_rx hf r) = rbuf_offset (rx r) ∧ rmsg (credit_rx hf r) = rmsg (rx r) ∧
          rmsg_head (credit_rx hf r) = rmsg_head (rx r) ∧ rmsg_tail (credit_rx hf r) = rmsg_tail (rx r)) as (E1 & E2 & E3 & E4 & E5 & E6).
  { unfold credit_rx. rewrite Hr, Hshr. by destruct hf. }
  assert (∀ v, half (set_rseq_comp v r) = half r) as Hhalf by done.
  constructor; cbn [f_s f_r f_c f_g f_d f_e f_m]; rewrite ?E1, ?E3, ?E4, ?E5, ?E6; try done.
  - rewrite omap_app, app_assoc. cbn. by apply climbs_snoc.
  - rewrite omap_app, app_assoc. cbn. rewrite last_last, E2, (proj2 fl_sseq), u16_add_l. f_equal. lia.
  - destruct fl_avail as [Ea Ea0]. unfold credit_rx, hf. destruct (half_free r) eqn:Eh; cbn; [|done].
    unfold half_free in Eh. rewrite Hhalf. rewrite half_eq, Hr in *.
    destruct (ok_rbuf d Hd). rewrite u32_id in Eh by lia. apply Z.leb_le in Eh. lia.
  - destruct fl_free as [Ef Er]. unfold credit_rx, hf. destruct (half_free r) eqn:Eh; cbn; [|done].
    rewrite Hhalf, half_eq, Hr, Hrb, Hlen, Ef, Er. rewrite <- (Z.add_mod_idemp_l (f_g f)) by lia. clear -Hh.
    destruct (Z.mod_pos_bound (f_g f) 2); [lia|]. assert (f_g f mod 2 = 0 ∨ f_g f mod 2 = 1) as [-> | ->] by lia.
    + destruct (Z.leb_spec (2 * hsize d) (0 * hsize d + hsize d)); [lia|]. change ((0 + 1) mod 2) with 1. split; [lia|done].
    + destruct (Z.leb_spec (2 * hsize d) (1 * hsize d + hsize d)); [|lia]. change ((1 + 1) mod 2) with 0. split; [lia|done].
  - destruct fl_halves as [Eh Eg]. rewrite omap_app, Eh. destruct hf; cbn; [|by rewrite app_nil_r].
    split; [|lia]. replace (f_g f + 1 - f_d f) with (f_g f - f_d f + 1) by lia. rewrite (seqZ_app _ (f_g f - f_d f) 1) by lia.
    f_equal. rewrite seqZ_cons by lia. cbn. f_equal. lia.
Qed.

(** A control message changes the queue, its slot in memory, and perhaps the credits. *)
Lemma pair_post c d e e' g g' s s' o o' f f' rcnt i r' m1 er f1' :
  pair_cfg c d → pair_ok c d e e' g g' s s' o o' f f' rcnt → lenZ (slots (outs g)) < 4 →
  slot_of i = Some (g_ctl g + 1) → item_ok i →
  cfg r' = c → opts r' = opts (e_rs e) → state r' = state (e_rs e) → tx r' = tx (e_rs e) →
  ctrl_seqno r' = u32 (ctrl_seqno (e_rs e) + 1) → ctrl_max_seqno r' = ctrl_max_seqno (e_rs e) →
  (∀ a k, a + k ≤ ctrl_slot c (g_ctl g + 1) ∨ ctrl_slot c (g_ctl g + 1) + 16 ≤ a → same_on a k m1 (e_mem e)) →
  (∀ k j, i = ICred k (Some j) (g_ctl g + 1) → load_sge (ctrl_slot c (g_ctl g + 1)) m1 = half_sge c j) →
  flow_ok d c (tx (e_rs e')) (e_mem e') (g_send g') (crecv (g_cq g')) (rx r') m1 (g_send g ++ [i]) (crecv (g_cq g)) s' o f1' →
  pair_ok c d (mkEp r' m1 er (with_send (q_send (e_k e) ++ [wr_of c d i]) (e_k e))) e' (add_item i (g_ctl g + 1) g) g' s s' o o' f f1' rcnt.
Proof.
  intros [Hc Hd _ _] [Hs Hs' Ho Hi] Hn Hslot Hok Hcfg Hop Hst Htx Hsq Hmx Hm Hnew Hf. pose proof (ctrl_slot_range c (g_ctl g + 1)).
  constructor; cbn [e_rs e_mem e_k add_item g_send g_cq]; try done.
  - apply side_post; try done. intros q Hq. apply Hm. unfold ctrl_slot. lia.
  - rewrite Htx. apply (flow_frame c d _ (e_mem e) m1 _ _ _ (e_mem e')); try done.
    + apply Hm. lia.
    + apply Hm. pose proof (ok_sbuf_target c Hc). pose proof (ok_sbuf c Hc) as Hsb. unfold RS_SNDLOWAT in Hsb. lia.
    + apply (flow_items c d _ _ (g_send g) _ (crecv (g_cq g)) _ _ _ (g_send g') _ (crecv (g_cq g'))); try done.
      rewrite omap_app. cbn. destruct i; [done|by rewrite app_nil_r..].
Qed.

Definition cred_end (f : flow) (arr snd' : list item) : Z := last (creds arr ++ creds snd') (f_c f).

Lemma pair_credits c d e e' g g' s s' o o' f f' rcnt :
  pair_cfg c d → pair_ok c d e e' g g' s s' o o' f f' rcnt →
  ∃ e1 g1 f1', rs_update_credits e = Ok ((), e1) ∧ pair_ok c d e1 e' g1 g' s s' o o' f f1' rcnt ∧
    state (e_rs e1) = state (e_rs e) ∧ (calm g → calm g1) ∧ f_s f1' = f_s f' ∧ f_r f1' = f_r f' ∧
    (rs_give_credits (e_rs e) = true →
     f_g f1' = f_g f' + (if half_free (e_rs e) then 1 else 0) ∧ cred_end f1' (crecv (g_cq g')) (g_send g1) = f_r f' + rq_size c).
Proof.
  intros Hpc Hp. unfold rs_update_credits. rs_unfold. destruct (rs_give_credits (e_rs e)) eqn:Eg; [|by exists e, g, f'].
  pose proof Hp as [Hs _ _ Hi]. pose proof Hpc as [Hc Hd Hr Hr']. pose proof (s_opts _ _ _ _ _ Hs) as [Hms _].
  unfold rs_give_credits in Eg. rewrite !andb_true_iff, Hms in Eg. destruct Eg as [[_ Ea] _].
  pose proof (ctrl_room _ _ _ _ _ Hs Ea) as Hn. pose proof (s_cfg _ _ _ _ _ Hs) as Hcfg.
  pose proof (flow_credits _ _ _ _ _ _ _ _ _ _ _ _ _ (g_ctl g + 1) Hc Hcfg ltac:(by rewrite Hr) Hi) as Hf. cbv zeta in Hf.
  pose proof (send_credits_run d c e g rcnt _ _ _ _ _ _ _ _ Hc Hr Hs Hi Hn) as Erun. cbv zeta in Erun.
  eexists _, _, _. split; [exact Erun|]. split; [|split; [done|]].
  - assert (∀ a k, a + k ≤ ctrl_slot c (g_ctl g + 1) ∨ ctrl_slot c (g_ctl g + 1) + 16 ≤ a →
      same_on a k (if half_free (e_rs e) then store_sge (ctrl_slot c (g_ctl g + 1)) (half_sge c (f_g f')) (e_mem e) else e_mem e) (e_mem e)) as Hm.
    { intros a k Ha. destruct (half_free (e_rs e)); [|done]. apply same_on_store_sge. lia. }
    eapply pair_post; try done.
    + intros k j [= _ E]. destruct (half_free (e_rs e)); [|done]. injection E as ->. apply load_store_sge.
      destruct (hsize_double c Hc). destruct (ok_addr c Hc) as (_ & _ & ? & _ & ?). destruct (ok_rbuf c Hc) as [? _]. pose proof (ok_key c Hc).
      pose proof (Z.mod_pos_bound j 2). unfold half_sge, sge_fits. cbn. nia.
    + eapply flow_frame; [done..| | | |exact Hf]; try done. apply Hm. pose proof (ctrl_slot_range c (g_ctl g + 1)).
      pose proof (ok_sbuf_rbuf c Hc). pose proof (ok_sbuf c Hc) as Hsb. unfold RS_SNDLOWAT in Hsb. lia.
  - split; [by apply calm_add|]. cbn. split_and!; try done. intros _. split; [by destruct (half_free (e_rs e)); rewrite ?Z.add_0_r|].
    unfold cred_end. cbn [g_send add_item f_c]. rewrite omap_app, app_assoc. cbn. by rewrite last_last.
Qed.

(** ** Keepalives and other control messages *)
Lemma post_control c d e e' g g' s s' o o' f f' rcnt i :
  pair_cfg c d → pair_ok c d e e' g g' s s' o o' f f' rcnt → rs_ctrl_avail (e_rs e) = true →
  i = IKeep (g_ctl g + 1) ∨ (∃ q, i = ICtl q (g_ctl g + 1) ∧ (q = RS_CTRL_SHUTDOWN ∨ q = RS_CTRL_DISCONNECT)) →
  pair_ok c d (mkEp (set_ctrl (u32 (ctrl_seqno (e_rs e) + 1)) (ctrl_max_seqno (e_rs e)) (e_rs e)) (e_mem e) (e_errno e)
                 (with_send (q_send (e_k e) ++ [wr_of c d i]) (e_k e))) e' (add_item i (g_ctl g + 1) g) g' s s' o o' f f' rcnt.
Proof.
  intros Hpc Hp Ha Hi. pose proof Hp as [Hs _ _ Hin]. pose proof (ctrl_room _ _ _ _ _ Hs Ha) as Hn. pose proof (s_cfg _ _ _ _ _ Hs).
  apply pair_post with f'; try done; try (by destruct Hi as [-> | (q & -> & ?)]).
  eapply flow_items, Hin; try done; rewrite omap_app; destruct Hi as [-> | (q & -> & ?)]; cbn; by rewrite app_nil_r.
Qed.

Lemma pair_keepalive c d e e' g g' s s' o o' f f' rcnt :
  pair_cfg c d → pair_ok c d e e' g g' s s' o o' f f' rcnt →
  ∃ e1 g1, tcp_svc_send_keepalive e = Ok ((), e1) ∧ pair_ok c d e1 e' g1 g' s s' o o' f f' rcnt ∧
    state (e_rs e1) = state (e_rs e) ∧ (calm g → calm g1).
Proof.
  intros Hpc Hp. unfold tcp_svc_send_keepalive. rs_unfold.
  destruct (rs_ctrl_avail (e_rs e)) eqn:Ea; cbn [andb]; [|by exists e, g]. destruct (has (state (e_rs e)) rs_connected); [|by exists e, g].
  pose proof Hp as [Hs _ _ _]. pose proof (post_ctl_ok _ _ _ _ _ Hs (ctrl_room _ _ _ _ _ Hs Ea)) as Hu.
  unfold rs_post_write. rewrite post_send_ok by done. eexists _, (add_item (IKeep (g_ctl g + 1)) (g_ctl g + 1) g). split; [reflexivity|]. split; [|split; [done|by apply calm_add]].
  exact (post_control _ _ _ _ _ _ _ _ _ _ _ _ _ (IKeep (g_ctl g + 1)) Hpc Hp Ea (or_introl eq_refl)).
Qed.

Lemma pair_ctrl c d e e' g g' s s' o o' f f' rcnt q :
  pair_cfg c d → pair_ok c d e e' g g' s s' o o' f f' rcnt → q = RS_CTRL_SHUTDOWN ∨ q = RS_CTRL_DISCONNECT →
  ∃ e1 g1, send_ctrl q e = Ok (0, e1) ∧ pair_ok c d e1 e' g1 g' s s' o o' f f' rcnt.
Proof.
  intros Hpc Hp Hq. unfold send_ctrl. rs_unfold. destruct (has (state (e_rs e)) rs_connected); cbn [andb]; [|by exists e, g].
  destruct (rs_ctrl_avail (e_rs e)) eqn:Ea; [|by exists e, g].
  pose proof Hp as [Hs _ _ _]. pose proof (post_ctl_ok _ _ _ _ _ Hs (ctrl_room _ _ _ _ _ Hs Ea)) as Hu.
  rewrite post_msg_run by (try done; apply Hs). eexists _, _. split; [reflexivity|].
  apply (post_control _ _ _ _ _ _ _ _ _ _ _ _ _ (ICtl q (g_ctl g + 1)) Hpc Hp Ea). right. by exists q.
Qed.

(** ** Changes of the state and of the event flags *)
Lemma pair_flags c d e e' g g' s s' o o' f f' rcnt r' er :
  cfg r' = cfg (e_rs e) → opts r' = opts (e_rs e) → tx r' = tx (e_rs e) → rx r' = rx (e_rs e) →
  ctrl_seqno r' = ctrl_seqno (e_rs e) → ctrl_max_seqno r' = ctrl_max_seqno (e_rs e) →
  (has (state r') rs_connected = true → has (state (e_rs e)) rs_connected = true) →
  pair_ok c d e e' g g' s s' o o' f f' rcnt → pair_ok c d (mkEp r' (e_mem e) er (e_k e)) e' g g' s s' o o' f f' rcnt.
Proof.
  intros Hc Ho Ht Hx Hq Hm Hs [[] Hp Hout Hin]. constructor; cbn [e_rs e_mem e_k]; rewrite ?Ht, ?Hx; try done.
  constructor; cbn [e_rs e_mem e_k]; unfold msg_send in *; rewrite ?Hc, ?Ho, ?Ht, ?Hq, ?Hm; try done. auto.
Qed.

Lemma has_land x y : has (Z.land x y) rs_connected = true → has x rs_connected = true.
Proof.
  unfold has. rewrite !negb_true_iff, !Z.eqb_neq. intros H E. apply H. rewrite <- Z.land_assoc, (Z.land_comm y), Z.land_assoc, E. done.
Qed.

Lemma pair_shut c d e e' g g' s s' o o' f f' rcnt how :
  pair_ok c d e e' g g' s s' o o' f f' rcnt →
  pair_ok c d (mkEp (set_state (shutdown_state how (e_rs e)).1 (rs_err (e_rs e)) (e_rs e)) (e_mem e) (e_errno e) (e_k e)) e' g g' s s' o o' f f' rcnt.
Proof. apply pair_flags; try done. cbn. destruct how; apply has_land. Qed.

(** ** Sending and receiving *)
Lemma pair_send c d e e' g g' s s' o o' f f' rcnt buf olen :
  pair_cfg c d → pair_ok c d e e' g g' s s' o o' f f' rcnt → buf ≠ [] → 0 < olen ≤ RS_MAX_TRANSFER →
  rs_can_send (e_rs e) (e_mem e) = true →
  ∃ n ol e1 g1 f1, send_chunk buf olen e = Ok ((0, n, ol), e1) ∧ 0 < n ≤ lenZ buf ∧
    pair_ok c d e1 e' g1 g' (s ++ takeZ n buf) s' o o' f1 f' rcnt ∧ state (e_rs e1) = state (e_rs e) ∧ (calm g → calm g1).
Proof.
  intros [Hc Hd _ _] [Hs Hp Hout Hin] Hb Hol Hcan.
  destruct (send_chunk_run _ _ _ _ _ _ _ _ _ _ _ _ _ _ _ Hc Hd Hs Hout Hb Hol Hcan) as (n & ol & Hn & Hnb & Hna & Hwn & Hwd & Hq & Hsc & Er).
  eexists n, ol, _, (add_item (IData (lenZ s) n) (g_ctl g) g), _. split; [exact Er|]. split; [lia|]. split; [|split; [done|by apply calm_add]]. constructor; cbn [e_rs e_mem e_k tx rx set_tx add_item g_send g_cq].
  - by eapply side_sent.
  - done.
  - eapply flow_sent; try done.
  - apply (flow_items _ _ _ _ (g_send g') _ (crecv (g_cq g')) _ _ _ (g_send g) _ (crecv (g_cq g)) _); try done.
    + unfold add_item. cbn [g_send]. rewrite omap_app. cbn. by rewrite app_nil_r.
    + unfold add_item. cbn [g_send]. rewrite omap_app. cbn. by rewrite app_nil_r.
    + eapply flow_frame; [exact Hd|exact Hc| | | |exact Hin]; try done. pose proof (ok_sbuf_rbuf c Hc). pose proof (ok_target_rbuf c Hc). pose proof (ok_sbuf c Hc) as Hsb. unfold RS_SNDLOWAT in Hsb.
      eapply sent_same; try done; lia.
Qed.

Lemma pair_recv c d e e' g g' s s' o o' f f' rcnt left :
  pair_cfg c d → pair_ok c d e e' g g' s s' o o' f f' rcnt → 0 < left → rs_have_rdata (e_rs e) (e_mem e) = true →
  ∃ bs e1 f1', recv_chunk left e = Ok (bs, e1) ∧ 0 < lenZ bs ≤ left ∧ state (e_rs e1) = state (e_rs e) ∧
    pair_ok c d e1 e' g g' s s' (o ++ bs) o' f f1' rcnt ∧ sum (f_m f1') + lenZ bs = sum (f_m f').
Proof.
  intros [Hc Hd _ _] [Hs Hp Hout Hin] Hl Hr.
  destruct (recv_chunk_run _ _ _ _ _ _ _ _ _ _ _ _ _ Hc (s_cfg _ _ _ _ _ Hs) Hl Hr Hin) as (bs & x & f1 & E & Hb & Hf & Hsum).
  eexists bs, _, f1. split; [exact E|]. split_and!; try done; try lia. constructor; try done. destruct Hs. by constructor.
Qed.

(** ** Completing work requests *)
Lemma wr_of_id c d i : w_id (wr_of c d i) = item_msg c i.
Proof. by destruct i as [|? []| |]. Qed.

Lemma pair_complete c d e e' g g' s s' o o' f f' rcnt e1 :
  pair_ok c d e e' g g' s s' o o' f f' rcnt → complete e = Some e1 →
  ∃ i l, g_done g = i :: l ∧
  pair_ok c d e1 e' (mkSide (g_send g) l (g_cq g ++ [CSent i]) (g_ctl g)) g' s s' o o' f f' rcnt ∧ state (e_rs e1) = state (e_rs e).
Proof.
  intros [Hs Hp Hout Hin] E. unfold complete in E. rewrite (s_done _ _ _ _ _ Hs) in E. destruct (g_done g) as [|i l] eqn:Ed; [done|].
  injection E as <-. exists i, l. split; [done|]. split; [|done].
  assert (crecv (g_cq g ++ [CSent i]) = crecv (g_cq g)) as Er by (rewrite omap_app; cbn; by rewrite app_nil_r).
  assert (outs (mkSide (g_send g) l (g_cq g ++ [CSent i]) (g_ctl g)) = outs g) as Eo.
  { unfold outs. cbn. rewrite Ed, omap_app, <- app_assoc. done. }
  constructor; cbn [e_rs e_mem e_k g_send g_cq]; rewrite ?Er; try done.
  destruct Hs. constructor; rewrite ?Eo; cbn [e_rs e_mem e_k g_send g_done g_cq g_ctl with_cq with_done q_send q_done q_cq q_recv q_mrs q_max_send q_max_recv]; rewrite ?Er; try done.
  by rewrite s_cq, fmap_app, wr_of_id.
Qed.

(** ** Executing work requests *)
Lemma ring_bytes c p n m : 0 < sbuf_size c → 0 < n ≤ sbuf_size c →
  let bs := concat ((λ g, peek (sge_addr g) (sge_len g) m) <$> ring_sgl c p n) in
  lenZ bs = n ∧ ∀ i, 0 ≤ i < n → bs !! Z.to_nat i = Some (m (sbuf c + (p + i) mod sbuf_size c)).
Proof.
  intros Hs Hn. cbv zeta. pose proof (Z.mod_pos_bound p (sbuf_size c) Hs). unfold ring_sgl. destruct (Z.leb_spec n (sbuf_size c - p mod sbuf_size c)); cbn.
  - rewrite app_nil_r. rewrite lenZ_peek by lia. split; [done|]. intros i Hi. rewrite lookup_peek, mod_step by lia. do 2 f_equal.
    destruct (Z.ltb_spec (p mod sbuf_size c + i) (sbuf_size c)); lia.
  - rewrite app_nil_r, lenZ_app, !lenZ_peek by lia. split; [lia|]. intros i Hi. rewrite mod_step by lia.
    destruct (Z.ltb_spec (p mod sbuf_size c + i) (sbuf_size c)).
    + rewrite lookup_app_lZ by (rewrite lenZ_peek; lia). rewrite lookup_peek by lia. do 2 f_equal. lia.
    + rewrite lookup_app_rZ by (rewrite lenZ_peek; lia). rewrite lenZ_peek, lookup_peek by lia. do 2 f_equal. lia.
Qed.

Lemma in_half_fits p n h : 0 < h → 0 < n → p / h = (p + n - 1) / h → p mod (2 * h) + n ≤ 2 * h.
Proof.
  intros Hh Hn E. rewrite mod_double by done. pose proof (Z.div_mod p h). pose proof (Z.mod_pos_bound p h Hh).
  pose proof (Z.div_mod (p + n - 1) h). pose proof (Z.mod_pos_bound (p + n - 1) h Hh). rewrite <- E in *.
  pose proof (Z.mod_pos_bound (p / h) 2). assert (n ≤ h - p mod h) by lia. clear -Hh H3 H4 H0. nia.
Qed.

(** Data arrives. *)
Lemma flow_data c d t m snd arr x m' snd' arr' sent got f p n bs :
  cfg_ok d → flow_ok c d t m (IData p n :: snd) arr x m' snd' arr' sent got f →
  lenZ bs = n → (∀ i, 0 ≤ i < n → bs !! Z.to_nat i = sent !! Z.to_nat (p + i)) →
  flow_ok c d t m snd arr x (poke (rbuf d + p mod rbuf_size d) bs m') snd' (arr' ++ [IData p n]) sent got
    (mkFlow (f_s f) (f_r f) (f_c f) (f_g f) (f_d f) (f_e f + n) (f_m f)).
Proof.
  intros Hd Hf Hlen Hbs. pose proof (flow_window _ _ _ _ _ _ _ _ _ _ _ _ _ Hd Hf) as (Hg & He & Hw & _). destruct Hf.
  destruct (hsize_double d Hd) as [Hrb Hh]. cbn in fl_snd. destruct fl_snd as (-> & Hn & Hsnd). pose proof (tiles_le _ _ _ Hsnd) as Hle.
  assert (f_e f mod rbuf_size d + n ≤ rbuf_size d) as Hfit.
  { rewrite Hrb. apply in_half_fits; try done. apply fl_in_half. cbn. left. }
  constructor; cbn [f_s f_r f_c f_g f_d f_e f_m]; try done.
  - rewrite omap_app. cbn. by apply tiles_snoc.
  - intros q k Hq. apply fl_in_half. cbn. by right.
  - intros i Hi. pose proof (lenZ_nonneg got). pose proof (Z.mod_pos_bound (f_e f) (rbuf_size d)). destruct (Z.ltb_spec i (f_e f)).
    + rewrite poke_out; [apply fl_rmem; lia|].
      pose proof (Z.mod_pos_bound i (rbuf_size d)). rewrite Hlen.
      assert (i mod rbuf_size d = (f_e f + (i + rbuf_size d - f_e f)) mod rbuf_size d) as ->.
      { rewrite <- (Z.mod_add i 1) by lia. f_equal. lia. }
      rewrite mod_step by lia. destruct (Z.ltb_spec (f_e f mod rbuf_size d + (i + rbuf_size d - f_e f)) (rbuf_size d)); lia.
    + replace (i mod rbuf_size d) with (f_e f mod rbuf_size d + (i - f_e f)).
      * rewrite poke_in by lia. replace (rbuf d + (f_e f mod rbuf_size d + (i - f_e f)) - (rbuf d + f_e f mod rbuf_size d)) with (i - f_e f) by lia.
        rewrite <- nth_Z by lia. rewrite Hbs by lia. f_equal. lia.
      * replace i with (f_e f + (i - f_e f)) at 2 by lia. rewrite mod_step by lia.
        destruct (Z.ltb_spec (f_e f mod rbuf_size d + (i - f_e f)) (rbuf_size d)); lia.
  - intros i Hi. apply fl_smem. lia.
  - rewrite omap_app, lenZ_app. cbn in fl_count |- *. rewrite lenZ_cons in fl_count. unfold lenZ at 3. cbn. lia.
Qed.

(** Credits arrive: [k] messages, and the half [f_d f] written to the sender's list. *)
Lemma flow_cred c d t m m1 snd arr x m' snd' arr' sent got f k h q :
  cfg_ok c → cfg_ok d → flow_ok c d t m snd arr x m' (ICred k h q :: snd') arr' sent got f →
  match h with
  | None => m1 = m
  | Some j => load_sge (target_sgl c + (j mod 2) * 16) m1 = half_sge d j ∧
              (∀ a z, a + z ≤ target_sgl c + (j mod 2) * 16 ∨ target_sgl c + (j mod 2) * 16 + 16 ≤ a → same_on a z m1 m)
  end →
  ∃ fd, flow_ok c d t m1 snd (arr ++ [ICred k h q]) x m' snd' arr' sent got
    (mkFlow (f_s f) (f_r f) (f_c f) (f_g f) fd (f_e f) (f_m f)).
Proof.
  intros Hc Hd Hf Hm. destruct h as [j|].
  2: { subst m1. exists (f_d f). destruct Hf. constructor; cbn [f_s f_r f_c f_g f_d f_e f_m]; rewrite ?omap_app, <- ?app_assoc; done. }
  destruct Hm as [Hnew Hm]. pose proof (flow_window _ _ _ _ _ _ _ _ _ _ _ _ _ Hd Hf) as (_ & _ & _ & Hg & Hwd & _).
  destruct (hsize_double d Hd) as [_ Hh]. destruct Hf. destruct fl_halves as [Eh Hle]. cbn in Eh.
  assert (f_d f < f_g f) as Hlt.
  { destruct (decide (f_d f = f_g f)) as [E|]; [|lia]. by rewrite E, Z.sub_diag in Eh. }
  rewrite seqZ_cons in Eh by lia. injection Eh as -> Eh. exists (f_d f + 1). set (h := hsize d) in *. set (w := lenZ sent) in *.
  pose proof (ok_sbuf_target c Hc). pose proof (ok_sbuf c Hc) as Hsb. unfold RS_SNDLOWAT in Hsb.
  pose proof (Z.mod_pos_bound (f_d f) 2) as Hm2.
  constructor; cbn [f_s f_r f_c f_g f_d f_e f_m]; rewrite ?omap_app, <- ?app_assoc; try done.
  - intros i Hi. rewrite fl_smem by done. f_equal. symmetry. pose proof (Z.mod_pos_bound i (sbuf_size c)). apply (Hm (sbuf c) (sbuf_size c)); lia.
  - split; [|lia]. rewrite Eh. f_equal; lia.
  - fold h w. nia.
  - fold w h. intros j Hj. destruct (fl_entries j Hj) as [El Ep]. pose proof (Z.mod_pos_bound j 2). unfold room in *. fold h w in El, Ep |- *.
    destruct (decide (j = f_d f)) as [-> | Hne].
    + assert (f_d f * h - w ≤ 0 ∧ w ≤ f_d f * h ∨ f_d f ≠ w / h) as Hx.
      { destruct (decide (f_d f = w / h)) as [E|]; [|by right]. left. pose proof (Z.div_mod w h). pose proof (Z.mod_pos_bound w h). split; [|done]. rewrite E. nia. }
      constructor; rewrite Hnew; unfold half_sge, room; cbn [sg_length sg_key sg_addr]; fold h; destruct (Z.ltb_spec (f_d f) (f_d f + 1)); try lia;
        destruct (Z.eqb_spec (f_d f) (w / h)); try (intros _; split; [done|]); lia.
    + assert (j mod 2 ≠ f_d f mod 2) as Hpar by (pose proof (Z.div_mod j 2); pose proof (Z.div_mod (f_d f) 2); clear -H0 Hm2 Hj Hne Hg Hlt Hwd H1 H2; lia).
      assert (load_sge (target_sgl c + j mod 2 * 16) m1 = load_sge (target_sgl c + j mod 2 * 16) m) as E by (apply load_sge_same, Hm; lia).
      constructor; rewrite E; unfold room; fold h; destruct (Z.ltb_spec j (f_d f)), (Z.ltb_spec j (f_d f + 1)); try lia; done.
Qed.

Definition executed (i : item) (l : list item) (g : side) : side := mkSide l (g_done g ++ [i]) (g_cq g) (g_ctl g).
Definition arrived (i : item) (g : side) : side := mkSide (g_send g) (g_done g) (g_cq g ++ match i with IKeep _ => [] | _ => [CRecv i] end) (g_ctl g).

Definition run_wr (l : list rs_wr) (w : rs_wr) (e : ep rc) : ep rc :=
  mkEp (e_rs e) (e_mem e) (e_errno e) (with_done (q_done (e_k e) ++ [w]) (with_send l (e_k e))).

Lemma side_executed c d e g rcnt i l : side_ok c d e g rcnt → g_send g = i :: l →
  side_ok c d (run_wr (wr_of c d <$> l) (wr_of c d i) e) (executed i l g) rcnt.
Proof.
  intros [] Eg. assert (outs (executed i l g) = outs g) as Eo.
  { unfold outs, executed. cbn. by rewrite Eg, <- (app_assoc (g_done g)). }
  constructor; rewrite ?Eo; unfold run_wr, executed; cbn [e_rs e_mem e_k with_send with_done g_send g_done g_cq g_ctl q_send q_done q_cq q_recv q_mrs q_max_send q_max_recv]; try done.
  - by rewrite s_done, fmap_app.
  - intros k j q Hin. apply (s_halves k). rewrite Eg. by right.
Qed.

(** The peer's memory has changed; a receive may have been used. *)
Lemma side_mem c d e g rcnt m1 : side_ok c d e g rcnt → same_on (sbuf c + sbuf_size c) 64 m1 (e_mem e) →
  side_ok c d (mkEp (e_rs e) m1 (e_errno e) (e_k e)) g rcnt.
Proof.
  intros [] Hm. constructor; cbn [e_rs e_mem e_k]; try done. intros k j q Hin. rewrite <- (s_halves k j q Hin). apply load_sge_same.
  pose proof (ctrl_slot_range c q). eapply same_on_sub; [done|lia..].
Qed.

Lemma side_recv c d e g rcnt v l i : side_ok c d e g rcnt → q_recv (e_k e) = v :: l → item_ok i →
  side_ok c d (mkEp (e_rs e) (e_mem e) (e_errno e)
                 (with_cq (q_cq (e_k e) ++ [mkRsWc (v_id v) true (Some (swap32 (item_msg d i)))]) (with_recv l (e_k e))))
    (mkSide (g_send g) (g_done g) (g_cq g ++ [CRecv i]) (g_ctl g)) rcnt.
Proof.
  intros [] Ev Hi. rewrite Ev in *. apply list.Forall_cons in s_recv as [Hv Hl].
  assert (outs (mkSide (g_send g) (g_done g) (g_cq g ++ [CRecv i]) (g_ctl g)) = outs g) as Eo.
  { unfold outs. cbn. rewrite omap_app. cbn. by rewrite app_nil_r. }
  assert (crecv (g_cq g ++ [CRecv i]) = crecv (g_cq g) ++ [i]) as Er by (by rewrite omap_app).
  rewrite lenZ_cons in *. constructor; rewrite ?Eo;
    cbn [e_rs e_mem e_k with_cq with_recv g_send g_done g_cq g_ctl q_send q_done q_cq q_recv q_mrs q_max_send q_max_recv]; rewrite ?Er, ?lenZ_snoc; try done; try lia.
  - rewrite s_cq, fmap_app, Hv. done.
  - intros Hst. specialize (s_rall Hst). lia.
  - split; [apply s_items|]. apply Forall_app. split; [apply s_items|by repeat constructor].
Qed.

Section Deliver.
Context (c d : rs_cfg) (e e' : ep rc) (g g' : side) (s s' o o' : list Z) (f f' : flow) (i : item) (l : list item).
Context (Hpc : pair_cfg c d) (Hp : pair_ok c d e e' g g' s s' o o' f f' 0) (Eg : g_send g = i :: l).
Let w := wr_of c d i.
Let m1 := poke (w_raddr w) (wr_bytes w (e_mem e)) (e_mem e').

Lemma head_ok : item_ok i.
Proof.
  destruct (s_items _ _ _ _ _ (p_side _ _ _ _ _ _ _ _ _ _ _ _ _ Hp)) as [Hi _]. unfold outs in Hi. rewrite Eg in Hi.
  apply Forall_app in Hi as [_ [_ Hi]%Forall_app]. by apply list.Forall_cons in Hi as [Hi _].
Qed.

Lemma pair_run f1 f1' v lr :
  w_op w = IBV_WR_RDMA_WRITE_WITH_IMM → w_imm w = swap32 (item_msg c i) → q_recv (e_k e') = v :: lr →
  permitted (q_mrs (e_k e')) (w_rkey w) (w_raddr w) (lenZ (wr_bytes w (e_mem e))) = true →
  same_on (sbuf d + sbuf_size d) 64 m1 (e_mem e') →
  flow_ok c d (tx (e_rs e)) (e_mem e) l (crecv (g_cq g)) (rx (e_rs e')) m1 (g_send g') (crecv (g_cq g') ++ [i]) s o' f1 →
  flow_ok d c (tx (e_rs e')) m1 (g_send g') (crecv (g_cq g') ++ [i]) (rx (e_rs e)) (e_mem e) l (crecv (g_cq g)) s' o f1' →
  ∃ e1 e1', deliver e e' = Some (e1, e1') ∧
    pair_ok c d e1 e1' (executed i l g) (mkSide (g_send g') (g_done g') (g_cq g' ++ [CRecv i]) (g_ctl g')) s s' o o' f1 f1' 0 ∧
    e_rs e1 = e_rs e ∧ e_rs e1' = e_rs e'.
Proof.
  intros Hop Himm Hv Hperm Hm Hf Hf'. pose proof Hp as [Hs Hs' _ _]. unfold deliver. rewrite (s_send _ _ _ _ _ Hs), Eg. cbn [fmap list_fmap].
  fold w. rewrite Hop, Hv, Hperm. eexists _, _. split; [reflexivity|]. split; [|done].
  constructor; cbn [e_rs e_mem e_k g_cq g_send executed]; rewrite ?omap_app; try done.
  - by apply side_executed.
  - rewrite Himm. apply (side_recv d c (mkEp (e_rs e') m1 (e_errno e') (e_k e')) g' 0 v lr i); [by apply side_mem|done|apply head_ok].
Qed.
End Deliver.

Lemma calm_executed i l g : g_send g = i :: l → calm g → plain i ∧ calm (executed i l g).
Proof.
  intros E (H1 & H2 & H3). rewrite E in H1. apply list.Forall_cons in H1 as [Hi Hl]. split; [done|]. split_and!; try done. cbn. apply Forall_app. split; [done|]. by repeat constructor.
Qed.
Lemma calm_arrived i g : plain i → calm g → calm (arrived i g).
Proof.
  intros Hi (H1 & H2 & H3). split_and!; try done. unfold arrived. cbn [g_cq]. rewrite fmap_app. apply Forall_app. split; [done|].
  destruct i; by repeat constructor.
Qed.
Lemma calm_completed i l g : g_done g = i :: l → calm g → calm (mkSide (g_send g) l (g_cq g ++ [CSent i]) (g_ctl g)).
Proof.
  intros E (H1 & H2 & H3). rewrite E in H2. apply list.Forall_cons in H2 as [Hi Hl]. split_and!; try done. cbn [g_cq]. rewrite fmap_app. apply Forall_app.
  split; [done|]. by repeat constructor.
Qed.

(** What the delivery, completion and polling of messages leave alone. *)
Definition same_end (f : flow) (g g' : side) (f1 : flow) (g1 g1' : side) : Prop :=
  f_s f1 = f_s f ∧ f_r f1 = f_r f ∧ f_g f1 = f_g f ∧
  cred_end f1 (crecv (g_cq g1)) (g_send g1') = cred_end f (crecv (g_cq g)) (g_send g').

Lemma poke_nil a m x n : same_on x n (poke a [] m) m.
Proof. intros i _. apply poke_out. rewrite lenZ_nil. lia. Qed.

Lemma permitted_in mrs key a n base len z : mrs !! key = Some (base, len) → z ≤ len → base ≤ a → a + n ≤ base + z → permitted mrs key a n = true.
Proof. intros E ? ? ?. unfold permitted. rewrite E. apply orb_true_iff. right. apply andb_true_iff. rewrite !Z.leb_le. lia. Qed.

(** Data is written to the receive buffer. *)
Lemma deliver_data c d e e' g g' s s' o o' f f' p n l :
  pair_cfg c d → pair_ok c d e e' g g' s s' o o' f f' 0 → g_send g = IData p n :: l → q_recv (e_k e') ≠ [] →
  ∃ e1 e1' f1, deliver e e' = Some (e1, e1') ∧
    pair_ok c d e1 e1' (executed (IData p n) l g) (arrived (IData p n) g') s s' o o' f1 f' 0 ∧
    e_rs e1 = e_rs e ∧ e_rs e1' = e_rs e' ∧
    same_end f g g' f1 (executed (IData p n) l g) (arrived (IData p n) g') ∧
    same_end f' g' g f' (arrived (IData p n) g') (executed (IData p n) l g).
Proof.
  intros Hpc Hp Eg Hr. destruct (q_recv (e_k e')) as [|v lr] eqn:Ev; [done|]. pose proof Hpc as [Hc Hd _ _]. pose proof Hp as [Hs Hs' Hf Hf'].
  pose proof (head_ok _ _ _ _ _ _ _ _ _ _ _ _ _ _ Hp Eg) as Hi. cbn in Hi. destruct (hsize_double d Hd) as [Hrb Hh]. rewrite Eg in Hf, Hf'.
  pose proof (fl_in_half _ _ _ _ _ _ _ _ _ _ _ _ _ Hf p n ltac:(left)) as Hin.
  pose proof (in_half_fits p n (hsize d) Hh ltac:(lia) Hin) as Hfit. rewrite <- Hrb in Hfit. pose proof (Z.mod_pos_bound p (rbuf_size d)) as Hpm.
  pose proof (ok_sbuf c Hc) as Hsb. pose proof (ok_sbuf d Hd) as Hsd. unfold RS_SNDLOWAT in Hsb, Hsd.
  assert (n ≤ sbuf_size c) as Hns.
  { destruct (s_bytes _ _ _ _ _ Hs) as [E1 E2], (s_items _ _ _ _ _ Hs) as [Hi' _]. unfold outs in E1, Hi'. rewrite Eg, !omap_app, !total_app in E1.
    apply Forall_app in Hi' as [H1 [H2 H3]%Forall_app]. rewrite Eg in H3. apply list.Forall_cons in H3 as [_ H3]. cbn in E1.
    pose proof (total_nonneg _ H1). pose proof (total_nonneg _ H2). pose proof (total_nonneg _ H3). unfold total in *. lia. }
  destruct (ring_bytes c p n (e_mem e)) as [Hlen Hbs]; [lia..|].
  pose proof (fl_snd _ _ _ _ _ _ _ _ _ _ _ _ _ Hf) as Ht. cbn in Ht. destruct Ht as (Ep & _ & Ht). apply tiles_le in Ht.
  pose proof (flow_data _ _ _ _ _ _ _ _ _ _ _ _ _ _ _ _ Hd Hf Hlen) as Hf1.
  assert (∀ j, 0 ≤ j < n → concat ((λ g0, peek (sge_addr g0) (sge_len g0) (e_mem e)) <$> ring_sgl c p n) !! Z.to_nat j = s !! Z.to_nat (p + j)) as Hb.
  { intros j Hj. rewrite Hbs by done. rewrite (fl_smem _ _ _ _ _ _ _ _ _ _ _ _ _ Hf) by lia. done. }
  specialize (Hf1 Hb).
  pose proof (ok_sbuf_rbuf d Hd) as Hd1. pose proof (ok_target_rbuf d Hd) as Hd2.
  edestruct (pair_run c d e e' g g' s s' o o' f f' (IData p n) l Hp Eg) as (e1 & e1' & Ed & Hp1 & Er1 & Er2); try done.
  - cbn. unfold wr_bytes. cbn. rewrite Hlen. destruct (s_mrs _ _ _ _ _ Hs') as [(z & Ez & Hz) _]. eapply permitted_in; [done|done|lia..].
  - cbn. apply same_on_poke. unfold wr_bytes. cbn. rewrite Hlen. lia.
  - eapply flow_frame; [exact Hd|exact Hc| | | |].
    + unfold wr_of, w_raddr, wr_bytes, w_data. apply same_on_poke. rewrite Hlen. lia.
    + unfold wr_of, w_raddr, wr_bytes, w_data. apply same_on_poke. rewrite Hlen. lia.
    + done.
    + eapply flow_items, Hf'; try done. rewrite omap_app. cbn. by rewrite app_nil_r.
  - exists e1, e1', (mkFlow (f_s f) (f_r f) (f_c f) (f_g f) (f_d f) (f_e f + n) (f_m f)). split; [done|]. split; [exact Hp1|].
    unfold same_end. split_and!; try done; unfold cred_end; cbn [f_c executed arrived g_cq g_send]; rewrite ?omap_app, ?Eg; cbn; by rewrite ?app_nil_r.
Qed.

Lemma deliver_cred c d e e' g g' s s' o o' f f' k h q l :
  pair_cfg c d → pair_ok c d e e' g g' s s' o o' f f' 0 → g_send g = ICred k h q :: l → q_recv (e_k e') ≠ [] →
  let i := ICred k h q in
  ∃ e1 e1' f1', deliver e e' = Some (e1, e1') ∧ pair_ok c d e1 e1' (executed i l g) (arrived i g') s s' o o' f f1' 0 ∧
    e_rs e1 = e_rs e ∧ e_rs e1' = e_rs e' ∧
    same_end f g g' f (executed i l g) (arrived i g') ∧ same_end f' g' g f1' (arrived i g') (executed i l g).
Proof.
  intros Hpc Hp Eg Hr i. destruct (q_recv (e_k e')) as [|v lr] eqn:Ev; [done|]. pose proof Hpc as [Hc Hd _ _]. pose proof Hp as [Hs Hs' Hf Hf'].
  rewrite Eg in Hf, Hf'. set (w := wr_of c d i). set (m1 := poke (w_raddr w) (wr_bytes w (e_mem e)) (e_mem e')).
  pose proof (ok_sbuf_target d Hd) as Hd1. pose proof (ok_target_rbuf d Hd) as Hd2.
  assert (∃ m2, (∀ a z, same_on a z m1 m2) ∧
    match h with
    | None => m2 = e_mem e'
    | Some j => load_sge (target_sgl d + (j mod 2) * 16) m2 = half_sge c j ∧
                (∀ a z, a + z ≤ target_sgl d + (j mod 2) * 16 ∨ target_sgl d + (j mod 2) * 16 + 16 ≤ a → same_on a z m2 (e_mem e'))
    end ∧ permitted (q_mrs (e_k e')) (w_rkey w) (w_raddr w) (lenZ (wr_bytes w (e_mem e))) = true) as (m2 & Hm12 & Hm2 & Hperm).
  { destruct h as [j|].
    - exists m1. split; [done|]. unfold m1, w, i, wr_of, w_raddr, w_rkey, wr_bytes, w_data. cbn [fmap list_fmap concat sge_addr sge_len]. rewrite app_nil_r.
      split; [split|].
      + rewrite load_sge_poke. apply (s_halves _ _ _ _ _ Hs k). rewrite Eg. left.
      + intros a z Ha. apply same_on_poke. rewrite lenZ_peek; lia.
      + rewrite lenZ_peek by lia. destruct (s_mrs _ _ _ _ _ Hs') as [_ (z & Ez & Hz)]. pose proof (Z.mod_pos_bound j 2). eapply permitted_in; [done|done|lia..].
    - exists (e_mem e'). split; [|done]. intros a z. apply poke_nil. }
  destruct (flow_cred _ _ _ _ m2 _ _ _ _ _ _ _ _ _ _ _ _ Hd Hc Hf' Hm2) as [fd Hf1].
  assert (∀ a z, a + z ≤ target_sgl d ∨ target_sgl d + 32 ≤ a → same_on a z m1 (e_mem e')) as Hout.
  { intros a z Ha. eapply same_on_trans; [apply Hm12|]. destruct h as [j|]; [|by rewrite Hm2]. apply Hm2. pose proof (Z.mod_pos_bound j 2). lia. }
  pose proof (ok_sbuf d Hd) as Hsd. unfold RS_SNDLOWAT in Hsd.
  edestruct (pair_run c d e e' g g' s s' o o' f f' i l Hp Eg) as (e1 & e1' & Ed & Hp1 & Er1 & Er2); try done.
  - by destruct h.
  - by destruct h.
  - apply Hout. lia.
  - eapply flow_frame; [exact Hc|exact Hd| | | |]; [done..|apply Hout; lia|].
    eapply flow_items, Hf; try done. rewrite omap_app. cbn. by rewrite app_nil_r.
  - eapply flow_frame; [exact Hd|exact Hc|apply Hm12|apply Hm12|done|exact Hf1].
  - eexists e1, e1', _. split; [done|]. split; [exact Hp1|]. unfold same_end, cred_end. cbn [f_s f_r f_g f_c executed arrived i g_cq g_send].
    rewrite !omap_app, Eg, <- app_assoc. cbn. done.
Qed.

Lemma deliver_ctl c d e e' g g' s s' o o' f f' x q l :
  pair_cfg c d → pair_ok c d e e' g g' s s' o o' f f' 0 → g_send g = ICtl x q :: l → q_recv (e_k e') ≠ [] →
  let i := ICtl x q in
  ∃ e1 e1', deliver e e' = Some (e1, e1') ∧ pair_ok c d e1 e1' (executed i l g) (arrived i g') s s' o o' f f' 0 ∧
    e_rs e1 = e_rs e ∧ e_rs e1' = e_rs e' ∧
    same_end f g g' f (executed i l g) (arrived i g') ∧ same_end f' g' g f' (arrived i g') (executed i l g).
Proof.
  intros Hpc Hp Eg Hr i. destruct (q_recv (e_k e')) as [|v lr] eqn:Ev; [done|]. pose proof Hpc as [Hc Hd _ _]. pose proof Hp as [Hs Hs' Hf Hf'].
  rewrite Eg in Hf, Hf'.
  edestruct (pair_run c d e e' g g' s s' o o' f f' i l Hp Eg) as (e1 & e1' & Ed & Hp1 & Er1 & Er2); try done.
  - apply poke_nil.
  - eapply flow_frame; [exact Hc|exact Hd| | | |]; [done..|apply poke_nil|].
    eapply flow_items, Hf; try done. rewrite omap_app. cbn. by rewrite app_nil_r.
  - eapply flow_frame; [exact Hd|exact Hc|apply poke_nil|apply poke_nil|done|].
    eapply flow_items, Hf'; try done. rewrite omap_app. cbn. by rewrite app_nil_r.
  - exists e1, e1'. split; [done|]. split; [exact Hp1|]. unfold same_end, cred_end. cbn [executed arrived i g_cq g_send].
    rewrite !omap_app, Eg. cbn. by rewrite app_nil_r.
Qed.

Lemma deliver_keep c d e e' g g' s s' o o' f f' q l :
  pair_cfg c d → pair_ok c d e e' g g' s s' o o' f f' 0 → g_send g = IKeep q :: l →
  let i := IKeep q in
  ∃ e1 e1', deliver e e' = Some (e1, e1') ∧ pair_ok c d e1 e1' (executed i l g) (arrived i g') s s' o o' f f' 0 ∧
    e_rs e1 = e_rs e ∧ e_rs e1' = e_rs e' ∧
    same_end f g g' f (executed i l g) (arrived i g') ∧ same_end f' g' g f' (arrived i g') (executed i l g).
Proof.
  intros Hpc Hp Eg i. pose proof Hpc as [Hc Hd _ _]. pose proof Hp as [Hs Hs' Hf Hf']. rewrite Eg in Hf, Hf'.
  unfold deliver. rewrite (s_send _ _ _ _ _ Hs), Eg. cbn [fmap list_fmap wr_of w_op]. eexists _, _. split; [reflexivity|].
  assert (arrived i g' = g') as Ea by (unfold arrived; cbn; rewrite app_nil_r; by destruct g').
  rewrite Ea. split; [|split_and!; try done; unfold same_end, cred_end; cbn; by rewrite Eg].
  constructor; cbn [e_rs e_mem e_k executed g_send g_cq].
  - by apply (side_executed c d e g 0 i l).
  - apply side_mem; [done|]. apply poke_nil.
  - eapply flow_frame; [exact Hc|exact Hd| | | |]; [done..|apply poke_nil|]. by eapply flow_items, Hf.
  - eapply flow_frame; [exact Hd|exact Hc|apply poke_nil|apply poke_nil|done|]. by eapply flow_items, Hf'.
Qed.

(** Whatever is first in the queue can be executed when the peer has a receive for it. *)
Lemma pair_deliver c d e e' g g' s s' o o' f f' i l :
  pair_cfg c d → pair_ok c d e e' g g' s s' o o' f f' 0 → g_send g = i :: l → (∃ q, i = IKeep q) ∨ q_recv (e_k e') ≠ [] →
  ∃ e1 e1' f1 f1', deliver e e' = Some (e1, e1') ∧ pair_ok c d e1 e1' (executed i l g) (arrived i g') s s' o o' f1 f1' 0 ∧
    e_rs e1 = e_rs e ∧ e_rs e1' = e_rs e' ∧
    same_end f g g' f1 (executed i l g) (arrived i g') ∧ same_end f' g' g f1' (arrived i g') (executed i l g).
Proof.
  intros Hpc Hp Eg Hr. destruct i as [p n|k h q|q|x q].
  - edestruct deliver_data as (e1 & e1' & f1 & H); try done; [by destruct Hr as [[]|]|]. by exists e1, e1', f1, f'.
  - edestruct deliver_cred as (e1 & e1' & f1' & H); try done; [by destruct Hr as [[]|]|]. by exists e1, e1', f, f1'.
  - edestruct deliver_keep as (e1 & e1' & H); try done. by exists e1, e1', f, f'.
  - edestruct deliver_ctl as (e1 & e1' & H); try done; [by destruct Hr as [[]|]|]. by exists e1, e1', f, f'.
Qed.

(** Only such work requests are executed. *)
Lemma deliver_inv c d e e' g g' s s' o o' f f' p :
  pair_ok c d e e' g g' s s' o o' f f' 0 → deliver e e' = Some p →
  ∃ i l, g_send g = i :: l ∧ ((∃ q, i = IKeep q) ∨ q_recv (e_k e') ≠ []).
Proof.
  intros [Hs _ _ _] E. unfold deliver in E. rewrite (s_send _ _ _ _ _ Hs) in E. destruct (g_send g) as [|i l]; [done|]. exists i, l. split; [done|].
  destruct (q_recv (e_k e')); [|by right]. left. destruct i as [|? []| |]; try done. by eexists.
Qed.
