(* ===== verification/RsPoll.v ===== *)
(** * Two connected rsockets: polling the completion queue *)

From S2P Require Import Prelude Layout FfTypes Attrs Request Cma Rsocket RsNet RsItems RsStream RsSteps.

#[local] Arguments load_sge : simpl never.
#[local] Arguments store_sge : simpl never.
#[local] Arguments rs_msg_set : simpl never.
#[local] Arguments outs : simpl never.

Ltac ep_simpl := cbn [e_rs e_mem e_k e_errno with_send with_done with_cq with_recv g_send g_done g_cq g_ctl
  q_send q_done q_cq q_recv q_mrs q_max_send q_max_recv].

(** Of the sender, the position, the message numbers and the current entry matter. *)
Lemma flow_tx c d t t1 m snd arr x m' snd' arr' sent got f :
  ssgl_addr t1 = ssgl_addr t → sseq_no t1 = sseq_no t → sseq_comp t1 = sseq_comp t → target_sge t1 = target_sge t →
  flow_ok c d t m snd arr x m' snd' arr' sent got f → flow_ok c d t1 m snd arr x m' snd' arr' sent got f.
Proof. intros E1 E2 E3 E4 []. constructor; rewrite ?E1, ?E2, ?E3, ?E4; done. Qed.

Definition popped (g : side) (l : list comp) : side := mkSide (g_send g) (g_done g) l (g_ctl g).
Definition unqueue (l : list rs_wc) (e : ep rc) : ep rc := mkEp (e_rs e) (e_mem e) (e_errno e) (with_cq l (e_k e)).

(** The counters after the completion of an item of our own. *)
Definition finish_rs (i : item) (r : rsocket) : rsocket :=
  match i with
  | IData _ n => back_send n r
  | ICtl x _ => let r := set_ctrl (ctrl_seqno r) (u32 (ctrl_max_seqno r + 1)) r in
                if Z.eqb x RS_CTRL_DISCONNECT then set_state rs_disconnected (rs_err r) r else r
  | _ => set_ctrl (ctrl_seqno r) (u32 (ctrl_max_seqno r + 1)) r
  end.

Lemma complete_send_run c i (e : ep rc) : cfg_ok c → item_ok i →
  complete_send (item_msg c i) true e = Ok ((), mkEp (finish_rs i (e_rs e)) (e_mem e) (e_errno e) (e_k e)).
Proof.
  intros Hc Hi. unfold complete_send. assert (rs_wr_data (item_msg c i) = item_msg c i) as ->.
  { unfold rs_wr_data. apply u32_id, item_msg_range. }
  rewrite item_msg_op, item_msg_data by done. destruct i as [p n|k h q|q|x q]; cbn [item_op item_data];
    unfold RS_OP_DATA, RS_OP_SGL, RS_OP_CTRL, RS_OP_IOMAP_SGL, RS_CTRL_KEEPALIVE; cbn [Z.eqb Pos.eqb]; rs_unfold; try done.
  cbn [finish_rs]. by destruct (Z.eqb x RS_CTRL_DISCONNECT).
Qed.

Lemma disconnected_not : has rs_disconnected rs_connected = false.
Proof. done. Qed.

Lemma finish_state i r : has (state (finish_rs i r)) rs_connected = true → has (state r) rs_connected = true.
Proof. destruct i as [p n|k h q|q|x q]; cbn; try done. destruct (Z.eqb x RS_CTRL_DISCONNECT); cbn; [by rewrite disconnected_not|done]. Qed.

Lemma seqZ_tail a n x l : x :: l = seqZ a n → lenZ l = n - 1 ∧ l = seqZ (a + 1) (n - 1).
Proof.
  intros E. destruct (Z.ltb_spec 0 n); [|by rewrite seqZ_nil in E by lia]. rewrite seqZ_cons in E by lia. injection E as _ ->.
  split; [|by f_equal; lia]. unfold lenZ. rewrite length_seqZ. lia.
Qed.

Lemma side_finish c d e g rcnt i l : side_ok c d e g rcnt → g_cq g = CSent i :: l →
  let e0 := unqueue (wc_of c d <$> l) e in
  side_ok c d (mkEp (finish_rs i (e_rs e)) (e_mem e0) (e_errno e0) (e_k e0)) (popped g l) rcnt.
Proof.
  intros [] Eg e0. assert (outs g = i :: outs (popped g l)) as Eo by (unfold outs; by rewrite Eg).
  rewrite Eo in *. rewrite Eg in *. cbn [omap list_omap recv_of] in s_rcnt, s_rall, s_items.
  destruct s_items as [Hit Hir]. apply list.Forall_cons in Hit as [Hi Hit].
  assert (cfg (finish_rs i (e_rs e)) = cfg (e_rs e) ∧ opts (finish_rs i (e_rs e)) = opts (e_rs e) ∧
          ctrl_seqno (finish_rs i (e_rs e)) = ctrl_seqno (e_rs e)) as (E1 & E2 & E3).
  { destruct i as [p n|k h q|q|x q]; cbn; try done. by destruct (Z.eqb x RS_CTRL_DISCONNECT). }
  assert (∀ B (h : item → option B), omap h (i :: outs (popped g l)) = omap h [i] ++ omap h (outs (popped g l))) as Eom.
  { intros B h. apply (omap_app h [i]). }
  assert (sqe_avail (tx (finish_rs i (e_rs e))) = sqe_avail (tx (e_rs e)) + lenZ (datas [i]) ∧
          sbuf_bytes_avail (tx (finish_rs i (e_rs e))) = sbuf_bytes_avail (tx (e_rs e)) + total (datas [i]) ∧
          ctrl_max_seqno (finish_rs i (e_rs e)) = u32 (g_ctl g + 4 - lenZ (slots (outs (popped g l))))) as (E4 & E5 & E6).
  { rewrite Eom, lenZ_app in s_seq. destruct s_seq as [_ Hmx].
    destruct i as [p n|k h q|q|x q]; cbn in Hmx |- *; rewrite ?Z.add_0_r; split_and!; try done; try lia;
      try (destruct (Z.eqb x RS_CTRL_DISCONNECT); done);
      try (destruct (Z.eqb x RS_CTRL_DISCONNECT)); cbn; rewrite Hmx, u32_add_l; f_equal; unfold lenZ; cbn; lia. }
  rewrite Eom, lenZ_app in s_sqe. rewrite Eom, lenZ_app in s_slots. rewrite Eom, total_app in s_bytes.
  pose proof (lenZ_nonneg (datas [i])). assert (0 ≤ total (datas [i])) by (apply total_nonneg; by repeat constructor).
  constructor; unfold e0, unqueue, popped; ep_simpl; fold (popped g l); unfold msg_send in *; rewrite ?E1, ?E2, ?E3; try done.
  - intros Hst%finish_state. by apply s_rall.
  - rewrite E4. lia.
  - rewrite E5. lia.
  - destruct s_slots as [Es Hn]. destruct i as [p n|k h q|q|x q]; cbn [omap list_omap slot_of] in Es, Hn;
      [done|change (lenZ [q]) with 1 in *..]; destruct (seqZ_tail _ _ _ _ Es) as [_ El]; (split; [rewrite El at 1; f_equal; lia|lia]).
  - rewrite E6. split; [apply s_seq|done].
Qed.

Lemma pair_finish c d e e' g g' s s' o o' f f' rcnt i l :
  pair_cfg c d → pair_ok c d e e' g g' s s' o o' f f' rcnt → g_cq g = CSent i :: l →
  ∃ e1, complete_send (item_msg c i) true (unqueue (wc_of c d <$> l) e) = Ok ((), e1) ∧
    pair_ok c d e1 e' (popped g l) g' s s' o o' f f' rcnt ∧ q_cq (e_k e1) = wc_of c d <$> l ∧
    same_end f g g' f (popped g l) g' ∧ same_end f' g' g f' g' (popped g l) ∧ (plain i → state (e_rs e1) = state (e_rs e)).
Proof.
  intros Hpc [Hs Hs' Hf Hf'] Eg. pose proof Hpc as [Hc Hd _ _]. rewrite Eg in Hf, Hf'. cbn [omap list_omap recv_of] in Hf, Hf'.
  assert (item_ok i) as Hi.
  { destruct (s_items _ _ _ _ _ Hs) as [H _]. unfold outs in H. rewrite Eg in H. cbn in H. by apply list.Forall_cons in H as [H _]. }
  eexists. split; [by apply complete_send_run|]. split; [|split; [done|]].
  - assert (rx (finish_rs i (e_rs e)) = rx (e_rs e)) as Ex by (destruct i as [|? ? ?|?|x ?]; cbn; try done; by destruct (Z.eqb x RS_CTRL_DISCONNECT)).
    constructor; unfold popped, unqueue; ep_simpl; rewrite ?Ex; try done; [exact (side_finish c d e g rcnt i l Hs Eg)|].
    eapply flow_tx, Hf; destruct i as [|? ? ?|?|x ?]; cbn; try done; by destruct (Z.eqb x RS_CTRL_DISCONNECT).
  - split; [|split; [|by destruct i]]; unfold same_end, cred_end, popped; ep_simpl; by rewrite ?Eg.
Qed.

(** ** Messages of the peer *)
Lemma last_cons {A} (x : A) l z : List.last (x :: l) z = List.last l x.
Proof. revert x z. induction l as [|y l IH]; intros x z; [done|]. rewrite IH. change (List.last (x :: y :: l) z) with (List.last (y :: l) z). by rewrite IH. Qed.

Lemma flow_credit c d t m snd arr x m' snd' arr' sent got f k h q :
  flow_ok c d t m snd (ICred k h q :: arr) x m' snd' arr' sent got f →
  flow_ok c d (mkTx (sseq_no t) (u16 k) (sqe_avail t) (sbuf_bytes_avail t) (ssgl_addr t) (target_sge t)) m snd arr x m' snd' arr' sent got
    (mkFlow (f_s f) (f_r f) k (f_g f) (f_d f) (f_e f) (f_m f)).
Proof.
  intros []. cbn [omap list_omap cred_of app climbs] in fl_climbs, fl_due. destruct fl_climbs as [Hk Hcl].
  constructor; cbn [f_s f_r f_c f_g f_d f_e f_m ssgl_addr sseq_no sseq_comp target_sge]; try done.
  - split; [done|]. lia.
  - rewrite fl_due. f_equal. by rewrite last_cons.
Qed.

Lemma sum_snoc l n : sum (l ++ [n]) = sum l + n.
Proof. unfold sum. induction l as [|a l IH]; cbn in *; lia. Qed.

Lemma flow_push c d t m snd arr r m' snd' arr' sent got f p n :
  cfg_ok d → cfg r = d → flow_ok c d t m snd arr (rx r) m' snd' (IData p n :: arr') sent got f →
  0 ≤ rmsg_tail (rx r) < lenZ (rmsg (rx r)) ∧
  flow_ok c d t m snd arr (rx (push_msg (mkMsg RS_OP_DATA n) r)) m' snd' arr' sent got
    (mkFlow (f_s f) (f_r f) (f_c f) (f_g f) (f_d f) (f_e f) (f_m f ++ [n])).
Proof.
  intros Hd Hr []. pose proof (climbs_le _ _ _ fl_climbs) as Hle. cbn in fl_arr, fl_count. destruct fl_arr as (Hp & Hn & Ht). rewrite lenZ_cons in fl_count.
  pose proof (lenZ_nonneg (datas arr')). pose proof (lenZ_nonneg (datas snd)).
  assert (lenZ (mkMsg RS_OP_DATA <$> f_m f) = lenZ (f_m f)) as El by (unfold lenZ; by rewrite length_fmap).
  destruct (ring_push _ _ _ _ _ (mkMsg RS_OP_DATA n) fl_ring) as [Ht' Hring]; [lia|].
  pose proof (ring_len _ _ _ _ _ fl_ring). split; [lia|]. cbn [push_msg set_rx rx].
  constructor; cbn [f_s f_r f_c f_g f_d f_e f_m rseq_no rseq_comp rbuf_bytes_avail rbuf_free_offset rbuf_offset remote_sge rmsg rmsg_head rmsg_tail]; try done.
  - unfold next_msg. rewrite Hr, ring_next, fmap_app by done. done.
  - apply Forall_app. split; [done|by repeat constructor].
  - rewrite sum_snoc. by replace (lenZ got + (sum (f_m f) + n)) with (lenZ got + sum (f_m f) + n) by lia.
  - rewrite lenZ_snoc. lia.
Qed.

Lemma side_take c d e g rcnt i l r' : side_ok c d e g rcnt → g_cq g = CRecv i :: l →
  cfg r' = cfg (e_rs e) → opts r' = opts (e_rs e) → sqe_avail (tx r') = sqe_avail (tx (e_rs e)) →
  sbuf_bytes_avail (tx r') = sbuf_bytes_avail (tx (e_rs e)) → ctrl_seqno r' = ctrl_seqno (e_rs e) →
  ctrl_max_seqno r' = ctrl_max_seqno (e_rs e) → (has (state r') rs_connected = true → has (state (e_rs e)) rs_connected = true) →
  side_ok c d (mkEp r' (e_mem e) (e_errno e) (with_cq (wc_of c d <$> l) (e_k e))) (popped g l) (rcnt + 1).
Proof.
  intros [] Eg E1 E2 E3 E4 E5 E6 Hst. assert (outs (popped g l) = outs g) as Eo by (unfold outs; by rewrite Eg).
  rewrite Eg in s_rcnt, s_rall, s_items. cbn [omap list_omap recv_of] in s_rcnt, s_rall, s_items. rewrite lenZ_cons in s_rcnt, s_rall.
  constructor; rewrite ?Eo; unfold popped; ep_simpl; unfold msg_send in *; rewrite ?E1, ?E2, ?E3, ?E4, ?E5, ?E6; try done; try lia.
  - intros H%Hst. specialize (s_rall H). lia.
  - split; [apply s_items|]. by destruct s_items as [_ [_ ?]%list.Forall_cons].
Qed.

Definition after_recv (c d : rs_cfg) (e1 e' : ep rc) (g g' : side) (s s' o o' : list Z) (f f' : flow) (rcnt : Z) (l : list comp) (stop : bool) : Prop :=
  ∃ f1 f1', pair_ok c d e1 e' (popped g l) g' s s' o o' f1 f1' (rcnt + 1) ∧ q_cq (e_k e1) = wc_of c d <$> l ∧
    same_end f g g' f1 (popped g l) g' ∧ same_end f' g' g f1' g' (popped g l) ∧
    (stop = true → has (state (e_rs e1)) rs_connected = false).

(** Only the state changes. *)
Lemma receive_state c d e e' g g' s s' o o' f f' rcnt i l st stop :
  pair_ok c d e e' g g' s s' o o' f f' rcnt → g_cq g = CRecv i :: l →
  data_of i = None → cred_of i = None →
  (has st rs_connected = true → has (state (e_rs e)) rs_connected = true) → (stop = true → has st rs_connected = false) →
  after_recv c d (mkEp (set_state st (rs_err (e_rs e)) (e_rs e)) (e_mem e) (e_errno e) (with_cq (wc_of c d <$> l) (e_k e))) e' g g' s s' o o' f f' rcnt l stop.
Proof.
  intros [Hs Hs' Hf Hf'] Eg Hd Hc Hst Hstop. rewrite Eg in Hf, Hf'. cbn [omap list_omap recv_of] in Hf, Hf'.
  exists f, f'. split; [|unfold same_end; split_and!; try done; unfold cred_end, popped; ep_simpl; rewrite Eg; cbn [omap list_omap recv_of]; by rewrite ?Hc].
  constructor; unfold popped; ep_simpl; try done.
  - by eapply side_take.
  - eapply flow_items, Hf; try done. cbn. by rewrite Hc.
  - eapply flow_items, Hf'; try done. cbn. by rewrite Hd.
Qed.

Lemma pair_receive c d e e' g g' s s' o o' f f' rcnt i l :
  pair_cfg c d → pair_ok c d e e' g g' s s' o o' f f' rcnt → g_cq g = CRecv i :: l →
  ∃ stop e1, receive_msg (item_msg d i) (unqueue (wc_of c d <$> l) e) = Ok (stop, e1) ∧
    (plain i → stop = false ∧ state (e_rs e1) = state (e_rs e)) ∧ after_recv c d e1 e' g g' s s' o o' f f' rcnt l stop.
Proof.
  intros Hpc Hp Eg. pose proof Hp as [Hs Hs' Hf Hf']. pose proof Hpc as [Hc Hd _ _].
  assert (item_ok i) as Hi.
  { destruct (s_items _ _ _ _ _ Hs) as [_ H]. rewrite Eg in H. cbn in H. by apply list.Forall_cons in H as [H _]. }
  rewrite Eg in Hf, Hf'. cbn [omap list_omap recv_of] in Hf, Hf'.
  unfold receive_msg. rewrite item_msg_op, item_msg_data by done. unfold unqueue. rs_unfold.
  destruct i as [p n|k h q|q|x q]; cbn [item_op item_data]; unfold RS_OP_SGL, RS_OP_IOMAP_SGL, RS_OP_CTRL, RS_OP_WRITE;
    cbn [Z.eqb Pos.eqb].
  - destruct (flow_push _ _ _ _ _ _ (e_rs e) _ _ _ _ _ _ _ _ Hc (s_cfg _ _ _ _ _ Hs) Hf') as [Hb Hpush].
    unfold in_bounds. destruct (Z.leb_spec 0 (rmsg_tail (rx (e_rs e)))), (Z.ltb_spec (rmsg_tail (rx (e_rs e))) (lenZ (rmsg (rx (e_rs e))))); try lia.
    cbn [andb rbind]. eexists _, _. split; [reflexivity|]. split; [done|].
    exists f, (mkFlow (f_s f') (f_r f') (f_c f') (f_g f') (f_d f') (f_e f') (f_m f' ++ [n])).
    split; [|split; [done|]; unfold same_end, cred_end, popped; ep_simpl; by rewrite Eg].
    constructor; unfold popped; ep_simpl; try done.
    + by apply (side_take c d e g rcnt (IData p n)).
    + by eapply flow_items, Hf.
  - eexists _, _. split; [reflexivity|]. split; [done|].
    exists (mkFlow (f_s f) (f_r f) k (f_g f) (f_d f) (f_e f) (f_m f)), f'.
    split; [|split; [done|]; unfold same_end, cred_end, popped; ep_simpl; rewrite Eg; cbn [omap list_omap recv_of cred_of app f_c f_s f_r f_g]; rewrite ?last_cons; done].
    constructor; unfold popped; ep_simpl; try done.
    + by apply (side_take c d e g rcnt (ICred k h q)).
    + pose proof (flow_credit _ _ _ _ _ _ _ _ _ _ _ _ _ _ _ _ Hf) as H1. cbn [set_sseq_comp set_tx tx].
      by rewrite u16_add_l, Z.sub_add.
    + by eapply flow_items, Hf'.
  - eexists _, _. split; [reflexivity|]. split; [done|].
    assert (set_state (state (e_rs e)) (rs_err (e_rs e)) (e_rs e) = e_rs e) as Er by (by destruct (e_rs e)).
    assert (after_recv c d (mkEp (set_state (state (e_rs e)) (rs_err (e_rs e)) (e_rs e)) (e_mem e) (e_errno e) (with_cq (wc_of c d <$> l) (e_k e)))
              e' g g' s s' o o' f f' rcnt l false) as H by (by apply receive_state with (IKeep q)).
    by rewrite Er in H.
  - destruct Hi as [-> | ->]; cbn [Z.eqb].
    + unfold RS_CTRL_SHUTDOWN, RS_CTRL_DISCONNECT. cbn [Z.eqb Pos.eqb]. destruct (has (state (e_rs e)) rs_writable); cbn [rbind e_rs];
        (eexists _, _; split; [reflexivity|]; split; [done|]; eapply (receive_state c d e); try done). apply has_land.
    + eexists _, _. split; [reflexivity|]. split; [done|]. by eapply (receive_state c d e).
Qed.

(** ** The loop *)
Lemma same_end_refl f g g' : same_end f g g' f g g'.
Proof. done. Qed.
Lemma same_end_trans f g g' f1 g1 g1' f2 g2 g2' : same_end f g g' f1 g1 g1' → same_end f1 g1 g1' f2 g2 g2' → same_end f g g' f2 g2 g2'.
Proof. unfold same_end. intros (-> & -> & -> & ->) (-> & -> & -> & ->). done. Qed.

Section Poll.
Context (c d : rs_cfg) (e' : ep rc) (g' : side) (s s' o o' : list Z) (Hpc : pair_cfg c d).
Implicit Types (e : ep rc) (g : side) (f : flow).

(** The state after a poll: the peer and the posted work are as before. *)
Definition polled (e : ep rc) (g : side) (f f' : flow) (e1 : ep rc) (g1 : side) (n : Z) : Prop :=
  ∃ f1 f1', pair_ok c d e1 e' g1 g' s s' o o' f1 f1' n ∧ same_end f g g' f1 g1 g' ∧ same_end f' g' g f1' g' g1 ∧
    g_send g1 = g_send g ∧ g_done g1 = g_done g ∧ (calm g → calm g1 ∧ state (e_rs e1) = state (e_rs e)).

Lemma poll_some e g rcnt k l : side_ok c d e g rcnt → g_cq g = k :: l →
  poll_cq e = Ok ((1, wc_of c d k), unqueue (wc_of c d <$> l) e).
Proof. intros Hs Eg. unfold poll_cq. cbn. by rewrite (s_cq _ _ _ _ _ Hs), Eg. Qed.

Lemma poll_none e g rcnt : side_ok c d e g rcnt → g_cq g = [] → ∃ w, poll_cq e = Ok ((0, w), e).
Proof. intros Hs Eg. unfold poll_cq. cbn. rewrite (s_cq _ _ _ _ _ Hs), Eg. eexists. by destruct e. Qed.

Lemma polled_trans e g f f' e1 g1 f1 f1' e2 g2 n : same_end f g g' f1 g1 g' → same_end f' g' g f1' g' g1 →
  g_send g1 = g_send g → g_done g1 = g_done g → (calm g → calm g1 ∧ state (e_rs e1) = state (e_rs e)) →
  polled e1 g1 f1 f1' e2 g2 n → polled e g f f' e2 g2 n.
Proof.
  intros H1 H2 E1 E2 H5 (f2 & f2' & Hp & H3 & H4 & E3 & E4 & H6). exists f2, f2'. rewrite E3, E4, E1, E2.
  split_and!; try done; try (by eapply same_end_trans). intros [Hg <-]%H5. by apply H6.
Qed.

Lemma calm_popped g k l : g_cq g = k :: l → calm g → plain (comp_item k) ∧ calm (popped g l).
Proof. intros E (H1 & H2 & H3). rewrite E in H3. by apply list.Forall_cons in H3 as [Hk Hl]. Qed.

(** Receives of a socket that is not connected are not posted again. *)
Lemma polled_drop e g f f' e1 g1 n : 0 ≤ n → has (state (e_rs e1)) rs_connected = false →
  polled e g f f' e1 g1 n → polled e g f f' e1 g1 0.
Proof.
  intros Hn Hst (f1 & f1' & [Hs Hs' Hf Hf'] & H). exists f1, f1'. split; [|done]. constructor; try done.
  destruct Hs. constructor; try done; [lia|]. by rewrite Hst.
Qed.

Lemma drain_run fuel : ∀ e g f f' rcnt, pair_ok c d e e' g g' s s' o o' f f' rcnt → 0 ≤ rcnt →
  (drain_cq fuel rcnt e = OutOfFuel ∧ Z.of_nat fuel ≤ lenZ (g_cq g)) ∨
  ∃ res e1 g1 n, drain_cq fuel rcnt e = Ok (res, e1) ∧ 0 ≤ n ∧ polled e g f f' e1 g1 n ∧
    match res with
    | Some (ret, k) => ret = 0 ∧ k = n ∧ g_cq g1 = []
    | None => has (state (e_rs e1)) rs_connected = false
    end.
Proof.
  induction fuel as [|fuel IH]; intros e g f f' rcnt Hp Hr; [left; split; [done|apply lenZ_nonneg]|].
  pose proof Hp as [Hs _ _ _]. cbn [drain_cq]. unfold mbind, R_bind. destruct (g_cq g) as [|k l] eqn:Eg.
  { right. destruct (poll_none _ _ _ Hs Eg) as [w ->]. cbn [rbind]. eexists _, e, g, rcnt. split; [reflexivity|]. split; [done|]. split; [|done].
    exists f, f'. done. }
  rewrite (poll_some _ _ _ _ _ Hs Eg). cbn [rbind]. change (Z.ltb 0 1) with true. cbn [negb].
  rewrite lenZ_cons. destruct k as [i|i].
  - cbn [wc_of c_id c_ok]. rewrite item_msg_not_recv. destruct (pair_finish _ _ _ _ _ _ _ _ _ _ _ _ _ _ _ Hpc Hp Eg) as (e1 & -> & Hp1 & Hq & Hs1 & Hs2 & Hst).
    assert (calm g → calm (popped g l) ∧ state (e_rs e1) = state (e_rs e)) as Hcalm.
    { intros [Hk Hl]%(calm_popped _ _ _ Eg). split; [done|]. by apply Hst. }
    cbn [rbind]. destruct (IH e1 (popped g l) f f' rcnt Hp1 Hr) as [[Ef Hl]|(res & e2 & g2 & n & Er & Hn & Hpol & Hres)].
    + left. split; [done|]. cbn in Hl. lia.
    + right. exists res, e2, g2, n. split_and!; try done. by eapply polled_trans.
  - cbn [wc_of c_id c_ok]. change (rs_wr_is_recv (rs_recv_wr_id 0)) with true. cbn [negb].
    destruct (pair_receive _ _ _ _ _ _ _ _ _ _ _ _ _ _ _ Hpc Hp Eg) as (stop & e1 & E & Hst & f1 & f1' & Hp1 & Hq & Hs1 & Hs2 & Hstop).
    assert (calm g → calm (popped g l) ∧ state (e_rs e1) = state (e_rs e)) as Hcalm.
    { intros [Hk Hl]%(calm_popped _ _ _ Eg). split; [done|]. by apply Hst. }
    unfold wc_msg. cbn [c_imm]. rewrite swap32_involutive by apply item_msg_range. unfold gets. cbn [rbind]. rewrite E. cbn [rbind].
    destruct stop.
    + right. exists None, e1, (popped g l), (rcnt + 1). split; [done|]. split; [lia|]. split; [|auto]. by exists f1, f1'.
    + destruct (IH e1 (popped g l) f1 f1' (rcnt + 1) Hp1) as [[Ef Hl]|(res & e2 & g2 & n & Er & Hn & Hpol & Hres)]; [lia|..].
      * left. split; [done|]. cbn in Hl. lia.
      * right. exists res, e2, g2, n. split_and!; try done. by eapply polled_trans.
Qed.

(** The receives are posted again. *)
Lemma repost_run n : ∀ e g f f', pair_ok c d e e' g g' s s' o o' f f' (Z.of_nat n) →
  ∃ e1, repost n e = Ok (0, e1) ∧ pair_ok c d e1 e' g g' s s' o o' f f' 0 ∧ e_rs e1 = e_rs e.
Proof.
  induction n as [|n IH]; intros e g f f' Hp; [by exists e|].
  pose proof Hp as [Hs Hs' Hf Hf']. cbn [repost]. unfold rs_post_recv. rs_unfold. rewrite (proj1 (s_opts _ _ _ _ _ Hs)). cbn [negb rbind d_post_recv rc_env].
  assert (recvs_used (e_k e) < q_max_recv (e_k e)) as Hu.
  { unfold recvs_used. destruct Hs. rewrite s_cq, filter_recv, (proj2 s_max). lia. }
  destruct (Z.ltb_spec (recvs_used (e_k e)) (q_max_recv (e_k e))); [|lia]. cbn [Z.eqb rbind].
  destruct (IH (mkEp (e_rs e) (e_mem e) (e_errno e) (with_recv (q_recv (e_k e) ++ [mkRecv (rs_recv_wr_id 0) None]) (e_k e))) g f f') as (e1 & Er & Hp1 & Hrs).
  - constructor; try done. destruct Hs. constructor; ep_simpl; rewrite ?lenZ_snoc; try done; try lia.
    + apply Forall_app. split; [done|]. by repeat constructor.
    + intros H1. specialize (s_rall H1). lia.
  - exists e1. by split_and!.
Qed.

(** Polling: it can only fail to end for lack of fuel, when there are more completions. *)
Lemma pair_poll fuel e g f f' : pair_ok c d e e' g g' s s' o o' f f' 0 →
  (rs_poll_cq fuel e = OutOfFuel ∧ Z.of_nat fuel ≤ lenZ (g_cq g)) ∨
  ∃ e1 g1, rs_poll_cq fuel e = Ok (0, e1) ∧ polled e g f f' e1 g1 0 ∧ (has (state (e_rs e1)) rs_connected = true → g_cq g1 = []).
Proof.
  intros Hp. unfold rs_poll_cq, mbind, R_bind. destruct (drain_run fuel e g f f' 0 Hp) as [[-> Hl]|(res & e1 & g1 & n & -> & Hn & Hpol & Hres)]; [lia|by left|].
  right. cbn [rbind]. destruct res as [[ret k]|].
  - destruct Hres as (-> & -> & Hcq). unfold rs_get, gets, id. cbn [rbind]. destruct (has (state (e_rs e1)) rs_connected) eqn:Est.
    + destruct Hpol as (f1 & f1' & Hp1 & Hs1 & Hs2 & E1 & E2 & Hcalm). cbn [Z.eqb]. rewrite <- (Z2Nat.id n) in Hp1 by done.
      destruct (repost_run _ _ _ _ _ Hp1) as (e2 & -> & Hp2 & Ers). cbn [rbind Z.eqb negb]. exists e2, g1. split; [done|]. split; [|done].
      exists f1, f1'. by rewrite Ers.
    + exists e1, g1. split; [done|]. split; [|by rewrite Est]. by apply polled_drop with n.
  - exists e1, g1. split; [done|]. split; [|by rewrite Hres]. by apply polled_drop with n.
Qed.
End Poll.
