(* ===== verification/RsConn.v ===== *)
(** * rsocket: setting up a connection

    [librdmacm/src/rsocket.c]: the endpoint's queues and buffers ([rs_create_ep]), the data the two sides
    exchange ([rs_format_conn_data], [rs_save_conn_data]) and the steps of [rs_do_connect].
    The connection manager and the registration of memory are the class [RsSetup]. *)

From S2P Require Import Prelude Layout FfTypes Attrs Request Cma Rsocket.

(** ** Sizes in eight bits *)
Definition rs_value_to_scale (value bits : Z) : Z :=
  if Z.leb value (Z.shiftl 1 (bits - 1)) then value else Z.lor (Z.shiftl 1 (bits - 1)) (Z.shiftr value bits).
Definition rs_scale_to_value (value bits : Z) : Z :=
  if Z.leb value (Z.shiftl 1 (bits - 1)) then value else Z.shiftl (Z.land value (Z.lnot (Z.shiftl 1 (bits - 1)))) bits.

(** ** Connection data

    [struct rs_conn_data]; the members are as they are in memory, in network order. *)
Record rs_conn_data := mkConn {
  cn_version : Z; cn_flags : Z; cn_credits : Z; cn_iomap_size : Z; cn_target_sgl : rs_sge; cn_data_buf : rs_sge
}.
Definition RS_CONN_FLAG_NET : Z := 1.
Definition RS_CONN_FLAG_IOMAP : Z := 2.

(** [rs_host_is_net()]: the hosts are little-endian. *)
Definition rs_host_is_net : bool := false.

Definition net_sge (g : rs_sge) : rs_sge := mkRsSge (swap64 (sg_addr g)) (swap32 (sg_key g)) (swap32 (sg_length g)).

Definition rs_format_conn_data (r : rsocket) : rs_conn_data :=
  mkConn 1 (Z.lor RS_CONN_FLAG_IOMAP (if rs_host_is_net then RS_CONN_FLAG_NET else 0)) (swap16 (rq_size (cfg r)))
    (u8 (rs_value_to_scale (target_iomap_size (cfg r)) 8))
    (net_sge (mkRsSge (target_sgl (cfg r)) (target_rkey (cfg r)) RS_SGL_SIZE))
    (net_sge (mkRsSge (rbuf (cfg r)) (rmr_rkey (cfg r)) (half r))).

Definition set_remote (g io : rs_sge) (c : rs_cfg) : rs_cfg :=
  mkCfg (sbuf_size c) (rbuf_size c) (sq_size c) (rq_size c) (sq_inline c) (sbuf c) (rbuf c) (target_sgl c) (smr_lkey c) (rmr_lkey c)
        (rmr_rkey c) (target_rkey c) (target_iomap_size c) g io.
Definition set_remote_sge (v : Z) (x : rs_rx) : rs_rx :=
  mkRx (rseq_no x) (rseq_comp x) (rbuf_bytes_avail x) (rbuf_free_offset x) (rbuf_offset x) (rbuf_msg_index x) v (rmsg_head x) (rmsg_tail x) (rmsg x).

(** What the environment does at set-up: [d_reg] registers the memory of one of the three regions and gives
    its address and keys; the calls of the connection manager give an error number;
    [d_private_data] is the data in the event they leave. *)
Inductive region := SMR | TARGET_MR | RMR.
Class RsSetup (K : Type) := {
  d_max_qpsize : K → Z;
  d_iwarp : K → bool;
  d_create_channel : K → Z * K;
  d_create_cq : Z → K → Z * K;
  d_set_nonblock : K → Z * K;
  d_destroy_cq : K → K;
  d_destroy_channel : K → K;
  d_create_qp : Z → Z → Z → K → Z * K;
  d_reg : region → Z → mem → K → option (Z * Z * Z) * Z * mem * K;
  d_resolve_addr : Z → K → Z * K;
  d_resolve_route : Z → K → Z * K;
  d_set_path : list Z → K → Z * K;
  d_complete : K → Z * K;
  d_connect : rs_conn_data → Z → K → Z * K;
  d_clear_nonblock : K → K;
  d_private_data : K → rs_conn_data
}.

Section Setup.
Context {K : Type} `{!RsEnv K, !RsSetup K}.
Implicit Types (r : rsocket).

(** A call that gives an error number sets [errno] and gives -1. *)
Definition call (f : K → Z * K) : R K Z := e ← dev f; seterrno e.

(** ** The endpoint *)
Definition rs_set_qp_size : R K () :=
  k ← gets e_k;
  let max_size := u16 (Z.min (d_max_qpsize k) RS_QP_MAX_SIZE) in
  let clamp n := if Z.ltb max_size n then max_size else if Z.ltb n RS_QP_MIN_SIZE then RS_QP_MIN_SIZE else n in
  rs_set (set_cfg (λ c, mkCfg (sbuf_size c) (rbuf_size c) (clamp (sq_size c)) (clamp (rq_size c)) (sq_inline c) (sbuf c) (rbuf c)
                          (target_sgl c) (smr_lkey c) (rmr_lkey c) (rmr_rkey c) (target_rkey c) (target_iomap_size c)
                          (remote_sgl c) (remote_iomap c))).

Definition rs_create_cq : R K Z :=
  r ← rs_get id;
  ret ← call d_create_channel;
  if negb (Z.eqb ret 0) then mret (-1)
  else
    ret ← call (d_create_cq (sq_size (cfg r) + rq_size (cfg r)));
    if negb (Z.eqb ret 0) then dev_ d_destroy_channel ;; mret (-1)
    else
      ret ← (if has (fd_flags r) O_NONBLOCK then call d_set_nonblock else mret 0);
      if negb (Z.eqb ret 0) then dev_ d_destroy_cq ;; dev_ d_destroy_channel ;; mret (-1)
      else dev_ d_req_notify ;; mret 0.

(** The region's address and keys, or nothing and [errno] set. *)
Definition reg (g : region) (len : Z) : R K (option (Z * Z * Z)) := λ s,
  let '(o, e, m, k) := d_reg g len (e_mem s) (e_k s) in
  Ok (o, mkEp (e_rs s) m (match o with Some _ => e_errno s | None => e end) k).

Definition set_smr (a lkey : Z) (c : rs_cfg) : rs_cfg :=
  mkCfg (sbuf_size c) (rbuf_size c) (sq_size c) (rq_size c) (sq_inline c) a (rbuf c) (target_sgl c) lkey (rmr_lkey c)
        (rmr_rkey c) (target_rkey c) (target_iomap_size c) (remote_sgl c) (remote_iomap c).
Definition set_target_mr (a rkey : Z) (c : rs_cfg) : rs_cfg :=
  mkCfg (sbuf_size c) (rbuf_size c) (sq_size c) (rq_size c) (sq_inline c) (sbuf c) (rbuf c) a (smr_lkey c) (rmr_lkey c)
        (rmr_rkey c) rkey (target_iomap_size c) (remote_sgl c) (remote_iomap c).
Definition set_rmr (a lkey rkey : Z) (c : rs_cfg) : rs_cfg :=
  mkCfg (sbuf_size c) (rbuf_size c) (sq_size c) (rq_size c) (sq_inline c) (sbuf c) a (target_sgl c) (smr_lkey c) lkey
        rkey (target_rkey c) (target_iomap_size c) (remote_sgl c) (remote_iomap c).
Definition set_inline (n : Z) (c : rs_cfg) : rs_cfg :=
  mkCfg (sbuf_size c) (rbuf_size c) (sq_size c) (rq_size c) n (sbuf c) (rbuf c) (target_sgl c) (smr_lkey c) (rmr_lkey c)
        (rmr_rkey c) (target_rkey c) (target_iomap_size c) (remote_sgl c) (remote_iomap c).

Definition target_len r : Z := sizeof S_rs_sge * RS_SGL_SIZE + sizeof S_rs_iomap * target_iomap_size (cfg r).

(** The counters at the end of [rs_init_bufs]. *)
Definition init_counters r : rsocket :=
  set_rx (λ x, mkRx (rseq_no x) (Z.shiftr (rq_size (cfg r)) 1) (half r) (half r) (rbuf_offset x) (rbuf_msg_index x)
                    (remote_sge x) (rmsg_head x) (rmsg_tail x) (rmsg x))
    (set_tx (λ t, mkTx (sseq_no t) (sseq_comp t) (sq_size (cfg r) - ctrl_max_seqno r) (sbuf_size (cfg r)) (sbuf (cfg r)) (target_sge t)) r).

(** The result of registering the target list is not tested: its address is used at once. *)
Definition rs_init_bufs : R K Z :=
  rs_set (λ r, set_rx (λ x, mkRx (rseq_no x) (rseq_comp x) (rbuf_bytes_avail x) (rbuf_free_offset x) (rbuf_offset x) (rbuf_msg_index x)
                              (remote_sge x) (rmsg_head x) (rmsg_tail x) (replicate (Z.to_nat (rq_size (cfg r) + 1)) (mkMsg 0 0))) r) ;;
  r ← rs_get id;
  o ← reg SMR (u32 (sbuf_size (cfg r) + RS_MAX_CTRL_MSG * RS_QP_CTRL_SIZE));
  match o with
  | None => mret (-1)
  | Some (a, lkey, _) =>
      rs_set (set_cfg (set_smr a lkey)) ;;
      o ← reg TARGET_MR (target_len r);
      '(a, _, rkey) ← lift (deref "target_buffer_list" o);
      rs_set (set_cfg (set_target_mr a rkey)) ;;
      mem_set (poke a (replicate (Z.to_nat (target_len r)) 0)) ;;
      o ← reg RMR (u32 (rbuf_size (cfg r) + rq_size (cfg r) * RS_MSG_SIZE));
      match o with
      | None => mret (-1)
      | Some (a, lkey, rkey) => rs_set (set_cfg (set_rmr a lkey rkey)) ;; rs_set init_counters ;; mret 0
      end
  end.

Definition rs_create_ep : R K Z :=
  rs_set_qp_size ;;
  k ← gets e_k;
  (if d_iwarp k then rs_set (λ r, set_opts (Z.lor (opts r) RS_OPT_MSG_SEND) r) else mret ()) ;;
  ret ← rs_create_cq;
  if negb (Z.eqb ret 0) then mret ret
  else
    r ← rs_get id;
    ret ← call (d_create_qp (sq_size (cfg r)) (rq_size (cfg r)) (sq_inline (cfg r)));
    if negb (Z.eqb ret 0) then mret ret
    else
      rs_set (set_cfg (set_inline 0)) ;;
      r ← rs_get id;
      if msg_send r && Z.ltb (sq_inline (cfg r)) RS_MSG_SIZE then ERR ENOTSUP
      else
        ret ← rs_init_bufs;
        if negb (Z.eqb ret 0) then mret ret
        else repost (Z.to_nat (rq_size (cfg r))).

(** [rs_save_conn_data]: with the peer's byte order other than ours, [opts] is overwritten. *)
Definition rs_save_conn_data (conn : rs_conn_data) : R K () :=
  let g := net_sge (cn_target_sgl conn) in
  let io := mkRsSge (sg_addr g + sizeof S_rs_sge * sg_length g) (sg_key g) (rs_scale_to_value (cn_iomap_size conn) 8) in
  rs_set (λ r, set_cfg (λ c, set_remote g (if has (cn_flags conn) RS_CONN_FLAG_IOMAP then io else remote_iomap c) c) r) ;;
  rs_set (set_rx (set_remote_sge 1)) ;;
  (if xorb rs_host_is_net (has (cn_flags conn) RS_CONN_FLAG_NET) then rs_set (set_opts RS_OPT_SWAP_SGL) else mret ()) ;;
  r ← rs_get id;
  mem_set (store_sge (target_sgl (cfg r)) (net_sge (cn_data_buf conn))) ;;
  rs_set (set_sseq_comp (swap16 (cn_credits conn))).

(** ** Connecting *)
Definition again (errno : Z) : bool := Z.eqb errno EAGAIN || Z.eqb errno EWOULDBLOCK.
Definition put_state (st : Z) : R K () := rs_set (λ r, set_state st (rs_err r) r).

(** [ret] is not 0: the state the socket waits in, if the call will finish later. *)
Definition wait_in (st ret : Z) : R K Z := e ← gets e_errno; (if again e then put_state st else mret ()) ;; mret ret.

Definition timed_out r (errno : Z) : bool := Z.eqb errno ETIMEDOUT && Z.leb (retries r) RS_CONN_RETRIES.
Definition next_try : R K Z :=
  r ← rs_get id; rs_set (set_conn (retries r + 1) (optval r)) ;; mret (Z.shiftl 1000 (retries r)).
Definition reset_tries : R K () := rs_set (λ r, set_conn 0 (optval r) r).

Definition at_connected : R K Z :=
  conn ← gets (λ s, d_private_data (e_k s));
  if negb (Z.eqb (cn_version conn) 1) then ERR ENOTSUP
  else rs_save_conn_data conn ;; put_state rs_connect_rdwr ;; mret 0.

Definition at_do_connect : R K Z :=
  ret ← rs_create_ep;
  if negb (Z.eqb ret 0) then mret ret
  else
    r ← rs_get id;
    reset_tries ;;
    ret ← call (d_connect (rs_format_conn_data r) (if msg_send r then 1 else 0));
    if Z.eqb ret 0 then at_connected else wait_in rs_connecting ret.

(** [resolve_route] when no path was set. *)
Definition at_query_route (timeout : Z) : R K Z :=
  ret ← call (d_resolve_route timeout);
  if Z.eqb ret 0 then at_do_connect else wait_in rs_resolving_route ret.

(** [resolving_route]; [retry] is [resolve_route]. *)
Definition at_resolving_route (retry : R K Z) : R K Z :=
  ret ← call d_complete;
  if Z.eqb ret 0 then at_do_connect
  else s ← gets id; if timed_out (e_rs s) (e_errno s) then retry else mret ret.

(** Once the path has been set, [resolve_route] is reached without one. *)
Definition at_resolve_route : R K Z :=
  timeout ← next_try;
  o ← rs_get optval;
  match o with
  | Some path =>
      ret ← call (d_set_path path);
      rs_set (λ r, set_conn (retries r) None r) ;;
      if Z.eqb ret 0
      then put_state rs_resolving_route ;; at_resolving_route (timeout ← next_try; at_query_route timeout)
      else wait_in rs_resolving_route ret
  | None => at_query_route timeout
  end.

Definition at_resolve_addr : R K Z :=
  timeout ← next_try;
  ret ← call (d_resolve_addr timeout);
  if Z.eqb ret 0 then at_resolve_route else wait_in rs_resolving_addr ret.

Definition connect_step (st : Z) : R K Z :=
  if Z.eqb st rs_init || Z.eqb st rs_bound then at_resolve_addr
  else if Z.eqb st rs_resolving_addr then
    ret ← call d_complete;
    if Z.eqb ret 0 then reset_tries ;; at_resolve_route
    else s ← gets id; if timed_out (e_rs s) (e_errno s) then at_resolve_addr else mret ret
  else if Z.eqb st rs_resolving_route then at_resolving_route at_resolve_route
  else if Z.eqb st rs_connecting then
    ret ← call d_complete; if Z.eqb ret 0 then at_connected else mret ret
  else if Z.eqb st rs_accepting then
    r ← rs_get id;
    (if negb (has (fd_flags r) O_NONBLOCK) then dev_ d_clear_nonblock else mret ()) ;;
    ret ← call d_complete;
    if Z.eqb ret 0 then put_state rs_connect_rdwr ;; mret 0 else mret ret
  else ERR EINVAL.

Definition rs_do_connect : R K Z :=
  st ← rs_get state;
  ret ← connect_step st;
  (if negb (Z.eqb ret 0) then
     e ← gets e_errno;
     if again e then ERR EINPROGRESS ;; mret ()
     else rs_set (set_state rs_connect_error e)
   else mret ()) ;;
  mret ret.
End Setup.

(** ** Sizes *)

(** The size the peer works out is never above the true one. *)
Lemma scale_check :
  forallb (λ x, Z.leb (rs_scale_to_value (u8 (Z.lor 128 x)) 8) (Z.max 128 (256 * x))) (seqZ 0 256) = true.
Proof. by vm_compute. Qed.

Lemma scale_below v : 0 ≤ v < 2 ^ 16 → rs_scale_to_value (u8 (rs_value_to_scale v 8)) 8 ≤ v.
Proof.
  intros Hv. unfold rs_value_to_scale. change (Z.shiftl 1 (8 - 1)) with 128. destruct (Z.leb_spec v 128) as [Hs|Hs].
  - unfold u8. rewrite Z.mod_small by lia. unfold rs_scale_to_value. change (Z.shiftl 1 (8 - 1)) with 128.
    by destruct (Z.leb_spec v 128); [|lia].
  - pose proof scale_check as H. rewrite forallb_forall in H. rewrite Z.shiftr_div_pow2 by lia. change (2 ^ 8) with 256.
    pose proof (Z.div_mod v 256). pose proof (Z.mod_pos_bound v 256).
    assert (v / 256 ∈ seqZ 0 256) as Hin by (apply elem_of_seqZ; lia). apply list_elem_of_In in Hin. apply H, Z.leb_le in Hin. lia.
Qed.

(** ** What a piece of code keeps

    [P] is about a socket and its memory; it holds after [m] if it held before. *)
Section Keeps.
Context {K : Type} `{!RsEnv K, !RsSetup K}.

Definition keeps {A} (P : rsocket → mem → Prop) (m : R K A) : Prop :=
  ∀ e a e1, P (e_rs e) (e_mem e) → m e = Ok (a, e1) → P (e_rs e1) (e_mem e1).

Context (P : rsocket → mem → Prop).

Lemma keeps_ret {A} (a : A) : keeps P (mret a).
Proof. by intros e b e1 H [= <- <-]. Qed.
Lemma keeps_bind {A B} (m : R K A) (f : A → R K B) : keeps P m → (∀ a, keeps P (f a)) → keeps P (m ≫= f).
Proof.
  intros Hm Hf e b e1 H E. unfold mbind, R_bind in E. destruct (m e) as [[a e2]| | | |] eqn:Em; try done. cbn in E.
  apply (Hf a e2 b); [|done]. by apply (Hm _ _ _ H Em).
Qed.
(** What was read is known to satisfy [P]. *)
Lemma keeps_read {A B} (g : ep K → A) (f : A → R K B) :
  (∀ e, P (e_rs e) (e_mem e) → keeps P (f (g e))) → keeps P (gets g ≫= f).
Proof. intros Hf e b e1 H E. by apply (Hf e H e b e1). Qed.
Lemma keeps_set f : (∀ r m, P r m → P (f r) m) → keeps P (rs_set f).
Proof. intros Hf e a e1 H [= <- <-]. by apply Hf. Qed.
Lemma keeps_gets {A} (f : ep K → A) : keeps P (gets f).
Proof. by intros e a e1 H [= <- <-]. Qed.
Lemma keeps_mem f : (∀ r m, P r m → P r (f m)) → keeps P (mem_set f).
Proof. intros Hf e a e1 H [= <- <-]. by apply Hf. Qed.
Lemma keeps_dev {A} (f : K → A * K) : keeps P (dev f).
Proof. intros e a e1 H E. unfold dev in E. destruct (f (e_k e)). by injection E as <- <-. Qed.
Lemma keeps_lift {A} (x : res A) : keeps P (lift x).
Proof. intros e a e1 H E. unfold lift in E. destruct x; try done. by injection E as <- <-. Qed.
Lemma keeps_err z : keeps P (ERR z).
Proof. by intros e a e1 H [= <- <-]. Qed.
Lemma keeps_fuel {A} : keeps P (λ _, OutOfFuel : res (A * ep K)).
Proof. done. Qed.
Lemma keeps_call f : keeps P (call f).
Proof. apply keeps_bind; [apply keeps_dev|]. intros z. unfold seterrno. destruct (Z.eqb z 0); [apply keeps_ret|apply keeps_err]. Qed.
End Keeps.

Create HintDb rs_keeps.
#[export] Hint Resolve keeps_ret keeps_gets keeps_dev keeps_lift keeps_err keeps_fuel keeps_call : rs_keeps.

Ltac keeps_tac :=
  repeat match goal with
  | |- keeps _ (mbind _ (gets _)) => apply keeps_read; intros ? ?
  | |- keeps _ (mbind _ (rs_get _)) => unfold rs_get
  | |- keeps _ (mbind _ (check _)) => unfold check
  | |- keeps _ (mbind _ _) => apply keeps_bind; [|intros ?]
  | |- keeps _ (rs_get _) => unfold rs_get
  | |- keeps _ (dev_ _) => unfold dev_
  | |- keeps _ (seterrno _) => unfold seterrno
  | |- keeps _ (rs_set _) => apply keeps_set; intros ? ? ?
  | |- keeps _ (mem_set _) => apply keeps_mem; intros ? ? ?
  | |- keeps _ (if ?b then _ else _) => destruct b
  | |- keeps _ (match ?x with _ => _ end) => destruct x
  | |- _ => progress cbv zeta
  end; eauto with rs_keeps.

(** ** Where connecting ends *)
Section Connecting.
Context {K : Type} `{!RsEnv K, !RsSetup K}.

(** Connecting has begun in [st0] and is not over. *)
Definition opens (st0 st : Z) : Prop := st = st0 ∨ st = rs_resolving_addr ∨ st = rs_resolving_route ∨ st = rs_connecting.
Definition opening (st0 : Z) (r : rsocket) (_ : mem) : Prop := opens st0 (state r).

Lemma keeps_reg st0 g n : keeps (K := K) (opening st0) (reg g n).
Proof. intros e a e1 H E. unfold reg in E. destruct (d_reg g n (e_mem e) (e_k e)) as [[[]]]. by injection E as <- <-. Qed.
#[local] Hint Resolve keeps_reg : rs_keeps.
Lemma keeps_post_recv st0 : keeps (K := K) (opening st0) rs_post_recv.
Proof. unfold rs_post_recv. keeps_tac. Qed.
Lemma keeps_repost st0 n : keeps (K := K) (opening st0) (repost n).
Proof. induction n as [|n IH]; cbn [repost]; [apply keeps_ret|]. apply keeps_bind; [apply keeps_post_recv|]. intros a. keeps_tac. Qed.
Lemma keeps_create_cq st0 : keeps (K := K) (opening st0) rs_create_cq.
Proof. unfold rs_create_cq. keeps_tac. Qed.
Lemma keeps_init_bufs st0 : keeps (K := K) (opening st0) rs_init_bufs.
Proof. unfold rs_init_bufs. keeps_tac; done. Qed.
Lemma keeps_create_ep st0 : keeps (K := K) (opening st0) rs_create_ep.
Proof.
  unfold rs_create_ep, rs_set_qp_size. keeps_tac; try done; auto using keeps_create_cq, keeps_init_bufs, keeps_repost.
Qed.

Definition outcome (st0 : Z) (m : R K Z) : Prop := ∀ e ret e1, opens st0 (state (e_rs e)) → m e = Ok (ret, e1) →
  (ret = 0 ∧ state (e_rs e1) = rs_connect_rdwr) ∨ (ret ≠ 0 ∧ opens st0 (state (e_rs e1))).

Lemma outcome_ret st0 (a : Z) : a ≠ 0 → outcome st0 (mret a).
Proof. intros Ha e ret e1 Ho [= <- <-]. by right. Qed.
Lemma outcome_err st0 z : outcome st0 (ERR z).
Proof. intros e ret e1 Ho [= <- <-]. by right. Qed.
Lemma outcome_bind {A} st0 (m : R K A) f : keeps (opening st0) m → (∀ a, outcome st0 (f a)) → outcome st0 (m ≫= f).
Proof.
  intros Hm Hf e b e1 Ho E. unfold mbind, R_bind in E. destruct (m e) as [[a e2]| | | |] eqn:Em; try done. cbn in E.
  apply (Hf a e2); [|done]. by apply (Hm _ _ _ Ho Em).
Qed.
Lemma outcome_put st0 st (m : R K Z) : opens st0 st → outcome st0 m → outcome st0 (put_state st ;; m).
Proof. intros Hst Hm e b e1 Ho E. unfold mbind, R_bind, put_state, rs_set in E. cbn in E. by apply Hm in E. Qed.
Lemma outcome_wait st0 st ret : opens st0 st → ret ≠ 0 → outcome st0 (wait_in st ret).
Proof.
  intros Hst Hr. apply outcome_bind; [apply keeps_gets|]. intros z. destruct (again z); [by apply outcome_put; [|apply outcome_ret]|].
  apply outcome_bind; [apply keeps_ret|]. intros _. by apply outcome_ret.
Qed.

Lemma keeps_next_try st0 : keeps (K := K) (opening st0) next_try.
Proof. unfold next_try. keeps_tac. Qed.
Lemma keeps_save st0 conn : keeps (K := K) (opening st0) (rs_save_conn_data conn).
Proof. unfold rs_save_conn_data. keeps_tac; done. Qed.

Lemma outcome_rdwr st0 : outcome st0 (put_state rs_connect_rdwr ;; mret 0).
Proof. intros e ret e1 _ E. left. by injection E as <- <-. Qed.

Ltac outcome_tac :=
  repeat match goal with
  | |- outcome _ (put_state rs_connect_rdwr ;; _) => apply outcome_rdwr
  | |- outcome _ (if Z.eqb ?a 0 then _ else _) => destruct (Z.eqb_spec a 0); subst
  | |- outcome _ (if negb (Z.eqb ?a 0) then _ else _) => destruct (Z.eqb_spec a 0); subst; cbn [negb]
  | |- outcome _ (if ?b then _ else _) => destruct b
  | |- outcome _ (match ?x with _ => _ end) => destruct x
  | |- outcome _ (wait_in _ _) => apply outcome_wait
  | |- outcome _ (put_state _ ;; _) => apply outcome_put
  | |- outcome _ (mret _) => by apply outcome_ret
  | |- outcome _ (ERR _) => apply outcome_err
  | |- outcome _ (mbind _ _) => apply outcome_bind; [|intros ?]
  | |- opens _ _ => unfold opens; by auto
  end.

Lemma outcome_connected st0 : outcome st0 at_connected.
Proof.
  unfold at_connected. apply outcome_bind; [apply keeps_gets|]. intros conn. destruct (Z.eqb (cn_version conn) 1); cbn [negb]; [|apply outcome_err].
  apply outcome_bind; [apply keeps_save|]. intros _. apply outcome_rdwr.
Qed.
Lemma outcome_do_connect st0 : outcome st0 at_do_connect.
Proof.
  unfold at_do_connect, reset_tries. outcome_tac; try apply outcome_connected; auto using keeps_create_ep with rs_keeps; unfold rs_get; keeps_tac; done.
Qed.
Lemma outcome_query st0 t : outcome st0 (at_query_route t).
Proof. unfold at_query_route. outcome_tac; [apply keeps_call|apply outcome_do_connect|done]. Qed.
Lemma outcome_resolving st0 m : outcome st0 m → outcome st0 (at_resolving_route m).
Proof. intros Hm. unfold at_resolving_route. outcome_tac; try done; auto using outcome_do_connect with rs_keeps. Qed.
Lemma outcome_route st0 : outcome st0 at_resolve_route.
Proof.
  unfold at_resolve_route, rs_get. outcome_tac; auto using keeps_next_try, outcome_query with rs_keeps; [by apply keeps_set|].
  apply outcome_resolving. outcome_tac; auto using keeps_next_try, outcome_query.
Qed.
Lemma outcome_addr st0 : outcome st0 at_resolve_addr.
Proof. unfold at_resolve_addr. outcome_tac; auto using keeps_next_try, outcome_route with rs_keeps. Qed.

Lemma outcome_step st : outcome st (connect_step st).
Proof.
  unfold connect_step, reset_tries, rs_get, dev_. outcome_tac; auto using outcome_addr, outcome_route, outcome_resolving, outcome_connected with rs_keeps.
  - by apply keeps_set.
  - keeps_tac.
Qed.

(** C19. [rs_do_connect] succeeds exactly with the socket connected for reading and writing.  If it fails, either the
    error is EINPROGRESS and the socket is in a state from which the next call goes on, or the
    socket is in the error state and keeps the error. *)
Theorem connect_outcome (e e1 : ep K) ret : rs_do_connect e = Ok (ret, e1) →
  (ret = 0 ∧ state (e_rs e1) = rs_connect_rdwr) ∨
  (ret ≠ 0 ∧ e_errno e1 = EINPROGRESS ∧ opens (state (e_rs e)) (state (e_rs e1))) ∨
  (ret ≠ 0 ∧ again (e_errno e1) = false ∧ state (e_rs e1) = rs_connect_error ∧ rs_err (e_rs e1) = e_errno e1).
Proof.
  unfold rs_do_connect, mbind, R_bind, rs_get, gets. cbn [rbind]. intros E.
  destruct (connect_step (state (e_rs e)) e) as [[a e2]| | | |] eqn:Es; try done. cbn [rbind] in E.
  destruct (outcome_step (state (e_rs e)) e a e2 (or_introl eq_refl) Es) as [[-> Hst]|[Ha Hst]].
  - left. by injection E as <- <-.
  - right. destruct (Z.eqb_spec a 0); [done|]. cbn [negb rbind] in E. destruct (again (e_errno e2)) eqn:Eg; injection E as <- <-; [by left|by right].
Qed.
End Connecting.
