(* ===== verification/RsSafe.v ===== *)
(** * Two rsockets from their creation: byte streams, flow control and progress

    Endpoints made by [rs_create_ep] that exchanged their connection data are in the invariant of [RsStream],
    and every step keeps it. *)

From S2P Require Import Prelude Layout FfTypes Attrs Request Cma Vip Rsocket RsNet RsItems RsStream RsSteps RsPoll RsConn.

#[local] Arguments load_sge : simpl never.
#[local] Arguments store_sge : simpl never.
#[local] Arguments poke : simpl never.
#[local] Arguments peek : simpl never.
#[local] Arguments rs_msg_set : simpl never.
#[local] Arguments outs : simpl never.

(** ** Setting up a queue pair

    Registration gives the addresses and keys of [regs]; the device allows queues of [maxq] entries. *)
Record regs := mkRegs { rg_maxq : Z; rg_addr : region → Z; rg_lkey : region → Z; rg_rkey : region → Z }.

Definition with_mr (key a len : Z) (k : rc) : rc :=
  mkRc (q_send k) (q_done k) (q_recv k) (q_cq k) (q_max_send k) (q_max_recv k) (<[key := (a, len)]> (q_mrs k)).

Definition rc_setup (g : regs) : RsSetup rc := {|
  d_max_qpsize _ := rg_maxq g;
  d_iwarp _ := false;
  d_create_channel k := (0, k);
  d_create_cq _ k := (0, k);
  d_set_nonblock k := (0, k);
  d_destroy_cq k := k;
  d_destroy_channel k := k;
  d_create_qp sq rq _ k := (0, mkRc [] [] [] [] sq rq (q_mrs k));
  d_reg x len m k := (Some (rg_addr g x, rg_lkey g x, rg_rkey g x), 0, m, with_mr (rg_rkey g x) (rg_addr g x) len k);
  d_resolve_addr _ k := (0, k);
  d_resolve_route _ k := (0, k);
  d_set_path _ k := (0, k);
  d_complete k := (0, k);
  d_connect _ _ k := (0, k);
  d_clear_nonblock k := k;
  d_private_data _ := mkConn 1 0 0 0 (mkRsSge 0 0 0) (mkRsSge 0 0 0)
|}.

(** [rs_alloc] of a stream socket, with the sizes it takes from the defaults or from the listening socket. *)
Definition no_sge : rs_sge := mkRsSge 0 0 0.
Definition rs_alloc (sbuf_size rbuf_size sq_size rq_size sq_inline iomap_size : Z) : rsocket :=
  mkRs (mkCfg sbuf_size rbuf_size sq_size rq_size sq_inline 0 0 0 0 0 0 0 iomap_size no_sge no_sge)
    (mkTx 0 0 0 0 0 0) (mkRx 0 0 0 0 0 0 0 0 0 []) 0 RS_QP_CTRL_SIZE 0 0 rs_init 0 false 0 0 None [] [] false.

Lemma repost_fresh n : ∀ e : ep rc, msg_send (e_rs e) = false → q_cq (e_k e) = [] →
  lenZ (q_recv (e_k e)) + Z.of_nat n ≤ q_max_recv (e_k e) →
  repost n e = Ok (0, mkEp (e_rs e) (e_mem e) (e_errno e) (with_recv (q_recv (e_k e) ++ replicate n (mkRecv (rs_recv_wr_id 0) None)) (e_k e))).
Proof.
  induction n as [|n IH]; intros e Hm Hq Hn; cbn [repost].
  - unfold mret, R_ret. rewrite app_nil_r. by destruct e as [? ? ? []].
  - unfold rs_post_recv. rs_unfold. rewrite Hm. cbn [negb rbind d_post_recv rc_env].
    assert (recvs_used (e_k e) < q_max_recv (e_k e)) as Hu by (unfold recvs_used; rewrite Hq; cbn; unfold lenZ in *; cbn; lia).
    destruct (Z.ltb_spec (recvs_used (e_k e)) (q_max_recv (e_k e))); [|lia]. cbn [Z.eqb rbind]. unfold mret, R_ret. cbn [Z.eqb rbind].
    rewrite IH; cbn [e_rs e_mem e_errno e_k with_recv q_cq q_recv q_max_recv]; try done; [|rewrite lenZ_snoc; lia].
    do 3 f_equal. unfold with_recv. cbn. by rewrite <- app_assoc.
Qed.

(** The sizes after [rs_set_qp_size]. *)
Definition clamp (maxq n : Z) : Z :=
  let max_size := u16 (Z.min maxq RS_QP_MAX_SIZE) in
  if Z.ltb max_size n then max_size else if Z.ltb n RS_QP_MIN_SIZE then RS_QP_MIN_SIZE else n.

Definition ep_cfg (g : regs) (r : rsocket) : rs_cfg :=
  let c := cfg r in
  mkCfg (sbuf_size c) (rbuf_size c) (clamp (rg_maxq g) (sq_size c)) (clamp (rg_maxq g) (rq_size c)) 0 (rg_addr g SMR) (rg_addr g RMR)
    (rg_addr g TARGET_MR) (rg_lkey g SMR) (rg_lkey g RMR) (rg_rkey g RMR) (rg_rkey g TARGET_MR) (target_iomap_size c) no_sge no_sge.

(** The socket when the receives are about to be posted. *)
Definition fresh_rs (c : rs_cfg) : rsocket :=
  mkRs c (mkTx 0 0 (sq_size c - 4) (sbuf_size c) (sbuf c) 0)
    (mkRx 0 (Z.shiftr (rq_size c) 1) (Z.shiftr (rbuf_size c) 1) (Z.shiftr (rbuf_size c) 1) 0 0 0 0 0
          (replicate (Z.to_nat (rq_size c + 1)) (mkMsg 0 0))) 0 4 0 0 rs_init 0 false 0 0 None [] [] false.
Definition fresh_mrs (g : regs) (c : rs_cfg) : gmap Z (Z * Z) :=
  <[rg_rkey g RMR := (rbuf c, u32 (rbuf_size c + rq_size c * RS_MSG_SIZE))]>
    (<[rg_rkey g TARGET_MR := (target_sgl c, target_len (fresh_rs c))]>
       (<[rg_rkey g SMR := (sbuf c, u32 (sbuf_size c + RS_MAX_CTRL_MSG * RS_QP_CTRL_SIZE))]> ∅)).

Lemma create_ep_unfold g sb rb sq rq inl io m er :
  let r := rs_alloc sb rb sq rq inl io in let c := ep_cfg g r in
  @rs_create_ep rc _ (rc_setup g) (mkEp r m er (mkRc [] [] [] [] 0 0 ∅)) =
    repost (Z.to_nat (rq_size c))
      (mkEp (fresh_rs c) (poke (target_sgl c) (replicate (Z.to_nat (target_len (fresh_rs c))) 0) m) er
         (mkRc [] [] [] [] (sq_size c) (rq_size c) (fresh_mrs g c))).
Proof. intros r c. reflexivity. Qed.

(** What an endpoint with configuration [c] is after [rs_create_ep]. *)
Record created (c : rs_cfg) (e : ep rc) : Prop := {
  cr_rs : e_rs e = fresh_rs c;
  cr_queues : q_send (e_k e) = [] ∧ q_done (e_k e) = [] ∧ q_cq (e_k e) = [];
  cr_recv : q_recv (e_k e) = replicate (Z.to_nat (rq_size c)) (mkRecv (rs_recv_wr_id 0) None);
  cr_max : q_max_send (e_k e) = sq_size c ∧ q_max_recv (e_k e) = rq_size c;
  cr_mrs : (∃ n, q_mrs (e_k e) !! rmr_rkey c = Some (rbuf c, n) ∧ rbuf_size c ≤ n) ∧
           (∃ n, q_mrs (e_k e) !! target_rkey c = Some (target_sgl c, n) ∧ 32 ≤ n);
  cr_zero i : target_sgl c ≤ i < target_sgl c + 32 → e_mem e i = 0
}.

Lemma create_ep_run g sb rb sq rq inl io m er :
  let r := rs_alloc sb rb sq rq inl io in let c := ep_cfg g r in
  cfg_ok c → 0 ≤ io → rg_rkey g RMR ≠ rg_rkey g TARGET_MR →
  ∃ e1, @rs_create_ep rc _ (rc_setup g) (mkEp r m er (mkRc [] [] [] [] 0 0 ∅)) = Ok (0, e1) ∧ created c e1.
Proof.
  intros r c Hc Hio Hkeys. pose proof (ok_rq c Hc) as Hrq. pose proof (ok_rbuf c Hc) as [Hrb _]. unfold RS_QP_MIN_SIZE, RS_QP_MAX_SIZE in Hrq.
  pose proof (create_ep_unfold g sb rb sq rq inl io m er) as E. cbv zeta in E. fold r c in E. rewrite E. clear E.
  assert (rmr_rkey c = rg_rkey g RMR) as Ek1 by done. assert (target_rkey c = rg_rkey g TARGET_MR) as Ek2 by done.
  assert (target_iomap_size c = io) as Eio by done. clearbody c r. rewrite repost_fresh; try done; [|cbn [e_k q_recv q_max_recv]; rewrite lenZ_nil; lia].
  eexists. split; [reflexivity|]. assert (32 ≤ target_len (fresh_rs c)) as Hlen.
  { unfold target_len. destruct sge_layout as (_ & _ & _ & -> & ->). unfold RS_SGL_SIZE. cbn [fresh_rs cfg]. lia. }
  constructor; cbn [e_rs e_mem e_k with_recv q_send q_done q_cq q_recv q_max_send q_max_recv q_mrs app]; try done.
  - unfold fresh_mrs. rewrite Ek1, Ek2. split; eexists; (split; [|]).
    + by rewrite lookup_insert_eq.
    + rewrite u32_id by (unfold RS_MSG_SIZE; lia). unfold RS_MSG_SIZE. lia.
    + rewrite lookup_insert_ne by done. by rewrite lookup_insert_eq.
    + done.
  - intros i Hi. rewrite poke_in by (unfold lenZ; rewrite length_replicate; lia). rewrite nth_lookup, lookup_replicate_2 by lia. done.
Qed.

(** ** The exchange *)

(** What one side is made with. *)
Record setup := mkSetup {
  su_regs : regs; su_sbuf : Z; su_rbuf : Z; su_sq : Z; su_rq : Z; su_inline : Z; su_iomap : Z; su_mem : mem; su_errno : Z
}.
Definition su_rs (u : setup) : rsocket := rs_alloc (su_sbuf u) (su_rbuf u) (su_sq u) (su_rq u) (su_inline u) (su_iomap u).
Definition create (u : setup) : res (Z * ep rc) :=
  @rs_create_ep rc _ (rc_setup (su_regs u)) (mkEp (su_rs u) (su_mem u) (su_errno u) (mkRc [] [] [] [] 0 0 ∅)).

(** Both sides save the other's data and are connected, as at the end of [rs_do_connect] and in [raccept]. *)
Definition join (a b : ep rc) : res (ep rc) :=
  let* (_, e) := (rs_save_conn_data (rs_format_conn_data (e_rs b)) ;; put_state rs_connect_rdwr) a in Ok e.

Definition establish (u : bool → setup) : res net :=
  let* (ra, a) := create (u true) in
  let* (rb, b) := create (u false) in
  let* a1 := join a b in
  let* b1 := join b a in
  Ok (mkNet (λ x, if x then a1 else b1) (λ _, []) (λ _, [])).

(** The sizes and regions a side can work with. *)
Record setup_ok (u : setup) : Prop := {
  so_cfg : cfg_ok (ep_cfg (su_regs u) (su_rs u));
  so_iomap : 0 ≤ su_iomap u < 2 ^ 16;
  so_keys : rg_rkey (su_regs u) RMR ≠ rg_rkey (su_regs u) TARGET_MR;
  so_target : 0 ≤ rg_rkey (su_regs u) TARGET_MR < 2 ^ 32 ∧ 0 ≤ rg_addr (su_regs u) TARGET_MR < 2 ^ 64
}.

Lemma net_sge_involutive g : sge_fits g → net_sge (net_sge g) = g.
Proof.
  intros (Ha & Hk & Hl). destruct g as [a k l]. unfold net_sge. cbn in *. by rewrite swap64_involutive, !swap32_involutive by done.
Qed.

Definition joined (c d : rs_cfg) : rs_cfg :=
  set_remote (mkRsSge (target_sgl d) (target_rkey d) 2)
    (mkRsSge (target_sgl d + 32) (target_rkey d) (rs_scale_to_value (u8 (rs_value_to_scale (target_iomap_size d) 8)) 8)) c.

Lemma join_run c d a b :
  created c a → created d b → cfg_ok d → 0 ≤ target_rkey d < 2 ^ 32 → 0 ≤ target_sgl d < 2 ^ 64 →
  join a b = Ok (mkEp (set_state rs_connect_rdwr 0 (set_sseq_comp (rq_size d) (set_rx (set_remote_sge 1) (set_cfg (λ _, joined c d) (fresh_rs c)))))
                   (store_sge (target_sgl c) (half_sge d 0) (e_mem a)) (e_errno a) (e_k a)).
Proof.
  intros Ha Hb Hd Hk Ht. destruct Ha as [Era _ _ _ _ _], Hb as [Erb _ _ _ _ _]. destruct a as [ra ma ea ka], b as [rb mb eb kb]. cbn [e_rs] in *. subst ra rb.
  pose proof (ok_rq d Hd) as Hrq. pose proof (ok_rbuf d Hd) as [Hrb _]. pose proof (ok_key d Hd) as Hkey. destruct (ok_addr d Hd) as (_ & _ & ? & _ & ?).
  unfold RS_QP_MIN_SIZE, RS_QP_MAX_SIZE in Hrq. destruct (hsize_double d Hd) as [Hh _].
  unfold join, rs_save_conn_data, rs_format_conn_data, put_state. cbn [cfg fresh_rs cn_target_sgl cn_flags cn_credits cn_iomap_size cn_data_buf e_rs].
  rewrite !net_sge_involutive by (unfold sge_fits; cbn [sg_addr sg_key sg_length]; rewrite ?half_eq; cbn [cfg fresh_rs]; unfold RS_SGL_SIZE; lia).
  rewrite swap16_involutive by lia. rs_unfold. cbn [rs_host_is_net xorb]. unfold joined, RS_SGL_SIZE. cbn [sg_addr sg_key sg_length].
  assert (half_sge d 0 = mkRsSge (rbuf d) (rmr_rkey d) (hsize d)) as -> by (unfold half_sge; rewrite Z.mod_0_l, Z.mul_0_l, Z.add_0_r by done; done).
  rewrite sizeof_sge, half_eq. reflexivity.
Qed.

(** The data a side sends tells the other where its list of entries and its first half are, how many messages
    it takes, and no more mappings than it has room for; the exchange needs no option. *)
Theorem conn_data_roundtrip (e : ep rc) r :
  sge_fits (mkRsSge (target_sgl (cfg r)) (target_rkey (cfg r)) RS_SGL_SIZE) → sge_fits (mkRsSge (rbuf (cfg r)) (rmr_rkey (cfg r)) (half r)) →
  0 ≤ rq_size (cfg r) < 2 ^ 16 → 0 ≤ target_iomap_size (cfg r) < 2 ^ 16 →
  ∃ e1, rs_save_conn_data (rs_format_conn_data r) e = Ok ((), e1) ∧
    remote_sgl (cfg (e_rs e1)) = mkRsSge (target_sgl (cfg r)) (target_rkey (cfg r)) 2 ∧
    load_sge (target_sgl (cfg (e_rs e1))) (e_mem e1) = mkRsSge (rbuf (cfg r)) (rmr_rkey (cfg r)) (half r) ∧
    sseq_comp (tx (e_rs e1)) = rq_size (cfg r) ∧ remote_sge (rx (e_rs e1)) = 1 ∧ opts (e_rs e1) = opts (e_rs e) ∧
    sg_addr (remote_iomap (cfg (e_rs e1))) = target_sgl (cfg r) + 32 ∧ sg_length (remote_iomap (cfg (e_rs e1))) ≤ target_iomap_size (cfg r).
Proof.
  intros H1 H2 H3 H4. unfold rs_save_conn_data, rs_format_conn_data. cbn [cn_target_sgl cn_flags cn_credits cn_iomap_size cn_data_buf].
  rewrite !net_sge_involutive by done. rewrite swap16_involutive by done. rs_unfold. cbn [rs_host_is_net xorb].
  eexists. split; [reflexivity|]. cbn [e_rs e_mem]. split_and!; try done; [by apply load_store_sge|].
  by apply scale_below.
Qed.

Lemma conn_data_roundtrip_witness :
  let r := set_cfg (λ _, mkCfg 4096 4096 384 16 0 0x10000 0x30000 0x20000 1 3 13 12 300 no_sge no_sge) (rs_alloc 0 0 0 0 0 0) in
  ∃ e1, rs_save_conn_data (rs_format_conn_data r) (mkEp r (λ _, 0) 0 (mkRc [] [] [] [] 0 0 ∅)) = Ok ((), e1) ∧
    remote_sgl (cfg (e_rs e1)) = mkRsSge 0x20000 12 2 ∧ load_sge (target_sgl (cfg (e_rs e1))) (e_mem e1) = mkRsSge 0x30000 13 2048 ∧
    sseq_comp (tx (e_rs e1)) = 16 ∧ remote_sge (rx (e_rs e1)) = 1 ∧ opts (e_rs e1) = 0 ∧
    sg_addr (remote_iomap (cfg (e_rs e1))) = 0x20000 + 32 ∧ sg_length (remote_iomap (cfg (e_rs e1))) ≤ 300.
Proof. intros r. apply (conn_data_roundtrip (mkEp r (λ _, 0) 0 (mkRc [] [] [] [] 0 0 ∅)) r); by vm_compute. Defined.

(** ** The invariant at the start *)
Lemma clear_entry a m : (∀ i, a ≤ i < a + 16 → m i = 0) → sg_length (load_sge a m) = 0.
Proof. intros H. rewrite (load_sge_same a m (λ _, 0)) by done. reflexivity. Qed.

Definition joined_rs (c d : rs_cfg) : rsocket :=
  set_state rs_connect_rdwr 0 (set_sseq_comp (rq_size d) (set_rx (set_remote_sge 1) (set_cfg (λ _, joined c d) (fresh_rs c)))).

Lemma side_start c d a m : created c a → cfg_ok c →
  side_ok (joined c d) (joined d c) (mkEp (joined_rs c d) m (e_errno a) (e_k a)) (mkSide [] [] [] 0) 0.
Proof.
  intros [] Hc. destruct cr_queues0 as (E1 & E2 & E3). pose proof (ok_sq c Hc) as Hq. pose proof (ok_rq c Hc) as Hrq. pose proof (ok_sbuf c Hc) as Hsb.
  unfold RS_QP_MIN_SIZE, RS_QP_MAX_SIZE, RS_SNDLOWAT in *.
  assert (lenZ (q_recv (e_k a)) = rq_size c) as Hl by (rewrite cr_recv0; unfold lenZ; rewrite length_replicate; lia).
  constructor; ep_simpl; try done.
  - rewrite cr_recv0. by apply Forall_replicate.
  - rewrite Hl. unfold lenZ. cbn. lia.
  - intros _. rewrite Hl. unfold lenZ. cbn. lia.
  - unfold outs, lenZ. cbn. lia.
  - unfold outs, lenZ. cbn. lia.
  - intros k j q Hin. by apply elem_of_nil in Hin.
Qed.

Lemma flow_start c d a m' : created c a → cfg_ok c → cfg_ok d →
  flow_ok (joined c d) (joined d c) (tx (joined_rs c d)) (store_sge (target_sgl c) (half_sge d 0) (e_mem a)) [] []
    (rx (joined_rs d c)) m' [] [] [] [] (mkFlow 0 0 (rq_size d) 1 1 0 []).
Proof.
  intros Ha Hc Hd. destruct (hsize_double d Hd) as [Hrb Hh]. pose proof (ok_rq d Hd) as Hrq. unfold RS_QP_MIN_SIZE, RS_QP_MAX_SIZE in Hrq.
  pose proof (ok_rbuf d Hd) as [Hrs _]. pose proof (ok_sbuf c Hc) as Hsb. unfold RS_SNDLOWAT in Hsb.
  assert (Z.shiftr (rbuf_size d) 1 = hsize d) as Hsh by (unfold hsize; by rewrite Z.shiftr_div_pow2).
  assert (hsize (joined d c) = hsize d) as Hhs by done.
  assert (sge_fits (half_sge d 0)) as Hfit.
  { pose proof (ok_key d Hd). destruct (ok_addr d Hd) as (_ & _ & ? & _ & ?). unfold half_sge, sge_fits. cbn [sg_addr sg_key sg_length]. rewrite Z.mod_0_l by done. lia. }
  constructor; rewrite ?Hhs; cbn [f_s f_r f_c f_g f_d f_e f_m]; try done.
  - cbn. constructor; try done; try lia.
    + unfold lenZ. rewrite length_replicate. lia.
    + cbn. unfold lenZ. cbn. lia.
  - intros p n Hin. by apply elem_of_nil in Hin.
  - rewrite lenZ_nil. lia.
  - intros i Hi. change (@lenZ Z []) with 0 in Hi. lia.
  - cbn [joined_rs set_state set_sseq_comp set_tx tx ssgl_addr]. change (@lenZ Z []) with 0. rewrite Z.mod_0_l by (cbn; lia). cbn. lia.
  - cbn. unfold u16. rewrite Z.mod_small by lia. lia.
  - cbn. lia.
  - cbn. rewrite Z.shiftr_div_pow2 by lia. change (2 ^ 1) with 2. unfold u16. pose proof (Z.div_mod (rq_size d) 2). pose proof (Z.mod_pos_bound (rq_size d) 2).
    rewrite Z.mod_small; lia.
  - cbn. rewrite Hsh. unfold lenZ. cbn. lia.
  - cbn. rewrite Hsh. change (1 mod 2) with 1. split; [lia|done].
  - cbn. split; [lia|done].
  - cbn. unfold lenZ. cbn. lia.
  - intros j Hj. change (@lenZ Z []) with 0 in Hj. rewrite Z.div_0_l in Hj by lia. assert (j = 0 ∨ j = 1) as [-> | ->] by lia.
    + constructor; rewrite Hhs; unfold room; change (@lenZ Z []) with 0; rewrite Z.div_0_l by lia; cbn [Z.ltb Z.eqb Z.compare Pos.compare Pos.compare_cont];
        rewrite Z.mod_0_l, Z.mul_0_l, Z.add_0_r by done; rewrite load_store_sge by done; unfold half_sge; cbn [sg_length sg_key sg_addr]; try lia.
      intros _. rewrite Z.mod_0_l by done. split; [done|]. cbn. lia.
    + assert (room (hsize d) 0 1 1 = 0) as Hr by (unfold room; cbn; done).
      constructor; [|lia]. rewrite Hhs. change (@lenZ Z []) with 0. rewrite Hr. change (1 mod 2) with 1.
      apply clear_entry. intros i Hi. cbn [target_sgl joined set_remote] in *.
      rewrite (same_on_store_sge (target_sgl c + 16) 16) by lia. apply (cr_zero _ _ Ha). lia.
Qed.

(** Both sides are connected and nothing under way will change that. *)
Definition both_open (e e' : ep rc) (g g' : side) : Prop :=
  calm g ∧ calm g' ∧ has (state (e_rs e)) rs_connected = true ∧ has (state (e_rs e')) rs_connected = true.

(** The two sides of a net are in the invariant; with [op], nobody has closed the connection. *)
Definition inv_at (op : bool) (N : net) (x : bool) : Prop :=
  ∃ c d g g' f f', pair_cfg c d ∧
    pair_ok c d (n_ep N x) (n_ep N (negb x)) g g' (n_sent N x) (n_sent N (negb x)) (n_got N x) (n_got N (negb x)) f f' 0 ∧
    (op = true → both_open (n_ep N x) (n_ep N (negb x)) g g').
Definition net_inv (op : bool) (N : net) : Prop := inv_at op N true.

Lemma inv_at_sym op N x : inv_at op N x → inv_at op N (negb x).
Proof.
  intros (c & d & g & g' & f & f' & Hpc & Hp & Ho). exists d, c, g', g, f', f. rewrite negb_involutive.
  split; [by apply pair_cfg_sym|]. split; [by apply pair_sym|]. intros (? & ? & ? & ?)%Ho. done.
Qed.
Lemma net_inv_at op N x : net_inv op N → inv_at op N x.
Proof. intros H. destruct x; [done|]. by apply inv_at_sym in H. Qed.
Lemma net_inv_of op N x : inv_at op N x → net_inv op N.
Proof. intros H. destruct x; [done|]. by apply inv_at_sym in H. Qed.
Lemma net_inv_weaken op N : net_inv op N → net_inv false N.
Proof. intros (c & d & g & g' & f & f' & Hpc & Hp & _). by exists c, d, g, g', f, f'. Qed.

(** The steps of one side change that side only. *)
Lemma net_inv_on op N x c d e g g' f f' : pair_cfg c d →
  pair_ok c d e (n_ep N (negb x)) g g' (n_sent N x) (n_sent N (negb x)) (n_got N x) (n_got N (negb x)) f f' 0 →
  (op = true → both_open e (n_ep N (negb x)) g g') → net_inv op (on_ep x e N).
Proof.
  intros Hpc Hp Ho. apply (net_inv_of _ _ x). exists c, d, g, g', f, f'. unfold on_ep. cbn [n_ep n_sent n_got]. by rewrite upd_eq, upd_ne.
Qed.

(** A step of a side that keeps its state and sends no closing message. *)
Lemma both_open_on e e' g g' e1 g1 : both_open e e' g g' → (calm g → calm g1) → state (e_rs e1) = state (e_rs e) → both_open e1 e' g1 g'.
Proof. intros (H1 & H2 & H3 & H4) Hc Hs. unfold both_open. rewrite Hs. auto. Qed.

Lemma joined_cfg c d : cfg_ok c → cfg_ok (joined c d).
Proof. intros []. by constructor. Qed.

Lemma establish_run u : setup_ok (u true) → setup_ok (u false) → ∃ N, establish u = Ok N ∧ net_inv true N ∧ ∀ x, n_sent N x = [] ∧ n_got N x = [].
Proof.
  intros [Hc1 [Hi1 _] Hk1 Ht1] [Hc2 [Hi2 _] Hk2 Ht2].
  destruct (create_ep_run _ _ _ _ _ (su_inline (u true)) _ (su_mem (u true)) (su_errno (u true)) Hc1 Hi1 Hk1) as (a & Ea & Ha).
  destruct (create_ep_run _ _ _ _ _ (su_inline (u false)) _ (su_mem (u false)) (su_errno (u false)) Hc2 Hi2 Hk2) as (b & Eb & Hb).
  unfold establish, create, su_rs. rewrite Ea, Eb. cbn [rbind].
  fold (su_rs (u true)) in Ha. fold (su_rs (u false)) in Hb.
  set (c := ep_cfg (su_regs (u true)) (su_rs (u true))) in *. set (d := ep_cfg (su_regs (u false)) (su_rs (u false))) in *.
  assert (rg_rkey (su_regs (u true)) TARGET_MR = target_rkey c) as E1 by reflexivity. assert (rg_addr (su_regs (u true)) TARGET_MR = target_sgl c) as E2 by reflexivity.
  assert (rg_rkey (su_regs (u false)) TARGET_MR = target_rkey d) as E3 by reflexivity. assert (rg_addr (su_regs (u false)) TARGET_MR = target_sgl d) as E4 by reflexivity.
  rewrite E1, E2 in Ht1. rewrite E3, E4 in Ht2. clear Ea Eb Hi1 Hk1 Hi2 Hk2 E1 E2 E3 E4. clearbody c d.
  rewrite (join_run c d a b Ha Hb Hc2 (proj1 Ht2) (proj2 Ht2)), (join_run d c b a Hb Ha Hc1 (proj1 Ht1) (proj2 Ht1)). cbn [rbind].
  eexists. split; [reflexivity|]. split; [|done].
  exists (joined c d), (joined d c), (mkSide [] [] [] 0), (mkSide [] [] [] 0), (mkFlow 0 0 (rq_size d) 1 1 0 []), (mkFlow 0 0 (rq_size c) 1 1 0 []).
  split; [by constructor; try apply joined_cfg|]. split; [|done]. constructor; cbn [n_ep n_sent n_got].
  - by apply side_start.
  - by apply side_start.
  - by apply flow_start.
  - by apply flow_start.
Qed.

(** ** Every step keeps the invariant *)
Lemma idle_inv op N N' : net_inv op N → idle_step N N' → net_inv op N'.
Proof.
  intros Hinv Hstep. destruct Hstep as [N x left bs e Hl Hr E|N x e E|N x fuel ret e E|N x a b E|N x a E];
    destruct (net_inv_at op N x Hinv) as (c & d & g & g' & f & f' & Hpc & Hp & Hopen).
  - destruct (pair_recv _ _ _ _ _ _ _ _ _ _ _ _ _ _ Hpc Hp Hl Hr) as (bs1 & e1 & f1 & E1 & _ & Hst & Hp1 & _). rewrite E in E1. injection E1 as <- <-.
    apply (net_inv_of _ _ x). exists c, d, g, g', f, f1. cbn [n_ep n_sent n_got]. rewrite !upd_eq, !upd_ne. split_and!; try done.
    intros Ho%Hopen. by eapply both_open_on.
  - destruct (pair_credits _ _ _ _ _ _ _ _ _ _ _ _ _ Hpc Hp) as (e1 & g1 & f1 & E1 & Hp1 & Hst & Hcalm & _). rewrite E in E1. injection E1 as <-.
    eapply net_inv_on; [done..|]. intros Ho%Hopen. by eapply both_open_on.
  - destruct (pair_poll _ _ _ _ _ _ _ _ Hpc fuel _ _ _ _ Hp) as [[E1 _]|(e1 & g1 & E1 & (f1 & f1' & Hp1 & _ & _ & _ & _ & Hcalm) & _)]; rewrite E in E1; [done|].
    injection E1 as _ <-. eapply net_inv_on; [done..|]. intros Ho%Hopen. destruct (Hcalm (proj1 Ho)) as [? ?]. by eapply both_open_on.
  - destruct (deliver_inv _ _ _ _ _ _ _ _ _ _ _ _ _ Hp E) as (i & l & Eg & Hrv).
    destruct (pair_deliver _ _ _ _ _ _ _ _ _ _ _ _ _ _ Hpc Hp Eg Hrv) as (e1 & e1' & f1 & f1' & E1 & Hp1 & Ers & Ers' & _). rewrite E in E1. injection E1 as <- <-.
    apply (net_inv_of _ _ x). exists c, d, (executed i l g), (arrived i g'), f1, f1'. unfold on_ep. cbn [n_ep n_sent n_got]. rewrite upd_eq.
    replace (upd (upd (n_ep N) x a) (negb x) b x) with a by (by destruct x). split_and!; try done. intros (H1 & H2 & H3 & H4)%Hopen.
    destruct (calm_executed _ _ _ Eg H1) as [Hi H1']. unfold both_open. rewrite Ers, Ers'. split_and!; try done. by apply calm_arrived.
  - destruct (pair_complete _ _ _ _ _ _ _ _ _ _ _ _ _ _ Hp E) as (i & l & Eg & Hp1 & Hst). eapply net_inv_on; [done..|]. intros Ho%Hopen.
    eapply both_open_on; [done| |done]. by apply calm_completed.
Qed.

Lemma open_inv op N N' : net_inv op N → open_step N N' → net_inv op N'.
Proof.
  intros Hinv Hstep. destruct Hstep as [N N' Hs|N x buf olen n ol e Hb Ho Hcan E|N x e E|N x a v er]; [by eapply idle_inv|..];
    destruct (net_inv_at op N x Hinv) as (c & d & g & g' & f & f' & Hpc & Hp & Hopen).
  - destruct (pair_send _ _ _ _ _ _ _ _ _ _ _ _ _ _ _ Hpc Hp Hb Ho Hcan) as (n1 & ol1 & e1 & g1 & f1 & E1 & _ & Hp1 & Hst & Hcalm). rewrite E in E1. injection E1 as <- <- <-.
    apply (net_inv_of _ _ x). exists c, d, g1, g', f1, f'. cbn [n_ep n_sent n_got]. rewrite !upd_eq, !upd_ne. split_and!; try done.
    intros Hq%Hopen. by eapply both_open_on.
  - destruct (pair_keepalive _ _ _ _ _ _ _ _ _ _ _ _ _ Hpc Hp) as (e1 & g1 & E1 & Hp1 & Hst & Hcalm). rewrite E in E1. injection E1 as <-.
    eapply net_inv_on; [done..|]. intros Hq%Hopen. by eapply both_open_on.
  - eapply net_inv_on; [done|by apply pair_flags|]. intros Hq%Hopen. by eapply both_open_on.
Qed.

Lemma net_inv_step N N' : net_inv false N → net_step N N' → net_inv false N'.
Proof.
  intros Hinv Hstep. destruct Hstep as [N N' Hs|N x how Hst|N x q ret e Hq E]; [by eapply open_inv|..];
    destruct (net_inv_at false N x Hinv) as (c & d & g & g' & f & f' & Hpc & Hp & _).
  - eapply net_inv_on; [done|by apply pair_shut|done].
  - destruct (pair_ctrl _ _ _ _ _ _ _ _ _ _ _ _ _ _ Hpc Hp Hq) as (e1 & g1 & E1 & Hp1). rewrite E in E1. injection E1 as _ <-. by eapply net_inv_on.
Qed.

(** The states of two sockets from their creation on; [opened]: while nobody closes the connection. *)
Inductive reachable (u : bool → setup) : net → Prop :=
  | reach_start N : establish u = Ok N → reachable u N
  | reach_step N N' : reachable u N → net_step N N' → reachable u N'.
Inductive opened (u : bool → setup) : net → Prop :=
  | opened_start N : establish u = Ok N → opened u N
  | opened_step N N' : opened u N → open_step N N' → opened u N'.

Section Reach.
Context (u : bool → setup) (H1 : setup_ok (u true)) (H2 : setup_ok (u false)).

Lemma start_inv N : establish u = Ok N → net_inv true N.
Proof. intros E. destruct (establish_run u H1 H2) as (N1 & E1 & Hi & _). rewrite E in E1. by injection E1 as <-. Qed.
Lemma net_reach_inv N : reachable u N → net_inv false N.
Proof. induction 1 as [N E|N N' _ IH Hs]; [by apply net_inv_weaken with true, start_inv|by eapply net_inv_step]. Qed.
Lemma opened_inv N : opened u N → net_inv true N.
Proof. induction 1 as [N E|N N' _ IH Hs]; [by apply start_inv|by eapply open_inv]. Qed.
End Reach.
