(* ===== verification/RsLive.v ===== *)
(** * Two rsockets: the byte streams, flow control and progress *)

From S2P Require Import Prelude Layout FfTypes Attrs Request Cma Rsocket RsNet RsItems RsStream RsSteps RsPoll RsConn RsSafe.

#[local] Arguments outs : simpl never.

(** ** Progress *)
Definition connected (N : net) (x : bool) : bool := has (state (e_rs (n_ep N x))) rs_connected.

(** The invariant seen from [x], with what was sent and received so far. *)
Definition pair_at (x : bool) (N : net) (c d : rs_cfg) (g g' : side) (f f' : flow) : Prop :=
  pair_ok c d (n_ep N x) (n_ep N (negb x)) g g' (n_sent N x) (n_sent N (negb x)) (n_got N x) (n_got N (negb x)) f f' 0.

Lemma pair_at_sym x N c d g g' f f' : pair_at x N c d g g' f f' → pair_at (negb x) N d c g' g f' f.
Proof. intros H. unfold pair_at. rewrite negb_involutive. by apply pair_sym. Qed.

Definition load_of (g : side) : Z := 4 * lenZ (g_send g) + 2 * lenZ (g_done g) + lenZ (g_cq g).
Definition weight (g g' : side) : Z := load_of g + load_of g'.

Lemma load_nonneg g : 0 ≤ load_of g.
Proof. unfold load_of. pose proof (lenZ_nonneg (g_send g)). pose proof (lenZ_nonneg (g_done g)). pose proof (lenZ_nonneg (g_cq g)). lia. Qed.

(** A state that differs by messages that have moved on, nothing sent or received meanwhile. *)
Record moved (x : bool) (c d : rs_cfg) (N : net) (g g' : side) (f f' : flow) (N1 : net) (g1 g1' : side) (f1 f1' : flow) : Prop := {
  mv_steps : rtc idle_step N N1;
  mv_pair : pair_at x N1 c d g1 g1' f1 f1';
  mv_sent : n_sent N1 = n_sent N ∧ n_got N1 = n_got N;
  mv_out : same_end f g g' f1 g1 g1';
  mv_in : same_end f' g' g f1' g1' g1
}.

Lemma moved_refl x c d N g g' f f' : pair_at x N c d g g' f f' → moved x c d N g g' f f' N g g' f f'.
Proof. intros H. by constructor; [constructor| | | |]. Qed.
Lemma moved_trans x c d N g g' f f' N1 g1 g1' f1 f1' N2 g2 g2' f2 f2' :
  moved x c d N g g' f f' N1 g1 g1' f1 f1' → moved x c d N1 g1 g1' f1 f1' N2 g2 g2' f2 f2' → moved x c d N g g' f f' N2 g2 g2' f2 f2'.
Proof.
  intros [H1 _ [E1 E2] H3 H4] [H5 H6 [E3 E4] H7 H8]. constructor; [by etrans|done|by rewrite E3, E4, E1, E2|by eapply same_end_trans|by eapply same_end_trans].
Qed.
Lemma moved_sym x c d N g g' f f' N1 g1 g1' f1 f1' :
  moved (negb x) d c N g' g f' f N1 g1' g1 f1' f1 → moved x c d N g g' f f' N1 g1 g1' f1 f1'.
Proof. intros []. constructor; try done. rewrite <- (negb_involutive x). by apply pair_at_sym. Qed.

(** Either less is under way, or a side is not connected any more. *)
Definition smaller (N1 : net) (g g' g1 g1' : side) : Prop := weight g1 g1' < weight g g' ∨ ∃ y, connected N1 y = false.

Section Moves.
Context (x : bool) (c d : rs_cfg) (N : net) (g g' : side) (f f' : flow).
Context (Hpc : pair_cfg c d) (Hp : pair_at x N c d g g' f f').

Lemma poll_move : g_cq g ≠ [] → ∃ N1 g1 f1 f1', moved x c d N g g' f f' N1 g1 g' f1 f1' ∧ smaller N1 g g' g1 g'.
Proof.
  intros Hq. destruct (pair_poll _ _ _ _ _ _ _ _ Hpc (S (length (g_cq g))) _ _ _ _ Hp) as [[_ Hl]|(e1 & g1 & E1 & (f1 & f1' & Hp1 & Ho & Hi & Es & Ed & _) & Hc)].
  { unfold lenZ in Hl. lia. }
  exists (on_ep x e1 N), g1, f1, f1'. split.
  - constructor; try done; [by apply rtc_once; econstructor|]. unfold pair_at, on_ep. cbn [n_ep n_sent n_got]. by rewrite upd_eq, upd_ne.
  - destruct (has (state (e_rs e1)) rs_connected) eqn:Est.
    + left. unfold weight, load_of. rewrite Es, Ed, Hc by done. change (@lenZ comp []) with 0. destruct (g_cq g); [done|]. rewrite lenZ_cons. pose proof (lenZ_nonneg l). lia.
    + right. exists x. unfold connected, on_ep. cbn [n_ep]. by rewrite upd_eq.
Qed.

Lemma complete_move : g_done g ≠ [] → ∃ N1 g1 f1 f1', moved x c d N g g' f f' N1 g1 g' f1 f1' ∧ smaller N1 g g' g1 g'.
Proof.
  intros Hd. destruct (complete (n_ep N x)) as [e1|] eqn:E.
  - destruct (pair_complete _ _ _ _ _ _ _ _ _ _ _ _ _ _ Hp E) as (i & l & Eg & Hp1 & _). eexists (on_ep x e1 N), _, f, f'. split.
    + constructor; [by apply rtc_once; econstructor| |done|..].
      * unfold pair_at, on_ep. cbn [n_ep n_sent n_got]. rewrite upd_eq, upd_ne. exact Hp1.
      * unfold same_end, cred_end. cbn [g_cq g_send]. rewrite omap_app. cbn. by rewrite app_nil_r.
      * done.
    + left. unfold weight, load_of. cbn [g_send g_done g_cq]. rewrite Eg, lenZ_cons, lenZ_snoc. lia.
  - exfalso. unfold complete in E. destruct Hp as [Hs _ _ _]. rewrite (s_done _ _ _ _ _ Hs) in E. by destruct (g_done g).
Qed.

Lemma deliver_move : g_send g ≠ [] → g_cq g' = [] → connected N (negb x) = true →
  ∃ N1 g1 g1' f1 f1', moved x c d N g g' f f' N1 g1 g1' f1 f1' ∧ smaller N1 g g' g1 g1'.
Proof.
  intros Hd Hq Hc. destruct (g_send g) as [|i l] eqn:Eg; [done|]. pose proof Hpc as [_ Hdk _ _].
  assert (q_recv (e_k (n_ep N (negb x))) ≠ []) as Hr.
  { destruct Hp as [_ Hs' _ _]. pose proof (s_rall _ _ _ _ _ Hs' Hc) as Hall. rewrite Hq in Hall. change (lenZ (crecv [])) with 0 in Hall.
    pose proof (ok_rq d Hdk) as Hrq. unfold RS_QP_MIN_SIZE in Hrq. intros E. rewrite E in Hall. change (@lenZ rs_recv_wr []) with 0 in Hall. lia. }
  destruct (pair_deliver _ _ _ _ _ _ _ _ _ _ _ _ _ _ Hpc Hp Eg (or_intror Hr)) as (e1 & e1' & f1 & f1' & E1 & Hp1 & _ & _ & Ho & Hi).
  exists (on_ep (negb x) e1' (on_ep x e1 N)), (executed i l g), (arrived i g'), f1, f1'. split.
  - constructor; [by apply rtc_once; econstructor| |done|done|done].
    unfold pair_at, on_ep. cbn [n_ep n_sent n_got]. rewrite upd_eq. replace (upd (upd (n_ep N) x e1) (negb x) e1' x) with e1; [exact Hp1|]. by destruct x.
  - left. unfold weight, load_of, executed, arrived. cbn [g_send g_done g_cq]. rewrite Eg, lenZ_cons, lenZ_snoc, lenZ_app.
    assert (lenZ (match i with IKeep _ => [] | _ => [CRecv i] end) ≤ 1) by (destruct i; done). lia.
Qed.
End Moves.

Definition quiet (g : side) : Prop := g_send g = [] ∧ g_done g = [] ∧ g_cq g = [].
Definition one_down (N : net) : Prop := ∃ y, connected N y = false.

Lemma one_down_dec N x : (connected N x = true ∧ connected N (negb x) = true) ∨ one_down N.
Proof.
  destruct (connected N x) eqn:E1; [|right; by exists x]. destruct (connected N (negb x)) eqn:E2; [by left|right; by exists (negb x)].
Qed.

(** A move makes less of what is under way. *)
Lemma some_move x c d N g g' f f' : pair_cfg c d → pair_at x N c d g g' f f' →
  connected N x = true → connected N (negb x) = true → (quiet g ∧ quiet g') ∨
  ∃ N1 g1 g1' f1 f1', moved x c d N g g' f f' N1 g1 g1' f1 f1' ∧ smaller N1 g g' g1 g1'.
Proof.
  intros Hpc Hp Hc1 Hc2. pose proof (pair_cfg_sym _ _ Hpc) as Hpc'. pose proof (pair_at_sym _ _ _ _ _ _ _ _ Hp) as Hp'.
  assert (∀ N1 g1 g1', smaller N1 g' g g1' g1 → smaller N1 g g' g1 g1') as Hsm.
  { unfold smaller, weight. intros N1 g1 g1' [H|H]; [left; lia|by right]. }
  destruct (decide (g_cq g = [])) as [Q1|Q1].
  2: { right. destruct (poll_move _ _ _ _ _ _ _ _ Hpc Hp Q1) as (N1 & g1 & f1 & f1' & H). by exists N1, g1, g', f1, f1'. }
  destruct (decide (g_cq g' = [])) as [Q2|Q2].
  2: { right. destruct (poll_move _ _ _ _ _ _ _ _ Hpc' Hp' Q2) as (N1 & g1 & f1 & f1' & H1 & H2). exists N1, g, g1, f1', f1. split; [by apply moved_sym|by apply Hsm]. }
  destruct (decide (g_done g = [])) as [D1|D1].
  2: { right. destruct (complete_move _ _ _ _ _ _ _ _ Hp D1) as (N1 & g1 & f1 & f1' & H). by exists N1, g1, g', f1, f1'. }
  destruct (decide (g_done g' = [])) as [D2|D2].
  2: { right. destruct (complete_move _ _ _ _ _ _ _ _ Hp' D2) as (N1 & g1 & f1 & f1' & H1 & H2). exists N1, g, g1, f1', f1. split; [by apply moved_sym|by apply Hsm]. }
  destruct (decide (g_send g = [])) as [S1|S1].
  2: { right. by apply deliver_move. }
  destruct (decide (g_send g' = [])) as [S2|S2]; [by left|].
  right. destruct (deliver_move _ _ _ _ _ _ _ _ Hpc' Hp' S2 Q1) as (N1 & g1 & g1' & f1 & f1' & H1 & H2); [by rewrite negb_involutive|].
  exists N1, g1', g1, f1', f1. split; [by apply moved_sym|by apply Hsm].
Qed.

(** Everything under way arrives, unless a side is disconnected. *)
Lemma settle x c d k : ∀ N g g' f f', pair_cfg c d → pair_at x N c d g g' f f' → weight g g' ≤ Z.of_nat k →
  ∃ N1 g1 g1' f1 f1', moved x c d N g g' f f' N1 g1 g1' f1 f1' ∧ (one_down N1 ∨ quiet g1 ∧ quiet g1').
Proof.
  induction k as [|k IH]; intros N g g' f f' Hpc Hp Hw;
    (destruct (one_down_dec N x) as [[H1 H2]|H]; [|exists N, g, g', f, f'; split; [by apply moved_refl|by left]]);
    (destruct (some_move _ _ _ _ _ _ _ _ Hpc Hp H1 H2) as [Hq|(N1 & g1 & g1' & f1 & f1' & Hm & Hs)];
      [exists N, g, g', f, f'; split; [by apply moved_refl|by right]|]); destruct Hs as [Hs|Hs];
    try (exists N1, g1, g1', f1, f1'; split; [done|by left]).
  - pose proof (load_nonneg g1). pose proof (load_nonneg g1'). unfold weight in *. lia.
  - destruct (IH N1 g1 g1' f1 f1' Hpc (mv_pair _ _ _ _ _ _ _ _ _ _ _ _ _ Hm)) as (N2 & g2 & g2' & f2 & f2' & Hm2 & Hq); [lia|].
    exists N2, g2, g2', f2, f2'. split; [by eapply moved_trans|done].
Qed.

(** The peer reads all that has arrived. *)
Lemma read_all x c d k : ∀ N g g' f f', pair_cfg c d → pair_at x N c d g g' f f' → sum (f_m f) ≤ Z.of_nat k →
  ∃ N1 f1, rtc idle_step N N1 ∧ pair_at x N1 c d g g' f1 f' ∧ f_m f1 = [] ∧ n_sent N1 = n_sent N ∧ connected N1 x = connected N x ∧
    connected N1 (negb x) = connected N (negb x).
Proof.
  induction k as [|k IH]; intros N g g' f f' Hpc Hp Hk.
  - exists N, f. split_and!; try done. destruct Hp as [_ _ Hf _]. pose proof (fl_pos _ _ _ _ _ _ _ _ _ _ _ _ _ Hf) as Hpos.
    destruct (f_m f) as [|n l]; [done|]. apply list.Forall_cons in Hpos as [Hn Hl]. pose proof (sum_nonneg _ Hl). cbn in Hk. unfold sum in *. lia.
  - destruct (rs_have_rdata (e_rs (n_ep N (negb x))) (e_mem (n_ep N (negb x)))) eqn:Er.
    + pose proof (pair_at_sym _ _ _ _ _ _ _ _ Hp) as Hp'.
      destruct (pair_recv _ _ _ _ _ _ _ _ _ _ _ _ _ 1 (pair_cfg_sym _ _ Hpc) Hp' ltac:(lia) Er) as (bs & e1 & f1 & E1 & Hb & Hst & Hp1 & Hsum).
      set (N1 := mkNet (upd (n_ep N) (negb x) e1) (n_sent N) (upd (n_got N) (negb x) (n_got N (negb x) ++ bs))).
      assert (pair_at x N1 c d g g' f1 f') as Hp2.
      { unfold N1, pair_at. cbn [n_ep n_sent n_got]. rewrite !upd_eq. rewrite negb_involutive in Hp1.
        replace (upd (n_ep N) (negb x) e1 x) with (n_ep N x) by (by destruct x).
        replace (upd (n_got N) (negb x) (n_got N (negb x) ++ bs) x) with (n_got N x) by (by destruct x). by apply pair_sym. }
      destruct (IH N1 g g' f1 f' Hpc Hp2) as (N2 & f2 & Hr & Hp3 & Hm & Es & C1 & C2); [lia|].
      exists N2, f2. split; [apply rtc_l with N1; [|done]; by apply (net_recv N (negb x) 1 bs e1)|]. split_and!; try done.
      * rewrite C1. unfold connected, N1. cbn [n_ep]. by replace (upd (n_ep N) (negb x) e1 x) with (n_ep N x) by (by destruct x).
      * rewrite C2. unfold connected, N1. cbn [n_ep]. by rewrite upd_eq, Hst.
    + exists N, f. split_and!; try done. destruct Hp as [_ _ Hf _]. pose proof (fl_ring _ _ _ _ _ _ _ _ _ _ _ _ _ Hf) as Hring.
      unfold rs_have_rdata in Er. apply negb_false_iff, Z.eqb_eq in Er. apply (ring_empty _ _ _ _ _ Hring) in Er. by apply fmap_nil_inv in Er.
Qed.

(** With nothing under way, credit left and a part of the receive buffer given, the socket can send. *)
Lemma can_send_quiet x c d N g g' f f' : pair_cfg c d → pair_at x N c d g g' f f' → quiet g → quiet g' →
  f_s f < f_c f → lenZ (n_sent N x) < f_g f * hsize d → rs_can_send (e_rs (n_ep N x)) (e_mem (n_ep N x)) = true.
Proof.
  intros [Hc Hd _ _] [Hs _ Hf _] (Q1 & Q2 & Q3) (Q1' & _ & Q3') Hfc Hroom.
  rewrite Q1, Q3, Q1', Q3' in Hf. change (crecv []) with (@nil item) in Hf. destruct Hs. destruct Hf. set (r := e_rs (n_ep N x)) in *.
  assert (outs g = []) as Eo by (unfold outs; by rewrite Q1, Q2, Q3). rewrite Eo in s_sqe, s_bytes. change (lenZ (datas [])) with 0 in s_sqe.
  change (total (datas [])) with 0 in s_bytes. change (lenZ (datas [])) with 0 in fl_count.
  pose proof (ok_sq c Hc) as Hsq. pose proof (ok_sbuf c Hc) as Hsb. pose proof (ok_rq d Hd) as Hrq. unfold RS_QP_MIN_SIZE, RS_QP_MAX_SIZE, RS_SNDLOWAT in *.
  destruct (hsize_double d Hd) as [_ Hh]. pose proof (climbs_le _ _ _ fl_climbs) as Hcl. pose proof (lenZ_nonneg (f_m f)).
  destruct fl_halves as [Eh Hle]. cbn in Eh.
  assert (f_d f = f_g f) as Edg.
  { apply (f_equal length) in Eh. rewrite length_seqZ in Eh. cbn in Eh. lia. }
  set (w := lenZ (n_sent N x)) in *. set (h := hsize d) in *.
  assert (w / h < f_d f) as Hwd by (rewrite Edg; apply Z.div_lt_upper_bound; lia).
  unfold rs_can_send. rewrite (proj1 s_opts). cbn [negb]. rewrite !andb_true_iff, !negb_true_iff, !Z.eqb_neq, Z.leb_le. split_and!.
  - lia.
  - unfold RS_SNDLOWAT. lia.
  - rewrite (proj1 fl_sseq), (proj1 fl_credit). intros E. unfold u16 in E. assert (f_c f = f_s f); [|lia].
    apply (mod_small_inj (2 ^ 16)); [done|by symmetry|lia].
  - destruct (fl_entries (w / h)) as [El _]; [lia|]. unfold cur_sge. rewrite s_cfg, fl_target, sizeof_sge. fold w h in El |- *. rewrite El. unfold room.
    destruct (Z.ltb_spec (w / h) (f_d f)); [|lia]. rewrite Z.eqb_refl. pose proof (Z.div_mod w h). pose proof (Z.mod_pos_bound w h). lia.
Qed.

(** The comparison of 16-bit message numbers sees their distance. *)
Lemma sint_mod z : sint 16 z mod 2 ^ 16 = z mod 2 ^ 16.
Proof.
  unfold sint. destruct (Z.ltb (z mod 2 ^ 16) (2 ^ (16 - 1))); [by rewrite Z.mod_mod|].
  rewrite <- (Z.mod_add (z mod 2 ^ 16 - 2 ^ 16) 1) by done. rewrite Z.mul_1_l, Z.sub_add. by rewrite Z.mod_mod.
Qed.
Lemma sint_distance a b : 0 ≤ a - b < 2 ^ 15 → sint 16 (sint 16 (u16 a) - sint 16 (u16 b)) = a - b.
Proof.
  intros H. unfold sint at 1. rewrite Zminus_mod, !sint_mod. unfold u16. rewrite !Z.mod_mod by done. rewrite <- Zminus_mod.
  rewrite Z.mod_small by lia. by destruct (Z.ltb_spec (a - b) (2 ^ (16 - 1))); [|lia].
Qed.

(** With nothing under way and all read, the reader gives credits when the sender needs them. *)
Lemma credits_due x c d N g g' f f' : pair_cfg c d → pair_at x N c d g g' f f' → quiet g → quiet g' → f_m f = [] →
  connected N (negb x) = true → f_s f = f_c f ∨ lenZ (n_sent N x) = f_g f * hsize d →
  rs_give_credits (e_rs (n_ep N (negb x))) = true.
Proof.
  intros [Hc Hd _ _] [_ Hs Hf _] (Q1 & Q2 & Q3) (Q1' & Q2' & Q3') Hm Hconn Hneed.
  rewrite Q1, Q3, Q1', Q3' in Hf. change (crecv []) with (@nil item) in Hf. destruct Hs. destruct Hf. rewrite Hm in *. set (r := e_rs (n_ep N (negb x))) in *.
  change (lenZ (datas [])) with 0 in fl_count. change (@lenZ Z []) with 0 in fl_count.
  cbn in fl_arr, fl_snd, fl_climbs. change (last (creds [] ++ creds []) (f_c f)) with (f_c f) in fl_due.
  pose proof (ok_rq d Hd) as Hrq. unfold RS_QP_MIN_SIZE, RS_QP_MAX_SIZE in Hrq. destruct (hsize_double d Hd) as [Hrb Hh]. destruct (ok_rbuf d Hd) as [Hrs _].
  assert (outs g' = []) as Eo by (unfold outs; by rewrite Q1', Q2', Q3'). rewrite Eo in s_seq. change (lenZ (slots [])) with 0 in s_seq.
  unfold rs_give_credits. rewrite (proj1 s_opts). cbn [negb]. rewrite !andb_true_iff, orb_true_iff. split_and!; [|unfold rs_ctrl_avail|done].
  - destruct Hneed as [Hn|Hn].
    + right. unfold seq_due. rewrite fl_due, (proj2 fl_sseq). apply Z.leb_le.
      pose proof (Z.div_mod (rq_size d) 2). pose proof (Z.mod_pos_bound (rq_size d) 2).
      rewrite sint_distance; lia.
    + left. unfold half_free. rewrite half_eq, s_cfg. destruct fl_avail as [Ea Ea0]. rewrite u32_id by lia. apply Z.leb_le. lia.
  - rewrite negb_true_iff, Z.eqb_neq. destruct s_seq as [-> ->]. unfold u32. intros E.
    assert (g_ctl g' + 4 - 0 = g_ctl g'); [|lia]. apply (mod_small_inj (2 ^ 32)); [done|by symmetry|lia].
Qed.

(** From a quiet state in which the peer has read everything. *)
Lemma unblock x c d N g g' f f' : pair_cfg c d → pair_at x N c d g g' f f' → quiet g → quiet g' → f_m f = [] →
  connected N (negb x) = true →
  ∃ N1, rtc idle_step N N1 ∧
    (one_down N1 ∨ rs_can_send (e_rs (n_ep N1 x)) (e_mem (n_ep N1 x)) = true ∧ n_got N1 (negb x) = n_sent N x).
Proof.
  intros Hpc Hp Q Q' Hm Hconn. pose proof Hpc as [_ Hd _ _]. destruct (hsize_double d Hd) as [_ Hh].
  pose proof (flow_window _ _ _ _ _ _ _ _ _ _ _ _ _ Hd (p_out _ _ _ _ _ _ _ _ _ _ _ _ _ Hp)) as Hw.
  pose proof (p_out _ _ _ _ _ _ _ _ _ _ _ _ _ Hp) as Hf. pose proof Q as (Q1 & _ & Q3). pose proof Q' as (Q1' & _ & Q3').
  rewrite Q1, Q3, Q1', Q3' in Hf. change (crecv []) with (@nil item) in Hf.
  pose proof (fl_known _ _ _ _ _ _ _ _ _ _ _ _ _ Hf) as Hk. pose proof (fl_halves _ _ _ _ _ _ _ _ _ _ _ _ _ Hf) as [_ Hdg].
  pose proof (fl_credit _ _ _ _ _ _ _ _ _ _ _ _ _ Hf) as [_ Hsc]. pose proof (fl_count _ _ _ _ _ _ _ _ _ _ _ _ _ Hf) as Hcount.
  pose proof (fl_arr _ _ _ _ _ _ _ _ _ _ _ _ _ Hf) as Harr. pose proof (fl_snd _ _ _ _ _ _ _ _ _ _ _ _ _ Hf) as Hsnd.
  pose proof (fl_avail _ _ _ _ _ _ _ _ _ _ _ _ _ Hf) as [Hav _]. rewrite Hm in Hcount, Harr. cbn in Harr, Hsnd.
  change (lenZ (datas [])) with 0 in Hcount. change (@lenZ Z []) with 0 in Hcount.
  assert (f_d f * hsize d ≤ f_g f * hsize d) as Hdh by (clear -Hdg Hh; nia).
  assert (n_got N (negb x) = n_sent N x) as Hall.
  { apply prefix_length_eq; [by apply (fl_prefix _ _ _ _ _ _ _ _ _ _ _ _ _ Hf)|]. unfold lenZ in *. lia. }
  destruct (decide (f_s f < f_c f ∧ lenZ (n_sent N x) < f_g f * hsize d)) as [[H1 H2]|Hno].
  { exists N. split; [constructor|]. right. split; [|done]. by eapply can_send_quiet. }
  assert (rs_give_credits (e_rs (n_ep N (negb x))) = true) as Hgive.
  { eapply (credits_due x c d N); try done. destruct (decide (f_s f = f_c f)); [by left|]. right. lia. }
  destruct (pair_credits _ _ _ _ _ _ _ _ _ _ _ _ _ (pair_cfg_sym _ _ Hpc) (pair_at_sym _ _ _ _ _ _ _ _ Hp)) as (e1 & g1 & f1 & E1 & Hp1 & Hst & _ & Es & Er & Hg).
  destruct (Hg Hgive) as [Eg Ec]. rewrite negb_involutive in Hp1.
  set (N1 := on_ep (negb x) e1 N).
  assert (pair_at x N1 c d g g1 f1 f') as Hp2.
  { unfold pair_at, N1, on_ep. cbn [n_ep n_sent n_got]. rewrite upd_eq. replace (upd (n_ep N) (negb x) e1 x) with (n_ep N x) by (by destruct x). by apply pair_sym. }
  destruct (settle x c d (Z.to_nat (weight g g1)) N1 g g1 f1 f' Hpc Hp2) as (N2 & g2 & g2' & f2 & f2' & [Hr Hp3 [Es2 Eg2] (Ho1 & Ho2 & Ho3 & Ho4) _] & Hq); [lia|].
  exists N2. split; [apply rtc_l with N1; [by econstructor|done]|]. destruct Hq as [Hq|[Qa Qb]]; [by left|]. right.
  split; [|by rewrite Eg2].
  assert (f_c f2 = f_r f + rq_size d) as Ec2.
  { rewrite <- Ec, <- Ho4. unfold cred_end. destruct Qa as (_ & _ & ->), Qb as (-> & _). done. }
  pose proof (ok_rq d Hd) as Hrq. unfold RS_QP_MIN_SIZE in Hrq. pose proof Hp as [_ Hs' _ _]. pose proof (s_cfg _ _ _ _ _ Hs') as Hcfg.
  eapply (can_send_quiet x c d N2); try done.
  - rewrite Ho1, Es, Ec2. lia.
  - rewrite Es2, Ho3, Eg. change (n_sent N1) with (n_sent N). destruct (half_free (e_rs (n_ep N (negb x)))) eqn:Ehf; [lia|].
    unfold half_free in Ehf. rewrite half_eq, Hcfg in Ehf. apply Z.leb_gt in Ehf. destruct (ok_rbuf d Hd) as [Hrs _]. destruct (hsize_double d Hd) as [Hrb _].
    pose proof (fl_avail _ _ _ _ _ _ _ _ _ _ _ _ _ Hf) as [_ Hav0]. rewrite u32_id in Ehf by lia. lia.
Qed.

Lemma progress op N x : net_inv op N → ∃ N1, rtc idle_step N N1 ∧
  (one_down N1 ∨ rs_can_send (e_rs (n_ep N1 x)) (e_mem (n_ep N1 x)) = true ∧ n_got N1 (negb x) = n_sent N x).
Proof.
  intros Hinv. destruct (net_inv_at _ N x Hinv) as (c & d & g & g' & f & f' & Hpc & Hp & _).
  destruct (settle x c d (Z.to_nat (weight g g')) N g g' f f' Hpc Hp) as (N1 & g1 & g1' & f1 & f1' & [Hr Hp1 [Es _] _ _] & Hq); [lia|].
  destruct (one_down_dec N1 x) as [[C1 C2]|H]; [|exists N1; split; [done|by left]]. destruct Hq as [Hq|[Q Q']]; [exists N1; split; [done|by left]|].
  destruct (read_all x c d (Z.to_nat (sum (f_m f1))) N1 g1 g1' f1 f1' Hpc Hp1) as (N2 & f2 & Hr2 & Hp2 & Hm & Es2 & _ & C3); [lia|].
  destruct (unblock x c d N2 g1 g1' f2 f1' Hpc Hp2 Q Q' Hm) as (N3 & Hr3 & H3); [by rewrite C3|].
  exists N3. split; [etrans; [done|]; by etrans|]. by rewrite <- Es, <- Es2.
Qed.

Lemma idle_steps_inv op N N' : net_inv op N → rtc idle_step N N' → net_inv op N'.
Proof. intros H. induction 1 as [N|N N1 N2 Hs _ IH]; [done|]. apply IH. by eapply idle_inv. Qed.

(** ** The abstract view: a pipe of bytes in each direction *)
Inductive event := Put (x : bool) (bs : list Z) | Take (x : bool) (bs : list Z) | Idle.

Inductive pipe_step (P P' : bool → list Z) : event → Prop :=
  | pipe_put x bs : bs ≠ [] → P' x = P x ++ bs → P' (negb x) = P (negb x) → pipe_step P P' (Put x bs)
  | pipe_take x bs : bs ≠ [] → P (negb x) = bs ++ P' (negb x) → P' x = P x → pipe_step P P' (Take x bs)
  | pipe_idle : (∀ x, P' x = P x) → pipe_step P P' Idle.

(** What a step did, as the applications see it. *)
Definition happened (N N' : net) (v : event) : Prop :=
  match v with
  | Put x bs => n_sent N' = upd (n_sent N) x (n_sent N x ++ bs) ∧ n_got N' = n_got N
  | Take x bs => n_sent N' = n_sent N ∧ n_got N' = upd (n_got N) x (n_got N x ++ bs)
  | Idle => n_sent N' = n_sent N ∧ n_got N' = n_got N
  end.

(** Sent by [x] and not yet received. *)
Definition in_pipe (N : net) (x : bool) : list Z := dropZ (lenZ (n_got N (negb x))) (n_sent N x).

Lemma inv_prefix op N x : net_inv op N → n_got N (negb x) `prefix_of` n_sent N x.
Proof. intros H. destruct (net_inv_at _ N x H) as (c & d & g & g' & f & f' & _ & [_ _ Hf _] & _). apply Hf. Qed.

Lemma drop_prefix (l k : list Z) bs : l ++ bs `prefix_of` k → dropZ (lenZ l) k = bs ++ dropZ (lenZ (l ++ bs)) k.
Proof.
  intros [t ->]. unfold dropZ, lenZ. rewrite !Nat2Z.id. rewrite (drop_app_length (l ++ bs)), <- app_assoc. by rewrite drop_app_length.
Qed.

Lemma step_pipes N N' : net_inv false N → net_step N N' → ∃ v, happened N N' v ∧ pipe_step (in_pipe N) (in_pipe N') v.
Proof.
  intros Hinv Hs. pose proof (net_inv_step _ _ Hinv Hs) as Hinv'.
  destruct Hs as [N0 N1 [N2 N3 [N x left bs e Hl Hr E|N x e E|N x fuel ret e E|N x a b E|N x a E]|N x buf olen n ol e Hb Ho Hcan E|N x e E|N x a v er]|N x how Hst|N x q ret e Hq E];
    try (exists Idle; split; [by split|by constructor]).
  - destruct (net_inv_at _ N x Hinv) as (c & d & g & g' & f & f' & Hpc & Hp & _).
    destruct (pair_recv _ _ _ _ _ _ _ _ _ _ _ _ _ _ Hpc Hp Hl Hr) as (bs1 & e1 & f1 & E1 & Hb & _). rewrite E in E1. injection E1 as <- <-.
    exists (Take x bs). split; [by split|]. pose proof (inv_prefix _ _ (negb x) Hinv') as Hpre. cbn [n_got n_sent] in Hpre. rewrite negb_involutive, upd_eq in Hpre. constructor.
    + intros ->. change (@lenZ Z []) with 0 in Hb. lia.
    + unfold in_pipe. cbn [n_sent n_got]. rewrite negb_involutive, upd_eq. by apply drop_prefix.
    + unfold in_pipe. cbn [n_sent n_got]. by rewrite upd_ne.
  - destruct (net_inv_at _ N x Hinv) as (c & d & g & g' & f & f' & Hpc & Hp & _).
    destruct (pair_send _ _ _ _ _ _ _ _ _ _ _ _ _ _ _ Hpc Hp Hb Ho Hcan) as (n1 & ol1 & e1 & g1 & f1 & E1 & Hn & _). rewrite E in E1. injection E1 as <- <- <-.
    exists (Put x (takeZ n buf)). split; [by split|]. pose proof (prefix_length _ _ (inv_prefix _ N x Hinv)) as Hpl. constructor.
    + intros E0. apply (f_equal lenZ) in E0. rewrite lenZ_takeZ in E0 by lia. change (@lenZ Z []) with 0 in E0. lia.
    + unfold in_pipe. cbn [n_sent n_got]. rewrite upd_eq. unfold dropZ, lenZ. rewrite !Nat2Z.id. by rewrite drop_app_le.
    + unfold in_pipe. cbn [n_sent n_got]. by rewrite upd_ne.
Qed.

(** ** The theorems *)

(** C6. What the sockets transfer is a pipe of bytes in each direction: at the start the pipes are empty, and
    every step puts the bytes that were sent at the end of a pipe, or takes the bytes that are
    received from the front of the other, or leaves the pipes alone. *)
Theorem stream_refines u : setup_ok (u true) → setup_ok (u false) →
  (∃ N, establish u = Ok N ∧ ∀ x, in_pipe N x = []) ∧
  (∀ N N', reachable u N → net_step N N' → ∃ v, happened N N' v ∧ pipe_step (in_pipe N) (in_pipe N') v).
Proof.
  intros H1 H2. split.
  - destruct (establish_run u H1 H2) as (N & E & _ & Hz). exists N. split; [done|]. intros x. unfold in_pipe. destruct (Hz x) as [-> _]. unfold dropZ. by rewrite drop_nil.
  - intros N N' Hr. apply step_pipes. by eapply net_reach_inv.
Qed.


(** The members of a socket are within their types and bounds. *)
Record rs_typed (r : rsocket) : Prop := {
  ty_seq : 0 ≤ sseq_no (tx r) < 2 ^ 16 ∧ 0 ≤ sseq_comp (tx r) < 2 ^ 16 ∧ 0 ≤ rseq_no (rx r) < 2 ^ 16 ∧ 0 ≤ rseq_comp (rx r) < 2 ^ 16;
  ty_ctrl : 0 ≤ ctrl_seqno r < 2 ^ 32 ∧ 0 ≤ ctrl_max_seqno r < 2 ^ 32;
  ty_sqe : 0 ≤ sqe_avail (tx r) ≤ sq_size (cfg r) - RS_QP_CTRL_SIZE;
  ty_sbuf : 0 ≤ sbuf_bytes_avail (tx r) ≤ sbuf_size (cfg r) ∧ sbuf (cfg r) ≤ ssgl_addr (tx r) < sbuf (cfg r) + sbuf_size (cfg r);
  ty_rbuf : 0 ≤ rbuf_bytes_avail (rx r) ≤ rbuf_size (cfg r) ∧ 0 ≤ rbuf_offset (rx r) ≤ rbuf_size (cfg r) ∧
            0 ≤ rbuf_free_offset (rx r) < rbuf_size (cfg r);
  ty_sges : 0 ≤ target_sge (tx r) < RS_SGL_SIZE ∧ 0 ≤ remote_sge (rx r) < RS_SGL_SIZE;
  ty_rmsg : lenZ (rmsg (rx r)) = rq_size (cfg r) + 1 ∧ 0 ≤ rmsg_head (rx r) ≤ rq_size (cfg r) ∧ 0 ≤ rmsg_tail (rx r) ≤ rq_size (cfg r)
}.

(** C16. In every state the members of both sockets are within the ranges of their C types and within the bounds of the
    arrays and buffers they index or count. *)
Theorem sockets_typed u N x : setup_ok (u true) → setup_ok (u false) → reachable u N → rs_typed (e_rs (n_ep N x)).
Proof.
  intros H1 H2 Hr. destruct (net_inv_at _ N x (net_reach_inv u H1 H2 N Hr)) as (c & d & g & g' & f & f' & [Hc Hd _ _] & [Hs _ Ho Hi] & _).
  pose proof (flow_window _ _ _ _ _ _ _ _ _ _ _ _ _ Hc Hi) as (_ & _ & _ & _ & _ & Hav).
  destruct (hsize_double c Hc) as [Hrb Hh]. destruct (ok_sbuf c Hc) as [Hsb _]. unfold RS_SNDLOWAT in Hsb. pose proof (ok_rq c Hc) as Hrq. unfold RS_QP_MIN_SIZE in Hrq.
  pose proof (total_nonneg _ (proj1 (s_items _ _ _ _ _ Hs))) as Ht. pose proof (lenZ_nonneg (datas (outs g))) as Hl.
  pose proof (s_cfg _ _ _ _ _ Hs) as Hcfg.
  destruct (fl_ring _ _ _ _ _ _ _ _ _ _ _ _ _ Hi) as [Hrl Hrh _ Hrt _].
  constructor; rewrite ?Hcfg.
  - rewrite (proj1 (fl_sseq _ _ _ _ _ _ _ _ _ _ _ _ _ Ho)), (proj1 (fl_credit _ _ _ _ _ _ _ _ _ _ _ _ _ Ho)), (proj2 (fl_sseq _ _ _ _ _ _ _ _ _ _ _ _ _ Hi)), (fl_due _ _ _ _ _ _ _ _ _ _ _ _ _ Hi).
    split_and!; apply u16_range.
  - destruct (s_seq _ _ _ _ _ Hs) as [-> ->]. split; apply u32_range.
  - pose proof (s_sqe _ _ _ _ _ Hs). unfold RS_QP_CTRL_SIZE. lia.
  - pose proof (s_bytes _ _ _ _ _ Hs). rewrite (fl_ssgl _ _ _ _ _ _ _ _ _ _ _ _ _ Ho). pose proof (Z.mod_pos_bound (lenZ (n_sent N x)) (sbuf_size c)). lia.
  - pose proof (fl_avail _ _ _ _ _ _ _ _ _ _ _ _ _ Hi). pose proof (fl_off _ _ _ _ _ _ _ _ _ _ _ _ _ Hi). rewrite (proj1 (fl_free _ _ _ _ _ _ _ _ _ _ _ _ _ Hi)).
    pose proof (Z.mod_pos_bound (f_g f') 2). split; [lia|]. split; [lia|]. clear -Hh H3 Hrb. nia.
  - rewrite (fl_target _ _ _ _ _ _ _ _ _ _ _ _ _ Ho), (proj2 (fl_free _ _ _ _ _ _ _ _ _ _ _ _ _ Hi)). unfold RS_SGL_SIZE. split; by apply Z.mod_pos_bound.
  - pose proof (Z.mod_pos_bound (rmsg_head (rx (e_rs (n_ep N x))) + lenZ (mkMsg RS_OP_DATA <$> f_m f')) (rq_size c + 1)). lia.
Qed.

(** C10. The sockets cannot deadlock: from every state, reading, giving credits, polling and the device lead to
    one in which the peer has received everything and the sender can send again; otherwise a side is not
    connected any more, and that only happens when one of them has closed the connection. *)
Theorem no_deadlock u N x : setup_ok (u true) → setup_ok (u false) → reachable u N →
  ∃ N1, rtc idle_step N N1 ∧
    (rs_can_send (e_rs (n_ep N1 x)) (e_mem (n_ep N1 x)) = true ∧ n_got N1 (negb x) = n_sent N x ∨ one_down N1 ∧ ¬ opened u N).
Proof.
  intros H1 H2 Hr. destruct (progress false N x (net_reach_inv u H1 H2 N Hr)) as (N1 & Hs & [[y Hd]|H]); exists N1; (split; [done|]); [|by left].
  right. split; [by exists y|]. intros Ho. apply (opened_inv u H1 H2) in Ho. apply (idle_steps_inv _ _ _ Ho) in Hs.
  destruct (net_inv_at _ N1 y Hs) as (c & d & g & g' & f & f' & _ & _ & Hopen). destruct (Hopen eq_refl) as (_ & _ & Hc & _).
  unfold connected in Hd. by rewrite Hd in Hc.
Qed.

(** ** Two concrete sockets *)
Definition regs0 : regs :=
  mkRegs 1000 (λ g, match g with SMR => 0x10000 | TARGET_MR => 0x20000 | RMR => 0x30000 end) (λ g, match g with SMR => 1 | TARGET_MR => 2 | RMR => 3 end)
    (λ g, match g with SMR => 11 | TARGET_MR => 12 | RMR => 13 end).
Definition setup0 : setup := mkSetup regs0 4096 4096 384 16 64 0 (λ _, 0) 0.
Definition setups (x : bool) : setup := setup0.

Lemma setup0_ok : setup_ok setup0.
Proof.
  constructor; [|done|done|done]. assert (ep_cfg (su_regs setup0) (su_rs setup0) =
    mkCfg 4096 4096 384 16 0 0x10000 0x30000 0x20000 1 3 13 12 0 no_sge no_sge) as -> by reflexivity.
  constructor; cbn; unfold RS_SNDLOWAT, RS_QP_MIN_SIZE, RS_QP_MAX_SIZE; try lia. split; [lia|done].
Qed.

(** A message from one side to the other. *)
Definition transfer (bs : list Z) : res (list Z) :=
  let* N := establish setups in
  let* (_, a) := send_chunk bs RS_OLAP_START_SIZE (n_ep N true) in
  match deliver a (n_ep N false) with
  | None => Blocked
  | Some (_, b) =>
      let* (_, b) := rs_poll_cq 10 b in
      let* (l, _) := recv_chunk 100 b in Ok l
  end.
Example transfer_bytes : transfer [104; 101; 108; 108; 111] = Ok [104; 101; 108; 108; 111].
Proof. by vm_compute. Qed.

Lemma stream_refines_witness :
  (∃ N, establish setups = Ok N ∧ ∀ x, in_pipe N x = []) ∧
  (∀ N N', reachable setups N → net_step N N' → ∃ v, happened N N' v ∧ pipe_step (in_pipe N) (in_pipe N') v).
Proof. apply (stream_refines setups); exact setup0_ok. Defined.


Lemma sockets_typed_witness : ∃ N, establish setups = Ok N ∧ rs_typed (e_rs (n_ep N true)).
Proof.
  destruct (establish_run setups setup0_ok setup0_ok) as (N & E & _). exists N. split; [exact E|].
  exact (sockets_typed setups N true setup0_ok setup0_ok (reach_start setups N E)).
Defined.

Lemma no_deadlock_witness :
  ∃ N, establish setups = Ok N ∧ ∃ N1, rtc idle_step N N1 ∧
    (rs_can_send (e_rs (n_ep N1 false)) (e_mem (n_ep N1 false)) = true ∧ n_got N1 true = n_sent N false ∨ one_down N1 ∧ ¬ opened setups N).
Proof.
  destruct (establish_run setups setup0_ok setup0_ok) as (N & E & _). exists N. split; [exact E|].
  exact (no_deadlock setups N false setup0_ok setup0_ok (reach_start setups N E)).
Defined.
