(* ===== verification/RsIo.v ===== *)
(** * rsocket: the calls of the application

    [librdmacm/src/rsocket.c]: [rsend], [rsendv], [rrecv], [rs_poll_rs], [rshutdown] and [rclose] of a stream socket,
    with the mappings that are sent first ([rs_send_iomaps]).  A loop has as many turns as its fuel;
    [polling_time] is the configuration's. *)

From S2P Require Import Prelude Layout FfTypes Attrs Request Cma Rsocket RsConn.

Definition POLLIN : Z := 1.
Definition POLLOUT : Z := 4.
Definition POLLERR : Z := 8.
Definition POLLHUP : Z := 16.
Definition EBADF : Z := 9.

(** [rs_copy_iov]: [len] bytes from the buffers, of which [offset] bytes of the first are used up; the bytes,
    and where it stopped. *)
Fixpoint rs_copy_iov (iov : list (list Z)) (offset len : Z) : res (list Z * (list (list Z) * Z)) :=
  if Z.eqb len 0 then Ok ([], (iov, offset))
  else
    match iov with
    | [] => UB "iov"
    | v :: rest =>
        let size := lenZ v - offset in
        if Z.ltb len size then Ok (takeZ len (dropZ offset v), (iov, offset + len))
        else
          let* (bs, cur) := rs_copy_iov rest 0 (len - size) in
          Ok (dropZ offset v ++ bs, cur)
    end.

(** What else closing needs: the service thread, the descriptor's flags and the connection manager. *)
Class RsClose (K : Type) := {
  d_rem_keepalive : K → K;
  d_set_flags : Z → K → K;
  d_shutdown : K → K;
  d_free : K → K
}.

Section Io.
Context {K : Type} `{!RsEnv K, !RsSetup K, !RsClose K}.
Context (fuel : nat) (polling_time : Z).
Implicit Types (r : rsocket).

Definition set_errno (e : Z) : R K () := ERR e ;; mret ().

(** The start of every transfer: a connection that is being made is finished first. *)
Definition connect_first : R K Z :=
  r ← rs_get id;
  if has (state r) rs_opening then
    ret ← rs_do_connect;
    if Z.eqb ret 0 then mret 0
    else e ← gets e_errno; (if Z.eqb e EINPROGRESS then set_errno EAGAIN else mret ()) ;; mret ret
  else mret 0.

(** ** Sending *)
Definition wait_send (flags : Z) : R K Z :=
  ok ← check rs_can_send;
  if (ok : bool) then mret 0
  else
    r ← rs_get id;
    ret ← rs_get_comp fuel polling_time (rs_nonblocking r flags) rs_conn_can_send;
    if negb (Z.eqb ret 0) then mret ret
    else
      r ← rs_get id;
      if negb (has (state r) rs_writable) then ERR ECONNRESET else mret 0.

(** The mapping as it is written to the peer's table. *)
Definition iomap_bytes r (m : rs_iomap_mr) : list Z :=
  let swap32 z := if has (opts r) RS_OPT_SWAP_SGL then swap32 z else z in
  let swap64 z := if has (opts r) RS_OPT_SWAP_SGL then swap64 z else z in
  le_bytes 8 (swap64 (im_offset m)) ++ le_bytes 8 (swap64 (im_addr m)) ++ le_bytes 4 (swap32 (im_rkey m)) ++ le_bytes 4 (swap32 (u32 (im_length m))).

Definition iomap_sent (m : rs_iomap_mr) r : rsocket := set_iomaps (List.tl (iomap_queue r)) (iomap_list r ++ [m]) (iomap_pending r) r.

(** [ret] has no value before the first turn. *)
Fixpoint iomap_loop (flags : Z) (ret : option Z) (n : nat) : R K (option Z) :=
  match n with
  | O => λ _, OutOfFuel
  | S n =>
      r ← rs_get id;
      match iomap_queue r with
      | [] => mret ret
      | m :: _ =>
          ret ← wait_send flags;
          if negb (Z.eqb ret 0) then mret (Some ret)
          else
            r ← rs_get id;
            let bs := iomap_bytes r m in
            ret ← (if Z.leb (sizeof S_rs_iomap) (sq_inline (cfg r)) then rs_write_iomap m (Inline bs) else place bs (rs_write_iomap m));
            rs_set (iomap_sent m) ;;
            if negb (Z.eqb ret 0) then mret (Some ret) else iomap_loop flags (Some ret) n
      end
  end.
Definition rs_send_iomaps (flags : Z) : R K Z :=
  ret ← iomap_loop flags None fuel;
  rs_set (λ r, set_iomaps (iomap_queue r) (iomap_list r) (match iomap_queue r with [] => false | _ => true end) r) ;;
  lift (deref "ret" ret).

Definition maps_first (flags : Z) : R K Z :=
  pending ← rs_get iomap_pending;
  if (pending : bool) then rs_send_iomaps flags else mret 0.

(** The loop of [rsend]: the last result and what is left of the buffer. *)
Fixpoint send_loop (flags : Z) (buf : list Z) (olen : Z) (n : nat) : R K (Z * Z) :=
  if Z.eqb (lenZ buf) 0 then mret (0, 0)
  else
    match n with
    | O => λ _, OutOfFuel
    | S n =>
        ret ← wait_send flags;
        if negb (Z.eqb ret 0) then mret (ret, lenZ buf)
        else
          '(ret, k, olen) ← send_chunk buf olen;
          if negb (Z.eqb ret 0) then mret (ret, lenZ buf) else send_loop flags (dropZ k buf) olen n
    end.

(** The result: an error only if nothing was transferred. *)
Definition transferred (ret len left : Z) : Z := if negb (Z.eqb ret 0) && Z.eqb left len then ret else len - left.

Definition rsend (buf : list Z) (flags : Z) : R K Z :=
  ret ← connect_first;
  if negb (Z.eqb ret 0) then mret ret
  else
    ret ← maps_first flags;
    '(ret, rem) ← (if negb (Z.eqb ret 0) then mret (ret, lenZ buf) else send_loop flags buf RS_OLAP_START_SIZE fuel);
    mret (transferred ret (lenZ buf) rem).

(** The chunk of [rsendv] comes from several buffers; it is inline if it is small enough. *)
Definition send_iov (iov : list (list Z)) (offset left olen : Z) : R K (Z * Z * (list (list Z) * Z) * Z) :=
  '(n, olen) ← gets (λ s, chunk_size (e_rs s) (e_mem s) olen left);
  r ← rs_get id;
  let first := if Z.leb n (rs_sbuf_left r) then n else rs_sbuf_left r in
  '(b1, (iov, offset)) ← lift (rs_copy_iov iov offset first);
  '(b2, (iov, offset)) ← lift (if Z.leb n (rs_sbuf_left r) then Ok ([], (iov, offset)) else rs_copy_iov iov offset (n - first));
  ret ← place (b1 ++ b2) (λ d, rs_write_data (if Z.leb n (sq_inline (cfg r)) then Inline (b1 ++ b2) else d) n);
  mret (ret, n, (iov, offset), olen).

Fixpoint sendv_loop (flags : Z) (iov : list (list Z)) (offset left olen : Z) (n : nat) : R K (Z * Z) :=
  if Z.eqb left 0 then mret (0, 0)
  else
    match n with
    | O => λ _, OutOfFuel
    | S n =>
        ret ← wait_send flags;
        if negb (Z.eqb ret 0) then mret (ret, left)
        else
          '(ret, k, (iov, offset), olen) ← send_iov iov offset left olen;
          if negb (Z.eqb ret 0) then mret (ret, left) else sendv_loop flags iov offset (left - k) olen n
    end.

(** [iov[0]] is read in any case. *)
Definition rsendv (iov : list (list Z)) (flags : Z) : R K Z :=
  ret ← connect_first;
  if negb (Z.eqb ret 0) then mret ret
  else
    lift (deref "iov" (head iov)) ;;
    let len := lenZ (concat iov) in
    ret ← maps_first flags;
    '(ret, rem) ← (if negb (Z.eqb ret 0) then mret (ret, len) else sendv_loop flags iov 0 len RS_OLAP_START_SIZE fuel);
    mret (transferred ret len rem).

(** ** Receiving *)
Fixpoint recv_msgs (left : Z) (n : nat) : R K (list Z) :=
  match n with
  | O => λ _, OutOfFuel
  | S n =>
      more ← check rs_have_rdata;
      if Z.eqb left 0 || negb more then mret []
      else bs ← recv_chunk left; l ← recv_msgs (left - lenZ bs) n; mret (bs ++ l)
  end.

Fixpoint recv_loop (flags left : Z) (n : nat) : R K (Z * list Z) :=
  match n with
  | O => λ _, OutOfFuel
  | S n =>
      ok ← check rs_have_rdata;
      r ← rs_get id;
      ret ← (if (ok : bool) then mret 0 else rs_get_comp fuel polling_time (rs_nonblocking r flags) rs_conn_have_rdata);
      if negb (Z.eqb ret 0) then mret (ret, [])
      else if has flags MSG_PEEK then bs ← rs_peek fuel left; mret (ret, bs)
      else
        bs ← recv_msgs left fuel;
        r ← rs_get id;
        if negb (Z.eqb (lenZ bs) left) && has flags MSG_WAITALL && has (state r) rs_readable
        then '(ret, l) ← recv_loop flags (left - lenZ bs) n; mret (ret, bs ++ l)
        else mret (ret, bs)
  end.

(** The result and the bytes written to the buffer. *)
Definition rrecv (len flags : Z) : R K (Z * list Z) :=
  ret ← connect_first;
  if negb (Z.eqb ret 0) then mret (ret, [])
  else
    '(ret, bs) ← recv_loop flags len fuel;
    mret (transferred ret len (len - lenZ bs), bs).

(** ** Polling *)
Definition rs_poll_all : cond := λ _ _, true.
Definition rs_is_cq_armed : cond := λ r _, cq_armed r.

(** The events of a socket whose state is connected, disconnected or in error. *)
Definition revents (events : Z) : R K Z :=
  s ← gets id;
  let r := e_rs s in
  let m := e_mem s in
  let v := if has events POLLIN && rs_conn_have_rdata r m then POLLIN else 0 in
  let v := if has events POLLOUT && rs_can_send r m then Z.lor v POLLOUT else v in
  mret (if negb (has (state r) rs_connected)
        then (if Z.eqb (state r) rs_disconnected then Z.lor v POLLHUP else Z.lor v POLLERR) else v).

Definition established r : bool := has (state r) rs_connected || Z.eqb (state r) rs_disconnected || has (state r) rs_error.

(** The state after [check_cq] is neither connected nor opening; [poll] tells of a listening socket. *)
Definition poll_rest (poll : Z → K → Z * K) (events : Z) : R K Z :=
  r ← rs_get id;
  if Z.eqb (state r) rs_listening then dev (poll events)
  else if Z.eqb (state r) rs_connect_error then
    mret (Z.lor (Z.lor (if has events POLLOUT then POLLOUT else 0) (if has events POLLIN then POLLIN else 0)) POLLERR)
  else mret 0.

(** [rs_do_connect] leaves the opening states unless it is in progress, so [check_cq] is reached twice at most. *)
Definition rs_poll_rs (poll : Z → K → Z * K) (events : Z) (nonblock : bool) (test : cond) : R K Z :=
  r ← rs_get id;
  if established r then rs_process_cq fuel nonblock test ;; revents events
  else if Z.eqb (state r) rs_listening then poll_rest poll events
  else if has (state r) rs_opening then
    ret ← rs_do_connect;
    e ← gets e_errno;
    if negb (Z.eqb ret 0) && Z.eqb e EINPROGRESS then set_errno 0 ;; poll_rest poll events
    else
      r ← rs_get id;
      if established r then rs_process_cq fuel nonblock test ;; revents events else poll_rest poll events
  else poll_rest poll events.

(** ** Closing *)
Definition close_end (ret : Z) : R K Z :=
  r ← rs_get id;
  (if has (fd_flags r) O_NONBLOCK && has (state r) rs_connected then dev_ (d_set_flags (fd_flags r)) else mret ()) ;;
  (if has (state r) rs_disconnected then dev_ d_req_notify ;; dev_ d_shutdown else mret ()) ;;
  mret ret.

Definition finish_sends (ret : Z) : R K Z :=
  r ← rs_get id;
  (if has (state r) rs_connected then rs_process_cq fuel false rs_conn_all_sends_done ;; mret () else mret ()) ;;
  close_end ret.

Definition rshutdown (how : shut_how) : R K Z :=
  r ← rs_get id;
  (if has (opts r) RS_OPT_SVC_ACTIVE then dev_ d_rem_keepalive else mret ()) ;;
  (if has (fd_flags r) O_NONBLOCK then dev_ (d_set_flags 0) else mret ()) ;;
  if has (state r) rs_connected then
    let '(st, ctrl) := shutdown_state how r in
    rs_set (set_state st (rs_err r)) ;;
    match ctrl with
    | None => close_end 0
    | Some ctrl =>
        r ← rs_get id;
        ret ← (if negb (rs_ctrl_avail r) then rs_process_cq fuel false rs_conn_can_send_ctrl else mret 0);
        if negb (Z.eqb ret 0) then close_end ret else ret ← send_ctrl ctrl; finish_sends ret
    end
  else finish_sends 0.

(** A descriptor that is not a socket gives the positive number EBADF. *)
Definition rclose (known : bool) : R K Z :=
  if negb known then mret EBADF
  else
    r ← rs_get id;
    (if has (state r) rs_connected then rshutdown SHUT_RDWR ;; mret ()
     else if has (opts r) RS_OPT_SVC_ACTIVE then dev_ d_rem_keepalive else mret ()) ;;
    dev_ d_free ;; mret 0.
End Io.
