(* ===== verification/RsApi.v ===== *)
(** * Two rsockets: what the calls of the application do

    The calls of [RsIo] made on one of two connected sockets are sequences of the steps of [RsNet], so all that
    is proved of the steps holds of the calls. *)

From S2P Require Import Prelude Layout FfTypes Attrs Request Cma Rsocket RsNet RsItems RsStream RsSteps RsPoll RsConn RsSafe RsLive RsIo.

#[local] Arguments outs : simpl never.

(** Computations at side [x] of a net: when they end, they have made steps to a net in which [Q] holds; they are never
    undefined, and end unless they [may] wait or lack fuel. *)
Definition walks {A} (may : bool) (m : R rc A) (N : net) (x : bool) (Q : A → net → Prop) : Prop :=
  match m (n_ep N x) with
  | Ok (a, e1) => ∃ N', rtc open_step N N' ∧ n_ep N' x = e1 ∧ Q a N'
  | UB _ | Exit _ => False
  | Blocked | OutOfFuel => may = true
  end.

Lemma walks_ret {A may} (a : A) N x (Q : A → net → Prop) : Q a N → walks may (mret a) N x Q.
Proof. intros H. exists N. split_and!; [constructor|done|done]. Qed.
Lemma walks_bind {A B may} (m : R rc A) (f : A → R rc B) N x Q :
  walks may m N x (λ a N1, walks may (f a) N1 x Q) → walks may (m ≫= f) N x Q.
Proof.
  unfold walks, mbind, R_bind. destruct (m (n_ep N x)) as [[a e1]| | | |]; try done. intros (N1 & H1 & <- & H). cbn [rbind].
  destruct (f a (n_ep N1 x)) as [[b e2]| | | |]; try done. destruct H as (N2 & H2 & <- & H). exists N2. split_and!; try done. by etrans.
Qed.
Lemma walks_mono {A may} (m : R rc A) N x (Q Q' : A → net → Prop) : (∀ a N', Q a N' → Q' a N') → walks may m N x Q → walks may m N x Q'.
Proof. unfold walks. intros HQ. destruct (m (n_ep N x)) as [[a e1]| | | |]; try done. intros (N1 & ? & ? & ?). exists N1. auto. Qed.
Lemma walks_gets {A may} (f : ep rc → A) N x (Q : A → net → Prop) : Q (f (n_ep N x)) N → walks may (gets f) N x Q.
Proof. intros H. exists N. split_and!; [constructor|done|done]. Qed.

Lemma walks_same {A may} (m : R rc A) a N x (Q : A → net → Prop) : m (n_ep N x) = Ok (a, n_ep N x) → Q a N → walks may m N x Q.
Proof. intros E H. unfold walks. rewrite E. exists N. split_and!; [constructor|done|done]. Qed.

(** A computation that only changes the event flags and [errno]. *)
Lemma walks_arm {A may} (m : R rc A) N x a b u er (Q : A → net → Prop) :
  let e := n_ep N x in
  m e = Ok (a, mkEp (set_cq b u (e_rs e)) (e_mem e) er (e_k e)) → Q a (on_ep x (mkEp (set_cq b u (e_rs e)) (e_mem e) er (e_k e)) N) → walks may m N x Q.
Proof.
  intros e E H. unfold walks. fold e. rewrite E. exists (on_ep x (mkEp (set_cq b u (e_rs e)) (e_mem e) er (e_k e)) N). split_and!; [|apply upd_eq|done].
  apply rtc_once, net_arm.
Qed.

(** Nothing was transferred meanwhile. *)
Definition still (N N' : net) : Prop := n_sent N' = n_sent N ∧ n_got N' = n_got N.

Lemma inv_steps op N N' : net_inv op N → rtc open_step N N' → net_inv op N'.
Proof. intros H. induction 1 as [N|N N1 N2 Hs _ IH]; [done|]. apply IH. by eapply open_inv. Qed.

(** A result with the invariant. *)
Lemma walks_inv {A may} op (m : R rc A) N x (Q : A → net → Prop) : net_inv op N → walks may m N x Q → walks may m N x (λ a N', net_inv op N' ∧ Q a N').
Proof.
  unfold walks. intros Hi. destruct (m (n_ep N x)) as [[a e1]| | | |]; try done. intros (N1 & H1 & H2 & H3). exists N1. split_and!; try done.
  by eapply inv_steps.
Qed.

Section Api.
Context (S : RsSetup rc) (op : bool) (x : bool) (may : bool).
Implicit Types (N : net).

(** Tests that giving credits leaves alone. *)
Definition stable (t : cond) : Prop := ∀ r m r1 m1,
  cfg r1 = cfg r → opts r1 = opts r → tx r1 = tx r → state r1 = state r → rmsg_head (rx r1) = rmsg_head (rx r) → rmsg_tail (rx r1) = rmsg_tail (rx r) →
  load_sge (cur_sge r) m1 = load_sge (cur_sge r) m → t r1 m1 = t r m.

Lemma stable_can_send : stable rs_conn_can_send.
Proof.
  intros r m r1 m1 H1 H2 H3 H4 _ _ H5. unfold rs_conn_can_send, rs_can_send, msg_send, cur_sge in *. rewrite H1, H2, H3, H4. by rewrite H5.
Qed.
Lemma stable_have_rdata : stable rs_conn_have_rdata.
Proof. intros r m r1 m1 _ _ _ H4 H5 H6 _. unfold rs_conn_have_rdata, rs_have_rdata. by rewrite H4, H5, H6. Qed.

Definition test_at (t : cond) N : bool := t (e_rs (n_ep N x)) (e_mem (n_ep N x)).

Lemma walks_credits N : net_inv op N →
  walks may rs_update_credits N x (λ _ N', net_inv op N' ∧ still N N' ∧ ∀ t, stable t → test_at t N' = test_at t N).
Proof.
  intros Hinv. apply walks_inv; [done|]. destruct (net_inv_at _ N x Hinv) as (c & d & g & g' & f & f' & Hpc & Hp & _).
  destruct (pair_credits _ _ _ _ _ _ _ _ _ _ _ _ _ Hpc Hp) as (e1 & _ & _ & E1 & _). unfold walks. rewrite E1.
  exists (on_ep x e1 N). split; [by apply rtc_once, net_idle, net_credits|]. split; [apply upd_eq|]. split; [done|]. intros t Ht.
  unfold test_at, on_ep. cbn [n_ep]. rewrite upd_eq. pose proof Hpc as [Hc Hd Hr Hr']. pose proof Hp as [Hs _ Hf Hi].
  unfold rs_update_credits, mbind, R_bind, rs_get, gets, id in E1. cbn [rbind] in E1. destruct (rs_give_credits (e_rs (n_ep N x))) eqn:Eg; [|by injection E1 as <-].
  pose proof (s_opts _ _ _ _ _ Hs) as [Hms _]. pose proof Eg as Eg'. unfold rs_give_credits in Eg'. rewrite !andb_true_iff, Hms in Eg'. destruct Eg' as [[_ Ea] _].
  pose proof (ctrl_room _ _ _ _ _ Hs Ea) as Hn.
  pose proof (send_credits_run d c _ g 0 _ _ _ _ _ _ _ _ Hc Hr Hs Hi Hn) as Erun. cbv zeta in Erun. rewrite Erun in E1. injection E1 as <-.
  cbn [e_rs e_mem]. apply Ht; try done; try (by unfold credit_rx; destruct (half_free (e_rs (n_ep N x)))).
  destruct (half_free (e_rs (n_ep N x))); [|done]. apply load_sge_same, same_on_store_sge. unfold cur_sge. rewrite (s_cfg _ _ _ _ _ Hs), sizeof_sge.
  rewrite (fl_target _ _ _ _ _ _ _ _ _ _ _ _ _ Hf). pose proof (ctrl_slot_range c (g_ctl g + 1)). pose proof (ok_sbuf_target c Hc). pose proof (ok_sbuf c Hc) as Hsb.
  unfold RS_SNDLOWAT in Hsb. pose proof (Z.mod_pos_bound (lenZ (n_sent N x) / hsize d) 2). lia.
Qed.

(** There are at most as many completions as there are entries in both queues. *)
Definition enough (fuel : nat) : Prop := 2 * RS_QP_MAX_SIZE < Z.of_nat fuel.

Lemma split_comps (l : list comp) : lenZ l = lenZ (csent l) + lenZ (crecv l).
Proof. induction l as [|[] l IH]; [done|..]; cbn; rewrite !lenZ_cons, IH; lia. Qed.
Lemma cq_bounded c d (e : ep rc) g n : cfg_ok c → 0 ≤ n → side_ok c d e g n → lenZ (g_cq g) ≤ 2 * RS_QP_MAX_SIZE.
Proof.
  intros Hc Hn Hs. pose proof (ok_sq c Hc). pose proof (ok_rq c Hc). destruct Hs. rewrite split_comps. pose proof (lenZ_nonneg (q_recv (e_k e))).
  pose proof (split_items (outs g)) as Ho. unfold outs in Ho at 1. rewrite !lenZ_app in Ho. pose proof (lenZ_nonneg (g_done g)). pose proof (lenZ_nonneg (g_send g)). lia.
Qed.

Lemma walks_poll fuel N : (may = false → enough fuel) → net_inv op N → walks may (rs_poll_cq fuel) N x (λ ret N', net_inv op N' ∧ still N N' ∧ ret = 0).
Proof.
  intros Hf Hinv. apply walks_inv; [done|]. destruct (net_inv_at _ N x Hinv) as (c & d & g & g' & f & f' & Hpc & Hp & _). unfold walks.
  destruct (pair_poll _ _ _ _ _ _ _ _ Hpc fuel _ _ _ _ Hp) as [[E1 Hl]|(e1 & g1 & E1 & _)]; rewrite E1.
  { pose proof (cq_bounded c d _ g 0 (pc_own _ _ Hpc) ltac:(done) (p_side _ _ _ _ _ _ _ _ _ _ _ _ _ Hp)). destruct may; [done|].
    specialize (Hf eq_refl). unfold enough in Hf. lia. }
  exists (on_ep x e1 N). split; [by eapply rtc_once, net_idle, net_poll|]. split; [apply upd_eq|done].
Qed.
Lemma still_trans N N1 N2 : still N N1 → still N1 N2 → still N N2.
Proof. unfold still. intros [-> ->] [-> ->]. done. Qed.

(** A result of a wait: the test holds, or there is an error. *)
Definition waited (t : cond) N (ret : Z) N' : Prop := net_inv op N' ∧ still N N' ∧ (ret = 0 ∧ test_at t N' = true ∨ ret = -1).

Lemma waited_from t N N1 ret N' : still N N1 → waited t N1 ret N' → waited t N ret N'.
Proof. intros H1 (H2 & H3 & H4). split_and!; try done. by eapply still_trans. Qed.

Lemma walks_err z N : net_inv op N → walks may (ERR z) N x (λ ret N', net_inv op N' ∧ still N N' ∧ ret = -1).
Proof.
  intros Hinv. apply walks_inv; [done|]. apply (walks_arm _ _ _ (-1) (cq_armed (e_rs (n_ep N x))) (unack_cqe (e_rs (n_ep N x))) z); [|done].
  unfold ERR. do 3 f_equal. by destruct (e_rs (n_ep N x)).
Qed.

Lemma walks_event N : may = true → net_inv op N → walks may rs_get_cq_event N x (λ ret N', net_inv op N' ∧ still N N' ∧ ret = 0).
Proof.
  intros Hm Hinv. apply walks_inv; [done|]. unfold walks. destruct (rs_get_cq_event (n_ep N x)) as [[ret e1]| | | |] eqn:E; unfold rs_get_cq_event in E.
  - destruct (cq_armed (e_rs (n_ep N x))); cbn [negb] in E; [|injection E as <- <-; exists N; by split_and!].
    cbn [d_get_event rc_env] in E. destruct (decide (q_cq (e_k (n_ep N x)) = [])); [done|]. cbn [Z.eqb] in E.
    destruct (Z.leb _ _); injection E as <- <-; (eexists (on_ep x _ N); split; [apply rtc_once, net_arm|]; split; [apply upd_eq|done]).
  - by repeat case_match.
  - by repeat case_match.
  - done.
  - done.
Qed.

Lemma walks_turns fuel nonblock t n : (may = false → nonblock = true ∧ enough fuel ∧ n ≠ O) → ∀ N, net_inv op N → walks may (process_turns fuel nonblock t n) N x (waited t N).
Proof.
  induction n as [|n IH]; intros Hf N Hinv; [unfold walks; cbn; destruct may; [done|]; by destruct (Hf eq_refl) as (_ & _ & [])|]. cbn [process_turns].
  apply walks_bind. eapply walks_mono; [|by apply walks_credits]. intros _ N1 (Hi1 & Hs1 & _).
  apply walks_bind. eapply walks_mono; [|apply walks_poll; [naive_solver|done]]. intros ret N2 (Hi2 & Hs2 & ->).
  pose proof (still_trans _ _ _ Hs1 Hs2) as Hs. apply walks_bind, walks_gets.
  destruct (t (e_rs (n_ep N2 x)) (e_mem (n_ep N2 x))) eqn:Et; [apply walks_ret; split_and!; try done; by left|]. cbn [Z.eqb negb].
  destruct nonblock.
  { eapply walks_mono; [|by apply walks_err]. intros a N3 (Hi3 & Hs3 & ->). split_and!; [done|by eapply still_trans|by right]. }
  assert (may = true) as Hmay by (destruct may; [done|]; by destruct (Hf eq_refl)). apply walks_bind, walks_gets. destruct (cq_armed (e_rs (n_ep N2 x))) eqn:Ea; cbn [negb].
  - apply walks_bind. eapply walks_mono; [|by apply walks_credits]. intros _ N3 (Hi3 & Hs3 & _).
    apply walks_bind. eapply walks_mono; [|by apply walks_event]. intros ret N4 (Hi4 & Hs4 & ->). cbn [Z.eqb].
    eapply walks_mono; [|by apply IH; [rewrite Hmay|]]. intros ret N5. apply waited_from. eapply still_trans; [done|]. by eapply still_trans.
  - apply walks_bind, (walks_same _ ()); [unfold dev_, dev; cbn; by destruct (n_ep N2 x)|].
    apply walks_bind. eapply walks_mono; [|apply (walks_inv op _ _ _ (λ _ N', still N2 N')); [done|];
      by apply (walks_arm _ _ _ () true (unack_cqe (e_rs (n_ep N2 x))) (e_errno (n_ep N2 x)))].
    intros _ N3 (Hi3 & Hs3). eapply walks_mono; [|by apply IH; [rewrite Hmay|]]. intros ret N5. apply waited_from. by eapply still_trans.
Qed.

Lemma walks_process fuel nonblock t N : (may = false → nonblock = true ∧ enough fuel) → stable t → net_inv op N → walks may (rs_process_cq fuel nonblock t) N x (waited t N).
Proof.
  intros Hf Ht Hinv. unfold rs_process_cq. apply walks_bind. eapply walks_mono.
  2: { apply walks_turns; [|done]. intros Hm. destruct (Hf Hm) as [Hn He]. split_and!; try done. intros ->. unfold enough, RS_QP_MAX_SIZE in He. lia. }
  intros ret N1 (Hi1 & Hs1 & Hr).
  apply walks_bind. eapply walks_mono; [|by apply walks_credits]. intros _ N2 (Hi2 & Hs2 & Hsame). apply walks_ret.
  split_and!; [done|by eapply still_trans|]. by rewrite Hsame.
Qed.

Lemma walks_comp fuel pt nonblock t : stable t → ∀ n start N, (may = false → nonblock = true ∧ enough fuel ∧ n ≠ O) → net_inv op N → walks may (comp_turns fuel pt nonblock t start n) N x (waited t N).
Proof.
  intros Ht n. induction n as [|n IH]; intros start N Hf Hinv; [unfold walks; cbn; destruct may; [done|]; by destruct (Hf eq_refl) as (_ & _ & [])|]. cbn [comp_turns].
  apply walks_bind. eapply walks_mono; [|apply walks_process; [naive_solver|done|done]]. intros ret N1 (Hi1 & Hs1 & Hr). apply walks_bind, walks_gets.
  destruct (Z.eqb ret 0 || nonblock || negb (Z.eqb (e_errno (n_ep N1 x)) EWOULDBLOCK)) eqn:Eb; [by apply walks_ret|].
  assert (may = true) as Hmay by (destruct may; [done|]; destruct (Hf eq_refl) as [-> _]; by rewrite orb_true_r in Eb).
  apply walks_bind. apply (walks_same _ (match start with Some t => t | None => 0 end)).
  { destruct start; [done|]. unfold dev. cbn. by destruct (n_ep N1 x). }
  apply walks_bind, (walks_same _ 0); [unfold dev; cbn; by destruct (n_ep N1 x)|].
  destruct (Z.leb _ _); (eapply walks_mono; [|by (apply IH || apply walks_process); rewrite ?Hmay]); intros ret' N2; by apply waited_from.
Qed.

(** A call that cannot wait: it asks not to, or it may. *)
Definition prompt (fuel : nat) (flags : Z) : Prop := may = false → has flags MSG_DONTWAIT = true ∧ enough fuel.

Lemma prompt_wait fuel flags (r : rsocket) : prompt fuel flags → may = false → rs_nonblocking r flags = true ∧ enough fuel ∧ fuel ≠ O.
Proof.
  intros Hp Hm. destruct (Hp Hm) as [Hd He]. unfold rs_nonblocking. rewrite Hd, orb_true_r. split_and!; try done.
  intros ->. unfold enough, RS_QP_MAX_SIZE in He. lia.
Qed.

(** ** Sending *)
Lemma walks_wait_send fuel pt flags N : prompt fuel flags → net_inv op N →
  walks may (wait_send fuel pt flags) N x (λ ret N', net_inv op N' ∧ still N N' ∧ (ret = 0 ∧ test_at rs_can_send N' = true ∨ ret = -1)).
Proof.
  intros Hf Hinv. unfold wait_send. apply walks_bind, walks_gets. fold (test_at rs_can_send N). destruct (test_at rs_can_send N) eqn:Et; [apply walks_ret; split_and!; [done|done|by left]|].
  apply walks_bind, walks_gets, walks_bind. eapply walks_mono; [|apply walks_comp; [apply stable_can_send|by apply prompt_wait|done]]. intros ret N1 (Hi1 & Hs1 & [[-> Ht]| ->]); [|apply walks_ret; split_and!; [done|done|by right]].
  cbn [Z.eqb negb]. apply walks_bind, walks_gets. unfold id. destruct (has (state (e_rs (n_ep N1 x))) rs_writable) eqn:Ew; cbn [negb].
  - apply walks_ret. split_and!; [done..|]. left. split; [done|]. unfold test_at, rs_conn_can_send in Ht. rewrite Ew, orb_false_r in Ht. done.
  - eapply walks_mono; [|by apply walks_err]. intros a N2 (Hi2 & Hs2 & ->). split_and!; [done|by eapply still_trans|by right].
Qed.

(** What was sent is the first part of the buffer. *)
Definition sent_some N (buf : list Z) (k : Z) N' : Prop :=
  net_inv op N' ∧ 0 ≤ k ≤ lenZ buf ∧ n_sent N' x = n_sent N x ++ takeZ k buf ∧ n_sent N' (negb x) = n_sent N (negb x) ∧ n_got N' = n_got N.

(** The sizes of chunks: 2048 bytes, doubled up to 65536. *)
Definition olap (olen : Z) : Prop := ∃ k, 0 ≤ k ≤ 5 ∧ olen = RS_OLAP_START_SIZE * 2 ^ k.

Lemma olap_range olen : olap olen → 0 < olen ≤ RS_MAX_TRANSFER.
Proof.
  intros (k & Hk & ->). unfold RS_OLAP_START_SIZE, RS_MAX_TRANSFER. assert (1 ≤ 2 ^ k ≤ 32); [|lia].
  split; [apply (Z.pow_le_mono_r 2 0 k); lia|apply (Z.pow_le_mono_r 2 k 5); lia].
Qed.

Lemma send_chunk_olap buf olen (e e1 : ep rc) ret n ol : olap olen → send_chunk buf olen e = Ok ((ret, n, ol), e1) → olap ol.
Proof.
  intros Ho E. unfold send_chunk, mbind, R_bind, gets in E. cbn [rbind] in E.
  destruct (chunk_size (e_rs e) (e_mem e) olen (lenZ buf)) as [n1 o1] eqn:Ec. destruct (place _ _ e) as [[r2 e2]| | | |]; try done. injection E as _ _ <- _.
  unfold chunk_size in Ec. pose proof (olap_range _ Ho) as Hr. unfold RS_MAX_TRANSFER in Hr. destruct (Z.ltb olen (lenZ buf)); injection Ec as _ <-; [|done].
  unfold RS_MAX_TRANSFER. destruct (Z.ltb_spec olen 65536) as [Hlt|]; [|done]. destruct Ho as (k & Hk & ->). exists (k + 1). unfold RS_OLAP_START_SIZE in *.
  assert (k ≠ 5) by (intros ->; cbn in Hlt; lia). split; [lia|]. rewrite Z.shiftl_mul_pow2 by lia. rewrite u32_id by lia. rewrite Z.pow_add_r by lia. lia.
Qed.

Lemma walks_chunk buf olen N : net_inv op N → test_at rs_can_send N = true → buf ≠ [] → olap olen →
  walks may (send_chunk buf olen) N x (λ '(ret, k, ol) N', ret = 0 ∧ olap ol ∧ 0 < k ∧ sent_some N buf k N').
Proof.
  intros Hinv Hcan Hb Ho. destruct (net_inv_at _ N x Hinv) as (c & d & g & g' & f & f' & Hpc & Hp & _).
  destruct (pair_send _ _ _ _ _ _ _ _ _ _ _ _ _ _ _ Hpc Hp Hb (olap_range _ Ho) Hcan) as (n & ol & e1 & _ & _ & E1 & Hn & _).
  pose proof (olap_range _ Ho) as Hr.
  assert (open_step N (mkNet (upd (n_ep N) x e1) (upd (n_sent N) x (n_sent N x ++ takeZ n buf)) (n_got N))) as Hstep by (by eapply net_send).
  unfold walks. rewrite E1. eexists. split; [by apply rtc_once|]. split; [apply upd_eq|]. split; [done|]. split; [by eapply send_chunk_olap|]. split; [lia|].
  split; [by eapply open_inv|]. cbn [n_sent n_got]. rewrite upd_eq, upd_ne. split_and!; try done; lia.
Qed.

Lemma take_more (buf : list Z) k j : 0 ≤ k → 0 ≤ j → takeZ k buf ++ takeZ j (dropZ k buf) = takeZ (k + j) buf.
Proof. intros Hk Hj. unfold takeZ, dropZ. rewrite Z2Nat.inj_add by lia. apply take_take_drop. Qed.

Lemma sent_none N N' buf : net_inv op N' → still N N' → sent_some N buf 0 N'.
Proof. intros Hi [E1 E2]. split_and!; try done; [apply lenZ_nonneg|by rewrite E1, app_nil_r|by rewrite E1]. Qed.
Lemma sent_more N N1 N2 buf k j : sent_some N buf k N1 → sent_some N1 (dropZ k buf) j N2 → sent_some N buf (k + j) N2.
Proof.
  intros (_ & Hk & E1 & E2 & E3) (Hi & Hj & E4 & E5 & E6). rewrite lenZ_dropZ in Hj by lia. split_and!; try done; try lia; [|by rewrite E5|by rewrite E6].
  rewrite E4, E1, <- app_assoc, take_more by lia. done.
Qed.

Lemma spent {A} N (Q : A → net → Prop) k : (may = false → k ≤ 0) → 0 < k → walks may (λ _, OutOfFuel) N x Q.
Proof. unfold walks. destruct may; [done|]. intros H1 H2. specialize (H1 eq_refl). lia. Qed.

(** The end of the loop: all was sent, or an error stopped it. *)
Definition sent_all N (buf : list Z) (p : Z * Z) N' : Prop :=
  ∃ k, sent_some N buf k N' ∧ p.2 = lenZ buf - k ∧ (p.1 = 0 ∧ p.2 = 0 ∨ p.1 = -1).

Lemma walks_send_loop fuel pt flags n : prompt fuel flags → ∀ buf olen N, (may = false → lenZ buf ≤ Z.of_nat n) → net_inv op N → olap olen →
  walks may (send_loop fuel pt flags buf olen n) N x (sent_all N buf).
Proof.
  intros Hp. induction n as [|n IH]; intros buf olen N Hn Hinv Ho; cbn [send_loop]; destruct (Z.eqb_spec (lenZ buf) 0) as [E0|E0];
    try (apply (spent _ _ (lenZ buf)); [done|pose proof (lenZ_nonneg buf); lia]); try (apply walks_ret; exists 0; split; [by apply sent_none|]; cbn; lia).
  apply walks_bind. eapply walks_mono; [|by apply walks_wait_send]. intros ret N1 (Hi1 & Hs1 & [[-> Hc]| ->]).
  2: { cbn [Z.eqb negb]. apply walks_ret. exists 0. split; [by apply sent_none|]. cbn. lia. }
  cbn [Z.eqb negb]. apply walks_bind. eapply walks_mono; [|apply walks_chunk; try done]; [|by intros ->].
  intros [[ret k] ol] N2 (-> & Hol & Hk & Hs2). cbn [Z.eqb negb].
  assert (sent_some N buf k N2) as Hs3.
  { replace k with (0 + k) by lia. apply sent_more with N1; [by apply sent_none|exact Hs2]. }
  pose proof Hs3 as (_ & Hkb & _). eapply walks_mono; [|apply IH; [intros Hm; specialize (Hn Hm); rewrite lenZ_dropZ; lia|apply Hs3|done]]. intros [ret rem] N3 (j & Hj & Hrem & Hr). exists (k + j).
  split; [by eapply sent_more|]. cbn [fst snd] in *. rewrite lenZ_dropZ in Hrem by lia. split; [lia|done].
Qed.

(** ** Several buffers *)

(** What is left of the buffers. *)
Definition iov_rest (cur : list (list Z) * Z) : list Z := dropZ cur.2 (concat cur.1).
Definition iov_ok (cur : list (list Z) * Z) : Prop := 0 ≤ cur.2 ∧ match cur.1 with [] => cur.2 = 0 | v :: _ => cur.2 ≤ lenZ v end.

Lemma dropZ_0 {A} (l : list A) : dropZ 0 l = l.
Proof. done. Qed.
Lemma dropZ_dropZ {A} (l : list A) i j : 0 ≤ i → 0 ≤ j → dropZ j (dropZ i l) = dropZ (i + j) l.
Proof. intros Hi Hj. unfold dropZ. rewrite drop_drop, Z2Nat.inj_add by lia. done. Qed.
Lemma dropZ_app_l {A} (l k : list A) i : 0 ≤ i ≤ lenZ l → dropZ i (l ++ k) = dropZ i l ++ k.
Proof. unfold lenZ, dropZ. intros Hi. apply drop_app_le. lia. Qed.
Lemma takeZ_app_l {A} (l k : list A) i : 0 ≤ i ≤ lenZ l → takeZ i (l ++ k) = takeZ i l.
Proof. unfold lenZ, takeZ. intros Hi. apply take_app_le. lia. Qed.
Lemma takeZ_app_r {A} (l k : list A) i : lenZ l ≤ i → takeZ i (l ++ k) = l ++ takeZ (i - lenZ l) k.
Proof. unfold lenZ, takeZ. intros Hi. rewrite take_app_ge by lia. do 2 f_equal. lia. Qed.
Lemma dropZ_app_r {A} (l k : list A) i : lenZ l ≤ i → dropZ i (l ++ k) = dropZ (i - lenZ l) k.
Proof. unfold lenZ, dropZ. intros Hi. rewrite drop_app_ge by lia. f_equal. lia. Qed.

(** [rs_copy_iov] gives the next bytes and leaves the rest. *)
Lemma copy_iov_run iov : ∀ offset len, iov_ok (iov, offset) → 0 ≤ len ≤ lenZ (iov_rest (iov, offset)) →
  ∃ cur, rs_copy_iov iov offset len = Ok (takeZ len (iov_rest (iov, offset)), cur) ∧ iov_ok cur ∧ iov_rest cur = dropZ len (iov_rest (iov, offset)).
Proof.
  induction iov as [|v iov IH]; intros offset len [Ho Hok] Hlen; cbn [fst snd] in *; cbn [rs_copy_iov].
  - subst offset. change (lenZ (iov_rest ([], 0))) with 0 in Hlen. assert (len = 0) as -> by lia. by exists ([], 0).
  - destruct (Z.eqb_spec len 0) as [-> | Hne]; [by exists (v :: iov, offset)|]. unfold iov_rest in *. cbn [fst snd concat] in *.
    rewrite dropZ_app_l in * by lia. rewrite lenZ_app, lenZ_dropZ in Hlen by lia. destruct (Z.ltb_spec len (lenZ v - offset)) as [Hl|Hl].
    + exists (v :: iov, offset + len). split; [rewrite takeZ_app_l by (rewrite lenZ_dropZ; lia); done|]. split; [split; cbn; lia|].
      cbn [fst snd concat]. rewrite dropZ_app_l, dropZ_app_l, dropZ_dropZ by (rewrite ?lenZ_dropZ; lia). done.
    + destruct (IH 0 (len - (lenZ v - offset))) as (cur & E & Hc & Hr).
      { split; cbn [fst snd]; [lia|]. destruct iov; [done|]. apply lenZ_nonneg. }
      { cbn [fst snd]. rewrite dropZ_0. lia. }
      rewrite E. cbn [rbind]. exists cur. cbn [fst snd] in *. rewrite dropZ_0 in *.
      rewrite takeZ_app_r, dropZ_app_r, lenZ_dropZ by (rewrite ?lenZ_dropZ; lia). done.
Qed.

(** A chunk from several buffers is a chunk from their concatenation. *)
Lemma walks_send_iov iov offset olen N : net_inv op N → test_at rs_can_send N = true → iov_ok (iov, offset) → iov_rest (iov, offset) ≠ [] → olap olen →
  walks may (send_iov iov offset (lenZ (iov_rest (iov, offset))) olen) N x
    (λ '(ret, k, cur, ol) N', ret = 0 ∧ olap ol ∧ 0 < k ∧ sent_some N (iov_rest (iov, offset)) k N' ∧ iov_ok cur ∧
       iov_rest cur = dropZ k (iov_rest (iov, offset))).
Proof.
  intros Hinv Hcan Hok Hb Ho. pose proof (walks_chunk _ _ N Hinv Hcan Hb Ho) as Hw. revert Hw. unfold walks.
  destruct (net_inv_at _ N x Hinv) as (c & d & g & g' & f & f' & Hpc & Hp & _). set (buf := iov_rest (iov, offset)) in *.
  destruct (pair_send _ _ _ _ _ _ _ _ _ _ _ _ _ _ _ Hpc Hp Hb (olap_range _ Ho) Hcan) as (n & ol & e1 & _ & _ & E1 & Hn & _).
  pose proof (s_cfg _ _ _ _ _ (p_side _ _ _ _ _ _ _ _ _ _ _ _ _ Hp)) as Hcfg. pose proof (ok_inline c (pc_own _ _ Hpc)) as Hinl.
  pose proof E1 as E2. unfold send_chunk, mbind, R_bind, gets in E2. cbn [rbind] in E2.
  unfold send_iov, mbind, R_bind, gets, rs_get, lift. cbn [rbind]. set (e := n_ep N x) in *.
  destruct (chunk_size (e_rs e) (e_mem e) olen (lenZ buf)) as [n1 o1] eqn:Ec. destruct (place (takeZ n1 buf) (λ d, rs_write_data d n1) e) as [[r2 e2]| | | |] eqn:Epl; try done.
  injection E2 as -> -> -> ->. rewrite E1. intros (N' & Hst & Hep & _ & Hol & Hk & Hsent). unfold gets, id. cbn [rbind].
  set (left := rs_sbuf_left (e_rs e)). assert (0 ≤ left) as Hleft by apply u32_range.
  destruct (copy_iov_run iov offset (if Z.leb n left then n else left) Hok) as ([iov1 off1] & Ec1 & Hok1 & Hr1).
  { fold buf. destruct (Z.leb_spec n left); lia. }
  fold buf in Ec1, Hr1. rewrite Ec1. cbn [rbind].
  assert (∃ b2 cur, (if Z.leb n left then Ok ([], (iov1, off1)) else rs_copy_iov iov1 off1 (n - (if Z.leb n left then n else left))) = Ok (b2, cur) ∧
    takeZ (if Z.leb n left then n else left) buf ++ b2 = takeZ n buf ∧ iov_ok cur ∧ iov_rest cur = dropZ n buf) as (b2 & cur & Ec2 & Eb & Hok2 & Hr2).
  { destruct (Z.leb_spec n left) as [Hl|Hl]; [exists [], (iov1, off1); by rewrite app_nil_r|].
    destruct (copy_iov_run iov1 off1 (n - left) Hok1) as (cur & E & Hc & Hr); [rewrite Hr1, lenZ_dropZ; lia|]. rewrite Hr1 in E, Hr.
    exists (takeZ (n - left) (dropZ left buf)), cur. split; [done|]. rewrite take_more by lia. replace (left + (n - left)) with n by lia.
    split_and!; try done. rewrite Hr, dropZ_dropZ by lia. f_equal. lia. }
  rewrite Ec2. cbn [rbind]. destruct cur as [iov2 off2]. cbn [rbind]. rewrite Eb, Hcfg, Hinl. destruct (Z.leb_spec n 0); [lia|]. rewrite Epl. cbn [rbind].
  exists N'. by split_and!.
Qed.

Lemma walks_sendv_loop fuel pt flags n : prompt fuel flags → ∀ iov offset olen N, (may = false → lenZ (iov_rest (iov, offset)) ≤ Z.of_nat n) → net_inv op N → olap olen → iov_ok (iov, offset) →
  walks may (sendv_loop fuel pt flags iov offset (lenZ (iov_rest (iov, offset))) olen n) N x (sent_all N (iov_rest (iov, offset))).
Proof.
  intros Hp. induction n as [|n IH]; intros iov offset olen N Hn Hinv Ho Hok; cbn [sendv_loop]; set (buf := iov_rest (iov, offset)) in *;
    destruct (Z.eqb_spec (lenZ buf) 0) as [E0|E0]; try (apply (spent _ _ (lenZ buf)); [done|pose proof (lenZ_nonneg buf); lia]); try (apply walks_ret; exists 0; split; [by apply sent_none|]; cbn; lia).
  apply walks_bind. eapply walks_mono; [|by apply walks_wait_send]. intros ret N1 (Hi1 & Hs1 & [[-> Hc]| ->]).
  2: { cbn [Z.eqb negb]. apply walks_ret. exists 0. split; [by apply sent_none|]. cbn. lia. }
  cbn [Z.eqb negb]. apply walks_bind. eapply walks_mono; [|apply walks_send_iov; try done]; [|fold buf; by intros E; rewrite E in E0].
  fold buf. intros [[[ret k] [iov1 off1]] ol] N2 (-> & Hol & Hk & Hs2 & Hok1 & Hr1). cbn [Z.eqb negb].
  assert (sent_some N buf k N2) as Hs3.
  { replace k with (0 + k) by lia. apply sent_more with N1; [by apply sent_none|exact Hs2]. }
  pose proof Hs3 as (_ & Hkb & _). replace (lenZ buf - k) with (lenZ (iov_rest (iov1, off1))) by (rewrite Hr1, lenZ_dropZ; lia).
  eapply walks_mono; [|apply IH; [intros Hm; specialize (Hn Hm); rewrite Hr1, lenZ_dropZ; lia|apply Hs3|done|done]]. rewrite Hr1. intros [ret rem] N3 (j & Hj & Hrem & Hr). exists (k + j).
  split; [by eapply sent_more|]. cbn [fst snd] in *. rewrite lenZ_dropZ in Hrem by lia. split; [lia|done].
Qed.

(** Only sockets that are connected already are looked at. *)
Definition ready N : Prop := has (state (e_rs (n_ep N x))) rs_opening = false ∧ iomap_pending (e_rs (n_ep N x)) = false.

Lemma ready_connect N : ready N → connect_first (n_ep N x) = Ok (0, n_ep N x).
Proof. intros [Hop _]. unfold connect_first, mbind, R_bind, rs_get, gets, id. cbn [rbind]. by rewrite Hop. Qed.
Lemma ready_maps fuel pt flags N : ready N → maps_first fuel pt flags (n_ep N x) = Ok (0, n_ep N x).
Proof. intros [_ Hp]. unfold maps_first, mbind, R_bind, rs_get, gets. cbn [rbind]. by rewrite Hp. Qed.

(** The result of a call that sends: an error and nothing sent, or the number of bytes sent. *)
Definition send_result N (buf : list Z) (n : Z) N' : Prop := n = -1 ∧ sent_some N buf 0 N' ∨ sent_some N buf n N'.

Lemma transferred_sent N buf p N' : sent_all N buf p N' → send_result N buf (transferred p.1 (lenZ buf) p.2) N'.
Proof.
  intros (k & Hs & Hrem & Hr). destruct p as [ret rem]. cbn [fst snd] in *. unfold transferred. destruct Hr as [[-> ->]| ->]; cbn [Z.eqb negb andb].
  - right. by replace (lenZ buf - 0) with k by lia.
  - destruct (Z.eqb_spec rem (lenZ buf)) as [E|E].
    + left. split; [done|]. by assert (k = 0) as -> by lia.
    + right. by replace (lenZ buf - rem) with k by lia.
Qed.

Lemma walks_rsend fuel pt buf flags N : prompt fuel flags → (may = false → lenZ buf ≤ Z.of_nat fuel) → net_inv op N → ready N → walks may (rsend fuel pt buf flags) N x (send_result N buf).
Proof.
  intros Hp Hn Hinv Hready. unfold rsend. apply walks_bind, (walks_same _ 0); [by apply ready_connect|]. cbn [Z.eqb negb].
  apply walks_bind, (walks_same _ 0); [by apply ready_maps|]. cbn [Z.eqb negb].
  apply walks_bind. eapply walks_mono; [|apply walks_send_loop; [done|done|done|by exists 0]]. intros [ret rem] N1 Hs. apply walks_ret. by apply transferred_sent in Hs.
Qed.

Lemma walks_rsendv fuel pt iov flags N : prompt fuel flags → (may = false → lenZ (concat iov) ≤ Z.of_nat fuel) → net_inv op N → ready N → iov ≠ [] →
  walks may (rsendv fuel pt iov flags) N x (send_result N (concat iov)).
Proof.
  intros Hp Hn Hinv Hready Hne. unfold rsendv. apply walks_bind, (walks_same _ 0); [by apply ready_connect|]. cbn [Z.eqb negb].
  destruct iov as [|v iov]; [done|]. apply walks_bind, (walks_same _ v); [done|].
  apply walks_bind, (walks_same _ 0); [by apply ready_maps|]. cbn [Z.eqb negb].
  apply walks_bind. eapply walks_mono; [|apply (walks_sendv_loop fuel pt flags fuel Hp (v :: iov) 0); [done|done|by exists 0|]].
  - intros [ret rem] N1 Hs. apply walks_ret. by apply transferred_sent in Hs.
  - split; cbn; [lia|apply lenZ_nonneg].
Qed.

(** ** Receiving *)
Definition got_some N (bs : list Z) N' : Prop :=
  net_inv op N' ∧ n_got N' x = n_got N x ++ bs ∧ n_got N' (negb x) = n_got N (negb x) ∧ n_sent N' = n_sent N.
Definition readable N : bool := has (state (e_rs (n_ep N x))) rs_readable.

Lemma got_none N N' : net_inv op N' → still N N' → got_some N [] N'.
Proof. intros Hi [E1 E2]. unfold got_some. by rewrite E1, E2, app_nil_r. Qed.
Lemma got_more N N1 N2 bs l : got_some N bs N1 → got_some N1 l N2 → got_some N (bs ++ l) N2.
Proof. intros (_ & E1 & E2 & E3) (Hi & E4 & E5 & E6). unfold got_some. by rewrite E4, E5, E6, E1, E2, E3, app_assoc. Qed.

Lemma walks_recv_chunk len N : net_inv op N → test_at rs_have_rdata N = true → 0 < len →
  walks may (recv_chunk len) N x (λ bs N', got_some N bs N' ∧ 0 < lenZ bs ≤ len).
Proof.
  intros Hinv Hd Hl. destruct (net_inv_at _ N x Hinv) as (c & d & g & g' & f & f' & Hpc & Hp & _).
  destruct (pair_recv _ _ _ _ _ _ _ _ _ _ _ _ _ _ Hpc Hp Hl Hd) as (bs & e1 & _ & E1 & Hb & _).
  assert (open_step N (mkNet (upd (n_ep N) x e1) (n_sent N) (upd (n_got N) x (n_got N x ++ bs)))) as Hstep by (by eapply net_idle, net_recv).
  unfold walks. rewrite E1. eexists. split; [by apply rtc_once|]. split; [apply upd_eq|]. split; [|done].
  split; [by eapply open_inv|]. cbn [n_sent n_got]. by rewrite upd_eq, upd_ne.
Qed.

(** Nothing is returned only when there is nothing to return. *)
Lemma walks_recv_msgs n : ∀ len N, (may = false → len < Z.of_nat n) → net_inv op N → 0 ≤ len →
  walks may (recv_msgs len n) N x (λ bs N', got_some N bs N' ∧ lenZ bs ≤ len ∧ (bs = [] → N' = N ∧ (len = 0 ∨ test_at rs_have_rdata N = false))).
Proof.
  induction n as [|n IH]; intros len N Hf Hinv Hlen; cbn [recv_msgs]; [apply (spent _ _ (len + 1)); [intros Hm; specialize (Hf Hm); lia|lia]|]. apply walks_bind, walks_gets. fold (test_at rs_have_rdata N).
  destruct (Z.eqb_spec len 0) as [E|E], (test_at rs_have_rdata N) eqn:Et; cbn [orb negb];
    try (apply walks_ret; split; [by apply got_none|]; split; [done|]; intros _; split; [done|]; by auto).
  apply walks_bind. eapply walks_mono; [|apply walks_recv_chunk; [done|done|lia]]. intros bs N1 (Hg & Hb). apply walks_bind.
  eapply walks_mono; [|apply IH; [intros Hm; specialize (Hf Hm); lia|apply Hg|lia]]. intros l N2 (Hg2 & Hl & _). apply walks_ret. split; [by eapply got_more|]. rewrite lenZ_app.
  split; [lia|]. intros Hnil. apply app_nil in Hnil as [-> _]. change (@lenZ Z []) with 0 in Hb. lia.
Qed.

(** [rs_peek] shows the next bytes and changes nothing. *)
Definition peeked r (m : mem) (w len total : Z) (o : res (list Z)) : Prop :=
  o = OutOfFuel ∧ may = true ∨ ∃ bs, o = Ok bs ∧ lenZ bs = Z.min len total ∧
    ∀ i, 0 ≤ i < lenZ bs → bs !! Z.to_nat i = Some (m (rbuf (cfg r) + (w + i) mod rbuf_size (cfg r))).

Lemma peeked_none r m w len total : len = 0 ∨ total = 0 → 0 ≤ len → 0 ≤ total → peeked r m w len total (Ok []).
Proof. intros H1 H2 H3. right. exists []. change (@lenZ Z []) with 0. split; [done|]. split; lia. Qed.
Lemma peeked_more r m w k len total bs o : 0 < k ≤ len → k ≤ total → lenZ bs = k →
  (∀ i, 0 ≤ i < k → bs !! Z.to_nat i = Some (m (rbuf (cfg r) + (w + i) mod rbuf_size (cfg r)))) →
  peeked r m (w + k) (len - k) (total - k) o → peeked r m w len total (let* l := o in Ok (bs ++ l)).
Proof.
  intros Hk Ht Hl Hb [[-> ?]|(l & -> & El & Hl2)]; [by left|right]. exists (bs ++ l). cbn [rbind]. split; [done|]. rewrite lenZ_app. split; [lia|].
  intros i Hi. destruct (Z.ltb_spec i k); [rewrite lookup_app_lZ by lia; apply Hb; lia|]. rewrite lookup_app_rZ by lia. rewrite Hl2 by lia. do 4 f_equal. lia.
Qed.

Lemma peek_msgs_run r m fuel : cfg_ok (cfg r) → ∀ ms head off len w,
  ring_is (rq_size (cfg r) + 1) (rmsg (rx r)) head (rmsg_tail (rx r)) (mkMsg RS_OP_DATA <$> ms) → Forall (λ n, 0 < n) ms →
  0 ≤ off ≤ rbuf_size (cfg r) → off mod rbuf_size (cfg r) = w mod rbuf_size (cfg r) → sum ms ≤ rbuf_size (cfg r) → 0 ≤ len →
  (may = false → len ≤ Z.of_nat fuel) → peeked r m w len (sum ms) (peek_msgs r m fuel head off len).
Proof.
  intros Hc. induction fuel as [|fuel IH]; intros ms head off len w Hring Hpos Hoff Hmod Hsum Hlen Hf; cbn [peek_msgs]; pose proof (sum_nonneg _ Hpos) as Hs0;
    (destruct (Z.eqb_spec len 0) as [E0|Hl]; cbn [orb]; [apply peeked_none; lia|]);
    (destruct (Z.eqb_spec head (rmsg_tail (rx r))) as [Eh|Eh];
      [apply (ring_empty _ _ _ _ _ Hring), fmap_nil_inv in Eh; subst ms; apply peeked_none; cbn; lia|]).
  { left. split; [done|]. destruct may; [done|]. specialize (Hf eq_refl). lia. }
  destruct ms as [|n0 ms]; [exfalso; apply Eh; by apply (ring_empty _ _ _ _ _ Hring)|]. cbn [fmap list_fmap] in Hring.
  destruct (ring_pop _ _ _ _ _ _ Hring) as [Hat Hpop]. apply list.Forall_cons in Hpos as [Hn0 Hpos]. change (sum (n0 :: ms)) with (n0 + sum ms) in *.
  pose proof (sum_nonneg _ Hpos) as Hs1. rewrite Hat. cbn [deref rbind msg_data]. destruct (Z.ltb_spec len n0) as [Hlt|Hge].
  - destruct (read_ring_ok r m off len w Hc Hoff Hmod) as (bs & off' & -> & Hbl & Hbs & Hoff' & Hmod'); [lia|].
    apply peeked_more with len; try done; try lia. rewrite Z.sub_diag. destruct fuel; (apply peeked_none; lia).
  - destruct (read_ring_ok r m off n0 w Hc Hoff Hmod) as (bs & off' & -> & Hbl & Hbs & Hoff' & Hmod'); [lia|].
    apply peeked_more with n0; try done; try lia. replace (n0 + sum ms - n0) with (sum ms) by lia.
    unfold next_msg. rewrite ring_next by apply (ring_head _ _ _ _ _ Hring). apply IH; try done; try lia. intros Hm. specialize (Hf Hm). lia.
Qed.

Lemma walks_peek fuel len N : (may = false → len ≤ Z.of_nat fuel) → net_inv op N → 0 ≤ len →
  walks may (rs_peek fuel len) N x (λ bs N', N' = N ∧ lenZ bs ≤ len ∧ n_got N x ++ bs `prefix_of` n_sent N (negb x) ∧
    (bs = [] → len = 0 ∨ test_at rs_have_rdata N = false)).
Proof.
  intros Hfu Hinv Hlen. destruct (net_inv_at _ N x Hinv) as (c & d & g & g' & f & f' & [Hc _ _ _] & [Hs _ _ Hf] & _). destruct Hf.
  pose proof (s_cfg _ _ _ _ _ Hs) as Hcfg. set (e := n_ep N x) in *. destruct (hsize_double c Hc) as [Hrb Hh].
  pose proof (tiles_le _ _ _ fl_arr) as Hfe. pose proof (tiles_le _ _ _ fl_snd) as Hew. pose proof (sum_nonneg _ fl_pos) as Hs0.
  assert (sum (f_m f') ≤ rbuf_size c) as Hsum.
  { destruct fl_avail, fl_halves as [_ Hdg]. assert (f_d f' * hsize c ≤ f_g f' * hsize c) by (clear -Hdg Hh; nia). lia. }
  assert (peeked (e_rs e) (e_mem e) (lenZ (n_got N x)) len (sum (f_m f')) (peek_msgs (e_rs e) (e_mem e) fuel (rmsg_head (rx (e_rs e))) (rbuf_offset (rx (e_rs e))) len)) as Hp.
  { apply peek_msgs_run; rewrite ?Hcfg; try done; apply fl_off. }
  unfold walks, rs_peek. fold e. destruct Hp as [[-> Hm]|(bs & -> & El & Hb)]; [done|]. cbn [rbind]. exists N. split; [constructor|]. split; [done|]. split; [done|].
  split; [lia|]. pose proof (lenZ_nonneg (n_got N x)) as Hg0. split.
  - apply prefix_more; [done|lia|]. intros i Hi. rewrite Hb, fl_rmem, Hcfg by lia. done.
  - intros ->. change (@lenZ Z []) with 0 in El. destruct (decide (len = 0)) as [|Hl]; [by left|right]. destruct (f_m f') as [|n0 ms].
    + unfold test_at, rs_have_rdata. fold e. apply negb_false_iff, Z.eqb_eq. by apply (ring_empty _ _ _ _ _ fl_ring).
    + apply list.Forall_cons in fl_pos as [Hn0 Hms]. pose proof (sum_nonneg _ Hms). change (sum (n0 :: ms)) with (n0 + sum ms) in *. lia.
Qed.

(** The bytes received, or shown with MSG_PEEK. *)
Definition recv_bytes (flags : Z) N (bs : list Z) N' : Prop :=
  if has flags MSG_PEEK then got_some N [] N' ∧ n_got N x ++ bs `prefix_of` n_sent N (negb x) else got_some N bs N'.

Definition received (flags len : Z) N (p : Z * list Z) N' : Prop :=
  recv_bytes flags N p.2 N' ∧ lenZ p.2 ≤ len ∧ (p.1 = 0 ∨ p.1 = -1) ∧ (p.1 = 0 → p.2 = [] → len = 0 ∨ readable N' = false).

Lemma recv_nothing flags N N' : net_inv op N' → still N N' → recv_bytes flags N [] N'.
Proof.
  intros Hi Hs. unfold recv_bytes. destruct (has flags MSG_PEEK); [|by apply got_none]. split; [by apply got_none|]. rewrite app_nil_r.
  destruct Hs as [E1 E2]. rewrite <- E1, <- E2. pose proof (inv_prefix _ N' (negb x) Hi) as H. by rewrite negb_involutive in H.
Qed.

Lemma walks_recv_loop fuel pt flags n : prompt fuel flags → ∀ len N, (may = false → len < Z.of_nat n ∧ len < Z.of_nat fuel) → net_inv op N → 0 ≤ len →
  walks may (recv_loop fuel pt flags len n) N x (received flags len N).
Proof.
  intros Hp. induction n as [|n IH]; intros len N Hn Hinv Hlen; cbn [recv_loop]; [apply (spent _ _ (len + 1)); [intros Hm; destruct (Hn Hm); lia|lia]|]. apply walks_bind, walks_gets. fold (test_at rs_have_rdata N).
  apply walks_bind, walks_gets, walks_bind.
  assert (walks may (if test_at rs_have_rdata N then mret 0 else rs_get_comp fuel pt (rs_nonblocking (id (e_rs (n_ep N x))) flags) rs_conn_have_rdata) N x
            (waited rs_conn_have_rdata N)) as Hw.
  { destruct (test_at rs_have_rdata N) eqn:Et; [|apply walks_comp; [apply stable_have_rdata|by apply prompt_wait|done]].
    apply walks_ret. split_and!; [done|done|]. left. split; [done|]. unfold test_at, rs_conn_have_rdata in *. by rewrite Et. }
  eapply walks_mono; [|exact Hw]. intros ret N1 (Hi1 & Hs1 & [[-> Ht]| ->]); cbn [Z.eqb negb].
  2: { apply walks_ret. split; [by apply recv_nothing|]. cbn. unfold lenZ. cbn. lia. }
  assert (test_at rs_have_rdata N1 = false → readable N1 = false) as Hread.
  { intros Hz. unfold test_at, rs_conn_have_rdata in *. rewrite Hz in Ht. cbn in Ht. unfold readable. by apply negb_true_iff. }
  unfold received, recv_bytes. destruct (has flags MSG_PEEK) eqn:Epk.
  { apply walks_bind. eapply walks_mono; [|apply walks_peek; [intros Hm; destruct (Hn Hm); lia|done|done]]. intros bs N2 (-> & Hb & Hpre & Hnil). apply walks_ret. destruct Hs1 as [E1 E2]. rewrite E1, E2 in Hpre.
    split; [split; [by apply got_none|done]|]. cbn [fst snd]. split; [done|]. split; [by left|]. intros _ [Hz|Hz]%Hnil; [by left|right; auto]. }
  apply walks_bind. eapply walks_mono; [|apply walks_recv_msgs; [by apply Hn|done|done]]. intros bs N2 (Hg & Hb & Hnil).
  apply walks_bind, walks_gets. assert (got_some N bs N2) as Hg2 by (apply (got_more _ _ _ []  bs (got_none _ _ Hi1 Hs1) Hg)).
  destruct (negb (Z.eqb (lenZ bs) len) && has flags MSG_WAITALL && has (state (id (e_rs (n_ep N2 x)))) rs_readable) eqn:Ewait.
  - assert (0 < lenZ bs) as Hpos.
    { rewrite !andb_true_iff, negb_true_iff, Z.eqb_neq in Ewait. destruct Ewait as [[Hne _] Hrd]. destruct bs; [|rewrite lenZ_cons; pose proof (lenZ_nonneg bs); lia].
      destruct (Hnil eq_refl) as [-> [Hz|Hz]]; [by rewrite Hz in Hne|]. apply Hread in Hz. unfold readable in Hz. unfold id in Hrd. by rewrite Hrd in Hz. }
    apply walks_bind. eapply walks_mono; [|apply IH; [intros Hm; destruct (Hn Hm); lia|apply Hg|lia]]. intros [ret l] N3 (Hg3 & Hl & Hr & He). unfold recv_bytes in Hg3. rewrite Epk in Hg3. apply walks_ret. cbn [fst snd] in *.
    split; [by eapply got_more|]. cbn [fst snd]. rewrite lenZ_app. split; [lia|]. split; [done|]. intros Hz Hnl. apply app_nil in Hnl as [-> ->].
    destruct (He Hz eq_refl) as [E|E]; [left|by right]. change (@lenZ Z []) with 0 in E. lia.
  - apply walks_ret. split; [done|]. cbn [fst snd]. split; [done|]. split; [by left|]. intros _ ->. destruct (Hnil eq_refl) as [-> [Hz|Hz]]; [by left|right].
    by apply Hread.
Qed.

Lemma walks_rrecv fuel pt len flags N : prompt fuel flags → (may = false → len < Z.of_nat fuel) → net_inv op N → ready N → 0 ≤ len →
  walks may (rrecv fuel pt len flags) N x (λ '(n, bs) N', recv_bytes flags N bs N' ∧ (n = -1 ∧ bs = [] ∨ n = lenZ bs ∧ lenZ bs ≤ len) ∧
    (n = 0 → len = 0 ∨ readable N' = false)).
Proof.
  intros Hp Hf Hinv Hready Hlen. unfold rrecv. apply walks_bind, (walks_same _ 0); [by apply ready_connect|].
  cbn [Z.eqb negb]. apply walks_bind. eapply walks_mono; [|apply walks_recv_loop; auto]. intros [ret bs] N1 (Hg & Hl & Hr & He). cbn [fst snd] in *.
  apply walks_ret. split; [done|]. unfold transferred. replace (len - (len - lenZ bs)) with (lenZ bs) by lia.
  assert (lenZ bs = 0 → bs = []) as Hz by (destruct bs; [done|]; rewrite lenZ_cons; pose proof (lenZ_nonneg bs); lia).
  destruct Hr as [-> | ->]; cbn [Z.eqb negb andb].
  - split; [by right|]. intros H0. by apply He, Hz.
  - destruct (Z.eqb_spec (len - lenZ bs) len) as [E|E]; [split; [left; split; [done|apply Hz; lia]|done]|]. split; [by right|]. lia.
Qed.
End Api.

(** ** The theorems *)

(** May a call that transfers [len] bytes wait, or need more fuel?  Not if it asks not to wait and the fuel exceeds
    [len] and the number of completions there can be. *)
Definition may_wait (fuel : nat) (flags len : Z) : bool :=
  negb (has flags MSG_DONTWAIT && Z.ltb (2 * RS_QP_MAX_SIZE) (Z.of_nat fuel) && Z.ltb len (Z.of_nat fuel)).

Lemma may_wait_not fuel flags len : may_wait fuel flags len = false → has flags MSG_DONTWAIT = true ∧ enough fuel ∧ len < Z.of_nat fuel.
Proof. unfold may_wait, enough. rewrite negb_false_iff, !andb_true_iff, !Z.ltb_lt. tauto. Qed.

Section Calls.
Context (S : RsSetup rc).

(** C8. [rsend], and [rsendv] with several buffers, on a connected socket put a first part of the data, in
    order, into the stream, and return its length; an error is returned only if nothing was sent.  They work by
    the steps of two sockets, are never undefined, and with MSG_DONTWAIT they return. *)
Theorem send_calls_stream u N x fuel pt flags : setup_ok (u true) → setup_ok (u false) → reachable u N → ready x N →
  (∀ buf, walks (may_wait fuel flags (lenZ buf)) (rsend fuel pt buf flags) N x (send_result false x N buf)) ∧
  (∀ iov, iov ≠ [] →
     walks (may_wait fuel flags (lenZ (concat iov))) (rsendv fuel pt iov flags) N x (send_result false x N (concat iov))).
Proof.
  intros H1 H2 Hr Hready. pose proof (net_reach_inv u H1 H2 N Hr) as Hinv.
  split; intros; [apply walks_rsend|apply walks_rsendv]; try done; intros (? & ? & ?)%may_wait_not; (done || lia).
Qed.

(** C9. [rrecv] on a connected socket returns the next bytes of the stream, at most [len], and their number; with MSG_PEEK
    they stay in the stream.  It returns an error only with no bytes, and 0 only if none were asked for or
    reading has been shut down.  With MSG_DONTWAIT it returns. *)
Theorem rrecv_stream u N x fuel pt len flags : setup_ok (u true) → setup_ok (u false) → reachable u N → ready x N → 0 ≤ len →
  walks (may_wait fuel flags len) (rrecv fuel pt len flags) N x (λ '(n, bs) N', recv_bytes false x flags N bs N' ∧
    (n = -1 ∧ bs = [] ∨ n = lenZ bs ∧ lenZ bs ≤ len) ∧ (n = 0 → len = 0 ∨ readable x N' = false)).
Proof.
  intros H1 H2 Hr Hready Hl. apply walks_rrecv; try done; try (by intros (? & ? & ?)%may_wait_not). by eapply net_reach_inv.
Qed.
End Calls.

(** ** On the concrete sockets *)
Definition setup_env : RsSetup rc := rc_setup regs0.

Lemma start_ready N x : establish setups = Ok N → ready x N.
Proof.
  intros E.
  assert (match establish setups with Ok N => has (state (e_rs (n_ep N x))) rs_opening || iomap_pending (e_rs (n_ep N x)) | _ => true end = false) as H
    by (destruct x; by vm_compute).
  rewrite E in H. by apply orb_false_iff in H.
Qed.

(** A call on the concrete socket, and the bytes the peer reads. *)
Definition call_and_read (iov : list (list Z)) : res (Z * list Z) :=
  let* N := establish setups in
  let* (n, a) := @rsendv rc _ setup_env 10 0 iov 0 (n_ep N true) in
  match deliver a (n_ep N false) with
  | None => Blocked
  | Some (_, b) => let* (p, _) := @rrecv rc _ setup_env 10 0 100 0 b in Ok (n, p.2)
  end.
Example call_and_read_bytes : call_and_read [[1; 2]; [3]; []; [4; 5]] = Ok (5, [1; 2; 3; 4; 5]).
Proof. by vm_compute. Qed.

Lemma send_calls_stream_witness :
  ∃ N, establish setups = Ok N ∧
    (∀ buf, walks (may_wait (Z.to_nat 200000) MSG_DONTWAIT (lenZ buf)) (@rsend rc _ setup_env (Z.to_nat 200000) 0 buf MSG_DONTWAIT) N true
              (send_result false true N buf)) ∧
    (∀ iov, iov ≠ [] → walks (may_wait (Z.to_nat 200000) MSG_DONTWAIT (lenZ (concat iov)))
              (@rsendv rc _ setup_env (Z.to_nat 200000) 0 iov MSG_DONTWAIT) N true (send_result false true N (concat iov))).
Proof.
  destruct (establish_run setups setup0_ok setup0_ok) as (N & E & _). exists N. split; [exact E|].
  exact (send_calls_stream setup_env setups N true (Z.to_nat 200000) 0 MSG_DONTWAIT setup0_ok setup0_ok (reach_start setups N E) (start_ready N true E)).
Defined.

Lemma rrecv_stream_witness :
  may_wait (Z.to_nat 200000) MSG_DONTWAIT 100 = false ∧ ∃ N, establish setups = Ok N ∧
    walks (may_wait (Z.to_nat 200000) MSG_DONTWAIT 100) (@rrecv rc _ setup_env (Z.to_nat 200000) 0 100 MSG_DONTWAIT) N false
      (λ '(n, bs) N', recv_bytes false false MSG_DONTWAIT N bs N' ∧
         (n = -1 ∧ bs = [] ∨ n = lenZ bs ∧ lenZ bs ≤ 100) ∧ (n = 0 → 100 = 0 ∨ readable false N' = false)).
Proof.
  split; [unfold may_wait; rewrite Z2Nat.id by lia; reflexivity|].
  destruct (establish_run setups setup0_ok setup0_ok) as (N & E & _). exists N. split; [exact E|].
  apply (rrecv_stream setup_env setups N false (Z.to_nat 200000) 0 100 MSG_DONTWAIT setup0_ok setup0_ok (reach_start setups N E) (start_ready N false E)). lia.
Defined.

(** Connecting a fresh socket whose calls succeed at once. *)
Lemma connect_outcome_witness :
  ∃ e1, @rs_do_connect rc _ setup_env (mkEp (su_rs setup0) (λ _, 0) 0 (mkRc [] [] [] [] 0 0 ∅)) = Ok (0, e1) ∧
  ((0 = 0 ∧ state (e_rs e1) = rs_connect_rdwr) ∨
   (0 ≠ 0 ∧ e_errno e1 = EINPROGRESS ∧ opens rs_init (state (e_rs e1))) ∨
   (0 ≠ 0 ∧ again (e_errno e1) = false ∧ state (e_rs e1) = rs_connect_error ∧ rs_err (e_rs e1) = e_errno e1)).
Proof.
  assert (match @rs_do_connect rc _ setup_env (mkEp (su_rs setup0) (λ _, 0) 0 (mkRc [] [] [] [] 0 0 ∅)) with Ok (r, _) => r | _ => 1 end = 0) as H by (by vm_compute).
  destruct (@rs_do_connect rc _ setup_env (mkEp (su_rs setup0) (λ _, 0) 0 (mkRc [] [] [] [] 0 0 ∅))) as [[ret e1]| | | |] eqn:E; [|discriminate H..].
  subst ret. exists e1. split; [reflexivity|]. exact (@connect_outcome rc _ setup_env _ e1 0 E).
Defined.
