(* ===== verification/RsIomap.v ===== *)
(** * rsocket: mapped memory

    [librdmacm/src/rsocket.c]: [riomap] registers a buffer and queues its mapping, which the next transfer writes
    into the peer's table; [riounmap] takes it back; [riowrite] writes straight into a buffer the
    peer has mapped.  An entry of [remote_iomappings] has a memory region exactly while it is in one of
    the two lists, so the table is not kept beside them; reference counts are always 1. *)

From S2P Require Import Prelude Layout FfTypes Attrs Request Cma Rsocket RsNet RsItems RsStream RsSteps RsConn RsSafe RsIo.

Definition PROT_NONE : Z := 0.
Definition PROT_WRITE : Z := 2.
Definition IBV_ACCESS_LOCAL_WRITE : Z := 1.
Definition IBV_ACCESS_REMOTE_WRITE : Z := 2.

(** [d_pd]: has the identifier a protection domain?  [d_reg_mr] gives the key of the region, or nothing and an error
    number. *)
Class RsMap (K : Type) := {
  d_pd : K → bool;
  d_reg_mr : Z → Z → Z → K → option Z * Z * K;
  d_dereg_mr : rs_iomap_mr → K → K
}.

(** ** The lists of mappings *)
Definition mappings (r : rsocket) : list rs_iomap_mr := iomap_list r ++ iomap_queue r.
Definition slot_used (r : rsocket) (i : Z) : bool := existsb (λ m, Z.eqb (im_index m) i) (mappings r).

(** The first entry without a region. *)
Definition rs_get_iomap_mr (r : rsocket) : option Z :=
  head (filter (λ i, slot_used r i = false) (seqZ 0 (sg_length (remote_iomap (cfg r))))).

Definition same_buf (buf len : Z) (m : rs_iomap_mr) : bool := Z.eqb (im_addr m) buf && Z.eqb (im_length m) len.

(** The first mapping of the buffer, and the list without it. *)
Fixpoint take_map (buf len : Z) (l : list rs_iomap_mr) : option (rs_iomap_mr * list rs_iomap_mr) :=
  match l with
  | [] => None
  | m :: l => if same_buf buf len m then Some (m, l)
              else match take_map buf len l with Some (m', l') => Some (m', m :: l') | None => None end
  end.

(** ** The peer's mappings

    [target_iomap] follows [target_sgl] in the list the peer writes. *)
Definition target_iomap (r : rsocket) (i : Z) : Z := target_sgl (cfg r) + sizeof S_rs_sge * RS_SGL_SIZE + sizeof S_rs_iomap * i.
Definition load_iomap (a : Z) (m : mem) : Z * rs_sge :=
  let '(o, w) := field S_rs_iomap ["offset"] in let '(g, _) := field S_rs_iomap ["sge"] in (load (a + o, w) m, load_sge (a + g) m).

(** The end of a mapping, as the code computes it. *)
Definition iom_end (iom : Z * rs_sge) : Z := u64 (iom.1 + sg_length iom.2).

Definition rs_find_iomap (r : rsocket) (m : mem) (offset : Z) : option Z :=
  head (filter (λ a, (Z.leb (load_iomap a m).1 offset && Z.ltb offset (iom_end (load_iomap a m))) = true)
          (target_iomap r <$> seqZ 0 (target_iomap_size (cfg r)))).

Section Iomap.
Context {K : Type} `{!RsEnv K, !RsSetup K, !RsMap K}.
Implicit Types (r : rsocket).

Definition reg_mr (buf len access : Z) : R K (option Z) := λ s,
  let '(o, e, k) := d_reg_mr buf len access (e_k s) in
  Ok (o, mkEp (e_rs s) (e_mem s) (match o with Some _ => e_errno s | None => e end) k).

Definition rs_release_iomap_mr (m : rs_iomap_mr) : R K () := dev_ (d_dereg_mr m).

(** [offset] and the result are signed, the member is not. *)
Definition riomap (buf len prot offset : Z) : R K Z :=
  r ← rs_get id;
  pd ← gets (λ s, d_pd (e_k s));
  if negb pd || negb (Z.eqb (Z.land prot (Z.lnot (Z.lor PROT_WRITE PROT_NONE))) 0) then ERR EINVAL
  else
    let remote := has prot PROT_WRITE in
    match (if remote then rs_get_iomap_mr r else Some (-1)) with
    | None => ERR ENOMEM
    | Some i =>
        o ← reg_mr buf len (if remote then Z.lor IBV_ACCESS_LOCAL_WRITE IBV_ACCESS_REMOTE_WRITE else IBV_ACCESS_LOCAL_WRITE);
        match o with
        | None => mret (-1)
        | Some rkey =>
            let offset := if Z.eqb offset (-1) then sint 64 buf else offset in
            let m := mkIomr (u64 offset) buf len rkey i in
            rs_set (λ r, if Z.leb 0 i then set_iomaps (iomap_queue r ++ [m]) (iomap_list r) true r
                         else set_iomaps (iomap_queue r) (iomap_list r ++ [m]) (iomap_pending r) r) ;;
            mret offset
        end
    end.

Definition riounmap (buf len : Z) : R K Z :=
  r ← rs_get id;
  match take_map buf len (iomap_list r) with
  | Some (m, l) => rs_release_iomap_mr m ;; rs_set (λ r, set_iomaps (iomap_queue r) l (iomap_pending r) r) ;; mret 0
  | None =>
      match take_map buf len (iomap_queue r) with
      | Some (m, l) => rs_release_iomap_mr m ;; rs_set (λ r, set_iomaps l (iomap_list r) (iomap_pending r) r) ;; mret 0
      | None => ERR EINVAL
      end
  end.

(** [rs_free_iomappings]: each turn unmaps the first mapping that is left, if [riounmap] finds it. *)
Fixpoint free_list (which : rsocket → list rs_iomap_mr) (fuel : nat) : R K () :=
  match fuel with
  | O => λ _, OutOfFuel
  | S fuel =>
      r ← rs_get id;
      match which r with
      | [] => mret ()
      | m :: _ => riounmap (im_addr m) (im_length m) ;; free_list which fuel
      end
  end.
Definition rs_free_iomappings (fuel : nat) : R K () := free_list iomap_list fuel ;; free_list iomap_queue fuel.

(** ** Writing *)

(** How much of [left] bytes goes into the next write, and the next [olen]. *)
Definition io_size r (iom : Z * rs_sge) (offset olen left : Z) : Z * Z :=
  let '(n, olen) := if Z.ltb olen left then (olen, if Z.ltb olen RS_MAX_TRANSFER then u32 (Z.shiftl olen 1) else olen)
                    else (left, olen) in
  let n := if Z.ltb (u32 (sbuf_bytes_avail (tx r))) n then u32 (sbuf_bytes_avail (tx r)) else n in
  let room := u64 (iom.1 + sg_length iom.2 - offset) in
  ((if Z.ltb room n then u32 room else n), olen).

(** One write at [offset] through the mapping at [a]. *)
Definition io_chunk (buf : list Z) (a offset olen : Z) : R K (Z * Z * Z) :=
  s ← gets id;
  let iom := load_iomap a (e_mem s) in
  let '(n, olen) := io_size (e_rs s) iom offset olen (lenZ buf) in
  let bs := takeZ n buf in
  ret ← (if Z.leb n (sq_inline (cfg (e_rs s))) then rs_write_direct iom offset (Inline bs) n
         else place bs (λ d, rs_write_direct iom offset d n));
  mret (ret, n, olen).

(** The mapping in use, looked up again once [offset] is behind it. *)
Definition cur_iomap r (m : mem) (iom : option Z) (offset : Z) : option Z :=
  match iom with
  | Some a => if Z.ltb (iom_end (load_iomap a m)) offset then rs_find_iomap r m offset else iom
  | None => rs_find_iomap r m offset
  end.

Context (fuel : nat) (polling_time : Z).

Fixpoint iowrite_loop (flags : Z) (buf : list Z) (offset : Z) (iom : option Z) (olen : Z) (n : nat) : R K (Z * Z) :=
  if Z.eqb (lenZ buf) 0 then mret (0, 0)
  else
    match n with
    | O => λ _, OutOfFuel
    | S n =>
        iom ← gets (λ s, cur_iomap (e_rs s) (e_mem s) iom offset);
        match iom with
        | None => mret (0, lenZ buf)
        | Some a =>
            ret ← wait_send fuel polling_time flags;
            if negb (Z.eqb ret 0) then mret (ret, lenZ buf)
            else
              '(ret, k, olen) ← io_chunk buf a offset olen;
              if negb (Z.eqb ret 0) then mret (ret, lenZ buf)
              else iowrite_loop flags (dropZ k buf) (u64 (offset + k)) (Some a) olen n
        end
    end.

(** The result is a [size_t]. *)
Definition riowrite (buf : list Z) (offset flags : Z) : R K Z :=
  ret ← maps_first fuel polling_time flags;
  '(ret, rem) ← (if negb (Z.eqb ret 0) then mret (ret, lenZ buf)
                 else iowrite_loop flags buf (u64 offset) None RS_OLAP_START_SIZE fuel);
  mret (u64 (transferred ret (lenZ buf) rem)).
End Iomap.

(** ** What transfers leave alone

    [P] is about members that sending, receiving and waiting do not change, and about memory they do not write. *)
Record aside {K} `{!RsEnv K} (P : rsocket → mem → Prop) : Prop := {
  as_tx f r m : P r m → P (set_tx f r) m;
  as_rx f r m : P r m → P (set_rx f r) m;
  as_ctrl a b r m : P r m → P (set_ctrl a b r) m;
  as_state a b r m : P r m → P (set_state a b r) m;
  as_cq a b r m : P r m → P (set_cq a b r) m;
  as_buf g r m r1 m1 : P r m → P r1 m1 → P r1 (store_sge (rs_get_ctrl_buf r) g m1);
  as_poll n c r m m1 k k1 : d_poll_cq m k = (n, c, m1, k1) → P r m → P r m1;
  as_event z r m m1 k k1 : d_get_event m k = Some (z, m1, k1) → P r m → P r m1
}.

Section Transfers.
Context {K : Type} `{!RsEnv K, !RsSetup K} (P : rsocket → mem → Prop) (HP : aside P).
#[local] Abbreviation keeps m := (@keeps K _ P m).

Ltac aside_tac :=
  keeps_tac; unfold set_rseq_comp, give_half, set_sseq_comp, push_msg, take_send, set_target_sge, set_ssgl_addr, back_send;
  repeat match goal with
  | |- P (set_tx _ _) _ => apply (as_tx P HP)
  | |- P (set_rx _ _) _ => apply (as_rx P HP)
  | |- P (set_ctrl _ _ _) _ => apply (as_ctrl P HP)
  | |- P (set_state _ _ _) _ => apply (as_state P HP)
  | |- P (set_cq _ _ _) _ => apply (as_cq P HP)
  | |- P _ (store_sge (rs_get_ctrl_buf _) _ _) => eapply (as_buf P HP)
  end; eauto with rs_keeps.

Lemma aside_post_send w : keeps (post_send w).
Proof. unfold post_send. aside_tac. Qed.
Lemma aside_post_recv : keeps rs_post_recv.
Proof. unfold rs_post_recv. aside_tac. Qed.
Lemma aside_post_msg z : keeps (rs_post_msg z).
Proof. unfold rs_post_msg. keeps_tac; apply aside_post_send. Qed.
Lemma aside_write_msg d z a k : keeps (rs_post_write_msg d z a k).
Proof. unfold rs_post_write_msg, rs_post_write. keeps_tac; apply aside_post_send. Qed.
#[local] Hint Resolve aside_post_send aside_post_recv aside_post_msg aside_write_msg : rs_keeps.

Lemma aside_update_credits : keeps rs_update_credits.
Proof. unfold rs_update_credits, rs_send_credits. aside_tac. Qed.

Lemma aside_poll : keeps poll_cq.
Proof.
  intros e a e1 H E. unfold poll_cq in E. destruct (d_poll_cq (e_mem e) (e_k e)) as [[[n c] m] k] eqn:Ep. injection E as <- <-. cbn.
  by eapply (as_poll P HP).
Qed.
Lemma aside_event : keeps rs_get_cq_event.
Proof.
  intros e a e1 H E. unfold rs_get_cq_event in E. destruct (cq_armed (e_rs e)); cbn in E; [|by injection E as <- <-].
  destruct (d_get_event (e_mem e) (e_k e)) as [[[z m] k]|] eqn:Ev; [|done]. pose proof (as_event P HP _ _ _ _ _ _ Ev H).
  repeat case_match; injection E as <- <-; cbn; first [done|by apply (as_cq P HP)|by apply (as_state P HP)].
Qed.
#[local] Hint Resolve aside_update_credits aside_poll aside_event : rs_keeps.

Lemma aside_receive z : keeps (receive_msg z).
Proof. unfold receive_msg. aside_tac. Qed.
Lemma aside_complete i ok : keeps (complete_send i ok).
Proof. unfold complete_send. aside_tac. Qed.
#[local] Hint Resolve aside_receive aside_complete : rs_keeps.

Lemma aside_drain n : ∀ z, keeps (drain_cq n z).
Proof. induction n as [|n IH]; intros z; cbn [drain_cq]; [apply keeps_fuel|]. aside_tac. Qed.
Lemma aside_repost n : keeps (repost n).
Proof. induction n as [|n IH]; cbn [repost]; aside_tac. Qed.
#[local] Hint Resolve aside_drain aside_repost : rs_keeps.
Lemma aside_poll_cq n : keeps (rs_poll_cq n).
Proof. unfold rs_poll_cq. aside_tac. Qed.
#[local] Hint Resolve aside_poll_cq : rs_keeps.

Lemma aside_turns fuel nb t n : keeps (process_turns fuel nb t n).
Proof. induction n as [|n IH]; cbn [process_turns]; [apply keeps_fuel|]. aside_tac. Qed.
#[local] Hint Resolve aside_turns : rs_keeps.
Lemma aside_process fuel nb t : keeps (rs_process_cq fuel nb t).
Proof. unfold rs_process_cq. aside_tac. Qed.
#[local] Hint Resolve aside_process : rs_keeps.
Lemma aside_comp fuel pt nb t n : ∀ st, keeps (comp_turns fuel pt nb t st n).
Proof. induction n as [|n IH]; intros st; cbn [comp_turns]; [apply keeps_fuel|]. aside_tac. Qed.
#[local] Hint Resolve aside_comp : rs_keeps.
Lemma aside_wait fuel pt flags : keeps (wait_send fuel pt flags).
Proof. unfold wait_send, rs_get_comp. aside_tac. Qed.
Lemma aside_direct iom o d n : keeps (rs_write_direct iom o d n).
Proof. unfold rs_write_direct, rs_post_write. aside_tac. Qed.
Lemma aside_iomap m d : keeps (rs_write_iomap m d).
Proof. unfold rs_write_iomap. aside_tac. Qed.
End Transfers.

(** ** Mappings have entries of their own *)

(** Two mappings the peer may write have different entries of its table; [pending] tells of queued ones. *)
Record maps_ok (queue list : list rs_iomap_mr) (pending : bool) (n : Z) : Prop := {
  mo_slots : NoDup (filter (λ i, 0 ≤ i) (im_index <$> (list ++ queue)));
  mo_range : Forall (λ m, im_index m = -1 ∨ 0 ≤ im_index m < n) (list ++ queue);
  mo_queue : Forall (λ m, 0 ≤ im_index m) queue;
  mo_pending : queue ≠ [] → pending = true
}.
Definition maps_of (r : rsocket) (_ : mem) : Prop :=
  maps_ok (iomap_queue r) (iomap_list r) (iomap_pending r) (sg_length (remote_iomap (cfg r))).

Lemma take_map_split buf len l m l' : take_map buf len l = Some (m, l') → l' `sublist_of` l.
Proof.
  revert l'. induction l as [|x l IH]; intros l' E; [done|]. cbn in E. destruct (same_buf buf len x).
  - injection E as <- <-. by apply sublist_cons.
  - destruct (take_map buf len l) as [[m' l1]|]; [|done]. injection E as <- <-. apply sublist_skip. by apply IH.
Qed.
Lemma take_map_head m l : take_map (im_addr m) (im_length m) (m :: l) = Some (m, l).
Proof. cbn. unfold same_buf. by rewrite !Z.eqb_refl. Qed.

Lemma sublist_keep {A} (P : A → Prop) `{!∀ x, Decision (P x)} (l k : list A) : l `sublist_of` k → filter P l `sublist_of` filter P k.
Proof. induction 1; [done|..]; rewrite !filter_cons; repeat case_decide; auto using sublist_skip, sublist_cons. Qed.
Lemma sublist_Forall {A} (P : A → Prop) (l k : list A) : l `sublist_of` k → Forall P k → Forall P l.
Proof. induction 1; intros Hk; [done|..]; apply list.Forall_cons in Hk as [Hx Hk]; [apply list.Forall_cons; auto|auto]. Qed.

Lemma maps_sublist q l p n q' l' : maps_ok q l p n → q' `sublist_of` q → l' `sublist_of` l → maps_ok q' l' p n.
Proof.
  intros [H1 H2 H3 H4] Hq Hl. assert (l' ++ q' `sublist_of` l ++ q) as Hs by (by apply sublist_app). constructor.
  - eapply sublist_NoDup; [exact H1|]. apply sublist_keep. by apply fmap_sublist.
  - by eapply sublist_Forall.
  - by eapply sublist_Forall.
  - intros Hne. apply H4. intros ->. apply Hne. by apply sublist_nil_r in Hq.
Qed.

(** The free entry [riomap] takes is the first. *)
Lemma first_free (P : Z → bool) n : ∀ k, match head (filter (λ i, P i = false) (seqZ k (Z.of_nat n))) with
  | Some i => k ≤ i < k + Z.of_nat n ∧ P i = false ∧ ∀ j, k ≤ j < i → P j = true
  | None => ∀ j, k ≤ j < k + Z.of_nat n → P j = true
  end.
Proof.
  induction n as [|n IH]; intros k; [intros j; lia|]. rewrite seqZ_cons by lia. rewrite filter_cons. case_decide as Hk; cbn [head].
  - split; [lia|]. split; [done|]. lia.
  - apply not_false_is_true in Hk. replace (Z.pred (Z.of_nat (S n))) with (Z.of_nat n) by lia. specialize (IH (Z.succ k)).
    destruct (head _) as [i|]; [destruct IH as (Hi & Hf & Hall); split; [lia|]; split; [done|]; intros j Hj|intros j Hj];
      (destruct (decide (j = k)) as [->|]; [done|]); apply Hall || apply IH; lia.
Qed.
Lemma get_iomap_mr_spec r : match rs_get_iomap_mr r with
  | Some i => 0 ≤ i < sg_length (remote_iomap (cfg r)) ∧ slot_used r i = false ∧ ∀ j, 0 ≤ j < i → slot_used r j = true
  | None => ∀ j, 0 ≤ j < sg_length (remote_iomap (cfg r)) → slot_used r j = true
  end.
Proof.
  unfold rs_get_iomap_mr. destruct (decide (0 ≤ sg_length (remote_iomap (cfg r)))) as [Hn|Hn].
  - pose proof (first_free (slot_used r) (Z.to_nat (sg_length (remote_iomap (cfg r)))) 0) as H. rewrite Z2Nat.id in H by done. exact H.
  - rewrite seqZ_nil by lia. cbn. lia.
Qed.

Lemma slot_free r i : slot_used r i = false → i ∉ im_index <$> (iomap_list r ++ iomap_queue r).
Proof.
  unfold slot_used, mappings. intros Hu Hin. apply list_elem_of_fmap in Hin as (m & -> & Hm). apply list_elem_of_In in Hm.
  assert (existsb (λ m0, Z.eqb (im_index m0) (im_index m)) (iomap_list r ++ iomap_queue r) = true) as Ht; [|by rewrite Hu in Ht].
  apply existsb_exists. exists m. by rewrite Z.eqb_refl.
Qed.

Lemma maps_remote q l p n m : maps_ok q l p n → im_index m ∉ im_index <$> (l ++ q) → 0 ≤ im_index m < n → maps_ok (q ++ [m]) l true n.
Proof.
  intros [H1 H2 H3 H4] Hf Hi. constructor; [| | |done]; rewrite ?app_assoc.
  - rewrite fmap_app, list.filter_app. apply list.NoDup_app. split; [done|]. cbn [fmap list_fmap]. rewrite filter_cons, decide_True by lia. cbn. split; [|apply list.NoDup_singleton].
    intros x Hx Hx'. apply list_elem_of_singleton in Hx' as ->. by apply list_elem_of_filter in Hx as [_ Hx].
  - apply list.Forall_app. split; [done|]. apply list.Forall_singleton. by right.
  - apply list.Forall_app. split; [done|]. apply list.Forall_singleton. lia.
Qed.
Lemma maps_local q l p n m : maps_ok q l p n → im_index m = -1 → maps_ok q (l ++ [m]) p n.
Proof.
  intros [H1 H2 H3 H4] Hi. rewrite fmap_app, list.filter_app in H1. apply list.Forall_app in H2 as [H2 H2']. constructor; [| |done|done]; rewrite <- app_assoc.
  - rewrite fmap_app, list.filter_app. cbn [app fmap list_fmap]. rewrite filter_cons, decide_False by lia. done.
  - repeat (apply list.Forall_app; split; try done). apply list.Forall_singleton. by left.
Qed.

Section Mappings.
Context {K : Type} `{!RsEnv K, !RsSetup K, !RsMap K}.
#[local] Abbreviation kept m := (keeps (K := K) maps_of m).

Lemma step_bind {A B} (m : R K A) (f : A → R K B) e b e2 : (m ≫= f) e = Ok (b, e2) → ∃ a e1, m e = Ok (a, e1) ∧ f a e1 = Ok (b, e2).
Proof. unfold mbind, R_bind. destruct (m e) as [[a e1]| | | |]; try done. cbn. by exists a, e1. Qed.

Lemma aside_maps (Q : list rs_iomap_mr → list rs_iomap_mr → bool → rs_cfg → Prop) :
  aside (K := K) (λ r _, Q (iomap_queue r) (iomap_list r) (iomap_pending r) (cfg r)).
Proof. by constructor. Qed.
Lemma maps_aside : aside (K := K) maps_of.
Proof. apply (aside_maps (λ q l p c, maps_ok q l p (sg_length (remote_iomap c)))). Qed.

(** [place] also writes the send buffer. *)
Lemma keeps_place (Q : list rs_iomap_mr → list rs_iomap_mr → bool → rs_cfg → Prop) bs write :
  let P r (_ : mem) := Q (iomap_queue r) (iomap_list r) (iomap_pending r) (cfg r) in
  (∀ d, keeps P (write d)) → keeps (K := K) P (place bs write).
Proof. intros P Hw. unfold place, set_ssgl_addr. keeps_tac; try done; apply Hw. Qed.

(** A mapping that was sent goes from the head of the queue to the end of the list. *)
Lemma send_mapping q m l p c : maps_ok (m :: q) l p c → maps_ok q (l ++ [m]) p c.
Proof.
  intros [H1 H2 H3 H4]. apply list.Forall_cons in H3 as [_ H3]. constructor; [by rewrite <- app_assoc|by rewrite <- app_assoc|done|]. intros _. by apply H4.
Qed.
Lemma kept_loop fuel pt flags n : ∀ ret, kept (iomap_loop fuel pt flags ret n).
Proof.
  induction n as [|n IH]; intros ret; cbn [iomap_loop]; [apply keeps_fuel|]. intros e b e2 H E. apply step_bind in E as (r & e1 & [= <- <-] & E). unfold id in E.
  destruct (iomap_queue (e_rs e)) as [|m q] eqn:Eq; [by injection E as <- <-|].
  set (P := λ (r : rsocket) (_ : mem), maps_ok (iomap_queue r) (iomap_list r) (iomap_pending r) (sg_length (remote_iomap (cfg r))) ∧ iomap_queue r = m :: q).
  assert (aside (K := K) P) as HP by apply (aside_maps (λ q' l p c, maps_ok q' l p (sg_length (remote_iomap c)) ∧ q' = m :: q)).
  assert (P (e_rs e) (e_mem e)) as HPe by done.
  apply step_bind in E as (ret1 & e1 & E1 & E). apply (aside_wait P HP) in E1; [|done]. destruct (Z.eqb ret1 0); cbn [negb] in E; [|injection E as <- <-; by destruct E1].
  apply step_bind in E as (r & e3 & [= <- <-] & E). apply step_bind in E as (ret2 & e3 & E2 & E).
  assert (P (e_rs e3) (e_mem e3)) as [H3 Hq].
  { revert E2. destruct (Z.leb _ _); intros E2; [by apply (aside_iomap P HP) in E2|].
    apply (keeps_place (λ q' l p c, maps_ok q' l p (sg_length (remote_iomap c)) ∧ q' = m :: q)) in E2; [done| |done]. intros d. apply (aside_iomap P HP). }
  apply step_bind in E as ([] & e4 & E4 & E). injection E4 as <-. rewrite Hq in H3.
  assert (maps_of (iomap_sent m (e_rs e3)) (e_mem e3)) as H4 by (unfold maps_of, iomap_sent; cbn; rewrite Hq; by apply send_mapping).
  destruct (Z.eqb ret2 0); cbn [negb] in E; [by apply IH in E|by injection E as <- <-].
Qed.
Lemma kept_send_iomaps fuel pt flags : kept (rs_send_iomaps fuel pt flags).
Proof.
  unfold rs_send_iomaps. apply keeps_bind; [apply kept_loop|]. intros ret. keeps_tac. destruct H as [H1 H2 H3 H4]. constructor; try done.
  cbn. intros Hne. by destruct (iomap_queue _).
Qed.
Lemma kept_maps_first fuel pt flags : kept (maps_first fuel pt flags).
Proof. unfold maps_first. keeps_tac. apply kept_send_iomaps. Qed.

Lemma kept_write_data d n : kept (rs_write_data d n).
Proof. unfold rs_write_data, take_send, set_target_sge. keeps_tac; try done; apply aside_write_msg. Qed.
Lemma kept_place bs write : (∀ d, kept (write d)) → kept (place bs write).
Proof. apply (keeps_place (λ q l p c, maps_ok q l p (sg_length (remote_iomap c)))). Qed.
#[local] Hint Resolve kept_maps_first kept_write_data kept_place : rs_keeps.
#[local] Hint Extern 1 (keeps maps_of (wait_send _ _ _)) => apply (aside_wait _ maps_aside) : rs_keeps.
#[local] Hint Extern 1 (keeps maps_of (rs_write_direct _ _ _ _)) => apply (aside_direct _ maps_aside) : rs_keeps.
#[local] Hint Extern 1 (keeps maps_of (rs_get_comp _ _ _ _)) => apply (aside_comp _ maps_aside) : rs_keeps.

Lemma kept_send_loop fuel pt flags n : ∀ buf olen, kept (send_loop fuel pt flags buf olen n).
Proof. induction n as [|n IH]; intros buf olen; cbn [send_loop]; unfold send_chunk; keeps_tac. Qed.
Lemma kept_sendv_loop fuel pt flags n : ∀ iov o left olen, kept (sendv_loop fuel pt flags iov o left olen n).
Proof. induction n as [|n IH]; intros iov o left olen; cbn [sendv_loop]; unfold send_iov; keeps_tac. Qed.
Lemma kept_recv_msgs n : ∀ left, kept (recv_msgs left n).
Proof. induction n as [|n IH]; intros left; cbn [recv_msgs]; unfold recv_chunk; keeps_tac; done. Qed.
Lemma kept_peek fuel len : kept (rs_peek fuel len).
Proof. intros e a e1 H E. unfold rs_peek in E. destruct (peek_msgs _ _ _ _ _ _); try done. by injection E as <- <-. Qed.
#[local] Hint Resolve kept_send_loop kept_sendv_loop kept_recv_msgs kept_peek : rs_keeps.
Lemma kept_recv_loop fuel pt flags n : ∀ left, kept (recv_loop fuel pt flags left n).
Proof. induction n as [|n IH]; intros left; cbn [recv_loop]; keeps_tac. Qed.
Lemma kept_iowrite_loop fuel pt flags n : ∀ buf o iom olen, kept (iowrite_loop fuel pt flags buf o iom olen n).
Proof. induction n as [|n IH]; intros buf o iom olen; cbn [iowrite_loop]; unfold io_chunk; keeps_tac. Qed.
#[local] Hint Resolve kept_recv_loop kept_iowrite_loop : rs_keeps.

(** [connect_first] does nothing unless a connection is being made. *)
Lemma connected_first {A} (f : Z → R K A) e a e1 : has (state (e_rs e)) rs_opening = false →
  (connect_first ≫= f) e = Ok (a, e1) → f 0 e = Ok (a, e1).
Proof. intros Hs. unfold connect_first, mbind, R_bind, rs_get, gets, id. cbn [rbind]. by rewrite Hs. Qed.

Lemma kept_riounmap buf len : kept (riounmap buf len).
Proof.
  unfold riounmap, rs_release_iomap_mr. intros e a e1 H E. apply step_bind in E as (r & e2 & [= <- <-] & E). unfold id in E.
  destruct (take_map buf len (iomap_list (e_rs e))) as [[m l]|] eqn:E1; [|destruct (take_map buf len (iomap_queue (e_rs e))) as [[m l]|] eqn:E2];
    [apply take_map_split in E1; injection E as <- <-; by eapply maps_sublist|
     apply take_map_split in E2; injection E as <- <-; by eapply maps_sublist|by injection E as <- <-].
Qed.

(** What [riomap] adds. *)
Lemma riomap_cases buf len prot off e o e1 : riomap buf len prot off e = Ok (o, e1) →
  (o = -1 ∧ e_rs e1 = e_rs e) ∨
  ∃ key i, (if has prot PROT_WRITE then rs_get_iomap_mr (e_rs e) = Some i else i = -1) ∧
    let m := mkIomr (u64 o) buf len key i in
    e_rs e1 = if Z.leb 0 i then set_iomaps (iomap_queue (e_rs e) ++ [m]) (iomap_list (e_rs e)) true (e_rs e)
              else set_iomaps (iomap_queue (e_rs e)) (iomap_list (e_rs e) ++ [m]) (iomap_pending (e_rs e)) (e_rs e).
Proof.
  unfold riomap. intros E. apply step_bind in E as (r & e2 & [= <- <-] & E). apply step_bind in E as (pd & e2 & [= <- <-] & E). unfold id in E.
  destruct (negb (d_pd (e_k e)) || _); [injection E as <- <-; by left|].
  destruct (if has prot PROT_WRITE then rs_get_iomap_mr (e_rs e) else Some (-1)) as [i|] eqn:Ei; [|injection E as <- <-; by left].
  apply step_bind in E as (k & e2 & Ek & E). unfold reg_mr in Ek. destruct (d_reg_mr _ _ _ _) as [[k1 z] k2]. injection Ek as -> <-.
  destruct k as [key|]; [|injection E as <- <-; by left]. injection E as <- <-. right. exists key, i.
  split; [by destruct (has prot PROT_WRITE); [|injection Ei as <-]|]. done.
Qed.

Lemma kept_riomap buf len prot off : kept (riomap buf len prot off).
Proof.
  intros e o e1 H E. apply riomap_cases in E as [[_ Er]|(key & i & Hi & Er)]; unfold maps_of; rewrite Er; [done|].
  destruct (has prot PROT_WRITE).
  - pose proof (get_iomap_mr_spec (e_rs e)) as Hs. rewrite Hi in Hs. destruct Hs as (Hr & Hf & _).
    destruct (Z.leb_spec 0 i); [|lia]. exact (maps_remote _ _ _ _ (mkIomr (u64 o) buf len key i) H (slot_free _ i Hf) Hr).
  - subst i. cbn. by apply maps_local.
Qed.

Lemma kept_free_list which n : kept (free_list which n).
Proof. induction n as [|n IH]; cbn [free_list]; [apply keeps_fuel|]. keeps_tac; apply kept_riounmap. Qed.

(** Closing takes every mapping back. *)
Lemma unmap_list m l (e : ep K) : iomap_list (e_rs e) = m :: l → riounmap (im_addr m) (im_length m) e =
  Ok (0, mkEp (set_iomaps (iomap_queue (e_rs e)) l (iomap_pending (e_rs e)) (e_rs e)) (e_mem e) (e_errno e) (d_dereg_mr m (e_k e))).
Proof. intros El. unfold riounmap, mbind, R_bind, rs_get, gets, id. cbn [rbind]. by rewrite El, take_map_head. Qed.
Lemma unmap_queue m l (e : ep K) : iomap_list (e_rs e) = [] → iomap_queue (e_rs e) = m :: l → riounmap (im_addr m) (im_length m) e =
  Ok (0, mkEp (set_iomaps l [] (iomap_pending (e_rs e)) (e_rs e)) (e_mem e) (e_errno e) (d_dereg_mr m (e_k e))).
Proof.
  intros El Eq. unfold riounmap, mbind, R_bind, rs_get, gets, id. cbn [rbind]. rewrite El. cbn [take_map]. rewrite Eq, take_map_head.
  unfold rs_release_iomap_mr, dev_, dev, rs_set. cbn. by rewrite El.
Qed.
Lemma free_list_all l : ∀ n (e : ep K), iomap_list (e_rs e) = l → (length l < n)%nat →
  ∃ e1, free_list iomap_list n e = Ok ((), e1) ∧ iomap_list (e_rs e1) = [] ∧ iomap_queue (e_rs e1) = iomap_queue (e_rs e).
Proof.
  induction l as [|m l IH]; intros n e El Hn; (destruct n as [|n]; [cbn in Hn; lia|]); cbn [free_list]; unfold mbind, R_bind, rs_get, gets, id; cbn [rbind]; rewrite El.
  - by exists e.
  - rewrite (unmap_list m l) by done. cbn [rbind]. edestruct (IH n) as (e1 & E1 & H1 & H2); [| |exists e1; split; [exact E1|by split]]; [done|cbn in Hn; lia].
Qed.
Lemma free_queue_all l : ∀ n (e : ep K), iomap_list (e_rs e) = [] → iomap_queue (e_rs e) = l → (length l < n)%nat →
  ∃ e1, free_list iomap_queue n e = Ok ((), e1) ∧ mappings (e_rs e1) = [].
Proof.
  induction l as [|m l IH]; intros n e El Eq Hn; (destruct n as [|n]; [cbn in Hn; lia|]); cbn [free_list]; unfold mbind, R_bind, rs_get, gets, id; cbn [rbind]; rewrite Eq.
  - exists e. unfold mappings. by rewrite El, Eq.
  - rewrite (unmap_queue m l) by done. cbn [rbind]. apply IH; [done|done|cbn in Hn; lia].
Qed.

(** The calls of an application on a socket that is not being connected. *)
Inductive map_step : ep K → ep K → Prop :=
  | map_riomap e buf len prot off o e1 : riomap buf len prot off e = Ok (o, e1) → map_step e e1
  | map_riounmap e buf len o e1 : riounmap buf len e = Ok (o, e1) → map_step e e1
  | map_riowrite e fuel pt buf off flags o e1 : riowrite fuel pt buf off flags e = Ok (o, e1) → map_step e e1
  | map_rsend e fuel pt buf flags o e1 : has (state (e_rs e)) rs_opening = false → rsend fuel pt buf flags e = Ok (o, e1) → map_step e e1
  | map_rsendv e fuel pt iov flags o e1 : has (state (e_rs e)) rs_opening = false → rsendv fuel pt iov flags e = Ok (o, e1) → map_step e e1
  | map_rrecv e fuel pt len flags o e1 : has (state (e_rs e)) rs_opening = false → rrecv fuel pt len flags e = Ok (o, e1) → map_step e e1
  | map_free e n o e1 : rs_free_iomappings n e = Ok (o, e1) → map_step e e1.

Lemma step_maps e e1 : map_step e e1 → maps_of (e_rs e) (e_mem e) → maps_of (e_rs e1) (e_mem e1).
Proof.
  intros Hs H. destruct Hs as [e buf len prot off o e1 E|e buf len o e1 E|e fuel pt buf off flags o e1 E|e fuel pt buf flags o e1 Ho E|
    e fuel pt iov flags o e1 Ho E|e fuel pt len flags o e1 Ho E|e n o e1 E].
  - by apply kept_riomap in E.
  - by apply kept_riounmap in E.
  - revert H E. apply (λ k : kept (riowrite fuel pt buf off flags), k e o e1). unfold riowrite. keeps_tac.
  - apply connected_first in E; [|done]. cbn [Z.eqb negb] in E. revert H E. apply (λ k : kept _, k e o e1). keeps_tac.
  - apply connected_first in E; [|done]. cbn [Z.eqb negb] in E. revert H E. apply (λ k : kept _, k e o e1). keeps_tac.
  - apply connected_first in E; [|done]. cbn [Z.eqb negb] in E. revert H E. apply (λ k : kept _, k e o e1). keeps_tac.
  - revert H E. apply (λ k : kept (rs_free_iomappings n), k e o e1). unfold rs_free_iomappings. keeps_tac; apply kept_free_list.
Qed.

(** C23. Whatever the calls of the application, the buffers it has mapped for its peer have different entries of the
    peer's table, within its size, and mappings that wait to be sent are announced as pending.  Mapping
    another buffer takes the first entry that is free; when none is, it fails and changes nothing.  Closing takes
    all of them back. *)
Theorem mappings_private (e0 e : ep K) : mappings (e_rs e0) = [] → rtc map_step e0 e →
  maps_of (e_rs e) (e_mem e) ∧
  (∀ buf len off o e1, riomap buf len PROT_WRITE off e = Ok (o, e1) →
     o = -1 ∧ mappings (e_rs e1) = mappings (e_rs e) ∨
     ∃ key i, 0 ≤ i < sg_length (remote_iomap (cfg (e_rs e))) ∧ slot_used (e_rs e) i = false ∧ (∀ j, 0 ≤ j < i → slot_used (e_rs e) j = true) ∧
       mappings (e_rs e1) = mappings (e_rs e) ++ [mkIomr (u64 o) buf len key i]) ∧
  (∀ buf len off, d_pd (e_k e) = true → (∀ i, 0 ≤ i < sg_length (remote_iomap (cfg (e_rs e))) → slot_used (e_rs e) i = true) →
     riomap buf len PROT_WRITE off e = Ok (-1, mkEp (e_rs e) (e_mem e) ENOMEM (e_k e))) ∧
  (∀ n, lenZ (mappings (e_rs e)) < Z.of_nat n → ∃ e1, rs_free_iomappings n e = Ok ((), e1) ∧ mappings (e_rs e1) = []).
Proof.
  intros H0 Hr. split_and!.
  - assert (maps_of (e_rs e0) (e_mem e0)) as Hm.
    { apply app_nil in H0 as [El Eq]. unfold maps_of. rewrite El, Eq. constructor; [apply NoDup_nil_2|done|done|done]. }
    clear H0. revert Hm. induction Hr as [e|e e1 e2 Hs _ IH]; [done|]. intros Hm. apply IH. by eapply step_maps.
  - intros buf len off o e1 E. apply riomap_cases in E as [[-> Er]|(key & i & Hi & Er)]; [left; by rewrite Er|right]. cbn in Hi.
    pose proof (get_iomap_mr_spec (e_rs e)) as Hs. rewrite Hi in Hs. destruct Hs as (Hb & Hf & Hall). exists key, i. split_and!; try done; try lia.
    rewrite Er. destruct (Z.leb_spec 0 i); [|lia]. unfold mappings. cbn. by rewrite app_assoc.
  - intros buf len off Hpd Hall. pose proof (get_iomap_mr_spec (e_rs e)) as Hs.
    destruct (rs_get_iomap_mr (e_rs e)) as [i|] eqn:Ei; [destruct Hs as (Hb & Hf & _); rewrite Hall in Hf by done; done|].
    unfold riomap, mbind, R_bind, rs_get, gets, id. cbn [rbind]. rewrite Hpd. cbn. by rewrite Ei.
  - intros n Hn. unfold mappings, lenZ in Hn. rewrite length_app in Hn. destruct (free_list_all _ n e eq_refl) as (e1 & E1 & El & Eq); [lia|].
    destruct (free_queue_all _ n e1 El Eq) as (e2 & E2 & Hm); [lia|]. exists e2. split; [|done].
    unfold rs_free_iomappings, mbind, R_bind. rewrite E1. done.
Qed.
End Mappings.

(** ** Writing through a mapping *)
Lemma find_iomap_spec r m offset a : rs_find_iomap r m offset = Some a →
  (∃ i, 0 ≤ i < target_iomap_size (cfg r) ∧ a = target_iomap r i) ∧ (load_iomap a m).1 ≤ offset < iom_end (load_iomap a m).
Proof.
  unfold rs_find_iomap. intros E. apply head_Some_elem_of, list_elem_of_filter in E as [Ht Hin].
  apply andb_true_iff in Ht as [H1 H2]. apply Z.leb_le in H1. apply Z.ltb_lt in H2. apply list_elem_of_fmap in Hin as (i & -> & Hi).
  apply elem_of_seqZ in Hi. split; [exists i; split; [lia|done]|lia].
Qed.

(** A write takes at least a byte, and no more than are left and than fit. *)
Lemma io_size_ok r iom offset olen left : 0 ≤ iom.1 → 0 ≤ sg_length iom.2 → iom.1 + sg_length iom.2 < 2 ^ 64 → iom.1 ≤ offset < iom_end iom →
  0 < olen ≤ RS_MAX_TRANSFER → 0 < left → 0 < sbuf_bytes_avail (tx r) < 2 ^ 31 →
  ∃ n ol, io_size r iom offset olen left = (n, ol) ∧ 0 < n ≤ left ∧ n ≤ sbuf_bytes_avail (tx r) ∧ n < 2 ^ 29 ∧ offset + n ≤ iom.1 + sg_length iom.2.
Proof.
  unfold io_size, iom_end, RS_MAX_TRANSFER. intros Ho Hl He Hoff Holen Hleft Hav. rewrite u64_id in Hoff by lia.
  rewrite (u32_id (sbuf_bytes_avail (tx r))) by lia. rewrite (u64_id (iom.1 + sg_length iom.2 - offset)) by lia.
  destruct (Z.ltb_spec olen left); eexists _, _; (split; [reflexivity|]);
    [destruct (Z.ltb_spec (sbuf_bytes_avail (tx r)) olen)|destruct (Z.ltb_spec (sbuf_bytes_avail (tx r)) left)];
    match goal with |- context [Z.ltb ?x ?y] => destruct (Z.ltb_spec x y) end; rewrite ?u32_id by lia; lia.
Qed.

Lemma write_direct_run iom offset d n (e : ep rc) : sends_used (e_k e) < q_max_send (e_k e) →
  rs_write_direct iom offset d n e = Ok (0, mkEp (take_send 0 1 n (e_rs e)) (e_mem e) (e_errno e)
    (with_send (q_send (e_k e) ++ [mkRsWr (rs_msg_set RS_OP_WRITE n) d IBV_WR_RDMA_WRITE 0 (u64 (sg_addr iom.2 + offset - iom.1)) (sg_key iom.2)]) (e_k e))).
Proof.
  intros Hu. unfold rs_write_direct, rs_post_write. destruct e as [r m er k]. cbn in Hu. unfold mbind, R_bind. cbn [rs_set rbind e_rs e_mem e_errno e_k].
  rewrite post_send_ok by done. done.
Qed.

(** The bytes a write takes from the send buffer are those that were put there. *)
Lemma placed_bytes c w bs m : 0 < sbuf_size c → 0 < lenZ bs ≤ sbuf_size c →
  concat ((λ g, Rsocket.peek (sge_addr g) (sge_len g) (ring_put (sbuf c) (sbuf_size c) w bs m)) <$> ring_sgl c w (lenZ bs)) = bs.
Proof.
  intros Hs Hn. destruct (ring_bytes c w (lenZ bs) (ring_put (sbuf c) (sbuf_size c) w bs m) Hs Hn) as [Hl Hb].
  apply list_eqZ; [done|]. rewrite Hl. intros i Hi. rewrite Hb, ring_put_in by lia. rewrite nth_lookup.
  destruct (lookup_lt_is_Some_2 bs (Z.to_nat i)) as [v ->]; [unfold lenZ in Hi; lia|done].
Qed.


(** ** The end of a mapping *)
Section End.
Context {K : Type} `{!RsEnv K, !RsSetup K} (c : rs_cfg) (a : Z) (iom : Z * rs_sge).

(** The peer does not change the entry at [a] meanwhile. *)
Context (Hpoll : ∀ n w (m m1 : mem) (k k1 : K), d_poll_cq m k = (n, w, m1, k1) → load_iomap a m1 = load_iomap a m).
Context (Hevent : ∀ z (m m1 : mem) (k k1 : K), d_get_event m k = Some (z, m1, k1) → load_iomap a m1 = load_iomap a m).
Context (Hapart : a + sizeof S_rs_iomap ≤ sbuf c + sbuf_size c ∨ sbuf c + sbuf_size c + RS_MAX_CTRL_MSG * RS_QP_CTRL_SIZE ≤ a).

Definition at_entry (r : rsocket) (m : mem) : Prop := cfg r = c ∧ load_iomap a m = iom.

Lemma load_iomap_same m m1 : same_on a 24 m1 m → load_iomap a m1 = load_iomap a m.
Proof.
  intros H. unfold load_iomap. assert (field S_rs_iomap ["offset"] = (0, 8)) as -> by reflexivity. assert (field S_rs_iomap ["sge"] = (8, 16)) as -> by reflexivity.
  f_equal; [apply load_same; [|done]|apply load_sge_same]; eapply same_on_sub; try exact H; cbn; lia.
Qed.
Lemma entry_aside : aside (K := K) at_entry.
Proof.
  constructor; unfold at_entry; try done; [|intros; by erewrite Hpoll|intros; by erewrite Hevent].
  intros g r m r1 m1 [Hr _] [Hc Hm]. split; [done|]. rewrite <- Hm. apply load_iomap_same, same_on_store_sge. unfold rs_get_ctrl_buf. rewrite Hr.
  assert (sizeof S_rs_iomap = 24) as Hsz by reflexivity. rewrite Hsz in Hapart. unfold RS_MAX_CTRL_MSG, RS_QP_CTRL_SIZE in *.
  change (4 - 1) with (Z.ones 2). rewrite Z.land_ones by lia. pose proof (Z.mod_pos_bound (ctrl_seqno r) (2 ^ 2)). lia.
Qed.

(** Behind the last byte nothing fits. *)
Lemma io_size_end r olen left : 0 ≤ olen → 0 ≤ left → ∃ ol, io_size r iom (iom_end iom) olen left = (0, ol) ∧ 0 ≤ ol.
Proof.
  intros Ho Hl. unfold io_size, iom_end. assert (u64 (iom.1 + sg_length iom.2 - u64 (iom.1 + sg_length iom.2)) = 0) as -> by (unfold u64; rewrite Zminus_mod_idemp_r, Z.sub_diag; done).
  pose proof (u32_range (sbuf_bytes_avail (tx r))). pose proof (u32_range (Z.shiftl olen 1)).
  destruct (Z.ltb_spec olen left); (match goal with |- ∃ ol, (_, ?y) = _ ∧ _ => exists y end; split; [f_equal|repeat case_match; lia]);
    [destruct (Z.ltb_spec (u32 (sbuf_bytes_avail (tx r))) olen)|destruct (Z.ltb_spec (u32 (sbuf_bytes_avail (tx r))) left)];
    match goal with |- context [Z.ltb 0 ?y] => destruct (Z.ltb_spec 0 y) end; try reflexivity; lia.
Qed.

Context (fuel : nat) (pt flags : Z).

(** The mapping in use is looked up again only when the offset is beyond its end, not when it is at its end, where the next byte of a
    longer transfer belongs to another mapping: from there on [riowrite] posts empty writes, and the loop ends
    only with an error, with the rest of the data unsent. *)
Theorem riowrite_stalls buf olen n (e : ep K) ret left e1 :
  cfg (e_rs e) = c → 0 ≤ sq_inline c → load_iomap a (e_mem e) = iom → buf ≠ [] → 0 ≤ olen →
  iowrite_loop fuel pt flags buf (iom_end iom) (Some a) olen n e = Ok ((ret, left), e1) → ret ≠ 0 ∧ left = lenZ buf.
Proof.
  intros Hc Hinl Hm Hb Ho. assert (at_entry (e_rs e) (e_mem e)) as He by done. clear Hc Hm. revert e olen Ho He.
  assert (lenZ buf ≠ 0) as Hlen by (destruct buf; [done|]; rewrite lenZ_cons; pose proof (lenZ_nonneg buf); lia).
  pose proof entry_aside as HP. induction n as [|n IH]; intros e olen Ho He E; cbn [iowrite_loop] in E; destruct (Z.eqb_spec (lenZ buf) 0); try done.
  apply step_bind in E as (o & e2 & [= <- <-] & E). unfold cur_iomap in E. rewrite (proj2 He), Z.ltb_irrefl in E.
  apply step_bind in E as (r1 & e2 & E1 & E). apply (aside_wait at_entry HP) in E1; [|done].
  destruct (Z.eqb_spec r1 0) as [->|Hr]; cbn [negb] in E; [|by injection E as <- <- <-].
  apply step_bind in E as ([[r2 k] ol] & e3 & E2 & E). unfold io_chunk in E2. apply step_bind in E2 as (s & e4 & [= <- <-] & E2). unfold id in E2.
  destruct E1 as [Hc2 Hm2]. rewrite Hm2 in E2. destruct (io_size_end (e_rs e2) olen (lenZ buf)) as (ol1 & Es & Ho1); [done|apply lenZ_nonneg|]. rewrite Es, Hc2 in E2.
  destruct (Z.leb_spec 0 (sq_inline c)); [|lia]. apply step_bind in E2 as (r3 & e4 & E3 & E2). injection E2 as -> <- <- ->.
  apply (aside_direct at_entry HP) in E3; [|done]. destruct (Z.eqb_spec r2 0) as [->|Hr]; cbn [negb] in E; [|by injection E as <- <- <-].
  assert (u64 (iom_end iom + 0) = iom_end iom) as Eo by (unfold iom_end, u64; rewrite Z.add_0_r, Z.mod_mod; done). rewrite Eo in E.
  by apply (IH e3 ol1 Ho1 E3).
Qed.
End End.

(** ** Unmapping before anything is sent

    [riounmap] leaves [iomap_pending] set; the next transfer then finds no mapping to send, and returns a variable
    without a value. *)
Lemma unmapped_send_undefined {K} `{!RsEnv K, !RsSetup K} fuel pt buf flags (e : ep K) :
  has (state (e_rs e)) rs_opening = false → iomap_queue (e_rs e) = [] → iomap_pending (e_rs e) = true → fuel ≠ O →
  rsend fuel pt buf flags e = UB "ret".
Proof.
  intros Hs Hq Hp Hf. destruct fuel; [done|]. unfold rsend, connect_first, maps_first, rs_send_iomaps. cbn [iomap_loop].
  unfold mbind, R_bind, rs_get, gets, id. cbn [rbind]. rewrite Hs. cbn [rbind negb Z.eqb mret R_ret]. unfold mret, R_ret. cbn [rbind negb Z.eqb]. rewrite Hp, Hq. done.
Qed.

(** ** A concrete socket

    The peer has mapped the four bytes at 0x50000 to the offset 0x1000; the socket may map two buffers itself. *)
Definition demo_table : list Z :=
  le_bytes 8 0x60000 ++ le_bytes 4 13 ++ le_bytes 4 2048 ++ replicate 16 0 ++
  le_bytes 8 0x1000 ++ le_bytes 8 0x50000 ++ le_bytes 4 9 ++ le_bytes 4 4 ++ replicate 24 0.
Definition demo_mem : mem := λ x, if Z.leb 0x20000 x then nth (Z.to_nat (x - 0x20000)) demo_table 0 else 0.
Definition demo_cfg : rs_cfg := mkCfg 4096 4096 384 16 0 0x10000 0x30000 0x20000 1 3 13 12 2 (mkRsSge 0x20000 12 2) (mkRsSge 0x20020 12 2).
Definition demo_rs : rsocket :=
  set_state rs_connect_rdwr 0 (set_tx (λ _, mkTx 0 16 380 4096 0x10000 0) (set_cfg (λ _, demo_cfg) (rs_alloc 0 0 0 0 0 0))).
Definition demo_ep : ep rc := mkEp demo_rs demo_mem 0 (mkRc [] [] [] [] 384 16 ∅).
Definition demo_setup : RsSetup rc := rc_setup (mkRegs 1000 (λ _, 0) (λ _, 0) (λ _, 0)).
Definition demo_map : RsMap rc := {| d_pd _ := true; d_reg_mr _ _ _ k := (Some 7, 0, k); d_dereg_mr _ k := k |}.

Lemma demo_bytes : bytes demo_mem.
Proof.
  intros x. unfold demo_mem. destruct (Z.leb 0x20000 x); [|lia]. generalize (Z.to_nat (x - 0x20000)). intros n.
  assert (Forall (λ b, 0 ≤ b < 256) demo_table) as H by (apply Forall_forall; intros b Hb; revert b Hb; apply Forall_forall; vm_compute; repeat constructor; by intros).
  destruct (nth_in_or_default n demo_table 0) as [Hin | ->]; [|lia]. rewrite List.Forall_forall in H. by apply H.
Qed.

Definition demo_mapped : ep rc :=
  mkEp (set_iomaps [mkIomr 0x70000 0x70000 100 7 0] [] true demo_rs) demo_mem 0 (mkRc [] [] [] [] 384 16 ∅).
Lemma demo_riomap : @riomap rc demo_map 0x70000 100 PROT_WRITE (-1) demo_ep = Ok (0x70000, demo_mapped).
Proof. reflexivity. Qed.

Lemma mappings_private_witness :
  mappings (e_rs demo_ep) = [] ∧ maps_of (e_rs demo_mapped) (e_mem demo_mapped) ∧
  ∃ e2, @rs_free_iomappings rc demo_map 3 demo_mapped = Ok ((), e2) ∧ mappings (e_rs e2) = [].
Proof.
  split; [done|]. destruct (@mappings_private rc _ demo_setup demo_map demo_ep demo_mapped eq_refl) as (H & _ & _ & Hf).
  - apply rtc_once. exact (@map_riomap rc _ demo_setup demo_map demo_ep 0x70000 100 PROT_WRITE (-1) 0x70000 demo_mapped demo_riomap).
  - split; [exact H|]. apply (Hf 3%nat). reflexivity.
Defined.


(** Six bytes for a mapping of four: four are written; the rest of the send queue is filled with empty writes. *)
Definition demo_iom : Z * rs_sge := (0x1000, mkRsSge 0x50000 9 4).
Example iowrite_fills_queue : match iowrite_loop 400 0 MSG_DONTWAIT [5; 6] (iom_end demo_iom) (Some 0x20020) 2048 400 demo_ep with Ok (p, e1) => Some (p, sqe_avail (tx (e_rs e1))) | _ => None end = Some ((-1, 2), 0).
Proof. vm_compute. reflexivity. Qed.
Lemma iowrite_ends : ∃ e1, iowrite_loop 400 0 MSG_DONTWAIT [5; 6] (iom_end demo_iom) (Some 0x20020) 2048 400 demo_ep = Ok ((-1, 2), e1).
Proof.
  pose proof iowrite_fills_queue as H. destruct (iowrite_loop 400 0 MSG_DONTWAIT [5; 6] (iom_end demo_iom) (Some 0x20020) 2048 400 demo_ep) as [[p e1]| | | |]; [|discriminate H..]. injection H as -> _. by exists e1.
Qed.

Lemma riowrite_stalls_witness : ∃ e1, iowrite_loop 400 0 MSG_DONTWAIT [5; 6] (iom_end demo_iom) (Some 0x20020) 2048 400 demo_ep = Ok ((-1, 2), e1) ∧ -1 ≠ 0 ∧ 2 = lenZ [5; 6].
Proof.
  destruct iowrite_ends as [e1 E]. exists e1. split; [exact E|].
  refine (riowrite_stalls demo_cfg 0x20020 demo_iom _ _ _ 400 0 MSG_DONTWAIT [5; 6] 2048 400 demo_ep (-1) 2 e1 eq_refl _ _ _ _ E).
  - intros n w m m1 k k1 Ep. cbn in Ep. by destruct (q_cq k); injection Ep as _ _ <- _.
  - intros z m m1 k k1 Ev. cbn in Ev. case_decide; [done|]. by injection Ev as _ <- _.
  - right. vm_compute. discriminate.
  - done.
  - vm_compute. reflexivity.
  - done.
  - done.
Defined.
