(* ===== verification/RsSelect.v ===== *)
(** * rsocket: waiting on several descriptors

    [librdmacm/src/rsocket.c]: [rpoll] over a list of descriptors, of which some are rsockets and the others are the
    system's, and [rselect], which goes through [rpoll].  The table of sockets is a finite map; every
    socket has its own environment, and the system's [poll] is the class [OsPoll]. *)

From S2P Require Import Prelude Layout FfTypes Attrs Request Cma Rsocket RsNet RsConn RsSafe RsIo.

Record pollfd := mkPollfd { pf_fd : Z; pf_events : Z; pf_revents : Z }.
Definition set_revents (v : Z) (p : pollfd) : pollfd := mkPollfd (pf_fd p) (pf_events p) v.

(** How many entries report something. *)
Definition reported (fds : list pollfd) : Z := lenZ (filter (λ p, pf_revents p ≠ 0) fds).

(** ** Converting sets of descriptors

    A set is [None] for a null pointer. *)
Abbreviation fd_set := (option (gset Z)).
Definition FD_ISSET (fd : Z) (s : fd_set) : bool := match s with Some s => bool_decide (fd ∈ s) | None => false end.
Definition FD_ZERO (s : fd_set) : fd_set := match s with Some _ => Some ∅ | None => None end.
Definition FD_SET (fd : Z) (s : fd_set) : fd_set := match s with Some s => Some ({[fd]} ∪ s) | None => None end.

(** One turn of the loop: [cur] is the entry at [i], which is used once its descriptor is not 0. *)
Definition select_turn (r w x : fd_set) (fd : Z) (st : list pollfd * pollfd) : list pollfd * pollfd :=
  let '(fds, cur) := st in
  let cur := if FD_ISSET fd r then mkPollfd fd POLLIN (pf_revents cur) else cur in
  let cur := if FD_ISSET fd w then mkPollfd fd (Z.lor (pf_events cur) POLLOUT) (pf_revents cur) else cur in
  let cur := if FD_ISSET fd x then mkPollfd fd (pf_events cur) (pf_revents cur) else cur in
  if negb (Z.eqb (pf_fd cur) 0) then (fds ++ [cur], mkPollfd 0 0 0) else (fds, cur).
Definition rs_select_to_poll (nfds : Z) (r w x : fd_set) : list pollfd :=
  (foldl (λ st fd, select_turn r w x fd st) ([], mkPollfd 0 0 0) (seqZ 0 nfds)).1.

(** The sets and the count after one entry. *)
Definition poll_turn (st : Z * fd_set * fd_set * fd_set) (p : pollfd) : Z * fd_set * fd_set * fd_set :=
  let '(cnt, r, w, x) := st in
  let put (b : bool) (s : fd_set) cnt := match s with Some _ => if b then (FD_SET (pf_fd p) s, cnt + 1) else (s, cnt) | None => (s, cnt) end in
  let '(r, cnt) := put (has (pf_revents p) (Z.lor POLLIN POLLHUP)) r cnt in
  let '(w, cnt) := put (has (pf_revents p) POLLOUT) w cnt in
  let '(x, cnt) := put (has (pf_revents p) (Z.lnot (Z.lor POLLIN POLLOUT))) x cnt in
  (cnt, r, w, x).
Definition rs_poll_to_select (fds : list pollfd) (r w x : fd_set) : Z * fd_set * fd_set * fd_set := foldl poll_turn (0, r, w, x) fds.

Definition rs_convert_timeout (t : option (Z * Z)) : Z :=
  match t with None => -1 | Some (sec, usec) => s32 (sec * 1000 + Z.quot usec 1000) end.

(** ** Polling *)

(** [os_poll1]: the result of a poll of one descriptor that does not wait; [os_poll] may wait, and gives what [poll] returns and the
    [revents]; [d_listen_poll] and the two descriptors are those of a socket's identifier. *)
Class OsPoll (E : Type) := {
  os_poll1 : Z → Z → E → Z * E;
  os_poll : list pollfd → Z → E → option (Z * list Z * E);
  os_time : E → Z * E
}.
Class RsFds (K : Type) := {
  d_listen_poll : Z → K → Z * K;
  d_cq_fd : K → Z;
  d_channel_fd : K → Z
}.

(** All sockets, and the system. *)
Record world (K E : Type) := mkWorld { w_socks : gmap Z (ep K); w_os : E }.
Arguments mkWorld {K E}.
Arguments w_socks {K E}.
Arguments w_os {K E}.

Section Poll.
Context {K E : Type} `{!RsEnv K, !RsSetup K, !RsFds K, !OsPoll E}.
Context (fuel : nat) (polling_time : Z).
Implicit Types (W : world K E).

Definition poll_rs (e : ep K) (events : Z) (nonblock : bool) (test : cond) : res (Z * ep K) :=
  rs_poll_rs fuel d_listen_poll events nonblock test e.

(** One entry of [rs_poll_check]. *)
Definition check_one (p : pollfd) W : res (pollfd * world K E) :=
  match w_socks W !! pf_fd p with
  | Some e =>
      let* (v, e) := poll_rs e (pf_events p) true rs_poll_all in
      Ok (set_revents v p, mkWorld (<[pf_fd p := e]> (w_socks W)) (w_os W))
  | None => let '(v, os) := os_poll1 (pf_fd p) (pf_events p) (w_os W) in Ok (set_revents v p, mkWorld (w_socks W) os)
  end.
Fixpoint poll_check (fds : list pollfd) W : res (list pollfd * world K E) :=
  match fds with
  | [] => Ok ([], W)
  | p :: fds =>
      let* (p, W) := check_one p W in
      let* (fds, W) := poll_check fds W in
      Ok (p :: fds, W)
  end.
Definition rs_poll_check (fds : list pollfd) W : res (Z * list pollfd * world K E) :=
  let* (fds, W) := poll_check fds W in Ok ((reported fds, fds), W).

(** [rs_poll_arm]: the list to poll, or nothing when a socket has something to report. *)
Fixpoint rs_poll_arm (fds : list pollfd) W : res (option (list pollfd) * list pollfd * world K E) :=
  match fds with
  | [] => Ok ((Some [], []), W)
  | p :: fds =>
      match w_socks W !! pf_fd p with
      | Some e =>
          let* (v, e) := poll_rs e (pf_events p) false rs_is_cq_armed in
          let W := mkWorld (<[pf_fd p := e]> (w_socks W)) (w_os W) in
          let p := set_revents v p in
          if negb (Z.eqb v 0) then Ok ((None, p :: fds), W)
          else
            let fd := if Z.leb rs_connected (state (e_rs e)) then d_cq_fd (e_k e) else d_channel_fd (e_k e) in
            let* (o, W) := rs_poll_arm fds W in
            let '(rfds, fds) := o in
            Ok ((cons (mkPollfd fd POLLIN 0) <$> rfds, p :: fds), W)
      | None =>
          let* (o, W) := rs_poll_arm fds W in
          let '(rfds, fds) := o in
          Ok ((cons (mkPollfd (pf_fd p) (pf_events p) 0) <$> rfds, p :: fds), W)
      end
  end.

(** [rs_poll_events]: [vs] are the [revents] of [rfds]. *)
Fixpoint poll_events (vs : list Z) (fds : list pollfd) W : res (list pollfd * world K E) :=
  match vs, fds with
  | v :: vs, p :: fds =>
      let* (p, W) :=
        (if Z.eqb v 0 then Ok (p, W)
         else
           match w_socks W !! pf_fd p with
           | Some e =>
               let* (_, e) := rs_get_cq_event e in
               let* (u, e) := poll_rs e (pf_events p) true rs_poll_all in
               Ok (set_revents u p, mkWorld (<[pf_fd p := e]> (w_socks W)) (w_os W))
           | None => Ok (set_revents v p, W)
           end) in
      let* (fds, W) := poll_events vs fds W in
      Ok (p :: fds, W)
  | _, _ => Ok (fds, W)
  end.

(** The number of entries with a result among those that were looked at. *)
Definition events_count (vs : list Z) (fds : list pollfd) : Z :=
  lenZ (filter (λ q, q.1 ≠ 0 ∧ pf_revents q.2 ≠ 0) (zip vs fds)).
Definition rs_poll_events (vs : list Z) (fds : list pollfd) W : res (Z * list pollfd * world K E) :=
  let* (fds, W) := poll_events vs fds W in Ok ((events_count vs fds, fds), W).

(** The first loop of [rpoll]: [Some] is a result to return. *)
Fixpoint poll_spin (timeout : Z) (start : option Z) (n : nat) (fds : list pollfd) W : res (option Z * list pollfd * world K E) :=
  match n with
  | O => OutOfFuel
  | S n =>
      let* (o, W) := rs_poll_check fds W in
      let '(ret, fds) := o in
      if negb (Z.eqb ret 0) || Z.eqb timeout 0 then Ok ((Some ret, fds), W)
      else
        let '(t0, os) := match start with Some t => (t, w_os W) | None => os_time (w_os W) end in
        let '(t1, os) := os_time os in
        let poll_time := u32 (t1 - t0 + 1) in
        let W := mkWorld (w_socks W) os in
        if Z.leb poll_time polling_time then poll_spin timeout (if Z.eqb poll_time 0 then None else Some t0) n fds W
        else Ok ((None, fds), W)
  end.

(** The second loop. *)
Fixpoint poll_wait (timeout : Z) (n : nat) (fds : list pollfd) W : res (Z * list pollfd * world K E) :=
  match n with
  | O => OutOfFuel
  | S n =>
      let* (o, W) := rs_poll_arm fds W in
      let '(rfds, fds) := o in
      match rfds with
      | None => Ok ((1, fds), W)
      | Some rfds =>
          match os_poll rfds timeout (w_os W) with
          | None => Blocked
          | Some (ret, vs, os) =>
              let W := mkWorld (w_socks W) os in
              if Z.leb ret 0 then Ok ((ret, fds), W)
              else
                let* (o, W) := rs_poll_events vs fds W in
                let '(ret, fds) := o in
                if negb (Z.eqb ret 0) then Ok ((ret, fds), W) else poll_wait timeout n fds W
          end
      end
  end.

Definition rpoll (fds : list pollfd) (timeout : Z) W : res (Z * list pollfd * world K E) :=
  let* (o, W) := poll_spin timeout None fuel fds W in
  let '(ret, fds) := o in
  match ret with
  | Some ret => Ok ((ret, fds), W)
  | None => poll_wait timeout fuel fds W
  end.

(** The result and the three sets. *)
Definition rselect (nfds : Z) (r w x : fd_set) (timeout : option (Z * Z)) W : res (Z * fd_set * fd_set * fd_set * world K E) :=
  let* (o, W) := rpoll (rs_select_to_poll nfds r w x) (rs_convert_timeout timeout) W in
  let '(ret, fds) := o in
  let '(r, w, x) := (FD_ZERO r, FD_ZERO w, FD_ZERO x) in
  Ok ((if Z.ltb 0 ret then rs_poll_to_select fds r w x else (ret, r, w, x)), W).
End Poll.

(** ** The conversions *)

(** The entry a descriptor should have. *)
Definition asked (r w x : fd_set) (fd : Z) : option pollfd :=
  if FD_ISSET fd r || FD_ISSET fd w || FD_ISSET fd x
  then Some (mkPollfd fd (Z.lor (if FD_ISSET fd r then POLLIN else 0) (if FD_ISSET fd w then POLLOUT else 0)) 0) else None.

(** The set of the descriptors whose entries report one of [flags]. *)
Definition reporting (flags : Z) (fds : list pollfd) : gset Z :=
  list_to_set (pf_fd <$> filter (λ p, has (pf_revents p) flags = true) fds).

Lemma select_turns r w x l : ∀ acc, Forall (λ fd, fd = 0 → asked r w x fd = None) l →
  foldl (λ st fd, select_turn r w x fd st) (acc, mkPollfd 0 0 0) l = (acc ++ omap (asked r w x) l, mkPollfd 0 0 0).
Proof.
  induction l as [|fd l IH]; intros acc Hl; [by rewrite app_nil_r|]. apply list.Forall_cons in Hl as [H0 Hl]. cbn [foldl omap list_omap].
  assert (select_turn r w x fd (acc, mkPollfd 0 0 0) = (acc ++ match asked r w x fd with Some p => [p] | None => [] end, mkPollfd 0 0 0)) as ->.
  { unfold select_turn, asked in *. cbn [pf_events pf_revents].
    destruct (FD_ISSET fd r), (FD_ISSET fd w), (FD_ISSET fd x); cbn [orb pf_fd pf_events pf_revents negb Z.eqb] in *;
      try (destruct (Z.eqb_spec fd 0) as [E|E]; [by specialize (H0 E)|]); cbn [negb]; rewrite ?app_nil_r, ?Z.lor_0_l, ?Z.lor_0_r; done. }
  rewrite IH by done. destruct (asked r w x fd); [by rewrite <- app_assoc|by rewrite app_nil_r].
Qed.

Lemma reporting_cons flags p fds : reporting flags (p :: fds) = (if has (pf_revents p) flags then {[pf_fd p]} else ∅) ∪ reporting flags fds.
Proof. unfold reporting. rewrite filter_cons. destruct (has (pf_revents p) flags); case_decide; try done. cbn. set_solver. Qed.

(** What one set gets, and its part of the count. *)
Definition add_set (flags : Z) (fds : list pollfd) (s : fd_set) : fd_set := match s with Some s => Some (reporting flags fds ∪ s) | None => None end.
Definition add_cnt (flags : Z) (fds : list pollfd) (s : fd_set) : Z :=
  match s with Some _ => lenZ (filter (λ p, has (pf_revents p) flags = true) fds) | None => 0 end.

Lemma poll_turns fds : ∀ cnt r w x,
  let P := Z.lor POLLIN POLLHUP in let O := POLLOUT in let X := Z.lnot (Z.lor POLLIN POLLOUT) in
  foldl poll_turn (cnt, r, w, x) fds =
    (cnt + (add_cnt P fds r + add_cnt O fds w + add_cnt X fds x), add_set P fds r, add_set O fds w, add_set X fds x).
Proof.
  assert (∀ flags p fds s, add_set flags (p :: fds) s = add_set flags fds (if has (pf_revents p) flags then FD_SET (pf_fd p) s else s)) as Hs.
  { intros flags p l s. destruct s as [s|]; [|by destruct (has _ _)]. unfold add_set. rewrite reporting_cons. destruct (has _ _); cbn; f_equal; set_solver. }
  assert (∀ flags p fds s, add_cnt flags (p :: fds) s = (match s with Some _ => if has (pf_revents p) flags then 1 else 0 | None => 0 end) + add_cnt flags fds s) as Hc.
  { intros flags p l [s|]; [|done]. cbn [add_cnt]. rewrite filter_cons. destruct (has _ _); case_decide; try done. rewrite lenZ_cons. lia. }
  assert (∀ flags fd fds s, add_cnt flags fds (FD_SET fd s) = add_cnt flags fds s) as Hf by (by intros ??? []).
  induction fds as [|p fds IH]; intros cnt r w x; cbv zeta.
  - assert (∀ flags s, add_set flags [] s = s) as He by (intros flags [s|]; [cbn; f_equal; apply union_empty_l_L|done]).
    assert (∀ flags s, add_cnt flags [] s = 0) as Hz by (by intros ? []). rewrite !Hz, !He. cbn [foldl]. do 3 f_equal. lia.
  - cbn [foldl]. rewrite !Hs, !Hc. unfold poll_turn.
    destruct r as [r|], w as [w|], x as [x|]; destruct (has (pf_revents p) (Z.lor POLLIN POLLHUP)), (has (pf_revents p) POLLOUT),
      (has (pf_revents p) (Z.lnot (Z.lor POLLIN POLLOUT))); rewrite IH; cbv zeta; rewrite ?Hf; f_equal; f_equal; f_equal; lia.
Qed.

(** C25. For descriptors other than 0, [rselect] polls exactly the descriptors of the three sets, each for the events it was
    put in the sets for; afterwards each set that was given holds the descriptors whose entries report its
    events, and the result is the number of its members over the three sets. *)
Theorem select_exact nfds (r w x : fd_set) : FD_ISSET 0 r = false → FD_ISSET 0 w = false → FD_ISSET 0 x = false →
  rs_select_to_poll nfds r w x = omap (asked r w x) (seqZ 0 nfds) ∧
  ∀ fds, let got flags (s : fd_set) : fd_set := match s with Some _ => Some (reporting flags fds) | None => None end in
    rs_poll_to_select fds (FD_ZERO r) (FD_ZERO w) (FD_ZERO x) =
      (add_cnt (Z.lor POLLIN POLLHUP) fds r + add_cnt POLLOUT fds w + add_cnt (Z.lnot (Z.lor POLLIN POLLOUT)) fds x,
       got (Z.lor POLLIN POLLHUP) r, got POLLOUT w, got (Z.lnot (Z.lor POLLIN POLLOUT)) x).
Proof.
  intros Hr Hw Hx. split.
  - unfold rs_select_to_poll. rewrite select_turns; [done|]. apply list.Forall_forall. intros fd _ ->. unfold asked. by rewrite Hr, Hw, Hx.
  - intros fds got. unfold rs_poll_to_select. rewrite poll_turns. cbv zeta. rewrite Z.add_0_l.
    assert (∀ flags s, add_set flags fds (FD_ZERO s) = got flags s) as Hs by (intros flags [s|]; [cbn; f_equal; apply union_empty_r_L|done]).
    assert (∀ flags s, add_cnt flags fds (FD_ZERO s) = add_cnt flags fds s) as Hc by (by intros ? []). by rewrite !Hs, !Hc.
Qed.

(** Descriptor 0 is not polled, and what was asked for it is asked of the next descriptor. *)
Example select_zero_leaks :
  rs_select_to_poll 6 (Some {[0]}) (Some {[5]}) None = [mkPollfd 5 (Z.lor POLLIN POLLOUT) 0].
Proof. by vm_compute. Qed.

(** ** What [rpoll] returns *)
Definition same_req (fds fds' : list pollfd) : Prop := Forall2 (λ p q, pf_fd p = pf_fd q ∧ pf_events p = pf_events q) fds fds'.

Lemma same_req_refl fds : same_req fds fds.
Proof. induction fds; by constructor. Qed.
Lemma same_req_trans a b c : same_req a b → same_req b c → same_req a c.
Proof.
  unfold same_req. intros H. revert c. induction H as [|p q a b [H1 H2] _ IH]; intros c Hc; [done|].
  apply Forall2_cons_inv_l in Hc as (s & c1 & [H3 H4] & Hc & ->). constructor; [split; congruence|auto].
Qed.
Lemma reported_cons p fds : reported (p :: fds) = (if decide (pf_revents p = 0) then 0 else 1) + reported fds.
Proof. unfold reported. rewrite filter_cons. repeat case_decide; try done; rewrite ?lenZ_cons; lia. Qed.
Lemma reported_nonneg fds : 0 ≤ reported fds.
Proof. apply lenZ_nonneg. Qed.

Section Counts.
Context {K E : Type} `{!RsEnv K, !RsSetup K, !RsFds K, !OsPoll E}.
Context (fuel : nat) (pt : Z).
Implicit Types (W : world K E).

(** [poll] fills in as many entries as it is given. *)
Context (poll_all : ∀ fds t (os : E) ret vs os1, os_poll fds t os = Some (ret, vs, os1) → length vs = length fds).

Ltac res_split H := match type of H with
  | rbind ?x _ = Ok _ => let E := fresh "E" in destruct x as [[? ?]| | | |] eqn:E; cbn [rbind] in H; try done
  end.

Lemma check_same fds : ∀ W fds' W', poll_check fuel fds W = Ok (fds', W') → same_req fds fds'.
Proof.
  induction fds as [|p fds IH]; intros W fds' W' H; cbn [poll_check] in H; [injection H as <- <-; constructor|].
  res_split H. res_split H. injection H as <- <-. constructor; [|by eapply IH].
  unfold check_one in E0. case_match; [res_split E0|destruct (os_poll1 _ _ _)]; injection E0 as <- _; done.
Qed.

Lemma arm_same fds : ∀ W o fds' W', rs_poll_arm fuel fds W = Ok ((o, fds'), W') → reported fds = 0 →
  same_req fds fds' ∧ match o with Some rfds => reported fds' = 0 ∧ length rfds = length fds' | None => reported fds' = 1 end.
Proof.
  induction fds as [|p fds IH]; intros W o fds' W' H H0; cbn [rs_poll_arm] in H; [injection H as <- <- <-; by split; [constructor|]|].
  rewrite reported_cons in H0. pose proof (reported_nonneg fds) as Hn. case_decide as Hp; [|lia]. case_match.
  - res_split H. destruct (Z.eqb_spec z 0) as [->|Hz]; cbn [negb] in H.
    + res_split H. destruct p0 as [o1 fds1]. injection H as <- <- <-. apply IH in E1 as [Hs Ho]; [|lia]. split; [by constructor|].
      destruct o1 as [rfds|]; cbn; rewrite reported_cons; cbn [pf_revents set_revents]; [destruct Ho as [-> ->]; done|by rewrite Ho].
    + injection H as <- <- <-. split; [constructor; [done|apply same_req_refl]|]. rewrite reported_cons. cbn [pf_revents set_revents]. case_decide; [done|lia].
  - res_split H. destruct p0 as [o1 fds1]. injection H as <- <- <-. apply IH in E0 as [Hs Ho]; [|lia]. split; [by constructor|].
    destruct o1 as [rfds|]; cbn; rewrite reported_cons; (case_decide; [|done]); [destruct Ho as [-> ->]; done|by rewrite Ho].
Qed.

Lemma events_same vs : ∀ fds W fds' W', poll_events fuel vs fds W = Ok (fds', W') → length vs = length fds → reported fds = 0 →
  same_req fds fds' ∧ events_count vs fds' = reported fds'.
Proof.
  induction vs as [|v vs IH]; intros fds W fds' W' H Hl H0; destruct fds as [|p fds]; try done; cbn [poll_events] in H;
    [injection H as <- <-; split; [constructor|done]|].
  rewrite reported_cons in H0. pose proof (reported_nonneg fds) as Hn. case_decide as Hp; [|lia].
  res_split H. res_split H. injection H as <- <-. apply IH in E1 as [Hs Hc]; [|by injection Hl|lia].
  assert (pf_fd p = pf_fd p0 ∧ pf_events p = pf_events p0 ∧ (v = 0 → pf_revents p0 = 0)) as (H1 & H2 & H3).
  { destruct (Z.eqb_spec v 0) as [->|Hv]; [injection E0 as <- _; done|]. case_match; [res_split E0; res_split E0|]; injection E0 as <- _; done. }
  split; [by constructor|]. rewrite reported_cons, <- Hc. unfold events_count. cbn [zip zip_with]. rewrite filter_cons. cbn [fst snd].
  repeat case_decide; rewrite ?lenZ_cons; try lia; naive_solver.
Qed.

Lemma spin_same timeout n : ∀ start fds W o fds' W', poll_spin fuel pt timeout start n fds W = Ok ((o, fds'), W') →
  same_req fds fds' ∧ match o with Some z => z = reported fds' | None => reported fds' = 0 end.
Proof.
  induction n as [|n IH]; intros start fds W o fds' W' H; cbn [poll_spin] in H; [done|]. res_split H. destruct p as [ret fds1].
  unfold rs_poll_check in E0. res_split E0. injection E0 as <- <- <-. apply check_same in E1.
  destruct (negb (Z.eqb (reported l) 0) || Z.eqb timeout 0) eqn:Eb; [injection H as <- <- _; done|].
  apply orb_false_iff in Eb as [Ez _]. apply negb_false_iff, Z.eqb_eq in Ez.
  match type of H with (let '(_, _) := ?p in _) = _ => destruct p as [t0 os0] end.
  destruct (os_time os0) as [t1 os1].
  destruct (Z.leb _ _); [|injection H as <- <- _; done]. apply IH in H as [Hs Ho]. split; [by eapply same_req_trans|done].
Qed.

Lemma wait_same timeout n : ∀ fds W ret fds' W', poll_wait fuel timeout n fds W = Ok ((ret, fds'), W') → reported fds = 0 →
  same_req fds fds' ∧ (ret = reported fds' ∨ ret < 0 ∧ reported fds' = 0).
Proof.
  induction n as [|n IH]; intros fds W ret fds' W' H H0; cbn [poll_wait] in H; [done|]. res_split H. destruct p as [o fds1].
  apply arm_same in E0 as [Hs Ho]; [|done]. destruct o as [rfds|]; [|injection H as <- <- _; split; [done|by left]]. destruct Ho as [Hz Hl].
  destruct (os_poll rfds timeout (w_os w)) as [[[r vs] os]|] eqn:Ep; [|done]. apply poll_all in Ep.
  destruct (Z.leb_spec r 0); [injection H as <- <- _; split; [done|]; destruct (decide (r = 0)); [left; lia|right; lia]|].
  res_split H. destruct p as [r1 fds2]. unfold rs_poll_events in E0. res_split E0. injection E0 as <- <- <-. apply events_same in E1 as [Hs2 Hc]; [|congruence|done].
  pose proof (same_req_trans _ _ _ Hs Hs2) as Hs3. rewrite Hc in H.
  destruct (Z.eqb_spec (reported l) 0) as [Er|Er]; cbn [negb] in H; [|injection H as <- <- _; split; [done|by left]].
  apply IH in H as [Hs4 Hr]; [|done]. split; [by eapply same_req_trans|done].
Qed.

(** C26. [rpoll] leaves the descriptors and the requested events as they are and returns the number of entries that
    report something, or, when the system's [poll] failed, its error with no entry reporting anything; without a
    timeout it looks at every descriptor once and does not wait. *)
Theorem rpoll_counts fds timeout W : 
  (∀ ret fds' W', rpoll fuel pt fds timeout W = Ok ((ret, fds'), W') → same_req fds fds' ∧ (ret = reported fds' ∨ ret < 0 ∧ reported fds' = 0)) ∧
  (timeout = 0 → fuel ≠ O → rpoll fuel pt fds timeout W = rs_poll_check fuel fds W).
Proof.
  split.
  - intros ret fds' W' H. unfold rpoll in H. res_split H. destruct p as [o fds1]. apply spin_same in E0 as [Hs Ho].
    destruct o as [z|]; [injection H as <- <- _; split; [done|by left]|]. apply wait_same in H as [Hs2 Hr]; [|done]. split; [by eapply same_req_trans|done].
  - intros -> Hf. unfold rpoll. destruct fuel as [|n]; [done|]. cbn [poll_spin]. destruct (rs_poll_check _ fds W) as [[[z l] W1]| | | |]; try done.
    cbn [rbind]. by rewrite orb_true_r.
Qed.
End Counts.

(** ** Examples *)
Lemma select_exact_witness :
  rs_select_to_poll 9 (Some {[3; 5]}) (Some {[5]}) (Some {[8]}) = [mkPollfd 3 POLLIN 0; mkPollfd 5 (Z.lor POLLIN POLLOUT) 0; mkPollfd 8 0 0] ∧
  (rs_poll_to_select [mkPollfd 3 POLLIN POLLIN; mkPollfd 5 POLLOUT POLLHUP] (Some ∅) (Some ∅) (Some ∅)).1.1.1 = 3.
Proof.
  destruct (select_exact 9 (Some {[3; 5]}) (Some {[5]}) (Some {[8]})) as [E1 E2]; [by vm_compute..|]. split.
  - rewrite E1. by vm_compute.
  - specialize (E2 [mkPollfd 3 POLLIN POLLIN; mkPollfd 5 POLLOUT POLLHUP]). cbn [FD_ZERO] in E2. rewrite E2. by vm_compute.
Defined.

(** The system's descriptors are always readable. *)
Definition demo_os : OsPoll () := {|
  os_poll1 fd ev os := (Z.land ev POLLIN, os);
  os_poll fds t os := Some (lenZ fds, (λ p, Z.land (pf_events p) POLLIN) <$> fds, os);
  os_time os := (0, os)
|}.
Definition demo_fds : RsFds rc := {| d_listen_poll ev k := (0, k); d_cq_fd _ := 100; d_channel_fd _ := 101 |}.
Definition demo_world : world rc () :=
  mkWorld {[3 := mkEp (rs_alloc 4096 4096 384 16 0 0) (λ _, 0) 0 (mkRc [] [] [] [] 384 16 ∅)]} ().

Lemma rpoll_counts_witness :
  let fds := [mkPollfd 3 POLLIN 0; mkPollfd 7 (Z.lor POLLIN POLLOUT) 0] in
  ∃ fds' W, @rpoll rc () _ (rc_setup (mkRegs 0 (λ _, 0) (λ _, 0) (λ _, 0))) demo_fds demo_os 5 10 fds (-1) demo_world = Ok ((1, fds'), W) ∧
    same_req fds fds' ∧ (1 = reported fds' ∨ 1 < 0 ∧ reported fds' = 0).
Proof.
  intros fds.
  assert (match @rpoll rc () _ (rc_setup (mkRegs 0 (λ _, 0) (λ _, 0) (λ _, 0))) demo_fds demo_os 5 10 fds (-1) demo_world with Ok ((n, _), _) => Z.eqb n 1 | _ => false end = true) as H
    by (by vm_compute).
  destruct (@rpoll rc () _ (rc_setup (mkRegs 0 (λ _, 0) (λ _, 0) (λ _, 0))) demo_fds demo_os 5 10 fds (-1) demo_world) as [[[n fds'] W]| | | |] eqn:E; [|discriminate H..].
  apply Z.eqb_eq in H as ->. exists fds', W. split; [reflexivity|].
  refine (proj1 (@rpoll_counts rc () _ (rc_setup (mkRegs 0 (λ _, 0) (λ _, 0) (λ _, 0))) demo_fds demo_os 5 10 _ fds (-1) demo_world) 1 fds' W E).
  intros l t os ret vs os1 [= _ <- _]. by rewrite length_fmap.
Defined.
