(* ===== verification/RsAccept.v ===== *)
(** * rsocket: the table of sockets, listening and accepting

    [librdmacm/src/rsocket.c]: the defaults ([rs_configure]), the table that leads from descriptors to sockets, and the calls that
    create, bind, listen, accept, connect and close stream sockets.  A process has its sockets in blocks
    of memory, which the table points to; an identifier of the connection manager with its queue pair is
    a value of [K] with the descriptor of its event channel. *)

From S2P Require Import Prelude Layout FfTypes Attrs Request Indexer Cma CmaConn Rsocket RsNet RsItems RsStream RsSteps RsPoll RsConn RsSafe RsIo RsIomap.

Definition IPPROTO_TCP : Z := 6.

(** ** Defaults *)
Record rs_defaults := mkDefs {
  def_iomap_size : Z; def_inline : Z; def_sqsize : Z; def_rqsize : Z; def_mem : Z; def_wmem : Z; polling_time : Z
}.
Definition rs_initial : rs_defaults := mkDefs 0 0 384 384 (Z.shiftl 1 17) (Z.shiftl 1 17) 10.

(** A file of the configuration: nothing if it does not exist, and the number [fscanf] reads, if it can. *)
Definition file_value (w old : Z) (f : option (option Z)) : Z :=
  match f with Some (Some v) => v mod 2 ^ w | _ => old end.
Definition if_file (f : option (option Z)) (fix_up : Z → Z) (v : Z) : Z := match f with Some _ => fix_up v | None => v end.

Definition rs_configure (conf : string → option (option Z)) (d : rs_defaults) : rs_defaults :=
  mkDefs
    (if_file (conf "iomap_size") (λ v, u8 (rs_value_to_scale (u16 (rs_scale_to_value v 8)) 8)) (file_value 16 (def_iomap_size d) (conf "iomap_size")))
    (file_value 16 (def_inline d) (conf "inline_default"))
    (file_value 16 (def_sqsize d) (conf "sqsize_default"))
    (file_value 16 (def_rqsize d) (conf "rqsize_default"))
    (if_file (conf "mem_default") (λ v, if Z.ltb v 1 then 1 else v) (file_value 32 (def_mem d) (conf "mem_default")))
    (if_file (conf "wmem_default") (λ v, if Z.ltb v RS_SNDLOWAT then Z.shiftl RS_SNDLOWAT 1 else v) (file_value 32 (def_wmem d) (conf "wmem_default")))
    (file_value 32 (polling_time d) (conf "polling_time")).

(** ** A process *)

(** [so_id] is [cm_id] and the descriptor of its channel. *)
Record sock (K : Type) := mkSock { so_rs : rsocket; so_index : Z; so_mem : mem; so_id : option (K * Z) }.
Arguments mkSock {K}.
Arguments so_rs {K}.
Arguments so_index {K}.
Arguments so_mem {K}.
Arguments so_id {K}.

(** [p_next]: blocks from here on have not been used; [p_conf]: [rs_configure] has run. *)
Record proc (K G : Type) := mkProc {
  p_idm : index_map; p_heap : gmap Z (sock K); p_next : Z; p_conf : bool; p_defs : rs_defaults; p_errno : Z; p_os : G
}.
Arguments mkProc {K G}.
Arguments p_idm {K G}.
Arguments p_heap {K G}.
Arguments p_next {K G}.
Arguments p_conf {K G}.
Arguments p_defs {K G}.
Arguments p_errno {K G}.
Arguments p_os {K G}.

(** The system: [os_calloc] gives the memory a new socket's buffers will be in, or nothing; [os_alloc] tells if the block of
    the table can be allocated; [os_create_id] is [rdma_create_id], and the last two create
    an identifier from a request and destroy one. *)
Class RsOs (K G : Type) := {
  os_calloc : G → option mem * G;
  os_alloc : G → bool * G;
  os_ucma_init : G → bool * G;
  os_conf : G → string → option (option Z);
  os_create_id : G → option (K * Z) * Z * G;
  os_get_request : K → G → option (K * Z) * Z * K * G;
  os_destroy_id : K → Z → G → G
}.

(** The connection manager's calls on one identifier: [d_private_at n]: the data [n] bytes into the private data of the event;
    [d_region]: whether [smr], [target_mr] or [rmr] is set. *)
Class RsCm (K : Type) := {
  d_set_family : Z → K → K;
  d_src_family : K → Z;
  d_set_dst : list Z → K → K;
  d_bind_addr : list Z → K → Z * K;
  d_listen : Z → K → Z * K;
  d_private_at : Z → K → rs_conn_data;
  d_channel_nonblock : K → K;
  d_accept : rs_conn_data → K → Z * K;
  d_peer_addr : K → list Z;
  d_local_addr : K → list Z;
  d_region : region → K → bool;
  d_dereg_region : region → K → K;
  d_has_qp : K → bool;
  d_destroy_qp : K → K
}.

(** [sizeof(struct ib_connect_hdr)] *)
Definition S_ib_connect_hdr : cty := CStruct [("cma_version", CInt 1); ("ip_version", CInt 1); ("port", CInt 2); ("src_addr", CArr 4 (CInt 4)); ("dst_addr", CArr 4 (CInt 4))].

(** The bytes copied and the length given back. *)
Definition rs_copy_addr (src : list Z) (len : Z) : list Z * Z :=
  let size := if Z.eqb (le_val (takeZ 2 src)) AF_INET then sizeof S_sockaddr_in else sizeof S_sockaddr_in6 in
  (takeZ (Z.min len size) src, size).

Section Proc.
Context {K G : Type} `{!RsEnv K, !RsSetup K, !RsClose K, !RsMap K, !RsCm K, !RsOs K G}.

Definition P (A : Type) : Type := proc K G → res (A * proc K G).
#[global] Instance P_ret : MRet P := λ _ a s, Ok (a, s).
#[global] Instance P_bind : MBind P := λ _ _ f m s, let* (a, s) := m s in f a s.

Definition p_get {A} (f : proc K G → A) : P A := λ S, Ok (f S, S).
Definition p_sys {A} (f : G → A * G) : P A := λ S,
  let '(a, g) := f (p_os S) in Ok (a, mkProc (p_idm S) (p_heap S) (p_next S) (p_conf S) (p_defs S) (p_errno S) g).
Definition p_err (e : Z) : P Z := λ S, Ok (-1, mkProc (p_idm S) (p_heap S) (p_next S) (p_conf S) (p_defs S) e (p_os S)).
Definition p_table {A} (f : index_map → res (A * index_map)) : P A := λ S,
  let* (a, idm) := f (p_idm S) in Ok (a, mkProc idm (p_heap S) (p_next S) (p_conf S) (p_defs S) (p_errno S) (p_os S)).
Definition p_blocks (f : gmap Z (sock K) → gmap Z (sock K)) : P () := λ S,
  Ok ((), mkProc (p_idm S) (f (p_heap S)) (p_next S) (p_conf S) (p_defs S) (p_errno S) (p_os S)).
Definition p_set_defs (c : bool) (d : rs_defaults) : P () := λ S,
  Ok ((), mkProc (p_idm S) (p_heap S) (p_next S) c d (p_errno S) (p_os S)).

(** A block in use. *)
Definition p_sock (p : Z) : P (sock K) := λ S, match p_heap S !! p with Some s => Ok (s, S) | None => UB "rs" end.
Definition p_put (p : Z) (s : sock K) : P () := p_blocks <[p := s]>.

(** Code that works on one socket and its identifier. *)
Definition on_sock {A} (p : Z) (m : R K A) : P A := λ S,
  match p_heap S !! p with
  | None => UB "rs"
  | Some s =>
      match so_id s with
      | None => UB "cm_id"
      | Some (k, fd) =>
          let* (a, e) := m (mkEp (so_rs s) (so_mem s) (p_errno S) k) in
          Ok (a, mkProc (p_idm S) (<[p := mkSock (e_rs e) (so_index s) (e_mem e) (Some (e_k e, fd))]> (p_heap S)) (p_next S)
                   (p_conf S) (p_defs S) (e_errno e) (p_os S))
      end
  end.

(** [idm_lookup(&idm, socket)] *)
Definition lookup (socket : Z) : P Z := p_table (λ idm, let* p := idm_lookup socket idm in Ok (p, idm)).

Definition rs_insert (p index : Z) : P Z :=
  ok ← p_sys os_alloc;
  i ← p_table (idm_set ok index p);
  s ← p_sock p;
  p_put p (mkSock (so_rs s) i (so_mem s) (so_id s)) ;;
  (if Z.ltb i 0 then p_err ENOMEM else mret 0) ;;
  mret i.

Definition rs_remove (index : Z) : P () := p_table (idm_clear index) ;; mret ().

(** [rs_configure]: without the connection manager the defaults stay, and the next call tries again. *)
Definition configure : P () :=
  done ← p_get p_conf;
  if (done : bool) then mret ()
  else
    ok ← p_sys os_ucma_init;
    if (ok : bool) then S ← p_get id; p_set_defs true (rs_configure (os_conf (p_os S)) (p_defs S)) else mret ().

(** [rs_alloc]: the sizes are those of the listening socket or the defaults; 0 is NULL. *)
Definition inherit (r : rsocket) : rsocket :=
  set_ctrl 0 (ctrl_max_seqno r)
    (rs_alloc (sbuf_size (cfg r)) (rbuf_size (cfg r)) (sq_size (cfg r)) (rq_size (cfg r)) 0 (target_iomap_size (cfg r))).
Definition from_defaults (d : rs_defaults) : rsocket :=
  rs_alloc (def_wmem d) (def_mem d) (def_sqsize d) (def_rqsize d) (def_inline d) (def_iomap_size d).
Definition take_block (s : sock K) : P Z := λ S,
  Ok (p_next S, mkProc (p_idm S) (<[p_next S := s]> (p_heap S)) (p_next S + 1) (p_conf S) (p_defs S) (p_errno S) (p_os S)).
Definition new_block (r : rsocket) : P Z :=
  o ← p_sys os_calloc; match o with None => mret 0 | Some m => take_block (mkSock r (-1) m None) end.

(** [rs_free]; the identifier's parts are released first, then the entry of the table, then the block. *)
Definition free_region (g : region) : R K () :=
  b ← gets (λ e, d_region g (e_k e)); if (b : bool) then dev_ (d_dereg_region g) else mret ().
Definition free_id (fuel : nat) : R K () :=
  rs_free_iomappings fuel ;;
  qp ← gets (λ e, d_has_qp (e_k e));
  if (qp : bool) then n ← rs_get unack_cqe; dev_ (d_ack_events n) ;; dev_ d_destroy_qp else mret ().

Definition destroy_id (p : Z) : P () := λ S,
  match p_heap S !! p with
  | Some (mkSock r i m (Some (k, fd))) =>
      Ok ((), mkProc (p_idm S) (<[p := mkSock r i m None]> (p_heap S)) (p_next S) (p_conf S) (p_defs S) (p_errno S) (os_destroy_id k fd (p_os S)))
  | _ => UB "cm_id"
  end.

Definition rs_free (fuel : nat) (p : Z) : P () :=
  s ← p_sock p;
  match so_id s with
  | Some _ => on_sock p (free_region SMR ;; free_region RMR ;; free_region TARGET_MR) ;; on_sock p (free_id fuel) ;; destroy_id p
  | None => mret ()
  end ;;
  (if Z.leb 0 (so_index s) then rs_remove (so_index s) else mret ()) ;;
  p_blocks (delete p).

(** ** The calls *)
Context (fuel : nat).

(** [err]: the block is freed and [ret] returned. *)
Definition fail (p ret : Z) : P Z := rs_free fuel p ;; mret ret.

(** A call that gives an identifier, or nothing and an error number. *)
Definition give_id (p : Z) (o : option (K * Z)) (e : Z) : P Z :=
  match o with
  | Some id => s ← p_sock p; p_put p (mkSock (so_rs s) (so_index s) (so_mem s) (Some id)) ;; mret 0
  | None => p_err e
  end.

(** The descriptor of a block's channel. *)
Definition channel_fd (p : Z) : P Z := λ S,
  match p_heap S !! p with Some (mkSock _ _ _ (Some (_, fd))) => Ok (fd, S) | _ => UB "cm_id" end.

(** [rsocket(domain, SOCK_STREAM, protocol)] *)
Definition rsocket_stream (domain protocol : Z) : P Z :=
  if negb (Z.eqb domain AF_INET || Z.eqb domain AF_INET6 || Z.eqb domain AF_IB) || (negb (Z.eqb protocol 0) && negb (Z.eqb protocol IPPROTO_TCP))
  then p_err ENOTSUP
  else
    configure ;;
    d ← p_get p_defs;
    p ← new_block (from_defaults d);
    if Z.eqb p 0 then p_err ENOMEM
    else
      '(o, e) ← p_sys os_create_id;
      ret ← give_id p o e;
      if negb (Z.eqb ret 0) then fail p ret
      else
        on_sock p (dev_ (d_set_family domain)) ;;
        fd ← channel_fd p;
        ret ← rs_insert p fd;
        if Z.ltb ret 0 then fail p ret else mret ret.

Definition rbind (socket : Z) (addr : list Z) : P Z :=
  p ← lookup socket;
  if Z.eqb p 0 then p_err EBADF
  else on_sock p (ret ← call (d_bind_addr addr); (if Z.eqb ret 0 then put_state rs_bound else mret ()) ;; mret ret).

Definition rlisten (socket backlog : Z) : P Z :=
  p ← lookup socket;
  if Z.eqb p 0 then p_err EBADF
  else on_sock p (st ← rs_get state;
                  if negb (Z.eqb st rs_listening)
                  then ret ← call (d_listen backlog); (if Z.eqb ret 0 then put_state rs_listening else mret ()) ;; mret ret
                  else mret 0).

Definition rs_conn_data_offset (k : K) : Z := if Z.eqb (d_src_family k) AF_IB then sizeof S_ib_connect_hdr else 0.

(** [rdma_get_request(rs->cm_id, &new_rs->cm_id)] *)
Definition get_request (p new : Z) : P Z := λ S,
  match p_heap S !! p with
  | Some (mkSock r i m (Some (k, fd))) =>
      let '(o, e, k1, g) := os_get_request k (p_os S) in
      give_id new o e (mkProc (p_idm S) (<[p := mkSock r i m (Some (k1, fd))]> (p_heap S)) (p_next S) (p_conf S) (p_defs S) (p_errno S) g)
  | _ => UB "cm_id"
  end.

(** From the endpoint to the answer; [creq] stays in the event. *)
Definition accept_id (creq : rs_conn_data) : R K Z :=
  ret ← rs_create_ep;
  if negb (Z.eqb ret 0) then mret ret
  else
    rs_save_conn_data creq ;;
    r ← rs_get id;
    ret ← call (d_accept (rs_format_conn_data r));
    e ← gets e_errno;
    if Z.eqb ret 0 then put_state rs_connect_rdwr ;; mret 0
    else if again e then put_state rs_accepting ;; mret 0
    else mret ret.

Definition accept_new (nonblock : bool) (off : Z) : R K Z :=
  creq ← gets (λ e, d_private_at off (e_k e));
  if negb (Z.eqb (cn_version creq) 1) then ERR ENOTSUP
  else (if nonblock then dev_ d_channel_nonblock else mret ()) ;; accept_id creq.

Definition rgetpeername (socket len : Z) : P (Z * option (list Z * Z)) :=
  p ← lookup socket;
  if Z.eqb p 0 then r ← p_err EBADF; mret (r, None)
  else a ← on_sock p (gets (λ e, d_peer_addr (e_k e))); mret (0, Some (rs_copy_addr a len)).
Definition rgetsockname (socket len : Z) : P (Z * option (list Z * Z)) :=
  p ← lookup socket;
  if Z.eqb p 0 then r ← p_err EBADF; mret (r, None)
  else a ← on_sock p (gets (λ e, d_local_addr (e_k e))); mret (0, Some (rs_copy_addr a len)).

(** [addrlen]: the room for the peer's address, if it is asked for. *)
Definition raccept (socket : Z) (addrlen : option Z) : P (Z * option (list Z * Z)) :=
  p ← lookup socket;
  if Z.eqb p 0 then r ← p_err EBADF; mret (r, None)
  else
    s ← p_sock p;
    new ← new_block (inherit (so_rs s));
    if Z.eqb new 0 then r ← p_err ENOMEM; mret (r, None)
    else
      ret ← get_request p new;
      if negb (Z.eqb ret 0) then r ← fail new ret; mret (r, None)
      else
        fd ← channel_fd new;
        ret ← rs_insert new fd;
        if Z.ltb ret 0 then r ← fail new ret; mret (r, None)
        else
          '(nonblock, off) ← on_sock p (gets (λ e, (has (fd_flags (e_rs e)) O_NONBLOCK, rs_conn_data_offset (e_k e))));
          ret ← on_sock new (accept_new nonblock off);
          if negb (Z.eqb ret 0) then r ← fail new ret; mret (r, None)
          else
            s ← p_sock new;
            match addrlen with
            | Some len => '(_, a) ← rgetpeername (so_index s) len; mret (so_index s, a)
            | None => mret (so_index s, None)
            end.

Definition rconnect (socket : Z) (addr : list Z) : P Z :=
  p ← lookup socket;
  if Z.eqb p 0 then p_err EBADF else on_sock p (dev_ (d_set_dst addr) ;; rs_do_connect).

(** [rclose]; its end in [RsIo.rclose] stands for [rs_free]. *)
Definition close_call (socket : Z) : P Z :=
  p ← lookup socket;
  if Z.eqb p 0 then mret EBADF
  else
    on_sock p (r ← rs_get id;
               if has (state r) rs_connected then rshutdown fuel SHUT_RDWR ;; mret ()
               else if has (opts r) RS_OPT_SVC_ACTIVE then dev_ d_rem_keepalive else mret ()) ;;
    rs_free fuel p ;; mret 0.
End Proc.

(** ** The table and the blocks

    What the invariant is about: for each block its index and the descriptor of its identifier. *)
Definition shape {K} (s : sock K) : Z * option Z := (so_index s, snd <$> so_id s).
Abbreviation shapes S := (shape <$> p_heap S).

(** What the system promises about descriptors: a new one is not open, only destroying an identifier closes one. *)
Class RsOsLaws (K G : Type) `{!RsOs K G} := {
  os_open : G → gset Z;
  open_calloc g o g1 : os_calloc g = (o, g1) → os_open g1 = os_open g;
  open_alloc g o g1 : os_alloc g = (o, g1) → os_open g1 = os_open g;
  open_init g o g1 : os_ucma_init g = (o, g1) → os_open g1 = os_open g;
  open_create g o e g1 : os_create_id g = (o, e, g1) →
    match o with Some (_, fd) => 0 ≤ fd ∧ (fd ∉ os_open g) ∧ os_open g1 = {[fd]} ∪ os_open g | None => os_open g1 = os_open g end;
  open_request k g o e k1 g1 : os_get_request k g = (o, e, k1, g1) →
    match o with Some (_, fd) => 0 ≤ fd ∧ (fd ∉ os_open g) ∧ os_open g1 = {[fd]} ∪ os_open g | None => os_open g1 = os_open g end;
  open_destroy k fd g : os_open (os_destroy_id k fd g) = os_open g ∖ {[fd]}
}.

(** The table is the inverse of the blocks' indices; identifiers have descriptors of their own, which are open. *)
Record view_ok (m : gmap Z Z) (idm : index_map) (h : gmap Z (Z * option Z)) (next : Z) (opn : gset Z) : Prop := {
  vw_idm : idm_ok m idm;
  vw_next : 0 < next;
  vw_block p x : h !! p = Some x → 0 < p < next;
  vw_table p i : m !! i = Some p ↔ 0 ≤ i ∧ ∃ o, h !! p = Some (i, o);
  vw_fd p i fd : h !! p = Some (i, Some fd) → 0 ≤ fd ∧ fd ∈ opn ∧ (i = -1 ∨ i = fd);
  vw_inj p q i j fd : h !! p = Some (i, Some fd) → h !! q = Some (j, Some fd) → p = q
}.
(** Between calls every block is in the table under its descriptor; during one, all but the block [x] the call works on. *)
Definition settled_but (x : Z) (h : gmap Z (Z * option Z)) : Prop := ∀ p i o, h !! p = Some (i, o) → p ≠ x → 0 ≤ i ∧ o = Some i.

Lemma view_new m idm h next opn : view_ok m idm h next opn → view_ok m idm (<[next := (-1, None)]> h) (next + 1) opn.
Proof.
  intros [H1 H2 H3 H4 H5 H6]. constructor; [done|lia|..].
  - intros p x [[<- _]|[_ Hp%H3]]%lookup_insert_Some; lia.
  - intros p i. rewrite H4. split; intros [Hi [o Ho]]; (split; [done|]).
    + exists o. rewrite lookup_insert_ne; [done|]. intros ->. apply H3 in Ho. lia.
    + apply lookup_insert_Some in Ho as [[_ [= <- _]]|[_ Ho]]; [lia|eauto].
  - intros p i fd [[_ [=]]|[_ Hp]]%lookup_insert_Some. eauto.
  - intros p q i j fd [[_ [=]]|[_ Hp]]%lookup_insert_Some [[_ [=]]|[_ Hq]]%lookup_insert_Some. eauto.
Qed.

Lemma view_id m idm h next opn x fd : view_ok m idm h next opn → settled_but x h → h !! x = Some (-1, None) → 0 ≤ fd → fd ∉ opn →
  view_ok m idm (<[x := (-1, Some fd)]> h) next ({[fd]} ∪ opn).
Proof.
  intros [H1 H2 H3 H4 H5 H6] Hs Hx Hfd Hno.
  constructor; [done|done|..].
  - intros p y [[<- _]|[_ Hp]]%lookup_insert_Some; eauto.
  - intros p i. rewrite H4. split; intros [Hi [o Ho]]; (split; [done|]).
    + exists o. rewrite lookup_insert_ne; [done|]. intros ->. rewrite Hx in Ho. injection Ho as <- _. lia.
    + apply lookup_insert_Some in Ho as [[_ [= <- _]]|[_ Ho]]; [lia|eauto].
  - intros p i fd' [[_ [= <- <-]]|[_ Hp]]%lookup_insert_Some; [set_solver|]. apply H5 in Hp as (? & ? & ?). set_solver.
  - intros p q i j fd' Hp Hq. apply lookup_insert_Some in Hp as [[<- Ep]|[? Hp]], Hq as [[<- Eq]|[? Hq]]; [done|..|eauto];
      injection Ep || injection Eq; intros <- _.
    + by apply H5 in Hq as (_ & ? & _).
    + by apply H5 in Hp as (_ & ? & _).
Qed.

Lemma view_index m idm idm1 h next opn x fd : view_ok m idm h next opn → settled_but x h → h !! x = Some (-1, Some fd) →
  idm_ok (<[fd := x]> m) idm1 → view_ok (<[fd := x]> m) idm1 (<[x := (fd, Some fd)]> h) next opn.
Proof.
  intros [H1 H2 H3 H4 H5 H6] Hs Hx Hm. pose proof (H5 _ _ _ Hx) as (Hfd & Ho & _). constructor; [done|done|..].
  - intros p y [[<- _]|[_ Hp]]%lookup_insert_Some; eauto.
  - intros p i. destruct (decide (i = fd)) as [->|Hi].
    + rewrite lookup_insert_eq. split; [intros [= <-]; split; [done|]; exists (Some fd); by rewrite lookup_insert_eq|].
      intros [_ [o Hp]]. apply lookup_insert_Some in Hp as [[<- _]|[Hne Hp]]; [done|]. destruct (Hs _ _ _ Hp (not_eq_sym Hne)) as [_ ->].
      by rewrite (H6 _ _ _ _ _ Hp Hx).
    + rewrite lookup_insert_ne by done. rewrite H4. split; intros [Hi' [o Hp]]; (split; [done|]).
      * exists o. rewrite lookup_insert_ne; [done|]. intros ->. rewrite Hx in Hp. injection Hp as <- _. lia.
      * apply lookup_insert_Some in Hp as [[_ [= ? _]]|[_ Hp]]; [done|eauto].
  - intros p i fd' [[_ [= <- <-]]|[_ Hp]]%lookup_insert_Some; [auto|eauto].
  - intros p q i j fd' Hp Hq. apply lookup_insert_Some in Hp as [[<- Ep]|[? Hp]], Hq as [[<- Eq]|[? Hq]]; [done|..|eauto];
      injection Ep || injection Eq; intros <- _; eauto.
Qed.

(** Freeing a block: its descriptor is closed, and its entry of the table cleared. *)
Lemma view_free m idm idm1 h next opn opn1 x i o m1 : view_ok m idm h next opn → h !! x = Some (i, o) → 
  idm_ok m1 idm1 → m1 = (if Z.leb 0 i then delete i m else m) → opn1 = (match o with Some fd => opn ∖ {[fd]} | None => opn end) →
  view_ok m1 idm1 (delete x h) next opn1.
Proof.
  intros [H1 H2 H3 H4 H5 H6] Hx Hm -> ->. constructor; [done|done|..].
  - intros p y [_ Hp]%lookup_delete_Some. eauto.
  - intros p j. assert (m !! j = Some p ∧ p ≠ x ↔ 0 ≤ j ∧ ∃ o, delete x h !! p = Some (j, o)) as <-.
    { rewrite H4. split; [intros [[Hj [o' Ho]] Hp]|intros [Hj [o' Ho]]; apply lookup_delete_Some in Ho as [Hp Ho]]; [split; [done|]|eauto].
      exists o'. by rewrite lookup_delete_ne. }
    assert (m !! j = Some p → p = x ↔ 0 ≤ i ∧ j = i) as Hpx.
    { intros Hj. pose proof Hj as [Hj0 [o' Ho]]%H4. split; [intros ->; rewrite Hx in Ho; injection Ho as -> ->; done|].
      intros [Hi ->]. assert (m !! i = Some x) as Hmx by (apply H4; eauto). congruence. }
    destruct (Z.leb_spec 0 i); [rewrite lookup_delete_Some|]; naive_solver lia.
  - intros p j fd [Hne Hp]%lookup_delete_Some. pose proof (H5 _ _ _ Hp) as (? & ? & ?). split; [done|]. split; [|done]. destruct o as [fd'|]; [|done].
    apply elem_of_difference. split; [done|]. intros ->%elem_of_singleton. by rewrite (H6 _ _ _ _ _ Hp Hx) in Hne.
  - intros p q j j' fd [_ Hp]%lookup_delete_Some [_ Hq]%lookup_delete_Some. eauto.
Qed.

(** ** Results

    The calls below give 0 or -1. *)
Section Status.
Context {K : Type} `{!RsEnv K, !RsSetup K, !RsCm K}.

Definition status (m : R K Z) : Prop := ∀ e a e1, m e = Ok (a, e1) → a = 0 ∨ a = -1.

Lemma status_ret a : a = 0 ∨ a = -1 → status (mret a).
Proof. by intros Ha e b e1 [= <- <-]. Qed.
Lemma status_err z : status (ERR z).
Proof. intros e b e1 [= <- <-]. by right. Qed.
Lemma status_bind {A} (m : R K A) f : (∀ a, status (f a)) → status (m ≫= f).
Proof. intros Hf e b e1 (a & e2 & _ & E)%step_bind. by apply Hf in E. Qed.
Lemma status_then m f : status m → (∀ a, a = 0 ∨ a = -1 → status (f a)) → status (m ≫= f).
Proof. intros Hm Hf e b e1 (a & e2 & E2%Hm & E)%step_bind. by apply Hf in E. Qed.
Lemma status_seterrno z : status (seterrno z).
Proof. unfold seterrno. destruct (Z.eqb z 0); [apply status_ret; by left|apply status_err]. Qed.
Lemma status_call f : status (call f).
Proof. apply status_bind. intros a. apply status_seterrno. Qed.
End Status.

Create HintDb rs_status.
#[export] Hint Resolve status_ret status_err status_seterrno status_call : rs_status.
Ltac status_tac :=
  repeat match goal with
  | |- status (if ?b then _ else _) => destruct b
  | |- status (match ?x with _ => _ end) => destruct x
  | |- status (mbind _ _) => apply status_then; [solve [auto with rs_status]|intros ? ?]
  | |- status (mbind _ _) => apply status_bind; intros ?
  | |- _ => progress cbv zeta
  end; auto with rs_status.

Section Statuses.
Context {K : Type} `{!RsEnv K, !RsSetup K, !RsCm K}.

Lemma status_repost n : status (K := K) (repost n).
Proof.
  induction n as [|n IH]; cbn [repost]; [apply status_ret; by left|]. apply status_then; [|intros; status_tac].
  unfold rs_post_recv. status_tac.
Qed.
Lemma status_create_cq : status (K := K) rs_create_cq.
Proof. unfold rs_create_cq. status_tac. Qed.
Lemma status_init_bufs : status (K := K) rs_init_bufs.
Proof. unfold rs_init_bufs. status_tac. Qed.
#[local] Hint Resolve status_repost status_create_cq status_init_bufs : rs_status.
Lemma status_create_ep : status (K := K) rs_create_ep.
Proof. unfold rs_create_ep. status_tac. Qed.
#[local] Hint Resolve status_create_ep : rs_status.
Lemma status_accept nb off : status (K := K) (accept_new nb off).
Proof. unfold accept_new, accept_id. status_tac. Qed.
End Statuses.

Section Table.
Context {K G : Type} `{!RsEnv K, !RsSetup K, !RsClose K, !RsMap K, !RsCm K, !RsOs K G, !RsOsLaws K G}.
Implicit Types (S : proc K G).

Lemma p_bind {A B} (m : P (K := K) (G := G) A) (f : A → P B) S b S2 : (m ≫= f) S = Ok (b, S2) → ∃ a S1, m S = Ok (a, S1) ∧ f a S1 = Ok (b, S2).
Proof. unfold mbind, P_bind. destruct (m S) as [[a S1]| | | |]; try done. cbn. by exists a, S1. Qed.

(** What the invariant sees of a process. *)
Definition view S : index_map * gmap Z (Z * option Z) * Z * gset Z := (p_idm S, shapes S, p_next S, os_open (p_os S)).
Definition viewed (m : gmap Z Z) (v : index_map * gmap Z (Z * option Z) * Z * gset Z) : Prop :=
  let '(idm, h, next, opn) := v in view_ok m idm h next opn.

Lemma on_sock_view {A} p (m : R K A) S a S1 : on_sock p m S = Ok (a, S1) → view S1 = view S ∧ p_defs S1 = p_defs S.
Proof.
  unfold on_sock. destruct (p_heap S !! p) as [s|] eqn:Hp; [|done]. destruct (so_id s) as [[k fd]|] eqn:Hid; [|done].
  destruct (m _) as [[b e]| | | |]; try done. intros [= <- <-]. split; [|done]. unfold view. cbn [p_idm p_heap p_next p_os].
  rewrite fmap_insert, insert_id; [done|]. rewrite lookup_fmap, Hp. cbn. unfold shape. by rewrite Hid.
Qed.

Lemma p_sys_view {A} (f : G → A * G) S a S1 : (∀ g b g1, f g = (b, g1) → os_open g1 = os_open g) → p_sys f S = Ok (a, S1) → view S1 = view S.
Proof.
  intros Hf. unfold p_sys. destruct (f (p_os S)) as [b g] eqn:E. intros [= <- <-]. unfold view. cbn. by rewrite (Hf _ _ _ E).
Qed.

Lemma lookup_run S m idm h next opn fd : view S = (idm, h, next, opn) → view_ok m idm h next opn → 0 ≤ fd → lookup fd S = Ok (default 0 (m !! fd), S).
Proof.
  intros [= <- _ _ _] [Hm _ _ _ _ _] Hfd. unfold lookup, p_table. rewrite (idm_lookup_ok m) by done. cbn. by destruct S.
Qed.

Lemma configure_view S a S1 : configure S = Ok (a, S1) → view S1 = view S.
Proof.
  unfold configure. intros (c & S2 & [= <- <-] & E)%p_bind. destruct (p_conf S); [by injection E as _ <-|].
  apply p_bind in E as (ok & S2 & E2 & E). apply p_sys_view in E2; [|intros ???; apply open_init]. destruct ok; [|by injection E as _ <-].
  apply p_bind in E as (S3 & S4 & [= <- <-] & E). by injection E as _ <-.
Qed.

Lemma new_block_view r S a S1 : new_block r S = Ok (a, S1) →
  a = 0 ∧ view S1 = view S ∨
  a = p_next S ∧ view S1 = (p_idm S, <[p_next S := (-1, None)]> (shapes S), p_next S + 1, os_open (p_os S)).
Proof.
  unfold new_block. intros (o & S2 & E2 & E)%p_bind. apply p_sys_view in E2; [|intros ???; apply open_calloc].
  destruct o as [mm|]; [right|left; by injection E as <- <-]. injection E as <- <-. unfold view in *. injection E2 as E1 E2 E3 E4.
  split; [done|]. cbn [p_idm p_heap p_next p_os]. rewrite fmap_insert, E1, E2, E3, E4. done.
Qed.

Lemma give_id_view p o e S a S1 i : give_id p o e S = Ok (a, S1) → shapes S !! p = Some (i, None) →
  match o with
  | Some (k, fd) => a = 0 ∧ view S1 = (p_idm S, <[p := (i, Some fd)]> (shapes S), p_next S, os_open (p_os S))
  | None => a = -1 ∧ view S1 = view S
  end.
Proof.
  intros E Hp. destruct o as [[k fd]|]; [|by injection E as <- <-]. unfold give_id, p_sock, p_put, p_blocks, mbind, P_bind in E.
  destruct (p_heap S !! p) as [s|] eqn:Es; [|done]. cbn in E. injection E as <- <-. split; [done|]. unfold view. cbn. rewrite fmap_insert.
  unfold shape at 1. cbn. rewrite lookup_fmap, Es in Hp. injection Hp as <- _. done.
Qed.

Lemma insert_view m p fd S a S1 : rs_insert p fd S = Ok (a, S1) → viewed m (view S) → shapes S !! p = Some (-1, Some fd) → settled_but p (shapes S) →
  0 ≤ fd ∧ ∃ m1, viewed m1 (view S1) ∧ (a = fd ∧ shapes S1 = <[p := (fd, Some fd)]> (shapes S) ∨ a = -1 ∧ shapes S1 = shapes S) ∧
    p_next S1 = p_next S ∧ os_open (p_os S1) = os_open (p_os S).
Proof.
  intros E Hv Hp Hs. pose proof (vw_fd _ _ _ _ _ Hv _ _ _ Hp) as (Hfd & _ & _). split; [done|]. unfold rs_insert in E.
  apply p_bind in E as (ok & S2 & E2 & E). apply p_sys_view in E2; [|intros ???; apply open_alloc]. rewrite <- E2 in Hv.
  injection E2 as E1 E2 E3 E4. rewrite <- E2 in Hp, Hs. rewrite <- E2, <- E3, <- E4. clear E1 E2 E3 E4 S.
  unfold p_table in E. apply p_bind in E as (i & S3 & E3 & E). destruct (idm_set_ok m (p_idm S2) ok fd p (vw_idm _ _ _ _ _ Hv) Hfd) as (r & idm1 & Er & Hr).
  rewrite Er in E3. injection E3 as <- <-. unfold p_sock in E. apply p_bind in E as (s & S3 & E3 & E). cbn [p_heap] in E3.
  destruct (p_heap S2 !! p) as [s'|] eqn:Es; [|done]. injection E3 as <- <-. apply p_bind in E as (u & S3 & E3 & E). injection E3 as _ <-.
  assert (shape s' = (-1, Some fd)) as Hsh by (rewrite lookup_fmap, Es in Hp; by apply (inj Some) in Hp).
  assert (∀ i, shapes (mkProc (G := G) idm1 (<[p := mkSock (so_rs s') i (so_mem s') (so_id s')]> (p_heap S2)) 0 false rs_initial 0 (p_os S2)) =
               <[p := (i, Some fd)]> (shapes S2)) as Hins.
  { intros i. cbn [p_heap]. rewrite fmap_insert. do 2 f_equal. unfold shape in *. cbn. injection Hsh as _ ->. done. }
  cbn [p_heap] in Hins. destruct Hr as [(-> & _ & Hm1)|(-> & _ & Hm1)].
  - destruct (Z.ltb_spec fd 0); [lia|]. apply p_bind in E as (z & S3 & E3 & E). injection E3 as _ <-. injection E as <- <-. cbn [p_idm p_heap p_next p_os]. exists (<[fd := p]> m). cbn [viewed view]. unfold view.
    cbn [p_idm p_heap p_next p_os]. rewrite Hins. split; [by apply (view_index m (p_idm S2))|]. split; [by left|done].
  - apply p_bind in E as (z & S3 & E3 & E). injection E3 as _ <-. injection E as <- <-. cbn [p_idm p_heap p_next p_os]. exists m. unfold view. cbn [p_idm p_heap p_next p_os]. rewrite Hins, insert_id by done.
    destruct Hv as [H1 H2 H3 H4 H5 H6]. split; [by constructor|]. split; [by right|done].
Qed.

Lemma destroy_view p S a S1 i o : destroy_id p S = Ok (a, S1) → shapes S !! p = Some (i, o) →
  ∃ fd, o = Some fd ∧ p_idm S1 = p_idm S ∧ shapes S1 = <[p := (i, None)]> (shapes S) ∧ p_next S1 = p_next S ∧ os_open (p_os S1) = os_open (p_os S) ∖ {[fd]}.
Proof.
  intros E Hp. unfold destroy_id in E. rewrite lookup_fmap in Hp. destruct (p_heap S !! p) as [[r j mm [[k fd]|]]|] eqn:Es; try done.
  injection Hp as <- <-. injection E as _ <-. exists fd. cbn [p_idm p_heap p_next p_os]. rewrite fmap_insert, open_destroy. done.
Qed.

Lemma free_view fuel m p i o S a S1 : rs_free fuel p S = Ok (a, S1) → viewed m (view S) → shapes S !! p = Some (i, o) →
  ∃ m1, viewed m1 (view S1) ∧ shapes S1 = delete p (shapes S) ∧ p_next S1 = p_next S ∧
    os_open (p_os S1) = match o with Some fd => os_open (p_os S) ∖ {[fd]} | None => os_open (p_os S) end.
Proof.
  intros E Hv Hp. unfold rs_free in E. apply p_bind in E as (s & S2 & E2 & E). unfold p_sock in E2.
  rewrite lookup_fmap in Hp. destruct (p_heap S !! p) as [s'|] eqn:Es; [|done]. injection E2 as -> ->. apply (inj Some) in Hp.
  assert (so_index s = i) as Hi by (by injection Hp). assert (snd <$> so_id s = o) as Ho by (by injection Hp). rewrite Hi in E. clear Hi.
  apply p_bind in E as (u & S3 & E3 & E).
  assert (p_idm S3 = p_idm S2 ∧ delete p (shapes S3) = delete p (shapes S2) ∧ p_next S3 = p_next S2 ∧
          os_open (p_os S3) = match o with Some fd => os_open (p_os S2) ∖ {[fd]} | None => os_open (p_os S2) end) as (H1 & H2 & H3 & H4).
  { destruct (so_id s) as [[k fd]|]; subst o; [|by injection E3 as _ <-].
    apply p_bind in E3 as (u1 & S4 & E4 & E3). apply on_sock_view in E4 as [E4 _]. apply p_bind in E3 as (u2 & S5 & E5 & E3). apply on_sock_view in E5 as [E5 _].
    rewrite E4 in E5. injection E5 as H1 H2 H3 H4. apply (destroy_view _ _ _ _ i (Some fd)) in E3 as (fd' & [= <-] & H5 & H6 & H7 & H8).
    - rewrite H5, H6, H7, H8, H1, H2, H3, H4. split_and!; try done. by rewrite delete_insert_eq.
    - rewrite H2, lookup_fmap, Es. cbn. by rewrite Hp. }
  apply p_bind in E as (u1 & S4 & E4 & E). injection E as _ <-. cbn [p_idm p_heap p_next p_os view]. unfold view. cbn [p_idm p_heap p_next p_os].
  assert (shapes S2 !! p = Some (i, o)) as Hp2 by (rewrite lookup_fmap, Es; cbn; by rewrite Hp).
  rewrite fmap_delete. destruct (Z.leb_spec 0 i) as [Hi|Hi].
  - assert (m !! i = Some p) as Hm by (apply (vw_table _ _ _ _ _ Hv); eauto).
    destruct (idm_clear_ok m (p_idm S2) i p (vw_idm _ _ _ _ _ Hv) Hm) as (idm1 & Ec & Hm1).
    unfold rs_remove, p_table in E4. apply p_bind in E4 as (x & S5 & E5 & E4). rewrite H1, Ec in E5. injection E5 as _ <-. injection E4 as _ <-.
    cbn [p_idm p_heap p_next p_os]. rewrite H2, H3, H4. exists (delete i m). split_and!; try done.
    eapply view_free; [exact Hv|exact Hp2|done| |done]. destruct (Z.leb_spec 0 i); [done|lia].
  - injection E4 as _ <-. rewrite H1, H2, H3, H4. exists m. split_and!; try done. eapply view_free; [exact Hv|exact Hp2|by apply (vw_idm _ _ _ _ _ Hv)| |done].
    destruct (Z.leb_spec 0 i); [lia|done].
Qed.

(** ** Between calls *)
Definition proc_ok S : Prop := ∃ m, viewed m (view S) ∧ settled_but 0 (shapes S).

(** A call that began in [S0] holds the new block [x]. *)
Record holds (x i : Z) (o : option Z) S0 S : Prop := {
  hl_view : ∃ m, viewed m (view S);
  hl_shapes : shapes S = <[x := (i, o)]> (shapes S0);
  hl_fresh : shapes S0 !! x = None;
  hl_settled : settled_but 0 (shapes S0);
  hl_open : os_open (p_os S) = match o with Some fd => {[fd]} ∪ os_open (p_os S0) | None => os_open (p_os S0) end;
  hl_fd fd : o = Some fd → fd ∉ os_open (p_os S0)
}.

Lemma holds_at x i o S0 S : holds x i o S0 S → shapes S !! x = Some (i, o) ∧ settled_but x (shapes S).
Proof.
  intros []. rewrite hl_shapes0. split; [by rewrite lookup_insert_eq|]. intros p j o' [[<- _]|[Hp Hl]]%lookup_insert_Some Hne; [done|].
  apply (hl_settled0 p); [done|]. intros ->. destruct hl_view0 as [m Hv]. assert (shapes S !! 0 = Some (j, o')) as H0 by (by rewrite hl_shapes0, lookup_insert_ne).
  apply (vw_block _ _ _ _ _ Hv) in H0. lia.
Qed.
Lemma holds_view x i o S0 S S1 : view S1 = view S → holds x i o S0 S → holds x i o S0 S1.
Proof. intros E []. injection E as E1 E2 E3 E4. constructor; rewrite ?E2, ?E4; try done. destruct hl_view0 as [m Hm]. exists m. unfold view. by rewrite E1, E2, E3, E4. Qed.
Lemma ok_view S S1 : view S1 = view S → proc_ok S → proc_ok S1.
Proof. intros E (m & Hv & Hs). exists m. rewrite E. injection E as _ -> _ _. done. Qed.

Lemma holds_new r S a S1 : proc_ok S → new_block r S = Ok (a, S1) → a = 0 ∧ view S1 = view S ∨ a ≠ 0 ∧ holds a (-1) None S S1.
Proof.
  intros (m & Hv & Hs) [[-> E]|[-> E]]%new_block_view; [by left|right]. pose proof (vw_next _ _ _ _ _ Hv). split; [lia|].
  assert (shapes S !! p_next S = None) as Hn.
  { destruct (shapes S !! p_next S) eqn:En; [|done]. apply (vw_block _ _ _ _ _ Hv) in En. lia. }
  pose proof E as E'. injection E' as E1 E2 E3 E4. constructor; try done. exists m. rewrite E. by apply view_new.
Qed.

(** [S'] is [S] after the system was asked for an identifier. *)
Lemma holds_id x o e S0 S S' a S1 : holds x (-1) None S0 S → p_idm S' = p_idm S → shapes S' = shapes S → p_next S' = p_next S →
  match o with Some (_, fd) => 0 ≤ fd ∧ (fd ∉ os_open (p_os S)) ∧ os_open (p_os S') = {[fd]} ∪ os_open (p_os S) | None => os_open (p_os S') = os_open (p_os S) end →
  give_id x o e S' = Ok (a, S1) →
  match o with Some (_, fd) => a = 0 ∧ holds x (-1) (Some fd) S0 S1 | None => a = -1 ∧ holds x (-1) None S0 S1 end.
Proof.
  intros Hh E1 E2 E3 Ho E. pose proof (holds_at _ _ _ _ _ Hh) as [Hx Hs]. apply (give_id_view _ _ _ _ _ _ (-1)) in E; [|by rewrite E2].
  destruct o as [[k fd]|]; destruct E as [-> E]; (split; [done|]).
  - destruct Ho as (Hfd & Hno & Ho). destruct Hh as [[m Hv] Hsh Hf Hst Hop _]. rewrite E1, E2, E3, Ho in E. pose proof E as E'. injection E' as E5 E6 E7 E8.
    constructor; try done.
    + exists m. rewrite E. by apply view_id.
    + by rewrite E6, Hsh, insert_insert_eq.
    + by rewrite E8, Hop.
    + intros fd' [= <-]. by rewrite <- Hop.
  - eapply holds_view; [|done]. rewrite E. unfold view. by rewrite E1, E2, E3, Ho.
Qed.

Lemma holds_insert x fd S0 S a S1 : holds x (-1) (Some fd) S0 S → rs_insert x fd S = Ok (a, S1) →
  0 ≤ fd ∧ (a = fd ∧ holds x fd (Some fd) S0 S1 ∨ a = -1 ∧ holds x (-1) (Some fd) S0 S1).
Proof.
  intros Hh E. pose proof (holds_at _ _ _ _ _ Hh) as [Hx Hs]. destruct Hh as [[m Hv] Hsh Hf Hst Hop Hn].
  apply (insert_view m) in E as (Hfd & m1 & Hv1 & Hc & _ & Ho); try done. split; [done|].
  destruct Hc as [[-> E]|[-> E]]; [left|right]; (split; [done|]); constructor; rewrite ?E, ?Ho; eauto. by rewrite Hsh, insert_insert_eq.
Qed.

Lemma holds_fail fuel x i o S0 S ret r S1 : holds x i o S0 S → fail fuel x ret S = Ok (r, S1) →
  r = ret ∧ proc_ok S1 ∧ shapes S1 = shapes S0 ∧ os_open (p_os S1) = os_open (p_os S0).
Proof.
  intros Hh E. pose proof (holds_at _ _ _ _ _ Hh) as [Hx _]. destruct Hh as [[m Hv] Hsh Hf Hst Hop Hn]. unfold fail in E.
  apply p_bind in E as (u & S2 & E2 & E). injection E as <- <-. split; [done|]. apply (free_view _ m _ i o) in E2 as (m1 & Hv1 & Hd & _ & Ho); [|done..].
  rewrite Hsh, delete_insert_id in Hd by done. split; [exists m1; by rewrite Hd|]. split; [done|]. rewrite Ho, Hop. destruct o as [fd|]; [|done].
  specialize (Hn fd eq_refl). set_solver.
Qed.

(** What a call that opens a socket leaves behind. *)
Definition opens_sock S (ret : Z) S1 : Prop :=
  ret < 0 ∧ shapes S1 = shapes S ∧ os_open (p_os S1) = os_open (p_os S) ∨
  0 ≤ ret ∧ (ret ∉ os_open (p_os S)) ∧ os_open (p_os S1) = {[ret]} ∪ os_open (p_os S) ∧
    ∃ p, shapes S !! p = None ∧ shapes S1 = <[p := (ret, Some ret)]> (shapes S).

Lemma failed_sock S ret S1 : proc_ok S1 ∧ shapes S1 = shapes S ∧ os_open (p_os S1) = os_open (p_os S) → ret < 0 → proc_ok S1 ∧ opens_sock S ret S1.
Proof. intros (H1 & H2 & H3) Hr. split; [done|]. by left. Qed.
Lemma same_sock S ret S1 : proc_ok S → view S1 = view S → ret < 0 → proc_ok S1 ∧ opens_sock S ret S1.
Proof. intros Hok E Hr. apply failed_sock; [|done]. split; [by eapply ok_view|]. injection E as _ -> _ ->. done. Qed.
Lemma holds_done x fd S0 S : holds x fd (Some fd) S0 S → 0 ≤ fd → proc_ok S ∧ opens_sock S0 fd S.
Proof.
  intros Hh Hfd. pose proof (holds_at _ _ _ _ _ Hh) as [Hx Hs]. destruct Hh as [[m Hv] Hsh Hf Hst Hop Hn]. split.
  - exists m. split; [done|]. intros p i o Hp Hp0. destruct (decide (p = x)) as [->|]; [|by apply (Hs p)]. rewrite Hx in Hp. by injection Hp as <- <-.
  - right. split; [done|]. split; [by apply Hn|]. split; [done|]. by exists x.
Qed.

Lemma holds_failed fuel x i o S0 S ret r S1 : fail fuel x ret S = Ok (r, S1) → holds x i o S0 S → ret < 0 → proc_ok S1 ∧ opens_sock S0 r S1.
Proof. intros E Hh Hr. apply (holds_fail _ _ _ _ _ _ _ _ _ Hh) in E as [-> E]. by apply failed_sock. Qed.

Lemma lookup_same fd S p S1 : lookup fd S = Ok (p, S1) → S1 = S.
Proof. unfold lookup, p_table. destruct (idm_lookup fd (p_idm S)); try done. cbn. intros [= _ <-]. by destruct S. Qed.

(** The descriptor read from a block that has an identifier. *)
Lemma channel_fd_run p i fd S a S1 : shapes S !! p = Some (i, Some fd) → channel_fd p S = Ok (a, S1) → a = fd ∧ S1 = S.
Proof.
  rewrite lookup_fmap. unfold channel_fd. intros Hp. destruct (p_heap S !! p) as [[r j mm [[k fd']|]]|]; try done.
  injection Hp as <- <-. by intros [= <- <-].
Qed.

Lemma socket_outcome fuel domain protocol S ret S1 : proc_ok S → rsocket_stream fuel domain protocol S = Ok (ret, S1) → proc_ok S1 ∧ opens_sock S ret S1.
Proof.
  intros Hok E. unfold rsocket_stream in E. case_match; [injection E as <- <-; by apply same_sock|].
  apply p_bind in E as (u & S2 & E2 & E). apply configure_view in E2. apply p_bind in E as (d & S3 & [= _ <-] & E).
  apply p_bind in E as (x & S3 & E3 & E). pose proof (ok_view _ _ E2 Hok) as Hok2. apply holds_new in E3; [|done].
  assert (∀ r S', proc_ok S' ∧ opens_sock S2 r S' → proc_ok S' ∧ opens_sock S r S') as Hback.
  { intros r S'. unfold opens_sock. injection E2 as _ -> _ ->. done. }
  apply Hback. clear Hback Hok E2. destruct E3 as [[-> E3]|[Hx Hh]].
  { injection E as <- <-. by apply same_sock. }
  destruct (Z.eqb_spec x 0); [done|]. apply p_bind in E as ([o e] & S4 & E4 & E). unfold p_sys in E4. destruct (os_create_id (p_os S3)) as [[o' e'] g] eqn:Eg.
  injection E4 as <- <- <-. apply p_bind in E as (r1 & S5 & E5 & E). apply open_create in Eg. apply (holds_id x o' e' S2 S3) in E5; try done.
  destruct o' as [[k fd]|]; destruct E5 as [-> Hh5]; cbn [Z.eqb negb] in E; [|by eapply holds_failed].
  apply p_bind in E as (u1 & S6 & E6 & E). apply on_sock_view in E6 as [E6 _]. apply (holds_view _ _ _ _ _ _ E6) in Hh5. apply p_bind in E as (fd' & S7 & E7 & E).
  apply (channel_fd_run x (-1) fd) in E7 as [-> ->]; [|by apply (holds_at _ _ _ _ _ Hh5)]. apply p_bind in E as (r2 & S7 & E7 & E).
  apply (holds_insert _ _ S2) in E7 as [Hfd [[-> Hh7]|[-> Hh7]]]; [| |done].
  - destruct (Z.ltb_spec fd 0); [lia|]. injection E as <- <-. by eapply holds_done.
  - change (Z.ltb (-1) 0) with true in E. cbv iota in E. by eapply holds_failed.
Qed.

Lemma name_view fd len S a S1 : rgetpeername fd len S = Ok (a, S1) → view S1 = view S.
Proof.
  unfold rgetpeername. intros (p & S2 & ->%lookup_same & E)%p_bind. destruct (Z.eqb p 0).
  - apply p_bind in E as (z & S3 & [= _ <-] & E). by injection E as _ <-.
  - apply p_bind in E as (z & S3 & [E3 _]%on_sock_view & E). by injection E as _ <-.
Qed.

Lemma request_view p x S0 S ret S1 : holds x (-1) None S0 S → get_request p x S = Ok (ret, S1) →
  ret = -1 ∧ holds x (-1) None S0 S1 ∨ ∃ fd, ret = 0 ∧ holds x (-1) (Some fd) S0 S1.
Proof.
  intros Hh E. unfold get_request in E. destruct (p_heap S !! p) as [[r i mm [[k fd]|]]|] eqn:Ep; try done.
  destruct (os_get_request k (p_os S)) as [[[o e] k1] g] eqn:Eg. apply open_request in Eg. apply (holds_id x o e S0 S) in E; try done.
  - destruct o as [[k2 fd2]|]; destruct E as [-> E]; [right; by exists fd2|by left].
  - cbn [p_heap]. rewrite fmap_insert, insert_id; [done|]. by rewrite lookup_fmap, Ep.
Qed.

Lemma accept_outcome fuel fd alen S ret a S1 : proc_ok S → raccept fuel fd alen S = Ok ((ret, a), S1) → 
  proc_ok S1 ∧ opens_sock S ret S1.
Proof.
  intros Hok E. unfold raccept in E. apply p_bind in E as (p & S2 & ->%lookup_same & E). destruct (Z.eqb p 0).
  { apply p_bind in E as (z & S3 & [= <- <-] & E). injection E as <- _ <-. by apply same_sock. }
  apply p_bind in E as (s & S3 & E3 & E). unfold p_sock in E3. destruct (p_heap S !! p) as [s'|] eqn:Es; [|done]. injection E3 as -> <-.
  apply p_bind in E as (x & S3 & E3 & E). apply holds_new in E3; [|done]. destruct E3 as [[-> E3]|[Hx Hh]].
  { apply p_bind in E as (z & S4 & [= <- <-] & E). injection E as <- _ <-. by apply same_sock. }
  destruct (Z.eqb_spec x 0); [done|]. apply p_bind in E as (r1 & S4 & E4 & E). apply (request_view p x S) in E4; [|done].
  destruct E4 as [[-> Hh4]|(fd4 & -> & Hh4)]; cbn [Z.eqb negb] in E.
  { apply p_bind in E as (z & S5 & E5 & E). injection E as <- _ <-. by eapply holds_failed. }
  apply p_bind in E as (fd' & S5 & E5 & E). apply (channel_fd_run x (-1) fd4) in E5 as [-> ->]; [|by apply (holds_at _ _ _ _ _ Hh4)].
  apply p_bind in E as (r2 & S5 & E5 & E). apply (holds_insert _ _ S) in E5 as [Hfd [[-> Hh5]|[-> Hh5]]]; [| |done].
  2: { change (Z.ltb (-1) 0) with true in E. cbv iota in E. apply p_bind in E as (z & S6 & E6 & E). injection E as <- _ <-. by eapply holds_failed. }
  destruct (Z.ltb_spec fd4 0); [lia|]. apply p_bind in E as ([nb off] & S6 & [E6 _]%on_sock_view & E). apply (holds_view _ _ _ _ _ _ E6) in Hh5.
  apply p_bind in E as (r3 & S7 & E7 & E). pose proof E7 as [E7' _]%on_sock_view. apply (holds_view _ _ _ _ _ _ E7') in Hh5. clear E7'.
  assert (r3 = 0 ∨ r3 = -1) as [-> | ->]; cbn [Z.eqb negb] in E.
  - unfold on_sock in E7. destruct (p_heap S6 !! x) as [sx|]; [|done]. destruct (so_id sx) as [[k fd5]|]; [|done]. destruct (accept_new _ _ _) as [[b eb]| | | |] eqn:Ea; try done. injection E7 as <- _. by apply status_accept in Ea.
  - apply p_bind in E as (s1 & S8 & E8 & E). unfold p_sock in E8. destruct (p_heap S7 !! x) as [sx|] eqn:Ex; [|done]. injection E8 as <- <-.
    assert (so_index sx = fd4) as Hi by (pose proof (proj1 (holds_at _ _ _ _ _ Hh5)) as Hl; rewrite lookup_fmap, Ex in Hl; by injection Hl).
    rewrite Hi in E. destruct alen as [len|]; [|injection E as <- _ <-; by eapply holds_done].
    apply p_bind in E as ([z n1] & S8 & E8%name_view & E). injection E as <- _ <-. apply (holds_view _ _ _ _ _ _ E8) in Hh5. by eapply holds_done.
  - apply p_bind in E as (z & S8 & E8 & E). injection E as <- _ <-. by eapply holds_failed.
Qed.

Lemma lookup_found fd S p S1 : proc_ok S → lookup fd S = Ok (p, S1) → p ≠ 0 → 0 ≤ fd ∧ shapes S !! p = Some (fd, Some fd).
Proof.
  intros (m & Hv & Hs) E Hp. destruct (decide (0 ≤ fd)) as [Hfd|Hfd].
  - split; [done|]. rewrite (lookup_run S m _ _ _ _ fd eq_refl Hv Hfd) in E. injection E as E _. destruct (m !! fd) as [q|] eqn:Em; [|by subst]. cbn in E. subst q.
    apply (vw_table _ _ _ _ _ Hv) in Em as [_ [o Ho]]. destruct (Hs _ _ _ Ho Hp) as [_ ->]. done.
  - exfalso. unfold lookup, p_table, idm_lookup in E. change IDX_MAX_INDEX with 65535 in E. destruct (Z.leb_spec fd 65535); [|lia].
    assert (idx_array_index fd < 0) as Hneg by (unfold idx_array_index; by apply Z.shiftr_neg, Z.nle_gt).
    unfold in_bounds in E. destruct (Z.leb_spec 0 (idx_array_index fd)); [lia|done].
Qed.

Lemma close_outcome fuel fd S ret S1 : proc_ok S → close_call fuel fd S = Ok (ret, S1) →
  proc_ok S1 ∧ (ret = EBADF ∧ S1 = S ∨
    ret = 0 ∧ os_open (p_os S1) = os_open (p_os S) ∖ {[fd]} ∧ ∃ p, shapes S !! p = Some (fd, Some fd) ∧ shapes S1 = delete p (shapes S)).
Proof.
  intros Hok E. unfold close_call in E. apply p_bind in E as (p & S2 & El & E). pose proof (lookup_same _ _ _ _ El) as ->.
  destruct (Z.eqb_spec p 0) as [Hp|Hp]; [injection E as <- <-; auto|]. apply (lookup_found _ _ _ _ Hok) in El as [Hfd Hx]; [|done].
  apply p_bind in E as (u & S3 & [E3 _]%on_sock_view & E). apply p_bind in E as (u' & S4 & E4 & E). injection E as <- <-.
  pose proof (ok_view _ _ E3 Hok) as (m & Hv & Hs). injection E3 as _ E3 _ E5. apply (free_view _ m _ fd (Some fd)) in E4 as (m1 & Hv1 & Hd & _ & Ho); [|done|by rewrite E3].
  split.
  - exists m1. split; [done|]. rewrite Hd. intros q i o [_ Hq]%lookup_delete_Some. by apply (Hs q).
  - right. split; [done|]. rewrite Ho, E5. split; [done|]. exists p. split; [done|]. by rewrite Hd, E3.
Qed.

(** ** Runs of the calls, with the code that uses a socket in between *)
Context (fuel : nat).
Inductive call_step : proc K G → proc K G → Prop :=
  | cs_socket S domain protocol ret S1 : rsocket_stream fuel domain protocol S = Ok (ret, S1) → call_step S S1
  | cs_bind S fd addr ret S1 : rbind fd addr S = Ok (ret, S1) → call_step S S1
  | cs_listen S fd backlog ret S1 : rlisten fd backlog S = Ok (ret, S1) → call_step S S1
  | cs_accept S fd alen ret S1 : raccept fuel fd alen S = Ok (ret, S1) → call_step S S1
  | cs_connect S fd addr ret S1 : rconnect fd addr S = Ok (ret, S1) → call_step S S1
  | cs_close S fd ret S1 : close_call fuel fd S = Ok (ret, S1) → call_step S S1
  | cs_use S fd p (m : R K Z) ret S1 : lookup fd S = Ok (p, S) → on_sock p m S = Ok (ret, S1) → call_step S S1.

Lemma looked_view (m : Z → R K Z) fd S ret S1 :
  (p ← lookup fd; if Z.eqb p 0 then p_err EBADF else on_sock p (m p)) S = Ok (ret, S1) → view S1 = view S.
Proof.
  intros (p & S2 & ->%lookup_same & E)%p_bind. destruct (Z.eqb p 0); [by injection E as _ <-|]. by apply on_sock_view in E as [E _].
Qed.

Lemma step_ok S S1 : call_step S S1 → proc_ok S → proc_ok S1.
Proof.
  intros Hs Hok. destruct Hs as [S d pr ret S1 E|S fd addr ret S1 E|S fd b ret S1 E|S fd al ret S1 E|S fd addr ret S1 E|S fd ret S1 E|S fd p m ret S1 _ E].
  - by apply socket_outcome in E as [? _].
  - apply looked_view in E. by eapply ok_view.
  - apply looked_view in E. by eapply ok_view.
  - destruct ret as [r a]. by apply accept_outcome in E as [? _].
  - apply looked_view in E. by eapply ok_view.
  - by apply close_outcome in E as [? _].
  - apply on_sock_view in E as [E _]. by eapply ok_view.
Qed.

(** ** Creating a socket returns *)
Abbreviation rss S := (so_rs <$> p_heap S).

Lemma p_run {A B} (m : P (K := K) (G := G) A) (f : A → P B) S a S1 : m S = Ok (a, S1) → (m ≫= f) S = f a S1.
Proof. intros E. unfold mbind, P_bind. by rewrite E. Qed.
Lemma p_returns {A B} (m : P (K := K) (G := G) A) (f : A → P B) S :
  (∃ a S1, m S = Ok (a, S1) ∧ ∃ b S2, f a S1 = Ok (b, S2)) → ∃ b S2, (m ≫= f) S = Ok (b, S2).
Proof. intros (a & S1 & E & b & S2 & E2). exists b, S2. by rewrite (p_run _ _ _ _ _ E). Qed.

Lemma on_sock_returns {A} p (m : R K A) S i fd :
  shapes S !! p = Some (i, Some fd) → (∀ e, rss S !! p = Some (e_rs e) → ∃ a e1, m e = Ok (a, e1) ∧ e_rs e1 = e_rs e) →
  ∃ a S1, on_sock p m S = Ok (a, S1) ∧ rss S1 = rss S.
Proof.
  rewrite !lookup_fmap. unfold on_sock. destruct (p_heap S !! p) as [s|] eqn:Es; [|done]. cbn. unfold shape. destruct (so_id s) as [[k fd']|]; [|done]. intros _ Hm.
  destruct (Hm (mkEp (so_rs s) (so_mem s) (p_errno S) k) eq_refl) as (a & e1 & -> & Er). cbn [Prelude.rbind]. eexists _, _. split; [reflexivity|].
  cbn [p_heap e_rs]. rewrite fmap_insert. cbn [so_rs]. rewrite Er. cbn [e_rs]. apply insert_id. by rewrite lookup_fmap, Es.
Qed.

Lemma free_region_returns g (e : ep K) : ∃ e1, free_region g e = Ok ((), e1) ∧ e_rs e1 = e_rs e.
Proof. unfold free_region, mbind, R_bind, gets, dev_, dev. cbn [Prelude.rbind]. destruct (d_region g (e_k e)); by eexists. Qed.
Lemma free_list_none which n (e : ep K) : which (e_rs e) = [] → free_list which (S n) e = Ok ((), e).
Proof. intros E. cbn [free_list]. unfold mbind, R_bind, rs_get, gets. cbn [Prelude.rbind]. unfold id. by rewrite E. Qed.
Lemma free_id_returns (e : ep K) : mappings (e_rs e) = [] → fuel ≠ O → ∃ e1, free_id fuel e = Ok ((), e1) ∧ e_rs e1 = e_rs e.
Proof.
  intros [El Eq]%app_nil Hf. destruct fuel as [|n]; [done|]. unfold free_id, rs_free_iomappings, mbind, R_bind.
  rewrite (free_list_none iomap_list n e El). cbn [Prelude.rbind]. rewrite (free_list_none iomap_queue n e Eq). cbn [Prelude.rbind].
  unfold gets. cbn [Prelude.rbind]. destruct (d_has_qp (e_k e)); by eexists.
Qed.

Lemma free_returns m x i o S r : viewed m (view S) → shapes S !! x = Some (i, o) → rss S !! x = Some r → mappings r = [] → fuel ≠ O →
  ∃ u S1, rs_free fuel x S = Ok (u, S1).
Proof.
  intros Hv Hx Hr Hm Hf. unfold rs_free. apply p_returns. pose proof Hx as Hx'. rewrite lookup_fmap in Hx'. unfold p_sock.
  destruct (p_heap S !! x) as [s|] eqn:Es; [|done]. apply (inj Some) in Hx'. exists s, S. split; [done|]. apply p_returns.
  assert (∃ u S1, match so_id s with
      | Some _ => on_sock x (free_region SMR ;; free_region RMR ;; free_region TARGET_MR) ;; on_sock x (free_id fuel) ;; destroy_id x
      | None => mret () end S = Ok (u, S1) ∧ p_idm S1 = p_idm S) as (u & S1 & E & Ei).
  { destruct (so_id s) as [[k fd]|] eqn:Eid; [|by eexists _, _]. unfold shape in Hx'. rewrite Eid in Hx'. injection Hx' as <- <-.
    destruct (on_sock_returns x (free_region SMR ;; free_region RMR ;; free_region TARGET_MR) S (so_index s) fd) as (u1 & S2 & E2 & R2).
    { done. }
    { intros e _. destruct (free_region_returns SMR e) as (e1 & E1 & R1), (free_region_returns RMR e1) as (e2 & E2 & R2), (free_region_returns TARGET_MR e2) as (e3 & E3 & R3).
      exists (), e3. unfold mbind, R_bind. rewrite E1. cbn [Prelude.rbind]. rewrite E2. cbn [Prelude.rbind]. by rewrite E3, R3, R2. }
    rewrite (p_run _ _ _ _ _ E2). apply on_sock_view in E2 as [V2 _]. pose proof V2 as V2'. injection V2' as I2 H2 _ _.
    destruct (on_sock_returns x (free_id fuel) S2 (so_index s) fd) as (u2 & S3 & E3 & R3).
    { by rewrite H2. }
    { intros e He. rewrite R2, Hr in He. injection He as He. destruct (free_id_returns e) as (e1 & E1 & R1); [by rewrite <- He|done|]. eauto. }
    rewrite (p_run _ _ _ _ _ E3). apply on_sock_view in E3 as [V3 _]. injection V3 as I3 H3 _ _. unfold destroy_id.
    assert (shapes S3 !! x = Some (so_index s, Some fd)) as Hs3 by (by rewrite H3, H2). rewrite lookup_fmap in Hs3.
    destruct (p_heap S3 !! x) as [[r3 i3 m3 [[k3 fd3]|]]|]; try done. eexists _, _. split; [reflexivity|]. cbn. by rewrite I3. }
  exists u, S1. split; [done|]. apply p_returns. assert (so_index s = i) as Hi by (by injection Hx'). rewrite Hi.
  destruct (Z.leb_spec 0 i); [|eexists _, _; split; [reflexivity|]; by eexists _, _].
  assert (m !! i = Some x) as Hmi by (apply (vw_table _ _ _ _ _ Hv); eauto).
  destruct (idm_clear_ok m (p_idm S) i x (vw_idm _ _ _ _ _ Hv) Hmi) as (idm1 & Ec & _).
  unfold rs_remove, p_table, mbind, P_bind. rewrite Ei, Ec. eexists _, _. split; [reflexivity|]. by eexists _, _.
Qed.

Lemma fail_returns x i o S0 S r ret : holds x i o S0 S → rss S !! x = Some r → mappings r = [] → fuel ≠ O → ∃ b S1, fail fuel x ret S = Ok (b, S1).
Proof.
  intros Hh Hr Hm Hf. pose proof (holds_at _ _ _ _ _ Hh) as [Hx _]. destruct (hl_view _ _ _ _ _ Hh) as [m Hv].
  destruct (free_returns m x i o S r Hv Hx Hr Hm Hf) as (u & S1 & E). unfold fail. rewrite (p_run _ _ _ _ _ E). by eexists _, _.
Qed.

Lemma sys_returns {A} (f : G → A * G) S : ∃ a S1, p_sys f S = Ok (a, S1) ∧ rss S1 = rss S.
Proof. unfold p_sys. destruct (f (p_os S)) as [a g]. by eexists _, _. Qed.
Lemma configure_returns S : ∃ u S1, configure S = Ok (u, S1).
Proof.
  unfold configure. rewrite (p_run _ _ _ _ _ eq_refl). destruct (p_conf S); [by eexists _, _|]. destruct (sys_returns os_ucma_init S) as (ok & S1 & E & _).
  rewrite (p_run _ _ _ _ _ E). destruct ok; by eexists _, _.
Qed.
Lemma new_block_returns r S : ∃ a S1, new_block r S = Ok (a, S1) ∧ (a = 0 ∨ rss S1 !! a = Some r).
Proof.
  unfold new_block. destruct (sys_returns os_calloc S) as (o & S1 & E & _). rewrite (p_run _ _ _ _ _ E). destruct o as [mm|]; eexists _, _; (split; [reflexivity|]); [right|by left].
  cbn [p_heap]. by rewrite fmap_insert, lookup_insert_eq.
Qed.
Lemma give_returns x o e S r : rss S !! x = Some r → ∃ a S1, give_id x o e S = Ok (a, S1) ∧ rss S1 !! x = Some r.
Proof.
  intros Hr. destruct o as [id|]; [|by eexists _, _]. rewrite lookup_fmap in Hr. unfold give_id, p_sock, mbind, P_bind.
  destruct (p_heap S !! x) as [s|]; [|done]. eexists _, _. split; [reflexivity|]. cbn [p_heap]. by rewrite fmap_insert, lookup_insert_eq.
Qed.
Lemma insert_returns x fd S0 S r : holds x (-1) (Some fd) S0 S → rss S !! x = Some r → ∃ a S1, rs_insert x fd S = Ok (a, S1) ∧ rss S1 !! x = Some r.
Proof.
  intros Hh Hr. pose proof (holds_at _ _ _ _ _ Hh) as [Hx _]. destruct (hl_view _ _ _ _ _ Hh) as [m Hv].
  pose proof (vw_fd _ _ _ _ _ Hv _ _ _ Hx) as (Hfd & _ & _). unfold rs_insert, p_sys. destruct (os_alloc (p_os S)) as [ok g] eqn:Ea.
  destruct (idm_set_ok m (p_idm S) ok fd x (vw_idm _ _ _ _ _ Hv) Hfd) as (i & idm1 & Ei & _).
  unfold mbind, P_bind, p_table. rewrite Ea. cbn [Prelude.rbind p_idm]. rewrite Ei. cbn [Prelude.rbind]. unfold p_sock. cbn [p_heap]. rewrite lookup_fmap in Hr.
  destruct (p_heap S !! x) as [s|]; [|done]. cbn [Prelude.rbind p_put p_blocks]. unfold p_put, p_blocks. cbn [Prelude.rbind p_heap].
  destruct (Z.ltb i 0); eexists _, _; (split; [reflexivity|]); cbn [p_heap]; by rewrite fmap_insert, lookup_insert_eq.
Qed.

Lemma socket_returns domain protocol S : proc_ok S → fuel ≠ O → ∃ ret S1, rsocket_stream fuel domain protocol S = Ok (ret, S1).
Proof.
  intros Hok Hf. unfold rsocket_stream. case_match; [by eexists _, _|]. destruct (configure_returns S) as (u & S1 & E1). rewrite (p_run _ _ _ _ _ E1).
  apply configure_view in E1. apply (ok_view _ _ E1) in Hok. rewrite (p_run _ _ _ _ _ eq_refl).
  destruct (new_block_returns (from_defaults (p_defs S1)) S1) as (x & S2 & E2 & Hr). rewrite (p_run _ _ _ _ _ E2). apply holds_new in E2; [|done].
  destruct E2 as [[-> _]|[Hx Hh]]; [by eexists _, _|]. destruct (Z.eqb_spec x 0); [done|]. destruct Hr as [|Hr]; [done|].
  destruct (sys_returns os_create_id S2) as ([o e] & S3 & E3 & R3). rewrite (p_run _ _ _ _ _ E3). rewrite <- R3 in Hr.
  destruct (give_returns x o e S3 _ Hr) as (a & S4 & E4 & R4). rewrite (p_run _ _ _ _ _ E4).
  unfold p_sys in E3. destruct (os_create_id (p_os S2)) as [[o' e'] g] eqn:Eg. injection E3 as -> -> <-. apply open_create in Eg.
  apply (holds_id x o e S1 S2) in E4; try done. destruct o as [[k fd]|]; destruct E4 as [-> Hh4]; cbn [Z.eqb negb]; [|by eapply fail_returns].
  destruct (on_sock_returns x (dev_ (d_set_family domain)) S4 (-1) fd) as (u5 & S5 & E5 & R5); [by apply (holds_at _ _ _ _ _ Hh4)|by intros e1 _; eexists _, _|].
  rewrite (p_run _ _ _ _ _ E5). apply on_sock_view in E5 as [E5 _]. apply (holds_view _ _ _ _ _ _ E5) in Hh4. rewrite <- R5 in R4.
  assert (channel_fd x S5 = Ok (fd, S5)) as E6.
  { pose proof (proj1 (holds_at _ _ _ _ _ Hh4)) as Hl. rewrite lookup_fmap in Hl. unfold channel_fd. destruct (p_heap S5 !! x) as [[r i mm [[k' fd']|]]|]; try done. by injection Hl as _ <-. }
  rewrite (p_run _ _ _ _ _ E6). destruct (insert_returns _ _ _ _ _ Hh4 R4) as (a & S7 & E7 & R7). rewrite (p_run _ _ _ _ _ E7).
  destruct (Z.ltb a 0); [|by eexists _, _]. apply (holds_insert _ _ S1) in E7 as [_ [[_ Hh7]|[_ Hh7]]]; try done; by eapply fail_returns.
Qed.

(** C18. The table of sockets is exact after any calls: a descriptor leads to the live socket whose identifier has it and
    to no other, every live socket is in the table, and a descriptor without one leads nowhere.
    Creating a socket returns, and like accepting a connection it either gives a new descriptor with exactly one more socket,
    or fails and leaves no block, table entry or open descriptor behind; closing removes exactly the socket. *)
Theorem descriptors_exact S0 S : p_heap S0 = ∅ → p_idm S0 = ∅ → 0 < p_next S0 → rtc call_step S0 S →
  (∀ fd, 0 ≤ fd → ∃ p, idm_lookup fd (p_idm S) = Ok p ∧
     (p = 0 ∧ (∀ q s, p_heap S !! q = Some s → so_index s ≠ fd) ∨
      ∃ s k, p_heap S !! p = Some s ∧ so_index s = fd ∧ so_id s = Some (k, fd) ∧ fd ∈ os_open (p_os S))) ∧
  (∀ p s, p_heap S !! p = Some s → 0 ≤ so_index s ∧ idm_lookup (so_index s) (p_idm S) = Ok p) ∧
  (∀ domain protocol, fuel ≠ O → ∃ ret S1, rsocket_stream fuel domain protocol S = Ok (ret, S1) ∧ opens_sock S ret S1) ∧
  (∀ fd alen ret a S1, raccept fuel fd alen S = Ok ((ret, a), S1) → opens_sock S ret S1) ∧
  (∀ fd ret S1, close_call fuel fd S = Ok (ret, S1) → ret = EBADF ∧ S1 = S ∨
     ret = 0 ∧ os_open (p_os S1) = os_open (p_os S) ∖ {[fd]} ∧ ∃ p, shapes S !! p = Some (fd, Some fd) ∧ shapes S1 = delete p (shapes S)).
Proof.
  intros Hh Hi Hn Hr. assert (proc_ok S) as Hok.
  { assert (proc_ok S0) as H0.
    { exists ∅. unfold view, viewed. rewrite Hh, Hi, fmap_empty. split; [|done]. constructor; try done; [apply idm_empty|]. intros p i. rewrite lookup_empty.
      split; [done|]. by intros [_ [o Ho]]. }
    clear Hh Hi Hn. induction Hr as [S|S S1 S2 Hs _ IH]; [done|]. apply IH. by apply (step_ok S). }
  clear Hh Hi Hn Hr S0. pose proof Hok as (m & Hv & Hs).
  assert (∀ p s, p_heap S !! p = Some s → p ≠ 0 ∧ ∃ k, 0 ≤ so_index s ∧ so_id s = Some (k, so_index s) ∧ m !! so_index s = Some p) as Hblk.
  { intros p s Hp. assert (shapes S !! p = Some (so_index s, snd <$> so_id s)) as Hl by (by rewrite lookup_fmap, Hp).
    pose proof (vw_block _ _ _ _ _ Hv _ _ Hl). destruct (Hs _ _ _ Hl) as [H0 Ho]; [lia|]. split; [lia|]. destruct (so_id s) as [[k fd]|]; [|done].
    injection Ho as ->. exists k. split_and!; try done. apply (vw_table _ _ _ _ _ Hv). eauto. }
  split_and!.
  - intros fd Hfd. rewrite (idm_lookup_ok m) by (done || apply (vw_idm _ _ _ _ _ Hv)). eexists. split; [reflexivity|]. destruct (m !! fd) as [p|] eqn:Em.
    + right. pose proof Em as [_ [o Ho]]%(vw_table _ _ _ _ _ Hv). cbn. rewrite lookup_fmap in Ho. destruct (p_heap S !! p) as [s|] eqn:Es; [|done].
      destruct (Hblk _ _ Es) as (Hp0 & k & _ & Hid & _). apply (inj Some) in Ho. injection Ho as Hix _. exists s, k. rewrite <- Hix. split_and!; try done.
      assert (shapes S !! p = Some (so_index s, Some (so_index s))) as Hl by (rewrite lookup_fmap, Es; cbn; unfold shape; by rewrite Hid).
      by apply (vw_fd _ _ _ _ _ Hv) in Hl as (_ & ? & _).
    + left. split; [done|]. intros q s Hq <-. destruct (Hblk _ _ Hq) as (_ & k & _ & _ & Hm). congruence.
  - intros p s Hp. destruct (Hblk _ _ Hp) as (_ & k & H0 & _ & Hm). split; [done|]. rewrite (idm_lookup_ok m) by (done || apply (vw_idm _ _ _ _ _ Hv)). by rewrite Hm.
  - intros d pr Hf. destruct (socket_returns d pr S Hok Hf) as (ret & S1 & E). exists ret, S1. split; [done|]. by apply socket_outcome in E as [_ ?].
  - intros fd al ret a S1 E. by apply accept_outcome in E as [_ ?].
  - intros fd ret S1 E. by apply close_outcome in E as [_ ?].
Qed.
End Table.

(** ** A small host

    Identifiers are the connections of [RsNet] with the data of their event and the answer they sent; [peer] is what a
    connection request is answered with.  Descriptors count upwards. *)
Record cm := mkCm { c_event : rs_conn_data; c_sent : option rs_conn_data }.
Record cid := mkCid { c_cm : cm; c_rc : rc }.
Definition no_conn : rs_conn_data := mkConn 0 0 0 0 (mkRsSge 0 0 0) (mkRsSge 0 0 0).
Definition new_rc : rc := mkRc [] [] [] [] 0 0 ∅.

Definition up {A} (x : cm) (r : A * rc) : A * cid := (r.1, mkCid x r.2).
#[export] Instance cid_env : RsEnv cid := {
  d_post_send w m k := up (c_cm k) (d_post_send w m (c_rc k));
  d_post_recv w k := up (c_cm k) (d_post_recv w (c_rc k));
  d_poll_cq m k := up (c_cm k) (d_poll_cq m (c_rc k));
  d_req_notify k := mkCid (c_cm k) (d_req_notify (c_rc k));
  d_get_event m k := match d_get_event m (c_rc k) with Some (z, m, q) => Some (z, m, mkCid (c_cm k) q) | None => None end;
  d_ack_events n k := mkCid (c_cm k) (d_ack_events n (c_rc k));
  d_time k := up (c_cm k) (d_time (c_rc k))
}.
Definition cid_setup (g : regs) (peer : rs_conn_data → option rs_conn_data) : RsSetup cid :=
  let rcs := rc_setup g in {|
  d_max_qpsize k := rg_maxq g;
  d_iwarp _ := false;
  d_create_channel k := (0, k);
  d_create_cq n k := (0, k);
  d_set_nonblock k := (0, k);
  d_destroy_cq k := k;
  d_destroy_channel k := k;
  d_create_qp sq rq i k := up (c_cm k) (@d_create_qp rc rcs sq rq i (c_rc k));
  d_reg x len m k := up (c_cm k) (@d_reg rc rcs x len m (c_rc k));
  d_resolve_addr _ k := (0, k);
  d_resolve_route _ k := (0, k);
  d_set_path _ k := (0, k);
  d_complete k := (0, k);
  d_connect conn _ k := match peer conn with Some a => (0, mkCid (mkCm a (c_sent (c_cm k))) (c_rc k)) | None => (EINVAL, k) end;
  d_clear_nonblock k := k;
  d_private_data k := c_event (c_cm k)
|}.
#[export] Instance cid_close : RsClose cid := {| d_rem_keepalive k := k; d_set_flags _ k := k; d_shutdown k := k; d_free k := k |}.
#[export] Instance cid_map : RsMap cid := {| d_pd _ := true; d_reg_mr _ _ _ k := (None, ENOMEM, k); d_dereg_mr _ k := k |}.
#[export] Instance cid_cm : RsCm cid := {|
  d_set_family _ k := k; d_src_family _ := AF_INET; d_set_dst _ k := k; d_bind_addr _ k := (0, k); d_listen _ k := (0, k);
  d_private_at _ k := c_event (c_cm k); d_channel_nonblock k := k;
  d_accept conn k := (0, mkCid (mkCm (c_event (c_cm k)) (Some conn)) (c_rc k));
  d_peer_addr _ := []; d_local_addr _ := []; d_region _ _ := false; d_dereg_region _ k := k; d_has_qp _ := false; d_destroy_qp k := k
|}.

Record host := mkHost { h_fds : list Z; h_mem : mem; h_conf : string → option (option Z); h_requests : list rs_conn_data }.
Definition new_fd (l : list Z) : Z := foldr Z.max 2 l + 1.
#[export] Instance host_os : RsOs cid host := {|
  os_calloc h := (Some (h_mem h), h);
  os_alloc h := (true, h);
  os_ucma_init h := (true, h);
  os_conf h := h_conf h;
  os_create_id h := let fd := new_fd (h_fds h) in
    (Some (mkCid (mkCm no_conn None) new_rc, fd), 0, mkHost (fd :: h_fds h) (h_mem h) (h_conf h) (h_requests h));
  os_get_request k h := match h_requests h with
    | [] => (None, EAGAIN, k, h)
    | c :: l => let fd := new_fd (h_fds h) in (Some (mkCid (mkCm c None) new_rc, fd), 0, k, mkHost (fd :: h_fds h) (h_mem h) (h_conf h) l)
    end;
  os_destroy_id k fd h := mkHost (filter (λ x, x ≠ fd) (h_fds h)) (h_mem h) (h_conf h) (h_requests h)
|}.

Lemma new_fd_fresh l : 2 < new_fd l ∧ Forall (λ x, x < new_fd l) l.
Proof.
  unfold new_fd. induction l as [|x l [H IH]]; cbn [foldr]; [split; [lia|done]|]. split; [lia|]. constructor; [lia|]. eapply list.Forall_impl; [exact IH|]. cbn. lia.
Qed.
Lemma new_fd_open l : 0 ≤ new_fd l ∧ (new_fd l ∉ (list_to_set l : gset Z)) ∧ (list_to_set (new_fd l :: l) : gset Z) = {[new_fd l]} ∪ list_to_set l.
Proof.
  destruct (new_fd_fresh l) as [H1 H2]. split; [lia|]. split; [|done]. rewrite elem_of_list_to_set. intros Hin. rewrite list.Forall_forall in H2. apply H2 in Hin. lia.
Qed.
#[export] Program Instance host_laws : RsOsLaws cid host := {| os_open h := list_to_set (h_fds h) |}.
Next Obligation. by intros h o h1 [= _ <-]. Qed.
Next Obligation. by intros h o h1 [= _ <-]. Qed.
Next Obligation. by intros h o h1 [= _ <-]. Qed.
Next Obligation. intros h o e h1 [= <- _ <-]. apply new_fd_open. Qed.
Next Obligation.
  intros k h o e k1 h1. cbn. destruct (h_requests h); [by intros [= <- _ _ <-]|]. intros [= <- _ _ <-]. apply new_fd_open.
Qed.
Next Obligation.
  intros k fd h. apply set_eq. intros x. cbn. rewrite elem_of_difference, !elem_of_list_to_set, list_elem_of_filter, elem_of_singleton. tauto.
Qed.

Definition start_proc (h : host) (errno : Z) : proc cid host := mkProc ∅ ∅ 1 false rs_initial errno h.
Definition demo_host : host := mkHost [] (λ _, 0) (λ _, None) [].
Definition demo_cid : RsSetup cid := cid_setup (mkRegs 1000 (λ _, 0) (λ _, 0) (λ _, 0)) (λ _, None).

Lemma descriptors_exact_witness :
  ∃ S1, @rsocket_stream cid host _ _ _ _ 1 AF_INET 0 (start_proc demo_host 0) = Ok (3, S1) ∧ opens_sock (start_proc demo_host 0) 3 S1 ∧
    ∀ p s, p_heap S1 !! p = Some s → 0 ≤ so_index s ∧ idm_lookup (so_index s) (p_idm S1) = Ok p.
Proof.
  assert (match @rsocket_stream cid host _ _ _ _ 1 AF_INET 0 (start_proc demo_host 0) with Ok (ret, _) => ret = 3 | _ => False end) as H3 by (vm_compute; reflexivity).
  destruct (@descriptors_exact cid host _ demo_cid _ _ _ _ _ 1%nat (start_proc demo_host 0) (start_proc demo_host 0)) as (_ & _ & Hs & _); [done|done|done|apply rtc_refl|].
  destruct (Hs AF_INET 0) as (ret & S1 & E & Ho); [done|]. rewrite E in H3. subst ret. exists S1. split; [done|]. split; [done|].
  destruct (@descriptors_exact cid host _ demo_cid _ _ _ _ _ 1%nat (start_proc demo_host 0) S1) as (_ & H2 & _); [done|done|done|apply rtc_once; by eapply (@cs_socket cid host _ demo_cid)|].
  exact H2.
Defined.
