(* ===== verification/RsHandshake.v ===== *)
(** * rsocket: from the calls to a connection

    A client that calls [rsocket] and [rconnect] and a server that calls [rsocket], [rbind], [rlisten] and [raccept] end with two
    sockets in the state from which the theorems of [RsLive] and [RsApi] start. *)

From S2P Require Import Prelude Layout FfTypes Attrs Request Indexer Cma CmaConn Rsocket RsNet RsItems RsStream RsSteps RsPoll RsConn RsSafe RsIo RsIomap RsAccept.

#[local] Arguments load_sge : simpl never.
#[local] Arguments store_sge : simpl never.
#[local] Arguments poke : simpl never.
#[local] Arguments rs_msg_set : simpl never.

(** ** Endpoints over an identifier *)

(** The endpoint [rs_create_ep] makes. *)
Definition made (g : regs) (r : rsocket) (m : mem) (er : Z) : ep rc :=
  let c := ep_cfg g r in
  mkEp (fresh_rs c) (poke (target_sgl c) (replicate (Z.to_nat (target_len (fresh_rs c))) 0) m) er
    (with_recv (replicate (Z.to_nat (rq_size c)) (mkRecv (rs_recv_wr_id 0) None)) (mkRc [] [] [] [] (sq_size c) (rq_size c) (fresh_mrs g c))).

Lemma create_made u : setup_ok u → create u = Ok (0, made (su_regs u) (su_rs u) (su_mem u) (su_errno u)).
Proof.
  intros [Hc _ _ _]. unfold create, su_rs. pose proof (create_ep_unfold (su_regs u) (su_sbuf u) (su_rbuf u) (su_sq u) (su_rq u) (su_inline u) (su_iomap u) (su_mem u) (su_errno u)) as E.
  cbv zeta in E. rewrite E. clear E. pose proof (ok_rq _ Hc) as Hrq. unfold RS_QP_MIN_SIZE in Hrq. unfold made. fold (su_rs u) in *. set (c := ep_cfg (su_regs u) (su_rs u)) in *. clearbody c.
  rewrite repost_fresh; [done|done|done|]. cbn [e_k q_recv q_max_recv]. rewrite lenZ_nil. lia.
Qed.

Lemma repost_cid n x : ∀ r m er k, msg_send r = false → q_cq k = [] → lenZ (q_recv k) + Z.of_nat n ≤ q_max_recv k →
  repost n (mkEp r m er (mkCid x k)) = Ok (0, mkEp r m er (mkCid x (with_recv (q_recv k ++ replicate n (mkRecv (rs_recv_wr_id 0) None)) k))).
Proof.
  induction n as [|n IH]; intros r m er k Hm Hq Hn; cbn [repost].
  - unfold mret, R_ret. rewrite app_nil_r. by destruct k.
  - unfold rs_post_recv. rs_unfold. rewrite Hm. cbn [negb Prelude.rbind d_post_recv cid_env rc_env c_rc c_cm up].
    assert (recvs_used k < q_max_recv k) as Hu by (unfold recvs_used; rewrite Hq; cbn; unfold lenZ in *; cbn; lia).
    unfold up. cbn [e_k c_rc c_cm]. destruct (Z.ltb_spec (recvs_used k) (q_max_recv k)); [|lia]. cbn [Z.eqb Prelude.rbind fst snd e_rs e_mem e_errno]. unfold mret, R_ret.
    cbn [Z.eqb Prelude.rbind].
    rewrite IH; cbn [with_recv q_cq q_recv q_max_recv]; try done; [|rewrite lenZ_snoc; lia]. do 4 f_equal. unfold with_recv. cbn. by rewrite <- app_assoc.
Qed.

(** Connecting counts its tries before the endpoint is made. *)
Lemma create_cid g peer n sb rb sq rq inl io m er x :
  let r := rs_alloc sb rb sq rq inl io in let e := made g r m er in
  cfg_ok (ep_cfg g r) →
  @rs_create_ep cid _ (cid_setup g peer) (mkEp (set_conn n None r) m er (mkCid x new_rc)) =
    Ok (0, mkEp (set_conn n None (e_rs e)) (e_mem e) er (mkCid x (e_k e))).
Proof.
  intros r e Hc. pose proof (ok_rq _ Hc) as Hrq. unfold RS_QP_MIN_SIZE in Hrq.
  assert (@rs_create_ep cid _ (cid_setup g peer) (mkEp (set_conn n None r) m er (mkCid x new_rc)) =
    repost (Z.to_nat (rq_size (ep_cfg g r))) (mkEp (set_conn n None (e_rs e)) (e_mem e) er
      (mkCid x (mkRc [] [] [] [] (sq_size (ep_cfg g r)) (rq_size (ep_cfg g r)) (fresh_mrs g (ep_cfg g r)))))) as ->.
  { reflexivity. }
  subst e. unfold made. set (c := ep_cfg g r) in *. clearbody c. rewrite repost_cid; [done|done|done|]. cbn [q_recv q_max_recv]. rewrite lenZ_nil. lia.
Qed.

(** Saving the peer's data does not touch the identifier, and leaves what the socket says about itself. *)
Lemma save_cid conn (e : ep rc) : ∃ r1 m1, rs_save_conn_data conn e = Ok ((), mkEp r1 m1 (e_errno e) (e_k e)) ∧
  (∀ x, rs_save_conn_data conn (mkEp (e_rs e) (e_mem e) (e_errno e) (mkCid x (e_k e))) = Ok ((), mkEp r1 m1 (e_errno e) (mkCid x (e_k e)))) ∧
  rs_format_conn_data r1 = rs_format_conn_data (e_rs e).
Proof.
  unfold rs_save_conn_data. rs_unfold. cbn [rs_host_is_net xorb]. destruct (has (cn_flags conn) RS_CONN_FLAG_NET); eexists _, _; (split; [reflexivity|]); by split.
Qed.

(** Up to the endpoint only the tries are counted. *)
Lemma resolve_run g peer r m er x k : retries r = 0 → optval r = None →
  @at_resolve_addr cid _ (cid_setup g peer) (mkEp r m er (mkCid x k)) = @at_do_connect cid _ (cid_setup g peer) (mkEp (set_conn 2 None r) m er (mkCid x k)).
Proof.
  intros Hr Ho. unfold at_resolve_addr, at_resolve_route, at_query_route, next_try, call, seterrno. rs_unfold. rewrite Hr, Ho.
  cbn [Prelude.rbind Z.eqb d_resolve_addr d_resolve_route cid_setup set_conn retries optval e_rs e_mem e_errno e_k]. reflexivity.
Qed.

(** [rconnect] with a peer that answers. *)
Lemma connect_run g peer sb rb sq rq inl io m er x ans :
  let r := rs_alloc sb rb sq rq inl io in let e := made g r m er in
  cfg_ok (ep_cfg g r) → peer (rs_format_conn_data (e_rs e)) = Some ans → cn_version ans = 1 →
  ∃ r1 m1, rs_save_conn_data ans e = Ok ((), mkEp r1 m1 er (e_k e)) ∧
    @rs_do_connect cid _ (cid_setup g peer) (mkEp r m er (mkCid x new_rc)) =
      Ok (0, mkEp (set_state rs_connect_rdwr (rs_err r1) r1) m1 er (mkCid (mkCm ans (c_sent x)) (e_k e))).
Proof.
  intros r e Hc Hp Hv. destruct (save_cid ans e) as (r1 & m1 & Es & Ec & _). exists r1, m1. split; [done|].
  unfold rs_do_connect. unfold mbind, R_bind, rs_get, gets. cbn [Prelude.rbind e_rs].
  change (state r) with rs_init. unfold connect_step. cbn [Z.eqb rs_init orb].
  rewrite resolve_run by done. unfold at_do_connect, at_connected. unfold mbind, R_bind.
  pose proof (create_cid g peer 2 sb rb sq rq inl io m er x Hc) as Ecr. cbv zeta in Ecr. fold r in Ecr. fold e in Ecr. rewrite Ecr. clear Ecr. cbn [Prelude.rbind Z.eqb negb].
  unfold rs_get, gets, id. cbn [Prelude.rbind e_rs].
  assert (∀ k : cid, @reset_tries cid (mkEp (set_conn 2 None (e_rs e)) (e_mem e) er k) = Ok ((), mkEp (e_rs e) (e_mem e) er k)) as -> by reflexivity.
  cbn [Prelude.rbind]. change (rs_format_conn_data (set_conn 2 None (e_rs e))) with (rs_format_conn_data (e_rs e)).
  assert (∀ z, call (@d_connect cid (cid_setup g peer) (rs_format_conn_data (e_rs e)) z) (mkEp (e_rs e) (e_mem e) er (mkCid x (e_k e))) =
    Ok (0, mkEp (e_rs e) (e_mem e) er (mkCid (mkCm ans (c_sent x)) (e_k e)))) as ->.
  { intros z. unfold call, seterrno. rs_unfold. cbn [d_connect cid_setup]. rewrite Hp. reflexivity. }
  cbn [Prelude.rbind Z.eqb d_private_data cid_setup e_k c_cm c_event]. rewrite Hv. cbn [Z.eqb Pos.eqb negb].
  change (e_errno e) with er in Ec. rewrite Ec. reflexivity.
Qed.

(** [raccept] from the version on. *)
Lemma accept_run g peer sb rb sq rq inl io m er x nb off :
  let r := rs_alloc sb rb sq rq inl io in let e := made g r m er in
  cfg_ok (ep_cfg g r) → cn_version (c_event x) = 1 →
  ∃ r1 m1, rs_save_conn_data (c_event x) e = Ok ((), mkEp r1 m1 er (e_k e)) ∧
    @accept_new cid _ (cid_setup g peer) _ nb off (mkEp r m er (mkCid x new_rc)) =
      Ok (0, mkEp (set_state rs_connect_rdwr (rs_err r1) r1) m1 er (mkCid (mkCm (c_event x) (Some (rs_format_conn_data (e_rs e)))) (e_k e))).
Proof.
  intros r e Hc Hv. destruct (save_cid (c_event x) e) as (r1 & m1 & Es & Ec & Ef). exists r1, m1. split; [done|].
  unfold accept_new, accept_id. unfold mbind, R_bind, gets. cbn [Prelude.rbind d_private_at cid_cm e_k c_cm]. rewrite Hv. cbn [Z.eqb Pos.eqb negb].
  assert ((if nb then dev_ d_channel_nonblock else mret ()) (mkEp r m er (mkCid x new_rc)) = Ok ((), mkEp r m er (mkCid x new_rc))) as -> by (by destruct nb).
  cbn [Prelude.rbind]. pose proof (create_cid g peer 0 sb rb sq rq inl io m er x Hc) as Ecr. cbv zeta in Ecr. fold r in Ecr. fold e in Ecr.
  change (set_conn 0 None r) with r in Ecr. rewrite Ecr. clear Ecr. cbn [Prelude.rbind Z.eqb negb]. change (set_conn 0 None (e_rs e)) with (e_rs e).
  change (e_errno e) with er in Ec. rewrite Ec. cbn [Prelude.rbind]. unfold rs_get, gets, id. cbn [Prelude.rbind e_rs]. rewrite Ef. reflexivity.
Qed.

(** ** Runs over a process *)
Section Runs.
Context (g : regs) (peer : rs_conn_data → option rs_conn_data) (fuel : nat).
#[local] Instance side_setup : RsSetup cid := cid_setup g peer.

(** One call of a process whose result is known by computation. *)
Ltac p_exec m S a S1 := let E := fresh in assert (m S = Ok (a, S1)) as E by reflexivity; rewrite (p_run _ _ _ _ _ E); clear E.

Definition with_sock (p : Z) (s : sock cid) (errno : Z) (S : proc cid host) : proc cid host :=
  mkProc (p_idm S) (<[p := s]> (p_heap S)) (p_next S) (p_conf S) (p_defs S) errno (p_os S).

Lemma on_sock_run {A} p (m : R cid A) S s k fd a e : p_heap S !! p = Some s → so_id s = Some (k, fd) →
  m (mkEp (so_rs s) (so_mem s) (p_errno S) k) = Ok (a, e) →
  on_sock p m S = Ok (a, with_sock p (mkSock (e_rs e) (so_index s) (e_mem e) (Some (e_k e, fd))) (e_errno e) S).
Proof. intros Hp Hid E. unfold on_sock. by rewrite Hp, Hid, E. Qed.

Definition configured (h : host) : rs_defaults := rs_configure (h_conf h) rs_initial.
Definition new_cid (c : rs_conn_data) : cid := mkCid (mkCm c None) new_rc.

(** The process after its first socket. *)
Definition with_first (h : host) (er : Z) (idm : index_map) (r : rsocket) (k : cid) (m : mem) : proc cid host :=
  let fd := new_fd (h_fds h) in
  mkProc idm {[1 := mkSock r fd m (Some (k, fd))]} 2 true (configured h) er (mkHost (fd :: h_fds h) (h_mem h) (h_conf h) (h_requests h)).

Lemma socket_run h er : new_fd (h_fds h) ≤ 65535 → ∃ idm, idm_ok {[new_fd (h_fds h) := 1]} idm ∧
  @rsocket_stream cid host _ _ _ _ fuel AF_INET 0 (start_proc h er) =
    Ok (new_fd (h_fds h), with_first h er idm (from_defaults (configured h)) (new_cid no_conn) (h_mem h)).
Proof.
  intros Hfd. destruct (new_fd_fresh (h_fds h)) as [H2 _]. set (fd := new_fd (h_fds h)) in *.
  destruct (idm_set_ok ∅ ∅ true fd 1 idm_empty) as (i & idm & Ei & [(-> & _ & Hm)|(_ & [?|?] & _)]); [lia| |lia|done].
  exists idm. split; [done|]. unfold rsocket_stream. cbn [Z.eqb AF_INET Pos.eqb orb negb andb].
  set (r := from_defaults (configured h)). set (h1 := mkHost (fd :: h_fds h) (h_mem h) (h_conf h) (h_requests h)).
  set (S1 := mkProc ∅ ∅ 1 true (configured h) er h : proc cid host). set (S2 := mkProc ∅ {[1 := mkSock r (-1) (h_mem h) None]} 2 true (configured h) er h : proc cid host).
  set (S3 := mkProc ∅ {[1 := mkSock r (-1) (h_mem h) None]} 2 true (configured h) er h1 : proc cid host).
  set (S4 := mkProc ∅ {[1 := mkSock r (-1) (h_mem h) (Some (new_cid no_conn, fd))]} 2 true (configured h) er h1).
  p_exec (configure (K := cid) (G := host)) (start_proc h er) tt S1. p_exec (p_get (K := cid) (G := host) p_defs) S1 (configured h) S1.
  fold r. p_exec (new_block (K := cid) (G := host) r) S1 1 S2. cbn [Z.eqb]. p_exec (p_sys (K := cid) (G := host) os_create_id) S2 (Some (new_cid no_conn, fd), 0) S3.
  p_exec (give_id (G := host) 1 (Some (new_cid no_conn, fd)) 0) S3 0 S4. cbn [Z.eqb negb].
  p_exec (on_sock (K := cid) (G := host) 1 (dev_ (d_set_family AF_INET))) S4 tt S4. p_exec (channel_fd (K := cid) (G := host) 1) S4 fd S4.
  assert (rs_insert 1 fd S4 = Ok (fd, with_first h er idm r (new_cid no_conn) (h_mem h))) as Ein.
  { unfold rs_insert. p_exec (p_sys (K := cid) (G := host) os_alloc) S4 true S4.
    rewrite (p_run (p_table (idm_set true fd 1)) _ S4 fd (mkProc idm (p_heap S4) 2 true (configured h) er h1)); [|unfold p_table; cbn [p_idm S4]; by rewrite Ei].
    unfold mbind, P_bind, p_sock, p_put, p_blocks. cbn [p_heap S4]. rewrite lookup_singleton_eq. cbn [Prelude.rbind p_heap so_rs so_mem so_id]. 
    destruct (Z.ltb_spec fd 0); [lia|]. cbn. unfold with_first. fold fd. do 3 f_equal. }
  rewrite (p_run _ _ _ _ _ Ein). destruct (Z.ltb_spec fd 0); [lia|done].
Qed.

Lemma lookup_first h er idm r k m : idm_ok {[new_fd (h_fds h) := 1]} idm →
  lookup (K := cid) (G := host) (new_fd (h_fds h)) (with_first h er idm r k m) = Ok (1, with_first h er idm r k m).
Proof.
  intros Hm. destruct (new_fd_fresh (h_fds h)) as [H2 _]. unfold lookup, p_table. cbn [p_idm with_first]. rewrite (idm_lookup_ok _ _ _ Hm) by lia.
  by rewrite lookup_singleton_eq.
Qed.
Lemma use_first {A} (f : R cid A) h er idm r k m a e : f (mkEp r m er k) = Ok (a, e) →
  on_sock 1 f (with_first h er idm r k m) = Ok (a, with_first h (e_errno e) idm (e_rs e) (e_k e) (e_mem e)).
Proof. intros E. erewrite on_sock_run; [|by apply lookup_singleton_eq|reflexivity|exact E]. reflexivity. Qed.

(** ** The client *)
Definition client (addr : list Z) : P (K := cid) (G := host) (Z * Z) :=
  fd ← rsocket_stream fuel AF_INET 0; ret ← rconnect fd addr; mret (fd, ret).

Definition client_made (h : host) (er : Z) : ep rc := made g (from_defaults (configured h)) (h_mem h) er.

Lemma client_run h er addr ans : new_fd (h_fds h) ≤ 65535 → cfg_ok (ep_cfg g (from_defaults (configured h))) →
  peer (rs_format_conn_data (e_rs (client_made h er))) = Some ans → cn_version ans = 1 →
  ∃ idm r1 m1, idm_ok {[new_fd (h_fds h) := 1]} idm ∧ rs_save_conn_data ans (client_made h er) = Ok ((), mkEp r1 m1 er (e_k (client_made h er))) ∧
    client addr (start_proc h er) = Ok ((new_fd (h_fds h), 0),
      with_first h er idm (set_state rs_connect_rdwr (rs_err r1) r1) (mkCid (mkCm ans None) (e_k (client_made h er))) m1).
Proof.
  intros Hfd Hc Hp Hv. destruct (socket_run h er Hfd) as (idm & Hm & Es). unfold client. rewrite (p_run _ _ _ _ _ Es).
  set (d := configured h) in *.
  destruct (connect_run g peer (def_wmem d) (def_mem d) (def_sqsize d) (def_rqsize d) (def_inline d) (def_iomap_size d) (h_mem h) er (mkCm no_conn None) ans Hc Hp Hv)
    as (r1 & m1 & Esv & Ec). exists idm, r1, m1. split; [done|]. split; [exact Esv|].
  unfold rconnect, mbind, P_bind. rewrite lookup_first by done. cbn [Prelude.rbind Z.eqb].
  erewrite use_first; [|unfold mbind, R_bind; cbn [Prelude.rbind dev_ dev]; exact Ec]. reflexivity.
Qed.

(** ** The server *)
Definition server (addr : list Z) (backlog : Z) : P (K := cid) (G := host) Z :=
  fd ← rsocket_stream fuel AF_INET 0;
  rbind fd addr ;; rlisten fd backlog ;;
  '(c, _) ← raccept fuel fd None; mret c.

(** The socket [raccept] allocates. *)
Definition heir (d : rs_defaults) : rsocket := rs_alloc (def_wmem d) (def_mem d) (def_sqsize d) (def_rqsize d) 0 (def_iomap_size d).
Definition server_made (h : host) (er : Z) : ep rc := made g (heir (configured h)) (h_mem h) er.

Lemma listen_run h er addr backlog : new_fd (h_fds h) ≤ 65535 → ∃ idm, idm_ok {[new_fd (h_fds h) := 1]} idm ∧
  server addr backlog (start_proc h er) = ('(c, _) ← raccept fuel (new_fd (h_fds h)) None; mret c)
    (with_first h er idm (set_state rs_listening 0 (from_defaults (configured h))) (new_cid no_conn) (h_mem h)).
Proof.
  intros Hfd. destruct (socket_run h er Hfd) as (idm & Hm & Es). exists idm. split; [done|]. unfold server. rewrite (p_run _ _ _ _ _ Es).
  unfold rbind, rlisten. unfold mbind at 1, P_bind at 1. unfold mbind at 1, P_bind at 1. rewrite lookup_first by done. cbn [Prelude.rbind Z.eqb].
  erewrite use_first; [|reflexivity]. cbn [Prelude.rbind e_errno e_rs e_k e_mem].
  unfold mbind at 1, P_bind at 1. unfold mbind at 1, P_bind at 1. rewrite lookup_first by done. cbn [Prelude.rbind Z.eqb].
  erewrite use_first; [|reflexivity]. cbn [Prelude.rbind e_errno e_rs e_k e_mem]. reflexivity.
Qed.

Definition second_fd (h : host) : Z := new_fd (new_fd (h_fds h) :: h_fds h).

Lemma second_fd_eq h : second_fd h = new_fd (h_fds h) + 1.
Proof. unfold second_fd, new_fd. cbn [foldr]. pose proof (Z.le_max_r (foldr Z.max 2 (h_fds h) + 1) (foldr Z.max 2 (h_fds h))). lia. Qed.

Lemma raccept_run h er idm conn l : h_requests h = conn :: l → cn_version conn = 1 → new_fd (h_fds h) < 65535 → idm_ok {[new_fd (h_fds h) := 1]} idm →
  cfg_ok (ep_cfg g (heir (configured h))) →
  let lr := set_state rs_listening 0 (from_defaults (configured h)) in let e := server_made h er in
  ∃ idm2 r1 m1, idm_ok (<[second_fd h := 2]> {[new_fd (h_fds h) := 1]}) idm2 ∧ rs_save_conn_data conn e = Ok ((), mkEp r1 m1 er (e_k e)) ∧
    raccept fuel (new_fd (h_fds h)) None (with_first h er idm lr (new_cid no_conn) (h_mem h)) = Ok ((second_fd h, None),
      mkProc idm2 (<[2 := mkSock (set_state rs_connect_rdwr (rs_err r1) r1) (second_fd h) m1
                            (Some (mkCid (mkCm conn (Some (rs_format_conn_data (e_rs e)))) (e_k e), second_fd h))]>
                   {[1 := mkSock lr (new_fd (h_fds h)) (h_mem h) (Some (new_cid no_conn, new_fd (h_fds h)))]}) 3 true (configured h) er
             (mkHost (second_fd h :: new_fd (h_fds h) :: h_fds h) (h_mem h) (h_conf h) l)).
Proof.
  intros Hq Hv Hfd Hm Hc lr e. pose proof (second_fd_eq h) as H2. destruct (new_fd_fresh (h_fds h)) as [H3 _].
  set (fd := new_fd (h_fds h)) in *. set (d := configured h) in *. set (fd2 := second_fd h) in *.
  destruct (idm_set_ok _ _ true fd2 2 Hm) as (i & idm2 & Ei & [(-> & _ & Hm2)|(_ & [?|?] & _)]); [lia| |lia|done].
  destruct (accept_run g peer (def_wmem d) (def_mem d) (def_sqsize d) (def_rqsize d) 0 (def_iomap_size d) (h_mem h) er (mkCm conn None) false 0 Hc Hv) as (r1 & m1 & Es & Ea).
  exists idm2, r1, m1. split; [done|]. split; [exact Es|]. pose proof (lookup_first h er idm lr (new_cid no_conn) (h_mem h) Hm) as El. fold fd in El. unfold raccept. rewrite (p_run _ _ _ _ _ El). cbn [Z.eqb].
  set (s1 := mkSock lr fd (h_mem h) (Some (new_cid no_conn, fd))).
  set (h1 := mkHost (fd :: h_fds h) (h_mem h) (h_conf h) (h_requests h)). set (h2 := mkHost (fd2 :: fd :: h_fds h) (h_mem h) (h_conf h) l).
  set (S0 := with_first h er idm lr (new_cid no_conn) (h_mem h)).
  set (S1 := mkProc idm (<[2 := mkSock (heir d) (-1) (h_mem h) None]> {[1 := s1]}) 3 true d er h1).
  set (S2 := mkProc idm (<[2 := mkSock (heir d) (-1) (h_mem h) (Some (new_cid conn, fd2))]> {[1 := s1]}) 3 true d er h2).
  set (S3 := mkProc idm2 (<[2 := mkSock (heir d) fd2 (h_mem h) (Some (new_cid conn, fd2))]> {[1 := s1]}) 3 true d er h2).
  p_exec (p_sock (K := cid) (G := host) 1) S0 s1 S0. p_exec (new_block (K := cid) (G := host) (inherit (so_rs s1))) S0 2 S1. cbn [Z.eqb].
  assert (get_request 1 2 S1 = Ok (0, S2)) as Eg.
  { unfold get_request. change (p_heap S1 !! 1) with (Some s1). unfold s1. cbn [os_get_request host_os p_os S1 h_requests h1]. rewrite Hq. reflexivity. }
  rewrite (p_run _ _ _ _ _ Eg). cbn [Z.eqb negb]. p_exec (channel_fd (K := cid) (G := host) 2) S2 fd2 S2.
  assert (rs_insert 2 fd2 S2 = Ok (fd2, S3)) as Ein.
  { unfold rs_insert. p_exec (p_sys (K := cid) (G := host) os_alloc) S2 true S2.
    rewrite (p_run (p_table (idm_set true fd2 2)) _ S2 fd2 (mkProc idm2 (p_heap S2) 3 true d er h2)); [|unfold p_table; cbn [p_idm S2]; by rewrite Ei].
    unfold mbind, P_bind, p_sock, p_put, p_blocks. cbn [p_heap S2]. rewrite lookup_insert_eq. cbn [Prelude.rbind p_heap so_rs so_mem so_id].
    destruct (Z.ltb_spec fd2 0); [lia|]. cbn. do 3 f_equal. }
  rewrite (p_run _ _ _ _ _ Ein). destruct (Z.ltb_spec fd2 0); [lia|].
  p_exec (on_sock (K := cid) (G := host) 1 (gets (λ e, (has (fd_flags (e_rs e)) O_NONBLOCK, rs_conn_data_offset (e_k e))))) S3 (false, 0) S3.
  erewrite (p_run (on_sock 2 (accept_new false 0))); [|eapply on_sock_run; [apply lookup_insert_eq|reflexivity|exact Ea]]. cbn [Z.eqb negb].
  unfold with_sock. cbn [p_idm p_heap p_next p_conf p_defs p_os S3 e_rs e_mem e_k e_errno so_index]. rewrite insert_insert_eq.
  unfold mbind, P_bind, p_sock. cbn [p_heap]. rewrite lookup_insert_eq. reflexivity.
Qed.
End Runs.

(** ** The connection *)
Definition with_request (conn : rs_conn_data) (h : host) : host := mkHost (h_fds h) (h_mem h) (h_conf h) [conn].

(** The socket behind a descriptor, and its endpoint. *)
Definition sock_at (S : proc cid host) (fd : Z) : option (sock cid) :=
  match idm_lookup fd (p_idm S) with Ok p => p_heap S !! p | _ => None end.
Definition ep_at (S : proc cid host) (fd : Z) : option (ep rc) :=
  s ← sock_at S fd; id ← so_id s; Some (mkEp (so_rs s) (so_mem s) (p_errno S) (c_rc id.1)).

(** What a server answers a request with, if it accepts it. *)
Definition answer (g : regs) (fuel : nat) (h : host) (er : Z) (addr : list Z) (backlog : Z) (conn : rs_conn_data) : option rs_conn_data :=
  match server g (λ _, None) fuel addr backlog (start_proc (with_request conn h) er) with
  | Ok (fd, W) => s ← sock_at W fd; id ← so_id s; c_sent (c_cm id.1)
  | _ => None
  end.

Definition client_setup (g : regs) (h : host) (er : Z) : setup :=
  let d := configured h in mkSetup g (def_wmem d) (def_mem d) (def_sqsize d) (def_rqsize d) (def_inline d) (def_iomap_size d) (h_mem h) er.
Definition server_setup (g : regs) (h : host) (er : Z) : setup :=
  let d := configured h in mkSetup g (def_wmem d) (def_mem d) (def_sqsize d) (def_rqsize d) 0 (def_iomap_size d) (h_mem h) er.

Lemma join_saved (a b : ep rc) r1 m1 : rs_save_conn_data (rs_format_conn_data (e_rs b)) a = Ok ((), mkEp r1 m1 (e_errno a) (e_k a)) →
  join a b = Ok (mkEp (set_state rs_connect_rdwr (rs_err r1) r1) m1 (e_errno a) (e_k a)).
Proof. intros E. unfold join, mbind, R_bind. by rewrite E. Qed.

Lemma ep_at_first h er idm r k m : idm_ok {[new_fd (h_fds h) := 1]} idm → ep_at (with_first h er idm r k m) (new_fd (h_fds h)) = Some (mkEp r m er (c_rc k)).
Proof.
  intros Hm. destruct (new_fd_fresh (h_fds h)) as [H2 _]. unfold ep_at, sock_at. cbn [p_idm with_first]. rewrite (idm_lookup_ok _ _ _ Hm) by lia. by rewrite lookup_singleton_eq.
Qed.

Lemma server_run g fuel h er addr backlog conn : setup_ok (server_setup g h er) → new_fd (h_fds h) < 65535 → cn_version conn = 1 →
  ∃ fb SB r1 m1, rs_save_conn_data conn (server_made g h er) = Ok ((), mkEp r1 m1 er (e_k (server_made g h er))) ∧
    server g (λ _, None) fuel addr backlog (start_proc (with_request conn h) er) = Ok (fb, SB) ∧
    ep_at SB fb = Some (mkEp (set_state rs_connect_rdwr (rs_err r1) r1) m1 er (e_k (server_made g h er))) ∧
    answer g fuel h er addr backlog conn = Some (rs_format_conn_data (e_rs (server_made g h er))).
Proof.
  intros [Hc _ _ _] Hfd Hv. destruct (listen_run g (λ _, None) fuel (with_request conn h) er addr backlog) as (idm & Hm & El); [cbn; lia|].
  destruct (raccept_run g (λ _, None) fuel (with_request conn h) er idm conn [] eq_refl Hv Hfd Hm Hc) as (idm2 & r1 & m1 & Hm2 & Es & Ea).
  assert (server_made g (with_request conn h) er = server_made g h er) as Esm by reflexivity. rewrite Esm in Es, Ea. clear Esm. set (b := server_made g h er) in *. clearbody b.
  rewrite (p_run _ _ _ _ _ Ea) in El. unfold mret, P_ret in El. cbv beta iota in El. eexists _, _, r1, m1. split; [exact Es|]. split; [exact El|].
  pose proof (second_fd_eq (with_request conn h)) as Hs. destruct (new_fd_fresh (h_fds h)) as [H3 _]. cbn [with_request h_fds] in Hs, Hm2.
  unfold answer. rewrite El. cbv beta iota. unfold ep_at, sock_at. cbn [p_idm p_heap]. rewrite (idm_lookup_ok _ _ _ Hm2) by lia. rewrite lookup_insert_eq. cbn [default from_option].
  unfold id. rewrite lookup_insert_eq. split; reflexivity.
Qed.


Definition demo_regs : regs :=
  mkRegs 1000 (λ x, match x with SMR => 0x100000 | TARGET_MR => 0x200000 | RMR => 0x300000 end) (λ x, match x with SMR => 1 | TARGET_MR => 2 | RMR => 3 end)
         (λ x, match x with SMR => 11 | TARGET_MR => 12 | RMR => 13 end).
Lemma demo_client_ok : setup_ok (client_setup demo_regs demo_host 0).
Proof. constructor; [constructor|..]; vm_compute; intuition congruence. Qed.
Lemma demo_server_ok : setup_ok (server_setup demo_regs demo_host 0).
Proof. constructor; [constructor|..]; vm_compute; intuition congruence. Qed.

