(* ===== verification/RsService.v ===== *)
(** * rsocket: the keep-alive service

    [librdmacm/src/rsocket.c]: a thread keeps the sockets that want keep-alive messages and when each is due.  [rs_notify_svc] sends it
    a command and waits for the answer; the thread is started for the first socket and ends with the last.  The two
    arrays of [struct rs_svc] have [size] elements, of which the first is not used. *)

From S2P Require Import Prelude Layout FfTypes Attrs Request Cma Rsocket RsNet RsConn RsSafe RsIo.

Record rs_svc := mkSvc { sv_cnt : Z; sv_size : Z; sv_rss : list Z; sv_contexts : list Z }.
Definition no_svc : rs_svc := mkSvc 0 0 [] [].

Inductive svc_cmd := RS_SVC_NOOP | RS_SVC_ADD_KEEPALIVE | RS_SVC_REM_KEEPALIVE | RS_SVC_MOD_KEEPALIVE.

(** Elements of an array. *)
Definition aget (l : list Z) (i : Z) : Z := nth (Z.to_nat i) l 0.
Definition aset (i v : Z) (l : list Z) : list Z := <[Z.to_nat i := v]> l.

(** The larger copy of an array, which [calloc] cleared. *)
Definition grown (cnt size : Z) (l : list Z) : list Z :=
  let keep := if Z.eqb cnt 0 then 0 else cnt + 1 in takeZ keep l ++ replicate (Z.to_nat (size - keep)) 0.

(** [mem]: can the memory be had? *)
Definition rs_svc_grow_sets (mem : bool) (grow_size : Z) (v : rs_svc) : Z * rs_svc :=
  if negb mem then (ENOMEM, v)
  else let size := sv_size v + grow_size in (0, mkSvc (sv_cnt v) size (grown (sv_cnt v) size (sv_rss v)) (grown (sv_cnt v) size (sv_contexts v))).

Definition rs_svc_add_rs (mem : bool) (rs : Z) (v : rs_svc) : res (Z * rs_svc) :=
  let '(ret, v) := if Z.leb (sv_size v - 1) (sv_cnt v) then rs_svc_grow_sets mem 4 v else (0, v) in
  if negb (Z.eqb ret 0) then Ok (ret, v)
  else do* in_bounds "rss" (sv_cnt v + 1) (sv_size v); Ok (0, mkSvc (sv_cnt v + 1) (sv_size v) (aset (sv_cnt v + 1) rs (sv_rss v)) (sv_contexts v)).

Definition rs_svc_index (rs : Z) (v : rs_svc) : Z :=
  default (-1) (head (filter (λ i, aget (sv_rss v) i = rs) (seqZ 1 (sv_cnt v)))).

Definition rs_svc_rm_rs (rs : Z) (v : rs_svc) : Z * rs_svc :=
  let i := rs_svc_index rs v in
  if Z.leb 0 i
  then (0, mkSvc (sv_cnt v - 1) (sv_size v) (aset i (aget (sv_rss v) (sv_cnt v)) (sv_rss v)) (aset i (aget (sv_contexts v) (sv_cnt v)) (sv_contexts v)))
  else (EBADF, v).

Definition set_timeout (i t : Z) (v : rs_svc) : rs_svc := mkSvc (sv_cnt v) (sv_size v) (sv_rss v) (aset i t (sv_contexts v)).

(** The status and the socket's [opts]; times are unsigned 32-bit seconds. *)
Definition tcp_svc_process_sock (mem : bool) (now : Z) (cmd : svc_cmd) (rs opts keepalive_time : Z) (v : rs_svc) : res (Z * Z * rs_svc) :=
  match cmd with
  | RS_SVC_ADD_KEEPALIVE =>
      let* (status, v) := rs_svc_add_rs mem rs v in
      if Z.eqb status 0 then Ok (0, Z.lor opts RS_OPT_SVC_ACTIVE, set_timeout (sv_cnt v) (u32 (now + keepalive_time)) v)
      else Ok (status, opts, v)
  | RS_SVC_REM_KEEPALIVE =>
      let '(status, v) := rs_svc_rm_rs rs v in
      Ok (status, if Z.eqb status 0 then Z.land opts (Z.lnot RS_OPT_SVC_ACTIVE) else opts, v)
  | RS_SVC_MOD_KEEPALIVE =>
      let i := rs_svc_index rs v in
      if Z.leb 0 i then Ok (0, opts, set_timeout i (u32 (now + keepalive_time)) v) else Ok (EBADF, opts, v)
  | RS_SVC_NOOP => Ok (0, opts, v)
  end.

(** One entry of the loop of [tcp_svc_run]: the sockets that were sent a message so far, and the next time something is due. *)
Definition scan_one (now : Z) (keepalive_time : Z → Z) (st : list Z * Z * rs_svc) (i : Z) : list Z * Z * rs_svc :=
  let '(sent, next, v) := st in
  let rs := aget (sv_rss v) i in
  let '(sent, v) := if Z.leb (aget (sv_contexts v) i) now then (sent ++ [rs], set_timeout i (u32 (now + keepalive_time rs)) v) else (sent, v) in
  (sent, (if Z.ltb (aget (sv_contexts v) i) next then aget (sv_contexts v) i else next), v).

(** After a message or a time-out; the last component is the next argument of [poll], in seconds. *)
Definition tcp_svc_scan (now : Z) (keepalive_time : Z → Z) (v : rs_svc) : list Z * Z * rs_svc :=
  let '(sent, next, v) := foldl (scan_one now keepalive_time) ([], u32 (-1), v) (seqZ 1 (sv_cnt v)) in (sent, s32 (next - now), v).

(** [rs_notify_svc(&tcp_svc, rs, cmd)]: [pair] and [thread]: the error numbers of [socketpair] and [pthread_create], 0 for success;
    [mem1] and [mem2]: is there memory when the thread starts and when it adds a socket?  A thread that is started makes room for
    16 more.  Zero, or the error number that comes with -1. *)
Definition rs_notify_svc (pair thread : Z) (mem1 mem2 : bool) (now : Z) (cmd : svc_cmd) (rs opts keepalive_time : Z) (v : rs_svc) : res (Z * Z * rs_svc) :=
  if Z.eqb (sv_cnt v) 0 then
    if negb (Z.eqb pair 0) then Ok (pair, opts, v)
    else if negb (Z.eqb thread 0) then Ok (thread, opts, v)
    else
      let '(ret, v) := rs_svc_grow_sets mem1 16 v in
      if negb (Z.eqb ret 0) then Ok (ret, opts, v) else tcp_svc_process_sock mem2 now cmd rs opts keepalive_time v
  else tcp_svc_process_sock mem2 now cmd rs opts keepalive_time v.

(** ** The arrays are a finite map *)
Record svc_ok (v : rs_svc) : Prop := {
  sv_rss_len : lenZ (sv_rss v) = sv_size v;
  sv_ctx_len : lenZ (sv_contexts v) = sv_size v;
  sv_room : 0 ≤ sv_cnt v ∧ 0 ≤ sv_size v ∧ (sv_cnt v ≠ 0 → sv_cnt v < sv_size v);
  sv_inj i j : 1 ≤ i ≤ sv_cnt v → 1 ≤ j ≤ sv_cnt v → aget (sv_rss v) i = aget (sv_rss v) j → i = j
}.
(** [m] gives the time each socket is due. *)
Definition svc_rep (m : gmap Z Z) (v : rs_svc) : Prop :=
  svc_ok v ∧ ∀ rs t, m !! rs = Some t ↔ ∃ i, 1 ≤ i ≤ sv_cnt v ∧ aget (sv_rss v) i = rs ∧ aget (sv_contexts v) i = t.

Lemma aget_aset l i j v : 0 ≤ i < lenZ l → 0 ≤ j → aget (aset i v l) j = if Z.eqb i j then v else aget l j.
Proof.
  intros Hi Hj. unfold aget, aset. rewrite !nth_lookup. destruct (Z.eqb_spec i j) as [->|Hne].
  - rewrite list_lookup_insert_eq; [done|unfold lenZ in Hi; lia].
  - by rewrite list_lookup_insert_ne by lia.
Qed.
Lemma aset_len l i v : lenZ (aset i v l) = lenZ l.
Proof. unfold lenZ, aset. by rewrite length_insert. Qed.

Lemma grown_len cnt size l : 0 ≤ cnt → cnt + 1 ≤ size → (cnt ≠ 0 → cnt < lenZ l) → lenZ (grown cnt size l) = size.
Proof.
  intros H1 H2 H3. unfold grown. rewrite lenZ_app. destruct (Z.eqb_spec cnt 0) as [->|Hc].
  - rewrite lenZ_takeZ by (pose proof (lenZ_nonneg l); lia). unfold lenZ. rewrite length_replicate. lia.
  - rewrite lenZ_takeZ by (specialize (H3 Hc); lia). unfold lenZ. rewrite length_replicate. lia.
Qed.
Lemma grown_get cnt size l i : 1 ≤ i ≤ cnt → cnt < lenZ l → aget (grown cnt size l) i = aget l i.
Proof.
  intros Hi Hl. unfold grown, aget. destruct (Z.eqb_spec cnt 0); [lia|]. rewrite app_nth1 by (unfold takeZ, lenZ in *; rewrite length_take; lia).
  rewrite !nth_lookup. unfold takeZ. by rewrite lookup_take_lt by lia.
Qed.

(** Growing keeps what is there. *)
Lemma grow_rep m n v : svc_rep m v → 1 ≤ n → ∃ v1, rs_svc_grow_sets true n v = (0, v1) ∧ svc_rep m v1 ∧ sv_cnt v1 = sv_cnt v ∧ sv_size v1 = sv_size v + n.
Proof.
  intros [[H1 H2 (H3 & H4 & H5) H6] Hm] Hn. eexists. split; [reflexivity|]. cbn [sv_cnt sv_size]. split; [|done].
  assert (∀ i, 1 ≤ i ≤ sv_cnt v → aget (grown (sv_cnt v) (sv_size v + n) (sv_rss v)) i = aget (sv_rss v) i) as Er by (intros i Hi; apply grown_get; lia).
  assert (∀ i, 1 ≤ i ≤ sv_cnt v → aget (grown (sv_cnt v) (sv_size v + n) (sv_contexts v)) i = aget (sv_contexts v) i) as Ec by (intros i Hi; apply grown_get; lia).
  split; [constructor; cbn [sv_cnt sv_size sv_rss sv_contexts]|intros rs t; cbn [sv_cnt sv_size sv_rss sv_contexts]].
  - apply grown_len; lia.
  - apply grown_len; lia.
  - lia.
  - intros i j Hi Hj. rewrite !Er by done. auto.
  - rewrite Hm. split; intros (i & Hi & <- & <-); exists i; (rewrite Er, Ec by done); done.
Qed.

Lemma index_spec rs v : match rs_svc_index rs v with
  | -1 => ∀ i, 1 ≤ i ≤ sv_cnt v → aget (sv_rss v) i ≠ rs
  | i => 1 ≤ i ≤ sv_cnt v ∧ aget (sv_rss v) i = rs
  end.
Proof.
  unfold rs_svc_index. destruct (filter (λ i, aget (sv_rss v) i = rs) (seqZ 1 (sv_cnt v))) as [|i l] eqn:Ef; cbn [head default from_option].
  - intros i Hi Hr. assert (i ∈ filter (λ i, aget (sv_rss v) i = rs) (seqZ 1 (sv_cnt v))) as Hin by (apply list_elem_of_filter; split; [done|]; apply elem_of_seqZ; lia).
    rewrite Ef in Hin. by apply elem_of_nil in Hin.
  - assert (i ∈ filter (λ i, aget (sv_rss v) i = rs) (seqZ 1 (sv_cnt v))) as Hin by (rewrite Ef; apply list_elem_of_here).
    apply list_elem_of_filter in Hin as [Hr Hi%elem_of_seqZ]. destruct i; [lia|split; [lia|done]|lia].
Qed.

(** A socket is found exactly if it is in the map. *)
Lemma index_rep m v rs : svc_rep m v → (rs_svc_index rs v = -1 ∧ m !! rs = None) ∨
  (1 ≤ rs_svc_index rs v ≤ sv_cnt v ∧ aget (sv_rss v) (rs_svc_index rs v) = rs ∧ m !! rs = Some (aget (sv_contexts v) (rs_svc_index rs v))).
Proof.
  intros [Hok Hm]. pose proof (index_spec rs v) as Hs. destruct (decide (rs_svc_index rs v = -1)) as [E|E].
  - left. split; [done|]. rewrite E in Hs. apply eq_None_not_Some. intros [t Ht]. apply Hm in Ht as (i & Hi & Hr & _). by apply (Hs i).
  - right. assert (1 ≤ rs_svc_index rs v ≤ sv_cnt v ∧ aget (sv_rss v) (rs_svc_index rs v) = rs) as [Hi Hr].
    { destruct (rs_svc_index rs v) as [|p|[q|q|]]; done. }
    split; [done|]. split; [done|]. apply Hm. eauto.
Qed.

(** Another time for the socket at [i]. *)
Lemma timeout_rep m v i t : svc_rep m v → 1 ≤ i ≤ sv_cnt v → svc_rep (<[aget (sv_rss v) i := t]> m) (set_timeout i t v).
Proof.
  intros [[H1 H2 H3 H6] Hm] Hi. split; [constructor; cbn [set_timeout sv_cnt sv_size sv_rss sv_contexts]; rewrite ?aset_len; done|].
  intros rs t'. cbn [set_timeout sv_cnt sv_size sv_rss sv_contexts]. assert (∀ j, 1 ≤ j ≤ sv_cnt v → aget (aset i t (sv_contexts v)) j = if Z.eqb i j then t else aget (sv_contexts v) j) as Ea.
  { intros j Hj. apply aget_aset; lia. }
  rewrite lookup_insert_Some. split.
  - intros [[<- <-]|[Hne (j & Hj & Hr & Ht)%Hm]]; [exists i; rewrite Ea, Z.eqb_refl; done|]. exists j. rewrite Ea by done. destruct (Z.eqb_spec i j) as [->|]; [done|]. done.
  - intros (j & Hj & Hr & Ht). rewrite Ea in Ht by done. destruct (Z.eqb_spec i j) as [<-|Hij]; [by left|right]. split; [intros Heq; apply Hij, H6; congruence|]. apply Hm. eauto.
Qed.

Lemma add_rep m v rs t mem : svc_rep m v → m !! rs = None →
  (mem = false ∧ rs_svc_add_rs mem rs v = Ok (ENOMEM, v)) ∨
  ∃ v1, rs_svc_add_rs mem rs v = Ok (0, v1) ∧ sv_cnt v1 = sv_cnt v + 1 ∧ svc_rep (<[rs := t]> m) (set_timeout (sv_cnt v1) t v1).
Proof.
  intros Hrep Hnew. assert (∀ w, svc_rep m w → sv_cnt w + 1 < sv_size w → sv_cnt w = sv_cnt v → ∃ v1,
    (do* in_bounds "rss" (sv_cnt w + 1) (sv_size w); Ok (0, mkSvc (sv_cnt w + 1) (sv_size w) (aset (sv_cnt w + 1) rs (sv_rss w)) (sv_contexts w))) = Ok (0, v1) ∧
    sv_cnt v1 = sv_cnt v + 1 ∧ svc_rep (<[rs := t]> m) (set_timeout (sv_cnt v1) t v1)) as Hadd.
  { intros w [[H1 H2 H3 H6] Hm] Hroom Hcnt. rewrite (proj2 (in_bounds_Ok _ _ _)) by lia. cbn [rbind]. eexists. split; [reflexivity|]. cbn [sv_cnt]. split; [lia|]. unfold set_timeout. cbn [sv_cnt sv_size sv_rss sv_contexts].
    assert (∀ j, 1 ≤ j ≤ sv_cnt w + 1 → aget (aset (sv_cnt w + 1) rs (sv_rss w)) j = if Z.eqb (sv_cnt w + 1) j then rs else aget (sv_rss w) j) as Er by (intros j Hj; apply aget_aset; lia).
    assert (∀ j, 1 ≤ j ≤ sv_cnt w + 1 → aget (aset (sv_cnt w + 1) t (sv_contexts w)) j = if Z.eqb (sv_cnt w + 1) j then t else aget (sv_contexts w) j) as Ec by (intros j Hj; apply aget_aset; lia).
    assert (∀ j, 1 ≤ j ≤ sv_cnt w → aget (sv_rss w) j ≠ rs) as Hno.
    { intros j Hj E. assert (m !! rs = Some (aget (sv_contexts w) j)) as Hs by (apply Hm; eauto). congruence. }
    split; [constructor; cbn [sv_cnt sv_size sv_rss sv_contexts]; rewrite ?aset_len; try done; [lia|]|].
    - intros i j Hi Hj. rewrite !Er by done. destruct (Z.eqb_spec (sv_cnt w + 1) i), (Z.eqb_spec (sv_cnt w + 1) j); intros E; try lia.
      + symmetry in E. apply Hno in E; [done|lia].
      + apply Hno in E; [done|lia].
      + apply H6; [lia|lia|done].
    - intros rs' t'. cbn [sv_cnt sv_size sv_rss sv_contexts]. rewrite lookup_insert_Some. split.
      + intros [[<- <-]|[Hne (j & Hj & Hr & Ht)%Hm]]; [exists (sv_cnt w + 1); rewrite Er, Ec, Z.eqb_refl by lia; split; [lia|done]|].
        exists j. rewrite Er, Ec by lia. destruct (Z.eqb_spec (sv_cnt w + 1) j); [lia|]. split; [lia|done].
      + intros (j & Hj & Hr & Ht). rewrite Er in Hr by done. rewrite Ec in Ht by done. destruct (Z.eqb_spec (sv_cnt w + 1) j); [by left|right].
        split; [intros ->; apply (Hno j); [lia|done]|]. apply Hm. exists j. split; [lia|done]. }
  unfold rs_svc_add_rs. destruct (Z.leb_spec (sv_size v - 1) (sv_cnt v)).
  - destruct mem; [right|left; by split]. destruct (grow_rep m 4 v Hrep) as (v1 & -> & Hrep1 & Hc & Hs); [lia|]. cbn [Z.eqb negb]. apply Hadd; [done| |done].
    pose proof (sv_room _ (proj1 Hrep)). lia.
  - right. cbn [Z.eqb negb]. apply Hadd; [done|lia|done].
Qed.

Lemma rm_rep m v rs t : svc_rep m v → m !! rs = Some t → ∃ v1, rs_svc_rm_rs rs v = (0, v1) ∧ svc_rep (delete rs m) v1.
Proof.
  intros Hrep Ht. destruct (index_rep m v rs Hrep) as [[_ E]|(Hi & Hr & _)]; [congruence|]. unfold rs_svc_rm_rs. set (i := rs_svc_index rs v) in *. clearbody i.
  destruct (Z.leb_spec 0 i); [|lia]. eexists. split; [reflexivity|]. destruct Hrep as [[H1 H2 H3 H6] Hm]. set (n := sv_cnt v) in *.
  assert (∀ j, 1 ≤ j ≤ n → aget (aset i (aget (sv_rss v) n) (sv_rss v)) j = aget (sv_rss v) (if Z.eqb i j then n else j)) as Er.
  { intros j Hj. rewrite aget_aset by lia. by destruct (Z.eqb i j). }
  assert (∀ j, 1 ≤ j ≤ n → aget (aset i (aget (sv_contexts v) n) (sv_contexts v)) j = aget (sv_contexts v) (if Z.eqb i j then n else j)) as Ec.
  { intros j Hj. rewrite aget_aset by lia. by destruct (Z.eqb i j). }
  split; [constructor; cbn [sv_cnt sv_size sv_rss sv_contexts]; rewrite ?aset_len; try done; [lia|]|].
  - intros j k Hj Hk. rewrite !Er by lia. intros E. apply H6 in E; [|destruct (Z.eqb_spec i j); lia|destruct (Z.eqb_spec i k); lia].
    destruct (Z.eqb_spec i j), (Z.eqb_spec i k); lia.
  - intros rs' t'. cbn [sv_cnt sv_size sv_rss sv_contexts]. rewrite lookup_delete_Some, Hm. split.
    + intros [Hne (j & Hj & Hrj & Htj)]. assert (j ≠ i) as Hji by (intros ->; congruence). destruct (decide (j = n)) as [->|Hjn].
      * exists i. rewrite Er, Ec, Z.eqb_refl by lia. split; [lia|done].
      * exists j. rewrite Er, Ec by lia. destruct (Z.eqb_spec i j); [lia|]. split; [lia|done].
    + intros (j & Hj & Hrj & Htj). rewrite Er in Hrj by lia. rewrite Ec in Htj by lia. set (q := if Z.eqb i j then n else j) in *.
      assert (1 ≤ q ≤ n ∧ q ≠ i) as [Hq Hqi] by (unfold q; destruct (Z.eqb_spec i j); lia). split; [|by exists q].
      intros <-. apply Hqi. apply H6; [done|done|congruence].
Qed.

(** The first [n] entries have been looked at. *)
Record scanned (now : Z) (kt : Z → Z) (v : rs_svc) (n : Z) (st : list Z * Z * rs_svc) : Prop := {
  sc_cnt : sv_cnt st.2 = sv_cnt v;
  sc_size : sv_size st.2 = sv_size v;
  sc_rss : sv_rss st.2 = sv_rss v;
  sc_len : lenZ (sv_contexts st.2) = lenZ (sv_contexts v);
  sc_ctx j : 1 ≤ j ≤ sv_cnt v → aget (sv_contexts st.2) j =
    if Z.leb j n && Z.leb (aget (sv_contexts v) j) now then u32 (now + kt (aget (sv_rss v) j)) else aget (sv_contexts v) j;
  sc_sent : st.1.1 = aget (sv_rss v) <$> filter (λ j, aget (sv_contexts v) j ≤ now) (seqZ 1 n);
  sc_next j : 1 ≤ j ≤ n → st.1.2 ≤ aget (sv_contexts st.2) j;
  sc_min : st.1.2 = u32 (-1) ∨ ∃ j, 1 ≤ j ≤ n ∧ st.1.2 = aget (sv_contexts st.2) j
}.

Lemma scan_steps now kt v n : svc_ok v → 0 ≤ n ≤ sv_cnt v → scanned now kt v n (foldl (scan_one now kt) ([], u32 (-1), v) (seqZ 1 n)).
Proof.
  intros [H1 H2 H3 _] Hn. destruct Hn as [Hn0 Hn]. revert Hn. pattern n. apply natlike_ind; [| |done]; clear n Hn0.
  - intros _. cbn. constructor; cbn; try done; [|lia|by left]. intros j Hj. destruct (Z.leb_spec j 0); [lia|done].
  - intros n Hn0 IH Hn. rewrite <- Z.add_1_r in *. rewrite seqZ_app by lia. rewrite foldl_app. specialize (IH ltac:(lia)).
    destruct (foldl (scan_one now kt) ([], u32 (-1), v) (seqZ 1 n)) as [[sent next] w]. destruct IH as [E1 E2 E3 E4 E5 E6 E7 E8]. cbn [fst snd] in *.
    change (seqZ (1 + n) 1) with [1 + n]. cbn [foldl scan_one]. rewrite E3. replace (1 + n) with (n + 1) by lia.
    assert (aget (sv_contexts w) (n + 1) = aget (sv_contexts v) (n + 1)) as En by (rewrite E5 by lia; destruct (Z.leb_spec (n + 1) n); [lia|done]). rewrite En.
    assert (∀ j t, 1 ≤ j ≤ sv_cnt v → aget (aset (n + 1) t (sv_contexts w)) j = if Z.eqb (n + 1) j then t else aget (sv_contexts w) j) as Ea by (intros j t Hj; apply aget_aset; lia).
    assert (∀ j, j ≠ n + 1 → Z.leb j (n + 1) = Z.leb j n) as Hle by (intros j Hj; destruct (Z.leb_spec j (n + 1)), (Z.leb_spec j n); lia || done).
    assert (filter (λ j, aget (sv_contexts v) j ≤ now) (seqZ 1 (n + 1)) =
            filter (λ j, aget (sv_contexts v) j ≤ now) (seqZ 1 n) ++ (if Z.leb (aget (sv_contexts v) (n + 1)) now then [n + 1] else [])) as Ef.
    { rewrite seqZ_app by lia. rewrite list.filter_app. f_equal. change (seqZ (1 + n) 1) with [1 + n]. replace (1 + n) with (n + 1) by lia. rewrite filter_cons.
      destruct (Z.leb_spec (aget (sv_contexts v) (n + 1)) now); [by rewrite decide_True|by rewrite decide_False by lia]. }
    destruct (Z.leb_spec (aget (sv_contexts v) (n + 1)) now) as [Hd|Hd].
    + set (t := u32 (now + kt (aget (sv_rss v) (n + 1)))) in *. cbn [set_timeout sv_contexts]. rewrite Ea, Z.eqb_refl by lia.
      assert (∀ j, 1 ≤ j ≤ sv_cnt v → aget (aset (n + 1) t (sv_contexts w)) j =
        if Z.leb j (n + 1) && Z.leb (aget (sv_contexts v) j) now then u32 (now + kt (aget (sv_rss v) j)) else aget (sv_contexts v) j) as Hctx.
      { intros j Hj. rewrite Ea by done. destruct (Z.eqb_spec (n + 1) j) as [<-|Hne]; [|rewrite Hle by done; by apply E5].
        destruct (Z.leb_spec (n + 1) (n + 1)), (Z.leb_spec (aget (sv_contexts v) (n + 1)) now); try lia. done. }
      constructor; cbn [fst snd set_timeout sv_cnt sv_size sv_rss sv_contexts]; rewrite ?aset_len; try done.
      * by rewrite E6, Ef, fmap_app.
      * intros j Hj. rewrite Ea by lia. destruct (Z.ltb_spec t next), (Z.eqb_spec (n + 1) j); try lia; specialize (E7 j); lia.
      * destruct (Z.ltb_spec t next); [right; exists (n + 1); rewrite Ea, Z.eqb_refl by lia; split; [lia|done]|].
        destruct E8 as [E8|(j & Hj & E8)]; [by left|right]. exists j. rewrite Ea by lia. destruct (Z.eqb_spec (n + 1) j); [lia|]. split; [lia|done].
    + rewrite En. constructor; cbn [fst snd]; try done.
      * intros j Hj. rewrite E5 by done. destruct (decide (j = n + 1)) as [->|]; [|by rewrite Hle].
        destruct (Z.leb_spec (n + 1) n), (Z.leb_spec (aget (sv_contexts v) (n + 1)) now); try lia. by rewrite !andb_false_r.
      * by rewrite E6, Ef, app_nil_r.
      * intros j Hj. destruct (decide (j = n + 1)) as [->|]; [rewrite En; destruct (Z.ltb_spec (aget (sv_contexts v) (n + 1)) next); lia|].
        specialize (E7 j). destruct (Z.ltb_spec (aget (sv_contexts v) (n + 1)) next); lia.
      * destruct (Z.ltb_spec (aget (sv_contexts v) (n + 1)) next); [right; exists (n + 1); split; [lia|by rewrite En]|].
        destruct E8 as [E8|(j & Hj & E8)]; [by left|right]. exists j. split; [lia|done].
Qed.

(** The time a socket is due after a scan. *)
Definition renewed (now : Z) (kt : Z → Z) (rs t : Z) : Z := if Z.leb t now then u32 (now + kt rs) else t.

Lemma scan_rep m now kt v : svc_rep m v → ∃ sent next v1, tcp_svc_scan now kt v = (sent, s32 (next - now), v1) ∧
  svc_rep (map_imap (λ rs t, Some (renewed now kt rs t)) m) v1 ∧
  NoDup sent ∧ (∀ rs, rs ∈ sent ↔ ∃ t, m !! rs = Some t ∧ t ≤ now) ∧
  (∀ rs t, m !! rs = Some t → next ≤ renewed now kt rs t) ∧ (next = u32 (-1) ∨ ∃ rs t, m !! rs = Some t ∧ next = renewed now kt rs t).
Proof.
  intros [Hok Hm]. pose proof (sv_room v Hok) as Hroom. pose proof (scan_steps now kt v (sv_cnt v) Hok) as Hs. unfold tcp_svc_scan.
  destruct (foldl (scan_one now kt) ([], u32 (-1), v) (seqZ 1 (sv_cnt v))) as [[sent next] w]. destruct Hs as [E1 E2 E3 E4 E5 E6 E7 E8]; [lia|]. cbn [fst snd] in *.
  assert (∀ j, 1 ≤ j ≤ sv_cnt v → aget (sv_contexts w) j = renewed now kt (aget (sv_rss v) j) (aget (sv_contexts v) j)) as Hc.
  { intros j Hj. rewrite E5 by done. unfold renewed. destruct (Z.leb_spec j (sv_cnt v)); [done|lia]. }
  exists sent, next, w. split; [done|]. split_and!.
  - split; [destruct Hok; constructor; rewrite ?E1, ?E2, ?E3, ?E4; done|]. intros rs t. rewrite map_lookup_imap, E1, E3. split.
    + intros Ht. destruct (m !! rs) as [t0|] eqn:Et; [|done]. injection Ht as <-. apply Hm in Et as (j & Hj & <- & <-). exists j. rewrite Hc by done. done.
    + intros (j & Hj & <- & <-). rewrite Hc by done. assert (m !! aget (sv_rss v) j = Some (aget (sv_contexts v) j)) as -> by (apply Hm; eauto). done.
  - rewrite E6. apply NoDup_fmap_2_strong; [|apply list.NoDup_filter, NoDup_seqZ].
    intros i j [_ Hi%elem_of_seqZ]%list_elem_of_filter [_ Hj%elem_of_seqZ]%list_elem_of_filter. apply (sv_inj v Hok); lia.
  - intros rs. rewrite E6, list_elem_of_fmap. split.
    + intros (j & -> & [Hd Hj%elem_of_seqZ]%list_elem_of_filter). exists (aget (sv_contexts v) j). split; [|done]. apply Hm. exists j. split; [lia|done].
    + intros (t & (j & Hj & <- & <-)%Hm & Hd). exists j. split; [done|]. apply list_elem_of_filter. split; [done|]. apply elem_of_seqZ. lia.
  - intros rs t (j & Hj & <- & <-)%Hm. rewrite <- Hc by done. by apply E7.
  - destruct E8 as [E8|(j & Hj & E8)]; [by left|right]. exists (aget (sv_rss v) j), (aget (sv_contexts v) j). split; [apply Hm; eauto|]. by rewrite E8, Hc.
Qed.


Lemma no_svc_rep : svc_rep ∅ no_svc.
Proof. split; [constructor; cbn; lia || done|]. intros rs t. rewrite lookup_empty. split; [done|]. intros (i & Hi & _). cbn in Hi. lia. Qed.

