(* ===== verification/RsOptions.v ===== *)
(** * rsocket: options

    [librdmacm/src/rsocket.c]: [rsetsockopt], [rgetsockopt] and [rfcntl] of stream sockets.  The two switches over level and name
    are a table of the options they know; what they do for each is one function that sets and one that reports.  The
    caller's buffer is a list of bytes, and reading or writing past its end is undefined. *)

From S2P Require Import Prelude Layout FfTypes Attrs Marshall Request Indexer Cma Rsocket RsNet RsConn RsSafe RsIo RsService.

Definition SOL_SOCKET : Z := 1.
Definition IPPROTO_TCP : Z := 6.
Definition IPPROTO_IPV6 : Z := 41.
Definition SOL_RDMA : Z := 0x10000.
Definition ENOSYS : Z := 38.
Definition F_GETFL : Z := 3.
Definition F_SETFL : Z := 4.
Definition RDMA_OPTION_ID : Z := 0.
Definition RDMA_OPTION_ID_REUSEADDR : Z := 1.
Definition RDMA_OPTION_ID_AFONLY : Z := 2.

(** [SO_ERROR] can only be read. *)
Inductive sockopt :=
  | SO_REUSEADDR | SO_RCVBUF | SO_SNDBUF | SO_LINGER | SO_KEEPALIVE | SO_OOBINLINE | SO_ERROR
  | TCP_KEEPCNT | TCP_KEEPINTVL | TCP_KEEPIDLE | TCP_NODELAY | TCP_MAXSEG
  | IPV6_V6ONLY
  | RDMA_SQSIZE | RDMA_RQSIZE | RDMA_INLINE | RDMA_IOMAPSIZE | RDMA_ROUTE.
#[export] Instance sockopt_eq : EqDecision sockopt.
Proof. solve_decision. Defined.

Definition all_options : list sockopt :=
  [SO_REUSEADDR; SO_RCVBUF; SO_SNDBUF; SO_LINGER; SO_KEEPALIVE; SO_OOBINLINE; SO_ERROR; TCP_KEEPCNT; TCP_KEEPINTVL; TCP_KEEPIDLE; TCP_NODELAY;
   TCP_MAXSEG; IPV6_V6ONLY; RDMA_SQSIZE; RDMA_RQSIZE; RDMA_INLINE; RDMA_IOMAPSIZE; RDMA_ROUTE].

(** The level and the number of an option, as the case labels have them. *)
Definition level_of (o : sockopt) : Z :=
  match o with
  | SO_REUSEADDR | SO_RCVBUF | SO_SNDBUF | SO_LINGER | SO_KEEPALIVE | SO_OOBINLINE | SO_ERROR => SOL_SOCKET
  | TCP_KEEPCNT | TCP_KEEPINTVL | TCP_KEEPIDLE | TCP_NODELAY | TCP_MAXSEG => IPPROTO_TCP
  | IPV6_V6ONLY => IPPROTO_IPV6
  | _ => SOL_RDMA
  end.
Definition optname_of (o : sockopt) : Z :=
  match o with
  | SO_REUSEADDR => 2 | SO_ERROR => 4 | SO_SNDBUF => 7 | SO_RCVBUF => 8 | SO_KEEPALIVE => 9 | SO_OOBINLINE => 10 | SO_LINGER => 13
  | TCP_NODELAY => 1 | TCP_MAXSEG => 2 | TCP_KEEPIDLE => 4 | TCP_KEEPINTVL => 5 | TCP_KEEPCNT => 6
  | IPV6_V6ONLY => 26
  | RDMA_SQSIZE => 0 | RDMA_RQSIZE => 1 | RDMA_INLINE => 2 | RDMA_IOMAPSIZE => 3 | RDMA_ROUTE => 4
  end.
Definition option_of (level optname : Z) : option sockopt :=
  head (filter (λ o, level_of o = level ∧ optname_of o = optname) all_options).

(** The rest of [struct rsocket]: the words with a bit per option, and the keep-alive time in seconds. *)
Record rs_words := mkWords { so_opts : Z; tcp_opts : Z; ipv6_opts : Z; keepalive_time : Z }.
Definition set_so v w := mkWords v (tcp_opts w) (ipv6_opts w) (keepalive_time w).
Definition set_tcp v w := mkWords (so_opts w) v (ipv6_opts w) (keepalive_time w).
Definition set_ipv6 v w := mkWords (so_opts w) (tcp_opts w) v (keepalive_time w).
Definition set_keepalive_time v w := mkWords (so_opts w) (tcp_opts w) (ipv6_opts w) v.

(** A socket with the process's keep-alive service. *)
Record osock (K : Type) := mkOs { o_ep : ep K; o_words : rs_words; o_svc : rs_svc }.
Arguments mkOs {K}.
Arguments o_ep {K}.
Arguments o_words {K}.
Arguments o_svc {K}.

(** [d_route]: the [num_paths] records of the route; [d_keepalive_file]: the system's setting, as [fscanf] finds it; [d_svc]: what a
    command to the service meets: the error numbers of [socketpair] and [pthread_create], whether there is memory when the thread starts
    and when it adds a socket, and the time. *)
Class RsOpt (K : Type) := {
  d_set_option : Z → Z → list Z → K → Z * K;
  d_context : K → bool;
  d_transport_ib : K → bool;
  d_route : K → list mem;
  d_recv_channel : K → bool;
  d_fcntl_recv : Z → K → Z * K;
  d_fcntl_channel : Z → K → Z * K;
  d_keepalive_file : K → option (option Z);
  d_svc : K → (Z * Z * bool * bool * Z) * K;
  d_malloc : Z → K → bool * K
}.

(** ** The route

    The assignments of [rs_convert_sa_path], in order, into cleared memory. *)
Definition convert_sa_fields (sa : mem) : list (path * Z) :=
  let g f := get S_ibv_sa_path_rec [f] sa in
  let fl_hop := u32 (Z.shiftl (swap32 (g "flow_label")) 8) in
  [(["path"; "dgid"], g "dgid"); (["path"; "sgid"], g "sgid"); (["path"; "dlid"], g "dlid"); (["path"; "slid"], g "slid");
   (["path"; "flowlabel_hoplimit"], Z.lor (swap32 fl_hop) (g "hop_limit")); (["path"; "tclass"], g "traffic_class");
   (["path"; "reversible_numpath"], Z.lor (Z.shiftl (g "reversible") 7) 1); (["path"; "pkey"], g "pkey"); (["path"; "qosclass_sl"], g "sl");
   (["path"; "mtu"], Z.lor (g "mtu") (Z.shiftl 2 6)); (["path"; "rate"], Z.lor (g "rate") (Z.shiftl 2 6));
   (["path"; "packetlifetime"], Z.lor (g "packet_life_time") (Z.shiftl 2 6)); (["flags"], g "preference")].
Definition rs_convert_sa_path (sa_path : mem) : mem := foldl (λ m '(p, v), put S_ibv_path_data p v m) (λ _, 0) (convert_sa_fields sa_path).

(** The loop over the records: what is copied out, from [len] on. *)
Fixpoint route_bytes (len optlen : Z) (recs : list mem) : list Z :=
  match recs with
  | [] => []
  | r :: recs =>
      if Z.leb (len + sizeof S_ibv_path_data) optlen
      then load_bytes 0 (Z.to_nat (sizeof S_ibv_path_data)) (rs_convert_sa_path r) ++ route_bytes (len + sizeof S_ibv_path_data) optlen recs
      else []
  end.

(** [*(int * ) optval] and writing over the start of a buffer. *)
Definition int_at (buf : list Z) : res Z := if Z.leb 4 (lenZ buf) then Ok (s32 (le_val (takeZ 4 buf))) else UB "optval".
Definition over (bs buf : list Z) : res (list Z) := if Z.leb (lenZ bs) (lenZ buf) then Ok (bs ++ dropZ (lenZ bs) buf) else UB "optval".

Section Options.
Context {K : Type} `{!RsOpt K}.

Definition O (A : Type) : Type := osock K → res (A * osock K).
#[global] Instance O_ret : MRet O := λ _ a s, Ok (a, s).
#[global] Instance O_bind : MBind O := λ _ _ f m s, let* (a, s) := m s in f a s.
Definition o_get {A} (f : osock K → A) : O A := λ s, Ok (f s, s).
Definition on_ep {A} (m : R K A) : O A := λ s, let* (a, e) := m (o_ep s) in Ok (a, mkOs e (o_words s) (o_svc s)).
Definition on_words (f : rs_words → rs_words) : O () := λ s, Ok ((), mkOs (o_ep s) (f (o_words s)) (o_svc s)).
Definition o_res {A} (x : res A) : O A := λ s, let* a := x in Ok (a, s).
Definition o_rs {A} (f : rsocket → A) : O A := o_get (λ s, f (e_rs (o_ep s))).

(** [rs_notify_svc(&tcp_svc, rs, cmd)] for the socket [p]. *)
Definition command (p : Z) (cmd : svc_cmd) (sp thread : Z) (mem1 mem2 : bool) (now : Z) : O Z := λ s,
  let* (st, opts1, v) := rs_notify_svc sp thread mem1 mem2 now cmd p (opts (e_rs (o_ep s))) (keepalive_time (o_words s)) (o_svc s) in
  on_ep (rs_set (set_opts opts1) ;; seterrno st) (mkOs (o_ep s) (o_words s) v).
Definition notify (p : Z) (cmd : svc_cmd) : O Z :=
  '(sp, thread, mem1, mem2, now) ← on_ep (dev d_svc); command p cmd sp thread mem1 mem2 now.

Definition active (r : rsocket) : bool := has (opts r) RS_OPT_SVC_ACTIVE.

Definition rs_set_keepalive (p on : Z) : O Z :=
  a ← o_rs active;
  if (negb (Z.eqb on 0) && a) || (Z.eqb on 0 && negb a) then mret 0
  else if negb (Z.eqb on 0) then
    t ← o_get (λ s, keepalive_time (o_words s));
    (if Z.eqb t 0
     then f ← o_get (λ s, d_keepalive_file (e_k (o_ep s)));
          match f with
          | Some (Some v) => on_words (set_keepalive_time (u32 v))
          | Some None => mret ()
          | None => on_words (set_keepalive_time 7200)
          end
     else mret ()) ;;
    notify p RS_SVC_ADD_KEEPALIVE
  else notify p RS_SVC_REM_KEEPALIVE.

Definition change_cfg (f : rs_cfg → rs_cfg) : O () := on_ep (rs_set (set_cfg f)).
Definition with_sbuf_size v c := mkCfg v (rbuf_size c) (sq_size c) (rq_size c) (sq_inline c) (sbuf c) (rbuf c) (target_sgl c)
  (smr_lkey c) (rmr_lkey c) (rmr_rkey c) (target_rkey c) (target_iomap_size c) (remote_sgl c) (remote_iomap c).
Definition with_rbuf_size v c := mkCfg (sbuf_size c) v (sq_size c) (rq_size c) (sq_inline c) (sbuf c) (rbuf c) (target_sgl c)
  (smr_lkey c) (rmr_lkey c) (rmr_rkey c) (target_rkey c) (target_iomap_size c) (remote_sgl c) (remote_iomap c).
Definition with_queues s r i c := mkCfg (sbuf_size c) (rbuf_size c) s r i (sbuf c) (rbuf c) (target_sgl c)
  (smr_lkey c) (rmr_lkey c) (rmr_rkey c) (target_rkey c) (target_iomap_size c) (remote_sgl c) (remote_iomap c).
Definition with_iomap_size v c := mkCfg (sbuf_size c) (rbuf_size c) (sq_size c) (rq_size c) (sq_inline c) (sbuf c) (rbuf c) (target_sgl c)
  (smr_lkey c) (rmr_lkey c) (rmr_rkey c) (target_rkey c) v (remote_sgl c) (remote_iomap c).

(** [rdma_set_option(rs->cm_id, RDMA_OPTION_ID, name, optval, optlen)] *)
Definition id_option (name : Z) (buf : list Z) (optlen : Z) : O Z := on_ep (call (d_set_option RDMA_OPTION_ID name (takeZ optlen buf))).

(** A system without the option, or a bound InfiniBand identifier, is as good as one that took it. *)
Definition excused (s : osock K) : bool :=
  let k := e_k (o_ep s) in
  Z.eqb (e_errno (o_ep s)) ENOSYS || (negb (Z.eqb (state (e_rs (o_ep s))) rs_init) && d_context k && d_transport_ib k).

(** The case of one option: [ret] and [opt_on]. *)
Definition set_option (p : Z) (o : sockopt) (buf : list Z) (optlen : Z) : O (Z * Z) :=
  match o with
  | SO_REUSEADDR =>
      ret ← id_option RDMA_OPTION_ID_REUSEADDR buf optlen;
      x ← o_get excused;
      on ← o_res (int_at buf);
      mret (if (x : bool) then 0 else ret, on)
  | SO_RCVBUF =>
      v ← o_res (int_at buf);
      change_cfg (λ c, if Z.eqb (rbuf c) 0 then with_rbuf_size (u32 (Z.shiftl (u32 v) 1)) c else c) ;; mret (0, 0)
  | SO_SNDBUF =>
      v ← o_res (int_at buf);
      change_cfg (λ c, if Z.eqb (sbuf c) 0 then with_sbuf_size (u32 (Z.shiftl (u32 v) 1)) c else c) ;;
      change_cfg (λ c, if Z.ltb (sbuf_size c) RS_SNDLOWAT then with_sbuf_size (Z.shiftl RS_SNDLOWAT 1) c else c) ;; mret (0, 0)
  | SO_LINGER => v ← o_res (int_at buf); mret (0, Z.b2z (Z.eqb v 0))
  | SO_KEEPALIVE =>
      v ← o_res (int_at buf);
      ret ← rs_set_keepalive p v;
      a ← o_rs (λ r, Z.land (opts r) RS_OPT_SVC_ACTIVE);
      mret (ret, a)
  | SO_OOBINLINE | TCP_NODELAY => v ← o_res (int_at buf); mret (0, v)
  | SO_ERROR => mret (-1, 0)
  | TCP_KEEPCNT | TCP_KEEPINTVL | TCP_MAXSEG => mret (0, 0)
  | TCP_KEEPIDLE =>
      v ← o_res (int_at buf);
      if Z.leb v 0 then ret ← on_ep (ERR EINVAL); mret (ret, 0)
      else
        on_words (set_keepalive_time v) ;;
        a ← o_rs active;
        ret ← (if (a : bool) then notify p RS_SVC_MOD_KEEPALIVE else mret 0);
        mret (ret, 0)
  | IPV6_V6ONLY =>
      ret ← id_option RDMA_OPTION_ID_AFONLY buf optlen;
      v ← o_res (int_at buf);
      mret (ret, v)
  | RDMA_SQSIZE => v ← o_res (int_at buf); change_cfg (λ c, with_queues (Z.min (u32 v) RS_QP_MAX_SIZE) (rq_size c) (sq_inline c) c) ;; mret (0, 0)
  | RDMA_RQSIZE => v ← o_res (int_at buf); change_cfg (λ c, with_queues (sq_size c) (Z.min (u32 v) RS_QP_MAX_SIZE) (sq_inline c) c) ;; mret (0, 0)
  | RDMA_INLINE => change_cfg (λ c, with_queues (sq_size c) (rq_size c) 0 c) ;; mret (0, 0)
  | RDMA_IOMAPSIZE =>
      v ← o_res (int_at buf);
      change_cfg (with_iomap_size (u16 (rs_scale_to_value (u8 (rs_value_to_scale v 8)) 8))) ;; mret (0, 0)
  | RDMA_ROUTE =>
      ok ← on_ep (dev (d_malloc optlen));
      if (ok : bool)
      then o_res (if Z.leb optlen (lenZ buf) then Ok () else UB "optval") ;; on_ep (rs_set (λ r, set_conn (retries r) (Some (takeZ optlen buf)) r)) ;; mret (0, 0)
      else on_ep (rs_set (λ r, set_conn (retries r) None r)) ;; ret ← on_ep (ERR ENOMEM); mret (ret, 0)
  end.

(** [*opts |= 1 << optname] or [*opts &= ~(1 << optname)], for the word of the level. *)
Definition bit_to (on optname x : Z) : Z :=
  if negb (Z.eqb on 0) then Z.lor x (Z.shiftl 1 optname) else Z.land x (Z.lnot (Z.shiftl 1 optname)).
Definition note_option (level optname on : Z) (w : rs_words) : rs_words :=
  if Z.eqb level SOL_SOCKET then set_so (bit_to on optname (so_opts w)) w
  else if Z.eqb level IPPROTO_TCP then set_tcp (bit_to on optname (tcp_opts w)) w
  else if Z.eqb level IPPROTO_IPV6 then set_ipv6 (bit_to on optname (ipv6_opts w)) w
  else w.

(** The table gives the socket. *)
Definition rsetsockopt (idm : index_map) (socket level optname : Z) (buf : list Z) (optlen : Z) : O Z :=
  ret ← on_ep (ERR ENOTSUP);
  p ← o_res (idm_lookup socket idm);
  if Z.eqb p 0 then on_ep (ERR EBADF)
  else
    st ← o_rs state;
    '(ret, on) ← (if Z.eqb level SOL_RDMA && Z.leb rs_opening st then ret ← on_ep (ERR EINVAL); mret (ret, 0)
                  else match option_of level optname with Some o => set_option p o buf optlen | None => mret (ret, 0) end);
    (if Z.eqb ret 0 then on_words (note_option level optname on) else mret ()) ;;
    mret ret.

(** [1 << (7 + mtu)] of the first path, or 2048. *)
Definition max_segment (paths : list mem) : Z :=
  match paths with r :: _ => Z.shiftl 1 (7 + get S_ibv_sa_path_rec ["mtu"] r) | [] => 2048 end.

(** What [rgetsockopt] reports of an option as an integer. *)
Definition value (o : sockopt) (s : osock K) : Z :=
  let r := e_rs (o_ep s) in
  let w := o_words s in
  match o with
  | SO_REUSEADDR | SO_KEEPALIVE | SO_OOBINLINE => Z.b2z (has (so_opts w) (Z.shiftl 1 (optname_of o)))
  | SO_LINGER => Z.b2z (negb (has (so_opts w) (Z.shiftl 1 (optname_of o))))
  | SO_RCVBUF => rbuf_size (cfg r)
  | SO_SNDBUF => sbuf_size (cfg r)
  | SO_ERROR => rs_err r
  | TCP_KEEPCNT | TCP_KEEPINTVL => 1
  | TCP_KEEPIDLE => keepalive_time w
  | TCP_NODELAY => Z.b2z (has (tcp_opts w) (Z.shiftl 1 (optname_of o)))
  | TCP_MAXSEG => max_segment (d_route (e_k (o_ep s)))
  | IPV6_V6ONLY => Z.b2z (has (ipv6_opts w) (Z.shiftl 1 (optname_of o)))
  | RDMA_SQSIZE => sq_size (cfg r)
  | RDMA_RQSIZE => rq_size (cfg r)
  | RDMA_INLINE => sq_inline (cfg r)
  | RDMA_IOMAPSIZE => target_iomap_size (cfg r)
  | RDMA_ROUTE => 0
  end.

(** The case of one option: an error number, the caller's buffer and its length after it. *)
Definition get_option (o : sockopt) (buf : list Z) (len : Z) : O (Z * list Z * Z) :=
  match o with
  | SO_LINGER =>
      v ← o_get (value o);
      buf ← o_res (over (le_bytes 4 v ++ le_bytes 4 0) buf); mret (0, buf, 8)
  | SO_ERROR =>
      v ← o_get (value o);
      buf ← o_res (over (le_bytes 4 v) buf);
      on_ep (rs_set (λ r, set_state (state r) 0 r)) ;; mret (0, buf, 4)
  | TCP_KEEPCNT | TCP_KEEPINTVL =>
      v ← o_get (value o);
      buf ← o_res (over (le_bytes 4 v) buf); mret (0, buf, len)
  | RDMA_ROUTE =>
      ov ← o_rs optval;
      match ov with
      | Some old =>
          if Z.ltb len (lenZ old) then mret (EINVAL, buf, len)
          else if Z.ltb (lenZ buf) (lenZ old) then o_res (UB "optval")
          else on_ep (rs_set (λ r, set_conn (retries r) (Some (takeZ (lenZ old) buf)) r)) ;; mret (0, buf, lenZ old)
      | None =>
          if Z.ltb len (sizeof S_ibv_path_data) then mret (EINVAL, buf, len)
          else
            paths ← o_get (λ s, d_route (e_k (o_ep s)));
            let bs := route_bytes 0 len paths in
            buf ← o_res (over bs buf); mret (0, buf, lenZ bs)
      end
  | _ =>
      v ← o_get (value o);
      buf ← o_res (over (le_bytes 4 v) buf); mret (0, buf, 4)
  end.

Definition rgetsockopt (idm : index_map) (socket level optname : Z) (buf : list Z) (len : Z) : O (Z * list Z * Z) :=
  p ← o_res (idm_lookup socket idm);
  if Z.eqb p 0 then ret ← on_ep (ERR EBADF); mret (ret, buf, len)
  else
    '(e, buf, len) ← match option_of level optname with Some o => get_option o buf len | None => mret (ENOTSUP, buf, len) end;
    ret ← on_ep (seterrno e);
    mret (ret, buf, len).

(** ** Flags of the descriptor *)
Definition rs_set_nonblocking (arg : Z) : O Z :=
  k ← o_get (λ s, e_k (o_ep s));
  ret ← (if d_recv_channel k then on_ep (call (d_fcntl_recv arg)) else mret 0);
  st ← o_rs state;
  if Z.eqb ret 0 && Z.ltb st rs_connected then on_ep (call (d_fcntl_channel arg)) else mret ret.

Definition set_fd_flags f r := mkRs (cfg r) (tx r) (rx r) (ctrl_seqno r) (ctrl_max_seqno r) (opts r) f (state r) (rs_err r)
  (cq_armed r) (unack_cqe r) (retries r) (optval r) (iomap_queue r) (iomap_list r) (iomap_pending r).

Definition rfcntl (idm : index_map) (socket cmd param : Z) : O Z :=
  p ← o_res (idm_lookup socket idm);
  if Z.eqb p 0 then on_ep (ERR EBADF)
  else if Z.eqb cmd F_GETFL then o_rs fd_flags
  else if Z.eqb cmd F_SETFL then
    old ← o_rs fd_flags;
    ret ← (if negb (Z.eqb (Z.land old O_NONBLOCK) (Z.land param O_NONBLOCK)) then rs_set_nonblocking (Z.land param O_NONBLOCK) else mret 0);
    (if Z.eqb ret 0 then on_ep (rs_set (set_fd_flags param)) else mret ()) ;;
    mret ret
  else on_ep (ERR ENOTSUP).
End Options.

(** ** Bits *)
Lemma has_shift x n : 0 ≤ n → has x (Z.shiftl 1 n) = Z.testbit x n.
Proof.
  intros Hn. unfold has. rewrite Z.shiftl_1_l. destruct (Z.eqb_spec (Z.land x (2 ^ n)) 0) as [E|E]; cbn [negb].
  - symmetry. apply (f_equal (λ z, Z.testbit z n)) in E. rewrite Z.land_spec, Z.pow2_bits_true, andb_true_r, Z.bits_0 in E by done. done.
  - symmetry. destruct (Z.testbit x n) eqn:Et; [done|]. contradict E. apply Z.bits_inj'. intros j Hj. rewrite Z.land_spec, Z.bits_0, Z.pow2_bits_eqb by done.
    destruct (Z.eqb_spec n j) as [<-|]; [by rewrite Et|by rewrite andb_false_r].
Qed.

Lemma bit_to_has on n x j : 0 ≤ n → 0 ≤ j →
  has (bit_to on n x) (Z.shiftl 1 j) = if Z.eqb n j then negb (Z.eqb on 0) else has x (Z.shiftl 1 j).
Proof.
  intros Hn Hj. rewrite !has_shift by done. unfold bit_to. rewrite Z.shiftl_1_l. destruct (Z.eqb on 0); cbn [negb].
  - rewrite Z.land_spec, Z.lnot_spec, Z.pow2_bits_eqb by done. destruct (Z.eqb n j); [apply andb_false_r|apply andb_true_r].
  - rewrite Z.lor_spec, Z.pow2_bits_eqb by done. destruct (Z.eqb n j); [apply orb_true_r|apply orb_false_r].
Qed.

Lemma svc_active_on x : has (Z.lor x RS_OPT_SVC_ACTIVE) RS_OPT_SVC_ACTIVE = true.
Proof. apply (bit_to_has 1 2 x 2); lia. Qed.
Lemma svc_active_off x : has (Z.land x (Z.lnot RS_OPT_SVC_ACTIVE)) RS_OPT_SVC_ACTIVE = false.
Proof. apply (bit_to_has 0 2 x 2); lia. Qed.

(** ** Commands to the service

    What a command may find, and the map after it. *)
Definition fits (cmd : svc_cmd) (p : Z) (m : gmap Z Z) : Prop :=
  match cmd with RS_SVC_NOOP => False | RS_SVC_ADD_KEEPALIVE => m !! p = None | _ => is_Some (m !! p) end.
Definition commanded (cmd : svc_cmd) (p t : Z) (m : gmap Z Z) : gmap Z Z :=
  match cmd with RS_SVC_NOOP => m | RS_SVC_REM_KEEPALIVE => delete p m | _ => <[p := t]> m end.
Definition marked (cmd : svc_cmd) (opts : Z) : Z :=
  match cmd with
  | RS_SVC_ADD_KEEPALIVE => Z.lor opts RS_OPT_SVC_ACTIVE
  | RS_SVC_REM_KEEPALIVE => Z.land opts (Z.lnot RS_OPT_SVC_ACTIVE)
  | _ => opts
  end.

Lemma process_fits m v cmd p mem now opts kt : svc_rep m v → fits cmd p m → ∃ st v1,
  tcp_svc_process_sock mem now cmd p opts kt v = Ok (st, if Z.eqb st 0 then marked cmd opts else opts, v1) ∧
  svc_rep (if Z.eqb st 0 then commanded cmd p (u32 (now + kt)) m else m) v1.
Proof.
  intros Hrep Hfit. destruct cmd; cbn [fits] in Hfit; [done| | |]; cbn [tcp_svc_process_sock].
  - destruct (add_rep m v p (u32 (now + kt)) mem Hrep Hfit) as [[-> ->]|(v1 & -> & _ & Hr)].
    + exists ENOMEM, v. by split.
    + eexists 0, _. split; [reflexivity|done].
  - destruct Hfit as [t Ht]. destruct (rm_rep m v p t Hrep Ht) as (v1 & -> & Hr). exists 0, v1. by split.
  - destruct (index_rep m v p Hrep) as [[_ E]|(Hi & Hr & _)]; [destruct Hfit; congruence|]. destruct (Z.leb_spec 0 (rs_svc_index p v)); [|lia].
    eexists 0, _. split; [reflexivity|]. cbn [Z.eqb commanded]. rewrite <- Hr at 1. by apply timeout_rep.
Qed.

Lemma notify_fits m v cmd p sp thread mem1 mem2 now opts kt : svc_rep m v → fits cmd p m → ∃ st v1,
  rs_notify_svc sp thread mem1 mem2 now cmd p opts kt v = Ok (st, if Z.eqb st 0 then marked cmd opts else opts, v1) ∧
  svc_rep (if Z.eqb st 0 then commanded cmd p (u32 (now + kt)) m else m) v1.
Proof.
  intros Hrep Hfit. unfold rs_notify_svc. destruct (Z.eqb (sv_cnt v) 0); [|by apply process_fits].
  destruct (Z.eqb sp 0) eqn:Ep; cbn [negb]; [|exists sp, v; by rewrite Ep]. destruct (Z.eqb thread 0) eqn:Et; cbn [negb]; [|exists thread, v; by rewrite Et].
  destruct mem1.
  - destruct (grow_rep m 16 v Hrep) as (v0 & -> & Hr & _); [lia|]. cbn [Z.eqb negb]. by apply process_fits.
  - exists ENOMEM, v. by split.
Qed.

Section Facts.
Context {K : Type} `{!RsOpt K}.
Implicit Types (s : osock K).

(** What the values of the options come from; [TCP_MAXSEG] and [RDMA_ROUTE] are about the route. *)
Definition view s : rs_words * rs_cfg * Z := (o_words s, cfg (e_rs (o_ep s)), rs_err (e_rs (o_ep s))).
Definition stored (o : sockopt) : bool := match o with TCP_MAXSEG | RDMA_ROUTE => false | _ => true end.

Lemma value_view o s s1 : view s1 = view s → stored o = true → value o s1 = value o s.
Proof. unfold view. intros [= Hw Hc He] Ho. destruct o; try done; unfold value; by rewrite ?Hw, ?Hc, ?He. Qed.

(** The service has the socket exactly if it is marked. *)
Record served (p : Z) (m : gmap Z Z) s : Prop := {
  sd_rep : svc_rep m (o_svc s);
  sd_active : active (e_rs (o_ep s)) = bool_decide (is_Some (m !! p))
}.

Lemma notify_ok p cmd m s : served p m s → fits cmd p m → ∃ (ok : bool) s1 t, notify p cmd s = Ok (if ok then 0 else -1, s1) ∧ view s1 = view s ∧
  served p (if ok then commanded cmd p t m else m) s1.
Proof.
  intros [Hrep Ha] Hfit. unfold notify, mbind, O_bind, on_ep, dev. destruct (d_svc (e_k (o_ep s))) as [[[[[sp th] m1] m2] now] k] eqn:Ek. cbn [rbind].
  unfold command. cbn [o_ep e_rs o_words o_svc].
  destruct (notify_fits m (o_svc s) cmd p sp th m1 m2 now (opts (e_rs (o_ep s))) (keepalive_time (o_words s)) Hrep Hfit) as (st & v1 & -> & Hr).
  cbn [rbind]. unfold on_ep, rs_set, seterrno, mbind, R_bind. cbn [rbind o_ep e_rs e_mem e_errno e_k o_words].
  exists (Z.eqb st 0). destruct (Z.eqb st 0) eqn:Est; (eexists _, (u32 (now + keepalive_time (o_words s))); split; [reflexivity|]); (split; [reflexivity|]).
  - constructor; [exact Hr|]. cbn [o_ep e_rs set_opts active]. unfold active. cbn [opts set_opts]. destruct cmd; cbn [fits] in Hfit; [done| | |]; cbn [marked commanded].
    + rewrite svc_active_on, lookup_insert_eq. symmetry. apply bool_decide_eq_true_2. eauto.
    + rewrite svc_active_off, lookup_delete_eq. symmetry. apply bool_decide_eq_false_2. by intros [? ?].
    + rewrite lookup_insert_eq. unfold active in Ha. rewrite Ha, !bool_decide_eq_true_2; eauto.
  - constructor; [exact Hr|exact Ha].
Qed.

(** The options that are one bit of a word, and the value each option is given for [v]. *)
Definition is_bit (o : sockopt) : bool :=
  match o with SO_REUSEADDR | SO_LINGER | SO_KEEPALIVE | SO_OOBINLINE | TCP_NODELAY | IPV6_V6ONLY => true | _ => false end.
Definition bit_for (o : sockopt) (v : Z) : bool := match o with SO_LINGER => Z.eqb v 0 | _ => negb (Z.eqb v 0) end.
Definition taken (o : sockopt) (v : Z) s : Z :=
  let c := cfg (e_rs (o_ep s)) in
  match o with
  | SO_REUSEADDR | SO_LINGER | SO_KEEPALIVE | SO_OOBINLINE | TCP_NODELAY | IPV6_V6ONLY => Z.b2z (negb (Z.eqb v 0))
  | SO_RCVBUF => if Z.eqb (rbuf c) 0 then u32 (2 * v) else rbuf_size c
  | SO_SNDBUF => let n := if Z.eqb (sbuf c) 0 then u32 (2 * v) else sbuf_size c in if Z.ltb n RS_SNDLOWAT then 2 * RS_SNDLOWAT else n
  | TCP_KEEPIDLE => v
  | RDMA_SQSIZE | RDMA_RQSIZE => Z.min (u32 v) RS_QP_MAX_SIZE
  | RDMA_INLINE => 0
  | RDMA_IOMAPSIZE => u16 (rs_scale_to_value (u8 (rs_value_to_scale v 8)) 8)
  | _ => value o s
  end.

(** What the case of an option [o] leaves. *)
Record set_ok (p : Z) (o : sockopt) (v : Z) (m : gmap Z Z) s (ret on : Z) s1 (m1 : gmap Z Z) : Prop := {
  st_ret : ret = 0 ∨ ret = -1;
  st_served : served p m1 s1;
  st_others q : q ≠ p → m1 !! q = m !! q;
  st_bits : so_opts (o_words s1) = so_opts (o_words s) ∧ tcp_opts (o_words s1) = tcp_opts (o_words s) ∧ ipv6_opts (o_words s1) = ipv6_opts (o_words s);
  st_values o' : stored o' = true → o' ≠ TCP_KEEPIDLE → o' ≠ o ∨ ret ≠ 0 ∨ is_bit o = true → value o' s1 = value o' s;
  st_active : o ≠ SO_KEEPALIVE ∨ ret ≠ 0 → is_Some (m1 !! p) ↔ is_Some (m !! p);
  st_on : ret = 0 → is_bit o = true → negb (Z.eqb on 0) = bit_for o v;
  st_keepalive : ret = 0 → o = SO_KEEPALIVE → is_Some (m1 !! p) ↔ v ≠ 0;
  st_value : ret = 0 → is_bit o = false → stored o = true → value o s1 = taken o v s
}.

(** An option of the socket's configuration; [f] changes nothing but its value. *)
Lemma cfg_ok p o v m s f : served p m s → is_bit o = false → o ≠ TCP_KEEPIDLE → let s1 := mkOs (mkEp (set_cfg f (e_rs (o_ep s))) (e_mem (o_ep s)) (e_errno (o_ep s)) (e_k (o_ep s))) (o_words s) (o_svc s) in
  (∀ o', stored o' = true → o' ≠ o → value o' s1 = value o' s) → (stored o = true → value o s1 = taken o v s) → set_ok p o v m s 0 0 s1 m.
Proof.
  intros [Hr Ha] Hb Hi s1 Hv Ht. constructor; try done.
  - by left.
  - intros o' Hs Hne [?|[?|?]]; [by apply Hv|done|congruence].
  - congruence.
  - by intros _ ->.
Qed.

Lemma same_ok p o v m s ret on s1 : served p m s → view s1 = view s → active (e_rs (o_ep s1)) = active (e_rs (o_ep s)) → o_svc s1 = o_svc s →
  ret = 0 ∨ ret = -1 → o ≠ SO_KEEPALIVE → (ret = 0 → is_bit o = true → negb (Z.eqb on 0) = bit_for o v) →
  (ret = 0 → is_bit o = false → stored o = true → taken o v s = value o s) → set_ok p o v m s ret on s1 m.
Proof.
  intros [Hr Ha] Hview Hact Hsvc Hret Hk Hon Hval.
  constructor; [done|constructor; [by rewrite Hsvc|by rewrite Hact]|done|unfold view in Hview; by injection Hview as -> _ _|intros; by apply value_view|done|done|done|].
  intros H0 Hb Hst. rewrite Hval by done. by apply value_view.
Qed.

(** Only the keep-alive time and the service have changed. *)
Definition retimed s s1 : Prop := ∃ t, view s1 = (set_keepalive_time t (o_words s), cfg (e_rs (o_ep s)), rs_err (e_rs (o_ep s))).
Lemma retimed_value s s1 o : retimed s s1 → stored o = true → o ≠ TCP_KEEPIDLE → value o s1 = value o s.
Proof. intros [t [= Hw Hc He]] Ho Hne. destruct o; try done; unfold value; by rewrite ?Hw, ?Hc, ?He. Qed.
Lemma retimed_refl s s1 : view s1 = view s → retimed s s1.
Proof. intros E. exists (keepalive_time (o_words s)). rewrite E. unfold view. by destruct (o_words s). Qed.

(** The time is looked up before the service is told. *)
Definition with_time s t : osock K := mkOs (o_ep s) (set_keepalive_time t (o_words s)) (o_svc s).
Lemma set_keepalive_ok p v m s : served p m s → ∃ (ok : bool) s1 m1, rs_set_keepalive p v s = Ok (if ok then 0 else -1, s1) ∧ served p m1 s1 ∧
  retimed s s1 ∧ (∀ q, q ≠ p → m1 !! q = m !! q) ∧ (is_Some (m1 !! p) ↔ if ok then v ≠ 0 else is_Some (m !! p)).
Proof.
  intros Hs. pose proof (sd_active _ _ _ Hs) as Ha. unfold rs_set_keepalive, o_rs, o_get, mbind, O_bind. cbn [rbind]. rewrite Ha.
  destruct (bool_decide_reflect (is_Some (m !! p))) as [Hm|Hm], (Z.eqb_spec v 0) as [->|Hv]; cbn [negb andb orb].
  - destruct (notify_ok p RS_SVC_REM_KEEPALIVE m s Hs Hm) as (ok & s1 & t & -> & Hview & Hs1). eexists ok, s1, _. split; [done|]. split; [exact Hs1|].
    split; [by apply retimed_refl|]. destruct ok; cbn [commanded]; [|done]. split; [intros q Hq; by rewrite lookup_delete_ne|]. rewrite lookup_delete_eq. split; [by intros [? ?]|done].
  - exists true, s, m. split; [done|]. split; [done|]. split; [by apply retimed_refl|]. by split.
  - exists true, s, m. split; [done|]. split; [done|]. split; [by apply retimed_refl|]. split; [done|]. split; [by intros ?|done].
  - assert (∀ t0, ∃ (ok : bool) s1 m1, notify p RS_SVC_ADD_KEEPALIVE (with_time s t0) = Ok (if ok then 0 else -1, s1) ∧ served p m1 s1 ∧
      retimed s s1 ∧ (∀ q, q ≠ p → m1 !! q = m !! q) ∧ (is_Some (m1 !! p) ↔ if ok then v ≠ 0 else is_Some (m !! p))) as Hadd.
    { intros t0. destruct (notify_ok p RS_SVC_ADD_KEEPALIVE m (with_time s t0)) as (ok & s1 & t & -> & Hview & Hs1); [by destruct Hs; constructor|by apply eq_None_not_Some|].
      eexists ok, s1, _. split; [done|]. split; [exact Hs1|]. split; [exists t0; exact Hview|].
      destruct ok; cbn [commanded]; [|done]. split; [intros q Hq; by rewrite lookup_insert_ne|]. rewrite lookup_insert_eq. split; eauto. }
    assert (s = with_time s (keepalive_time (o_words s))) as Es by (destruct s as [? [] ?]; reflexivity).
    destruct (Z.eqb (keepalive_time (o_words s)) 0); [|specialize (Hadd (keepalive_time (o_words s))); rewrite <- Es in Hadd; exact Hadd].
    destruct (d_keepalive_file (e_k (o_ep s))) as [[f|]|]; [apply (Hadd (u32 f))| |apply (Hadd 7200)].
    specialize (Hadd (keepalive_time (o_words s))). rewrite <- Es in Hadd. exact Hadd.
Qed.

Lemma retimed_bits s s1 : retimed s s1 → so_opts (o_words s1) = so_opts (o_words s) ∧ tcp_opts (o_words s1) = tcp_opts (o_words s) ∧ ipv6_opts (o_words s1) = ipv6_opts (o_words s).
Proof. intros [t [= -> _ _]]. done. Qed.

Lemma has_land_on x : negb (Z.eqb (Z.land x RS_OPT_SVC_ACTIVE) 0) = has x RS_OPT_SVC_ACTIVE.
Proof. done. Qed.

Lemma keepalive_ok p v m s buf n : served p m s → int_at buf = Ok v → ∃ ret on s1 m1,
  set_option p SO_KEEPALIVE buf n s = Ok ((ret, on), s1) ∧ set_ok p SO_KEEPALIVE v m s ret on s1 m1.
Proof.
  intros Hs Hv. destruct (set_keepalive_ok p v m s Hs) as (ok & s1 & m1 & E & Hs1 & Hre & Ho & Hm).
  exists (if ok then 0 else -1), (Z.land (opts (e_rs (o_ep s1))) RS_OPT_SVC_ACTIVE), s1, m1. split.
  { cbn [set_option]. unfold mbind, O_bind, o_res. rewrite Hv. cbn [rbind]. rewrite E. reflexivity. }
  constructor; try done.
  - destruct ok; [by left|by right].
  - by apply retimed_bits.
  - intros o' Hst Hne _. by apply retimed_value.
  - intros [?|?]; [done|]. by destruct ok.
  - intros H0 _. destruct ok; [|done]. rewrite has_land_on. change (active (e_rs (o_ep s1)) = negb (Z.eqb v 0)). rewrite (sd_active _ _ _ Hs1).
    destruct (Z.eqb_spec v 0) as [->|]; [apply bool_decide_eq_false_2; rewrite Hm; intros Hx; by apply Hx|apply bool_decide_eq_true_2; by rewrite Hm].
  - intros H0 _. by destruct ok.
Qed.

Lemma keepidle_ok p v m s buf n : served p m s → int_at buf = Ok v → ∃ ret on s1 m1,
  set_option p TCP_KEEPIDLE buf n s = Ok ((ret, on), s1) ∧ set_ok p TCP_KEEPIDLE v m s ret on s1 m1.
Proof.
  intros Hs Hv. cbn [set_option]. unfold mbind, O_bind, o_res. rewrite Hv. cbn [rbind]. destruct (Z.leb_spec v 0).
  { eexists _, _, _, m. split; [reflexivity|]. apply same_ok; try done; by right. }
  unfold on_words, o_rs, o_get. cbn [rbind o_ep]. rewrite (sd_active _ _ _ Hs).
  assert (served p m (with_time s v)) as Hs' by (destruct Hs; by constructor).
  destruct (bool_decide_reflect (is_Some (m !! p))) as [Hm|Hm].
  - destruct (notify_ok p RS_SVC_MOD_KEEPALIVE m (with_time s v) Hs' Hm) as (ok & s1 & t & E & Hview & Hs1). unfold with_time in E. rewrite E. cbn [rbind].
    eexists _, _, _, (if ok then commanded RS_SVC_MOD_KEEPALIVE p t m else m). split; [reflexivity|]. assert (retimed s s1) as Hre by (by exists v).
    constructor; try done; [by destruct ok; [left|right]|intros q Hq; destruct ok; [by apply lookup_insert_ne|done]|by apply retimed_bits|intros; by apply retimed_value| |].
    + intros _. destruct ok; [|done]. cbn [commanded]. rewrite lookup_insert_eq. split; eauto.
    + intros _ _ _. unfold value. by injection Hview as -> _ _.
  - eexists _, _, _, m. split; [reflexivity|]. constructor; try done; [by left|]. intros o' Hst Hne _. apply retimed_value; [by exists v|done|done].
Qed.

(** A call of the connection manager changes none of it. *)
Lemma id_option_ok name buf n s : ∃ (ok : bool) s1, id_option name buf n s = Ok (if ok then 0 else -1, s1) ∧ view s1 = view s ∧
  active (e_rs (o_ep s1)) = active (e_rs (o_ep s)) ∧ o_svc s1 = o_svc s.
Proof.
  unfold id_option, on_ep, call, dev, seterrno, ERR, mbind, R_bind. destruct (d_set_option RDMA_OPTION_ID name (takeZ n buf) (e_k (o_ep s))) as [e k]. cbn [rbind].
  exists (Z.eqb e 0). destruct (Z.eqb e 0); (eexists; split; [reflexivity|]); done.
Qed.

Lemma u32_double v : u32 (Z.shiftl (u32 v) 1) = u32 (2 * v).
Proof. rewrite Z.shiftl_mul_pow2 by lia. change (2 ^ 1) with 2. unfold u32. rewrite Z.mul_comm. apply Zmult_mod_idemp_r. Qed.

(** The other values of the configuration stay. *)
Ltac cfg_case f := exists 0, 0; eexists _, _; split; [reflexivity|]; apply (cfg_ok _ _ _ _ _ f); [done|done|done| |].
Ltac cfg_rest := intros o' Hst Hne; destruct o'; done.

Lemma set_option_ok p o v m s buf n : served p m s → int_at buf = Ok v → n ≤ lenZ buf → ∃ ret on s1 m1,
  set_option p o buf n s = Ok ((ret, on), s1) ∧ set_ok p o v m s ret on s1 m1.
Proof.
  intros Hs Hv Hn. destruct o; try (by apply keepalive_ok); try (by apply keepidle_ok); cbn [set_option]; unfold mbind, O_bind, o_res; rewrite ?Hv; cbn [rbind].
  - destruct (id_option_ok RDMA_OPTION_ID_REUSEADDR buf n s) as (ok & s1 & -> & Hview & Ha & Hsv). cbn [rbind o_get].
    eexists _, _, _, m. split; [reflexivity|]. apply same_ok; try done. destruct (excused s1), ok; first [by left|by right].
  - unfold change_cfg, on_ep, rs_set. cbn [rbind]. cfg_case (λ c, if Z.eqb (rbuf c) 0 then with_rbuf_size (u32 (Z.shiftl (u32 v) 1)) c else c).
    + intros o' Hst Hne. destruct o'; try done; cbn; by destruct (Z.eqb _ 0).
    + intros _. cbn. rewrite u32_double. by destruct (Z.eqb _ 0).
  - unfold change_cfg, on_ep, rs_set. cbn [rbind o_ep e_rs e_mem e_errno e_k o_words o_svc].
    cfg_case (λ c, let c := if Z.eqb (sbuf c) 0 then with_sbuf_size (u32 (Z.shiftl (u32 v) 1)) c else c in if Z.ltb (sbuf_size c) RS_SNDLOWAT then with_sbuf_size (Z.shiftl RS_SNDLOWAT 1) c else c).
    + intros o' Hst Hne. destruct o'; try done; cbn; destruct (Z.eqb _ 0), (Z.ltb _ RS_SNDLOWAT); done.
    + intros _. cbn. rewrite u32_double. destruct (Z.eqb _ 0); cbn; by destruct (Z.ltb _ RS_SNDLOWAT).
  - eexists _, _, _, m. split; [reflexivity|]. apply same_ok; try done; [by left|]. intros _ _. cbn. by destruct (Z.eqb v 0).
  - eexists _, _, _, m. split; [reflexivity|]. apply same_ok; try done; by left.
  - eexists _, _, _, m. split; [reflexivity|]. apply same_ok; try done; by right.
  - eexists _, _, _, m. split; [reflexivity|]. apply same_ok; try done; by left.
  - eexists _, _, _, m. split; [reflexivity|]. apply same_ok; try done; by left.
  - eexists _, _, _, m. split; [reflexivity|]. apply same_ok; try done; by left.
  - eexists _, _, _, m. split; [reflexivity|]. apply same_ok; try done; by left.
  - destruct (id_option_ok RDMA_OPTION_ID_AFONLY buf n s) as (ok & s1 & -> & Hview & Ha & Hsv). cbn [rbind].
    eexists _, _, _, m. split; [reflexivity|]. apply same_ok; try done. destruct ok; first [by left|by right].
  - unfold change_cfg, on_ep, rs_set. cbn [rbind]. cfg_case (λ c, with_queues (Z.min (u32 v) RS_QP_MAX_SIZE) (rq_size c) (sq_inline c) c); [cfg_rest|done].
  - unfold change_cfg, on_ep, rs_set. cbn [rbind]. cfg_case (λ c, with_queues (sq_size c) (Z.min (u32 v) RS_QP_MAX_SIZE) (sq_inline c) c); [cfg_rest|done].
  - unfold change_cfg, on_ep, rs_set. cbn [rbind]. cfg_case (λ c, with_queues (sq_size c) (rq_size c) 0 c); [cfg_rest|done].
  - unfold change_cfg, on_ep, rs_set. cbn [rbind]. cfg_case (with_iomap_size (u16 (rs_scale_to_value (u8 (rs_value_to_scale v 8)) 8))); [cfg_rest|done].
  - unfold on_ep, dev. destruct (d_malloc n (e_k (o_ep s))) as [[] k]; cbn [rbind].
    + destruct (Z.leb_spec n (lenZ buf)); [|lia]. eexists _, _, _, m. split; [reflexivity|]. apply same_ok; try done; by left.
    + eexists _, _, _, m. split; [reflexivity|]. apply same_ok; try done; by right.
Qed.

(** ** The bits of the words *)
Definition noted (level name on : Z) s : osock K := mkOs (o_ep s) (note_option level name on (o_words s)) (o_svc s).
Definition bit_value (o : sockopt) (b : bool) : Z := Z.b2z (match o with SO_LINGER => negb b | _ => b end).

Lemma noted_value o on s o' : stored o' = true → value o' (noted (level_of o) (optname_of o) on s) =
  if decide (o' = o) then if is_bit o then bit_value o (negb (Z.eqb on 0)) else value o s else value o' s.
Proof.
  intros Hst. destruct o, o'; try done; cbn [decide]; unfold noted, note_option, value; cbn [level_of optname_of o_words o_ep]; cbn [Z.eqb Pos.eqb SOL_SOCKET IPPROTO_TCP IPPROTO_IPV6 SOL_RDMA set_so set_tcp set_ipv6 so_opts tcp_opts ipv6_opts keepalive_time];
    rewrite ?bit_to_has by lia; reflexivity.
Qed.

Lemma option_of_key level name o : option_of level name = Some o → level_of o = level ∧ optname_of o = name.
Proof.
  unfold option_of. intros Hh. assert (o ∈ filter (λ o, level_of o = level ∧ optname_of o = name) all_options) as Hin.
  { destruct (filter _ all_options); [done|]. injection Hh as ->. apply list_elem_of_here. }
  by apply list_elem_of_filter in Hin as [? _].
Qed.
Lemma option_of_self o : option_of (level_of o) (optname_of o) = Some o.
Proof. by destruct o. Qed.

(** The word of the socket level tells if the service has the socket. *)
Record options_ok (p : Z) (m : gmap Z Z) s : Prop := {
  oo_served : served p m s;
  oo_bit : value SO_KEEPALIVE s = Z.b2z (active (e_rs (o_ep s)))
}.

(** Options whose report is one integer and nothing else. *)
Definition plain (o : sockopt) : bool := match o with SO_LINGER | SO_ERROR | TCP_KEEPCNT | TCP_KEEPINTVL | RDMA_ROUTE => false | _ => true end.

Lemma noted_served p m level name on s : served p m s → served p m (noted level name on s).
Proof. intros [? ?]. by constructor. Qed.

Lemma noted_ok p o v m s ret on s1 m1 : options_ok p m s → set_ok p o v m s ret on s1 m1 → ret = 0 →
  let s2 := noted (level_of o) (optname_of o) on s1 in
  options_ok p m1 s2 ∧ (stored o = true → value o s2 = taken o v s) ∧
  (∀ o', stored o' = true → o' ≠ o → o' ≠ TCP_KEEPIDLE → value o' s2 = value o' s).
Proof.
  intros [Hsd Hbit] [Hret Hsd1 _ _ Hval Hact Hon Hka Hv] H0 s2. assert (stored o = true → value o s2 = taken o v s) as Ht.
  { intros Hst. unfold s2. rewrite noted_value by done. rewrite decide_True by done. destruct (is_bit o) eqn:Eb; [|by apply Hv].
    rewrite Hon by done. unfold bit_value, bit_for. by destruct o. }
  assert (∀ o', stored o' = true → o' ≠ o → o' ≠ TCP_KEEPIDLE → value o' s2 = value o' s) as Hoth.
  { intros o' Hst Hne Hni. unfold s2. rewrite noted_value, decide_False by done. apply Hval; auto. }
  split; [|done]. constructor; [by apply noted_served|]. change (active (e_rs (o_ep s2))) with (active (e_rs (o_ep s1))). rewrite (sd_active _ _ _ Hsd1).
  destruct (decide (o = SO_KEEPALIVE)) as [->|Hne].
  - rewrite Ht by done. cbn [taken]. f_equal. destruct (Z.eqb_spec v 0) as [->|Hnz]; symmetry; [apply bool_decide_eq_false_2|apply bool_decide_eq_true_2]; rewrite Hka by done; [lia|done].
  - rewrite Hoth by done. rewrite Hbit, (sd_active _ _ _ Hsd). f_equal. apply bool_decide_ext. by rewrite Hact by auto.
Qed.

Lemma failed_ok p o v m s ret on s1 m1 : options_ok p m s → set_ok p o v m s ret on s1 m1 → ret ≠ 0 →
  options_ok p m1 s1 ∧ (∀ o', stored o' = true → o' ≠ TCP_KEEPIDLE → value o' s1 = value o' s).
Proof.
  intros [Hsd Hbit] [Hret Hsd1 _ _ Hval Hact _ _ _] H0. split; [constructor; [done|]|intros o' Hst Hne; apply Hval; auto].
  rewrite Hval by auto. rewrite Hbit, (sd_active _ _ _ Hsd), (sd_active _ _ _ Hsd1). f_equal. apply bool_decide_ext. by rewrite Hact by auto.
Qed.

Lemma plain_get o buf len s : plain o = true → 4 ≤ lenZ buf → get_option o buf len s = Ok (0, le_bytes 4 (value o s) ++ dropZ 4 buf, 4, s).
Proof.
  intros Hp Hl. assert (∀ v, over (le_bytes 4 v) buf = Ok (le_bytes 4 v ++ dropZ 4 buf)) as Eo.
  { intros v. unfold over. change (lenZ (le_bytes 4 v)) with 4. destruct (Z.leb_spec 4 (lenZ buf)); [done|lia]. }
  destruct o; try done; cbn [get_option]; unfold mbind, O_bind, o_get, o_res; cbn [rbind]; by rewrite Eo.
Qed.
End Facts.


(** Flags that are set are the flags that are read; a call that fails leaves them. *)
Lemma flags_roundtrip {K} `{!RsOpt K} idm socket p (s : osock K) param ret s1 : idm_lookup socket idm = Ok p → p ≠ 0 → rfcntl idm socket F_SETFL param s = Ok (ret, s1) →
  rfcntl idm socket F_GETFL 0 s1 = Ok (if Z.eqb ret 0 then param else fd_flags (e_rs (o_ep s)), s1).
Proof.
  intros Hl Hp. unfold rfcntl, mbind, O_bind, o_res, o_rs, o_get. rewrite Hl. cbn [rbind]. destruct (Z.eqb_spec p 0); [done|]. cbn [F_SETFL F_GETFL Z.eqb Pos.eqb]. cbn [rbind].
  assert (∀ a r0 s0, rs_set_nonblocking a s = Ok (r0, s0) → fd_flags (e_rs (o_ep s0)) = fd_flags (e_rs (o_ep s))) as Hnb.
  { assert (∀ f (s0 : osock K) r1 s1, on_ep (call f) s0 = Ok (r1, s1) → fd_flags (e_rs (o_ep s1)) = fd_flags (e_rs (o_ep s0))) as Hcall.
    { intros f s0 r1 s1'. unfold on_ep, call, dev, seterrno, ERR, mbind, R_bind. destruct (f (e_k (o_ep s0))) as [e k]. cbn [rbind]. destruct (Z.eqb e 0); cbn [rbind mret R_ret]; by intros [= <- <-]. }
    intros a r0 s0. unfold rs_set_nonblocking, mbind, O_bind, o_get, o_rs. cbn [rbind]. intros H. apply res_bind_Ok in H as ([r1 s1'] & E1 & E2). unfold o_get in E2. cbn [rbind] in E2.
    assert (fd_flags (e_rs (o_ep s1')) = fd_flags (e_rs (o_ep s))) as <- by (destruct (d_recv_channel _); [by apply Hcall in E1|by injection E1 as <- <-]).
    destruct (_ && _) in E2; [by apply Hcall in E2|by injection E2 as <- <-]. }
  destruct (negb _); cbn [rbind].
  - destruct (rs_set_nonblocking (Z.land param O_NONBLOCK) s) as [[r0 s0]| | | |] eqn:E; try done. cbn [rbind]. apply Hnb in E. destruct (Z.eqb r0 0) eqn:E0; cbn [rbind on_ep rs_set mret O_ret]; intros [= <- <-]; rewrite E0; [done|by rewrite E].
  - cbn [Z.eqb rbind on_ep rs_set]. by intros [= <- <-].
Qed.

(** The hop limit of a route is reported in the upper bits of the flow label, and the service level is not in network order: reading the report
    with [ucma_convert_path] gives back neither. *)
Example route_fields_lost : let sa := put S_ibv_sa_path_rec ["hop_limit"] 64 (put S_ibv_sa_path_rec ["sl"] 3 (λ _, 0)) in
  let back := ucma_convert_path (rs_convert_sa_path sa) (λ _, 0) in
  get S_ibv_sa_path_rec ["hop_limit"] back = 0 ∧ get S_ibv_sa_path_rec ["sl"] back = 0 ∧ get S_ibv_sa_path_rec ["flow_label"] back ≠ 0.
Proof. vm_compute. done. Qed.

(** A new socket that asks for keep-alive messages. *)
#[local] Instance quiet_opt : RsOpt () := {
  d_set_option _ _ _ k := (0, k);
  d_context _ := false;
  d_transport_ib _ := false;
  d_route _ := [];
  d_recv_channel _ := false;
  d_fcntl_recv _ k := (0, k);
  d_fcntl_channel _ k := (0, k);
  d_keepalive_file _ := Some (Some 600);
  d_svc k := ((0, 0, true, true, 100), k);
  d_malloc _ k := (true, k)
}.
Definition new_socket : osock () := mkOs (mkEp (rs_alloc 131072 131072 384 384 0 0) (λ _, 0) 0 ()) (mkWords 0 0 0 0) no_svc.
Definition one_socket : index_map := {[0 := [0; 0; 0; 7]]}.

